(* ===== verification/_CoqProject ===== *)
-Q . S2P
Prelude.v
Delivery.v
Ids.v
Operations.v
Errors.v
GoStrings.v
Scopes.v
Limits.v
AuthzStore.v
Sessions.v
Grants.v
Credentials.v
Authority.v
Provenance.v
Messages.v
Capability.v
Pipeline.v
Ingest.v
Emoji.v
Mutations.v
Prog.v
Encoding.v
Cursor.v
Accounts.v
Workers.v
Feed.v
Supervisor.v
SupervisorPool.v
SupervisorRuns.v
Patterns.v
Pages.v
Listings.v
Scoping.v
Times.v
Params.v
Reads.v
Walks.v
Rely.v
Gather.v
Engine.v
Sweep.v
SweepRuns.v
Backfill.v
BackfillRuns.v
Patch.v
Durations.v
Settings.v
Tickets.v
MediaCache.v
Names.v
Uploads.v
UploadRuns.v
UploadPool.v
Downloads.v
DownloadRuns.v
DownloadPool.v
Sources.v
Redirects.v
Rows.v
Clients.v
Browser.v
BrowserRuns.v
