(* ===== verification/Prelude.v ===== *)
(** * agent-gm: a verification library for the Google Messages gateway

    The program is a server that keeps a local copy of the owner's Google Messages
    threads and sends on the owner's behalf.  A library ([internal/gm], over a
    third-party protocol client) talks to the phone; [internal/core] ingests what the
    phone reports and runs the owner's mutations; [internal/store] is an SQLite
    database with the conversations, messages, attachments, reactions and one row per
    mutation (an operation); [internal/apierr] is the closed vocabulary of public
    errors.  A mutation goes: checks (Capability.v, Mutations.v), idempotency lookup and
    operation row (Pipeline.v, Operations.v), library call, recorded outcome.  What the
    phone then reports comes back as an event (Ingest.v), is upserted (Messages.v), and
    an event that carries the tmp ID of a send settles that send's operation.  Who may
    ask for a mutation is decided by [internal/authz] and [internal/oauth]: the owner
    mints sessions with a secret, a client gets a grant through a code the owner issued
    and approved, and both live on rotating refresh tokens (Scopes.v to Provenance.v).
    Which accounts are connected to their phones at all is the supervisor's business
    ([internal/accounts], Accounts.v to SupervisorRuns.v).  What is stored is read back
    through filtered listings with signed cursors ([internal/store/queries.go],
    [internal/api/reads.go], Encoding.v to Walks.v).  What the phone did not report is
    fetched: a sweep after every gap and a backfill of the history (internal/core/reconcile.go,
    backfill.go, Engine.v to BackfillRuns.v).  The owner tunes the server through a table
    of settings (Durations.v, Settings.v), and bytes come and go through reservations and
    tickets (Tickets.v, MediaCache.v).

    ** Conventions

    A method of [*Store] is a function from the clock reading it takes and the tables
    to a [Result] of new tables and a value; the error branch is a rolled-back
    transaction.  A table is a [gmap] from the primary key to a record of columns, a
    nullable column is an [option]; UNIQUE, REFERENCES and the trigger are tests inside
    the functions.  Integers are [Z]; the machine arithmetic in the modelled code is that
    of the ingester's counters and of durations, and wraps at 64 bits.  A Go error is the tree [GoError] of
    Errors.v.  Third-party code is a type class: [UUID] (with [UUIDLaws]: name-based
    UUIDs are injective, parse, and hold no NUL byte), [SHA256] (with [CollisionFree]:
    distinct inputs have distinct digests), [Crypto] (HMAC, HKDF and SHA-256 of cursors;
    no law of the MAC, [DigestInj] where a fingerprint must determine its query), [Digest] (SHA-256 and JSON of a byte slice), [JSONLib] (no laws), [GoFmt] (the [%q] verb; no laws), [Norm]
    (with [NormLaws] of NFC), [Backend] (the phone; no laws: a call may do anything to
    the state, which also stands for requests running at the same time), [Phone] (with
    [PhoneLaws]: what a listing of the phone serves, page by page), [GoDuration] (with
    [GoDurationLaws]: the float64 product of a fraction is exact where it fits),
    [JSONScalars] (with their round trips), [MacLaws] (distinct messages have distinct
    MACs), [Lower] (lower case), [UploadIDs] (with [UploadIDLaws]: a drawn ID is new, and a
    plain name), [Sniffer] (net/http's content sniffing; no laws).  Every class has a concrete instance with its laws, which
    the witnesses use.  Loops are over lists, the send retries over the backoffs.  Fuel
    bounds four: the rebalance of the supervisor (above the number of accounts is enough,
    rebalance_fills), the page walks of the sweep and the backfill (above the number of
    pages, backfill_walks_end), the goroutine group of Gather.v (above its weight,
    play_ends), and the terms of a duration (the length of its text, sums).

    ** Files

    - Prelude.v: [Result], nullable columns, UPDATE/DELETE/SELECT over a table, the
      sorted listing of a table (messages.go [Conversations], [Messages]), tactics.
    - Delivery.v: internal/gm/delivery.go.  The delivery vocabulary, the transition
      rule, the ignore sets, the SQL trigger.  The trigger agrees with the rule; no
      history returns to a state it left; raw statuses never conflict.
    - Ids.v: internal/store/ids.go.  Derived public IDs are injective.
    - Operations.v: internal/store/operations.go.  [OpStep] is one call of any method
      that changes the table; every history refines the lifecycle of the status machine,
      keeps the row invariant and the uniqueness of keys, and never leaves succeeded or
      failed; the crash sweep and the pending reaper settle exactly what they should.
    - Errors.v: internal/gm/errors.go, [ClassifyResolve] of internal/core/send.go,
      internal/apierr/codes.go and from.go.  Classification looks through wrapping,
      agrees with the public table, and only known codes leave the program.
    - GoStrings.v: UTF-8 decoding of Go's [range] and the string tests built on it.
    - Scopes.v: internal/authz/scopes.go.  Scope sets, their parsing and rendering.
    - Limits.v: internal/authz/limits.go.  The durable failure limiter and the
      concurrency limiter: exactly when a request is refused, and for how long.
    - AuthzStore.v: internal/store/authz.go, oauth.go and the tables of migrations 0003,
      0006 and 0009.  A write inside a transaction is a [Tx]; [AuthzTx] rolls back.
    - Sessions.v: internal/authz/service.go, oauth.go, compare.go.  An operation that
      reads and then writes in a transaction is two functions, [*_read] and [*_finish].
    - Grants.v: internal/oauth/admin.go, authorize_post.go, requests.go, token.go,
      register.go.  Enrollment code, submission, approval, completion, exchange.
    - Credentials.v: the invariant [core] of authorizations and tokens and the order
      [core_le] their histories follow.
    - Authority.v: [Step], the interleavings of all of these operations.  A refresh token
      is redeemed at most once and its reuse ends the session; an ended authorization
      stays ended; scopes only narrow; what a bearer token is worth.
    - Provenance.v: the invariant [flow] of the grant pipeline over the same system.
      Every grant goes back to one code of the owner and stays within its ceiling; an
      authorization code is redeemed at most once.
    - Messages.v: internal/store/messages.go, contacts.go, attachments.go,
      reactions.go.  [MsgStep] is one call of any writer; [db_ok] is the invariant of
      every reachable database and [db_le] the order its histories follow; what each
      upsert does on every branch; listings.
    - Capability.v: internal/core/capability.go, accounts.go, and the constructors of
      internal/apierr/error.go they use.  Each check refuses exactly when it should; a
      write names exactly one existing account.
    - Pipeline.v: internal/core/operations.go and [SendWithRetry].  [World] is the state
      of the process; [runOperation] is steps 7 to 11 of a mutation.  Which requests
      reach the library, that a key reaches it at most once, what is recorded, the
      retry schedule, the fingerprint.
    - Ingest.v: internal/core/ingest.go and the echo correlation.  [WStep] is a step of
      either store; ingestion is a history of such steps; replays have no side effects;
      what an echo makes of an operation in each status; conversation activity.
    - Emoji.v: internal/gm/emoji.go.  Canonicalisation of reactions.
    - Mutations.v: internal/core/mutations.go, reactions.go and [freshSend] of
      refresh.go.  Nothing happens before every check passed; the local half of a
      reaction; which reaction a removal addresses.
    - Prog.v: a function that runs beside other goroutines, as a sequence of atomic
      actions; runs, what every action guarantees, pools.
    - Accounts.v: internal/store/accounts.go and the vocabulary of
      internal/accounts/state.go.  A paired account is never lost; the sweep of
      abandoned pairings.
    - Workers.v: internal/accounts/workers.go.  One walk per account; no lost wake-up.
    - Feed.v: the feed of internal/accounts/state.go.  Whom a publication reaches; the
      panic of a subscriber that leaves meanwhile.
    - Supervisor.v: internal/accounts/supervisor.go and lifecycle.go, every method as a
      program.  SupervisorPool.v: what holds under every interleaving (slots, isolation,
      the table's and the workers' invariants).  SupervisorRuns.v: what a method does
      when nothing interrupts it (events, rebalance, sign-out, failed pairing, the feed),
      and the interleavings in which two methods undo each other.

    - Encoding.v: base64, splitting and decimal numbers of Go's standard library.
      Cursor.v: internal/store/cursor.go.  A token reads back as its position, and only
      under its own query.
    - Patterns.v: the text matching of internal/store/queries.go over SQLite's LIKE.
      Pages.v: keyset pages and walks over tables that change meanwhile.  Listings.v:
      the four filtered listings and the context of a message.  Scoping.v: their account
      and all-accounts forms agree, by an invariant every write keeps.
    - Times.v: RFC 3339 parsing, internal/wire/instant.go.  Params.v:
      internal/api/params.go.  Reads.v: the listing handlers of internal/api/reads.go
      and refresh.go.  Walks.v: the interface [ListingRoute], what a caller that follows
      next_cursor is promised, and that every listing handler implements it.

    - Rely.v: what a program guarantees at every action and ensures at its end, under
      interference; pools of programs.  Gather.v: goroutines on a bounded number of slots,
      the loop over conversations of a sweep and a backfill (eachConversation).
    - Engine.v: the account engine's state, its cursors and the single calls a walk is
      made of.  Sweep.v: internal/core/reconcile.go.  SweepRuns.v: a sweep recovers what
      the phone holds since the last mark, and records how far it got.
    - Backfill.v: internal/core/backfill.go.  BackfillRuns.v: every walk ends, resumes
      where it stopped, and is marked complete only when it reached the horizon.
    - Patch.v: internal/core/patch.go.  What a PATCH of a conversation changes.
    - Durations.v: the duration syntax of internal/settings/value.go over
      time.ParseDuration.  Settings.v: the registry, the resolution of a value from
      database, environment and default, and the PATCH; values are typed and bounded.
    - Tickets.v: internal/media/ticket.go and the uploads and download tickets of
      internal/store/media.go.  MediaCache.v: internal/media/serve.go, cache.go and
      storeindex.go: content types, path containment, eviction.
    - Names.v: internal/apierr/normalize.go.  A cleaned file name is a safe one.
    - Uploads.v: the upload routes of internal/api/media.go and content.go and the media
      types of internal/gm/media.go, as programs.  UploadRuns.v: what a PUT does, exactly.

    Later files use the invariants of earlier ones through the step relations: a
    function of the core is shown to be a sequence of [OpStep]s and [MsgStep]s, and the
    theorems about [rtc] of those carry over.

    ** Not modelled, and planned

    Planned next: the download routes, reprocessing, the events of the engine, the health
    block.  Full-text search is SQLite's; what one account's refresh does to
    the store is an argument of the read handlers.  Cancellation in the middle of an
    ingested page is not modelled: the ingestion of one item is one action.  Of the
    authorization, the token buckets (floating point; their answer is an argument), the
    proxy source resolver, dynamic registration's checks, redirect matching, the browser
    checks of the authorization page and the audit notes of expired codes and requests
    are left out.  Not planned:
    the adapter to the protocol library, the HTTP, MCP and command-line front ends,
    configuration, logging, audit rows, backup and encryption, which are glue, I/O or
    third-party code.  Within the modelled files, audit rows, log lines and the test-only
    fault seam of [runOperation] are left out, and the ingester's counters are not part
    of [World]. *)

From stdpp Require Export base gmap strings list numbers fin_maps option decidable relations sorting.
From Stdlib Require Export Lia.

#[export] Set Default Goal Selector "!".

(** ** The error monad

    A Go function returning [(T, error)] is a [Result E T]: the source tests
    the error before it looks at the value, so one of the two is meaningful. *)

Inductive Result (E A : Type) : Type :=
| Ok (a : A)
| Err (e : E).
Arguments Ok {E A} a.
Arguments Err {E A} e.

#[export] Instance Result_ret (E : Type) : MRet (Result E) := fun A a => Ok a.
#[export] Instance Result_bind (E : Type) : MBind (Result E) :=
  fun A B k r => match r with Ok a => k a | Err e => Err e end.

Definition is_ok {E A} (r : Result E A) : bool :=
  match r with Ok _ => true | Err _ => false end.

Lemma bind_Ok_inv {E A B} (r : Result E A) (k : A -> Result E B) b :
  r ≫= k = Ok b -> exists a, r = Ok a /\ k a = Ok b.
Proof. destruct r; naive_solver. Qed.

(** ** SQL columns

    A nullable column is an [option]; a Go zero value written through
    [nullString]/[nullInt] is NULL, and a NULL scanned into a
    [sql.NullString]/[sql.NullInt64] reads back as the zero value. *)

Definition nullString (s : string) : option string :=
  if decide (s = ""%string) then None else Some s.

Definition nullInt (v : Z) : option Z :=
  if decide (v = 0%Z) then None else Some v.

(** [sql.NullString.String] and [sql.NullInt64.Int64]. *)
Definition scanString (c : option string) : string := default ""%string c.
Definition scanInt (c : option Z) : Z := default 0%Z c.

(** [COALESCE(a, b)]. *)
Definition coalesce {A} (a b : option A) : option A :=
  match a with Some x => Some x | None => b end.

Lemma scan_nullString s : scanString (nullString s) = s.
Proof. unfold nullString. by case_decide; subst. Qed.

Lemma scan_nullInt v : scanInt (nullInt v) = v.
Proof. unfold nullInt. by case_decide; subst. Qed.

Lemma nullString_nonempty s : s <> ""%string -> nullString s = Some s.
Proof. intros. unfold nullString. by rewrite decide_False. Qed.

Lemma coalesce_Some_l {A} (x : A) b : coalesce (Some x) b = Some x.
Proof. done. Qed.

Lemma coalesce_None_l {A} (b : option A) : coalesce None b = b.
Proof. done. Qed.

(** ** Tables

    A table is a [gmap] from its primary key to its row. *)

Section Tables.
Context {K : Type} `{Countable K} {V : Type}.
Implicit Types (P : V -> bool) (f : V -> V) (m : gmap K V).

(** [UPDATE t SET f WHERE P]. *)
Definition update_where P f m : gmap K V :=
  (fun r => if P r then f r else r) <$> m.

(** [DELETE FROM t WHERE P]. *)
Definition delete_where P m : gmap K V :=
  filter (fun kv : K * V => P kv.2 = false) m.

(** [SELECT * FROM t WHERE P], in no particular order. *)
Definition select_where P m : list V :=
  filter (fun r => P r = true) (map_to_list m).*2.

(** [RowsAffected] of an [UPDATE] or [DELETE] with condition [P]. *)
Definition rows_affected P m : nat := length (select_where P m).

Lemma lookup_update_where P f m k :
  update_where P f m !! k = (fun r => if P r then f r else r) <$> m !! k.
Proof. apply lookup_fmap. Qed.

Lemma dom_update_where P f m : dom (update_where P f m) = dom m.
Proof. apply dom_fmap_L. Qed.

Lemma update_where_None P f m k : update_where P f m !! k = None <-> m !! k = None.
Proof. rewrite lookup_update_where. by destruct (m !! k). Qed.

Lemma lookup_update_where_Some P f m k r' :
  update_where P f m !! k = Some r' <->
  exists r, m !! k = Some r /\ r' = if P r then f r else r.
Proof. rewrite lookup_update_where, fmap_Some. naive_solver. Qed.

Lemma lookup_delete_where_Some P m k r :
  delete_where P m !! k = Some r <-> m !! k = Some r /\ P r = false.
Proof. unfold delete_where. by rewrite map_lookup_filter_Some. Qed.

Lemma elem_of_select_where P m r :
  r ∈ select_where P m <-> exists k, m !! k = Some r /\ P r = true.
Proof.
  unfold select_where. rewrite list_elem_of_filter, list_elem_of_fmap. split.
  - intros [HP [[k v] [-> Hkv]]]. exists k. by apply elem_of_map_to_list in Hkv.
  - intros [k [Hk HP]]. split; [done|]. exists (k, r).
    by rewrite elem_of_map_to_list.
Qed.

Lemma select_where_nil P m :
  select_where P m = [] <-> forall k r, m !! k = Some r -> P r = false.
Proof.
  split.
  - intros Hnil k r Hk. destruct (P r) eqn:HP; [|done].
    assert (r ∈ select_where P m) as Hin by (apply elem_of_select_where; eauto).
    rewrite Hnil in Hin. by apply not_elem_of_nil in Hin.
  - intros Hall. destruct (select_where P m) as [|r l] eqn:E; [done|].
    assert (r ∈ select_where P m) as [k [Hk HP]]%elem_of_select_where
      by (rewrite E; apply elem_of_cons; auto).
    rewrite (Hall _ _ Hk) in HP. done.
Qed.

Lemma rows_affected_empty P : rows_affected P ∅ = 0%nat.
Proof. unfold rows_affected, select_where. by rewrite map_to_list_empty. Qed.

Lemma rows_affected_insert P m k r :
  m !! k = None ->
  rows_affected P (<[k:=r]> m) = ((if P r then 1 else 0) + rows_affected P m)%nat.
Proof.
  intros Hk. unfold rows_affected, select_where.
  rewrite (map_to_list_insert m k r Hk). simpl.
  destruct (P r) eqn:HP.
  - by rewrite filter_cons_True.
  - rewrite filter_cons_False by congruence. done.
Qed.

(** A [DELETE] removes as many rows as it reports. *)
Lemma size_delete_where P m :
  (rows_affected P m + size (delete_where P m) = size m)%nat.
Proof.
  induction m as [|k r m Hk IH] using map_ind.
  { rewrite rows_affected_empty. unfold delete_where. by rewrite map_filter_empty. }
  rewrite rows_affected_insert, map_size_insert_None by done.
  unfold delete_where in *. destruct (P r) eqn:HP.
  - rewrite map_filter_insert_False by (simpl; congruence).
    rewrite delete_id by done. lia.
  - rewrite map_filter_insert_True by done.
    rewrite map_size_insert_None; [lia|]. apply map_lookup_filter_None. auto.
Qed.
End Tables.

(** [ORDER BY key LIMIT 1]: the first row that no other row precedes under
    [lt].  Which of several rows with equal keys is taken is SQLite's choice;
    here it is the enumeration of the map, and no lemma depends on it. *)
Section First.
Context {V : Type} (key : V -> Z).

Fixpoint first_by (l : list V) : option V :=
  match l with
  | [] => None
  | x :: l' =>
      match first_by l' with
      | None => Some x
      | Some y => if (key y <? key x)%Z then Some y else Some x
      end
  end.

Lemma first_by_elem l x : first_by l = Some x -> x ∈ l.
Proof.
  revert x. induction l as [|a l IH]; intros x; simpl; [done|].
  rewrite elem_of_cons. destruct (first_by l) as [y|]; [|naive_solver].
  destruct (key y <? key a)%Z; naive_solver.
Qed.

Lemma first_by_least l x : first_by l = Some x -> forall y, y ∈ l -> (key x <= key y)%Z.
Proof.
  revert x. induction l as [|a l IH]; intros x; simpl; [done|].
  destruct (first_by l) as [z|] eqn:E.
  - intros Hx y [->|Hy]%elem_of_cons.
    + destruct (key z <? key a)%Z eqn:Hlt; simplify_eq; lia.
    + specialize (IH z eq_refl y Hy).
      destruct (key z <? key a)%Z eqn:Hlt; simplify_eq; lia.
  - intros [= <-] y [->|Hy]%elem_of_cons; [lia|].
    destruct l as [|b l']; [by apply not_elem_of_nil in Hy|]. simpl in E.
    destruct (first_by l') as [w|]; [destruct (key w <? key b)%Z|]; done.
Qed.

Lemma first_by_None l : first_by l = None <-> l = [].
Proof.
  destruct l as [|a l]; [done|]. simpl. split; [|done].
  destruct (first_by l) as [y|]; [destruct (key y <? key a)%Z|]; done.
Qed.
End First.

(** ** Listings

    [SELECT ... WHERE P ORDER BY key DESC, id DESC], with a [LIMIT] when it is
    positive.  Text compares bytewise, as SQLite's BINARY collation does. *)
Section Listing.
Context {V : Type} (key : V -> Z).

Definition newest_first (x y : string * V) : Prop :=
  (key y.2 < key x.2)%Z \/ key y.2 = key x.2 /\ String.le y.1 x.1.

#[export] Instance newest_first_dec : RelDecision newest_first.
Proof. intros x y. unfold newest_first. apply _. Defined.

#[export] Instance newest_first_total : Total newest_first.
Proof.
  intros [i x] [j y]. unfold newest_first. simpl.
  destruct (Z.lt_trichotomy (key x) (key y)) as [?|[?|?]]; [by auto| |by auto].
  destruct (total String.le i j); auto.
Qed.

#[export] Instance newest_first_trans : Transitive newest_first.
Proof.
  intros [i x] [j y] [k z]. unfold newest_first. simpl.
  intros [?|[? ?]] [?|[? ?]]; [left; lia..|].
  right. split; [lia|by etransitivity].
Qed.

Definition page (limit : nat) (l : list (string * V)) : list (string * V) :=
  match limit with 0%nat => l | _ => take limit l end.

Definition listing (P : string * V -> bool) (limit : nat) (t : gmap string V)
    : list (string * V) :=
  page limit (merge_sort newest_first (filter (fun x => P x = true) (map_to_list t))).

Lemma page_sub limit l : page limit l `sublist_of` l.
Proof. unfold page. destruct limit; [done|apply sublist_take]. Qed.

Lemma listing_elem P limit t x :
  x ∈ listing P limit t -> t !! x.1 = Some x.2 /\ P x = true.
Proof.
  intros Hx. assert (x ∈ filter (fun x => P x = true) (map_to_list t)) as Hin.
  { rewrite <- (merge_sort_Permutation newest_first). by eapply elem_of_sublist, page_sub. }
  apply list_elem_of_filter in Hin as [? Hin]. destruct x. by apply elem_of_map_to_list in Hin.
Qed.

Lemma listing_all P t x :
  x ∈ listing P 0 t <-> t !! x.1 = Some x.2 /\ P x = true.
Proof.
  split; [apply listing_elem|]. intros [Hx HP]. unfold listing. simpl.
  rewrite merge_sort_Permutation. apply list_elem_of_filter. split; [done|].
  destruct x. by apply elem_of_map_to_list.
Qed.

Lemma listing_sorted P limit t : StronglySorted newest_first (listing P limit t).
Proof.
  unfold listing. set (l := merge_sort _ _).
  assert (StronglySorted newest_first l) as Hs by apply (StronglySorted_merge_sort _).
  unfold page. destruct limit as [|n]; [done|].
  rewrite <- (take_drop (S n) l) in Hs. by eapply StronglySorted_app_1_l.
Qed.

Lemma listing_NoDup P limit t : NoDup (listing P limit t).*1.
Proof.
  eapply (sublist_NoDup _ (merge_sort newest_first (filter (fun x => P x = true) (map_to_list t))).*1).
  - rewrite merge_sort_Permutation.
    eapply sublist_NoDup; [apply (NoDup_fst_map_to_list t)|].
    apply fmap_sublist, sublist_filter.
  - apply fmap_sublist, page_sub.
Qed.

(** A limit cuts a prefix off the unlimited listing. *)
Lemma listing_limit P limit t :
  (0 < limit)%nat -> listing P limit t = take limit (listing P 0 t).
Proof. unfold listing, page. by destruct limit; [lia|]. Qed.
End Listing.

(** ** Automation *)

Create HintDb gm.
#[export] Hint Rewrite @lookup_update_where @dom_update_where : gm.
#[export] Hint Rewrite scan_nullString scan_nullInt : gm.

(** Case-split the first [match]/[if] in the goal, remembering the equation. *)
Ltac case_goal :=
  match goal with
  | |- context [match ?x with _ => _ end] =>
      lazymatch x with context [match _ with _ => _ end] => fail | _ => destruct x eqn:? end
  end.

(** The same in a hypothesis. *)
Ltac case_hyp H :=
  match type of H with
  | context [match ?x with _ => _ end] =>
      lazymatch x with context [match _ with _ => _ end] => fail | _ => destruct x eqn:? end
  end.

(** Turn the boolean tests of the code into propositions. *)
Ltac bool_to_prop :=
  repeat match goal with
  | H : (_ && _)%bool = true |- _ => apply andb_true_iff in H as [? ?]
  | H : (_ && _)%bool = false |- _ => apply andb_false_iff in H
  | H : (_ || _)%bool = false |- _ => apply orb_false_iff in H as [? ?]
  | H : negb _ = true |- _ => apply negb_true_iff in H
  | H : negb _ = false |- _ => apply negb_false_iff in H
  | H : bool_decide _ = true |- _ => apply bool_decide_eq_true in H
  | H : bool_decide _ = false |- _ => apply bool_decide_eq_false in H
  | H : (_ <? _)%Z = true |- _ => apply Z.ltb_lt in H
  | H : (_ <? _)%Z = false |- _ => apply Z.ltb_ge in H
  | H : (_ <=? _)%Z = true |- _ => apply Z.leb_le in H
  | H : (_ <=? _)%Z = false |- _ => apply Z.leb_gt in H
  | H : (_ =? _)%Z = true |- _ => apply Z.eqb_eq in H
  | H : (_ =? _)%Z = false |- _ => apply Z.eqb_neq in H
  end.
