(* ===== verification/Delivery.v ===== *)
(** * Delivery states (internal/gm/delivery.go)

    The closed vocabulary of delivery states, the table from Google's raw
    [MessageStatusType] values to it, the transition rule for outgoing
    messages, the two ignore sets, and the SQL trigger of migration 0001 that
    enforces the same transition rule inside the database.  The theorems show
    that the trigger and the Go function agree, that the permitted moves form
    a partial order (so a message never returns to a state it left), and how
    the status band, the ignore sets and the table fit together. *)

From S2P Require Import Prelude.

(** ** Vocabulary *)

Inductive DeliveryState : Type :=
| DeliveryStateSending
| DeliveryStateSent
| DeliveryStateDelivered
| DeliveryStateRead
| DeliveryStateFailed
| DeliveryStateCanceled
| DeliveryStateDeleted
| DeliveryStateReceived
| DeliveryStateDownloading
| DeliveryStateDownloadFailed
| DeliveryStateUnknown.

#[export] Instance DeliveryState_eq_dec : EqDecision DeliveryState.
Proof. solve_decision. Defined.

Definition DeliveryStates : list DeliveryState :=
  [DeliveryStateSending; DeliveryStateSent; DeliveryStateDelivered; DeliveryStateRead;
   DeliveryStateFailed; DeliveryStateCanceled; DeliveryStateDeleted; DeliveryStateReceived;
   DeliveryStateDownloading; DeliveryStateDownloadFailed; DeliveryStateUnknown].

(** The string each state is stored and served as. *)
Definition DeliveryState_string (s : DeliveryState) : string :=
  match s with
  | DeliveryStateSending => "sending"
  | DeliveryStateSent => "sent"
  | DeliveryStateDelivered => "delivered"
  | DeliveryStateRead => "read"
  | DeliveryStateFailed => "failed"
  | DeliveryStateCanceled => "canceled"
  | DeliveryStateDeleted => "deleted"
  | DeliveryStateReceived => "received"
  | DeliveryStateDownloading => "downloading"
  | DeliveryStateDownloadFailed => "download_failed"
  | DeliveryStateUnknown => "unknown"
  end.

Inductive MessageKind : Type := MessageKindMessage | MessageKindSystem.
Inductive Direction : Type := DirectionIncoming | DirectionOutgoing.

#[export] Instance MessageKind_eq_dec : EqDecision MessageKind.
Proof. solve_decision. Defined.
#[export] Instance Direction_eq_dec : EqDecision Direction.
Proof. solve_decision. Defined.

(** ** The raw status table *)

Definition SystemEventStatusMin : Z := 200.
Definition SystemEventStatusMax : Z := 279.
Definition MessageDeletedStatus : Z := 300.

Definition deliveryStates_list : list (Z * DeliveryState) :=
  [(0, DeliveryStateUnknown);
   (3, DeliveryStateSending); (4, DeliveryStateSending); (5, DeliveryStateSending);
   (6, DeliveryStateSending); (7, DeliveryStateSending); (10, DeliveryStateSending);
   (16, DeliveryStateSending); (20, DeliveryStateSending);
   (1, DeliveryStateSent); (14, DeliveryStateSent);
   (2, DeliveryStateDelivered); (11, DeliveryStateRead);
   (8, DeliveryStateFailed); (9, DeliveryStateFailed); (13, DeliveryStateFailed);
   (17, DeliveryStateFailed); (18, DeliveryStateFailed); (19, DeliveryStateFailed);
   (21, DeliveryStateFailed); (22, DeliveryStateFailed); (24, DeliveryStateFailed);
   (25, DeliveryStateFailed); (26, DeliveryStateFailed); (27, DeliveryStateFailed);
   (12, DeliveryStateCanceled); (15, DeliveryStateCanceled);
   (23, DeliveryStateDeleted); (117, DeliveryStateDeleted); (300, DeliveryStateDeleted);
   (100, DeliveryStateReceived); (108, DeliveryStateReceived);
   (109, DeliveryStateReceived); (116, DeliveryStateReceived);
   (101, DeliveryStateDownloading); (102, DeliveryStateDownloading);
   (103, DeliveryStateDownloading); (104, DeliveryStateDownloading);
   (105, DeliveryStateDownloading); (115, DeliveryStateDownloading);
   (106, DeliveryStateDownloadFailed); (107, DeliveryStateDownloadFailed);
   (110, DeliveryStateDownloadFailed); (111, DeliveryStateDownloadFailed);
   (112, DeliveryStateDownloadFailed); (113, DeliveryStateDownloadFailed);
   (114, DeliveryStateDownloadFailed); (118, DeliveryStateDownloadFailed)]%Z.

Definition deliveryStates : gmap Z DeliveryState := list_to_map deliveryStates_list.

Definition IsSystemEventStatus (raw : Z) : bool :=
  ((SystemEventStatusMin <=? raw) && (raw <=? SystemEventStatusMax))%Z.

Definition KindForStatus (raw : Z) : MessageKind :=
  if IsSystemEventStatus raw then MessageKindSystem else MessageKindMessage.

Definition DeliveryStateFor (raw : Z) : DeliveryState * bool :=
  if IsSystemEventStatus raw then (DeliveryStateReceived, true)
  else match deliveryStates !! raw with
       | None => (DeliveryStateUnknown, false)
       | Some st => (st, true)
       end.

Definition MappedStatusValues : list Z := (map_to_list deliveryStates).*1.

(** [gm.Message.Direction]: incoming statuses are 100-118. *)
Definition MessageDirection (raw : Z) : Direction :=
  if ((100 <=? raw) && (raw <=? 118))%Z then DirectionIncoming else DirectionOutgoing.

(** ** The transition rule *)

Definition deliveryRank (s : DeliveryState) : option Z :=
  match s with
  | DeliveryStateSending => Some 1%Z
  | DeliveryStateSent => Some 2%Z
  | DeliveryStateDelivered => Some 3%Z
  | DeliveryStateRead => Some 4%Z
  | _ => None
  end.

Definition TransitionAllowed (from to : DeliveryState) : bool :=
  if decide (from = to) then true
  else if decide (to = DeliveryStateDeleted) then true
  else if decide (from = DeliveryStateUnknown) then true
  else if decide (from = DeliveryStateDeleted) then false
  else match to with
       | DeliveryStateFailed =>
           bool_decide (from = DeliveryStateSending) || bool_decide (from = DeliveryStateSent)
       | DeliveryStateCanceled => bool_decide (from = DeliveryStateSending)
       | DeliveryStateSending | DeliveryStateSent
       | DeliveryStateDelivered | DeliveryStateRead =>
           match deliveryRank from, deliveryRank to with
           | Some fr, Some tr => (fr <? tr)%Z
           | _, _ => false
           end
       | _ => false
       end.

Definition IsOutgoingLadderState (s : DeliveryState) : bool :=
  match s with
  | DeliveryStateSending | DeliveryStateSent | DeliveryStateDelivered
  | DeliveryStateRead | DeliveryStateFailed | DeliveryStateCanceled
  | DeliveryStateDeleted | DeliveryStateUnknown => true
  | _ => false
  end.

(** ** The ignore sets *)

Definition ignoreInDM : gset Z :=
  list_to_set [214; 215; 216; 219; 206; 207; 213; 235; 236; 237; 238]%Z.

Definition ignoreAlways : gset Z :=
  list_to_set [229; 234; 233; 203; 204; 205; 245; 210; 259]%Z.

Definition ShouldIgnoreStatus (raw : Z) (isDM : bool) : bool :=
  if decide (raw ∈ ignoreAlways) then true
  else if decide (raw ∈ ignoreInDM) then isDM
  else false.

Definition IgnoredStatuses : list Z * list Z := (elements ignoreInDM, elements ignoreAlways).

(** ** The database trigger

    [messages_no_backward_delivery] of migration 0001: the [WHEN] condition
    under which an [UPDATE OF delivery_state] is aborted. *)

Definition trigger_permitted : list (DeliveryState * DeliveryState) :=
  [(DeliveryStateSending, DeliveryStateSent);
   (DeliveryStateSending, DeliveryStateDelivered);
   (DeliveryStateSending, DeliveryStateRead);
   (DeliveryStateSending, DeliveryStateFailed);
   (DeliveryStateSending, DeliveryStateCanceled);
   (DeliveryStateSent, DeliveryStateDelivered);
   (DeliveryStateSent, DeliveryStateRead);
   (DeliveryStateSent, DeliveryStateFailed);
   (DeliveryStateDelivered, DeliveryStateRead)].

Definition messages_no_backward_delivery
    (direction : Direction) (old new : DeliveryState) : bool :=
  bool_decide (direction = DirectionOutgoing) &&
  bool_decide (new <> old) &&
  bool_decide (new <> DeliveryStateDeleted) &&
  bool_decide (old <> DeliveryStateUnknown) &&
  bool_decide ((old, new) ∉ trigger_permitted).

(** ** Lemmas *)

Lemma DeliveryStates_complete s : s ∈ DeliveryStates.
Proof. destruct s; unfold DeliveryStates; set_solver. Qed.

#[export] Instance DeliveryState_string_inj : Inj (=) (=) DeliveryState_string.
Proof. intros [] []; simpl; congruence. Qed.

Lemma deliveryStates_lookup raw st :
  deliveryStates !! raw = Some st <-> (raw, st) ∈ deliveryStates_list.
Proof.
  split.
  - apply elem_of_list_to_map_2.
  - apply elem_of_list_to_map_1.
    apply (bool_decide_unpack _). by vm_compute.
Qed.

(** A property of every entry of the table is checked by running it. *)
Lemma deliveryStates_forall (P : Z -> DeliveryState -> bool) :
  forallb (fun kv => P kv.1 kv.2) deliveryStates_list = true ->
  forall raw st, deliveryStates !! raw = Some st -> P raw st = true.
Proof.
  intros Hall raw st Hl%deliveryStates_lookup.
  rewrite forallb_forall in Hall. by apply (Hall (raw, st)), list_elem_of_In.
Qed.

Lemma IsSystemEventStatus_spec raw :
  IsSystemEventStatus raw = true <-> (200 <= raw <= 279)%Z.
Proof.
  unfold IsSystemEventStatus, SystemEventStatusMin, SystemEventStatusMax.
  rewrite andb_true_iff, !Z.leb_le. done.
Qed.

Lemma TransitionAllowed_refl s : TransitionAllowed s s = true.
Proof. unfold TransitionAllowed. by rewrite decide_True. Qed.

(** Case analysis on every state in the context, then computation. *)
Ltac by_states :=
  repeat match goal with s : DeliveryState |- _ => destruct s end;
  vm_compute; try reflexivity; try discriminate.

Lemma TransitionAllowed_trans a b c :
  TransitionAllowed a b = true -> TransitionAllowed b c = true ->
  TransitionAllowed a c = true.
Proof. by_states. Qed.

Lemma TransitionAllowed_antisym a b :
  TransitionAllowed a b = true -> TransitionAllowed b a = true -> a = b.
Proof. by_states. Qed.

Definition delivery_le (a b : DeliveryState) : Prop := TransitionAllowed a b = true.

#[export] Instance delivery_le_dec : RelDecision delivery_le.
Proof. intros a b. unfold delivery_le. apply _. Defined.

#[export] Instance delivery_le_po : PartialOrder delivery_le.
Proof.
  split; [split|].
  - intros s. apply TransitionAllowed_refl.
  - intros a b c. apply TransitionAllowed_trans.
  - intros a b. apply TransitionAllowed_antisym.
Qed.

Lemma delivery_path a b : rtc delivery_le a b -> delivery_le a b.
Proof. induction 1; [done|by etrans]. Qed.

#[export] Hint Resolve TransitionAllowed_refl DeliveryStates_complete : gm.
#[export] Hint Rewrite IsSystemEventStatus_spec : gm.

(** ** Properties *)

Lemma trigger_spec direction old new :
  messages_no_backward_delivery direction old new =
  (bool_decide (direction = DirectionOutgoing) && negb (TransitionAllowed old new)).
Proof. destruct direction; by_states. Qed.

(** The SQL trigger and the Go rule agree.  For an outgoing row the trigger
    aborts an update exactly when [TransitionAllowed] refuses the move, and for
    an incoming row it never aborts; so a write that [UpsertMessage] lets
    through is never aborted by the database and a write by any other means is
    held to the same table. *)
Theorem trigger_agrees direction old new :
  messages_no_backward_delivery direction old new =
  (bool_decide (direction = DirectionOutgoing) && negb (TransitionAllowed old new)).
Proof. apply trigger_spec. Qed.

(** A delivery history never returns.  Along any sequence of permitted
    moves from [a] to [b], the direct move is permitted too, and if a sequence
    leads back from [b] to [a] then [a] and [b] are the same state; [unknown] is
    below every state and [deleted] above every state. *)
Theorem delivery_history_acyclic a b :
  (rtc delivery_le a b -> TransitionAllowed a b = true) /\
  (rtc delivery_le a b -> rtc delivery_le b a -> a = b) /\
  TransitionAllowed DeliveryStateUnknown a = true /\
  TransitionAllowed a DeliveryStateDeleted = true.
Proof.
  split; [apply delivery_path|]. split; [|by by_states].
  intros ?%delivery_path ?%delivery_path. by apply (anti_symm delivery_le).
Qed.

(** Every ignored status is a system event: membership by running the list. *)
Lemma ignored_in_band raw :
  raw ∈ ignoreAlways \/ raw ∈ ignoreInDM -> IsSystemEventStatus raw = true.
Proof.
  unfold ignoreAlways, ignoreInDM. rewrite !elem_of_list_to_set.
  rewrite !elem_of_cons, elem_of_nil.
  intros H. destruct_or?; subst; try done.
Qed.

Lemma ShouldIgnoreStatus_sets raw isDM :
  ShouldIgnoreStatus raw isDM = true <->
  raw ∈ ignoreAlways \/ raw ∈ ignoreInDM /\ isDM = true.
Proof.
  unfold ShouldIgnoreStatus. repeat case_decide; naive_solver.
Qed.

(** What the status band, the two ignore sets and the table say about one
    raw status never conflicts.  A status that ingestion drops is always a system
    event; a status dropped in a group is dropped in a direct thread too; a
    system event is served as [received]; a status of the table is outside the
    system band, reports success, and maps to a state of the outgoing ladder or
    to one of the incoming states according to the direction of the band. *)
Theorem status_classification raw isDM :
  (ShouldIgnoreStatus raw isDM = true -> KindForStatus raw = MessageKindSystem) /\
  (ShouldIgnoreStatus raw false = true -> ShouldIgnoreStatus raw true = true) /\
  (KindForStatus raw = MessageKindSystem -> DeliveryStateFor raw = (DeliveryStateReceived, true)) /\
  (forall st, deliveryStates !! raw = Some st ->
     KindForStatus raw = MessageKindMessage /\ DeliveryStateFor raw = (st, true) /\
     (MessageDirection raw = DirectionOutgoing -> IsOutgoingLadderState st = true) /\
     (MessageDirection raw = DirectionIncoming ->
        IsOutgoingLadderState st = true -> st = DeliveryStateDeleted)) /\
  ((DeliveryStateFor raw).2 = false ->
     deliveryStates !! raw = None /\ DeliveryStateFor raw = (DeliveryStateUnknown, false)).
Proof.
  unfold KindForStatus, DeliveryStateFor. split_and!.
  - intros Hi%ShouldIgnoreStatus_sets. rewrite ignored_in_band; naive_solver.
  - rewrite !ShouldIgnoreStatus_sets. naive_solver.
  - by destruct (IsSystemEventStatus raw).
  - intros st Hst. rewrite Hst.
    pose proof (deliveryStates_forall
      (fun raw st => negb (IsSystemEventStatus raw) &&
         match MessageDirection raw with
         | DirectionIncoming =>
             negb (IsOutgoingLadderState st) || bool_decide (st = DeliveryStateDeleted)
         | DirectionOutgoing => IsOutgoingLadderState st
         end) ltac:(by vm_compute) raw st Hst) as Hc.
    apply andb_true_iff in Hc as [->%negb_true_iff Hd].
    destruct (MessageDirection raw); split_and!; try done.
    intros _ Hl. rewrite Hl in Hd. by apply bool_decide_eq_true in Hd.
  - destruct (IsSystemEventStatus raw); [done|].
    by destruct (deliveryStates !! raw).
Qed.

(** ** Witnesses *)

Example delivery_history_acyclic_witness :
  TransitionAllowed DeliveryStateSending DeliveryStateRead = true /\
  (DeliveryStateSent = DeliveryStateSent).
Proof.
  split.
  - apply (proj1 (delivery_history_acyclic DeliveryStateSending DeliveryStateRead)).
    apply rtc_l with DeliveryStateSent; [reflexivity|].
    apply rtc_once. reflexivity.
  - apply (proj1 (proj2 (delivery_history_acyclic DeliveryStateSent DeliveryStateSent)));
      apply rtc_refl.
Defined.

Example status_classification_witness :
  KindForStatus 214 = MessageKindSystem /\
  (DeliveryStateFor 28 = (DeliveryStateUnknown, false)) /\
  KindForStatus 117 = MessageKindMessage.
Proof.
  split_and!.
  - apply (proj1 (status_classification 214 true)). reflexivity.
  - apply (proj2 (proj2 (proj2 (proj2 (status_classification 28 false))))). reflexivity.
  - apply (proj1 (proj2 (proj2 (proj2 (status_classification 117 false))))
             DeliveryStateDeleted). reflexivity.
Defined.
