(* ===== verification/Ids.v ===== *)
(** * Derived public IDs (internal/store/ids.go)

    Every public ID of an object Google names is a typed prefix followed by a
    UUIDv5 of the NUL-joined components.  The UUID library is third-party code,
    so it is the interface [UUID]; what the store relies on is stated by
    [UUIDLaws].  The theorems show that no two objects, of the same account or
    of different ones, share a public ID. *)

From S2P Require Import Prelude.

(** ** The UUID library *)

(** [uuid.NewSHA1(namespace, data).String()] and whether [uuid.Parse] accepts. *)
Class UUID := {
  NewSHA1 : string -> string -> string;
  uuid_Parse : string -> bool;
}.

(** A string without a NUL byte. *)
Fixpoint nul_free (s : string) : bool :=
  match s with
  | EmptyString => true
  | String c s' => negb (bool_decide (c = Ascii.zero)) && nul_free s'
  end.

(** Name-based UUIDs are a digest of namespace and name: distinct names are
    taken to give distinct UUIDs; [String] prints hexadecimal digits and dashes,
    and [Parse] accepts them. *)
Class UUIDLaws `{UUID} := {
  NewSHA1_inj ns d1 d2 : NewSHA1 ns d1 = NewSHA1 ns d2 -> d1 = d2;
  Parse_NewSHA1 ns d : uuid_Parse (NewSHA1 ns d) = true;
  Parse_nonempty : uuid_Parse "" = false;
  NewSHA1_nul_free ns d : nul_free (NewSHA1 ns d) = true;
}.

Definition NUL : string := String Ascii.zero EmptyString.

Definition IDNamespace : string := "5ec9ab28-5363-57f8-b543-27672479b604".

Definition PrefixAccount : string := "acct_".
Definition PrefixConversation : string := "conv_".
Definition PrefixMessage : string := "msg_".
Definition PrefixAttachment : string := "att_".
Definition PrefixReaction : string := "react_".
Definition PrefixContact : string := "contact_".
Definition PrefixParticipant : string := "part_".
Definition PrefixOperation : string := "op_".
Definition PrefixUpload : string := "upl_".
Definition PrefixAuthorization : string := "auth_".
Definition PrefixClient : string := "client_".
Definition PrefixEnrollment : string := "enroll_".
Definition PrefixAuthorizationRequest : string := "authreq_".

Section Derivation.
Context `{UUID}.

(** The buffer [v5] hashes: the components with a NUL between them. *)
Definition v5_input (components : list string) : string := String.concat NUL components.

Definition v5 (components : list string) : string :=
  NewSHA1 IDNamespace (v5_input components).

Definition ConversationID (accountID sourceID : string) : string :=
  PrefixConversation +:+ v5 [accountID; "conversation"; sourceID].

Definition MessageID (accountID convSourceID msgSourceID : string) : string :=
  PrefixMessage +:+ v5 [accountID; "message"; convSourceID; msgSourceID].

Definition ContactID (accountID sourceID : string) : string :=
  PrefixContact +:+ v5 [accountID; "contact"; sourceID].

Definition ParticipantID (conversationID sourceID : string) : string :=
  PrefixParticipant +:+ v5 [conversationID; sourceID].

Definition AttachmentID (messageID partIndex mediaID : string) : string :=
  PrefixAttachment +:+ v5 [messageID; partIndex; mediaID].

Definition ReactionID (messageID participantID canonical : string) : string :=
  PrefixReaction +:+ v5 [messageID; participantID; canonical].

(** [id[:n]] and [id[n:]] of a Go string. *)
Definition take_bytes (n : nat) (s : string) : string := String.substring 0 n s.
Definition drop_bytes (n : nat) (s : string) : string :=
  String.substring n (String.length s - n) s.

Definition HasPrefix (id prefix : string) : bool :=
  if (String.length id <=? String.length prefix)%nat then false
  else if decide (take_bytes (String.length prefix) id = prefix)
       then uuid_Parse (drop_bytes (String.length prefix) id)
       else false.
End Derivation.

(** ** Lemmas: the NUL-joined form determines the components *)

Lemma nul_split a b x y :
  nul_free a = true -> nul_free b = true ->
  a +:+ (NUL +:+ x) = b +:+ (NUL +:+ y) -> a = b /\ x = y.
Proof.
  revert b. induction a as [|c a IH]; intros [|d b]; simpl; intros Ha Hb E;
    [by injection E | injection E as E1 E2 ..].
  - subst d. by rewrite bool_decide_eq_true_2 in Hb.
  - subst c. by rewrite bool_decide_eq_true_2 in Ha.
  - subst d. apply andb_true_iff in Ha as [_ Ha], Hb as [_ Hb].
    by destruct (IH b Ha Hb E2) as [-> ->].
Qed.

Lemma nul_free_no_sep a b x :
  nul_free b = true -> b = a +:+ (NUL +:+ x) -> False.
Proof.
  revert b. induction a as [|c a IH]; intros b Hb ->; simpl in Hb.
  - done.
  - apply andb_true_iff in Hb as [_ Hb]. by apply (IH (a +:+ (NUL +:+ x))).
Qed.

Lemma concat_cons2 sep a b l :
  String.concat sep (a :: b :: l) = a +:+ (sep +:+ String.concat sep (b :: l)).
Proof. done. Qed.

Lemma v5_input_inj l1 l2 :
  l1 <> [] -> l2 <> [] ->
  forallb nul_free l1 = true -> forallb nul_free l2 = true ->
  v5_input l1 = v5_input l2 -> l1 = l2.
Proof.
  unfold v5_input. revert l2. induction l1 as [|a l1 IH]; [done|].
  intros [|b l2] _ Hne; [done|]. simpl forallb.
  intros [Ha Hl1]%andb_true_iff [Hb Hl2]%andb_true_iff.
  destruct l1 as [|a' l1], l2 as [|b' l2]; rewrite ?concat_cons2.
  - simpl. by intros ->.
  - intros E. simpl in E. by apply nul_free_no_sep in E.
  - intros E. simpl in E. symmetry in E. by apply nul_free_no_sep in E.
  - intros [-> E]%nul_split; [|done..]. f_equal. by apply IH.
Qed.

Lemma append_inv_head p s t : p +:+ s = p +:+ t -> s = t.
Proof. induction p; simpl; intros E; [done|]. by injection E. Qed.

(** A decimal or UUID string never holds a NUL, so the prefixes do not either. *)
Section Injectivity.
Context `{UUIDLaws}.

Lemma v5_inj p l1 l2 :
  l1 <> [] -> l2 <> [] ->
  forallb nul_free l1 = true -> forallb nul_free l2 = true ->
  p +:+ v5 l1 = p +:+ v5 l2 -> l1 = l2.
Proof.
  intros ?? ?? E%append_inv_head%NewSHA1_inj. by apply v5_input_inj.
Qed.

(** The side conditions of [v5_inj] for literal component lists. *)
Ltac v5_side := simpl; repeat (apply andb_true_iff; split); done.

Lemma ConversationID_inj a1 a2 b1 b2 :
  nul_free a1 = true -> nul_free a2 = true -> nul_free b1 = true -> nul_free b2 = true ->
  ConversationID a1 b1 = ConversationID a2 b2 -> a1 = a2 /\ b1 = b2.
Proof. intros ???? E%v5_inj; [naive_solver|done|done|v5_side|v5_side]. Qed.

Lemma MessageID_inj a1 a2 b1 b2 c1 c2 :
  nul_free a1 = true -> nul_free a2 = true -> nul_free b1 = true -> nul_free b2 = true ->
  nul_free c1 = true -> nul_free c2 = true ->
  MessageID a1 b1 c1 = MessageID a2 b2 c2 -> a1 = a2 /\ b1 = b2 /\ c1 = c2.
Proof. intros ?????? E%v5_inj; [naive_solver|done|done|v5_side|v5_side]. Qed.

Lemma ContactID_inj a1 a2 b1 b2 :
  nul_free a1 = true -> nul_free a2 = true -> nul_free b1 = true -> nul_free b2 = true ->
  ContactID a1 b1 = ContactID a2 b2 -> a1 = a2 /\ b1 = b2.
Proof. intros ???? E%v5_inj; [naive_solver|done|done|v5_side|v5_side]. Qed.

(** Two components and an arbitrary last one. *)
Lemma v5_pair_inj p a1 a2 c1 c2 :
  nul_free a1 = true -> nul_free a2 = true ->
  p +:+ v5 [a1; c1] = p +:+ v5 [a2; c2] -> a1 = a2 /\ c1 = c2.
Proof.
  intros Ha1 Ha2 E%append_inv_head%NewSHA1_inj. unfold v5_input in E. simpl in E.
  by apply nul_split in E.
Qed.

Lemma v5_triple_inj p a1 a2 b1 b2 c1 c2 :
  nul_free a1 = true -> nul_free a2 = true -> nul_free b1 = true -> nul_free b2 = true ->
  p +:+ v5 [a1; b1; c1] = p +:+ v5 [a2; b2; c2] -> a1 = a2 /\ b1 = b2 /\ c1 = c2.
Proof.
  intros ???? E%append_inv_head%NewSHA1_inj. unfold v5_input in E. simpl in E.
  apply nul_split in E as [-> E]; [|done..]. by apply nul_split in E as [-> ->].
Qed.

(** The last component of a participant, attachment or reaction ID is free. *)
Lemma ParticipantID_inj a1 a2 b1 b2 :
  nul_free a1 = true -> nul_free a2 = true ->
  ParticipantID a1 b1 = ParticipantID a2 b2 -> a1 = a2 /\ b1 = b2.
Proof. apply v5_pair_inj. Qed.

Lemma AttachmentID_inj a1 a2 b1 b2 c1 c2 :
  nul_free a1 = true -> nul_free a2 = true -> nul_free b1 = true -> nul_free b2 = true ->
  AttachmentID a1 b1 c1 = AttachmentID a2 b2 c2 -> a1 = a2 /\ b1 = b2 /\ c1 = c2.
Proof. apply v5_triple_inj. Qed.

Lemma ReactionID_inj a1 a2 b1 b2 c1 c2 :
  nul_free a1 = true -> nul_free a2 = true -> nul_free b1 = true -> nul_free b2 = true ->
  ReactionID a1 b1 c1 = ReactionID a2 b2 c2 -> a1 = a2 /\ b1 = b2 /\ c1 = c2.
Proof. apply v5_triple_inj. Qed.

Lemma nul_free_app a b : nul_free (a +:+ b) = nul_free a && nul_free b.
Proof. induction a as [|c a IH]; simpl; [done|]. by rewrite IH, andb_assoc. Qed.

(** Derived IDs are components of other IDs, and hold no NUL either. *)
Lemma ConversationID_nul_free a b : nul_free (ConversationID a b) = true.
Proof. unfold ConversationID. rewrite nul_free_app. apply NewSHA1_nul_free. Qed.

Lemma MessageID_nul_free a b c : nul_free (MessageID a b c) = true.
Proof. unfold MessageID. rewrite nul_free_app. apply NewSHA1_nul_free. Qed.

Lemma ParticipantID_nul_free a b : nul_free (ParticipantID a b) = true.
Proof. unfold ParticipantID. rewrite nul_free_app. apply NewSHA1_nul_free. Qed.

(** Derived public IDs identify their object.  When Google's IDs and the
    account IDs contain no NUL byte, equal conversation, message, participant,
    contact, attachment and reaction IDs come from equal components; in
    particular two accounts never share a conversation or a message ID. *)
Theorem derived_ids_injective a1 a2 b1 b2 c1 c2 :
  forallb nul_free [a1; a2; b1; b2; c1; c2] = true ->
  (ConversationID a1 b1 = ConversationID a2 b2 -> a1 = a2 /\ b1 = b2) /\
  (MessageID a1 b1 c1 = MessageID a2 b2 c2 -> a1 = a2 /\ b1 = b2 /\ c1 = c2) /\
  (ContactID a1 b1 = ContactID a2 b2 -> a1 = a2 /\ b1 = b2) /\
  (ParticipantID a1 b1 = ParticipantID a2 b2 -> a1 = a2 /\ b1 = b2) /\
  (AttachmentID a1 b1 c1 = AttachmentID a2 b2 c2 -> a1 = a2 /\ b1 = b2 /\ c1 = c2) /\
  (ReactionID a1 b1 c1 = ReactionID a2 b2 c2 -> a1 = a2 /\ b1 = b2 /\ c1 = c2).
Proof.
  simpl. rewrite !andb_true_r, !andb_true_iff. intros (? & ? & ? & ? & ? & ?).
  split_and!; intros E;
    first [apply ConversationID_inj in E | apply MessageID_inj in E | apply ContactID_inj in E
          | apply ParticipantID_inj in E | apply AttachmentID_inj in E
          | apply ReactionID_inj in E]; done.
Qed.

Lemma length_append p s :
  String.length (p +:+ s) = (String.length p + String.length s)%nat.
Proof. induction p; simpl; [done|]. by f_equal. Qed.

Lemma substring_app p s :
  String.substring 0 (String.length p) (p +:+ s) = p.
Proof. induction p; simpl; [by destruct s|]. by f_equal. Qed.

Lemma substring_all s : String.substring 0 (String.length s) s = s.
Proof. induction s; simpl; [done|]. by f_equal. Qed.

Lemma drop_bytes_app p s : drop_bytes (String.length p) (p +:+ s) = s.
Proof.
  unfold drop_bytes.
  assert (String.length (p +:+ s) - String.length p = String.length s) as ->.
  { rewrite length_append. lia. }
  induction p; simpl; [apply substring_all|done].
Qed.

(** An ID minted under a prefix passes the check of that prefix. *)
Lemma HasPrefix_derived p l : HasPrefix (p +:+ v5 l) p = true.
Proof.
  unfold HasPrefix.
  destruct (v5 l) as [|c s] eqn:E.
  - pose proof (Parse_NewSHA1 IDNamespace (v5_input l)) as Hp.
    fold (v5 l) in Hp. by rewrite E, Parse_nonempty in Hp.
  - assert ((String.length (p +:+ String c s) <=? String.length p)%nat = false) as ->.
    { apply Nat.leb_gt. rewrite length_append. simpl. lia. }
    unfold take_bytes. rewrite substring_app, decide_True by done.
    rewrite drop_bytes_app, <- E. apply Parse_NewSHA1.
Qed.
End Injectivity.

(** ** A concrete UUID function for the witnesses *)

(** The name itself, its bits spelled out in the digits 0 and 1. *)
Definition bit (b : bool) : Ascii.ascii := if b then Ascii.ascii_of_nat 49 else Ascii.ascii_of_nat 48.

Fixpoint spell (s : string) : string :=
  match s with
  | EmptyString => EmptyString
  | String (Ascii.Ascii b0 b1 b2 b3 b4 b5 b6 b7) s' =>
      String (bit b0) (String (bit b1) (String (bit b2) (String (bit b3)
        (String (bit b4) (String (bit b5) (String (bit b6) (String (bit b7) (spell s'))))))))
  end.

#[export] Instance bit_inj : Inj (=) (=) bit.
Proof. by intros [] []. Qed.

#[export] Instance spell_inj : Inj (=) (=) spell.
Proof.
  intros s. induction s as [|[? ? ? ? ? ? ? ?] s IH]; intros [|[? ? ? ? ? ? ? ?] t];
    simpl; intros E; try done.
  injection E as E0%(inj bit) E1%(inj bit) E2%(inj bit) E3%(inj bit) E4%(inj bit) E5%(inj bit)
    E6%(inj bit) E7%(inj bit) E%IH. by subst.
Qed.

Lemma spell_nul_free s : nul_free (spell s) = true.
Proof.
  induction s as [|[b0 b1 b2 b3 b4 b5 b6 b7] s IH]; [done|]. simpl. rewrite IH.
  by destruct b0, b1, b2, b3, b4, b5, b6, b7.
Qed.

#[export] Instance tagged_uuid : UUID := {
  NewSHA1 ns d := "u" +:+ spell d;
  uuid_Parse s := negb (bool_decide (s = ""%string));
}.

#[export] Instance tagged_uuid_laws : UUIDLaws (H := tagged_uuid).
Proof.
  split; simpl; try done.
  - intros _ d1 d2 E. injection E as E. by apply (inj spell).
  - intros _ d. apply spell_nul_free.
Qed.

Example derived_ids_injective_witness :
  ConversationID "acct_1" "c" <> ConversationID "acct_2" "c".
Proof.
  intros E.
  apply (proj1 (derived_ids_injective "acct_1" "acct_2" "c" "c" "" "" eq_refl)) in E.
  destruct E as [E _]. discriminate E.
Defined.
