(* ===== verification/Operations.v ===== *)
(** * The operations table (internal/store/operations.go)

    One row per mutation: its idempotency key and its status.  The table is a
    [gmap] from the op_ ID to the row, a row keeps the columns of migration
    0007 (a nullable column is an [option]), and [Operation] is the Go struct
    [scanOperation] fills from a row.  Each method of [*Store] is a function of
    the clock reading it takes and of the table.  The theorems are about every
    table that the methods can produce: the row invariant, the refinement of
    the status machine of [OperationTransitionAllowed], finality, the crash
    sweep, the pending reaper and the retention sweep. *)

From S2P Require Import Prelude.

(** ** Status vocabulary *)

Inductive OperationStatus : Type :=
| OpRunning | OpSucceeded | OpPending | OpFailed | OpUnknown.

#[export] Instance OperationStatus_eq_dec : EqDecision OperationStatus.
Proof. solve_decision. Defined.

Definition ErrCrashRecovered : string := "crash_recovered".
Definition ErrPendingTimeout : string := "pending_timeout".

Definition OperationTerminal (s : OperationStatus) : bool :=
  match s with
  | OpSucceeded | OpFailed | OpUnknown => true
  | _ => false
  end.

Definition OperationTransitionAllowed (from to : OperationStatus) : bool :=
  if decide (from = to) then true
  else match from with
       | OpRunning =>
           bool_decide (to = OpSucceeded) || bool_decide (to = OpFailed) ||
           bool_decide (to = OpPending) || bool_decide (to = OpUnknown)
       | OpPending =>
           bool_decide (to = OpSucceeded) || bool_decide (to = OpFailed) ||
           bool_decide (to = OpUnknown)
       | OpUnknown => bool_decide (to = OpSucceeded) || bool_decide (to = OpFailed)
       | _ => false
       end.

(** ** Errors of the store methods *)

Inductive OpStoreError : Type :=
| ErrOperationTransition (from to : OperationStatus)
| ErrOperationNotFound
| ErrConstraint  (** SQLite: a PRIMARY KEY or UNIQUE constraint failed *)
| ErrNoRows.     (** sql.ErrNoRows from a scan *)

(** ** Rows *)

Record OperationRow := mkOperationRow {
  op_id : string;
  op_account_id : string;
  op_kind : string;
  op_authorization_id : string;
  op_idempotency_key : option string;
  op_request_fingerprint : string;
  op_conversation_id : option string;
  op_message_id : option string;
  op_tmp_id : option string;
  op_status : OperationStatus;
  op_terminal : bool;
  op_terminal_at_ms : option Z;
  op_corrected_at_ms : option Z;
  op_error_code : option string;
  op_error_message : option string;
  op_error_retryable : option bool;
  op_google_status_raw : option Z;
  op_request_payload_json : string;
  op_media_size_bytes : option Z;
  op_created_at_ms : Z;
  op_updated_at_ms : Z;
}.

(** The Go struct. *)
Record Operation := mkOperation {
  o_ID : string;
  o_AccountID : string;
  o_Kind : string;
  o_AuthorizationID : string;
  o_IdempotencyKey : string;
  o_RequestFingerprint : string;
  o_ConversationID : string;
  o_MessageID : string;
  o_TmpID : string;
  o_Status : OperationStatus;
  o_Terminal : bool;
  o_TerminalAtMS : Z;
  o_CorrectedAtMS : Z;
  o_ErrorCode : string;
  o_ErrorMessage : string;
  o_ErrorRetryable : bool;
  o_HasErrorRetryable : bool;
  o_GoogleStatusRaw : Z;
  o_RequestPayloadJSON : string;
  o_MediaSizeBytes : Z;
  o_CreatedAtMS : Z;
  o_UpdatedAtMS : Z;
}.

Definition scanOperation (r : OperationRow) : Operation := {|
  o_ID := op_id r;
  o_AccountID := op_account_id r;
  o_Kind := op_kind r;
  o_AuthorizationID := op_authorization_id r;
  o_IdempotencyKey := scanString (op_idempotency_key r);
  o_RequestFingerprint := op_request_fingerprint r;
  o_ConversationID := scanString (op_conversation_id r);
  o_MessageID := scanString (op_message_id r);
  o_TmpID := scanString (op_tmp_id r);
  o_Status := op_status r;
  o_Terminal := op_terminal r;
  o_TerminalAtMS := scanInt (op_terminal_at_ms r);
  o_CorrectedAtMS := scanInt (op_corrected_at_ms r);
  o_ErrorCode := scanString (op_error_code r);
  o_ErrorMessage := scanString (op_error_message r);
  o_ErrorRetryable := default false (op_error_retryable r);
  o_HasErrorRetryable := match op_error_retryable r with Some _ => true | None => false end;
  o_GoogleStatusRaw := scanInt (op_google_status_raw r);
  o_RequestPayloadJSON := op_request_payload_json r;
  o_MediaSizeBytes := scanInt (op_media_size_bytes r);
  o_CreatedAtMS := op_created_at_ms r;
  o_UpdatedAtMS := op_updated_at_ms r;
|}.

(** What the [INSERT] of [InsertOperation] takes from the caller. *)
Record NewOperation := mkNewOperation {
  new_id : string;
  new_account_id : string;
  new_kind : string;
  new_authorization_id : string;
  new_idempotency_key : string;
  new_request_fingerprint : string;
  new_conversation_id : string;
  new_message_id : string;
  new_tmp_id : string;
  new_request_payload_json : string;
}.

Abbreviation ops_table := (gmap string OperationRow).

(** ** InsertOperation *)

Definition insert_row (now : Z) (id : string) (o : NewOperation) : OperationRow := {|
  op_id := id;
  op_account_id := new_account_id o;
  op_kind := new_kind o;
  op_authorization_id := new_authorization_id o;
  op_idempotency_key := nullString (new_idempotency_key o);
  op_request_fingerprint := new_request_fingerprint o;
  op_conversation_id := nullString (new_conversation_id o);
  op_message_id := nullString (new_message_id o);
  op_tmp_id := nullString (new_tmp_id o);
  op_status := OpRunning;
  op_terminal := false;
  op_terminal_at_ms := None;
  op_corrected_at_ms := None;
  op_error_code := None;
  op_error_message := None;
  op_error_retryable := None;
  op_google_status_raw := None;
  op_request_payload_json :=
    if decide (new_request_payload_json o = ""%string) then "{}"%string
    else new_request_payload_json o;
  op_media_size_bytes := None;
  op_created_at_ms := now;
  op_updated_at_ms := now;
|}.

(** The unique index [operations_idempotency], over rows with a key. *)
Definition same_idempotency (auth account kind : string) (key : string) (r : OperationRow) : bool :=
  bool_decide (op_authorization_id r = auth) && bool_decide (op_account_id r = account) &&
  bool_decide (op_kind r = kind) && bool_decide (op_idempotency_key r = Some key).

Definition idempotency_conflict (r : OperationRow) (ops : ops_table) : bool :=
  match op_idempotency_key r with
  | None => false
  | Some key =>
      negb (bool_decide (select_where (same_idempotency (op_authorization_id r)
        (op_account_id r) (op_kind r) key) ops = []))
  end.

(** [freshID] is what [OperationID()] returns when the caller gave no ID. *)
Definition InsertOperation (now : Z) (freshID : string) (o : NewOperation) (ops : ops_table)
    : Result OpStoreError ops_table :=
  let id := if decide (new_id o = ""%string) then freshID else new_id o in
  let r := insert_row now id o in
  match ops !! id with
  | Some _ => Err ErrConstraint
  | None => if idempotency_conflict r ops then Err ErrConstraint else Ok (<[id := r]> ops)
  end.

(** ** Reads *)

Definition ReadOperation (id : string) (ops : ops_table) : Result OpStoreError Operation :=
  match ops !! id with
  | None => Err ErrOperationNotFound
  | Some r => Ok (scanOperation r)
  end.

Definition OperationByKey (authorizationID accountID kind key : string) (ops : ops_table)
    : Result OpStoreError Operation :=
  if decide (key = ""%string) then Err ErrOperationNotFound
  else match select_where (same_idempotency authorizationID accountID kind key) ops with
       | [] => Err ErrOperationNotFound
       | r :: _ => Ok (scanOperation r)
       end.

Definition used_elsewhere (authorizationID kind key accountID : string) (r : OperationRow) : bool :=
  bool_decide (op_authorization_id r = authorizationID) && bool_decide (op_kind r = kind) &&
  bool_decide (op_idempotency_key r = Some key) && negb (bool_decide (op_account_id r = accountID)).

Definition KeyUsedByAnotherAccount (authorizationID kind key accountID : string)
    (ops : ops_table) : string * bool :=
  if decide (key = ""%string) then (""%string, false)
  else match first_by op_created_at_ms
               (select_where (used_elsewhere authorizationID kind key accountID) ops) with
       | None => (""%string, false)
       | Some r => (op_account_id r, true)
       end.

Definition has_tmp_id (accountID tmpID : string) (r : OperationRow) : bool :=
  bool_decide (op_account_id r = accountID) && bool_decide (op_tmp_id r = Some tmpID).

(** [ORDER BY created_at_ms DESC LIMIT 1]. *)
Definition OperationByTmpID (accountID tmpID : string) (ops : ops_table)
    : Result OpStoreError Operation :=
  match first_by (fun r => - op_created_at_ms r)%Z
          (select_where (has_tmp_id accountID tmpID) ops) with
  | None => Err ErrOperationNotFound
  | Some r => Ok (scanOperation r)
  end.

(** ** Writes by ID *)

Definition with_tmp_id (now : Z) (tmpID : string) (r : OperationRow) : OperationRow := {|
  op_id := op_id r; op_account_id := op_account_id r; op_kind := op_kind r;
  op_authorization_id := op_authorization_id r; op_idempotency_key := op_idempotency_key r;
  op_request_fingerprint := op_request_fingerprint r;
  op_conversation_id := op_conversation_id r; op_message_id := op_message_id r;
  op_tmp_id := Some tmpID;
  op_status := op_status r; op_terminal := op_terminal r;
  op_terminal_at_ms := op_terminal_at_ms r; op_corrected_at_ms := op_corrected_at_ms r;
  op_error_code := op_error_code r; op_error_message := op_error_message r;
  op_error_retryable := op_error_retryable r;
  op_google_status_raw := op_google_status_raw r;
  op_request_payload_json := op_request_payload_json r;
  op_media_size_bytes := op_media_size_bytes r;
  op_created_at_ms := op_created_at_ms r; op_updated_at_ms := now;
|}.

Definition SetOperationTmpID (now : Z) (operationID tmpID : string) (ops : ops_table) : ops_table :=
  alter (with_tmp_id now tmpID) operationID ops.

Definition with_media_size (now : Z) (size : Z) (r : OperationRow) : OperationRow := {|
  op_id := op_id r; op_account_id := op_account_id r; op_kind := op_kind r;
  op_authorization_id := op_authorization_id r; op_idempotency_key := op_idempotency_key r;
  op_request_fingerprint := op_request_fingerprint r;
  op_conversation_id := op_conversation_id r; op_message_id := op_message_id r;
  op_tmp_id := op_tmp_id r;
  op_status := op_status r; op_terminal := op_terminal r;
  op_terminal_at_ms := op_terminal_at_ms r; op_corrected_at_ms := op_corrected_at_ms r;
  op_error_code := op_error_code r; op_error_message := op_error_message r;
  op_error_retryable := op_error_retryable r;
  op_google_status_raw := op_google_status_raw r;
  op_request_payload_json := op_request_payload_json r;
  op_media_size_bytes := Some size;
  op_created_at_ms := op_created_at_ms r; op_updated_at_ms := now;
|}.

Definition SetOperationMediaSize (now : Z) (operationID : string) (size : Z) (ops : ops_table)
    : ops_table :=
  alter (with_media_size now size) operationID ops.

(** ** SettleOperation *)

Record Settlement := mkSettlement {
  st_Status : OperationStatus;
  st_MessageID : string;
  st_ConversationID : string;
  st_ErrorCode : string;
  st_ErrorMessage : string;
  st_ErrorRetryable : bool;
  st_GoogleStatusRaw : Z;
}.

Definition nullErrorRetryable (st : Settlement) : option bool :=
  if decide (st_ErrorCode st = ""%string) then None else Some (st_ErrorRetryable st).

(** The [UPDATE] of [SettleOperation]. *)
Definition with_settlement (now : Z) (terminal : bool) (terminalAt correctedAt : option Z)
    (st : Settlement) (r : OperationRow) : OperationRow := {|
  op_id := op_id r; op_account_id := op_account_id r; op_kind := op_kind r;
  op_authorization_id := op_authorization_id r; op_idempotency_key := op_idempotency_key r;
  op_request_fingerprint := op_request_fingerprint r;
  op_conversation_id := coalesce (nullString (st_ConversationID st)) (op_conversation_id r);
  op_message_id := coalesce (nullString (st_MessageID st)) (op_message_id r);
  op_tmp_id := op_tmp_id r;
  op_status := st_Status st; op_terminal := terminal;
  op_terminal_at_ms := terminalAt; op_corrected_at_ms := correctedAt;
  op_error_code := nullString (st_ErrorCode st);
  op_error_message := nullString (st_ErrorMessage st);
  op_error_retryable := nullErrorRetryable st;
  op_google_status_raw := coalesce (nullInt (st_GoogleStatusRaw st)) (op_google_status_raw r);
  op_request_payload_json := op_request_payload_json r;
  op_media_size_bytes := op_media_size_bytes r;
  op_created_at_ms := op_created_at_ms r; op_updated_at_ms := now;
|}.

Definition settle_terminal_at (now : Z) (st : Settlement) (cur : Operation) : option Z :=
  if decide (o_TerminalAtMS cur <> 0%Z) then Some (o_TerminalAtMS cur)
  else if OperationTerminal (st_Status st) then Some now else None.

Definition settle_corrected_at (now : Z) (st : Settlement) (cur : Operation) : option Z :=
  if decide (o_CorrectedAtMS cur <> 0%Z) then Some (o_CorrectedAtMS cur)
  else if bool_decide (o_Status cur = OpUnknown) && negb (bool_decide (st_Status st = OpUnknown))
       then Some now else None.

Definition SettleOperation (now : Z) (operationID : string) (st : Settlement) (ops : ops_table)
    : Result OpStoreError (ops_table * Operation) :=
  match ops !! operationID with
  | None => Err ErrOperationNotFound
  | Some r =>
      let cur := scanOperation r in
      if negb (OperationTransitionAllowed (o_Status cur) (st_Status st))
      then Err (ErrOperationTransition (o_Status cur) (st_Status st))
      else
        let r' := with_settlement now (OperationTerminal (st_Status st))
                    (settle_terminal_at now st cur) (settle_corrected_at now st cur) st r in
        Ok (<[operationID := r']> ops, scanOperation r')
  end.

(** ** Crash recovery and the pending reaper *)

(** [status = 'unknown', terminal = 1, terminal_at_ms = COALESCE(terminal_at_ms, now),
    error_code = code, error_retryable = 0, updated_at_ms = now]. *)
Definition with_unknown (now : Z) (code : string) (r : OperationRow) : OperationRow := {|
  op_id := op_id r; op_account_id := op_account_id r; op_kind := op_kind r;
  op_authorization_id := op_authorization_id r; op_idempotency_key := op_idempotency_key r;
  op_request_fingerprint := op_request_fingerprint r;
  op_conversation_id := op_conversation_id r; op_message_id := op_message_id r;
  op_tmp_id := op_tmp_id r;
  op_status := OpUnknown; op_terminal := true;
  op_terminal_at_ms := coalesce (op_terminal_at_ms r) (Some now);
  op_corrected_at_ms := op_corrected_at_ms r;
  op_error_code := Some code; op_error_message := op_error_message r;
  op_error_retryable := Some false;
  op_google_status_raw := op_google_status_raw r;
  op_request_payload_json := op_request_payload_json r;
  op_media_size_bytes := op_media_size_bytes r;
  op_created_at_ms := op_created_at_ms r; op_updated_at_ms := now;
|}.

Definition is_running (r : OperationRow) : bool := bool_decide (op_status r = OpRunning).

Definition is_stale_pending (cutoff : Z) (r : OperationRow) : bool :=
  bool_decide (op_status r = OpPending) && (op_created_at_ms r <=? cutoff)%Z.

(** The loop that reads the settled rows back, one [SELECT] per ID. *)
Fixpoint read_back (ids : list string) (ops : ops_table) : Result OpStoreError (list Operation) :=
  match ids with
  | [] => Ok []
  | id :: ids' =>
      match ops !! id with
      | None => Err ErrNoRows
      | Some r => out ← read_back ids' ops; Ok (scanOperation r :: out)
      end
  end.

Definition RecoverRunningOperations (now : Z) (ops : ops_table)
    : Result OpStoreError (ops_table * list Operation) :=
  let ids := op_id <$> select_where is_running ops in
  match ids with
  | [] => Ok (ops, [])
  | _ =>
      let ops' := update_where is_running (with_unknown now ErrCrashRecovered) ops in
      out ← read_back ids ops'; Ok (ops', out)
  end.

(** The reaper updates and reads back one ID at a time. *)
Fixpoint reap_loop (now : Z) (ids : list string) (ops : ops_table)
    : Result OpStoreError (ops_table * list Operation) :=
  match ids with
  | [] => Ok (ops, [])
  | id :: ids' =>
      let ops1 := alter (with_unknown now ErrPendingTimeout) id ops in
      match ops1 !! id with
      | None => Err ErrNoRows
      | Some r =>
          '(ops2, out) ← reap_loop now ids' ops1;
          Ok (ops2, scanOperation r :: out)
      end
  end.

Definition ReapPendingOperations (now timeoutMS : Z) (ops : ops_table)
    : Result OpStoreError (ops_table * list Operation) :=
  let cutoff := (now - timeoutMS)%Z in
  reap_loop now (op_id <$> select_where (is_stale_pending cutoff) ops) ops.

Definition is_expired (cutoff : Z) (r : OperationRow) : bool :=
  op_terminal r && (op_created_at_ms r <=? cutoff)%Z.

Definition SweepIdempotencyKeys (now ttlMS : Z) (ops : ops_table) : ops_table * nat :=
  let cutoff := (now - ttlMS)%Z in
  (delete_where (is_expired cutoff) ops, rows_affected (is_expired cutoff) ops).

(** ** The methods as steps of one table

    A history of the table is any sequence of these steps; each takes its own
    clock reading, which is after the epoch. *)

Inductive OpStep (ops : ops_table) : ops_table -> Prop :=
| step_insert now fresh o ops' :
    (0 < now)%Z -> InsertOperation now fresh o ops = Ok ops' -> OpStep ops ops'
| step_settle now id st ops' out :
    (0 < now)%Z -> SettleOperation now id st ops = Ok (ops', out) -> OpStep ops ops'
| step_tmp_id now id tmp : OpStep ops (SetOperationTmpID now id tmp ops)
| step_media_size now id size : OpStep ops (SetOperationMediaSize now id size ops)
| step_recover now ops' out :
    (0 < now)%Z -> RecoverRunningOperations now ops = Ok (ops', out) -> OpStep ops ops'
| step_reap now timeout ops' out :
    (0 < now)%Z -> ReapPendingOperations now timeout ops = Ok (ops', out) -> OpStep ops ops'
| step_sweep now ttl : OpStep ops (SweepIdempotencyKeys now ttl ops).1.

(** ** The row invariant *)

Definition row_ok (id : string) (r : OperationRow) : Prop :=
  op_id r = id /\
  op_terminal r = OperationTerminal (op_status r) /\
  match op_terminal_at_ms r with
  | Some t => op_terminal r = true /\ (0 < t)%Z
  | None => op_terminal r = false
  end /\
  match op_corrected_at_ms r with
  | Some t => (0 < t)%Z /\ (op_status r = OpSucceeded \/ op_status r = OpFailed)
  | None => True
  end.

Definition same_key (r1 r2 : OperationRow) : Prop :=
  op_authorization_id r1 = op_authorization_id r2 /\ op_account_id r1 = op_account_id r2 /\
  op_kind r1 = op_kind r2 /\ op_idempotency_key r1 = op_idempotency_key r2 /\
  is_Some (op_idempotency_key r1).

Definition rows_ok (ops : ops_table) : Prop := map_Forall row_ok ops.

Definition keys_unique (ops : ops_table) : Prop :=
  forall id1 id2 r1 r2, ops !! id1 = Some r1 -> ops !! id2 = Some r2 ->
    same_key r1 r2 -> id1 = id2.

Definition table_ok (ops : ops_table) : Prop := rows_ok ops /\ keys_unique ops.

(** What one step may do to a row that it keeps. *)
Definition row_moves (r r' : OperationRow) : Prop :=
  (op_id r' = op_id r /\ op_account_id r' = op_account_id r /\ op_kind r' = op_kind r /\
   op_authorization_id r' = op_authorization_id r /\
   op_idempotency_key r' = op_idempotency_key r /\
   op_request_fingerprint r' = op_request_fingerprint r /\
   op_created_at_ms r' = op_created_at_ms r) /\
  OperationTransitionAllowed (op_status r) (op_status r') = true /\
  (forall t, op_terminal_at_ms r = Some t -> op_terminal_at_ms r' = Some t) /\
  (forall t, op_corrected_at_ms r = Some t -> op_corrected_at_ms r' = Some t) /\
  (is_Some (op_message_id r) -> is_Some (op_message_id r')) /\
  (is_Some (op_tmp_id r) -> is_Some (op_tmp_id r')).

(** ** Lemmas *)

Ltac by_statuses :=
  repeat match goal with s : OperationStatus |- _ => destruct s end;
  vm_compute; try reflexivity; try discriminate.

Lemma OperationTransitionAllowed_refl s : OperationTransitionAllowed s s = true.
Proof. by_statuses. Qed.

Lemma OperationTransitionAllowed_trans a b c :
  OperationTransitionAllowed a b = true -> OperationTransitionAllowed b c = true ->
  OperationTransitionAllowed a c = true.
Proof. by_statuses. Qed.

#[export] Hint Resolve OperationTransitionAllowed_refl : gm.

#[export] Instance row_moves_preorder : PreOrder row_moves.
Proof.
  split.
  - intros r. unfold row_moves. split_and!; auto with gm.
  - intros r1 r2 r3 (H1 & T1 & A1 & B1 & C1 & D1) (H2 & T2 & A2 & B2 & C2 & D2).
    unfold row_moves. split; [intuition congruence|].
    split; [by eapply OperationTransitionAllowed_trans|]. naive_solver.
Qed.

Lemma terminal_allowed a b :
  OperationTransitionAllowed a b = true -> OperationTerminal a = true ->
  OperationTerminal b = true.
Proof. by_statuses. Qed.

Lemma final_allowed a b :
  OperationTransitionAllowed a b = true -> a = OpSucceeded \/ a = OpFailed -> b = a.
Proof. intros H [-> | ->]; revert H; by_statuses. Qed.

(** The settled row keeps the invariant and is a permitted move. *)
Lemma settle_row_ok now id st r :
  (0 < now)%Z -> row_ok id r ->
  OperationTransitionAllowed (op_status r) (st_Status st) = true ->
  let cur := scanOperation r in
  let r' := with_settlement now (OperationTerminal (st_Status st))
              (settle_terminal_at now st cur) (settle_corrected_at now st cur) st r in
  row_ok id r' /\ row_moves r r'.
Proof.
  intros Hnow (Hid & Hterm & Hat & Hcor) Hal. cbv zeta.
  unfold row_ok, row_moves, settle_terminal_at, settle_corrected_at. simpl.
  assert (forall t, op_terminal_at_ms r = Some t -> scanInt (op_terminal_at_ms r) = t /\ (0 < t)%Z
            /\ OperationTerminal (st_Status st) = true) as HT.
  { intros t Ht. rewrite Ht in *. destruct Hat as [Hat ?]. split_and!; [done..|].
    rewrite Hterm in Hat. by eapply terminal_allowed. }
  assert (forall t, op_corrected_at_ms r = Some t -> scanInt (op_corrected_at_ms r) = t /\ (0 < t)%Z
            /\ st_Status st = op_status r) as HC.
  { intros t Ht. rewrite Ht in *. destruct Hcor as [? Hs]. split_and!; [done..|].
    by eapply final_allowed. }
  assert (op_terminal_at_ms r = None -> scanInt (op_terminal_at_ms r) = 0%Z) as HT0 by (by intros ->).
  assert (op_corrected_at_ms r = None -> scanInt (op_corrected_at_ms r) = 0%Z) as HC0 by (by intros ->).
  split.
  - split_and!; [done|done| |].
    + destruct (op_terminal_at_ms r) as [t|].
      * destruct (HT t eq_refl) as (-> & ? & ->). rewrite decide_True by lia. done.
      * rewrite HT0 by done. rewrite decide_False by lia.
        by destruct (OperationTerminal (st_Status st)).
    + destruct (op_corrected_at_ms r) as [t|].
      * destruct (HC t eq_refl) as (-> & ? & ->). rewrite decide_True by lia.
        split; [done|]. apply Hcor.
      * rewrite HC0 by done. rewrite decide_False by lia.
        destruct (op_status r), (st_Status st); simpl in *; try done; auto.
  - split_and!; try done.
    + intros t Ht. destruct (HT t Ht) as (-> & ? & _). by rewrite decide_True by lia.
    + intros t Ht. destruct (HC t Ht) as (-> & ? & _). by rewrite decide_True by lia.
    + intros [m ->]. unfold nullString. by case_decide; eauto.
Qed.

(** The row written by the two sweeps, likewise. *)
Lemma unknown_row_ok now code id r :
  (0 < now)%Z -> row_ok id r -> OperationTransitionAllowed (op_status r) OpUnknown = true ->
  op_status r <> OpUnknown ->
  row_ok id (with_unknown now code r) /\ row_moves r (with_unknown now code r).
Proof.
  intros Hnow (Hid & Hterm & Hat & Hcor) Hal Hne.
  unfold row_ok, row_moves. simpl. split.
  - split_and!; [done|done| |].
    + destruct (op_terminal_at_ms r); simpl; naive_solver.
    + destruct (op_corrected_at_ms r); [|done].
      destruct Hcor as [_ [Hs|Hs]]; rewrite Hs in Hal; discriminate Hal.
  - split_and!; try done. by intros t ->.
Qed.

Lemma InsertOperation_Ok now fresh o ops ops' :
  InsertOperation now fresh o ops = Ok ops' <->
  exists key, key = (if decide (new_id o = ""%string) then fresh else new_id o) /\
    ops !! key = None /\ idempotency_conflict (insert_row now key o) ops = false /\
    ops' = <[key := insert_row now key o]> ops.
Proof.
  unfold InsertOperation. cbv zeta.
  generalize (if decide (new_id o = ""%string) then fresh else new_id o) as key. intros key.
  split.
  - intros H. exists key. destruct (ops !! key); [done|].
    destruct (idempotency_conflict _ _); naive_solver.
  - intros (? & -> & -> & -> & ->). done.
Qed.

Lemma with_unknown_idemp now code r :
  with_unknown now code (with_unknown now code r) = with_unknown now code r.
Proof. unfold with_unknown. simpl. by destruct (op_terminal_at_ms r). Qed.

Lemma select_ids P ops k :
  rows_ok ops ->
  k ∈ op_id <$> select_where P ops <-> exists r, ops !! k = Some r /\ P r = true.
Proof.
  intros Hok. rewrite list_elem_of_fmap. setoid_rewrite elem_of_select_where. split.
  - intros (r & -> & k' & Hk & HP).
    destruct (Hok k' r Hk) as [Hid _]. subst k'. eauto.
  - intros (r & Hk & HP). destruct (Hok k r Hk) as [Hid _]. eauto 6.
Qed.

(** The one-row-at-a-time loop computes the bulk update. *)
Lemma reap_loop_lookup now ids ops ops' out k :
  reap_loop now ids ops = Ok (ops', out) ->
  ops' !! k = if decide (k ∈ ids) then with_unknown now ErrPendingTimeout <$> ops !! k
              else ops !! k.
Proof.
  revert ops ops' out. induction ids as [|id ids IH]; simpl; intros ops ops' out Heq.
  - by injection Heq as <- <-.
  - destruct (alter _ id ops !! id) as [r|] eqn:Hid; [|done].
    apply bind_Ok_inv in Heq as ([ops2 out2] & Hloop & [= <- <-]).
    rewrite (IH _ _ _ Hloop), lookup_alter.
    destruct (decide (id = k)) as [->|Hne].
    + rewrite (decide_True (P := k ∈ k :: ids)) by (apply elem_of_cons; auto).
      destruct (ops !! k); simpl; [|by case_decide].
      rewrite with_unknown_idemp. by case_decide.
    + assert (k ∈ id :: ids <-> k ∈ ids) as Hiff by (rewrite elem_of_cons; naive_solver).
      by rewrite (decide_ext _ _ _ _ Hiff).
Qed.

Lemma reap_loop_total now ids ops :
  (forall k, k ∈ ids -> is_Some (ops !! k)) ->
  exists ops' out, reap_loop now ids ops = Ok (ops', out) /\
    out = omap (fun id => scanOperation <$> ops' !! id) ids.
Proof.
  revert ops. induction ids as [|id ids IH]; intros ops Hall; simpl.
  { eauto. }
  destruct (Hall id) as [r Hr]; [apply elem_of_cons; auto|].
  assert (alter (with_unknown now ErrPendingTimeout) id ops !! id =
    Some (with_unknown now ErrPendingTimeout r)) as Hid.
  { by rewrite lookup_alter, decide_True, Hr. }
  rewrite Hid.
  destruct (IH (alter (with_unknown now ErrPendingTimeout) id ops)) as (ops' & out & Hl & Hout).
  { intros k Hk. rewrite lookup_alter. case_decide; subst.
    - rewrite Hr. eauto.
    - apply Hall, elem_of_cons. auto. }
  rewrite Hl. simpl. exists ops', (scanOperation (with_unknown now ErrPendingTimeout r) :: out).
  split; [done|].
  assert (ops' !! id = Some (with_unknown now ErrPendingTimeout r)) as ->.
  { rewrite (reap_loop_lookup _ _ _ _ _ id Hl), Hid. simpl.
    rewrite with_unknown_idemp. by case_decide. }
  simpl. by rewrite Hout.
Qed.

(** What the two sweeps return: the rows selected by [P], after the update. *)
Definition returned_rows (P : OperationRow -> bool) (f : OperationRow -> OperationRow)
    (ops : ops_table) (out : list Operation) : Prop :=
  forall o, o ∈ out <->
    exists id r, ops !! id = Some r /\ P r = true /\ o = scanOperation (f r).

Lemma read_back_total ids ops :
  (forall k, k ∈ ids -> is_Some (ops !! k)) ->
  read_back ids ops = Ok (omap (fun id => scanOperation <$> ops !! id) ids).
Proof.
  induction ids as [|id ids IH]; intros Hall; simpl; [done|].
  destruct (Hall id) as [r Hr]; [apply elem_of_cons; auto|]. rewrite Hr. simpl.
  rewrite IH; [done|]. intros k Hk. apply Hall, elem_of_cons. auto.
Qed.

Lemma returned_update_where P f ops :
  rows_ok ops ->
  returned_rows P f ops
    (omap (fun id => scanOperation <$> update_where P f ops !! id)
       (op_id <$> select_where P ops)).
Proof.
  intros Hok o. rewrite list_elem_of_omap. setoid_rewrite (select_ids P ops _ Hok).
  setoid_rewrite lookup_update_where. split.
  - intros (k & (r & Hk & HP) & Ho). rewrite Hk in Ho. simpl in Ho. rewrite HP in Ho.
    naive_solver.
  - intros (k & r & Hk & HP & ->). exists k. split; [eauto|]. rewrite Hk. simpl. by rewrite HP.
Qed.

Lemma recover_spec now ops :
  rows_ok ops ->
  exists out,
    RecoverRunningOperations now ops =
      Ok (update_where is_running (with_unknown now ErrCrashRecovered) ops, out) /\
    returned_rows is_running (with_unknown now ErrCrashRecovered) ops out.
Proof.
  intros Hok. pose proof (returned_update_where is_running
    (with_unknown now ErrCrashRecovered) ops Hok) as Hret.
  eexists. split; [|exact Hret]. unfold RecoverRunningOperations.
  destruct (op_id <$> select_where is_running ops) as [|k ids] eqn:E.
  - f_equal. f_equal. apply map_eq. intros i. rewrite lookup_update_where.
    destruct (ops !! i) as [r|] eqn:Hi; [|done]. simpl.
    destruct (is_running r) eqn:HP; [|done].
    assert (i ∈ op_id <$> select_where is_running ops) as Hin
      by (apply select_ids; eauto).
    rewrite E in Hin. by apply not_elem_of_nil in Hin.
  - cbv zeta. rewrite <- E, read_back_total; [done|].
    intros i (r & Hi & HP)%select_ids; [|done].
    rewrite lookup_update_where, Hi. eauto.
Qed.

Lemma reap_spec now timeout ops :
  rows_ok ops ->
  let P := is_stale_pending (now - timeout) in
  exists out,
    ReapPendingOperations now timeout ops =
      Ok (update_where P (with_unknown now ErrPendingTimeout) ops, out) /\
    returned_rows P (with_unknown now ErrPendingTimeout) ops out.
Proof.
  intros Hok P. pose proof (returned_update_where P
    (with_unknown now ErrPendingTimeout) ops Hok) as Hret.
  unfold ReapPendingOperations. cbv zeta. fold P.
  destruct (reap_loop_total now (op_id <$> select_where P ops) ops) as (ops' & out & Hl & Hout).
  { intros k (r & Hk & _)%select_ids; eauto. }
  assert (ops' = update_where P (with_unknown now ErrPendingTimeout) ops) as ->.
  { apply map_eq. intros k. rewrite (reap_loop_lookup _ _ _ _ _ k Hl), lookup_update_where.
    case_decide as Hin.
    - apply select_ids in Hin as (r & -> & HP); [|done]. simpl. by rewrite HP.
    - destruct (ops !! k) as [r|] eqn:Hk; [|done]. simpl.
      destruct (P r) eqn:HP; [|done]. destruct Hin. apply select_ids; eauto. }
  rewrite Hl. eexists. split; [done|]. by rewrite Hout.
Qed.

(** One step on one row: kept and moved as the machine allows, or swept while
    terminal; and a row that was not there is a fresh running one. *)
Definition step_row (ops ops' : ops_table) (id : string) : Prop :=
  match ops !! id, ops' !! id with
  | Some r, Some r' => row_ok id r' /\ row_moves r r'
  | Some r, None => op_terminal r = true
  | None, Some r' => row_ok id r' /\ op_status r' = OpRunning
  | None, None => True
  end.

Lemma step_row_refl ops id : rows_ok ops -> step_row ops ops id.
Proof.
  intros Hok. unfold step_row. destruct (ops !! id) as [r|] eqn:E; [|done].
  split; [by apply Hok|done].
Qed.

Lemma step_row_alter f ops id k :
  rows_ok ops ->
  (forall r, ops !! id = Some r -> row_ok id (f r) /\ row_moves r (f r)) ->
  step_row ops (alter f id ops) k.
Proof.
  intros Hok Hf. unfold step_row. rewrite lookup_alter. case_decide as E.
  - subst k. destruct (ops !! id) as [r|] eqn:Hr; simpl; auto.
  - by apply (step_row_refl ops k) in Hok; unfold step_row in Hok.
Qed.

Lemma step_row_update P f ops k :
  rows_ok ops ->
  (forall id r, row_ok id r -> P r = true -> row_ok id (f r) /\ row_moves r (f r)) ->
  step_row ops (update_where P f ops) k.
Proof.
  intros Hok Hf. unfold step_row. rewrite lookup_update_where.
  destruct (ops !! k) as [r|] eqn:Hr; simpl; [|done].
  specialize (Hok k r Hr). destruct (P r) eqn:HP; [by apply Hf|done].
Qed.

Ltac rewrite_status :=
  try match goal with H : op_status _ = _ |- context [op_status _] => rewrite H end.

Lemma op_step_row ops ops' id : rows_ok ops -> OpStep ops ops' -> step_row ops ops' id.
Proof.
  intros Hok Hstep. destruct Hstep as
    [now fresh o ops' Hnow Hins|now k st ops' out Hnow Hset|now k tmp|now k size
    |now ops' out Hnow Hrec|now timeout ops' out Hnow Hreap|now ttl].
  - apply InsertOperation_Ok in Hins as (key & _ & Hnone & _ & ->).
    unfold step_row. rewrite lookup_insert. case_decide as E.
    + subst key. rewrite Hnone. done.
    + by apply (step_row_refl ops id) in Hok; unfold step_row in Hok.
  - unfold SettleOperation in Hset. destruct (ops !! k) as [r|] eqn:Hk; [|done].
    destruct (OperationTransitionAllowed _ _) eqn:Hal in Hset; [|done].
    injection Hset as <- _. unfold step_row. rewrite lookup_insert. case_decide as E.
    + subst k. rewrite Hk. apply settle_row_ok; auto.
    + by apply (step_row_refl ops id) in Hok; unfold step_row in Hok.
  - apply step_row_alter; [done|]. intros r Hr%Hok. split; [exact Hr|].
    unfold row_moves. simpl. split_and!; eauto with gm.
  - apply step_row_alter; [done|]. intros r Hr%Hok. split; [exact Hr|].
    unfold row_moves. simpl. split_and!; eauto with gm.
  - destruct (recover_spec now ops Hok) as (out' & Heq & _).
    rewrite Heq in Hrec. injection Hrec as <- _. apply step_row_update; [done|].
    unfold is_running. intros i r Hr ?; bool_to_prop. apply unknown_row_ok; rewrite_status; done.
  - destruct (reap_spec now timeout ops Hok) as (out' & Heq & _).
    rewrite Heq in Hreap. injection Hreap as <- _. apply step_row_update; [done|].
    unfold is_stale_pending. intros i r Hr ?; bool_to_prop.
    apply unknown_row_ok; rewrite_status; done.
  - simpl. unfold step_row.
    destruct (delete_where _ ops !! id) as [r|] eqn:Hd.
    + apply lookup_delete_where_Some in Hd as [Hr _]. rewrite Hr. split; [by apply Hok|done].
    + destruct (ops !! id) as [r|] eqn:Hr; [|done].
      destruct (op_terminal r) eqn:Ht; [done|].
      assert (delete_where (is_expired (now - ttl)) ops !! id = Some r) as Hs.
      { apply lookup_delete_where_Some. split; [done|]. unfold is_expired. by rewrite Ht. }
      congruence.
Qed.

(** ** Every reachable table is well formed *)

Lemma rows_ok_step ops ops' : rows_ok ops -> OpStep ops ops' -> rows_ok ops'.
Proof.
  intros Hok Hstep id r' Hr'. pose proof (op_step_row _ _ id Hok Hstep) as Hrow.
  unfold step_row in Hrow. rewrite Hr' in Hrow. destruct (ops !! id); apply Hrow.
Qed.

Lemma same_key_moves r1 r2 r1' r2' :
  row_moves r1 r1' -> row_moves r2 r2' -> same_key r1' r2' -> same_key r1 r2.
Proof.
  intros [(_ & A1 & K1 & U1 & I1 & _) _] [(_ & A2 & K2 & U2 & I2 & _) _].
  unfold same_key. by rewrite A1, K1, U1, I1, A2, K2, U2, I2.
Qed.

Lemma keys_unique_kept ops ops' :
  (forall id r', ops' !! id = Some r' -> exists r, ops !! id = Some r /\ row_moves r r') ->
  keys_unique ops -> keys_unique ops'.
Proof.
  intros Hback Huniq id1 id2 r1' r2' H1 H2 Hsame.
  destruct (Hback _ _ H1) as (r1 & ? & Hm1), (Hback _ _ H2) as (r2 & ? & Hm2).
  eapply Huniq; [done..|]. by eapply same_key_moves.
Qed.

Lemma idempotency_conflict_spec r ops :
  idempotency_conflict r ops = true <->
  exists id r', ops !! id = Some r' /\ same_key r r'.
Proof.
  unfold idempotency_conflict, same_key.
  destruct (op_idempotency_key r) as [k|] eqn:Hk.
  - rewrite negb_true_iff, bool_decide_eq_false, select_where_nil. split.
    + intros Hn. destruct (select_where (same_idempotency (op_authorization_id r)
        (op_account_id r) (op_kind r) k) ops) as [|r' l] eqn:E.
      * destruct Hn. by apply select_where_nil.
      * assert (r' ∈ r' :: l) as Hin by (apply elem_of_cons; auto). rewrite <- E in Hin.
        apply elem_of_select_where in Hin as (id & Hid & HP). exists id, r'.
        split; [done|]. unfold same_idempotency in HP. bool_to_prop. naive_solver.
    + intros (id & r' & Hid & ? & ? & ? & ? & _) Hall. specialize (Hall _ _ Hid).
      unfold same_idempotency in Hall. revert Hall.
      rewrite !bool_decide_eq_true_2 by congruence. done.
  - split; [done|]. intros (? & ? & ? & ? & ? & ? & ? & [? ?]). done.
Qed.

Lemma keys_unique_step ops ops' :
  rows_ok ops -> keys_unique ops -> OpStep ops ops' -> keys_unique ops'.
Proof.
  intros Hok Huniq Hstep.
  assert ((forall id, ops !! id = None -> ops' !! id = None) -> keys_unique ops') as Hkeep.
  { intros Hnone. eapply keys_unique_kept; [|exact Huniq]. intros id r' Hr'.
    pose proof (op_step_row _ _ id Hok Hstep) as Hrow. unfold step_row in Hrow.
    rewrite Hr' in Hrow. destruct (ops !! id) as [r|] eqn:Hr; [naive_solver|].
    rewrite (Hnone id Hr) in Hr'. done. }
  destruct Hstep as
    [now fresh o ops' Hnow Hins|now k st ops' out Hnow Hset|now k tmp|now k size
    |now ops' out Hnow Hrec|now timeout ops' out Hnow Hreap|now ttl].
  - apply InsertOperation_Ok in Hins as (key & _ & Hnone & Hconf & ->).
    assert (forall id r', ops !! id = Some r' -> ~ same_key (insert_row now key o) r') as Hno.
    { intros id r' Hid Hs. apply not_true_iff_false in Hconf. apply Hconf.
      apply idempotency_conflict_spec. eauto. }
    intros id1 id2 r1 r2 H1 H2 Hs.
    assert (same_key r2 r1) as Hs'.
    { unfold same_key in *. destruct Hs as (? & ? & ? & Hk & ?). rewrite <- Hk. auto. }
    rewrite lookup_insert in H1, H2.
    destruct (decide (key = id1)) as [<-|], (decide (key = id2)) as [<-|]; [done| | |].
    + injection H1 as <-. by destruct (Hno _ _ H2).
    + injection H2 as <-. by destruct (Hno _ _ H1).
    + by eapply Huniq.
  - apply Hkeep. intros id Hid. unfold SettleOperation in Hset.
    destruct (ops !! k) as [r|] eqn:Hk; [|done].
    destruct (OperationTransitionAllowed _ _); [|done]. injection Hset as <- _.
    rewrite lookup_insert_ne; congruence.
  - apply Hkeep. intros id Hid. unfold SetOperationTmpID. rewrite lookup_alter.
    case_decide; [|done]. subst. by rewrite Hid.
  - apply Hkeep. intros id Hid. unfold SetOperationMediaSize. rewrite lookup_alter.
    case_decide; [|done]. subst. by rewrite Hid.
  - apply Hkeep. intros id Hid. destruct (recover_spec now ops Hok) as (? & Heq & _).
    rewrite Heq in Hrec. injection Hrec as <- _. by apply update_where_None.
  - apply Hkeep. intros id Hid. destruct (reap_spec now timeout ops Hok) as (? & Heq & _).
    rewrite Heq in Hreap. injection Hreap as <- _. by apply update_where_None.
  - apply Hkeep. intros id Hid. simpl.
    destruct (delete_where _ ops !! id) as [r|] eqn:Hd; [|done].
    apply lookup_delete_where_Some in Hd as [? _]. congruence.
Qed.

Lemma table_ok_empty : table_ok ∅.
Proof.
  split; [apply map_Forall_empty|]. intros ? ? ? ? H. by rewrite lookup_empty in H.
Qed.

Lemma table_ok_steps ops ops' : table_ok ops -> rtc OpStep ops ops' -> table_ok ops'.
Proof.
  intros Hok Hsteps. induction Hsteps as [|a b c Hab _ IH]; [done|].
  apply IH. destruct Hok. split; [by eapply rows_ok_step|by eapply keys_unique_step].
Qed.

#[export] Hint Resolve table_ok_empty : gm.

(** ** The status machine of section 6.4, as a relation *)

Inductive lifecycle : option OperationStatus -> option OperationStatus -> Prop :=
| life_insert : lifecycle None (Some OpRunning)
| life_keep o : lifecycle o o
| life_outcome to : to ∈ [OpSucceeded; OpFailed; OpPending] ->
    lifecycle (Some OpRunning) (Some to)
| life_crash : lifecycle (Some OpRunning) (Some OpUnknown)
| life_echo to : to ∈ [OpSucceeded; OpFailed] -> lifecycle (Some OpPending) (Some to)
| life_timeout : lifecycle (Some OpPending) (Some OpUnknown)
| life_correct to : to ∈ [OpSucceeded; OpFailed] -> lifecycle (Some OpUnknown) (Some to)
| life_sweep s : OperationTerminal s = true -> lifecycle (Some s) None.

Lemma lifecycle_allowed from to :
  OperationTransitionAllowed from to = true -> lifecycle (Some from) (Some to).
Proof.
  destruct from, to; vm_compute; intros H; try discriminate H;
    first [apply life_keep|apply life_crash|apply life_timeout
          |apply life_outcome|apply life_echo|apply life_correct]; set_solver.
Qed.

(** ** Properties *)

(** Every reachable table is well formed.  After any sequence of inserts,
    settlements, crash sweeps, reaper runs and retention sweeps from an empty
    table: a row is stored under its own ID; [terminal] is the derived value of
    its status; [terminal_at_ms] is present exactly when the row is terminal;
    [corrected_at_ms] is present only on a row that ended [succeeded] or
    [failed]; and no two rows share (authorization, account, kind, key) for a
    key that is present. *)
Theorem operations_invariant ops :
  rtc OpStep ∅ ops ->
  (forall id r, ops !! id = Some r ->
     op_id r = id /\
     op_terminal r = OperationTerminal (op_status r) /\
     (is_Some (op_terminal_at_ms r) <-> op_terminal r = true) /\
     (is_Some (op_corrected_at_ms r) -> op_status r = OpSucceeded \/ op_status r = OpFailed)) /\
  (forall id1 id2 r1 r2, ops !! id1 = Some r1 -> ops !! id2 = Some r2 ->
     same_key r1 r2 -> id1 = id2).
Proof.
  intros Hr. destruct (table_ok_steps _ _ table_ok_empty Hr) as [Hok Huniq].
  split; [|exact Huniq]. intros id r Hid.
  destruct (Hok id r Hid) as (? & ? & Hat & Hcor). split_and!; [done|done| |].
  - destruct (op_terminal_at_ms r); [destruct Hat as [-> _]|rewrite Hat]; [naive_solver|].
    split; [by intros [? ?]|done].
  - intros [t Ht]. rewrite Ht in Hcor. apply Hcor.
Qed.


(** A history that keeps operation [id]. *)
Definition keeps (id : string) (a b : ops_table) : Prop := OpStep a b /\ is_Some (b !! id).

Lemma keeps_row_moves id ops ops' r :
  table_ok ops -> rtc (keeps id) ops ops' -> ops !! id = Some r ->
  exists r', ops' !! id = Some r' /\ row_moves r r'.
Proof.
  intros Hok Hh. revert r Hok.
  induction Hh as [a|a b c [Hab [rb Hb]] _ IH]; intros r Hok Hr; [by exists r|].
  destruct (IH rb) as (rc & ? & ?).
  - apply (table_ok_steps a); [done|by apply rtc_once].
  - done.
  - exists rc. split; [done|]. transitivity rb; [|done].
    pose proof (op_step_row _ _ id (proj1 Hok) Hab) as Hrow. unfold step_row in Hrow.
    rewrite Hr, Hb in Hrow. apply Hrow.
Qed.

(** C5: what a caller may treat as final is final.  As long as the row is kept,
    its identity columns never change, its first [terminal_at_ms] and
    [corrected_at_ms] are never rewritten, a terminal row stays terminal, and a
    [succeeded] or [failed] status never changes. *)
Theorem operation_final ops ops' id r :
  rtc OpStep ∅ ops -> ops !! id = Some r -> rtc (keeps id) ops ops' ->
  exists r', ops' !! id = Some r' /\
    op_account_id r' = op_account_id r /\ op_kind r' = op_kind r /\
    op_idempotency_key r' = op_idempotency_key r /\
    op_request_fingerprint r' = op_request_fingerprint r /\
    (forall t, op_terminal_at_ms r = Some t -> op_terminal_at_ms r' = Some t) /\
    (forall t, op_corrected_at_ms r = Some t -> op_corrected_at_ms r' = Some t) /\
    (op_terminal r = true -> op_terminal r' = true) /\
    (op_status r = OpSucceeded \/ op_status r = OpFailed -> op_status r' = op_status r).
Proof.
  intros Hreach Hr Hh. pose proof (table_ok_steps _ _ table_ok_empty Hreach) as Hok.
  destruct (keeps_row_moves _ _ _ _ Hok Hh Hr) as (r' & Hr' & Hm).
  exists r'. split; [done|]. destruct Hm as ((? & ? & ? & ? & ? & ? & ?) & Hal & Ht & Hc & _).
  split_and!; try done.
  - destruct (proj1 Hok id r Hr) as (_ & _ & Hat & _). intros Hterm.
    destruct (op_terminal_at_ms r) as [t|]; [|congruence].
    assert (table_ok ops') as [Hok' _].
    { apply (table_ok_steps ops); [done|]. eapply rtc_subrel; [|exact Hh]. by intros ? ? [? _]. }
    destruct (Hok' id r' Hr') as (_ & _ & Hat' & _).
    rewrite (Ht t eq_refl) in Hat'. apply Hat'.
  - intros Hs. by eapply final_allowed; [exact Hal|].
Qed.

(** The crash sweep.  On a reachable table it succeeds; every operation that
    was [running] becomes [unknown], terminal, with error code [crash_recovered];
    every other row is untouched; it returns exactly the rows it settled; and
    right after it there is nothing left to recover. *)
Theorem crash_recovery_settles_all now ops :
  rtc OpStep ∅ ops ->
  exists ops' out,
    RecoverRunningOperations now ops = Ok (ops', out) /\
    (forall id r, ops !! id = Some r ->
       ops' !! id = Some (if bool_decide (op_status r = OpRunning)
                          then with_unknown now ErrCrashRecovered r else r)) /\
    (forall id, ops !! id = None -> ops' !! id = None) /\
    (forall id r', ops' !! id = Some r' -> op_status r' <> OpRunning) /\
    (forall o, o ∈ out <-> exists id r, ops !! id = Some r /\ op_status r = OpRunning /\
                 o = scanOperation (with_unknown now ErrCrashRecovered r)) /\
    RecoverRunningOperations now ops' = Ok (ops', []).
Proof.
  intros Hr. destruct (table_ok_steps _ _ table_ok_empty Hr) as [Hok _].
  destruct (recover_spec now ops Hok) as (out & Heq & Hret).
  exists (update_where is_running (with_unknown now ErrCrashRecovered) ops), out.
  assert (forall id r', update_where is_running (with_unknown now ErrCrashRecovered) ops !! id
            = Some r' -> is_running r' = false) as Hnone.
  { intros id r' (r & _ & ->)%lookup_update_where_Some. by destruct (is_running r) eqn:E. }
  split_and!; [done| | | | |].
  - intros id r Hid. by rewrite lookup_update_where, Hid.
  - intros id. apply update_where_None.
  - intros id r' Hid%Hnone. unfold is_running in Hid. by bool_to_prop.
  - intros o. rewrite (Hret o). unfold is_running. by setoid_rewrite bool_decide_eq_true.
  - unfold RecoverRunningOperations. cbv zeta.
    assert (select_where is_running
      (update_where is_running (with_unknown now ErrCrashRecovered) ops) = []) as ->
      by (by apply select_where_nil). done.
Qed.

(** The pending reaper.  On a reachable table it succeeds and settles exactly
    the [pending] operations created at or before [now - timeout], to [unknown]
    with [pending_timeout]; a younger [pending] row and every other row is
    untouched; it returns exactly the rows it settled. *)
Theorem pending_reaper_exact now timeout ops :
  rtc OpStep ∅ ops ->
  exists ops' out,
    ReapPendingOperations now timeout ops = Ok (ops', out) /\
    (forall id r, ops !! id = Some r ->
       ops' !! id = Some
         (if bool_decide (op_status r = OpPending /\ (op_created_at_ms r <= now - timeout)%Z)
          then with_unknown now ErrPendingTimeout r else r)) /\
    (forall id, ops !! id = None -> ops' !! id = None) /\
    (forall o, o ∈ out <-> exists id r, ops !! id = Some r /\ op_status r = OpPending /\
                 (op_created_at_ms r <= now - timeout)%Z /\
                 o = scanOperation (with_unknown now ErrPendingTimeout r)).
Proof.
  intros Hr. destruct (table_ok_steps _ _ table_ok_empty Hr) as [Hok _].
  destruct (reap_spec now timeout ops Hok) as (out & Heq & Hret).
  assert (forall r, is_stale_pending (now - timeout) r =
    bool_decide (op_status r = OpPending /\ (op_created_at_ms r <= now - timeout)%Z)) as HP.
  { intros r. unfold is_stale_pending. rewrite bool_decide_and. f_equal.
    apply Bool.eq_iff_eq_true. by rewrite Z.leb_le, bool_decide_eq_true. }
  eexists _, out. split; [exact Heq|]. split_and!.
  - intros id r Hid. by rewrite lookup_update_where, Hid, <- HP.
  - intros id. apply update_where_None.
  - intros o. rewrite (Hret o). setoid_rewrite HP. setoid_rewrite bool_decide_eq_true.
    naive_solver.
Qed.

(** The retention sweep deletes exactly the terminal rows created at or
    before [now - ttl], never a row that is not terminal, and reports how many
    it deleted. *)
Theorem sweep_terminal_only now ttl ops :
  let '(ops', n) := SweepIdempotencyKeys now ttl ops in
  (forall id r, ops' !! id = Some r <->
     ops !! id = Some r /\ (op_terminal r = false \/ (now - ttl < op_created_at_ms r)%Z)) /\
  (n + size ops' = size ops)%nat.
Proof.
  simpl. split; [|apply size_delete_where].
  intros id r. rewrite lookup_delete_where_Some. unfold is_expired.
  rewrite andb_false_iff, Z.leb_gt. done.
Qed.

Lemma operation_by_key_select auth account kind key ops :
  keys_unique ops ->
  forall id r, ops !! id = Some r -> same_idempotency auth account kind key r = true ->
    select_where (same_idempotency auth account kind key) ops <> [] /\
    forall r', r' ∈ select_where (same_idempotency auth account kind key) ops -> r' = r.
Proof.
  intros Huniq id r Hid HP. split.
  - intros Hnil. rewrite select_where_nil in Hnil. rewrite (Hnil _ _ Hid) in HP. done.
  - intros r' (id' & Hid' & HP')%elem_of_select_where.
    assert (same_key r r') as Hs.
    { unfold same_idempotency in *. bool_to_prop. unfold same_key. split_and!; try congruence.
      exists key. congruence. }
    pose proof (Huniq _ _ _ _ Hid Hid' Hs) as <-. congruence.
Qed.

(** The idempotency lookup is exact.  On a reachable table and for a key that
    is present, [OperationByKey] returns an operation exactly when a row with this
    (authorization, account, kind, key) exists, that row is the only one, and a
    second insert under the same tuple is refused by the unique index; with an
    empty key nothing is ever found. *)
Theorem idempotency_lookup_exact auth account kind key ops :
  rtc OpStep ∅ ops -> key <> ""%string ->
  (forall o, OperationByKey auth account kind key ops = Ok o <->
     exists id r, ops !! id = Some r /\ same_idempotency auth account kind key r = true /\
       o = scanOperation r) /\
  (OperationByKey auth account kind key ops = Err ErrOperationNotFound \/
   exists o, OperationByKey auth account kind key ops = Ok o /\
     forall now fresh n ops', new_authorization_id n = auth -> new_account_id n = account ->
       new_kind n = kind -> new_idempotency_key n = key ->
       InsertOperation now fresh n ops <> Ok ops') /\
  OperationByKey auth account kind "" ops = Err ErrOperationNotFound.
Proof.
  intros Hr Hkey. destruct (table_ok_steps _ _ table_ok_empty Hr) as [_ Huniq].
  unfold OperationByKey. rewrite decide_False by done.
  destruct (select_where (same_idempotency auth account kind key) ops) as [|r l] eqn:E.
  - split_and!; [|by left|done]. intros o. split; [done|].
    intros (id & r & Hid & HP & _). by destruct (operation_by_key_select _ _ _ _ _ Huniq _ _ Hid HP).
  - assert (r ∈ select_where (same_idempotency auth account kind key) ops) as Hin.
    { rewrite E. apply elem_of_cons. auto. }
    apply elem_of_select_where in Hin as (id & Hid & HP). split_and!; [| |done].
    + intros o. split; [intros [= <-]; eauto 6|]. intros (id' & r' & Hid' & HP' & ->).
      destruct (operation_by_key_select _ _ _ _ _ Huniq _ _ Hid' HP') as [_ Hall].
      f_equal. f_equal. apply Hall. rewrite E. apply elem_of_cons. auto.
    + right. exists (scanOperation r). split; [done|].
      intros now fresh n ops' <- <- <- Hn Hins.
      apply InsertOperation_Ok in Hins as (k & _ & _ & Hconf & _).
      apply not_true_iff_false in Hconf. apply Hconf, idempotency_conflict_spec.
      exists id, r. split; [done|]. unfold same_idempotency in HP. bool_to_prop.
      unfold same_key. simpl. rewrite Hn, nullString_nonempty by done. eauto 10.
Qed.

(** ** Witnesses: one send, accepted by the phone, then settled *)

Definition demo_new : NewOperation := {|
  new_id := "op_1"; new_account_id := "acct_1"; new_kind := "send_text";
  new_authorization_id := "auth_1"; new_idempotency_key := "k";
  new_request_fingerprint := "fp"; new_conversation_id := "conv_1";
  new_message_id := ""; new_tmp_id := "tmp_1"; new_request_payload_json := "";
|}.

Definition demo_inserted : ops_table := {["op_1" := insert_row 5 "op_1" demo_new]}.

Definition demo_settlement (s : OperationStatus) : Settlement := {|
  st_Status := s; st_MessageID := ""; st_ConversationID := ""; st_ErrorCode := "";
  st_ErrorMessage := ""; st_ErrorRetryable := false; st_GoogleStatusRaw := 0;
|}.

Definition demo_settled (s : OperationStatus) : ops_table :=
  match SettleOperation 7 "op_1" (demo_settlement s) demo_inserted with
  | Ok (ops, _) => ops
  | Err _ => ∅
  end.

Lemma demo_insert_step : OpStep ∅ demo_inserted.
Proof. apply (step_insert _ 5 "" demo_new); [lia|reflexivity]. Qed.

Lemma demo_settle_step s : OpStep demo_inserted (demo_settled s).
Proof.
  apply (step_settle _ 7 "op_1" (demo_settlement s) _
    (scanOperation (default (insert_row 5 "op_1" demo_new) (demo_settled s !! "op_1")))); [lia|].
  by destruct s.
Qed.

Lemma demo_reach : rtc OpStep ∅ demo_inserted.
Proof. apply rtc_once, demo_insert_step. Qed.

Lemma demo_settled_reach s : rtc OpStep ∅ (demo_settled s).
Proof. eapply rtc_r; [apply demo_reach|apply demo_settle_step]. Qed.

Example operations_invariant_witness :
  (op_terminal <$> demo_settled OpFailed !! "op_1") = Some (OperationTerminal OpFailed).
Proof.
  destruct (demo_settled OpFailed !! "op_1") as [r|] eqn:E; [|discriminate E].
  destruct (proj1 (operations_invariant (demo_settled OpFailed) (demo_settled_reach _)) _ _ E)
    as (_ & Ht & _).
  simpl. rewrite Ht. vm_compute in E. injection E as <-. reflexivity.
Defined.


Example operation_final_witness :
  exists r', demo_settled OpUnknown !! "op_1" = Some r' /\ op_kind r' = "send_text"%string.
Proof.
  destruct (operation_final demo_inserted (demo_settled OpUnknown) "op_1"
    (insert_row 5 "op_1" demo_new) demo_reach) as (r' & Hr' & _ & Hk & _).
  - reflexivity.
  - apply rtc_once. split; [apply demo_settle_step|]. eexists. vm_compute. reflexivity.
  - exists r'. split; [exact Hr'|exact Hk].
Defined.

Example crash_recovery_settles_all_witness :
  exists ops' out, RecoverRunningOperations 9 demo_inserted = Ok (ops', out) /\
    forall id r', ops' !! id = Some r' -> op_status r' <> OpRunning.
Proof.
  destruct (crash_recovery_settles_all 9 demo_inserted demo_reach)
    as (ops' & out & Heq & _ & _ & Hnone & _).
  exists ops', out. split; [exact Heq|exact Hnone].
Defined.

Example pending_reaper_exact_witness :
  exists ops' out, ReapPendingOperations 9 1 (demo_settled OpPending) = Ok (ops', out) /\
    (op_status <$> ops' !! "op_1") = Some OpUnknown.
Proof.
  destruct (pending_reaper_exact 9 1 (demo_settled OpPending) (demo_settled_reach _))
    as (ops' & out & Heq & Hrows & _).
  exists ops', out. split; [exact Heq|].
  destruct (demo_settled OpPending !! "op_1") as [r|] eqn:E; [|discriminate E].
  rewrite (Hrows "op_1"%string r E). vm_compute in E. injection E as <-. reflexivity.
Defined.

Example idempotency_lookup_exact_witness :
  exists o, OperationByKey "auth_1" "acct_1" "send_text" "k" demo_inserted = Ok o.
Proof.
  exists (scanOperation (insert_row 5 "op_1" demo_new)).
  apply (proj1 (idempotency_lookup_exact "auth_1" "acct_1" "send_text" "k" demo_inserted
    demo_reach ltac:(discriminate))).
  exists "op_1"%string, (insert_row 5 "op_1" demo_new). vm_compute. auto.
Defined.
