(* ===== verification/Errors.v ===== *)
(** * Error values and their classification (internal/gm/errors.go, internal/apierr)

    A Go [error] is a tree: a sentinel, a [RequestError] or [HTTPError] value, a
    classified [*gm.Error] or [*apierr.Error] with an optional cause, or a
    wrapper around one or two errors.  [errors.Is] and [errors.As] are the
    pre-order searches of the standard library.  On top of them are the
    classifier of the gm layer, the public error table and the funnel [From].
    The theorems show that classification does not depend on wrapping, that it
    agrees with the public table, and what a pending operation means. *)

From S2P Require Import Prelude.
From stdpp Require Export pretty.

(** ** Codes *)

Definition CodePhoneNotResponding : string := "phone_not_responding".
Definition CodeDisconnected : string := "disconnected".
Definition CodeUnsupportedCapability : string := "unsupported_capability".
Definition CodeGooglePermissionDenied : string := "google_permission_denied".
Definition CodeGoogleError : string := "google_error".
Definition CodeGoogleHTTPError : string := "google_http_error".
Definition CodeGoogleUndocumentedState : string := "google_undocumented_status".
Definition CodeNotDefaultSMSApp : string := "not_default_sms_app".
Definition CodePairingNoCookies : string := "pairing_no_cookies".
Definition CodePairingNoDevices : string := "pairing_no_devices".
Definition CodePairingWrongEmoji : string := "pairing_wrong_emoji".
Definition CodePairingCancelled : string := "pairing_cancelled".
Definition CodePairingTimeout : string := "pairing_timeout".
Definition CodePairingInitTimeout : string := "pairing_init_timeout".
Definition CodePairingNoAccount : string := "pairing_no_account".
Definition CodePairingWrongAccount : string := "pairing_wrong_account".
Definition CodeInternalError : string := "internal_error".

(** The codes only the public layer has. *)
Definition CodeInvalidRequest : string := "invalid_request".
Definition CodeInvalidToken : string := "invalid_token".
Definition CodeInsufficientScope : string := "insufficient_scope".
Definition CodeNotFound : string := "not_found".
Definition CodeIdempotencyConflict : string := "idempotency_conflict".
Definition CodeNotPaired : string := "not_paired".
Definition CodePayloadTooLarge : string := "payload_too_large".
Definition CodeMediaUnsupportedType : string := "media_unsupported_type".
Definition CodeRateLimited : string := "rate_limited".

Definition gm_codes : list string :=
  [CodePhoneNotResponding; CodeDisconnected; CodeUnsupportedCapability;
   CodeGooglePermissionDenied; CodeGoogleError; CodeGoogleHTTPError;
   CodeGoogleUndocumentedState; CodeNotDefaultSMSApp; CodePairingNoCookies;
   CodePairingNoDevices; CodePairingWrongEmoji; CodePairingCancelled;
   CodePairingTimeout; CodePairingInitTimeout; CodePairingNoAccount;
   CodePairingWrongAccount; CodeInternalError].

Definition ReasonNotSignedIn : string := "not_signed_in".

(** net/http status constants. *)
Definition StatusBadRequest : Z := 400.
Definition StatusUnauthorized : Z := 401.
Definition StatusForbidden : Z := 403.
Definition StatusNotFound : Z := 404.
Definition StatusConflict : Z := 409.
Definition StatusRequestEntityTooLarge : Z := 413.
Definition StatusUnsupportedMediaType : Z := 415.
Definition StatusTooManyRequests : Z := 429.
Definition StatusInternalServerError : Z := 500.
Definition StatusBadGateway : Z := 502.
Definition StatusServiceUnavailable : Z := 503.
Definition StatusGatewayTimeout : Z := 504.

(** ** Error values *)

Inductive Sentinel : Type :=
| ErrPhoneNotResponding
| ErrConnectionClosed
| ErrInvalidCredentials
| ErrRequestedEntityNotFound
| ErrCallerNoPermission
| ErrNoCookies
| ErrNoDevicesFound
| ErrIncorrectEmoji
| ErrPairingCancelled
| ErrPairingTimeout
| ErrPairingInitTimeout
| ErrHadMultipleDevices
| ErrWrongAccount
| ErrNoAccountAddress.

#[export] Instance Sentinel_eq_dec : EqDecision Sentinel.
Proof. solve_decision. Defined.

Inductive DetailValue : Type :=
| DInt (z : Z) | DString (s : string) | DBool (b : bool) | DReason (name : string)
| DAccounts (candidates : list (string * string * string)).

(** [gm.Error] without its [Err] field. *)
Record ErrorFields := mkErrorFields {
  Code : string;
  HTTPStatus : Z;
  Message : string;
  Reason : string;
  SignsOutAccount : bool;
  Retryable : bool;
  KeepsOperationPending : bool;
  Details : gmap string DetailValue;
  GoogleStatusRaw : Z;
}.

(** [apierr.Error] without its [Err] field. *)
Record ApiFields := mkApiFields {
  api_Code : string;
  api_Message : string;
  api_Details : gmap string DetailValue;
  api_RetryAfter : Z;
  HTTPStatusOverride : Z;
  api_retryable : bool;
}.

Inductive GoError : Type :=
| ESentinel (s : Sentinel)
| ERequest (type : Z) (message : string)
| EHTTP (action : string) (status : Z)
| EOther (message : string)
| EWrap (message : string) (e : GoError)            (** one [%w] *)
| EJoin (message : string) (e1 e2 : GoError)        (** two [%w] *)
| EClassified (f : ErrorFields) (cause : option GoError)
| EApi (f : ApiFields) (cause : option GoError).

(** A [*gm.Error] and a [*apierr.Error]. *)
Record Error := mkError { fields : ErrorFields; Err_ : option GoError }.
Record ApiError := mkApiError { api_fields : ApiFields; api_Err : option GoError }.

Definition error_of (e : Error) : GoError := EClassified (fields e) (Err_ e).

(** [errors.Is(err, s)] for a sentinel [s].  The [Is] methods of the two error
    types only match their own type, so the search goes on to the cause. *)
Fixpoint errors_Is (s : Sentinel) (e : GoError) : bool :=
  match e with
  | ESentinel t => bool_decide (t = s)
  | EWrap _ e1 => errors_Is s e1
  | EJoin _ e1 e2 => errors_Is s e1 || errors_Is s e2
  | EClassified _ (Some c) | EApi _ (Some c) => errors_Is s c
  | _ => false
  end.

(** [errors.As]: the first node, in pre-order, that [pick] accepts. *)
Fixpoint errors_As {A} (pick : GoError -> option A) (e : GoError) : option A :=
  match pick e with
  | Some a => Some a
  | None =>
      match e with
      | EWrap _ e1 => errors_As pick e1
      | EJoin _ e1 e2 =>
          match errors_As pick e1 with Some a => Some a | None => errors_As pick e2 end
      | EClassified _ (Some c) | EApi _ (Some c) => errors_As pick c
      | _ => None
      end
  end.

Definition as_Error : GoError -> option Error :=
  errors_As (fun e => match e with EClassified f c => Some (mkError f c) | _ => None end).
Definition as_ApiError : GoError -> option ApiError :=
  errors_As (fun e => match e with EApi f c => Some (mkApiError f c) | _ => None end).
Definition as_RequestError : GoError -> option (Z * string) :=
  errors_As (fun e => match e with ERequest t m => Some (t, m) | _ => None end).
Definition as_HTTPError : GoError -> option (string * Z) :=
  errors_As (fun e => match e with EHTTP a s => Some (a, s) | _ => None end).

(** ** Constructors *)

Definition newError (code : string) (status : Z) (msg : string) : ErrorFields := {|
  Code := code; HTTPStatus := status; Message := msg; Reason := "";
  SignsOutAccount := false; Retryable := false; KeepsOperationPending := false;
  Details := ∅; GoogleStatusRaw := 0;
|}.

Definition notSignedIn (msg : string) : ErrorFields := {|
  Code := CodeUnsupportedCapability; HTTPStatus := StatusConflict; Message := msg;
  Reason := ReasonNotSignedIn; SignsOutAccount := true; Retryable := false;
  KeepsOperationPending := false; Details := ∅; GoogleStatusRaw := 0;
|}.

Definition set_Retryable (b : bool) (f : ErrorFields) : ErrorFields := {|
  Code := Code f; HTTPStatus := HTTPStatus f; Message := Message f; Reason := Reason f;
  SignsOutAccount := SignsOutAccount f; Retryable := b;
  KeepsOperationPending := KeepsOperationPending f; Details := Details f;
  GoogleStatusRaw := GoogleStatusRaw f;
|}.

Definition set_KeepsOperationPending (b : bool) (f : ErrorFields) : ErrorFields := {|
  Code := Code f; HTTPStatus := HTTPStatus f; Message := Message f; Reason := Reason f;
  SignsOutAccount := SignsOutAccount f; Retryable := Retryable f;
  KeepsOperationPending := b; Details := Details f; GoogleStatusRaw := GoogleStatusRaw f;
|}.

Definition set_Details (d : gmap string DetailValue) (f : ErrorFields) : ErrorFields := {|
  Code := Code f; HTTPStatus := HTTPStatus f; Message := Message f; Reason := Reason f;
  SignsOutAccount := SignsOutAccount f; Retryable := Retryable f;
  KeepsOperationPending := KeepsOperationPending f; Details := d;
  GoogleStatusRaw := GoogleStatusRaw f;
|}.

Definition set_GoogleStatusRaw (z : Z) (f : ErrorFields) : ErrorFields := {|
  Code := Code f; HTTPStatus := HTTPStatus f; Message := Message f; Reason := Reason f;
  SignsOutAccount := SignsOutAccount f; Retryable := Retryable f;
  KeepsOperationPending := KeepsOperationPending f; Details := Details f;
  GoogleStatusRaw := z;
|}.

Definition set_Message (m : string) (f : ErrorFields) : ErrorFields := {|
  Code := Code f; HTTPStatus := HTTPStatus f; Message := m; Reason := Reason f;
  SignsOutAccount := SignsOutAccount f; Retryable := Retryable f;
  KeepsOperationPending := KeepsOperationPending f; Details := Details f;
  GoogleStatusRaw := GoogleStatusRaw f;
|}.

(** ** The matching rule for a fatal listen error *)

Definition IsFatalListenError (err : option GoError) : bool :=
  match err with
  | None => false
  | Some e =>
      if errors_Is ErrInvalidCredentials e then true
      else match as_HTTPError e with
           | Some (_, status) =>
               bool_decide (status = StatusUnauthorized) || bool_decide (status = StatusForbidden)
           | None => false
           end
  end.

(** ** Classify *)

(** The [switch] over the sentinels, in the source's order, and the fallbacks. *)
Definition classify_fields (err : GoError) : ErrorFields :=
  if errors_Is ErrPhoneNotResponding err then
    set_KeepsOperationPending true (set_Retryable true
      (newError CodePhoneNotResponding StatusGatewayTimeout
        "the phone did not answer within 60s; the server accepted the request and the phone may still deliver it, so the operation stays pending -- do not resend"))
  else if errors_Is ErrConnectionClosed err then
    set_Retryable true (newError CodeDisconnected StatusServiceUnavailable
      "the connection to Google closed while the request was in flight")
  else if errors_Is ErrInvalidCredentials err then
    notSignedIn "this account's Google credentials are no longer valid; refresh its cookies with `agm pair --refresh-cookies --account <id>`"
  else if errors_Is ErrRequestedEntityNotFound err then
    notSignedIn "the phone no longer knows this pairing; pair this account again"
  else if errors_Is ErrCallerNoPermission err then
    newError CodeGooglePermissionDenied StatusBadGateway
      "Google refused the request: the caller does not have permission"
  else if errors_Is ErrNoCookies err then
    newError CodePairingNoCookies StatusConflict
      "Google-account pairing needs all seven session cookies, and at least one is missing; details.missing_cookies names them, and OSID in particular is host-scoped to messages.google.com"
  else if errors_Is ErrNoDevicesFound err then
    newError CodePairingNoDevices StatusConflict
      "this Google account has no phone that can be paired"
  else if errors_Is ErrIncorrectEmoji err then
    newError CodePairingWrongEmoji StatusConflict
      "the emoji tapped on the phone did not match the one shown"
  else if errors_Is ErrPairingCancelled err then
    newError CodePairingCancelled StatusConflict "pairing was dismissed on the phone"
  else if errors_Is ErrPairingTimeout err then
    newError CodePairingTimeout StatusConflict
      "the pairing expired before it was confirmed on the phone"
  else if errors_Is ErrPairingInitTimeout err then
    let e := set_Retryable true (newError CodePairingInitTimeout StatusConflict
      "the pairing handshake with Google timed out; try again") in
    if errors_Is ErrHadMultipleDevices err
    then set_Details {["multiple_devices" := DBool true]} e else e
  else if errors_Is ErrWrongAccount err then
    newError CodePairingWrongAccount StatusConflict
      "those cookies belong to a different Google account; nothing was changed"
  else if errors_Is ErrNoAccountAddress err then
    newError CodePairingNoAccount StatusConflict
      "Google did not return an account address for this pairing; no account was created"
  else match as_RequestError err with
  | Some (type, message) =>
      set_Details (<["google_type" := DInt type]> {["google_message" := DString message]})
        (newError CodeGoogleError StatusBadGateway "Google returned an error for this request")
  | None =>
  match as_HTTPError err with
  | Some (action, status) =>
      set_Retryable true
        (set_Details (<["status" := DInt status]> {["action" := DString action]})
          (newError CodeGoogleHTTPError StatusBadGateway
            "the request to Google failed at the transport level"))
  | None => newError CodeInternalError StatusInternalServerError "unclassified failure"
  end end.

Definition classify_error (err : GoError) : Error :=
  match as_Error err with
  | Some already => already
  | None => mkError (classify_fields err) (Some err)
  end.

Definition Classify (err : option GoError) : option Error := classify_error <$> err.

(** ** Send and resolve statuses *)

Definition SendStatusUnknown : Z := 0.
Definition SendStatusSuccess : Z := 1.
Definition SendStatusFailure2 : Z := 2.
Definition SendStatusFailure3 : Z := 3.
Definition SendStatusFailure4 : Z := 4.

Definition IsTransient (s : Z) : bool :=
  bool_decide (s = SendStatusFailure2) || bool_decide (s = SendStatusFailure3).

Definition SendStatus_string (s : Z) : string :=
  if decide (s = SendStatusUnknown) then "UNKNOWN"
  else if decide (s = SendStatusSuccess) then "SUCCESS"
  else if decide (s = SendStatusFailure2) then "FAILURE_2"
  else if decide (s = SendStatusFailure3) then "FAILURE_3"
  else if decide (s = SendStatusFailure4) then "FAILURE_4"
  else "UNRECOGNISED(" +:+ pretty s +:+ ")".

Definition NotDefaultSMSApp : Error :=
  mkError (set_GoogleStatusRaw SendStatusFailure4
    (newError CodeNotDefaultSMSApp StatusBadGateway
      "Google Messages is not your default SMS app")) None.

Definition SendFailure (status : Z) : Error :=
  if decide (status = SendStatusFailure4) then NotDefaultSMSApp
  else mkError (set_Retryable (IsTransient status) (set_GoogleStatusRaw status
    (set_Details (<["google_type" := DInt status]>
        {["google_message" := DString (SendStatus_string status)]})
      (newError CodeGoogleError StatusBadGateway
        ("Google Messages on the phone rejected the message (" +:+
           SendStatus_string status +:+ ")"))))) None.

Definition ResolveStatusSuccess : Z := 1.
Definition ResolveStatusCreateRCS : Z := 3.

Definition UndocumentedResolveStatus (status : Z) : Error :=
  mkError (set_Details {["status" := DInt status]}
    (newError CodeGoogleUndocumentedState StatusBadGateway
      "Google answered with a conversation status this version of the protocol has no name for")) None.

Definition ResolveCreateRCSTwice : Error :=
  mkError (set_Details (<["google_type" := DInt ResolveStatusCreateRCS]>
      {["google_message" := DString "CREATE_RCS"]})
    (newError CodeGoogleError StatusBadGateway
      "Google asked twice for an RCS group to be created; the retry it asks for has already been made")) None.

Record ConfigVersion := mkConfigVersion { Year : Z; Month : Z; Day : Z; V1 : Z; V2 : Z }.

Definition ConfigVersion_string (c : ConfigVersion) : string :=
  pretty (Year c) +:+ "." +:+ pretty (Month c) +:+ "." +:+ pretty (Day c) +:+ "." +:+
  pretty (V1 c) +:+ "." +:+ pretty (V2 c).

Definition SameDate (c other : ConfigVersion) : bool :=
  (Year c =? Year other)%Z && (Month c =? Month other)%Z && (Day c =? Day other)%Z.

Definition WithConfigVersionContext (e : option Error) (compiled live : ConfigVersion)
    : option Error :=
  match e with
  | None => None
  | Some e =>
      Some (mkError
        (set_Message (Message (fields e) +:+ ". Google Messages for web " +:+
             ConfigVersion_string compiled +:+ " is compiled in and Google is serving " +:+
             ConfigVersion_string live +:+
             "; if this keeps happening, bumping the pinned mautrix-gmessages commit is worth trying, but the status above is what actually failed")
           (set_Details
             (<["config_version_live" := DString (ConfigVersion_string live)]>
               (<["config_version_compiled" := DString (ConfigVersion_string compiled)]>
                 (Details (fields e)))) (fields e)))
        (Err_ e))
  end.

(** [ClassifyResolve] (internal/core/send.go), over the type [C] of conversations. *)
Inductive ResolveError : Type :=
| ErrResolveNoConversation
| ResolveRefused (e : option Error).

Definition ClassifyResolve {C : Type} (conversation : option C) (status : Z)
    (compiled live : ConfigVersion) : Result ResolveError C :=
  if decide (status = ResolveStatusSuccess) then
    match conversation with
    | None => Err ErrResolveNoConversation
    | Some c => Ok c
    end
  else
    let e := if decide (status = ResolveStatusCreateRCS) then ResolveCreateRCSTwice
             else UndocumentedResolveStatus status in
    let e := if negb (SameDate compiled live)
             then WithConfigVersionContext (Some e) compiled live else Some e in
    Err (ResolveRefused e).

(** ** The public table (internal/apierr/codes.go) *)

Inductive Retryability : Type := RetryNo | RetryYes | RetryMaybe.

#[export] Instance Retryability_eq_dec : EqDecision Retryability.
Proof. solve_decision. Defined.

Definition table : gmap string (Z * Retryability) := list_to_map
  [(CodeInvalidRequest, (StatusBadRequest, RetryNo));
   (CodeInvalidToken, (StatusUnauthorized, RetryNo));
   (CodeInsufficientScope, (StatusForbidden, RetryNo));
   (CodeNotFound, (StatusNotFound, RetryNo));
   (CodeIdempotencyConflict, (StatusConflict, RetryNo));
   (CodeNotPaired, (StatusConflict, RetryNo));
   (CodePairingNoCookies, (StatusConflict, RetryNo));
   (CodePairingNoDevices, (StatusConflict, RetryNo));
   (CodePairingWrongEmoji, (StatusConflict, RetryNo));
   (CodePairingCancelled, (StatusConflict, RetryNo));
   (CodePairingTimeout, (StatusConflict, RetryNo));
   (CodePairingInitTimeout, (StatusConflict, RetryYes));
   (CodePairingWrongAccount, (StatusConflict, RetryNo));
   (CodePairingNoAccount, (StatusConflict, RetryNo));
   (CodeUnsupportedCapability, (StatusConflict, RetryNo));
   (CodePayloadTooLarge, (StatusRequestEntityTooLarge, RetryNo));
   (CodeMediaUnsupportedType, (StatusUnsupportedMediaType, RetryNo));
   (CodeRateLimited, (StatusTooManyRequests, RetryYes));
   (CodeInternalError, (StatusInternalServerError, RetryYes));
   (CodeNotDefaultSMSApp, (StatusBadGateway, RetryNo));
   (CodeGoogleUndocumentedState, (StatusBadGateway, RetryNo));
   (CodeGoogleError, (StatusBadGateway, RetryMaybe));
   (CodeGoogleHTTPError, (StatusBadGateway, RetryYes));
   (CodeGooglePermissionDenied, (StatusBadGateway, RetryNo));
   (CodeDisconnected, (StatusServiceUnavailable, RetryYes));
   (CodePhoneNotResponding, (StatusGatewayTimeout, RetryYes))].

Definition Known (c : string) : bool :=
  match table !! c with Some _ => true | None => false end.

Definition api_HTTPStatus (c : string) : Z :=
  match table !! c with Some s => s.1 | None => StatusInternalServerError end.

Definition RetryabilityOf (c : string) : Retryability :=
  match table !! c with Some s => s.2 | None => RetryNo end.

(** [Error.HTTPStatus] and [Error.Retryable] of apierr. *)
Definition ApiError_HTTPStatus (e : ApiFields) : Z :=
  if decide (HTTPStatusOverride e <> 0%Z) then HTTPStatusOverride e
  else api_HTTPStatus (api_Code e).

Definition ApiError_Retryable (e : ApiFields) : bool :=
  match RetryabilityOf (api_Code e) with
  | RetryYes => true
  | RetryNo => false
  | RetryMaybe => api_retryable e
  end.

Definition New (code message : string) : ApiFields := {|
  api_Code := code; api_Message := message; api_Details := ∅; api_RetryAfter := 0;
  HTTPStatusOverride := 0; api_retryable := false;
|}.

Definition withDetails (code message : string) (d : gmap string DetailValue) : ApiFields := {|
  api_Code := code; api_Message := message; api_Details := d; api_RetryAfter := 0;
  HTTPStatusOverride := 0; api_retryable := false;
|}.

(** The closed vocabulary of details.reason. *)
Definition Reasons : list string :=
  [ReasonNotSignedIn; "conversation_read_only"; "conversation_deleted"; "not_my_message";
   "not_my_reaction"; "reply_not_supported"; "rcs_not_available"; "media_pending"]%string.

Definition ReasonByName (name : string) : option string :=
  if decide (name ∈ Reasons) then Some name else None.

(** ** The funnel (internal/apierr/from.go) *)

Definition internal_message : string :=
  "an internal error; the request ID identifies it in the logs".

Definition fromGM (err : GoError) : option ApiError :=
  match as_Error err with
  | None => None
  | Some g =>
      let f := fields g in
      if negb (Known (Code f)) then
        Some (mkApiError (New CodeInternalError internal_message) (Some err))
      else
        let override := if decide (HTTPStatus f <> 0%Z /\ HTTPStatus f <> api_HTTPStatus (Code f))
                        then HTTPStatus f else 0%Z in
        match (if decide (Reason f = ""%string) then Some None
               else match ReasonByName (Reason f) with
                    | Some r => Some (Some r)
                    | None => None
                    end) with
        | None => Some (mkApiError (New CodeInternalError internal_message)
            (Some (EWrap ("gm produced the unsupported_capability reason " +:+ Reason f) err)))
        | Some reason =>
            Some (mkApiError {|
              api_Code := Code f; api_Message := Message f;
              api_Details := match reason with
                             | Some r => <["reason" := DReason r]> (Details f)
                             | None => Details f
                             end;
              api_RetryAfter := 0; HTTPStatusOverride := override;
              api_retryable := match RetryabilityOf (Code f) with
                               | RetryMaybe => Retryable f
                               | _ => false
                               end;
            |} (Err_ g))
        end
  end.

Definition api_from (err : GoError) : ApiError :=
  match as_ApiError err with
  | Some already => already
  | None =>
      match fromGM err with
      | Some translated => translated
      | None => mkApiError (New CodeInternalError internal_message) (Some err)
      end
  end.

Definition From (err : option GoError) : option ApiError := api_from <$> err.

(** The tables are evaluated by [vm_compute], never by [simpl]. *)
Arguments table : simpl never.
Arguments Known : simpl never.
Arguments api_HTTPStatus : simpl never.
Arguments RetryabilityOf : simpl never.
Arguments ReasonByName : simpl never.

(** ** Lemmas about the searches *)

(** [wraps e e']: [e'] is [e] under any number of single-[%w] wrappers. *)
Inductive wraps (e : GoError) : GoError -> Prop :=
| wraps_refl : wraps e e
| wraps_step m e' : wraps e e' -> wraps e (EWrap m e').

Lemma errors_Is_wraps s e e' : wraps e e' -> errors_Is s e' = errors_Is s e.
Proof. induction 1; done. Qed.

Lemma errors_As_wraps {A} (pick : GoError -> option A) e e' :
  (forall m x, pick (EWrap m x) = None) ->
  wraps e e' -> errors_As pick e' = errors_As pick e.
Proof. intros Hp. induction 1; [done|]. simpl. by rewrite Hp. Qed.

Lemma as_Error_wraps e e' : wraps e e' -> as_Error e' = as_Error e.
Proof. by apply errors_As_wraps. Qed.

Lemma as_RequestError_wraps e e' : wraps e e' -> as_RequestError e' = as_RequestError e.
Proof. by apply errors_As_wraps. Qed.

Lemma as_HTTPError_wraps e e' : wraps e e' -> as_HTTPError e' = as_HTTPError e.
Proof. by apply errors_As_wraps. Qed.

Lemma classify_fields_wraps e e' : wraps e e' -> classify_fields e' = classify_fields e.
Proof.
  intros Hw. unfold classify_fields.
  by rewrite !(fun s => errors_Is_wraps s _ _ Hw), (as_RequestError_wraps _ _ Hw),
    (as_HTTPError_wraps _ _ Hw).
Qed.

Lemma classify_unclassified e :
  as_Error e = None -> classify_error e = mkError (classify_fields e) (Some e).
Proof. unfold classify_error. by intros ->. Qed.

(** Split the [switch] of [classify_fields]. *)
Ltac classify_cases e :=
  unfold classify_fields;
  repeat match goal with
  | |- context [if errors_Is ?s e then _ else _] => destruct (errors_Is s e) eqn:?
  | |- context [as_RequestError e] => destruct (as_RequestError e) as [[??]|] eqn:?
  | |- context [as_HTTPError e] => destruct (as_HTTPError e) as [[??]|] eqn:?
  end; simpl.

(** The part of a row of the public table that a classified error must match. *)
Definition agrees_with_table (f : ErrorFields) : Prop :=
  Code f ∈ gm_codes /\ Known (Code f) = true /\ HTTPStatus f = api_HTTPStatus (Code f) /\
  (Reason f = ""%string \/ ReasonByName (Reason f) = Some (Reason f)) /\
  (RetryabilityOf (Code f) = RetryNo -> Retryable f = false) /\
  (RetryabilityOf (Code f) = RetryYes -> Code f <> CodeInternalError -> Retryable f = true).

#[local] Instance agrees_with_table_dec f : Decision (agrees_with_table f).
Proof. unfold agrees_with_table. apply _. Defined.

Lemma classify_fields_agree e : agrees_with_table (classify_fields e).
Proof.
  classify_cases e; unfold agrees_with_table; simpl; split_and!;
    try (by vm_compute); try (by left); try (by right; vm_compute);
    try (by apply (bool_decide_unpack _); vm_compute).
Qed.

Lemma as_Error_error_of g : as_Error (error_of g) = Some g.
Proof. by destruct g. Qed.

(** What [fromGM] builds from a gm error [g] the public table agrees with. *)
Definition from_gm_fields (g : Error) : ApiFields := {|
  api_Code := Code (fields g); api_Message := Message (fields g);
  api_Details := if decide (Reason (fields g) = ""%string) then Details (fields g)
                 else <["reason" := DReason (Reason (fields g))]> (Details (fields g));
  api_RetryAfter := 0; HTTPStatusOverride := 0;
  api_retryable := match RetryabilityOf (Code (fields g)) with
                   | RetryMaybe => Retryable (fields g) | _ => false end;
|}.

Lemma fromGM_agreeing g :
  agrees_with_table (fields g) ->
  fromGM (error_of g) = Some (mkApiError (from_gm_fields g) (Err_ g)).
Proof.
  intros (_ & Hk & Hs & Hr & _). unfold fromGM, from_gm_fields. rewrite as_Error_error_of.
  cbv zeta. rewrite Hk, <- Hs. rewrite (decide_False (P := _ /\ _)) by tauto.
  unfold negb. destruct (decide (Reason (fields g) = ""%string)) as [|Hne]; [done|].
  destruct Hr as [|Hr]; [done|]. by rewrite Hr.
Qed.

Lemma api_from_agreeing g :
  as_ApiError (error_of g) = None -> agrees_with_table (fields g) ->
  api_from (error_of g) = mkApiError (from_gm_fields g) (Err_ g).
Proof. intros Ha Hg. unfold api_from. by rewrite Ha, (fromGM_agreeing _ Hg). Qed.

Lemma from_gm_status g :
  agrees_with_table (fields g) ->
  ApiError_HTTPStatus (from_gm_fields g) = HTTPStatus (fields g).
Proof.
  intros (_ & _ & Hs & _). unfold ApiError_HTTPStatus, from_gm_fields.
  cbn [HTTPStatusOverride api_Code]. rewrite decide_False by tauto. done.
Qed.

(** ** Theorems *)

(** Classification looks through wrapping.  Whatever number of [%w] wrappers
    is put around an error, it is classified the same (up to the recorded cause),
    the fatal-listen rule answers the same, and classifying a classified error,
    wrapped or not, returns it unchanged. *)
Theorem classify_wrapping_invariant e e' :
  wraps e e' ->
  fields (classify_error e') = fields (classify_error e) /\
  IsFatalListenError (Some e') = IsFatalListenError (Some e) /\
  forall e2, wraps (error_of (classify_error e)) e2 -> classify_error e2 = classify_error e.
Proof.
  intros Hw. split_and!.
  - unfold classify_error. rewrite (as_Error_wraps _ _ Hw).
    destruct (as_Error e); [done|]. simpl. by apply classify_fields_wraps.
  - unfold IsFatalListenError.
    by rewrite (errors_Is_wraps _ _ _ Hw), (as_HTTPError_wraps _ _ Hw).
  - intros e2 Hw2. unfold classify_error at 1. rewrite (as_Error_wraps _ _ Hw2).
    simpl. by destruct (classify_error e).
Qed.

(** The two flags that drive behaviour.  For an error nobody classified yet,
    the operation stays pending exactly when the phone did not answer; the account
    is signed out exactly when the credentials or the pairing are dead (and the
    connection and phone sentinels do not take precedence), and then the code is
    [unsupported_capability]/[not_signed_in] with status 409; the cause is kept. *)
Theorem classify_flags e :
  as_Error e = None ->
  let f := fields (classify_error e) in
  KeepsOperationPending f = errors_Is ErrPhoneNotResponding e /\
  SignsOutAccount f =
    (negb (errors_Is ErrPhoneNotResponding e) && negb (errors_Is ErrConnectionClosed e) &&
     (errors_Is ErrInvalidCredentials e || errors_Is ErrRequestedEntityNotFound e)) /\
  (SignsOutAccount f = true <-> Reason f = ReasonNotSignedIn) /\
  (SignsOutAccount f = true ->
     Code f = CodeUnsupportedCapability /\ HTTPStatus f = StatusConflict /\
     KeepsOperationPending f = false) /\
  Err_ (classify_error e) = Some e.
Proof.
  intros Hn. rewrite (classify_unclassified _ Hn). simpl.
  classify_cases e; split_and!; done.
Qed.

(** The classifier agrees with the public table.  The code of every error it
    builds is one of gm's codes and is known to the public table, the status is
    the table's, the reason is in the closed vocabulary, and where the table is
    definite about retrying the flag agrees, except for [internal_error]: there
    the table says retryable and the classifier leaves the flag unset. *)
Theorem classify_agrees_with_table e :
  as_Error e = None ->
  agrees_with_table (fields (classify_error e)) /\
  (Code (fields (classify_error e)) = CodeInternalError ->
     Retryable (fields (classify_error e)) = false /\
     RetryabilityOf CodeInternalError = RetryYes).
Proof.
  intros Hn. rewrite (classify_unclassified _ Hn). simpl.
  split; [apply classify_fields_agree|].
  classify_cases e; try discriminate; done.
Qed.

(** The funnel keeps the vocabulary closed.  An error that is not yet a public
    one leaves [From] with a known code; and a gm error classified from a fresh
    cause keeps its own code, status, message and the table's retryability, so
    [phone_not_responding] reaches the caller as a 504 and never as a 500. *)
Theorem from_closed_vocabulary e :
  as_ApiError e = None ->
  Known (api_Code (api_fields (api_from e))) = true /\
  (as_Error e = None ->
   let g := classify_error e in
   let a := api_from (error_of g) in
   api_Code (api_fields a) = Code (fields g) /\
   ApiError_HTTPStatus (api_fields a) = HTTPStatus (fields g) /\
   api_Message (api_fields a) = Message (fields g) /\
   (errors_Is ErrPhoneNotResponding e = true ->
      api_Code (api_fields a) = CodePhoneNotResponding /\
      ApiError_HTTPStatus (api_fields a) = StatusGatewayTimeout)).
Proof.
  intros Ha. split.
  - unfold api_from. rewrite Ha. unfold fromGM.
    destruct (as_Error e) as [g|]; [|by vm_compute].
    destruct (Known (Code (fields g))) eqn:Hk; [|by vm_compute]. cbv zeta. unfold negb.
    destruct (decide (Reason (fields g) = ""%string)); [exact Hk|].
    destruct (ReasonByName _); [exact Hk|by vm_compute].
  - intros Hn. rewrite (classify_unclassified _ Hn). cbv zeta.
    rewrite (api_from_agreeing (mkError (classify_fields e) (Some e)) Ha
      (classify_fields_agree e)).
    cbn [api_fields]. rewrite (from_gm_status (mkError (classify_fields e) (Some e)) (classify_fields_agree e)).
    split_and!; [done..|]. intros Hp. unfold from_gm_fields, classify_fields.
    cbn [fields]. by rewrite Hp.
Qed.

(** Send failures.  Every refused send keeps Google's status for the operator;
    only FAILURE_2 and FAILURE_3 may be retried, and the public envelope says so;
    FAILURE_4 is [not_default_sms_app] with no details at all; every other status
    is [google_error] whose only raw integer is [google_type]. *)
Theorem send_failure_classified (status : Z) :
  let e := SendFailure status in
  let a := api_fields (api_from (error_of e)) in
  GoogleStatusRaw (fields e) = status /\
  KeepsOperationPending (fields e) = false /\ SignsOutAccount (fields e) = false /\
  ApiError_Retryable a = IsTransient status /\ ApiError_HTTPStatus a = StatusBadGateway /\
  (if decide (status = SendStatusFailure4)
   then api_Code a = CodeNotDefaultSMSApp /\ api_Details a = ∅
   else api_Code a = CodeGoogleError /\ api_Details a !! "google_type"%string = Some (DInt status) /\
        size (api_Details a) = 2%nat).
Proof.
  cbv zeta. assert (agrees_with_table (fields (SendFailure status))) as Hg.
  { unfold SendFailure. case_decide; unfold agrees_with_table; cbn;
      split_and!; try (by vm_compute); try (by left);
      by apply (bool_decide_unpack _); vm_compute. }
  assert (as_ApiError (error_of (SendFailure status)) = None) as Ha.
  { unfold SendFailure. by case_decide. }
  rewrite (api_from_agreeing _ Ha Hg). cbn [api_fields]. rewrite (from_gm_status _ Hg).
  unfold SendFailure. case_decide as Hs; [subst; by vm_compute|].
  split_and!; try done.
Qed.

(** Resolving a conversation succeeds exactly on status SUCCESS with a
    conversation; every other status is refused, its classified error keeps the
    original code and status, and a ConfigVersion mismatch only adds context. *)
Theorem classify_resolve_exact {C} (conversation : option C) status compiled live :
  (forall c, ClassifyResolve conversation status compiled live = Ok c <->
     status = ResolveStatusSuccess /\ conversation = Some c) /\
  (status <> ResolveStatusSuccess ->
   exists e, ClassifyResolve conversation status compiled live = Err (ResolveRefused (Some e)) /\
     let base := if decide (status = ResolveStatusCreateRCS)
                 then ResolveCreateRCSTwice else UndocumentedResolveStatus status in
     Code (fields e) = Code (fields base) /\ HTTPStatus (fields e) = StatusBadGateway /\
     Retryable (fields e) = false /\
     (forall k v, Details (fields base) !! k = Some v -> Details (fields e) !! k = Some v) /\
     (SameDate compiled live = true -> e = base)).
Proof.
  unfold ClassifyResolve. case_decide as Hs.
  { split; [|done]. intros c. destruct conversation; naive_solver. }
  split; [naive_solver|]. intros _.
  destruct (SameDate compiled live) eqn:Hd; simpl.
  - eexists. split; [done|]. case_decide; split_and!; done.
  - eexists. split; [reflexivity|]. cbv zeta. set (base := if decide _ then _ else _).
    assert (Details (fields base) !! "config_version_live"%string = None /\
            Details (fields base) !! "config_version_compiled"%string = None /\
            HTTPStatus (fields base) = StatusBadGateway /\ Retryable (fields base) = false) as (Hl & Hc & ? & ?).
    { unfold base. by case_decide; vm_compute. }
    cbn [fields]. split_and!; [done..| |done].
    intros k v Hk. cbn [Details set_Message set_Details].
    rewrite !lookup_insert_ne; [done|congruence..].
Qed.

(** ** Witnesses *)

(** A send the phone never answered, wrapped twice on its way up. *)
Definition demo_error : GoError :=
  EWrap "send" (EWrap "session" (ESentinel ErrPhoneNotResponding)).

Example classify_wrapping_invariant_witness :
  Code (fields (classify_error demo_error)) = CodePhoneNotResponding.
Proof.
  rewrite (proj1 (classify_wrapping_invariant (ESentinel ErrPhoneNotResponding) demo_error
    (wraps_step _ _ _ (wraps_step _ _ _ (wraps_refl _))))).
  reflexivity.
Defined.

Example classify_flags_witness :
  KeepsOperationPending (fields (classify_error demo_error)) = true.
Proof. exact (proj1 (classify_flags demo_error eq_refl)). Defined.

Example classify_agrees_with_table_witness :
  Known (Code (fields (classify_error demo_error))) = true.
Proof. exact (proj1 (proj2 (proj1 (classify_agrees_with_table demo_error eq_refl)))). Defined.

Example from_closed_vocabulary_witness :
  ApiError_HTTPStatus (api_fields (api_from (error_of (classify_error demo_error))))
    = StatusGatewayTimeout.
Proof.
  apply (proj2 (from_closed_vocabulary demo_error eq_refl) eq_refl). reflexivity.
Defined.

Example classify_resolve_exact_witness :
  exists e, ClassifyResolve (None : option unit) 7 (mkConfigVersion 2025 1 2 4 6)
    (mkConfigVersion 2025 1 3 4 6) = Err (ResolveRefused (Some e)) /\
    Code (fields e) = CodeGoogleUndocumentedState.
Proof.
  destruct (proj2 (classify_resolve_exact (None : option unit) 7
    (mkConfigVersion 2025 1 2 4 6) (mkConfigVersion 2025 1 3 4 6)) ltac:(discriminate))
    as (e & He & Hc & _).
  exists e. split; [exact He|exact Hc].
Defined.
