(* ===== verification/GoStrings.v ===== *)
(** * Go strings (package utf8 and the parts of package strings the code uses)

    A Go string is a byte string, a [string] here.  [range] over it, and so every
    [strings] function that takes a predicate on runes, decodes UTF-8: an ill-formed
    byte decodes to U+FFFD and is one byte wide.  The lemmas say that decoding sees
    every ASCII byte of a valid string, which is what the control-character and
    white-space tests rely on. *)

From S2P Require Import Prelude.

Definition byte_of (c : Ascii.ascii) : Z := Z.of_N (Ascii.N_of_ascii c).

Definition in_range (b lo hi : Z) : bool := ((lo <=? b) && (b <=? hi))%Z.

Definition RuneError : Z := 0xFFFD.

(** The bounds of the second byte for a leading byte of 3 or 4 byte forms. *)
Definition second_lo (b0 : Z) : Z :=
  if (b0 =? 0xE0)%Z then 0xA0 else if (b0 =? 0xF0)%Z then 0x90 else 0x80.
Definition second_hi (b0 : Z) : Z :=
  if (b0 =? 0xED)%Z then 0x9F else if (b0 =? 0xF4)%Z then 0x8F else 0xBF.

(** The runes a [range] loop yields, each with whether it was well formed. *)
Fixpoint decode (s : string) : list (Z * bool) :=
  match s with
  | EmptyString => []
  | String c0 s1 =>
      let b0 := byte_of c0 in
      if (b0 <? 0x80)%Z then (b0, true) :: decode s1
      else match s1 with
      | String c1 s2 =>
          let b1 := byte_of c1 in
          if in_range b0 0xC2 0xDF then
            if in_range b1 0x80 0xBF
            then (((b0 - 0xC0) * 64 + (b1 - 0x80))%Z, true) :: decode s2
            else (RuneError, false) :: decode s1
          else match s2 with
          | String c2 s3 =>
              let b2 := byte_of c2 in
              if in_range b0 0xE0 0xEF then
                if in_range b1 (second_lo b0) (second_hi b0) && in_range b2 0x80 0xBF
                then (((b0 - 0xE0) * 4096 + (b1 - 0x80) * 64 + (b2 - 0x80))%Z, true) :: decode s3
                else (RuneError, false) :: decode s1
              else match s3 with
              | String c3 s4 =>
                  let b3 := byte_of c3 in
                  if in_range b0 0xF0 0xF4 && in_range b1 (second_lo b0) (second_hi b0) &&
                     in_range b2 0x80 0xBF && in_range b3 0x80 0xBF
                  then (((b0 - 0xF0) * 262144 + (b1 - 0x80) * 4096 +
                         (b2 - 0x80) * 64 + (b3 - 0x80))%Z, true) :: decode s4
                  else (RuneError, false) :: decode s1
              | EmptyString => (RuneError, false) :: decode s1
              end
          | EmptyString => (RuneError, false) :: decode s1
          end
      | EmptyString => (RuneError, false) :: decode s1
      end
  end.

Definition runes (s : string) : list Z := (decode s).*1.

(** [utf8.ValidString] and [strings.ContainsFunc]. *)
Definition ValidString (s : string) : bool := forallb snd (decode s).
Definition ContainsFunc (f : Z -> bool) (s : string) : bool := existsb f (runes s).

(** [unicode.IsSpace]. *)
Definition IsSpace (r : Z) : bool :=
  in_range r 9 13 || (r =? 32)%Z || (r =? 0x85)%Z || (r =? 0xA0)%Z || (r =? 0x1680)%Z ||
  in_range r 0x2000 0x200A || in_range r 0x2028 0x2029 || (r =? 0x202F)%Z ||
  (r =? 0x205F)%Z || (r =? 0x3000)%Z.

(** The bytes of a string. *)
Fixpoint bytes (s : string) : list Z :=
  match s with EmptyString => [] | String c s' => byte_of c :: bytes s' end.

Lemma byte_of_range c : (0 <= byte_of c < 256)%Z.
Proof.
  unfold byte_of. pose proof (Ascii.N_ascii_bounded c). lia.
Qed.

(** A well-formed multi-byte rune is at least U+0080, and RuneError is too. *)
Lemma decode_two_ge b0 b1 :
  in_range b0 0xC2 0xDF = true -> in_range b1 0x80 0xBF = true ->
  (0x80 <= (b0 - 0xC0) * 64 + (b1 - 0x80))%Z.
Proof. unfold in_range. intros. bool_to_prop. lia. Qed.

Lemma decode_three_ge b0 b1 b2 :
  in_range b0 0xE0 0xEF = true -> in_range b1 (second_lo b0) (second_hi b0) = true ->
  in_range b2 0x80 0xBF = true ->
  (0x80 <= (b0 - 0xE0) * 4096 + (b1 - 0x80) * 64 + (b2 - 0x80))%Z.
Proof.
  unfold in_range, second_lo. intros. bool_to_prop.
  destruct (b0 =? 0xE0)%Z eqn:?; [bool_to_prop; lia|].
  destruct (b0 =? 0xF0)%Z eqn:?; bool_to_prop; lia.
Qed.

Lemma decode_four_ge b0 b1 b2 b3 :
  in_range b0 0xF0 0xF4 = true -> in_range b1 (second_lo b0) (second_hi b0) = true ->
  in_range b2 0x80 0xBF = true -> in_range b3 0x80 0xBF = true ->
  (0x80 <= (b0 - 0xF0) * 262144 + (b1 - 0x80) * 4096 + (b2 - 0x80) * 64 + (b3 - 0x80))%Z.
Proof.
  unfold in_range, second_lo. intros. bool_to_prop.
  destruct (b0 =? 0xE0)%Z eqn:?; [bool_to_prop; lia|].
  destruct (b0 =? 0xF0)%Z eqn:?; bool_to_prop; lia.
Qed.

(** Induction along the decoder, for a predicate on a string and its runes. *)
Lemma decode_ind (P : string -> list (Z * bool) -> Prop) :
  P EmptyString [] ->
  (forall c s l, (byte_of c < 0x80)%Z -> P s l -> P (String c s) ((byte_of c, true) :: l)) ->
  (forall c s l, (0x80 <= byte_of c)%Z -> P s l -> P (String c s) ((RuneError, false) :: l)) ->
  (forall c t s r l, (0x80 <= byte_of c)%Z -> Forall (fun b => (0x80 <= b)%Z) (bytes t) ->
     (0x80 <= r)%Z -> P s l -> P (String c (t +:+ s)) ((r, true) :: l)) ->
  forall s, P s (decode s).
Proof.
  intros H0 Hascii Herr Hmulti s.
  remember (String.length s) as n eqn:Hn.
  revert s Hn. induction n as [n IH] using lt_wf_ind. intros s ->.
  destruct s as [|c0 s1]; [exact H0|]. simpl.
  assert (forall t, (String.length t < S (String.length s1))%nat -> P t (decode t)) as IH'.
  { intros t Ht. by eapply IH. }
  destruct (byte_of c0 <? 0x80)%Z eqn:E0; bool_to_prop; [apply Hascii; auto|].
  destruct s1 as [|c1 s2]; [apply Herr; [done|match goal with |- P ?t _ => apply (IH' t); simpl; lia end]|].
  destruct (in_range (byte_of c0) 0xC2 0xDF) eqn:R2.
  { destruct (in_range (byte_of c1) 0x80 0xBF) eqn:C1; [|apply Herr; [done|match goal with |- P ?t _ => apply (IH' t); simpl; lia end]].
    apply (Hmulti c0 (String c1 EmptyString) s2); [done| |by apply decode_two_ge|].
    - unfold in_range in *. bool_to_prop. by repeat constructor.
    - apply (IH' _). simpl. lia. }
  destruct s2 as [|c2 s3]; [apply Herr; [done|match goal with |- P ?t _ => apply (IH' t); simpl; lia end]|].
  destruct (in_range (byte_of c0) 0xE0 0xEF) eqn:R3.
  { destruct (in_range (byte_of c1) _ _) eqn:C1; cbn [andb]; [|apply Herr; [done|match goal with |- P ?t _ => apply (IH' t); simpl; lia end]].
    destruct (in_range (byte_of c2) 0x80 0xBF) eqn:C2; [|apply Herr; [done|match goal with |- P ?t _ => apply (IH' t); simpl; lia end]].
    apply (Hmulti c0 (String c1 (String c2 EmptyString)) s3);
      [done| |by apply decode_three_ge|].
    - unfold in_range, second_lo in *. bool_to_prop.
      repeat constructor; repeat case_match; lia.
    - apply (IH' _). simpl. lia. }
  destruct s3 as [|c3 s4]; [apply Herr; [done|match goal with |- P ?t _ => apply (IH' t); simpl; lia end]|].
  destruct (in_range (byte_of c0) 0xF0 0xF4 && in_range (byte_of c1) _ _ &&
    in_range (byte_of c2) 0x80 0xBF && in_range (byte_of c3) 0x80 0xBF) eqn:R4;
    [|apply Herr; [done|match goal with |- P ?t _ => apply (IH' t); simpl; lia end]].
  rewrite !andb_true_iff in R4. destruct R4 as [[[R4 C1] C2] C3].
  apply (Hmulti c0 (String c1 (String c2 (String c3 EmptyString))) s4);
    [done| |by apply decode_four_ge|].
  - unfold in_range, second_lo in *. bool_to_prop. repeat constructor; repeat case_match; lia.
  - apply (IH' _). simpl. lia.
Qed.

Lemma bytes_app a b : bytes (a +:+ b) = bytes a ++ bytes b.
Proof. induction a as [|c a IH]; simpl; [done|]. by rewrite IH. Qed.

(** A rune predicate that only accepts ASCII sees exactly the bytes. *)
Lemma ContainsFunc_ascii f s :
  (forall r, f r = true -> (r < 0x80)%Z) ->
  ContainsFunc f s = existsb f (bytes s).
Proof.
  intros Hf. unfold ContainsFunc, runes.
  assert (forall r, (0x80 <= r)%Z -> f r = false) as Hge.
  { intros r Hr. apply not_true_is_false. intros ?%Hf. lia. }
  apply (decode_ind (fun s l => existsb f l.*1 = existsb f (bytes s))); csimpl.
  - done.
  - intros c t l _ IH. by rewrite IH.
  - intros c t l Hc IH. rewrite IH, (Hge RuneError), (Hge (byte_of c)); [done|done|].
    unfold RuneError. lia.
  - intros c t u r l Hc Ht Hr IH. rewrite IH, bytes_app, existsb_app, !Hge by done. simpl.
    assert (existsb f (bytes t) = false) as ->; [|done].
    apply not_true_is_false. intros (b & Hb & Hfb)%existsb_exists.
    rewrite Forall_forall in Ht. apply list_elem_of_In, Ht, Hge in Hb. congruence.
Qed.

(** An ASCII string is valid and decodes to its bytes. *)
Lemma decode_ascii s :
  Forall (fun b => (b < 0x80)%Z) (bytes s) -> decode s = (fun b => (b, true)) <$> bytes s.
Proof.
  induction s as [|c s IH]; simpl; [done|]. intros [Hc Hs]%Forall_cons.
  rewrite (proj2 (Z.ltb_lt _ _) Hc). by rewrite IH.
Qed.

(** ** Concatenation *)

Lemma string_length_app a b : String.length (a +:+ b) = (String.length a + String.length b)%nat.
Proof. induction a; simpl; [done|]. by f_equal. Qed.

Lemma append_empty (s : string) : s +:+ EmptyString = s.
Proof. induction s as [|c s IH]; [done|]. change (String c (s +:+ EmptyString) = String c s). by rewrite IH. Qed.

Lemma append_assoc (a b c : string) : (a +:+ b) +:+ c = a +:+ (b +:+ c).
Proof. induction a as [|x a IH]; [done|]. change (String x ((a +:+ b) +:+ c) = String x (a +:+ (b +:+ c))). by rewrite IH. Qed.

Lemma substring_whole (s : string) : String.substring 0 (String.length s) s = s.
Proof. induction s as [|c s IH]; simpl; [done|]. by rewrite IH. Qed.

(** ** White space *)

(** The number of bytes a decoded rune took: shortest form, or one ill-formed byte. *)
Definition rune_width (r : Z * bool) : nat :=
  if negb r.2 then 1
  else if (r.1 <? 0x80)%Z then 1 else if (r.1 <? 0x800)%Z then 2
  else if (r.1 <? 0x10000)%Z then 3 else 4.

(** The runes with the bytes they were decoded from. *)
Fixpoint cut (l : list (Z * bool)) (s : string) : list (Z * string) :=
  match l with
  | [] => []
  | r :: l' =>
      let w := rune_width r in
      (r.1, String.substring 0 w s) :: cut l' (String.substring w (String.length s - w) s)
  end.

Definition pieces (s : string) : list (Z * string) := cut (decode s) s.

Fixpoint drop_space (l : list (Z * string)) : list (Z * string) :=
  match l with
  | [] => []
  | p :: l' => if IsSpace p.1 then drop_space l' else l
  end.

Definition join (l : list (Z * string)) : string := String.concat "" l.*2.

(** [strings.TrimSpace]. *)
Definition TrimSpace (s : string) : string :=
  join (reverse (drop_space (reverse (drop_space (pieces s))))).

(** [strings.Fields]: [field] collects the current word. *)
Fixpoint fields_of (l : list (Z * string)) (field : string) : list string :=
  match l with
  | [] => if decide (field = ""%string) then [] else [field]
  | p :: l' =>
      if IsSpace p.1
      then if decide (field = ""%string) then fields_of l' "" else field :: fields_of l' ""
      else fields_of l' (field +:+ p.2)
  end.

Definition Fields (s : string) : list string := fields_of (pieces s) "".

(** ** crypto/sha256

    [sha256.Sum256] with [hex.EncodeToString] is a parameter.  The law is collision
    freedom, which holds of no function on all strings with a bounded image, but is what
    the code relies on for the strings it hashes. *)
Class SHA256 := { sha256_hex : string -> string }.
Class CollisionFree `{SHA256} := sha256_inj :: Inj (=) (=) sha256_hex.

(** A hash for concrete inputs. *)
#[export] Instance plain_sha256 : SHA256 := { sha256_hex s := s }.
#[export] Instance plain_collision_free : CollisionFree.
Proof. by intros s t. Qed.
