(* ===== verification/Scopes.v ===== *)
(** * Scopes (internal/authz/scopes.go)

    What a credential may do: a set of scope names, four of which are known, with one
    canonical rendering.  The theorems: a stored column reads back as the set that was
    written; parsing accepts exactly the known names; narrowing is set inclusion, so a
    session that may only narrow never gains a scope. *)

From S2P Require Import Prelude GoStrings.

(** ** The errors of the package (internal/authz/errors.go, oauth.go) *)

Inductive AuthzError : Type :=
| ErrInvalidScope (message : string)
| ErrTokenAbsent | ErrTokenUnknown | ErrTokenExpired | ErrTokenRevoked | ErrTokenReused
| ErrInvalidSecret | ErrInsufficientScope (scope : string)
| ErrInvalidGrant | ErrGrantReplayed
| RateLimited (surface : string) (retry_after_s : Z)
| ErrAuthorizationNotFound | ErrTokenNotFound | ErrAuthorizationCodeNotFound | ErrAuthzConstraint
| ErrSettings (message : string).

(** ** Scope *)

Definition ScopeMessagesRead : string := "messages:read".
Definition ScopeMessagesWrite : string := "messages:write".
Definition ScopeMessagesDelete : string := "messages:delete".
Definition ScopeAdmin : string := "admin".

Definition canonicalOrder : list string :=
  [ScopeAdmin; ScopeMessagesRead; ScopeMessagesWrite; ScopeMessagesDelete].

Definition Enrollable (s : string) : bool := negb (bool_decide (s = ScopeAdmin)).

Definition KnownScope (s : string) : bool := existsb (fun c => bool_decide (c = s)) canonicalOrder.

(** ** ScopeSet: the keys of the map *)

Definition ScopeSet : Type := gset string.

Definition NewScopeSet (scopes : list string) : ScopeSet := list_to_set scopes.

Definition AdminBootstrapScopes : ScopeSet := NewScopeSet canonicalOrder.

(** [%q] of the unknown name is left out of the message. *)
Fixpoint ParseScopes_from (s : ScopeSet) (raw : list string) : Result AuthzError ScopeSet :=
  match raw with
  | [] => Ok s
  | r :: raw' =>
      let r := TrimSpace r in
      if decide (r = ""%string) then ParseScopes_from s raw'
      else if negb (KnownScope r) then Err (ErrInvalidScope ("unknown scope " +:+ r))
      else ParseScopes_from ({[r]} ∪ s) raw'
  end.

Definition ParseScopes (raw : list string) : Result AuthzError ScopeSet := ParseScopes_from ∅ raw.

Definition ParseScopeString (s : string) : Result AuthzError ScopeSet := ParseScopes (Fields s).

Definition Empty (s : ScopeSet) : bool := bool_decide (size s = 0%nat).
Definition Has (s : ScopeSet) (sc : string) : bool := bool_decide (sc ∈ s).

(** Canonical order, then any other name alphabetically. *)
Definition List (s : ScopeSet) : list string :=
  List.filter (Has s) canonicalOrder ++
  merge_sort String.le (List.filter (fun sc => negb (KnownScope sc)) (elements s)).

Definition ScopeSet_string (s : ScopeSet) : string := String.concat " " (List s).

Definition Subset (s other : ScopeSet) : bool := forallb (Has other) (elements s).
Definition Equal (s other : ScopeSet) : bool :=
  bool_decide (size s = size other) && Subset s other.
Definition Widens (s other : ScopeSet) : bool := negb (Subset s other).

(** ** Lemmas *)

Lemma KnownScope_elem s : KnownScope s = true <-> s ∈ canonicalOrder.
Proof.
  unfold KnownScope. rewrite existsb_exists. split.
  - intros (c & Hc & ->%bool_decide_eq_true). by apply list_elem_of_In.
  - intros Hs. exists s. by rewrite <- list_elem_of_In, bool_decide_eq_true.
Qed.

Lemma Subset_spec s t : Subset s t = true <-> s ⊆ t.
Proof.
  unfold Subset, Has. rewrite forallb_forall. split.
  - intros Hall x Hx. apply (bool_decide_eq_true _), Hall, list_elem_of_In. by apply elem_of_elements.
  - intros Hst x Hx%list_elem_of_In. apply bool_decide_eq_true, Hst. by apply elem_of_elements.
Qed.

Lemma Widens_false s t : Widens s t = false <-> s ⊆ t.
Proof. unfold Widens. rewrite negb_false_iff. apply Subset_spec. Qed.

Lemma Empty_spec s : Empty s = true <-> s = ∅.
Proof.
  unfold Empty. rewrite bool_decide_eq_true. split.
  - intros Hs. apply leibniz_equiv. by apply size_empty_inv.
  - intros ->. apply size_empty.
Qed.

(** The loop of [ParseScopes]: the trimmed names that are not empty, all known. *)
Definition names (raw : list string) : list string :=
  filter (fun r => r <> ""%string) (TrimSpace <$> raw).

Lemma ParseScopes_from_spec raw s :
  match ParseScopes_from s raw with
  | Ok t => t = s ∪ list_to_set (names raw) /\ Forall (fun r => KnownScope r = true) (names raw)
  | Err e => exists r, r ∈ names raw /\ KnownScope r = false /\
      e = ErrInvalidScope ("unknown scope " +:+ r)
  end.
Proof.
  revert s. induction raw as [|r raw IH]; intros s; simpl.
  { split; [set_solver|constructor]. }
  unfold names. csimpl. rewrite filter_cons. destruct (decide (TrimSpace r = ""%string)) as [E|E].
  { rewrite decide_False by (intros H; by apply H). apply IH. }
  rewrite decide_True by done. destruct (KnownScope (TrimSpace r)) eqn:Hk; simpl.
  - specialize (IH ({[TrimSpace r]} ∪ s)). destruct (ParseScopes_from _ raw) as [t|e].
    + destruct IH as [-> Hf]. split; [|by constructor]. unfold names. set_solver.
    + destruct IH as (x & Hx & ? & ?). exists x. split_and!; try done. apply elem_of_cons. auto.
  - exists (TrimSpace r). split_and!; try done. apply elem_of_cons. auto.
Qed.

(** ** Properties *)

(** Parsing requested scopes.  The request is accepted exactly when every name in
    it, trimmed and not empty, is one of the four, and the set is those names; the
    refusal names one that is not. *)
Theorem parse_scopes_exact raw :
  match ParseScopes raw with
  | Ok t => (forall sc, sc ∈ t <-> sc ∈ names raw) /\ t ⊆ list_to_set canonicalOrder
  | Err e => exists r, r ∈ names raw /\ r ∉ canonicalOrder /\
      e = ErrInvalidScope ("unknown scope " +:+ r)
  end.
Proof.
  pose proof (ParseScopes_from_spec raw ∅) as Hp. unfold ParseScopes.
  destruct (ParseScopes_from ∅ raw) as [t|e].
  - destruct Hp as [-> Hf]. split; [set_solver|]. intros sc Hsc.
    rewrite Forall_forall in Hf. apply elem_of_list_to_set, KnownScope_elem, Hf. set_solver.
  - destruct Hp as (r & Hr & Hk & ->). exists r. split_and!; try done.
    rewrite <- KnownScope_elem. congruence.
Qed.

(** The sixteen sets of known scopes. *)
Definition of_bools (b0 b1 b2 b3 : bool) : list string :=
  (if b0 then [ScopeAdmin] else []) ++ (if b1 then [ScopeMessagesRead] else []) ++
  (if b2 then [ScopeMessagesWrite] else []) ++ (if b3 then [ScopeMessagesDelete] else []).

Lemma known_set (s : ScopeSet) :
  s ⊆ list_to_set canonicalOrder ->
  List s = of_bools (Has s ScopeAdmin) (Has s ScopeMessagesRead) (Has s ScopeMessagesWrite)
             (Has s ScopeMessagesDelete) /\
  s = list_to_set (List s).
Proof.
  intros Hs.
  assert (List.filter (fun sc => negb (KnownScope sc)) (elements s) = []) as Hrest.
  { destruct (List.filter _ _) as [|x l] eqn:E; [done|]. exfalso.
    assert (x ∈ List.filter (fun sc => negb (KnownScope sc)) (elements s)) as Hx
      by (rewrite E; apply elem_of_cons; auto).
    apply list_elem_of_In, filter_In in Hx as [Hx%list_elem_of_In Hk].
    apply elem_of_elements, Hs, elem_of_list_to_set, KnownScope_elem in Hx. by rewrite Hx in Hk. }
  assert (List s = List.filter (Has s) canonicalOrder) as HL.
  { unfold List. rewrite Hrest. change (merge_sort String.le []) with (@nil string).
    by rewrite app_nil_r. }
  split.
  - rewrite HL. unfold canonicalOrder, of_bools. simpl.
    by destruct (Has s ScopeAdmin), (Has s ScopeMessagesRead), (Has s ScopeMessagesWrite),
      (Has s ScopeMessagesDelete).
  - apply set_eq. intros x. rewrite elem_of_list_to_set, HL, list_elem_of_In, filter_In,
      <- list_elem_of_In. unfold Has. rewrite bool_decide_eq_true. split; [|tauto].
    intros Hx. split; [|done]. apply Hs in Hx. by apply elem_of_list_to_set in Hx.
Qed.

Lemma parse_rendered b0 b1 b2 b3 :
  names (Fields (String.concat " " (of_bools b0 b1 b2 b3))) = of_bools b0 b1 b2 b3 /\
  forallb KnownScope (of_bools b0 b1 b2 b3) = true.
Proof. destruct b0, b1, b2, b3; vm_compute; done. Qed.

Lemma parse_string u :
  u ⊆ list_to_set canonicalOrder -> ParseScopeString (ScopeSet_string u) = Ok u.
Proof.
  intros Hu. destruct (known_set u Hu) as [HL Heq]. unfold ParseScopeString, ScopeSet_string.
  rewrite HL in *. destruct (parse_rendered (Has u ScopeAdmin) (Has u ScopeMessagesRead)
    (Has u ScopeMessagesWrite) (Has u ScopeMessagesDelete)) as [Hn Hk].
  pose proof (ParseScopes_from_spec (Fields (String.concat " " (of_bools (Has u ScopeAdmin)
    (Has u ScopeMessagesRead) (Has u ScopeMessagesWrite) (Has u ScopeMessagesDelete)))) ∅) as Hp.
  unfold ParseScopes. destruct (ParseScopes_from ∅ _) as [t|e].
  - destruct Hp as [-> _]. rewrite Hn, <- Heq. f_equal. set_solver.
  - destruct Hp as (r & Hr & Hr' & _). rewrite Hn in Hr. rewrite forallb_forall in Hk.
    apply list_elem_of_In, Hk in Hr. congruence.
Qed.

Lemma parse_known raw t : ParseScopes raw = Ok t -> t ⊆ list_to_set canonicalOrder.
Proof.
  intros Ht sc Hsc. pose proof (ParseScopes_from_spec raw ∅) as Hp. unfold ParseScopes in Ht.
  rewrite Ht in Hp. destruct Hp as [-> Hf]. rewrite Forall_forall in Hf.
  apply elem_of_list_to_set, KnownScope_elem, Hf. set_solver.
Qed.

(** A stored scope column reads back.  Rendering a set of known scopes and parsing
    the column gives the same set, and equal sets have one rendering. *)
Theorem scopes_roundtrip s :
  s ⊆ list_to_set canonicalOrder ->
  ParseScopeString (ScopeSet_string s) = Ok s /\
  (forall t, t ⊆ list_to_set canonicalOrder -> Equal s t = true <-> ScopeSet_string s = ScopeSet_string t).
Proof.
  intros Hs. split; [by apply parse_string|]. intros t Ht. split.
  - intros [Hsz%bool_decide_eq_true Hsub%Subset_spec]%andb_true_iff. f_equal.
    apply leibniz_equiv, set_subseteq_size_equiv; [exact Hsub|]. by rewrite Hsz.
  - intros E. pose proof (parse_string s Hs) as H1. pose proof (parse_string t Ht) as H2. rewrite E in H1.
    rewrite H1 in H2. injection H2 as <-. unfold Equal.
    rewrite andb_true_iff, bool_decide_eq_true, Subset_spec. by split.
Qed.

(** ** Witness *)

Example scopes_roundtrip_witness :
  ParseScopeString (ScopeSet_string AdminBootstrapScopes) = Ok AdminBootstrapScopes.
Proof.
  refine (proj1 (scopes_roundtrip AdminBootstrapScopes _)).
  apply (bool_decide_unpack _). vm_compute. exact I.
Defined.
