(* ===== verification/Limits.v ===== *)
(** * Limiters (internal/authz/limits.go, the attempts of internal/store/authz.go)

    The durable credential-failure limiter, a row per kind and source, and the
    in-memory concurrency limiter.  Instants and durations are [Z] nanoseconds, a
    [time.Duration] wraps at 64 bits; instants in rows are milliseconds.  The token
    buckets compute with float64 and are not modelled.  The theorems: the cooldown is
    the doubled base with a cap and never overflows, a row after n failures in a window,
    a running cooldown is never shortened, the concurrency bounds hold in every
    reachable state. *)

From S2P Require Import Prelude Scopes.

Definition Millisecond : Z := 1000000.
Definition Second : Z := 1000000000.
Definition Minute : Z := 60 * Second.
Definition Hour : Z := 60 * Minute.

Definition wrap64 (z : Z) : Z := ((z + 2 ^ 63) mod 2 ^ 64 - 2 ^ 63)%Z.

(** [time.Time.UnixMilli] and the saturating [time.Time.Sub]. *)
Definition UnixMilli (t : Z) : Z := (t / Millisecond)%Z.
Definition Sub (t u : Z) : Z := Z.max (- 2 ^ 63) (Z.min (t - u) (2 ^ 63 - 1)).

(** The wait is rounded up to whole seconds, at least one. *)
Definition rateLimited (surface : string) (wait : Z) : AuthzError :=
  let wait := Z.max wait 0 in
  let secs := ((wait + Second - 1) / Second)%Z in
  RateLimited surface (if (secs =? 0)%Z then 1 else secs).

(** ** The durable limiter *)

Record DurableLimitSpec := mkDurableLimitSpec {
  lim_Kind : string;
  lim_Surface : string;
  lim_PerSource : Z;
  lim_Global : Z;
  lim_Window : Z;
  lim_BaseCooldown : Z;
  lim_MaxCooldown : Z;
}.

Definition AttemptKindAdminSecret : string := "admin_secret".
Definition AttemptKindRefresh : string := "refresh_token".
Definition AttemptGlobalSource : string := "*global*".

Definition LimitAdminSecret : DurableLimitSpec :=
  mkDurableLimitSpec AttemptKindAdminSecret "admin_secret" 5 20 (15 * Minute) Minute (24 * Hour).
Definition LimitRefreshToken : DurableLimitSpec :=
  mkDurableLimitSpec AttemptKindRefresh "refresh_token" 30 0 (15 * Minute) Minute (24 * Hour).

(** One row of [oauth_attempts]; a cooldown of 0 is NULL. *)
Record Attempt := mkAttempt {
  att_WindowStartMS : Z;
  att_Failures : Z;
  att_CooldownSteps : Z;
  att_CooldownUntilMS : Z;
  att_UpdatedAtMS : Z;
}.

Definition no_attempt : Attempt := mkAttempt 0 0 0 0 0.

Definition attempts_table : Type := gmap (string * string) Attempt.

Fixpoint cooldown_loop (n : nat) (max d : Z) : Z :=
  match n with
  | 0%nat => d
  | S n' => if (max <=? d)%Z then d else cooldown_loop n' max (wrap64 (d * 2))
  end.

Definition cooldownFor (spec : DurableLimitSpec) (steps : Z) : Z :=
  let steps := if (steps <? 1)%Z then 1%Z else steps in
  let d := cooldown_loop (Z.to_nat (steps - 1)) (lim_MaxCooldown spec) (lim_BaseCooldown spec) in
  if (lim_MaxCooldown spec <? d)%Z || (d <=? 0)%Z then lim_MaxCooldown spec else d.

Definition coolingDown (a : Attempt) (nowMS : Z) : bool :=
  negb (att_CooldownUntilMS a =? 0)%Z && (nowMS <? att_CooldownUntilMS a)%Z.

(** A failure more than a window after the window opened starts a new one. *)
Definition open_window (a : Attempt) (now : Z) (spec : DurableLimitSpec) : Attempt :=
  if (att_WindowStartMS a =? 0)%Z ||
     (lim_Window spec <=? Sub now (att_WindowStartMS a * Millisecond))%Z
  then mkAttempt (UnixMilli now) 0
         (if coolingDown a (UnixMilli now) then att_CooldownSteps a else 0)
         (att_CooldownUntilMS a) (att_UpdatedAtMS a)
  else a.

Definition advanceAttempt (a : Attempt) (now : Z) (spec : DurableLimitSpec) (limit : Z) : Attempt :=
  let a := open_window a now spec in
  let failures := (att_Failures a + 1)%Z in
  if (0 <? limit)%Z && (limit <=? failures)%Z
  then let steps := (att_CooldownSteps a + 1)%Z in
       mkAttempt (att_WindowStartMS a) failures steps
         (UnixMilli now + cooldownFor spec steps / Millisecond)%Z (att_UpdatedAtMS a)
  else mkAttempt (att_WindowStartMS a) failures (att_CooldownSteps a) (att_CooldownUntilMS a)
         (att_UpdatedAtMS a).

Definition UpdateAttempt (clock : Z) (kind source : string) (fn : Attempt -> Attempt)
    (t : attempts_table) : attempts_table * Attempt :=
  let out := fn (default no_attempt (t !! (kind, source))) in
  let out := mkAttempt (att_WindowStartMS out) (att_Failures out) (att_CooldownSteps out)
               (att_CooldownUntilMS out) (UnixMilli clock) in
  (<[(kind, source) := out]> t, out).

Definition limiter_keys (spec : DurableLimitSpec) (source : string) : list string :=
  source :: (if (0 <? lim_Global spec)%Z then [AttemptGlobalSource] else []).

Fixpoint check_keys (now : Z) (spec : DurableLimitSpec) (keys : list string) (t : attempts_table)
    : option AuthzError :=
  match keys with
  | [] => None
  | k :: keys' =>
      match t !! (lim_Kind spec, k) with
      | None => check_keys now spec keys' t
      | Some a =>
          if (att_CooldownUntilMS a =? 0)%Z then check_keys now spec keys' t
          else
            let until := (att_CooldownUntilMS a * Millisecond)%Z in
            if (now <? until)%Z then Some (rateLimited (lim_Surface spec) (Sub until now))
            else check_keys now spec keys' t
      end
  end.

(** [DurableLimiter.Check]: read-only. *)
Definition Check (now : Z) (spec : DurableLimitSpec) (source : string) (t : attempts_table)
    : option AuthzError :=
  check_keys now spec (limiter_keys spec source) t.

Definition RecordFailure (now clock : Z) (spec : DurableLimitSpec) (source : string)
    (t : attempts_table) : attempts_table * Attempt :=
  let '(t1, out) := UpdateAttempt clock (lim_Kind spec) source
                      (fun a => advanceAttempt a now spec (lim_PerSource spec)) t in
  if (0 <? lim_Global spec)%Z
  then ((UpdateAttempt clock (lim_Kind spec) AttemptGlobalSource
           (fun a => advanceAttempt a now spec (lim_Global spec)) t1).1, out)
  else (t1, out).

(** ** The concurrency limiter *)

Record ConcurrencySpec := mkConcurrencySpec {
  con_Name : string;
  con_PerAuthorization : Z;
  con_Global : Z;
}.

Definition ConcurrencyUploads : ConcurrencySpec := mkConcurrencySpec "uploads" 4 16.
Definition ConcurrencyDownloads : ConcurrencySpec := mkConcurrencySpec "downloads" 8 32.

(** The counters, and the release functions handed out whose [sync.Once] has not fired,
    each with its key. *)
Record ConcurrencyLimiter := mkConcurrencyLimiter {
  cl_perKey : gmap string Z;
  cl_total : Z;
  cl_held : gmap nat string;
}.

Definition NewConcurrencyLimiter : ConcurrencyLimiter := mkConcurrencyLimiter ∅ 0 ∅.

Definition InFlight (key : string) (c : ConcurrencyLimiter) : Z * Z :=
  (default 0%Z (cl_perKey c !! key), cl_total c).

(** The new release function is [h]. *)
Definition Acquire (spec : ConcurrencySpec) (key : string) (h : nat) (c : ConcurrencyLimiter)
    : Result AuthzError ConcurrencyLimiter :=
  let n := default 0%Z (cl_perKey c !! key) in
  if (con_Global spec <=? cl_total c)%Z || (con_PerAuthorization spec <=? n)%Z
  then Err (rateLimited (con_Name spec) Second)
  else Ok (mkConcurrencyLimiter (<[key := (n + 1)%Z]> (cl_perKey c)) (cl_total c + 1)
             (<[h := key]> (cl_held c))).

Definition release_key (key : string) (t : gmap string Z) : gmap string Z :=
  let n := default 0%Z (t !! key) in
  if (0 <? n)%Z then if (n - 1 =? 0)%Z then delete key t else <[key := (n - 1)%Z]> t else t.

(** A release function called: the first time it gives the slot back. *)
Definition Release (h : nat) (c : ConcurrencyLimiter) : ConcurrencyLimiter :=
  match cl_held c !! h with
  | None => c
  | Some key =>
      mkConcurrencyLimiter (release_key key (cl_perKey c))
        (if (0 <? cl_total c)%Z then (cl_total c - 1)%Z else cl_total c) (delete h (cl_held c))
  end.

Inductive ConStep (spec : ConcurrencySpec) (c : ConcurrencyLimiter) : ConcurrencyLimiter -> Prop :=
| con_acquire key h c' :
    cl_held c !! h = None -> Acquire spec key h c = Ok c' -> ConStep spec c c'
| con_release h : ConStep spec c (Release h c).

(** ** Lemmas *)

(** A limiter with sensible durations: positive, and the cap far below the word. *)
Definition spec_ok (spec : DurableLimitSpec) : Prop :=
  (0 < lim_BaseCooldown spec)%Z /\ (lim_BaseCooldown spec <= lim_MaxCooldown spec)%Z /\
  (lim_MaxCooldown spec < 2 ^ 62)%Z /\ (0 < lim_Window spec < 2 ^ 63)%Z.

Lemma wrap64_id z : (- 2 ^ 63 <= z < 2 ^ 63)%Z -> wrap64 z = z.
Proof. intros Hz. unfold wrap64. rewrite Z.mod_small; lia. Qed.

Lemma cooldown_loop_spec n max d :
  (0 < d)%Z -> (max < 2 ^ 62)%Z -> (d < 2 ^ 63)%Z ->
  Z.min (cooldown_loop n max d) max = Z.min (d * 2 ^ Z.of_nat n) max /\
  (0 < cooldown_loop n max d)%Z.
Proof.
  revert d. induction n as [|n IH]; intros d Hd Hmax Hd2; simpl.
  - rewrite Z.pow_0_r, Z.mul_1_r. done.
  - assert (0 < 2 ^ Z.of_nat n)%Z as Hp by (apply Z.pow_pos_nonneg; lia).
    rewrite Nat2Z.inj_succ, Z.pow_succ_r by lia.
    destruct (max <=? d)%Z eqn:E; bool_to_prop.
    + split; [nia|done].
    + rewrite wrap64_id by lia. destruct (IH (d * 2)%Z) as [IH1 IH2]; [lia..|].
      split; [|done]. rewrite IH1. f_equal. lia.
Qed.

Lemma cooldownFor_exact spec steps :
  spec_ok spec -> (1 <= steps)%Z ->
  cooldownFor spec steps = Z.min (lim_BaseCooldown spec * 2 ^ (steps - 1)) (lim_MaxCooldown spec).
Proof.
  intros (Hb & Hbm & Hm & _) Hs. unfold cooldownFor.
  rewrite (proj2 (Z.ltb_ge steps 1)) by lia.
  destruct (cooldown_loop_spec (Z.to_nat (steps - 1)) (lim_MaxCooldown spec) (lim_BaseCooldown spec))
    as [H1 H2]; [lia..|]. rewrite Z2Nat.id in H1 by lia. rewrite <- H1.
  destruct (lim_MaxCooldown spec <? _)%Z eqn:E; simpl; bool_to_prop; [lia|].
  rewrite (proj2 (Z.leb_gt _ 0)) by lia. lia.
Qed.

Lemma cooldownFor_mono spec s1 s2 :
  spec_ok spec -> (1 <= s1 <= s2)%Z ->
  (0 < cooldownFor spec s1 <= cooldownFor spec s2)%Z /\ (cooldownFor spec s2 <= lim_MaxCooldown spec)%Z.
Proof.
  intros Hok Hs. rewrite !cooldownFor_exact by (done || lia). destruct Hok as (Hb & Hbm & _).
  assert (2 ^ (s1 - 1) <= 2 ^ (s2 - 1))%Z by (apply Z.pow_le_mono_r; lia).
  assert (0 < 2 ^ (s1 - 1))%Z by (apply Z.pow_pos_nonneg; lia).
  assert (0 < lim_BaseCooldown spec * 2 ^ (s1 - 1))%Z by (apply Z.mul_pos_pos; lia).
  assert (lim_BaseCooldown spec * 2 ^ (s1 - 1) <= lim_BaseCooldown spec * 2 ^ (s2 - 1))%Z
    by (apply Z.mul_le_mono_nonneg_l; lia). lia.
Qed.

Lemma Sub_lt t u w : (0 < w < 2 ^ 63)%Z -> (w <=? Sub t u)%Z = (w <=? t - u)%Z.
Proof.
  intros Hw. unfold Sub. destruct (w <=? t - u)%Z eqn:E; bool_to_prop; [apply Z.leb_le|apply Z.leb_gt]; lia.
Qed.

Lemma UnixMilli_mono t u : (t <= u)%Z -> (UnixMilli t <= UnixMilli u)%Z.
Proof. intros. apply Z.div_le_mono; [done|lia]. Qed.

(** A row during its life: the last failures, in order of time. *)
Inductive attempt_at (spec : DurableLimitSpec) (limit : Z) : Z -> Attempt -> Prop :=
| at_first t : (0 <= t)%Z -> attempt_at spec limit t no_attempt
| at_failure t a now :
    attempt_at spec limit t a -> (t <= now)%Z ->
    attempt_at spec limit now (advanceAttempt a now spec limit).

(** A cooldown is over, or runs from an instant that has passed, for its step. *)
Definition attempt_ok (spec : DurableLimitSpec) (t : Z) (a : Attempt) : Prop :=
  (0 <= t)%Z /\ (0 <= att_CooldownSteps a)%Z /\
  ((att_CooldownUntilMS a <= UnixMilli t)%Z \/
   exists t0, (t0 <= UnixMilli t)%Z /\ (1 <= att_CooldownSteps a)%Z /\
     att_CooldownUntilMS a = (t0 + cooldownFor spec (att_CooldownSteps a) / Millisecond)%Z).

Lemma open_window_ok spec t a now :
  (t <= now)%Z -> attempt_ok spec t a ->
  attempt_ok spec now (open_window a now spec) /\
  att_CooldownUntilMS (open_window a now spec) = att_CooldownUntilMS a /\
  (coolingDown a (UnixMilli now) = true ->
     att_CooldownSteps (open_window a now spec) = att_CooldownSteps a).
Proof.
  intros Ht (H0 & Hs & Hu). pose proof (UnixMilli_mono _ _ Ht) as Hm.
  assert (0 <= UnixMilli now)%Z as Hpos by (apply Z.div_pos; [lia|done]).
  unfold open_window. destruct (_ || _); simpl.
  2: { split; [|done]. split_and!; [lia|done|]. destruct Hu as [?|(t0 & ? & ? & ?)]; [left; lia|].
       right. exists t0. split_and!; try done. lia. }
  unfold attempt_ok. simpl. destruct (coolingDown a (UnixMilli now)) eqn:Ec.
  - split; [|done]. split_and!; [lia|done|]. destruct Hu as [?|(t0 & ? & ? & ?)]; [left; lia|].
    right. exists t0. split_and!; try done. lia.
  - split; [|done]. split_and!; [lia|done|]. left. unfold coolingDown in Ec. bool_to_prop.
    destruct Ec; bool_to_prop; lia.
Qed.

Lemma advance_ok spec limit t a now :
  spec_ok spec -> (t <= now)%Z -> attempt_ok spec t a ->
  attempt_ok spec now (advanceAttempt a now spec limit).
Proof.
  intros Hok Ht Ha. destruct (open_window_ok spec t a now Ht Ha) as [(H0 & Hs & Hu) _].
  unfold advanceAttempt. destruct (_ && _)%bool; simpl; [|done].
  split_and!; simpl; [lia|lia|]. right. exists (UnixMilli now). split_and!; [lia|lia|done].
Qed.

Lemma attempt_at_ok spec limit t a : spec_ok spec -> attempt_at spec limit t a -> attempt_ok spec t a.
Proof.
  intros Hok. induction 1 as [t Ht|t a now _ IH Hn]; [|by eapply advance_ok].
  split_and!; [done|done|]. left. apply Z.div_pos; [lia|done].
Qed.

(** ** Properties *)

(** A running cooldown is never shortened.  In every life of a row, a further failure
    that arrives while the cooldown runs, whatever its window, does not end it earlier
    and does not reset the escalation; and no cooldown is ever longer than the cap. *)
Theorem cooldown_never_shortened spec limit t a now :
  spec_ok spec -> attempt_at spec limit t a -> (t <= now)%Z ->
  let a' := advanceAttempt a now spec limit in
  (coolingDown a (UnixMilli now) = true ->
     (att_CooldownUntilMS a <= att_CooldownUntilMS a')%Z /\
     (att_CooldownSteps a <= att_CooldownSteps a')%Z) /\
  (att_CooldownUntilMS a' <= Z.max (att_CooldownUntilMS a)
     (UnixMilli now + lim_MaxCooldown spec / Millisecond))%Z.
Proof.
  intros Hok Hat Ht. cbv zeta.
  pose proof (attempt_at_ok _ _ _ _ Hok Hat) as Ha.
  destruct (open_window_ok spec t a now Ht Ha) as ((_ & Hs & _) & Hu & Hst).
  destruct Ha as (_ & _ & Hor). pose proof (UnixMilli_mono _ _ Ht) as Hm.
  unfold advanceAttempt. set (b := open_window a now spec) in *.
  destruct ((0 <? limit)%Z && _)%bool; simpl; [|rewrite Hu; split; [intros Hc; rewrite (Hst Hc)|]; lia].
  destruct (cooldownFor_mono spec (att_CooldownSteps b + 1) (att_CooldownSteps b + 1) Hok) as [Hc1 Hc2];
    [lia|].
  assert (cooldownFor spec (att_CooldownSteps b + 1) / Millisecond <= lim_MaxCooldown spec / Millisecond)%Z
    by (apply Z.div_le_mono; [done|lia]).
  split; [|lia]. intros Hc. rewrite (Hst Hc) in *. split; [|lia].
  unfold coolingDown in Hc. bool_to_prop. destruct Hor as [?|(t0 & Ht0 & Hs1 & ->)]; [lia|].
  destruct (cooldownFor_mono spec (att_CooldownSteps a) (att_CooldownSteps a + 1) Hok) as [Hc3 _]; [lia|].
  assert (cooldownFor spec (att_CooldownSteps a) / Millisecond <=
          cooldownFor spec (att_CooldownSteps a + 1) / Millisecond)%Z
    by (apply Z.div_le_mono; [done|lia]). lia.
Qed.

(** The failures of one window. *)
Definition failures_of (spec : DurableLimitSpec) (limit : Z) (times : list Z) (a : Attempt) : Attempt :=
  foldl (fun a now => advanceAttempt a now spec limit) a times.

Lemma advance_in_window spec a now :
  (0 < lim_Window spec < 2 ^ 63)%Z -> att_WindowStartMS a <> 0%Z ->
  (now - att_WindowStartMS a * Millisecond < lim_Window spec)%Z -> open_window a now spec = a.
Proof.
  intros Hw Hs Hn. unfold open_window. rewrite Sub_lt by done.
  rewrite (proj2 (Z.eqb_neq _ _) Hs). by rewrite (proj2 (Z.leb_gt _ _) Hn).
Qed.

Lemma window_row spec limit t1 ts :
  spec_ok spec -> (0 < limit)%Z -> (0 < UnixMilli t1)%Z ->
  Forall (fun t => t - UnixMilli t1 * Millisecond < lim_Window spec)%Z ts ->
  let a := failures_of spec limit (t1 :: ts) no_attempt in
  let n := Z.of_nat (S (length ts)) in
  att_WindowStartMS a = UnixMilli t1 /\ att_Failures a = n /\
  att_CooldownSteps a = Z.max 0 (n - limit + 1) /\
  ((n < limit)%Z -> att_CooldownUntilMS a = 0%Z) /\
  ((limit <= n)%Z -> att_CooldownUntilMS a =
     (UnixMilli (List.last ts t1) + cooldownFor spec (n - limit + 1) / Millisecond)%Z).
Proof.
  intros Hok Hl Ht1. assert ((0 <? limit)%Z = true) as Hl' by by apply Z.ltb_lt.
  induction ts as [|t ts IH] using rev_ind; intros Hall; cbv zeta.
  - unfold failures_of. simpl foldl. unfold advanceAttempt.
    change (open_window no_attempt t1 spec) with (mkAttempt (UnixMilli t1) 0 0 0 0).
    rewrite Hl'. simpl. destruct (limit <=? 0 + 1)%Z eqn:E; bool_to_prop; simpl.
    + assert (limit = 1%Z) as -> by lia. by split_and!.
    + split_and!; [done|done|lia|done|lia].
  - apply Forall_app in Hall as [Hall [Ht _]%Forall_cons].
    destruct (IH Hall) as (Hw & Hf & Hs & Hlt & Hge).
    unfold failures_of. rewrite app_comm_cons, foldl_app.
    change (foldl _ no_attempt (t1 :: ts)) with (failures_of spec limit (t1 :: ts) no_attempt).
    set (a := failures_of spec limit (t1 :: ts) no_attempt) in *. simpl foldl.
    unfold advanceAttempt. rewrite advance_in_window; [|apply Hok|lia|lia].
    rewrite length_app, Nat.add_1_r, last_last, Hf, Hs, Hw, Hl'. simpl andb.
    destruct (limit <=? _)%Z eqn:E; bool_to_prop; simpl.
    + split_and!; [done|lia|lia|lia|]. intros _. do 3 f_equal. lia.
    + split_and!; [done|lia|lia| |lia]. intros _. apply Hlt. lia.
Qed.

Lemma rateLimited_enough surface w :
  (0 < w)%Z -> exists s, rateLimited surface w = RateLimited surface s /\ (1 <= s)%Z /\
    (w <= s * Second)%Z.
Proof.
  intros Hw. unfold rateLimited. rewrite (Z.max_l _ 0) by lia. eexists. split; [done|].
  pose proof (Z.div_mod (w + Second - 1) Second ltac:(done)) as Hdm.
  pose proof (Z.mod_pos_bound (w + Second - 1) Second ltac:(done)) as Hb.
  assert (1 <= (w + Second - 1) / Second)%Z by (apply Z.div_le_lower_bound; unfold Second in *; lia).
  rewrite (proj2 (Z.eqb_neq _ 0)) by lia. split; [done|]. unfold Second in *. lia.
Qed.

(** One row decides a request of a limiter without a global half. *)
Lemma check_row spec now source t a :
  lim_Global spec = 0%Z -> t !! (lim_Kind spec, source) = Some a ->
  (Check now spec source t = None <->
     att_CooldownUntilMS a = 0%Z \/ (att_CooldownUntilMS a * Millisecond <= now)%Z) /\
  (forall e, Check now spec source t = Some e -> exists s, e = RateLimited (lim_Surface spec) s /\
     (1 <= s)%Z /\
     (att_CooldownUntilMS a * Millisecond - now < 2 ^ 63 ->
        att_CooldownUntilMS a * Millisecond <= now + s * Second)%Z).
Proof.
  intros Hg Ha. unfold Check, limiter_keys. rewrite Hg. simpl. rewrite Ha.
  destruct (att_CooldownUntilMS a =? 0)%Z eqn:E0.
  { apply Z.eqb_eq in E0. split; [tauto|done]. }
  apply Z.eqb_neq in E0. destruct (now <? _)%Z eqn:E; bool_to_prop; [|split; [tauto|done]].
  split; [split; [done|intros [?|?]; lia]|]. intros e [= <-].
  destruct (rateLimited_enough (lim_Surface spec) (Sub (att_CooldownUntilMS a * Millisecond) now))
    as (s & Hs & Hs1 & Hs2); [unfold Sub; lia|].
  exists s. split_and!; [done|done|]. intros Hsmall. unfold Sub in Hs2. lia.
Qed.

(** The durable limit.  After the n-th failure of one window the row counts n; below
    the limit there is no cooldown; from the limit on, the n-th failure starts a cooldown
    from its own time, the base doubled once per failure beyond the limit, up to the cap.
    A request is then refused, with a wait of at least a second that is long enough,
    exactly until the cooldown is over. *)
Theorem durable_limit_exact spec limit t1 ts :
  spec_ok spec -> (0 < limit)%Z -> (0 < UnixMilli t1)%Z ->
  Forall (fun t => t - UnixMilli t1 * Millisecond < lim_Window spec)%Z ts ->
  let a := failures_of spec limit (t1 :: ts) no_attempt in
  let n := Z.of_nat (S (length ts)) in
  att_WindowStartMS a = UnixMilli t1 /\ att_Failures a = n /\
  ((n < limit)%Z -> att_CooldownUntilMS a = 0%Z) /\
  ((limit <= n)%Z -> att_CooldownUntilMS a =
     (UnixMilli (List.last ts t1) +
      Z.min (lim_BaseCooldown spec * 2 ^ (n - limit)) (lim_MaxCooldown spec) / Millisecond)%Z) /\
  (forall now source t, lim_Global spec = 0%Z -> t !! (lim_Kind spec, source) = Some a ->
     (Check now spec source t = None <->
        att_CooldownUntilMS a = 0%Z \/ (att_CooldownUntilMS a * Millisecond <= now)%Z) /\
     (forall e, Check now spec source t = Some e -> exists s, e = RateLimited (lim_Surface spec) s /\
        (1 <= s)%Z /\
        (att_CooldownUntilMS a * Millisecond - now < 2 ^ 63 ->
           att_CooldownUntilMS a * Millisecond <= now + s * Second)%Z)).
Proof.
  intros Hok Hl Ht1 Hts. destruct (window_row spec limit t1 ts Hok Hl Ht1 Hts) as (Hw & Hf & _ & Hlt & Hge).
  split_and!; try done.
  - intros Hle. rewrite (Hge Hle), cooldownFor_exact by (done || lia). by replace (Z.of_nat (S (length ts)) - limit + 1 - 1)%Z with (Z.of_nat (S (length ts)) - limit)%Z by lia.
  - intros now source t. apply check_row.
Qed.

(** ** The concurrency bounds *)

(** The outstanding releases of one key. *)
Definition held_by (key : string) (c : ConcurrencyLimiter) : gmap nat string :=
  filter (fun kv : nat * string => kv.2 = key) (cl_held c).

Definition con_ok (spec : ConcurrencySpec) (c : ConcurrencyLimiter) : Prop :=
  cl_total c = Z.of_nat (size (cl_held c)) /\ (cl_total c <= Z.max 0 (con_Global spec))%Z /\
  (forall key, (InFlight key c).1 = Z.of_nat (size (held_by key c)) /\
               ((InFlight key c).1 <= Z.max 0 (con_PerAuthorization spec))%Z).

Lemma held_by_insert key h k c :
  cl_held c !! h = None ->
  size (filter (fun kv : nat * string => kv.2 = k) (<[h := key]> (cl_held c))) =
  (size (held_by k c) + if decide (key = k) then 1 else 0)%nat.
Proof.
  intros Hh. unfold held_by. case_decide as Hk.
  - rewrite map_filter_insert_True by done. rewrite map_size_insert_None; [lia|].
    apply map_lookup_filter_None. auto.
  - rewrite map_filter_insert_False by done. rewrite delete_id by done. lia.
Qed.

Lemma held_by_delete key h k c :
  cl_held c !! h = Some key ->
  size (held_by k c) =
  (size (filter (fun kv : nat * string => kv.2 = k) (delete h (cl_held c))) +
   if decide (key = k) then 1 else 0)%nat.
Proof.
  intros Hh. unfold held_by. rewrite map_filter_delete. case_decide as Hk.
  - assert (filter (fun kv : nat * string => kv.2 = k) (cl_held c) !! h = Some key) as Hf
      by by apply map_lookup_filter_Some.
    rewrite map_size_delete, Hf.
    destruct (size (filter _ (cl_held c))) eqn:E; [|lia].
    apply map_size_empty_inv in E. by rewrite E in Hf.
  - rewrite delete_id; [lia|]. apply map_lookup_filter_None. right. intros x Hx. simpl.
    congruence.
Qed.

Lemma release_key_lookup key t k :
  (0 < default 0 (t !! key))%Z ->
  default 0%Z (release_key key t !! k) =
  (default 0 (t !! k) - if decide (key = k) then 1 else 0)%Z.
Proof.
  intros Hpos. unfold release_key. rewrite (proj2 (Z.ltb_lt _ _) Hpos).
  destruct (_ =? 0)%Z eqn:E; bool_to_prop; case_decide as Hk.
  - apply Z.eqb_eq in E. subst k. rewrite lookup_delete_eq. simpl. lia.
  - rewrite lookup_delete_ne by done. lia.
  - subst k. by rewrite lookup_insert_eq.
  - rewrite lookup_insert_ne by done. lia.
Qed.

Lemma con_ok_step spec c c' : con_ok spec c -> ConStep spec c c' -> con_ok spec c'.
Proof.
  intros (Ht & Hg & Hk) [key h c1 Hh Hacq|h].
  - unfold Acquire in Hacq. destruct (_ || _) eqn:E; [done|]. injection Hacq as <-. bool_to_prop.
    unfold con_ok, held_by, InFlight in *. simpl. split_and!.
    + rewrite map_size_insert_None by done. lia.
    + lia.
    + intros k. rewrite (held_by_insert key h k c Hh). destruct (Hk k) as [Hk1 Hk2].
      case_decide as Hkk.
      * subst k. rewrite lookup_insert_eq. simpl in *. unfold held_by in *. split; lia.
      * rewrite lookup_insert_ne by done. unfold held_by in *. simpl in *. split; lia.
  - unfold Release. destruct (cl_held c !! h) as [key|] eqn:Hh; [|done].
    assert (size (cl_held c) <> 0%nat) as Hne.
    { intros E%map_size_empty_inv. by rewrite E in Hh. }
    pose proof (held_by_delete key h key c Hh) as Hd. rewrite decide_True in Hd by done.
    destruct (Hk key) as [Hkey _]. unfold con_ok, held_by, InFlight in *. simpl in *.
    rewrite (proj2 (Z.ltb_lt 0 (cl_total c))) by lia. split_and!.
    + rewrite map_size_delete, Hh. lia.
    + lia.
    + intros k. rewrite release_key_lookup by lia. destruct (Hk k) as [Hk1 Hk2].
      pose proof (held_by_delete key h k c Hh) as Hdk. unfold held_by in Hdk. simpl in *. destruct (decide (key = k)); split; lia.
Qed.

(** The concurrency bounds.  In every state the limiter can reach, with releases called
    any number of times and in any order, the counters are the numbers of slots in use,
    and never exceed the bounds; a slot is refused exactly when one of the two is reached;
    and calling a release again changes nothing. *)
Theorem concurrency_bounds spec c key h :
  rtc (ConStep spec) NewConcurrencyLimiter c ->
  cl_total c = Z.of_nat (size (cl_held c)) /\
  (0 <= cl_total c <= Z.max 0 (con_Global spec))%Z /\
  InFlight key c = (Z.of_nat (size (held_by key c)), cl_total c) /\
  (0 <= (InFlight key c).1 <= Z.max 0 (con_PerAuthorization spec))%Z /\
  (is_ok (Acquire spec key h c) = false <->
     (con_Global spec <= cl_total c \/ con_PerAuthorization spec <= (InFlight key c).1)%Z) /\
  Release h (Release h c) = Release h c.
Proof.
  intros Hr.
  assert (con_ok spec c) as (Ht & Hg & Hk).
  { assert (con_ok spec NewConcurrencyLimiter) as H0.
    { unfold con_ok, held_by, InFlight. simpl. rewrite map_size_empty. split_and!; [done|lia|].
      intros k. rewrite map_filter_empty, map_size_empty, lookup_empty. simpl. split; [done|lia]. }
    revert H0. induction Hr as [|a b d Hab _ IH]; [done|]. intros Ha. by apply IH, (con_ok_step _ a). }
  destruct (Hk key) as [Hk1 Hk2]. split_and!; try done || lia.
  - unfold InFlight in *. simpl in *. by rewrite Hk1.
  - unfold Acquire. destruct (_ || _) eqn:E; simpl.
    + split; [intros _|done]. apply orb_true_iff in E as [?|?]; bool_to_prop; [left|right]; done.
    + bool_to_prop. unfold InFlight. simpl. split; [done|lia].
  - unfold Release. destruct (cl_held c !! h) as [k|] eqn:Hh; simpl; [by rewrite lookup_delete_eq|by rewrite Hh].
Qed.

(** ** Witnesses *)

Lemma admin_spec_ok : spec_ok LimitAdminSecret.
Proof. by vm_compute. Qed.

(** Five failures in the first second: a minute. *)
Example durable_limit_exact_witness :
  att_CooldownUntilMS (failures_of LimitAdminSecret 5 (replicate 5 (1000 * Second)%Z) no_attempt) =
  (1000000 + 60000)%Z.
Proof.
  destruct (durable_limit_exact LimitAdminSecret 5 (1000 * Second)%Z (replicate 4 (1000 * Second)%Z)
    admin_spec_ok ltac:(reflexivity) ltac:(reflexivity)
    ltac:(repeat constructor)) as (_ & _ & _ & H & _).
  exact (H ltac:(discriminate)).
Defined.

Example cooldown_never_shortened_witness :
  (att_CooldownUntilMS (advanceAttempt no_attempt Second LimitAdminSecret 1) <=
   att_CooldownUntilMS (advanceAttempt (advanceAttempt no_attempt Second LimitAdminSecret 1)
     (2 * Second) LimitAdminSecret 1))%Z.
Proof.
  refine (proj1 (proj1 (cooldown_never_shortened LimitAdminSecret 1 Second
    (advanceAttempt no_attempt Second LimitAdminSecret 1) (2 * Second) admin_spec_ok
    (at_failure _ _ 0 no_attempt Second (at_first _ _ 0 ltac:(discriminate)) ltac:(discriminate))
    ltac:(discriminate)) _)).
  vm_compute. reflexivity.
Defined.

Definition demo_limiter : ConcurrencyLimiter :=
  match Acquire ConcurrencyUploads "auth_1" 0 NewConcurrencyLimiter with
  | Ok c => c
  | Err _ => NewConcurrencyLimiter
  end.

Example concurrency_bounds_witness :
  InFlight "auth_1" demo_limiter = (1%Z, 1%Z) /\ (cl_total demo_limiter <= 16)%Z.
Proof.
  split; [vm_compute; reflexivity|].
  refine (proj2 (proj1 (proj2 (concurrency_bounds ConcurrencyUploads demo_limiter "auth_1" 0 _)))).
  apply rtc_once, (con_acquire _ _ "auth_1" 0); reflexivity.
Defined.
