(* ===== verification/AuthzStore.v ===== *)
(** * Credential tables (internal/store/authz.go, internal/store/oauth.go,
      migrations 0003, 0006 and 0009)

    The tables of authorizations, tokens, registered clients, enrollment codes,
    authorization requests and authorization codes, with the failure limiter's rows and
    the audit rows, and the methods of [AuthzTx] that read and write them inside one
    transaction.  A table is a map from its primary key; a nullable column is an
    [option]; inserting an existing key or a missing referenced row is a constraint
    error; deleting a client cascades.  The lemmas: credentials are only ever added,
    spent, consumed and revoked, never revived ([db_le]). *)

From S2P Require Import Prelude GoStrings Scopes Limits.

(** ** authorizations *)

Definition AuthKindAdminBootstrap : string := "admin_bootstrap".
Definition AuthKindOAuth : string := "oauth".
Definition TokenKindAccess : string := "access".
Definition TokenKindRefresh : string := "refresh".
Definition AttemptKindOAuthToken : string := "oauth_token".

Record AuthorizationRow := mkAuthorizationRow {
  ar_kind : string;
  ar_client_id : option string;
  ar_scopes : string;
  ar_minted_scopes : string;
  ar_secret_generation : option string;
  ar_source : option string;
  ar_revoked_at_ms : option Z;
  ar_expires_at_ms : option Z;
  ar_created_at_ms : Z;
  ar_updated_at_ms : Z;
}.

Record Authorization := mkAuthorization {
  au_ID : string;
  au_Kind : string;
  au_Client : string;
  au_Scopes : string;
  au_MintedScopes : string;
  au_SecretGeneration : string;
  au_Source : string;
  au_RevokedAtMS : Z;
  au_ExpiresAtMS : Z;
  au_CreatedAtMS : Z;
  au_UpdatedAtMS : Z;
}.

Definition au_Revoked (a : Authorization) : bool := negb (au_RevokedAtMS a =? 0)%Z.

Definition scanAuthorization (id : string) (r : AuthorizationRow) : Authorization :=
  mkAuthorization id (ar_kind r) (scanString (ar_client_id r)) (ar_scopes r)
    (ar_minted_scopes r) (scanString (ar_secret_generation r)) (scanString (ar_source r))
    (scanInt (ar_revoked_at_ms r)) (scanInt (ar_expires_at_ms r)) (ar_created_at_ms r)
    (ar_updated_at_ms r).

(** ** tokens *)

Record TokenRow := mkTokenRow {
  tk_authorization_id : string;
  tk_kind : string;
  tk_family_id : string;
  tk_spent_at_ms : option Z;
  tk_revoked_at_ms : option Z;
  tk_expires_at_ms : Z;
  tk_created_at_ms : Z;
}.

Record Token := mkToken {
  to_TokenHash : string;
  to_AuthorizationID : string;
  to_Kind : string;
  to_FamilyID : string;
  to_SpentAtMS : Z;
  to_RevokedAtMS : Z;
  to_ExpiresAtMS : Z;
  to_CreatedAtMS : Z;
}.

Definition to_Spent (t : Token) : bool := negb (to_SpentAtMS t =? 0)%Z.
Definition to_Revoked (t : Token) : bool := negb (to_RevokedAtMS t =? 0)%Z.

Definition scanToken (hash : string) (r : TokenRow) : Token :=
  mkToken hash (tk_authorization_id r) (tk_kind r) (tk_family_id r)
    (scanInt (tk_spent_at_ms r)) (scanInt (tk_revoked_at_ms r)) (tk_expires_at_ms r)
    (tk_created_at_ms r).

(** ** oauth_clients *)

Record ClientRow := mkClientRow {
  cl_client_name : option string;
  cl_redirect_uris : list string;
  cl_grant_types : string;
  cl_response_types : string;
  cl_token_endpoint_auth_method : string;
  cl_metadata_json : string;
  cl_source : option string;
  cl_activated_at_ms : option Z;
  cl_expires_at_ms : option Z;
  cl_created_at_ms : Z;
  cl_static : bool;
  cl_default_resource : bool;
}.

(** ** enrollment_codes *)

Record EnrollmentRow := mkEnrollmentRow {
  er_code_hash : string;
  er_label : string;
  er_scopes : string;
  er_expires_at_ms : Z;
  er_consumed_at_ms : option Z;
  er_consumed_by : option string;
  er_revoked_at_ms : option Z;
  er_revoked_reason : option string;
  er_created_at_ms : Z;
  er_updated_at_ms : Z;
}.

Record EnrollmentCode := mkEnrollmentCode {
  en_ID : string;
  en_CodeHash : string;
  en_Label : string;
  en_Scopes : string;
  en_ExpiresAtMS : Z;
  en_ConsumedAtMS : Z;
  en_ConsumedBy : string;
  en_RevokedAtMS : Z;
  en_RevokedReason : string;
  en_CreatedAtMS : Z;
  en_UpdatedAtMS : Z;
}.

Definition en_Revoked (e : EnrollmentCode) : bool := negb (en_RevokedAtMS e =? 0)%Z.
Definition en_Consumed (e : EnrollmentCode) : bool := negb (en_ConsumedAtMS e =? 0)%Z.

Definition scanEnrollmentCode (id : string) (r : EnrollmentRow) : EnrollmentCode :=
  mkEnrollmentCode id (er_code_hash r) (er_label r) (er_scopes r) (er_expires_at_ms r)
    (scanInt (er_consumed_at_ms r)) (scanString (er_consumed_by r))
    (scanInt (er_revoked_at_ms r)) (scanString (er_revoked_reason r)) (er_created_at_ms r)
    (er_updated_at_ms r).

(** ** authorization_requests *)

Definition AuthRequestPending : string := "pending".
Definition AuthRequestApproved : string := "approved".
Definition AuthRequestDenied : string := "denied".
Definition AuthRequestCompleted : string := "completed".

Record RequestRow := mkRequestRow {
  rq_client_id : string;
  rq_redirect_uri : string;
  rq_state : string;
  rq_code_challenge : string;
  rq_code_challenge_method : string;
  rq_resource : string;
  rq_requested_scopes : string;
  rq_selected_scopes : string;
  rq_granted_scopes : option string;
  rq_enrollment_code_id : option string;
  rq_status : string;
  rq_deny_reason : option string;
  rq_handle_hash : string;
  rq_form_token_hash : string;
  rq_source : option string;
  rq_expires_at_ms : Z;
  rq_decided_at_ms : option Z;
  rq_completed_at_ms : option Z;
  rq_created_at_ms : Z;
  rq_updated_at_ms : Z;
}.

Record AuthorizationRequest := mkAuthorizationRequest {
  re_ID : string;
  re_ClientID : string;
  re_RedirectURI : string;
  re_State : string;
  re_CodeChallenge : string;
  re_CodeChallengeMethod : string;
  re_Resource : string;
  re_RequestedScopes : string;
  re_SelectedScopes : string;
  re_GrantedScopes : string;
  re_EnrollmentCodeID : string;
  re_Status : string;
  re_DenyReason : string;
  re_HandleHash : string;
  re_FormTokenHash : string;
  re_Source : string;
  re_ExpiresAtMS : Z;
  re_DecidedAtMS : Z;
  re_CompletedAtMS : Z;
  re_CreatedAtMS : Z;
  re_UpdatedAtMS : Z;
}.

Definition scanAuthorizationRequest (id : string) (r : RequestRow) : AuthorizationRequest :=
  mkAuthorizationRequest id (rq_client_id r) (rq_redirect_uri r) (rq_state r)
    (rq_code_challenge r) (rq_code_challenge_method r) (rq_resource r) (rq_requested_scopes r)
    (rq_selected_scopes r) (scanString (rq_granted_scopes r))
    (scanString (rq_enrollment_code_id r)) (rq_status r) (scanString (rq_deny_reason r))
    (rq_handle_hash r) (rq_form_token_hash r) (scanString (rq_source r)) (rq_expires_at_ms r)
    (scanInt (rq_decided_at_ms r)) (scanInt (rq_completed_at_ms r)) (rq_created_at_ms r)
    (rq_updated_at_ms r).

(** ** authorization_codes *)

Record CodeRow := mkCodeRow {
  cd_request_id : string;
  cd_client_id : string;
  cd_redirect_uri : string;
  cd_code_challenge : string;
  cd_scopes : string;
  cd_resource : string;
  cd_authorization_id : option string;
  cd_consumed_at_ms : option Z;
  cd_expires_at_ms : Z;
  cd_created_at_ms : Z;
}.

Record AuthorizationCode := mkAuthorizationCode {
  co_CodeHash : string;
  co_RequestID : string;
  co_ClientID : string;
  co_RedirectURI : string;
  co_CodeChallenge : string;
  co_Scopes : string;
  co_Resource : string;
  co_AuthorizationID : string;
  co_ConsumedAtMS : Z;
  co_ExpiresAtMS : Z;
  co_CreatedAtMS : Z;
}.

Definition co_Consumed (c : AuthorizationCode) : bool := negb (co_ConsumedAtMS c =? 0)%Z.

Definition scanAuthorizationCode (hash : string) (r : CodeRow) : AuthorizationCode :=
  mkAuthorizationCode hash (cd_request_id r) (cd_client_id r) (cd_redirect_uri r)
    (cd_code_challenge r) (cd_scopes r) (cd_resource r) (scanString (cd_authorization_id r))
    (scanInt (cd_consumed_at_ms r)) (cd_expires_at_ms r) (cd_created_at_ms r).

(** ** audit_events

    The payload is the map that [renderPayload] marshals.  The random row ID is left out:
    the rows are a list, oldest first. *)

Inductive AuditValue : Type :=
| VStr (s : string) | VInt (z : Z) | VBool (b : bool) | VList (l : list string).

Record AuditRow := mkAuditRow {
  ev_kind : string;
  ev_result : string;
  ev_account_id : option string;
  ev_authorization_id : option string;
  ev_source : option string;
  ev_payload : list (string * AuditValue);
  ev_created_at_ms : Z;
}.

(** ** The tables *)

Record AuthDB := mkAuthDB {
  tb_authorizations : gmap string AuthorizationRow;
  tb_tokens : gmap string TokenRow;
  tb_attempts : attempts_table;
  tb_clients : gmap string ClientRow;
  tb_enrollments : gmap string EnrollmentRow;
  tb_requests : gmap string RequestRow;
  tb_codes : gmap string CodeRow;
  tb_audit : list AuditRow;
}.

Definition empty_db : AuthDB := mkAuthDB ∅ ∅ ∅ ∅ ∅ ∅ ∅ [].

Definition set_authorizations (v : gmap string AuthorizationRow) (d : AuthDB) : AuthDB :=
  mkAuthDB v (tb_tokens d) (tb_attempts d) (tb_clients d) (tb_enrollments d) (tb_requests d)
    (tb_codes d) (tb_audit d).
Definition set_tokens (v : gmap string TokenRow) (d : AuthDB) : AuthDB :=
  mkAuthDB (tb_authorizations d) v (tb_attempts d) (tb_clients d) (tb_enrollments d)
    (tb_requests d) (tb_codes d) (tb_audit d).
Definition set_attempts (v : attempts_table) (d : AuthDB) : AuthDB :=
  mkAuthDB (tb_authorizations d) (tb_tokens d) v (tb_clients d) (tb_enrollments d)
    (tb_requests d) (tb_codes d) (tb_audit d).
Definition set_clients (v : gmap string ClientRow) (d : AuthDB) : AuthDB :=
  mkAuthDB (tb_authorizations d) (tb_tokens d) (tb_attempts d) v (tb_enrollments d)
    (tb_requests d) (tb_codes d) (tb_audit d).
Definition set_enrollments (v : gmap string EnrollmentRow) (d : AuthDB) : AuthDB :=
  mkAuthDB (tb_authorizations d) (tb_tokens d) (tb_attempts d) (tb_clients d) v
    (tb_requests d) (tb_codes d) (tb_audit d).
Definition set_requests (v : gmap string RequestRow) (d : AuthDB) : AuthDB :=
  mkAuthDB (tb_authorizations d) (tb_tokens d) (tb_attempts d) (tb_clients d)
    (tb_enrollments d) v (tb_codes d) (tb_audit d).
Definition set_codes (v : gmap string CodeRow) (d : AuthDB) : AuthDB :=
  mkAuthDB (tb_authorizations d) (tb_tokens d) (tb_attempts d) (tb_clients d)
    (tb_enrollments d) (tb_requests d) v (tb_audit d).
Definition set_audit (v : list AuditRow) (d : AuthDB) : AuthDB :=
  mkAuthDB (tb_authorizations d) (tb_tokens d) (tb_attempts d) (tb_clients d)
    (tb_enrollments d) (tb_requests d) (tb_codes d) v.

(** ** Transactions

    A method of [AuthzTx] reads the instant the transaction opened and the tables; an
    error rolls back everything the transaction did. *)

Definition Tx (A : Type) : Type := Z -> AuthDB -> Result AuthzError (AuthDB * A).

#[export] Instance Tx_ret : MRet Tx := fun A a _ d => Ok (d, a).
#[export] Instance Tx_bind : MBind Tx := fun A B k m now d =>
  match m now d with Ok (d', a) => k a now d' | Err e => Err e end.

Definition tx_read {A} (f : AuthDB -> Result AuthzError A) : Tx A := fun _ d =>
  match f d with Ok a => Ok (d, a) | Err e => Err e end.

(** [Store.AuthzTx]. *)
Definition AuthzTx {A} (nowMS : Z) (fn : Tx A) (d : AuthDB) : AuthDB * Result AuthzError A :=
  match fn nowMS d with Ok (d', a) => (d', Ok a) | Err e => (d, Err e) end.

(** ** Reads: the same inside and outside of a transaction *)

Definition ReadAuthorization (id : string) (d : AuthDB) : Result AuthzError Authorization :=
  match tb_authorizations d !! id with
  | Some r => Ok (scanAuthorization id r)
  | None => Err ErrAuthorizationNotFound
  end.

Definition TokenByHash (hash : string) (d : AuthDB) : Result AuthzError Token :=
  match tb_tokens d !! hash with
  | Some r => Ok (scanToken hash r)
  | None => Err ErrTokenNotFound
  end.

Definition AuthorizationCodeByHash (hash : string) (d : AuthDB)
    : Result AuthzError AuthorizationCode :=
  match tb_codes d !! hash with
  | Some r => Ok (scanAuthorizationCode hash r)
  | None => Err ErrAuthorizationCodeNotFound
  end.

Definition AuthorizationRequestByID (id : string) (d : AuthDB) : option AuthorizationRequest :=
  scanAuthorizationRequest id <$> tb_requests d !! id.

Definition EnrollmentCodeByHash (hash : string) (d : AuthDB) : option EnrollmentCode :=
  (fun kr : string * EnrollmentRow => scanEnrollmentCode kr.1 kr.2) <$>
  List.find (fun kr : string * EnrollmentRow => bool_decide (er_code_hash kr.2 = hash))
    (map_to_list (tb_enrollments d)).

(** The live authorizations of one client. *)
Definition AuthorizationsForClient (clientID : string) (d : AuthDB) : list string :=
  (filter (fun kr : string * AuthorizationRow =>
     ar_client_id kr.2 = Some clientID /\ ar_revoked_at_ms kr.2 = None)
     (map_to_list (tb_authorizations d))).*1.

(** ** Writes: authorizations and tokens *)

Definition CreateAuthorization (a : Authorization) : Tx unit := fun now d =>
  match tb_authorizations d !! au_ID a with
  | Some _ => Err ErrAuthzConstraint
  | None =>
      let row := mkAuthorizationRow (au_Kind a) (nullString (au_Client a)) (au_Scopes a)
        (au_MintedScopes a) (nullString (au_SecretGeneration a)) (nullString (au_Source a))
        (nullInt (au_RevokedAtMS a)) (nullInt (au_ExpiresAtMS a))
        (if (au_CreatedAtMS a =? 0)%Z then now else au_CreatedAtMS a) now in
      Ok (set_authorizations (<[au_ID a := row]> (tb_authorizations d)) d, tt)
  end.

Definition with_scopes (scopes : string) (now : Z) (r : AuthorizationRow) : AuthorizationRow :=
  mkAuthorizationRow (ar_kind r) (ar_client_id r) scopes (ar_minted_scopes r)
    (ar_secret_generation r) (ar_source r) (ar_revoked_at_ms r) (ar_expires_at_ms r)
    (ar_created_at_ms r) now.

Definition SetAuthorizationScopes (id scopes : string) : Tx unit := fun now d =>
  match tb_authorizations d !! id with
  | None => Err ErrAuthorizationNotFound
  | Some r => Ok (set_authorizations (<[id := with_scopes scopes now r]> (tb_authorizations d)) d, tt)
  end.

Definition auth_revoked (now : Z) (r : AuthorizationRow) : AuthorizationRow :=
  mkAuthorizationRow (ar_kind r) (ar_client_id r) (ar_scopes r) (ar_minted_scopes r)
    (ar_secret_generation r) (ar_source r) (coalesce (ar_revoked_at_ms r) (Some now))
    (ar_expires_at_ms r) (ar_created_at_ms r) now.

Definition RevokeAuthorization (id : string) : Tx unit := fun now d =>
  Ok (set_authorizations (alter (auth_revoked now) id (tb_authorizations d)) d, tt).

Definition InsertToken (t : Token) : Tx unit := fun now d =>
  match tb_tokens d !! to_TokenHash t, tb_authorizations d !! to_AuthorizationID t with
  | None, Some _ =>
      let row := mkTokenRow (to_AuthorizationID t) (to_Kind t) (to_FamilyID t)
        (nullInt (to_SpentAtMS t)) (nullInt (to_RevokedAtMS t)) (to_ExpiresAtMS t)
        (if (to_CreatedAtMS t =? 0)%Z then now else to_CreatedAtMS t) in
      Ok (set_tokens (<[to_TokenHash t := row]> (tb_tokens d)) d, tt)
  | _, _ => Err ErrAuthzConstraint
  end.

Definition token_spent (now : Z) (r : TokenRow) : TokenRow :=
  mkTokenRow (tk_authorization_id r) (tk_kind r) (tk_family_id r)
    (coalesce (tk_spent_at_ms r) (Some now)) (tk_revoked_at_ms r) (tk_expires_at_ms r)
    (tk_created_at_ms r).

Definition token_revoked (now : Z) (r : TokenRow) : TokenRow :=
  mkTokenRow (tk_authorization_id r) (tk_kind r) (tk_family_id r) (tk_spent_at_ms r)
    (coalesce (tk_revoked_at_ms r) (Some now)) (tk_expires_at_ms r) (tk_created_at_ms r).

Definition SpendToken (hash : string) : Tx unit := fun now d =>
  match tb_tokens d !! hash with
  | None => Err ErrTokenNotFound
  | Some r => Ok (set_tokens (<[hash := token_spent now r]> (tb_tokens d)) d, tt)
  end.

Definition of_family (familyID : string) (r : TokenRow) : bool :=
  bool_decide (tk_family_id r = familyID) && bool_decide (tk_revoked_at_ms r = None).
Definition of_authorization (id : string) (r : TokenRow) : bool :=
  bool_decide (tk_authorization_id r = id) && bool_decide (tk_revoked_at_ms r = None).

Definition revoke_tokens_where (P : TokenRow -> bool) : Tx Z := fun now d =>
  Ok (set_tokens (update_where P (token_revoked now) (tb_tokens d)) d,
      Z.of_nat (rows_affected P (tb_tokens d))).

Definition RevokeTokenFamily (familyID : string) : Tx Z := revoke_tokens_where (of_family familyID).
Definition RevokeTokensForAuthorization (id : string) : Tx Z :=
  revoke_tokens_where (of_authorization id).

Definition AppendAudit (kind result accountID authorizationID source : string)
    (payload : list (string * AuditValue)) : Tx unit := fun now d =>
  Ok (set_audit (tb_audit d ++ [mkAuditRow kind result (nullString accountID)
        (nullString authorizationID) (nullString source) payload now]) d, tt).

(** [RevokeAdminAuthorizationsFromOtherSecrets]: the IDs the [SELECT] finds. *)
Definition superseded (generation : string) (r : AuthorizationRow) : bool :=
  bool_decide (ar_kind r = AuthKindAdminBootstrap) && bool_decide (ar_revoked_at_ms r = None) &&
  negb (bool_decide (scanString (ar_secret_generation r) = generation)).

Definition superseded_ids (generation : string) (d : AuthDB) : list string :=
  (filter (fun kr : string * AuthorizationRow => superseded generation kr.2 = true)
     (map_to_list (tb_authorizations d))).*1.

Fixpoint revoke_each (ids : list string) : Tx unit :=
  match ids with
  | [] => mret tt
  | id :: ids' =>
      RevokeAuthorization id ≫= fun _ =>
      RevokeTokensForAuthorization id ≫= fun _ =>
      AppendAudit "auth.admin_authorization_revoked" "ok" "" id ""
        [("reason", VStr "admin_secret_changed")] ≫= fun _ =>
      revoke_each ids'
  end.

Definition RevokeAdminAuthorizationsFromOtherSecrets (generation : string) : Tx (list string) :=
  tx_read (fun d => Ok (superseded_ids generation d)) ≫= fun ids =>
  revoke_each ids ≫= fun _ => mret ids.

(** ** Writes: clients *)

Definition CreateOAuthClient (id : string) (c : ClientRow) : Tx unit := fun now d =>
  match tb_clients d !! id with
  | Some _ => Err ErrAuthzConstraint
  | None =>
      let row := mkClientRow (cl_client_name c) (cl_redirect_uris c) (cl_grant_types c)
        (cl_response_types c) (cl_token_endpoint_auth_method c) (cl_metadata_json c) (cl_source c)
        (cl_activated_at_ms c) (cl_expires_at_ms c)
        (if (cl_created_at_ms c =? 0)%Z then now else cl_created_at_ms c) (cl_static c)
        (cl_default_resource c) in
      Ok (set_clients (<[id := row]> (tb_clients d)) d, tt)
  end.

Definition client_activated (now : Z) (c : ClientRow) : ClientRow :=
  mkClientRow (cl_client_name c) (cl_redirect_uris c) (cl_grant_types c) (cl_response_types c)
    (cl_token_endpoint_auth_method c) (cl_metadata_json c) (cl_source c)
    (coalesce (cl_activated_at_ms c) (Some now)) None (cl_created_at_ms c) (cl_static c)
    (cl_default_resource c).

Definition ActivateOAuthClient (id : string) : Tx unit := fun now d =>
  Ok (set_clients (alter (client_activated now) id (tb_clients d)) d, tt).

Definition referenced (id : string) (d : AuthDB) : bool :=
  existsb (fun kr : string * RequestRow => bool_decide (rq_client_id kr.2 = id))
    (map_to_list (tb_requests d)).

Definition expired_client (now : Z) (c : ClientRow) : bool :=
  negb (cl_static c) && bool_decide (cl_activated_at_ms c = None) &&
  match cl_expires_at_ms c with Some e => (e <=? now)%Z | None => false end.

Definition ExpiredUnreferencedClients : Tx (list string) := fun now d =>
  Ok (d, merge_sort String.le
           (filter (fun kr : string * ClientRow =>
              expired_client now kr.2 && negb (referenced kr.1 d) = true)
              (map_to_list (tb_clients d))).*1).

(** The client, its requests and their codes. *)
Definition DeleteOAuthClient (id : string) : Tx unit := fun _ d =>
  let of_client (rid : string) :=
    match tb_requests d !! rid with Some r => bool_decide (rq_client_id r = id) | None => false end in
  Ok (set_clients (delete id (tb_clients d))
       (set_requests (delete_where (fun r => bool_decide (rq_client_id r = id)) (tb_requests d))
         (set_codes (delete_where (fun c => of_client (cd_request_id c)) (tb_codes d)) d)), tt).

(** ** Writes: enrollment codes *)

Definition CreateEnrollmentCode (e : EnrollmentCode) : Tx unit := fun now d =>
  match tb_enrollments d !! en_ID e, EnrollmentCodeByHash (en_CodeHash e) d with
  | None, None =>
      let row := mkEnrollmentRow (en_CodeHash e) (en_Label e) (en_Scopes e) (en_ExpiresAtMS e)
        (nullInt (en_ConsumedAtMS e)) (nullString (en_ConsumedBy e)) (nullInt (en_RevokedAtMS e))
        (nullString (en_RevokedReason e))
        (if (en_CreatedAtMS e =? 0)%Z then now else en_CreatedAtMS e) now in
      Ok (set_enrollments (<[en_ID e := row]> (tb_enrollments d)) d, tt)
  | _, _ => Err ErrAuthzConstraint
  end.

Definition enrollment_consumed (now : Z) (requestID : string) (r : EnrollmentRow) : EnrollmentRow :=
  mkEnrollmentRow (er_code_hash r) (er_label r) (er_scopes r) (er_expires_at_ms r) (Some now)
    (Some requestID) (er_revoked_at_ms r) (er_revoked_reason r) (er_created_at_ms r) now.

Definition ConsumeEnrollmentCode (id requestID : string) : Tx bool := fun now d =>
  match tb_enrollments d !! id with
  | Some r =>
      if bool_decide (er_consumed_at_ms r = None) && bool_decide (er_revoked_at_ms r = None)
      then Ok (set_enrollments (<[id := enrollment_consumed now requestID r]> (tb_enrollments d)) d, true)
      else Ok (d, false)
  | None => Ok (d, false)
  end.

Definition enrollment_revoked (now : Z) (reason : string) (r : EnrollmentRow) : EnrollmentRow :=
  mkEnrollmentRow (er_code_hash r) (er_label r) (er_scopes r) (er_expires_at_ms r)
    (er_consumed_at_ms r) (er_consumed_by r) (Some now) (nullString reason) (er_created_at_ms r) now.

Definition RevokeEnrollmentCode (id reason : string) : Tx bool := fun now d =>
  match tb_enrollments d !! id with
  | Some r =>
      if bool_decide (er_revoked_at_ms r = None)
      then Ok (set_enrollments (<[id := enrollment_revoked now reason r]> (tb_enrollments d)) d, true)
      else Ok (d, false)
  | None => Ok (d, false)
  end.

(** ** Writes: authorization requests *)

Definition CreateAuthorizationRequest (a : AuthorizationRequest) : Tx unit := fun now d =>
  match tb_requests d !! re_ID a, tb_clients d !! re_ClientID a with
  | None, Some _ =>
      let row := mkRequestRow (re_ClientID a) (re_RedirectURI a) (re_State a) (re_CodeChallenge a)
        (re_CodeChallengeMethod a) (re_Resource a) (re_RequestedScopes a) (re_SelectedScopes a)
        (nullString (re_GrantedScopes a)) (nullString (re_EnrollmentCodeID a)) (re_Status a)
        (nullString (re_DenyReason a)) (re_HandleHash a) (re_FormTokenHash a)
        (nullString (re_Source a)) (re_ExpiresAtMS a) (nullInt (re_DecidedAtMS a))
        (nullInt (re_CompletedAtMS a))
        (if (re_CreatedAtMS a =? 0)%Z then now else re_CreatedAtMS a) now in
      Ok (set_requests (<[re_ID a := row]> (tb_requests d)) d, tt)
  | _, _ => Err ErrAuthzConstraint
  end.

Definition request_decided (now : Z) (status grantedScopes denyReason : string) (r : RequestRow)
    : RequestRow :=
  mkRequestRow (rq_client_id r) (rq_redirect_uri r) (rq_state r) (rq_code_challenge r)
    (rq_code_challenge_method r) (rq_resource r) (rq_requested_scopes r) (rq_selected_scopes r)
    (nullString grantedScopes) (rq_enrollment_code_id r) status (nullString denyReason)
    (rq_handle_hash r) (rq_form_token_hash r) (rq_source r) (rq_expires_at_ms r) (Some now)
    (rq_completed_at_ms r) (rq_created_at_ms r) now.

Definition DecideAuthorizationRequest (id status grantedScopes denyReason : string) : Tx bool :=
  fun now d =>
  match tb_requests d !! id with
  | Some r =>
      if bool_decide (rq_status r = AuthRequestPending)
      then Ok (set_requests (<[id := request_decided now status grantedScopes denyReason r]>
                 (tb_requests d)) d, true)
      else Ok (d, false)
  | None => Ok (d, false)
  end.

Definition request_completed (now : Z) (r : RequestRow) : RequestRow :=
  mkRequestRow (rq_client_id r) (rq_redirect_uri r) (rq_state r) (rq_code_challenge r)
    (rq_code_challenge_method r) (rq_resource r) (rq_requested_scopes r) (rq_selected_scopes r)
    (rq_granted_scopes r) (rq_enrollment_code_id r) AuthRequestCompleted (rq_deny_reason r)
    (rq_handle_hash r) (rq_form_token_hash r) (rq_source r) (rq_expires_at_ms r)
    (rq_decided_at_ms r) (Some now) (rq_created_at_ms r) now.

Definition CompleteAuthorizationRequest (id : string) : Tx bool := fun now d =>
  match tb_requests d !! id with
  | Some r =>
      if bool_decide (rq_status r = AuthRequestApproved)
      then Ok (set_requests (<[id := request_completed now r]> (tb_requests d)) d, true)
      else Ok (d, false)
  | None => Ok (d, false)
  end.

(** ** Writes: authorization codes *)

Definition CreateAuthorizationCode (c : AuthorizationCode) : Tx unit := fun now d =>
  match tb_codes d !! co_CodeHash c, tb_requests d !! co_RequestID c with
  | None, Some _ =>
      let row := mkCodeRow (co_RequestID c) (co_ClientID c) (co_RedirectURI c) (co_CodeChallenge c)
        (co_Scopes c) (co_Resource c) (nullString (co_AuthorizationID c))
        (nullInt (co_ConsumedAtMS c)) (co_ExpiresAtMS c)
        (if (co_CreatedAtMS c =? 0)%Z then now else co_CreatedAtMS c) in
      Ok (set_codes (<[co_CodeHash c := row]> (tb_codes d)) d, tt)
  | _, _ => Err ErrAuthzConstraint
  end.

Definition code_consumed (now : Z) (authorizationID : string) (r : CodeRow) : CodeRow :=
  mkCodeRow (cd_request_id r) (cd_client_id r) (cd_redirect_uri r) (cd_code_challenge r)
    (cd_scopes r) (cd_resource r)
    (coalesce (nullString authorizationID) (cd_authorization_id r)) (Some now)
    (cd_expires_at_ms r) (cd_created_at_ms r).

Definition ConsumeAuthorizationCode (hash authorizationID : string) : Tx bool := fun now d =>
  match tb_codes d !! hash with
  | Some r =>
      if bool_decide (cd_consumed_at_ms r = None)
      then Ok (set_codes (<[hash := code_consumed now authorizationID r]> (tb_codes d)) d, true)
      else Ok (d, false)
  | None => Ok (d, false)
  end.
