(* ===== verification/Sessions.v ===== *)
(** * Sessions (internal/authz/service.go, oauth.go, compare.go; the logout of
      internal/api/auth.go)

    Minting, refreshing, exchanging, revoking and authenticating credentials.  An
    operation that first reads and then opens a transaction is two functions, the read
    and the rest, so that other operations can come between them: the seam is where the
    code has it.  Clock readings, fresh random values, the settings and the answer of the
    in-memory token bucket are arguments.  Instants are nanoseconds; a transaction and a
    row have milliseconds. *)

From S2P Require Import Prelude Ids GoStrings Scopes Limits AuthzStore.

(** ** Digests (compare.go)

    A digest is kept in its hex form: a stored hash that was found by its own value is
    well-formed, so comparing the decoded digests is comparing the forms. *)

Section Digests.
Context `{SHA256}.

Definition domainAdminSecret : string := "agent-gm/admin-secret/v1".
Definition domainSecretGeneraton : string := "agent-gm/admin-secret-generation/v1".
Definition domainToken : string := "agent-gm/token/v1".

Definition digest (domain : string) (parts : list string) : string :=
  sha256_hex (String.concat NUL (domain :: parts)).

Definition hashSecret (secret : string) : string := digest domainAdminSecret [secret].
Definition secretGeneration (secret : string) : string := digest domainSecretGeneraton [secret].
Definition tokenHash (audience kind value : string) : string :=
  digest domainToken [audience; kind; value].

Definition equalDigest (presented stored : string) : bool := bool_decide (presented = stored).
End Digests.

(** ** The service *)

Definition MinAdminSecretLength : nat := 43.

Record Service := mkService {
  sv_adminSecretHash : string;
  sv_generation : string;
  sv_audience : string;
}.

(** [strings.TrimRight(s, "/")]. *)
Definition TrimRightSlash (s : string) : string :=
  String.concat "" (reverse ((fix drop l := match l with
    | [] => []
    | p :: l' => if decide (p = "/"%string) then drop l' else l
    end) (reverse (pieces s).*2))).

(** The clock, read where the code reads it: by the limiter's check, by the operation,
    when its transaction opens, by the limiter and the store when a failure is recorded,
    and afterwards. *)
Record Readings := mkReadings {
  rd_check : Z;
  rd_now : Z;
  rd_tx : Z;
  rd_fail : Z;
  rd_store : Z;
  rd_late : Z;
}.

(** Fresh random values: the authorization ID, the family, the two token values. *)
Record Fresh := mkFresh {
  fr_authorization : string;
  fr_family : string;
  fr_access : string;
  fr_refresh : string;
}.

(** The access, idle and absolute lifetimes. *)
Definition TTLs : Type := (Z * Z * Z)%type.

Record Session := mkSession {
  se_AuthorizationID : string;
  se_AccessToken : string;
  se_RefreshToken : string;
  se_Scopes : ScopeSet;
  se_MintedScopes : ScopeSet;
  se_AccessTokenExpiresAt : Z;
  se_RefreshTokenExpiresAt : Z;
  se_Narrowed : bool;
}.

Definition SourceUnknown : string := "unknown".

Definition normalizeSource (source : string) : string :=
  let source := TrimSpace source in
  if decide (source = ""%string) then SourceUnknown else source.

Definition earlier (a b : Z) : Z := if (a <? b)%Z then a else b.

Definition AuditAdminSessionMinted : string := "auth.admin_session_minted".
Definition AuditAdminSessionNarrowed : string := "auth.admin_session_narrowed".
Definition AuditAdminSessionRefreshed : string := "auth.admin_session_refreshed".
Definition AuditAdminSecretFailed : string := "auth.admin_secret_failed".
Definition AuditRefreshTokenReuse : string := "auth.refresh_token_reuse_detected".
Definition AuditRefreshTokenFailed : string := "auth.refresh_token_failed".
Definition AuditAuthorizationRevoked : string := "authorization.revoked".
Definition AuditOAuthTokenIssued : string := "authorization.token_issued".
Definition AuditOAuthTokenRefreshed : string := "authorization.token_refreshed".
Definition AuditOAuthTokenNarrowed : string := "authorization.token_narrowed".
Definition AuditOAuthTokenFailed : string := "authorization.token_failed".

Definition LimitOAuthToken : DurableLimitSpec :=
  mkDurableLimitSpec AttemptKindOAuthToken "oauth_token" 30 0 (15 * Minute) Minute (24 * Hour).

(** [Service.appendStandalone]. *)
Definition appendStandalone (r : Readings) (kind result accountID source : string)
    (fields : list (string * AuditValue)) (d : AuthDB) : AuthDB :=
  (AuthzTx (UnixMilli (rd_late r)) (AppendAudit kind result accountID "" source fields) d).1.

(** [DurableLimiter.RecordFailure] on the tables. *)
Definition record_failure (r : Readings) (spec : DurableLimitSpec) (source : string) (d : AuthDB)
    : AuthDB * Attempt :=
  let '(t, a) := RecordFailure (rd_fail r) (rd_store r) spec source (tb_attempts d) in
  (set_attempts t d, a).

Definition failure_fields (source reason : string) (a : Attempt) : list (string * AuditValue) :=
  [("source", VStr source); ("reason", VStr reason); ("failures_in_window", VInt (att_Failures a));
   ("cooldown_steps", VInt (att_CooldownSteps a)); ("cooldown_until_ms", VInt (att_CooldownUntilMS a))].

Section Sessions.
Context `{SHA256}.

Definition New (adminSecret publicURL : string) : Result AuthzError Service :=
  if (String.length adminSecret <? MinAdminSecretLength)%nat
  then Err (ErrSettings "AGENT_GM_ADMIN_SECRET must be at least 43 characters")
  else
    let public := TrimRightSlash (TrimSpace publicURL) in
    if decide (public = ""%string) then Err (ErrSettings "AGENT_GM_PUBLIC_URL is required")
    else Ok (mkService (hashSecret adminSecret) (secretGeneration adminSecret) (public +:+ "/mcp")).

Definition RevokeSupersededAdminSessions (s : Service) (r : Readings) (d : AuthDB)
    : AuthDB * Result AuthzError (list string) :=
  AuthzTx (UnixMilli (rd_tx r)) (RevokeAdminAuthorizationsFromOtherSecrets (sv_generation s)) d.

(** ** MintAdminSession *)

Definition recordAdminSecretFailure (r : Readings) (source : string) (d : AuthDB)
    : AuthDB * Result AuthzError Session :=
  let '(d1, a) := record_failure r LimitAdminSecret source d in
  let fields :=
    [("source", VStr source); ("failures_in_window", VInt (att_Failures a));
     ("cooldown_steps", VInt (att_CooldownSteps a));
     ("cooldown_until_ms", VInt (att_CooldownUntilMS a));
     ("cooling_down", VBool (UnixMilli (rd_late r) <? att_CooldownUntilMS a)%Z)] in
  (appendStandalone r AuditAdminSecretFailed "refused" "" source fields d1, Err ErrInvalidSecret).

Definition admin_grant (requested : list string) : Result AuthzError (ScopeSet * bool) :=
  let granted := AdminBootstrapScopes in
  match requested with
  | [] => Ok (granted, false)
  | _ =>
      match ParseScopes requested with
      | Err e => Err e
      | Ok req =>
          if Empty req then Err (ErrInvalidScope "an empty scope list grants nothing")
          else if Widens req granted then
            Err (ErrInvalidScope (ScopeSet_string req +:+ " is wider than the admin bootstrap grant " +:+
                                  ScopeSet_string granted))
          else Ok (req, negb (Equal req granted))
      end
  end.

(** The two tokens of one grant. *)
Definition token_pair (s : Service) (f : Fresh) (authID familyID : string) (accessExpiry refreshExpiry : Z)
    : Tx unit :=
  InsertToken (mkToken (tokenHash (sv_audience s) TokenKindAccess (fr_access f)) authID
    TokenKindAccess familyID 0 0 (UnixMilli accessExpiry) 0) ≫= fun _ =>
  InsertToken (mkToken (tokenHash (sv_audience s) TokenKindRefresh (fr_refresh f)) authID
    TokenKindRefresh familyID 0 0 (UnixMilli refreshExpiry) 0).

Definition mint_tx (s : Service) (f : Fresh) (now accessExpiry refreshExpiry deadline : Z)
    (granted : ScopeSet) (narrowed : bool) (source : string) : Tx unit :=
  CreateAuthorization (mkAuthorization (fr_authorization f) AuthKindAdminBootstrap ""
    (ScopeSet_string granted) (ScopeSet_string granted) (sv_generation s) source 0
    (UnixMilli deadline) (UnixMilli now) 0) ≫= fun _ =>
  token_pair s f (fr_authorization f) (fr_family f) accessExpiry refreshExpiry ≫= fun _ =>
  AppendAudit AuditAdminSessionMinted "ok" "" (fr_authorization f) source
    [("authorization_id", VStr (fr_authorization f)); ("source", VStr source);
     ("scopes", VList (List granted)); ("narrowed", VBool narrowed)].

Definition MintAdminSession (s : Service) (r : Readings) (f : Fresh) (ttls : Result AuthzError TTLs)
    (presentedSecret : string) (requestedScopes : list string) (source : string) (d : AuthDB)
    : AuthDB * Result AuthzError Session :=
  let source := normalizeSource source in
  match Check (rd_check r) LimitAdminSecret source (tb_attempts d) with
  | Some e => (d, Err e)
  | None =>
      if negb (equalDigest (hashSecret presentedSecret) (sv_adminSecretHash s))
      then recordAdminSecretFailure r source d
      else
        match admin_grant requestedScopes with
        | Err e => (d, Err e)
        | Ok (granted, narrowed) =>
            match ttls with
            | Err e => (d, Err e)
            | Ok (accessTTL, idleTTL, absoluteTTL) =>
                let now := rd_now r in
                let deadline := (now + absoluteTTL)%Z in
                let refreshExpiry := earlier (now + idleTTL)%Z deadline in
                let accessExpiry := (now + accessTTL)%Z in
                match AuthzTx (UnixMilli (rd_tx r))
                        (mint_tx s f now accessExpiry refreshExpiry deadline granted narrowed source) d with
                | (d', Err e) => (d', Err e)
                | (d', Ok _) =>
                    (d', Ok (mkSession (fr_authorization f) (fr_access f) (fr_refresh f) granted granted
                               accessExpiry refreshExpiry narrowed))
                end
            end
        end
  end.

(** ** refreshSession *)

Record refreshParams := mkRefreshParams {
  rp_PresentedToken : string;
  rp_RequestedScopes : list string;
  rp_Source : string;
  rp_Kind : string;
  rp_Limit : DurableLimitSpec;
  rp_TTLs : Result AuthzError TTLs;
  rp_ClientID : string;
  rp_AuditRefreshed : string;
  rp_AuditNarrowed : string;
  rp_AuditFailed : string;
  rp_WrongKind : AuthzError;
}.

(** [Service.Refresh] and [Service.RefreshOAuth]. *)
Definition Refresh (ttls : Result AuthzError TTLs) (presented : string) (requested : list string)
    (source : string) : refreshParams :=
  mkRefreshParams presented requested source AuthKindAdminBootstrap LimitRefreshToken ttls ""
    AuditAdminSessionRefreshed AuditAdminSessionNarrowed AuditRefreshTokenFailed ErrTokenUnknown.

Definition RefreshOAuth (ttls : Result AuthzError TTLs) (presented clientID : string)
    (requested : list string) (source : string) : refreshParams :=
  mkRefreshParams presented requested source AuthKindOAuth LimitOAuthToken ttls clientID
    AuditOAuthTokenRefreshed AuditOAuthTokenNarrowed AuditOAuthTokenFailed ErrInvalidGrant.

(** What the reads decide: an error, a failure to record, a reuse, or a rotation. *)
Record RefreshDecision := mkRefreshDecision {
  de_hash : string;
  de_auth : Authorization;
  de_current : ScopeSet;
  de_minted : ScopeSet;
  de_next : ScopeSet;
  de_narrowed : bool;
  de_accessExpiry : Z;
  de_refreshExpiry : Z;
}.

Inductive RefreshRead : Type :=
| RefreshErr (e : AuthzError)
| RefreshFail (reason : string) (refusal : AuthzError)
| RefreshReuse (row : Token)
| RefreshRotate (dec : RefreshDecision).

Definition requested_scopes (current minted : ScopeSet) (raw : list string)
    : Result AuthzError (ScopeSet * bool) :=
  match raw with
  | [] => Ok (current, false)
  | _ =>
      match ParseScopes raw with
      | Err e => Err e
      | Ok req =>
          if Empty req then Err (ErrInvalidScope "an empty scope list grants nothing")
          else if Widens req minted || Widens req current then
            Err (ErrInvalidScope (ScopeSet_string req +:+ " widens the session, which holds " +:+
              ScopeSet_string current +:+ " and was minted with " +:+ ScopeSet_string minted))
          else Ok (req, negb (Equal req current))
      end
  end.

(** The token is live and its authorization is in order: the scopes and the expiries. *)
Definition refresh_decide (p : refreshParams) (now : Z) (hash : string) (auth : Authorization)
    : RefreshRead :=
  match ParseScopeString (au_Scopes auth), ParseScopeString (au_MintedScopes auth) with
  | Err e, _ => RefreshErr e
  | _, Err e => RefreshErr e
  | Ok current, Ok minted =>
      match requested_scopes current minted (rp_RequestedScopes p) with
      | Err e => RefreshErr e
      | Ok (next, narrowed) =>
          match rp_TTLs p with
          | Err e => RefreshErr e
          | Ok (accessTTL, idleTTL, _) =>
              let refreshExpiry := (now + idleTTL)%Z in
              let refreshExpiry :=
                if (au_ExpiresAtMS auth =? 0)%Z then refreshExpiry
                else earlier refreshExpiry (au_ExpiresAtMS auth * Millisecond)%Z in
              RefreshRotate (mkRefreshDecision hash auth current minted next narrowed
                               (now + accessTTL)%Z refreshExpiry)
          end
      end
  end.

(** [allow] is the answer of the token bucket. *)
Definition refresh_read (s : Service) (p : refreshParams) (allow : option AuthzError) (r : Readings)
    (d : AuthDB) : RefreshRead :=
  let source := normalizeSource (rp_Source p) in
  match allow with
  | Some e => RefreshErr e
  | None =>
  match Check (rd_check r) (rp_Limit p) source (tb_attempts d) with
  | Some e => RefreshErr e
  | None =>
  let hash := tokenHash (sv_audience s) TokenKindRefresh (rp_PresentedToken p) in
  match TokenByHash hash d with
  | Err _ => RefreshFail "unknown" ErrTokenUnknown
  | Ok row =>
  if negb (equalDigest hash (to_TokenHash row)) then RefreshFail "unknown" ErrTokenUnknown
  else
    let now := rd_now r in
    if to_Revoked row then RefreshFail "revoked" ErrTokenRevoked
    else if (to_ExpiresAtMS row <=? UnixMilli now)%Z then RefreshFail "expired" ErrTokenExpired
    else if to_Spent row then RefreshReuse row
    else
      match ReadAuthorization (to_AuthorizationID row) d with
      | Err e => RefreshErr e
      | Ok auth =>
          if negb (bool_decide (au_Kind auth = rp_Kind p))
          then RefreshFail "wrong_credential_path" (rp_WrongKind p)
          else if negb (bool_decide (rp_ClientID p = ""%string)) &&
                  negb (bool_decide (au_Client auth = rp_ClientID p))
          then RefreshFail "wrong_client" (rp_WrongKind p)
          else if au_Revoked auth then RefreshFail "revoked" ErrTokenRevoked
          else if negb (au_ExpiresAtMS auth =? 0)%Z && (au_ExpiresAtMS auth <=? UnixMilli now)%Z
          then RefreshFail "expired" ErrTokenExpired
          else refresh_decide p now hash auth
      end
  end end end.

Definition revokeFamilyTx (authorizationID familyID source : string) : Tx unit :=
  RevokeTokenFamily familyID ≫= fun tokens =>
  RevokeAuthorization authorizationID ≫= fun _ =>
  RevokeTokensForAuthorization authorizationID ≫= fun more =>
  AppendAudit AuditRefreshTokenReuse "refused" "" authorizationID source
    [("authorization_id", VStr authorizationID); ("source", VStr source);
     ("tokens_revoked", VInt (tokens + more)%Z)].

(** The transaction of a rotation: [true] when the token was spent or revoked since. *)
Definition rotate_tx (s : Service) (p : refreshParams) (f : Fresh) (dec : RefreshDecision) : Tx bool :=
  let source := normalizeSource (rp_Source p) in
  let id := au_ID (de_auth dec) in
  let scopes_before := ("scopes_before", VList (List (de_current dec))) in
  let scopes_after := ("scopes_after", VList (List (de_next dec))) in
  tx_read (TokenByHash (de_hash dec)) ≫= fun cur =>
  if to_Spent cur || to_Revoked cur
  then revokeFamilyTx id (to_FamilyID cur) source ≫= fun _ => mret true
  else
    SpendToken (de_hash dec) ≫= fun _ =>
    token_pair s f id (to_FamilyID cur) (de_accessExpiry dec) (de_refreshExpiry dec) ≫= fun _ =>
    (if de_narrowed dec
     then SetAuthorizationScopes id (ScopeSet_string (de_next dec)) ≫= fun _ =>
          AppendAudit (rp_AuditNarrowed p) "ok" "" id source
            [("authorization_id", VStr id); ("source", VStr source); scopes_before; scopes_after]
     else mret tt) ≫= fun _ =>
    AppendAudit (rp_AuditRefreshed p) "ok" "" id source
      [("authorization_id", VStr id); ("source", VStr source); scopes_before; scopes_after;
       ("narrowed", VBool (de_narrowed dec))] ≫= fun _ =>
    mret false.

Definition recordRefreshFailure (p : refreshParams) (r : Readings) (source reason : string)
    (refusal : AuthzError) (d : AuthDB) : AuthDB * Result AuthzError Session :=
  let '(d1, a) := record_failure r (rp_Limit p) source d in
  (appendStandalone r (rp_AuditFailed p) "refused" "" source (failure_fields source reason a) d1,
   Err refusal).

Definition detectReuse (p : refreshParams) (r : Readings) (source : string) (row : Token) (d : AuthDB)
    : AuthDB * Result AuthzError Session :=
  match AuthzTx (UnixMilli (rd_tx r))
          (revokeFamilyTx (to_AuthorizationID row) (to_FamilyID row) source) d with
  | (d1, Err e) => (d1, Err e)
  | (d1, Ok _) => ((record_failure r (rp_Limit p) source d1).1, Err ErrTokenReused)
  end.

Definition refresh_finish (s : Service) (p : refreshParams) (f : Fresh) (r : Readings)
    (rr : RefreshRead) (d : AuthDB) : AuthDB * Result AuthzError Session :=
  let source := normalizeSource (rp_Source p) in
  match rr with
  | RefreshErr e => (d, Err e)
  | RefreshFail reason refusal => recordRefreshFailure p r source reason refusal d
  | RefreshReuse row => detectReuse p r source row d
  | RefreshRotate dec =>
      match AuthzTx (UnixMilli (rd_tx r)) (rotate_tx s p f dec) d with
      | (d', Err e) => (d', Err e)
      | (d', Ok true) => (d', Err ErrTokenReused)
      | (d', Ok false) =>
          (d', Ok (mkSession (au_ID (de_auth dec)) (fr_access f) (fr_refresh f) (de_next dec)
                     (de_minted dec) (de_accessExpiry dec) (de_refreshExpiry dec) (de_narrowed dec)))
      end
  end.

(** Nothing between the reads and the transaction. *)
Definition refreshSession (s : Service) (p : refreshParams) (allow : option AuthzError) (f : Fresh)
    (r : Readings) (d : AuthDB) : AuthDB * Result AuthzError Session :=
  refresh_finish s p f r (refresh_read s p allow r d) d.

(** ** ExchangeAuthorizationCode *)

Definition recordOAuthFailure (r : Readings) (source reason : string) (refusal : AuthzError)
    (d : AuthDB) : AuthDB * Result AuthzError Session :=
  let '(d1, a) := record_failure r LimitOAuthToken source d in
  (appendStandalone r AuditOAuthTokenFailed "refused" "" source (failure_fields source reason a) d1,
   Err refusal).

(** [Verify] answers the caller's refusal, if any. *)
Record CodeExchange := mkCodeExchange {
  ce_CodeHash : string;
  ce_ClientID : string;
  ce_Source : string;
  ce_Verify : AuthorizationCode -> option AuthzError;
}.

Inductive ExchangeRead : Type :=
| ExchangeErr (e : AuthzError)
| ExchangeFail (reason : string) (refusal : AuthzError)
| ExchangeReplay (code : AuthorizationCode)
| ExchangeUnbound (code : AuthorizationCode) (refusal : AuthzError)
| ExchangeMint (code : AuthorizationCode) (scopes : ScopeSet) (accessExpiry refreshExpiry deadline now : Z).

Definition code_scopes (code : AuthorizationCode) : Result AuthzError ScopeSet :=
  match ParseScopeString (co_Scopes code) with
  | Err e => Err e
  | Ok scopes =>
      if Empty scopes then Err ErrInvalidGrant
      else if Has scopes ScopeAdmin
      then Err (ErrInvalidScope "an OAuth authorization can never hold admin")
      else Ok scopes
  end.

Definition exchange_read (i : CodeExchange) (ttls : Result AuthzError TTLs) (allow : option AuthzError)
    (r : Readings) (d : AuthDB) : ExchangeRead :=
  let source := normalizeSource (ce_Source i) in
  match allow with
  | Some e => ExchangeErr e
  | None =>
  match Check (rd_check r) LimitOAuthToken source (tb_attempts d) with
  | Some e => ExchangeErr e
  | None =>
  match AuthorizationCodeByHash (ce_CodeHash i) d with
  | Err _ => ExchangeFail "unknown_code" ErrInvalidGrant
  | Ok code =>
      let now := rd_now r in
      if co_Consumed code then ExchangeReplay code
      else if (co_ExpiresAtMS code <=? UnixMilli now)%Z then ExchangeFail "expired_code" ErrInvalidGrant
      else
        match ce_Verify i code with
        | Some refusal => ExchangeUnbound code refusal
        | None =>
            match code_scopes code, ttls with
            | Err e, _ => ExchangeErr e
            | _, Err e => ExchangeErr e
            | Ok scopes, Ok (accessTTL, idleTTL, absoluteTTL) =>
                let deadline := (now + absoluteTTL)%Z in
                ExchangeMint code scopes (now + accessTTL)%Z (earlier (now + idleTTL)%Z deadline)
                  deadline now
            end
        end
  end end end.

(** The code's tokens, if its first exchange made any. *)
Definition replay_tx (source : string) (code : AuthorizationCode) : Tx unit :=
  RevokeTokensForAuthorization (co_AuthorizationID code) ≫= fun revoked =>
  RevokeAuthorization (co_AuthorizationID code) ≫= fun _ =>
  AppendAudit AuditAuthorizationRevoked "refused" "" (co_AuthorizationID code) source
    [("authorization_id", VStr (co_AuthorizationID code)); ("client_id", VStr (co_ClientID code));
     ("request_id", VStr (co_RequestID code)); ("reason", VStr "authorization_code_replayed");
     ("tokens_revoked", VInt revoked); ("source", VStr source)].

Definition revokeAfterReplay (r : Readings) (source : string) (code : AuthorizationCode) (d : AuthDB)
    : AuthDB * Result AuthzError Session :=
  let '(d1, res) :=
    if decide (co_AuthorizationID code = ""%string) then (d, Ok tt)
    else AuthzTx (UnixMilli (rd_tx r)) (replay_tx source code) d in
  match res with
  | Err e => (d1, Err e)
  | Ok _ => ((record_failure r LimitOAuthToken source d1).1, Err ErrGrantReplayed)
  end.

(** A failed binding check consumes the code. *)
Definition unbound_tx (source : string) (code : AuthorizationCode) : Tx unit :=
  ConsumeAuthorizationCode (co_CodeHash code) "" ≫= fun _ =>
  AppendAudit AuditOAuthTokenFailed "refused" "" "" source
    [("request_id", VStr (co_RequestID code)); ("client_id", VStr (co_ClientID code));
     ("reason", VStr "binding_check_failed"); ("source", VStr source)].

(** The transaction of an exchange: [true] when the code was consumed since. *)
Definition exchange_tx (s : Service) (f : Fresh) (code : AuthorizationCode) (scopes : ScopeSet)
    (accessExpiry refreshExpiry deadline now : Z) (source : string) : Tx bool :=
  let authID := fr_authorization f in
  ConsumeAuthorizationCode (co_CodeHash code) authID ≫= fun ok : bool =>
  if negb ok then mret true
  else
    CreateAuthorization (mkAuthorization authID AuthKindOAuth (co_ClientID code)
      (ScopeSet_string scopes) (ScopeSet_string scopes) "" source 0 (UnixMilli deadline)
      (UnixMilli now) 0) ≫= fun _ =>
    token_pair s f authID (fr_family f) accessExpiry refreshExpiry ≫= fun _ =>
    AppendAudit AuditOAuthTokenIssued "ok" "" authID source
      [("authorization_id", VStr authID); ("client_id", VStr (co_ClientID code));
       ("request_id", VStr (co_RequestID code)); ("scopes", VList (List scopes));
       ("source", VStr source)] ≫= fun _ =>
    mret false.

Definition exchange_finish (s : Service) (i : CodeExchange) (f : Fresh) (r : Readings)
    (er : ExchangeRead) (d : AuthDB) : AuthDB * Result AuthzError Session :=
  let source := normalizeSource (ce_Source i) in
  match er with
  | ExchangeErr e => (d, Err e)
  | ExchangeFail reason refusal => recordOAuthFailure r source reason refusal d
  | ExchangeReplay code => revokeAfterReplay r source code d
  | ExchangeUnbound code refusal =>
      match AuthzTx (UnixMilli (rd_tx r)) (unbound_tx source code) d with
      | (d1, Err e) => (d1, Err e)
      | (d1, Ok _) => ((record_failure r LimitOAuthToken source d1).1, Err refusal)
      end
  | ExchangeMint code scopes accessExpiry refreshExpiry deadline now =>
      match AuthzTx (UnixMilli (rd_tx r))
              (exchange_tx s f code scopes accessExpiry refreshExpiry deadline now source) d with
      | (d1, Err e) => (d1, Err e)
      | (d1, Ok true) =>
          match AuthorizationCodeByHash (ce_CodeHash i) d1 with
          | Err _ => recordOAuthFailure r source "unknown_code" ErrInvalidGrant d1
          | Ok fresh => revokeAfterReplay r source fresh d1
          end
      | (d1, Ok false) =>
          (d1, Ok (mkSession (fr_authorization f) (fr_access f) (fr_refresh f) scopes scopes
                     accessExpiry refreshExpiry false))
      end
  end.

(** ** Revocation *)

Definition revokeAuthorization (id reason source : string) : Tx unit :=
  RevokeTokensForAuthorization id ≫= fun n =>
  RevokeAuthorization id ≫= fun _ =>
  AppendAudit AuditAuthorizationRevoked "ok" "" id source
    [("authorization_id", VStr id); ("reason", VStr reason); ("tokens_revoked", VInt n);
     ("source", VStr source)].

Inductive RevokeRead : Type :=
| RevokeErr (e : AuthzError)
| RevokeNothing
| RevokeIgnored
| RevokeGrant (id : string).

Fixpoint revoke_scan (s : Service) (presented clientID : string) (kinds : list string) (d : AuthDB)
    : RevokeRead :=
  match kinds with
  | [] => RevokeNothing
  | kind :: kinds' =>
      let hash := tokenHash (sv_audience s) kind presented in
      match TokenByHash hash d with
      | Err _ => revoke_scan s presented clientID kinds' d
      | Ok row =>
          if negb (equalDigest hash (to_TokenHash row)) then revoke_scan s presented clientID kinds' d
          else
            match ReadAuthorization (to_AuthorizationID row) d with
            | Err _ => revoke_scan s presented clientID kinds' d
            | Ok auth =>
                if negb (bool_decide (au_Kind auth = AuthKindOAuth))
                then revoke_scan s presented clientID kinds' d
                else if negb (bool_decide (au_Client auth = clientID))
                then revoke_scan s presented clientID kinds' d
                else if au_Revoked auth then RevokeIgnored
                else RevokeGrant (au_ID auth)
            end
      end
  end.

Definition revoke_read (s : Service) (presented clientID source : string) (allow : option AuthzError)
    (r : Readings) (d : AuthDB) : RevokeRead :=
  match allow with
  | Some e => RevokeErr e
  | None =>
      match Check (rd_check r) LimitOAuthToken (normalizeSource source) (tb_attempts d) with
      | Some e => RevokeErr e
      | None =>
          if decide (TrimSpace clientID = ""%string) then RevokeNothing
          else revoke_scan s presented clientID [TokenKindAccess; TokenKindRefresh] d
      end
  end.

(** [POST /oauth/revoke] answers an error or nothing. *)
Definition revoke_finish (r : Readings) (source : string) (rr : RevokeRead) (d : AuthDB)
    : AuthDB * Result AuthzError unit :=
  let source := normalizeSource source in
  match rr with
  | RevokeErr e => (d, Err e)
  | RevokeNothing => ((record_failure r LimitOAuthToken source d).1, Ok tt)
  | RevokeIgnored => (d, Ok tt)
  | RevokeGrant id => AuthzTx (UnixMilli (rd_tx r)) (revokeAuthorization id "token_revoked" source) d
  end.

(** The owner's revocation. *)
Definition OwnerRevoke (r : Readings) (id reason source : string) (d : AuthDB)
    : AuthDB * Result AuthzError unit :=
  match ReadAuthorization id d with
  | Err e => (d, Err e)
  | Ok _ => AuthzTx (UnixMilli (rd_tx r)) (revokeAuthorization id reason (normalizeSource source)) d
  end.

(** [POST /v1/auth/logout]. *)
Definition authLogout (r : Readings) (id : string) (d : AuthDB) : AuthDB * Result AuthzError Z :=
  AuthzTx (UnixMilli (rd_tx r))
    (RevokeTokensForAuthorization id ≫= fun n => RevokeAuthorization id ≫= fun _ => mret n) d.

(** ** Authenticate *)

Record Caller := mkCaller {
  ca_ID : string;
  ca_Kind : string;
  ca_Scopes : ScopeSet;
  ca_MintedScopes : ScopeSet;
  ca_Source : string;
  ca_ExpiresAt : option Z;
}.

Definition Authenticate (s : Service) (now : Z) (presented : string) (d : AuthDB)
    : Result AuthzError Caller :=
  if decide (TrimSpace presented = ""%string) then Err ErrTokenAbsent
  else
    let hash := tokenHash (sv_audience s) TokenKindAccess presented in
    match TokenByHash hash d with
    | Err _ => Err ErrTokenUnknown
    | Ok row =>
        if negb (equalDigest hash (to_TokenHash row)) then Err ErrTokenUnknown
        else if to_Revoked row then Err ErrTokenRevoked
        else if (to_ExpiresAtMS row <=? UnixMilli now)%Z then Err ErrTokenExpired
        else
          match ReadAuthorization (to_AuthorizationID row) d with
          | Err _ => Err ErrTokenUnknown
          | Ok auth =>
              if au_Revoked auth then Err ErrTokenRevoked
              else if negb (au_ExpiresAtMS auth =? 0)%Z && (au_ExpiresAtMS auth <=? UnixMilli now)%Z
              then Err ErrTokenExpired
              else
                scopes ← ParseScopeString (au_Scopes auth);
                minted ← ParseScopeString (au_MintedScopes auth);
                Ok (mkCaller (au_ID auth) (au_Kind auth) scopes minted (au_Source auth)
                      (if (au_ExpiresAtMS auth =? 0)%Z then None
                       else Some (au_ExpiresAtMS auth * Millisecond)%Z))
          end
    end.

(** [Authorization.Require]; no caller is [None]. *)
Definition Require_ (c : option Caller) (scope : string) : option AuthzError :=
  match c with
  | None => Some ErrTokenAbsent
  | Some c => if Has (ca_Scopes c) scope then None else Some (ErrInsufficientScope scope)
  end.
End Sessions.
