(* ===== verification/Grants.v ===== *)
(** * The grant pipeline (internal/oauth/admin.go, authorize_post.go, requests.go,
      token.go, register.go, errors.go)

    How a client comes by an authorization code: the owner issues an enrollment code with
    a scope ceiling, the browser submits it with a selection, the owner approves, the
    browser completes, the client exchanges.  As in Sessions.v a handler is the read and
    the rest.  The checks of the browser (origin, cookie, signed context, form token and
    echoes), the match of a redirect URI and PKCE's digest are arguments. *)

From S2P Require Import Prelude Ids GoStrings Scopes Limits AuthzStore Sessions.

(** ** OAuth errors (errors.go) *)

Record oauthError := mkOauthError {
  oe_Status : Z;
  oe_Code : string;
  oe_Description : string;
  oe_RetryAfter : Z;
}.

Definition badRequest (code description : string) : oauthError := mkOauthError 400 code description 0.
Definition statusError (status : Z) (code description : string) : oauthError :=
  mkOauthError status code description 0.

(** A credential refusal at an OAuth endpoint.  The wait is in seconds. *)
Definition translate (e : AuthzError) : oauthError :=
  match e with
  | RateLimited _ secs =>
      mkOauthError 429 "temporarily_unavailable" "too many attempts; retry later" secs
  | ErrInvalidScope _ => badRequest "invalid_scope" "the requested scope is not available"
  | ErrGrantReplayed | ErrInvalidGrant | ErrTokenUnknown | ErrTokenExpired | ErrTokenRevoked
  | ErrTokenReused | ErrTokenAbsent => badRequest "invalid_grant" "the grant is not valid"
  | _ => statusError 500 "server_error" "the request could not be completed"
  end.

(** [Error()] of the errors that [ParseScopes] makes. *)
Definition scope_error_text (e : AuthzError) : string :=
  match e with ErrInvalidScope m => "invalid_scope: " +:+ m | _ => "" end.

(** The refusals of the admin routes: the code and the text of an [apierr.Error]. *)
Inductive AdminError : Type :=
| AdminNotFound (what : string)
| AdminConflict (text : string)
| AdminInvalid (field text : string)
| AdminInternal (text : string).

Definition LimitEnrollmentSource : DurableLimitSpec :=
  mkDurableLimitSpec "enrollment_code_source" "enrollment_code" 10 0 (15 * Minute) Minute (24 * Hour).
Definition LimitEnrollmentContext : DurableLimitSpec :=
  mkDurableLimitSpec "enrollment_code_context" "enrollment_code" 10 0 (15 * Minute) Minute (24 * Hour).

(** ** Enrollment codes (admin.go) *)

Definition DefaultEnrollmentCeiling : list string := [ScopeMessagesRead; ScopeMessagesWrite].

Fixpoint extend_ceiling (set : ScopeSet) (extras : list string) : Result AdminError ScopeSet :=
  match extras with
  | [] => Ok set
  | extra :: extras' =>
      match ParseScopes [extra] with
      | Err e => Err (AdminInvalid "allow_scopes" (scope_error_text e))
      | Ok more => extend_ceiling (NewScopeSet (List set ++ List more)) extras'
      end
  end.

Definition enrollmentCeiling (scopes allowScopes : list string) : Result AdminError ScopeSet :=
  let base := match scopes with [] => DefaultEnrollmentCeiling | _ => scopes end in
  match ParseScopes base with
  | Err e => Err (AdminInvalid "scopes" (scope_error_text e))
  | Ok set =>
      match extend_ceiling set allowScopes with
      | Err e => Err e
      | Ok set =>
          if Empty set then Err (AdminInvalid "scopes" "an empty ceiling grants nothing")
          else if Has set ScopeAdmin then
            Err (AdminInvalid "scopes"
              "admin can never be enrolled; the only way to hold it is AGENT_GM_ADMIN_SECRET")
          else Ok set
      end
  end.

(** [id] and [hash] are the fresh ID and the digest of the fresh code, [ttl] the answer of
    [enrollmentTTL]. *)
Definition IssueEnrollmentCode (label : string) (scopes allowScopes : list string)
    (ttl : Result AdminError Z) (id hash source : string) (r : Readings) (d : AuthDB)
    : AuthDB * Result AdminError EnrollmentCode :=
  let label := TrimSpace label in
  if decide (label = ""%string)
  then (d, Err (AdminInvalid "label" "a label is required so the owner can tell codes apart"))
  else
    match scopes, allowScopes with
    | _ :: _, _ :: _ =>
        (d, Err (AdminInvalid "scopes"
           "scopes and allow_scopes are mutually exclusive: scopes replaces the default ceiling, allow_scopes extends it"))
    | _, _ =>
        match enrollmentCeiling scopes allowScopes, ttl with
        | Err e, _ => (d, Err e)
        | _, Err e => (d, Err e)
        | Ok ceiling, Ok ttl =>
            let row := mkEnrollmentCode id hash label (ScopeSet_string ceiling)
              (UnixMilli (rd_now r + ttl)) 0 "" 0 "" (UnixMilli (rd_now r)) 0 in
            match AuthzTx (UnixMilli (rd_tx r))
                    (CreateEnrollmentCode row ≫= fun _ =>
                     AppendAudit "enrollment.created" "ok" "" "" source
                       [("enrollment_code_id", VStr id); ("label", VStr label);
                        ("scopes", VList (List ceiling)); ("expires_at_ms", VInt (en_ExpiresAtMS row))]) d with
            | (d', Err _) => (d', Err (AdminInternal "the code could not be recorded"))
            | (d', Ok _) => (d', Ok row)
            end
        end
    end.

Definition OwnerRevokeEnrollment (r : Readings) (id reason source : string) (d : AuthDB)
    : AuthDB * Result AdminError bool :=
  match tb_enrollments d !! id with
  | None => (d, Err (AdminNotFound "enrollment code"))
  | Some _ =>
      match AuthzTx (UnixMilli (rd_tx r))
              (RevokeEnrollmentCode id reason ≫= fun ok : bool =>
               (if ok then AppendAudit "enrollment.revoked" "ok" "" "" source
                             [("enrollment_code_id", VStr id); ("reason", VStr reason)]
                else mret tt) ≫= fun _ => mret ok) d with
      | (d', Err _) => (d', Err (AdminInternal "the revocation could not be recorded"))
      | (d', Ok ok) => (d', Ok ok)
      end
  end.

(** ** The submission of the authorization page (authorize_post.go) *)

Record contextPayload := mkContextPayload {
  cx_HandleHash : string;
  cx_ClientID : string;
  cx_RedirectURI : string;
  cx_State : string;
  cx_Challenge : string;
  cx_Method : string;
  cx_Resource : string;
  cx_Scopes : list string;
}.

Inductive SubmitRead : Type :=
| SubmitRefused (e : oauthError)
| SubmitGeneric
| SubmitAbove (ceiling : ScopeSet)
| SubmitCreate (clientID : string) (selected : ScopeSet) (enrollment : EnrollmentCode).

Definition enrollmentUsable (now : Z) (code : EnrollmentCode) : bool :=
  if en_Revoked code || en_Consumed code then false
  else negb (en_ExpiresAtMS code <=? UnixMilli now)%Z.

Section Grants.
Context `{SHA256} (match_redirect : list string -> string -> bool).

(** [browser] is the answer of the checks of the browser; [hash] the presented code's. *)
Definition submit_read (browser : option oauthError) (ctx : contextPayload) (selected_raw : list string)
    (hash source : string) (r : Readings) (d : AuthDB) : SubmitRead :=
  match Check (rd_check r) LimitEnrollmentSource source (tb_attempts d) with
  | Some e => SubmitRefused (translate e)
  | None =>
  match browser with
  | Some e => SubmitRefused e
  | None =>
  match tb_clients d !! cx_ClientID ctx with
  | None => SubmitRefused (badRequest "invalid_client" "unknown client_id")
  | Some client =>
  if negb (match_redirect (cl_redirect_uris client) (cx_RedirectURI ctx))
  then SubmitRefused (badRequest "invalid_redirect_uri" "redirect_uri is not registered for this client")
  else
  match ParseScopes (cx_Scopes ctx) with
  | Err _ => SubmitRefused (badRequest "invalid_scope" "the requested scope is not valid")
  | Ok requested =>
  let refused := SubmitRefused (badRequest "invalid_scope"
                   "choose at least one of the scopes this client asked for") in
  match ParseScopes selected_raw with
  | Err _ => refused
  | Ok selected =>
  if Empty selected || Widens selected requested then refused
  else
  match Check (rd_check r) LimitEnrollmentContext (cx_HandleHash ctx) (tb_attempts d) with
  | Some e => SubmitRefused (translate e)
  | None =>
  match EnrollmentCodeByHash hash d with
  | None => SubmitGeneric
  | Some code =>
  if negb (enrollmentUsable (rd_now r) code) then SubmitGeneric
  else
    match ParseScopeString (en_Scopes code) with
    | Err _ => SubmitRefused (statusError 500 "server_error" "the code could not be checked")
    | Ok ceiling =>
        if Widens selected ceiling then SubmitAbove ceiling
        else SubmitCreate (cx_ClientID ctx) selected code
    end
  end end end end end end end.

(** The transaction of [createPendingRequest]: [false] when the code was redeemed or
    revoked since. *)
Definition pending_tx (id : string) (ctx : contextPayload) (selected : ScopeSet)
    (enrollment : EnrollmentCode) (formTokenHash source : string) (now ttl : Z) : Tx bool :=
  ConsumeEnrollmentCode (en_ID enrollment) id ≫= fun ok : bool =>
  if negb ok then mret false
  else
    CreateAuthorizationRequest (mkAuthorizationRequest id (cx_ClientID ctx) (cx_RedirectURI ctx)
      (cx_State ctx) (cx_Challenge ctx) (cx_Method ctx) (cx_Resource ctx)
      (String.concat " " (cx_Scopes ctx)) (ScopeSet_string selected) "" (en_ID enrollment)
      AuthRequestPending "" (cx_HandleHash ctx) formTokenHash source (UnixMilli (now + ttl)) 0 0
      (UnixMilli now) 0) ≫= fun _ =>
    ActivateOAuthClient (cx_ClientID ctx) ≫= fun _ =>
    AppendAudit "enrollment.consumed" "ok" "" "" source
      [("enrollment_code_id", VStr (en_ID enrollment)); ("label", VStr (en_Label enrollment));
       ("request_id", VStr id)] ≫= fun _ =>
    AppendAudit "authorization.created" "ok" "" "" source
      [("request_id", VStr id); ("client_id", VStr (cx_ClientID ctx));
       ("requested_scopes", VList (cx_Scopes ctx)); ("selected_scopes", VList (List selected))] ≫= fun _ =>
    mret true.

(** The page the browser is shown, or the request it is redirected to. *)
Inductive SubmitAnswer : Type :=
| AnswerError (e : oauthError)
| AnswerPage (message : string)
| AnswerRedirect (requestID : string).

Definition GenericEnrollmentFailure : string :=
  "That enrollment code was not accepted. Check it and try again, or ask the owner for a new one.".

Definition submit_finish (ctx : contextPayload) (id formTokenHash source : string)
    (ttl : Result AuthzError Z) (r : Readings) (sr : SubmitRead) (d : AuthDB) : AuthDB * SubmitAnswer :=
  match sr with
  | SubmitRefused e => (d, AnswerError e)
  | SubmitGeneric =>
      let d1 := (record_failure r LimitEnrollmentSource source d).1 in
      let d2 := (record_failure r LimitEnrollmentContext (cx_HandleHash ctx) d1).1 in
      (d2, AnswerPage GenericEnrollmentFailure)
  | SubmitAbove ceiling =>
      (d, AnswerPage ("That code allows " +:+ ScopeSet_string ceiling +:+ ". Choose within it."))
  | SubmitCreate _ selected enrollment =>
      let ttl := match ttl with Ok t => t | Err _ => (15 * Minute)%Z end in
      match AuthzTx (UnixMilli (rd_tx r))
              (pending_tx id ctx selected enrollment formTokenHash source (rd_now r) ttl) d with
      | (d', Err _) => (d', AnswerError (statusError 500 "server_error"
                                           "the authorization could not be recorded"))
      | (d', Ok false) => (d', AnswerError (badRequest "invalid_request" GenericEnrollmentFailure))
      | (d', Ok true) => (d', AnswerRedirect id)
      end
  end.

(** ** The owner's decision (admin.go) *)

(** [scopes] absent is [None]: do not narrow. *)
Definition approved_scopes (selected : ScopeSet) (scopes : option (list string))
    : Result AdminError ScopeSet :=
  match scopes with
  | None => Ok selected
  | Some [] => Err (AdminInvalid "scopes" "an empty scope list grants nothing; deny the request instead")
  | Some raw =>
      match ParseScopes raw with
      | Err e => Err (AdminInvalid "scopes" (scope_error_text e))
      | Ok requested =>
          if Empty requested
          then Err (AdminInvalid "scopes" "an empty scope list grants nothing; deny the request instead")
          else if Widens requested selected
          then Err (AdminInvalid "scopes" ("scopes may only narrow what the browser selected (" +:+
                                            ScopeSet_string selected +:+ ")"))
          else Ok requested
      end
  end.

Definition approve_read (id : string) (scopes : option (list string)) (r : Readings) (d : AuthDB)
    : Result AdminError (AuthorizationRequest * ScopeSet * ScopeSet) :=
  match AuthorizationRequestByID id d with
  | None => Err (AdminNotFound "authorization request")
  | Some row =>
      if negb (bool_decide (re_Status row = AuthRequestPending))
      then Err (AdminConflict ("this request is " +:+ re_Status row +:+ " and can no longer be decided"))
      else if (re_ExpiresAtMS row <=? UnixMilli (rd_now r))%Z
      then Err (AdminInvalid "id" "this request expired before it was approved; the client must start again")
      else
        match ParseScopeString (re_SelectedScopes row) with
        | Err _ => Err (AdminInternal "the request's scopes are unreadable")
        | Ok selected =>
            match approved_scopes selected scopes with
            | Err e => Err e
            | Ok granted => Ok (row, selected, granted)
            end
        end
  end.

Definition decide_tx (id status granted denyReason kind source : string)
    (payload : list (string * AuditValue)) : Tx bool :=
  DecideAuthorizationRequest id status granted denyReason ≫= fun ok : bool =>
  (if ok then AppendAudit kind "ok" "" "" source payload else mret tt) ≫= fun _ => mret ok.

Definition decided (res : AuthDB * Result AuthzError bool) (text : string) : AuthDB * Result AdminError unit :=
  match res with
  | (d', Err _) => (d', Err (AdminInternal text))
  | (d', Ok false) => (d', Err (AdminConflict "this request was decided by somebody else first"))
  | (d', Ok true) => (d', Ok tt)
  end.

Definition approve_finish (id source : string) (r : Readings)
    (ar : Result AdminError (AuthorizationRequest * ScopeSet * ScopeSet)) (d : AuthDB)
    : AuthDB * Result AdminError unit :=
  match ar with
  | Err e => (d, Err e)
  | Ok (row, selected, granted) =>
      decided (AuthzTx (UnixMilli (rd_tx r))
        (decide_tx id AuthRequestApproved (ScopeSet_string granted) "" "authorization.approved" source
           [("request_id", VStr id); ("client_id", VStr (re_ClientID row));
            ("selected_scopes", VList (List selected)); ("granted_scopes", VList (List granted));
            ("stage", VStr "owner_approved")]) d)
        "the approval could not be recorded"
  end.

Definition deny_read (id : string) (d : AuthDB) : Result AdminError AuthorizationRequest :=
  match AuthorizationRequestByID id d with
  | None => Err (AdminNotFound "authorization request")
  | Some row =>
      if negb (bool_decide (re_Status row = AuthRequestPending))
      then Err (AdminConflict ("this request is " +:+ re_Status row +:+ " and can no longer be decided"))
      else Ok row
  end.

Definition deny_finish (id reason source : string) (r : Readings)
    (dr : Result AdminError AuthorizationRequest) (d : AuthDB) : AuthDB * Result AdminError unit :=
  match dr with
  | Err e => (d, Err e)
  | Ok row =>
      decided (AuthzTx (UnixMilli (rd_tx r))
        (decide_tx id AuthRequestDenied "" reason "authorization.denied" source
           [("request_id", VStr id); ("client_id", VStr (re_ClientID row)); ("reason", VStr reason)]) d)
        "the denial could not be recorded"
  end.

(** ** The completion (requests.go) *)

Definition StatusExpired : string := "expired".

Definition effectiveStatus (now : Z) (req : AuthorizationRequest) : string :=
  if bool_decide (re_Status req = AuthRequestPending) && (re_ExpiresAtMS req <=? UnixMilli now)%Z
  then StatusExpired else re_Status req.

Inductive CompleteRead : Type :=
| CompleteNotFound
| CompleteDenied (req : AuthorizationRequest)
| CompleteError (e : oauthError)
| CompleteMint (req : AuthorizationRequest) (scopes : ScopeSet).

(** After [resolveRequest] and the form token. *)
Definition complete_read (id : string) (r : Readings) (d : AuthDB) : CompleteRead :=
  match AuthorizationRequestByID id d with
  | None => CompleteNotFound
  | Some req =>
      let status := effectiveStatus (rd_now r) req in
      if bool_decide (status = AuthRequestDenied) then CompleteDenied req
      else if negb (bool_decide (status = AuthRequestApproved))
      then CompleteError (statusError 409 "invalid_request" "this request is not waiting to be completed")
      else
        let granted := if decide (re_GrantedScopes req = ""%string) then re_SelectedScopes req
                       else re_GrantedScopes req in
        let refused := CompleteError (statusError 409 "invalid_scope"
                         "this request does not carry a usable grant") in
        match ParseScopeString granted with
        | Err _ => refused
        | Ok scopes => if Empty scopes || Has scopes ScopeAdmin then refused else CompleteMint req scopes
        end
  end.

(** The transaction of a completion: [false] when the request was completed since.
    [hash] is the digest of the fresh code. *)
Definition complete_tx (req : AuthorizationRequest) (scopes : ScopeSet) (hash : string) (now ttl : Z)
    : Tx bool :=
  CompleteAuthorizationRequest (re_ID req) ≫= fun ok : bool =>
  if negb ok then mret false
  else
    CreateAuthorizationCode (mkAuthorizationCode hash (re_ID req) (re_ClientID req) (re_RedirectURI req)
      (re_CodeChallenge req) (ScopeSet_string scopes) (re_Resource req) "" 0 (UnixMilli (now + ttl))
      (UnixMilli now)) ≫= fun _ =>
    AppendAudit "authorization.approved" "ok" "" "" (re_Source req)
      [("request_id", VStr (re_ID req)); ("client_id", VStr (re_ClientID req));
       ("scopes", VList (List scopes)); ("stage", VStr "code_issued")] ≫= fun _ =>
    mret true.

Inductive CompleteAnswer : Type :=
| CompleteIs404
| CompleteFails (e : oauthError)
| RedirectDenied (uri state : string)
| RedirectCode (uri state : string) (scopes : ScopeSet).

Definition complete_finish (hash : string) (ttl : Result AuthzError Z) (r : Readings) (cr : CompleteRead)
    (d : AuthDB) : AuthDB * CompleteAnswer :=
  match cr with
  | CompleteNotFound => (d, CompleteIs404)
  | CompleteDenied req => (d, RedirectDenied (re_RedirectURI req) (re_State req))
  | CompleteError e => (d, CompleteFails e)
  | CompleteMint req scopes =>
      let ttl := match ttl with Ok t => t | Err _ => (2 * Minute)%Z end in
      match AuthzTx (UnixMilli (rd_tx r)) (complete_tx req scopes hash (rd_now r) ttl) d with
      | (d', Err _) => (d', CompleteFails (statusError 500 "server_error" "the code could not be issued"))
      | (d', Ok false) => (d', CompleteFails (statusError 409 "invalid_request"
                                                "this request has already been completed"))
      | (d', Ok true) => (d', RedirectCode (re_RedirectURI req) (re_State req) scopes)
      end
  end.

(** ** The binding check of the token endpoint (token.go) *)

(** [pkce] is [verifyPKCE]: the digest of the verifier is the stored challenge. *)
Definition Verify (pkce : string -> string -> bool) (clientID redirectURI verifier resource : string)
    (code : AuthorizationCode) : option AuthzError :=
  if negb (bool_decide (clientID = co_ClientID code)) then Some ErrInvalidGrant
  else if negb (bool_decide (redirectURI = co_RedirectURI code)) then Some ErrInvalidGrant
  else if negb (pkce verifier (co_CodeChallenge code)) then Some ErrInvalidGrant
  else if negb (bool_decide (co_Resource code = resource)) then Some ErrInvalidGrant
  else None.

(** ** Clients (admin.go, register.go) *)

(** The last transaction of [RevokeClient], after the client's grants are revoked one by
    one with [OwnerRevoke]. *)
Definition delete_client_tx (id reason source : string) (revoked : Z) : Tx unit :=
  DeleteOAuthClient id ≫= fun _ =>
  AppendAudit "client.revoked" "ok" "" "" source
    [("client_id", VStr id); ("reason", VStr reason); ("authorizations_revoked", VInt revoked)].

Fixpoint revoke_grants (r : Readings) (ids : list string) (source : string) (d : AuthDB)
    : AuthDB * option AuthzError :=
  match ids with
  | [] => (d, None)
  | id :: ids' =>
      match OwnerRevoke r id "client_revoked" source d with
      | (d', Err e) => (d', Some e)
      | (d', Ok _) => revoke_grants r ids' source d'
      end
  end.

Definition RevokeClient (r : Readings) (id reason source : string) (d : AuthDB)
    : AuthDB * Result AdminError Z :=
  match tb_clients d !! id with
  | None => (d, Err (AdminNotFound "client"))
  | Some _ =>
      let grants := AuthorizationsForClient id d in
      match revoke_grants r grants source d with
      | (d1, Some _) => (d1, Err (AdminInternal "an authorization could not be revoked"))
      | (d1, None) =>
          match AuthzTx (UnixMilli (rd_tx r))
                  (delete_client_tx id reason source (Z.of_nat (length grants))) d1 with
          | (d2, Err _) => (d2, Err (AdminInternal "the revocation could not be recorded"))
          | (d2, Ok _) => (d2, Ok (Z.of_nat (length grants)))
          end
      end
  end.

Fixpoint sweep_each (ids : list string) : Tx unit :=
  match ids with
  | [] => mret tt
  | id :: ids' =>
      DeleteOAuthClient id ≫= fun _ =>
      AppendAudit "client.revoked" "ok" "" "" "server"
        [("client_id", VStr id); ("reason", VStr "registration_expired")] ≫= fun _ =>
      sweep_each ids'
  end.

Definition SweepExpiredRegistrations (r : Readings) (d : AuthDB)
    : AuthDB * Result AuthzError (list string) :=
  AuthzTx (UnixMilli (rd_tx r))
    (ExpiredUnreferencedClients ≫= fun ids => sweep_each ids ≫= fun _ => mret ids) d.
End Grants.
