(* ===== verification/Credentials.v ===== *)
(** * The credential invariant

    The invariant of the tables of authorizations and tokens, the order in which they
    change, and the effect of every transaction of Sessions.v on both.  The invariant:
    the tokens of a revoked authorization are revoked; an authorization has at most one
    refresh token that is neither spent nor revoked; its scopes are within those it was
    minted with; no OAuth authorization holds [admin]; no refresh token outlives its
    authorization. *)

From S2P Require Import Prelude Ids GoStrings Scopes Limits AuthzStore Sessions.

Abbreviation auths := (gmap string AuthorizationRow).
Abbreviation toks := (gmap string TokenRow).

(** Neither spent nor revoked. *)
Definition live (t : TokenRow) : Prop := tk_spent_at_ms t = None /\ tk_revoked_at_ms t = None.

(** The parsed scopes of a row. *)
Definition has_scopes (column : string) (s : ScopeSet) : Prop := ParseScopeString column = Ok s.

Definition row_scopes_ok (r : AuthorizationRow) : Prop :=
  exists sc mi, has_scopes (ar_scopes r) sc /\ has_scopes (ar_minted_scopes r) mi /\ sc ⊆ mi /\
    (ar_kind r = AuthKindOAuth -> ScopeAdmin ∉ mi).

Section Core.
Context `{SHA256}.

(** The hash of a token row is of its own kind. *)
Definition hash_ok (h : string) (t : TokenRow) : Prop :=
  (tk_kind t = TokenKindAccess \/ tk_kind t = TokenKindRefresh) /\
  exists audience v, nul_free audience = true /\ h = tokenHash audience (tk_kind t) v.

Record core (A : auths) (T : toks) : Prop := {
  core_fk h t : T !! h = Some t -> is_Some (A !! tk_authorization_id t);
  core_hash h t : T !! h = Some t -> hash_ok h t;
  core_pos h t : T !! h = Some t -> tk_spent_at_ms t <> Some 0%Z /\ tk_revoked_at_ms t <> Some 0%Z;
  core_apos id r : A !! id = Some r -> ar_revoked_at_ms r <> Some 0%Z /\ ar_expires_at_ms r <> Some 0%Z;
  core_revoked h t r : T !! h = Some t -> A !! tk_authorization_id t = Some r ->
    ar_revoked_at_ms r <> None -> tk_revoked_at_ms t <> None;
  core_one h1 h2 t1 t2 : T !! h1 = Some t1 -> T !! h2 = Some t2 ->
    tk_kind t1 = TokenKindRefresh -> tk_kind t2 = TokenKindRefresh ->
    tk_authorization_id t1 = tk_authorization_id t2 -> live t1 -> live t2 -> h1 = h2;
  core_scopes id r : A !! id = Some r -> row_scopes_ok r;
  core_expiry h t r e : T !! h = Some t -> A !! tk_authorization_id t = Some r ->
    tk_kind t = TokenKindRefresh -> ar_expires_at_ms r = Some e -> (tk_expires_at_ms t <= e)%Z;
}.

(** ** How rows change *)

(** A row keeps what it was created with, and a revocation. *)
Record auth_le (r r' : AuthorizationRow) : Prop := {
  ale_kind : ar_kind r' = ar_kind r;
  ale_client : ar_client_id r' = ar_client_id r;
  ale_minted : ar_minted_scopes r' = ar_minted_scopes r;
  ale_gen : ar_secret_generation r' = ar_secret_generation r;
  ale_source : ar_source r' = ar_source r;
  ale_expires : ar_expires_at_ms r' = ar_expires_at_ms r;
  ale_created : ar_created_at_ms r' = ar_created_at_ms r;
  ale_revoked : ar_revoked_at_ms r <> None -> ar_revoked_at_ms r' = ar_revoked_at_ms r;
}.

Record tok_le (t t' : TokenRow) : Prop := {
  tle_auth : tk_authorization_id t' = tk_authorization_id t;
  tle_kind : tk_kind t' = tk_kind t;
  tle_family : tk_family_id t' = tk_family_id t;
  tle_expires : tk_expires_at_ms t' = tk_expires_at_ms t;
  tle_created : tk_created_at_ms t' = tk_created_at_ms t;
  tle_spent : tk_spent_at_ms t <> None -> tk_spent_at_ms t' = tk_spent_at_ms t;
  tle_revoked : tk_revoked_at_ms t <> None -> tk_revoked_at_ms t' = tk_revoked_at_ms t;
}.

#[export] Instance auth_le_po : PreOrder auth_le.
Proof.
  split; [by split|]. intros a b c [] []. split; try congruence.
  intros Hr. rewrite ale_revoked1; [auto|]. by rewrite ale_revoked0.
Qed.

#[export] Instance tok_le_po : PreOrder tok_le.
Proof.
  split; [by split|]. intros a b c [] []. split; try congruence.
  - intros Hr. rewrite tle_spent1; [auto|]. by rewrite tle_spent0.
  - intros Hr. rewrite tle_revoked1; [auto|]. by rewrite tle_revoked0.
Qed.

Lemma tok_le_live t t' : tok_le t t' -> live t' -> live t.
Proof.
  intros Hle [H1 H2]. destruct Hle. split.
  - destruct (tk_spent_at_ms t); [|done]. by rewrite tle_spent0 in H1.
  - destruct (tk_revoked_at_ms t); [|done]. by rewrite tle_revoked0 in H2.
Qed.

(** Nothing is lost; scopes are narrowed only, and then no refresh token of before is
    live any more. *)
Record core_le (A : auths) (T : toks) (A' : auths) (T' : toks) : Prop := {
  cle_auth id r : A !! id = Some r -> exists r', A' !! id = Some r' /\ auth_le r r' /\
    (forall sc, has_scopes (ar_scopes r) sc -> exists sc', has_scopes (ar_scopes r') sc' /\ sc' ⊆ sc) /\
    (ar_scopes r' = ar_scopes r \/
     forall h t t', T !! h = Some t -> tk_authorization_id t = id -> tk_kind t = TokenKindRefresh ->
       T' !! h = Some t' -> ~ live t');
  cle_tok h t : T !! h = Some t -> exists t', T' !! h = Some t' /\ tok_le t t';
}.

Lemma core_le_refl A T : core_le A T A T.
Proof.
  split.
  - intros id r Hr. exists r. split_and!; [done|done|eauto|by left].
  - intros h t Ht. exists t. done.
Qed.

Lemma core_le_trans A T A1 T1 A2 T2 :
  core_le A T A1 T1 -> core_le A1 T1 A2 T2 -> core_le A T A2 T2.
Proof.
  intros [Ha Ht] [Ha' Ht']. split.
  - intros id r Hr. destruct (Ha _ _ Hr) as (r1 & Hr1 & Hle1 & Hs1 & Hc1).
    destruct (Ha' _ _ Hr1) as (r2 & Hr2 & Hle2 & Hs2 & Hc2). exists r2. split; [done|].
    split; [by etransitivity|]. split.
    + intros sc Hsc. destruct (Hs1 _ Hsc) as (sc1 & Hsc1 & ?).
      destruct (Hs2 _ Hsc1) as (sc2 & Hsc2 & ?). exists sc2. split; [done|]. by etransitivity.
    + destruct Hc1 as [E1|Hc1].
      * destruct Hc2 as [E2|Hc2]; [left; congruence|]. right. intros h t t' Hh Hid Hk Hh' Hlive.
        destruct (Ht _ _ Hh) as (t1 & Ht1 & Hle). destruct Hle.
        eapply Hc2; [exact Ht1|congruence|congruence|exact Hh'|done].
      * right. intros h t t' Hh Hid Hk Hh' Hlive. destruct (Ht _ _ Hh) as (t1 & Ht1 & _).
        destruct (Ht' _ _ Ht1) as (t2 & Ht2 & Hle). rewrite Hh' in Ht2. injection Ht2 as <-.
        eapply (Hc1 h t t1 Hh Hid Hk Ht1). by eapply tok_le_live.
  - intros h t Hh. destruct (Ht _ _ Hh) as (t1 & Ht1 & ?). destruct (Ht' _ _ Ht1) as (t2 & Ht2 & ?).
    exists t2. split; [done|]. by etransitivity.
Qed.

(** ** Revocations and spending *)

(** Row by row, without touching scopes, and writing no zero instants. *)
Definition auth_shrink (r r' : AuthorizationRow) : Prop :=
  auth_le r r' /\ ar_scopes r' = ar_scopes r /\
  (ar_revoked_at_ms r <> Some 0%Z -> ar_revoked_at_ms r' <> Some 0%Z).

Definition tok_shrink (t t' : TokenRow) : Prop :=
  tok_le t t' /\ (tk_spent_at_ms t <> Some 0%Z -> tk_spent_at_ms t' <> Some 0%Z) /\
  (tk_revoked_at_ms t <> Some 0%Z -> tk_revoked_at_ms t' <> Some 0%Z).

#[export] Instance auth_shrink_po : PreOrder auth_shrink.
Proof.
  split; [by split|]. intros a b c (? & E1 & ?) (? & E2 & ?). split; [by etransitivity|].
  split; [congruence|auto].
Qed.

#[export] Instance tok_shrink_po : PreOrder tok_shrink.
Proof.
  split; [by split|]. intros a b c (? & ? & ?) (? & ? & ?). split; [by etransitivity|]. split; auto.
Qed.

Definition shrink (A : auths) (T : toks) (A' : auths) (T' : toks) : Prop :=
  (forall id, option_Forall2 auth_shrink (A !! id) (A' !! id)) /\
  (forall h, option_Forall2 tok_shrink (T !! h) (T' !! h)).

Lemma option_Forall2_trans {X} (R : relation X) `{!Transitive R} x y z :
  option_Forall2 R x y -> option_Forall2 R y z -> option_Forall2 R x z.
Proof. intros [] Hyz; inversion_clear Hyz; constructor. by etransitivity. Qed.

Lemma option_Forall2_reflexive {X} (R : relation X) `{!Reflexive R} x : option_Forall2 R x x.
Proof. destruct x; constructor. done. Qed.

Lemma shrink_refl A T : shrink A T A T.
Proof. split; intros; apply option_Forall2_reflexive, _. Qed.

Lemma shrink_trans A T A1 T1 A2 T2 : shrink A T A1 T1 -> shrink A1 T1 A2 T2 -> shrink A T A2 T2.
Proof. intros [Ha Ht] [Ha' Ht']. split; intros k; eapply option_Forall2_trans; eauto with typeclass_instances. Qed.

Lemma shrink_auth A T A' T' id r' :
  shrink A T A' T' -> A' !! id = Some r' -> exists r, A !! id = Some r /\ auth_shrink r r'.
Proof. intros [Ha _] Hr. specialize (Ha id). rewrite Hr in Ha. inversion Ha; eauto. Qed.

Lemma shrink_tok A T A' T' h t' :
  shrink A T A' T' -> T' !! h = Some t' -> exists t, T !! h = Some t /\ tok_shrink t t'.
Proof. intros [_ Ht] Hh. specialize (Ht h). rewrite Hh in Ht. inversion Ht; eauto. Qed.

Lemma shrink_le A T A' T' : shrink A T A' T' -> core_le A T A' T'.
Proof.
  intros [Ha Ht]. split.
  - intros id r Hr. specialize (Ha id). rewrite Hr in Ha. inversion Ha as [? r' Hs E1 E2|]; subst.
    exists r'. destruct Hs as (? & E & _). split_and!; [done|done| |by left]. rewrite E. eauto.
  - intros h t Hh. specialize (Ht h). rewrite Hh in Ht. inversion Ht as [? t' Hs E1 E2|]; subst.
    exists t'. by destruct Hs.
Qed.

Lemma shrink_core A T A' T' :
  core A T -> shrink A T A' T' ->
  (forall h t r, T' !! h = Some t -> A' !! tk_authorization_id t = Some r ->
     ar_revoked_at_ms r <> None -> tk_revoked_at_ms t <> None) ->
  core A' T'.
Proof.
  intros Hc Hs Hrev.
  assert (forall h t', T' !! h = Some t' -> exists t, T !! h = Some t /\ tok_shrink t t') as HT
    by (intros; by eapply shrink_tok).
  assert (forall id r', A' !! id = Some r' -> exists r, A !! id = Some r /\ auth_shrink r r') as HA
    by (intros; by eapply shrink_auth).
  split; try exact Hrev.
  - intros h t' Hh. destruct (HT _ _ Hh) as (t & Ht & [Hle _]). rewrite (tle_auth _ _ Hle).
    destruct (core_fk _ _ Hc _ _ Ht) as [r Hr]. destruct Hs as [Ha _].
    specialize (Ha (tk_authorization_id t)). rewrite Hr in Ha. inversion Ha; eauto.
  - intros h t' Hh. destruct (HT _ _ Hh) as (t & Ht & [Hle _]). unfold hash_ok.
    rewrite (tle_kind _ _ Hle). by apply (core_hash _ _ Hc _ _ Ht).
  - intros h t' Hh. destruct (HT _ _ Hh) as (t & Ht & (_ & H1 & H2)).
    destruct (core_pos _ _ Hc _ _ Ht). auto.
  - intros id r' Hr'. destruct (HA _ _ Hr') as (r & Hr & (Hle & _ & H1)).
    destruct (core_apos _ _ Hc _ _ Hr). rewrite (ale_expires _ _ Hle). auto.
  - intros h1 h2 t1' t2' Hh1 Hh2. destruct (HT _ _ Hh1) as (t1 & Ht1 & [Hle1 _]).
    destruct (HT _ _ Hh2) as (t2 & Ht2 & [Hle2 _]).
    rewrite (tle_kind _ _ Hle1), (tle_kind _ _ Hle2), (tle_auth _ _ Hle1), (tle_auth _ _ Hle2).
    intros ? ? ? Hl1%(tok_le_live t1) Hl2%(tok_le_live t2); [|done..].
    by eapply (core_one _ _ Hc h1 h2 t1 t2).
  - intros id r' Hr'. destruct (HA _ _ Hr') as (r & Hr & (Hle & Hsc & _)). unfold row_scopes_ok.
    rewrite Hsc, (ale_minted _ _ Hle), (ale_kind _ _ Hle). by apply (core_scopes _ _ Hc id).
  - intros h t' r' e Hh Hr'. destruct (HT _ _ Hh) as (t & Ht & [Hle _]).
    destruct (HA _ _ Hr') as (r & Hr & (Hale & _)).
    rewrite (tle_kind _ _ Hle), (tle_expires _ _ Hle), (ale_expires _ _ Hale).
    rewrite (tle_auth _ _ Hle) in Hr. intros. by eapply (core_expiry _ _ Hc h t r).
Qed.

(** [UPDATE ... SET revoked_at_ms = COALESCE(revoked_at_ms, now)] and its like. *)
Lemma shrink_revoke_auth now A T id :
  now <> 0%Z -> shrink A T (alter (auth_revoked now) id A) T.
Proof.
  intros Hn. split; [|intros; apply option_Forall2_reflexive, _]. intros k.
  rewrite lookup_alter. case_decide; [subst k|apply option_Forall2_reflexive, _].
  destruct (A !! id) as [r|]; constructor. split_and!; [|done|].
  - split; try done. simpl. by destruct (ar_revoked_at_ms r).
  - simpl. destruct (ar_revoked_at_ms r); simpl; [done|]. intros _ [= ?]. done.
Qed.

Lemma shrink_revoke_tokens now A T P :
  now <> 0%Z -> shrink A T A (update_where P (token_revoked now) T).
Proof.
  intros Hn. split; [intros; apply option_Forall2_reflexive, _|]. intros h.
  rewrite lookup_update_where. destruct (T !! h) as [t|]; simpl; constructor.
  destruct (P t); [|done]. split_and!; [|done|].
  - split; try done. simpl. by destruct (tk_revoked_at_ms t).
  - simpl. destruct (tk_revoked_at_ms t); simpl; [done|]. intros _ [= ?]. done.
Qed.

Lemma shrink_spend now A T h t :
  now <> 0%Z -> T !! h = Some t -> shrink A T A (<[h := token_spent now t]> T).
Proof.
  intros Hn Ht. split; [intros; apply option_Forall2_reflexive, _|]. intros k.
  rewrite lookup_insert. case_decide; [subst k|apply option_Forall2_reflexive, _].
  rewrite Ht. constructor. split_and!; [| |done].
  - split; try done. simpl. by destruct (tk_spent_at_ms t).
  - simpl. destruct (tk_spent_at_ms t); simpl; [done|]. intros _ [= ?]. done.
Qed.

(** Every token of [id] is revoked. *)
Definition dead (id : string) (A : auths) (T : toks) : Prop :=
  (forall r, A !! id = Some r -> ar_revoked_at_ms r <> None) /\
  (forall h t, T !! h = Some t -> tk_authorization_id t = id -> tk_revoked_at_ms t <> None).

(** An authorization and its tokens revoked, after revocations that keep [core]'s shape. *)
Lemma revoke_all_dead now id A T :
  dead id (alter (auth_revoked now) id A) (update_where (of_authorization id) (token_revoked now) T).
Proof.
  split.
  - intros r. rewrite lookup_alter_eq. destruct (A !! id) as [r0|]; [|done].
    intros [= <-]. simpl. by destruct (ar_revoked_at_ms r0).
  - intros h t. rewrite lookup_update_where_Some. intros (t0 & _ & ->) Hid.
    destruct (of_authorization id t0) eqn:E; simpl in *.
    + by destruct (tk_revoked_at_ms t0).
    + unfold of_authorization in E. rewrite Hid, bool_decide_eq_true_2 in E by done. simpl in E.
      by apply bool_decide_eq_false in E.
Qed.

Lemma revoke_all_core now id P A T :
  now <> 0%Z -> core A T ->
  let A' := alter (auth_revoked now) id A in
  let T' := update_where (of_authorization id) (token_revoked now)
              (update_where P (token_revoked now) T) in
  core A' T' /\ core_le A T A' T' /\ dead id A' T'.
Proof.
  intros Hn Hc A' T'.
  assert (shrink A T A' T') as Hs.
  { eapply shrink_trans; [by apply (shrink_revoke_tokens now _ _ P)|].
    eapply shrink_trans; [by apply (shrink_revoke_tokens now _ _ (of_authorization id))|].
    by apply shrink_revoke_auth. }
  pose proof (revoke_all_dead now id A (update_where P (token_revoked now) T)) as Hd.
  split_and!; [|by apply shrink_le|exact Hd].
  eapply shrink_core; [exact Hc|exact Hs|]. intros h t' r' Ht' Hr' Hrev.
  destruct (decide (tk_authorization_id t' = id)) as [E|E]; [by eapply Hd|].
  destruct (shrink_tok _ _ _ _ _ _ Hs Ht') as (t & Ht & [Hle _]).
  unfold A' in Hr'. rewrite lookup_alter_ne in Hr' by done.
  rewrite (tle_auth _ _ Hle) in Hr'. pose proof (core_revoked _ _ Hc _ _ _ Ht Hr' Hrev).
  by rewrite (tle_revoked _ _ Hle).
Qed.

Lemma update_where_none {V} (g : V -> V) (m : gmap string V) : update_where (fun _ => false) g m = m.
Proof. apply map_eq. intros k. rewrite lookup_update_where. by destruct (m !! k). Qed.

Lemma revoke_auth_core now id A T :
  now <> 0%Z -> core A T ->
  let A' := alter (auth_revoked now) id A in
  let T' := update_where (of_authorization id) (token_revoked now) T in
  core A' T' /\ core_le A T A' T' /\ dead id A' T'.
Proof.
  intros Hn Hc. pose proof (revoke_all_core now id (fun _ => false) A T Hn Hc) as Hr.
  by rewrite update_where_none in Hr.
Qed.

(** The dead stay dead. *)
Lemma dead_le id A T A' T' :
  core A' T' -> core_le A T A' T' -> is_Some (A !! id) -> dead id A T -> dead id A' T'.
Proof.
  intros Hc [Ha _] [r Hr] [Hd _]. destruct (Ha _ _ Hr) as (r1 & Hr1 & Hle & _).
  assert (ar_revoked_at_ms r1 <> None) as Hrev.
  { rewrite (ale_revoked _ _ Hle); by apply (Hd r). }
  split; [intros r' Hr'; congruence|]. intros h t Ht <-. by eapply (core_revoked _ _ Hc h t r1).
Qed.

(** ** New rows *)

Lemma insert_auth_core A T id r :
  core A T -> A !! id = None -> ar_revoked_at_ms r = None -> ar_expires_at_ms r <> Some 0%Z ->
  row_scopes_ok r -> core (<[id := r]> A) T /\ core_le A T (<[id := r]> A) T.
Proof.
  intros Hc Hid Hrev Hexp Hsc.
  assert (forall h t, T !! h = Some t -> tk_authorization_id t <> id) as Hne.
  { intros h t Ht <-. destruct (core_fk _ _ Hc _ _ Ht). congruence. }
  split.
  - split.
    + intros h t Ht. rewrite lookup_insert_ne by (intros ?; by eapply Hne). by eapply core_fk.
    + apply Hc.
    + apply Hc.
    + intros id' r'. rewrite lookup_insert. case_decide; [intros [= <-]; by rewrite Hrev|by apply Hc].
    + intros h t r' Ht. rewrite lookup_insert_ne by (intros ?; by eapply Hne). by eapply core_revoked.
    + apply Hc.
    + intros id' r'. rewrite lookup_insert. case_decide; [by intros [= <-]|by eapply core_scopes].
    + intros h t r' e Ht. rewrite lookup_insert_ne by (intros ?; by eapply Hne). by eapply core_expiry.
  - split; [|by intros h t ?; exists t]. intros id' r' Hr'. exists r'. rewrite lookup_insert_ne by congruence.
    split_and!; [done|done|by eauto|by left].
Qed.

Lemma insert_tok_core A T h t r :
  core A T -> T !! h = None -> A !! tk_authorization_id t = Some r -> ar_revoked_at_ms r = None ->
  hash_ok h t -> live t ->
  (tk_kind t = TokenKindRefresh ->
     (forall k u, T !! k = Some u -> tk_authorization_id u = tk_authorization_id t ->
        tk_kind u = TokenKindRefresh -> ~ live u) /\
     (forall e, ar_expires_at_ms r = Some e -> (tk_expires_at_ms t <= e)%Z)) ->
  core A (<[h := t]> T) /\ core_le A T A (<[h := t]> T).
Proof.
  intros Hc Hh Hr Hrev Hok Hl Hk. split.
  - split.
    + intros k u. rewrite lookup_insert. case_decide; [intros [= <-]; by eauto|by eapply core_fk].
    + intros k u. rewrite lookup_insert. case_decide; [intros [= <-]; by subst k|by eapply core_hash].
    + intros k u. rewrite lookup_insert. case_decide; [intros [= <-]|by eapply core_pos].
      destruct Hl as [-> ->]. done.
    + apply Hc.
    + intros k u r'. rewrite lookup_insert. case_decide; [|by eapply core_revoked].
      intros [= <-] Hr'. rewrite Hr in Hr'. by injection Hr' as <-.
    + intros h1 h2 t1 t2. rewrite !lookup_insert.
      destruct (decide (h = h1)) as [<-|], (decide (h = h2)) as [<-|]; [done| | |by eapply core_one].
      * intros [= <-] Ht2 Hk1 Hk2 Ha _ Hl2. destruct (Hk Hk1) as [Hno _]. by destruct (Hno h2 t2).
      * intros Ht1 [= <-] Hk1 Hk2 Ha Hl1 _. destruct (Hk Hk2) as [Hno _]. by destruct (Hno h1 t1).
    + apply Hc.
    + intros k u r' e. rewrite lookup_insert. case_decide; [|by eapply core_expiry].
      intros [= <-] Hr' Hkr. rewrite Hr in Hr'. injection Hr' as <-. by apply Hk.
  - split.
    + intros id r' Hr'. exists r'. split_and!; [done|done|by eauto|by left].
    + intros k u Hu. exists u. rewrite lookup_insert_ne by congruence. done.
Qed.

(** The two token rows of a grant. *)
Definition pair_row (id familyID kind : string) (expiry now : Z) : TokenRow :=
  mkTokenRow id kind familyID None None (UnixMilli expiry) now.

Definition pair_toks (s : Service) (f : Fresh) (id familyID : string) (ae re now : Z) (T : toks) : toks :=
  <[tokenHash (sv_audience s) TokenKindRefresh (fr_refresh f) := pair_row id familyID TokenKindRefresh re now]>
    (<[tokenHash (sv_audience s) TokenKindAccess (fr_access f) := pair_row id familyID TokenKindAccess ae now]> T).

Lemma token_pair_inv s f id familyID ae re now d d' u :
  token_pair s f id familyID ae re now d = Ok (d', u) ->
  is_Some (tb_authorizations d !! id) /\
  tb_tokens d !! tokenHash (sv_audience s) TokenKindAccess (fr_access f) = None /\
  <[tokenHash (sv_audience s) TokenKindAccess (fr_access f) := pair_row id familyID TokenKindAccess ae now]>
    (tb_tokens d) !! tokenHash (sv_audience s) TokenKindRefresh (fr_refresh f) = None /\
  d' = set_tokens (pair_toks s f id familyID ae re now (tb_tokens d)) d.
Proof.
  unfold token_pair, mbind, Tx_bind, InsertToken. simpl.
  destruct (tb_tokens d !! tokenHash _ TokenKindAccess _) eqn:E1; [done|].
  destruct (tb_authorizations d !! id) eqn:Ea; [|done]. simpl. rewrite Ea.
  destruct (<[_ := _]> (tb_tokens d) !! tokenHash _ TokenKindRefresh _) eqn:E2; [done|].
  intros [= <- _]. by split_and!.
Qed.

Lemma pair_core s f id familyID ae re now A T r :
  core A T -> nul_free (sv_audience s) = true -> A !! id = Some r -> ar_revoked_at_ms r = None ->
  (forall k u, T !! k = Some u -> tk_authorization_id u = id -> tk_kind u = TokenKindRefresh -> ~ live u) ->
  (forall e, ar_expires_at_ms r = Some e -> (UnixMilli re <= e)%Z) ->
  T !! tokenHash (sv_audience s) TokenKindAccess (fr_access f) = None ->
  <[tokenHash (sv_audience s) TokenKindAccess (fr_access f) := pair_row id familyID TokenKindAccess ae now]>
    T !! tokenHash (sv_audience s) TokenKindRefresh (fr_refresh f) = None ->
  core A (pair_toks s f id familyID ae re now T) /\ core_le A T A (pair_toks s f id familyID ae re now T).
Proof.
  intros Hc Haud Hr Hrev Hno He H1 H2.
  destruct (insert_tok_core A T _ (pair_row id familyID TokenKindAccess ae now) r Hc H1 Hr Hrev) as [Hc1 Hl1];
    [split; simpl; eauto|done|done|].
  destruct (insert_tok_core A _ _ (pair_row id familyID TokenKindRefresh re now) r Hc1 H2 Hr Hrev) as [Hc2 Hl2];
    [split; simpl; eauto|done| |].
  { intros _. split; [|done]. intros k u. rewrite lookup_insert.
    case_decide; [by intros [= <-] _ ?|]. apply Hno. }
  split; [exact Hc2|]. by eapply core_le_trans.
Qed.

(** Narrowed scopes. *)
Lemma narrow_core A T id r column now sc sc' :
  core A T -> A !! id = Some r -> has_scopes (ar_scopes r) sc -> has_scopes column sc' -> sc' ⊆ sc ->
  core (<[id := with_scopes column now r]> A) T.
Proof.
  intros Hc Hr Hsc Hsc' Hsub.
  assert (forall k r', <[id := with_scopes column now r]> A !! k = Some r' ->
    exists r0, A !! k = Some r0 /\ ar_revoked_at_ms r' = ar_revoked_at_ms r0 /\
      ar_expires_at_ms r' = ar_expires_at_ms r0) as Hback.
  { intros k r'. rewrite lookup_insert. case_decide; [subst k; intros [= <-]|]; eauto. }
  split; try apply Hc.
  - intros h t Ht. rewrite lookup_insert. case_decide; [by eauto|by eapply core_fk].
  - intros k r' (r0 & Hr0 & -> & ->)%Hback. by eapply core_apos.
  - intros h t r' Ht (r0 & Hr0 & -> & _)%Hback. by eapply core_revoked.
  - intros k r'. rewrite lookup_insert. case_decide; [|by eapply core_scopes].
    intros [= <-]. destruct (core_scopes _ _ Hc _ _ Hr) as (s0 & mi & Hs0 & Hmi & Hle & Hadm).
    unfold has_scopes in *. rewrite Hsc in Hs0. injection Hs0 as <-.
    exists sc', mi. split_and!; [done|done|by etransitivity|done].
  - intros h t r' e Ht (r0 & Hr0 & _ & ->)%Hback. by eapply core_expiry.
Qed.

Lemma narrow_le A T T' id r column now sc sc' :
  core_le A T A T' -> A !! id = Some r -> has_scopes (ar_scopes r) sc -> has_scopes column sc' ->
  sc' ⊆ sc ->
  (forall h t t', T !! h = Some t -> tk_authorization_id t = id -> tk_kind t = TokenKindRefresh ->
     T' !! h = Some t' -> ~ live t') ->
  core_le A T (<[id := with_scopes column now r]> A) T'.
Proof.
  intros [Ha Ht] Hr Hsc Hsc' Hsub Hdead. split; [|exact Ht]. intros k r0 Hr0. rewrite lookup_insert.
  case_decide; [subst k|by apply Ha]. rewrite Hr in Hr0. injection Hr0 as <-.
  eexists. split; [done|]. split; [by split|]. split; [|by right]. intros s0 Hs0.
  unfold has_scopes in *. rewrite Hsc in Hs0. injection Hs0 as <-. by exists sc'.
Qed.

(** A live refresh token spent and a new pair: what was live of the authorization is not. *)
Lemma rotate_core s f A T t r h ae re now :
  core A T -> nul_free (sv_audience s) = true -> now <> 0%Z ->
  T !! h = Some t -> tk_kind t = TokenKindRefresh -> live t ->
  A !! tk_authorization_id t = Some r -> (forall e, ar_expires_at_ms r = Some e -> (UnixMilli re <= e)%Z) ->
  let T1 := <[h := token_spent now t]> T in
  T1 !! tokenHash (sv_audience s) TokenKindAccess (fr_access f) = None ->
  <[tokenHash (sv_audience s) TokenKindAccess (fr_access f) :=
      pair_row (tk_authorization_id t) (tk_family_id t) TokenKindAccess ae now]>
    T1 !! tokenHash (sv_audience s) TokenKindRefresh (fr_refresh f) = None ->
  let T2 := pair_toks s f (tk_authorization_id t) (tk_family_id t) ae re now T1 in
  core A T2 /\ core_le A T A T2 /\
  (exists u, T2 !! h = Some u /\ tk_spent_at_ms u <> None) /\
  (forall k u u', T !! k = Some u -> tk_authorization_id u = tk_authorization_id t ->
     tk_kind u = TokenKindRefresh -> T2 !! k = Some u' -> ~ live u').
Proof.
  intros Hc Haud Hn Ht Hk Hlive Hr Hexp T1 H1 H2 T2. pose proof Hlive as [Hsp Hrv].
  assert (ar_revoked_at_ms r = None) as Hrnone.
  { destruct (ar_revoked_at_ms r) eqn:E; [|done]. by destruct (core_revoked _ _ Hc _ _ r Ht Hr); rewrite ?E. }
  pose proof (shrink_spend now A _ _ _ Hn Ht) as Hshr. fold T1 in Hshr.
  assert (core A T1) as Hc1.
  { eapply shrink_core; [exact Hc|exact Hshr|]. intros k u ru. unfold T1. rewrite lookup_insert.
    case_decide; [intros [= <-]|by eapply core_revoked]. simpl. intros Hru. congruence. }
  destruct (pair_core s f (tk_authorization_id t) (tk_family_id t) ae re now A T1 r Hc1 Haud Hr Hrnone)
    as [Hc2 Hle2]; [|exact Hexp|exact H1|exact H2|].
  { intros k u. unfold T1. rewrite lookup_insert. case_decide as Hk'.
    - intros [= <-] _ _ [Hs _]. simpl in Hs. by rewrite Hsp in Hs.
    - intros Hu Hu1 Hu2 Hu3. apply Hk'. by apply (core_one _ _ Hc _ _ t u Ht Hu); congruence. }
  assert (core_le A T A T2) as Hle by (eapply core_le_trans; [by apply shrink_le|done]).
  assert (exists u, T2 !! h = Some u /\ tk_spent_at_ms u <> None) as (u & Hu & Husp).
  { destruct (cle_tok _ _ _ _ Hle2 h (token_spent now t)) as (u & Hu & Hul);
      [by unfold T1; rewrite lookup_insert_eq|].
    exists u. split; [done|]. rewrite (tle_spent _ _ Hul); simpl; by rewrite Hsp. }
  split; [done|]. split; [done|]. split; [by exists u|]. intros k v v' Hv Hvid Hvk Hv' Hl.
  destruct (decide (k = h)) as [-> |Hne]; [rewrite Hu in Hv'; injection Hv' as <-; by destruct Hl|].
  apply Hne. destruct (cle_tok _ _ _ _ Hle _ _ Hv) as (w & Hw & Hwl). rewrite Hv' in Hw.
  injection Hw as <-. apply (core_one _ _ Hc _ _ v t Hv Ht); try congruence. by eapply tok_le_live.
Qed.
End Core.
