(* ===== verification/Authority.v ===== *)
(** * Credentials under interleaving

    Every operation of Sessions.v and Grants.v as a step of one system: the tables, and
    the decisions that reads have made and whose transactions are still to come.  A
    transaction may come any number of steps after its read, so all interleavings are
    covered (and more: a decision may be carried out twice, and the service may restart
    with another secret and another origin between any two steps).  The theorems: the
    credential invariant holds in every reachable state; a refresh token is redeemed at
    most once and its reuse ends the session; scopes only narrow; revocation is final;
    what [Authenticate] accepts. *)

From S2P Require Import Prelude Ids GoStrings Scopes Limits AuthzStore Sessions Grants Credentials.

(** ** Facts about single reads *)

Definition scan_flag (c : option Z) : bool := negb (scanInt c =? 0)%Z.

Lemma scan_flag_true c : c <> Some 0%Z -> scan_flag c = true <-> c <> None.
Proof.
  intros Hc. unfold scan_flag, scanInt. destruct c as [v|]; simpl; [|done].
  rewrite negb_true_iff, Z.eqb_neq. split; [done|]. intros _ ->. done.
Qed.

Lemma scan_flag_false c : c <> Some 0%Z -> scan_flag c = false <-> c = None.
Proof.
  intros Hc. pose proof (scan_flag_true c Hc) as Ht. destruct (scan_flag c), c; naive_solver.
Qed.

Lemma UnixMilli_ms v : UnixMilli (v * Millisecond)%Z = v.
Proof. by apply Z.div_mul. Qed.

Lemma earlier_le_r a b : (earlier a b <= b)%Z.
Proof. unfold earlier. destruct (a <? b)%Z eqn:E; bool_to_prop; lia. Qed.

(** The tables that only the grant pipeline changes. *)
Definition flow_same (d d' : AuthDB) : Prop :=
  tb_clients d' = tb_clients d /\ tb_enrollments d' = tb_enrollments d /\
  tb_requests d' = tb_requests d /\ tb_codes d' = tb_codes d.

#[export] Instance flow_same_po : PreOrder flow_same.
Proof.
  split; [by intros ?|]. intros a b c (? & ? & ? & ?) (? & ? & ? & ?).
  split_and!; congruence.
Qed.

(** No OAuth authorization appears. *)
Definition no_new (d d' : AuthDB) : Prop := forall a r,
  tb_authorizations d' !! a = Some r -> ar_kind r = AuthKindOAuth -> is_Some (tb_authorizations d !! a).

Lemma no_new_alter d d' g id :
  tb_authorizations d' = alter g id (tb_authorizations d) -> no_new d d'.
Proof.
  intros E a r. rewrite E, lookup_alter. case_decide; [subst|by eauto].
  destruct (tb_authorizations d !! a); [by eauto|done].
Qed.

Lemma no_new_insert d d' id r0 :
  tb_authorizations d' = <[id := r0]> (tb_authorizations d) ->
  is_Some (tb_authorizations d !! id) \/ ar_kind r0 <> AuthKindOAuth -> no_new d d'.
Proof.
  intros E Hor a r. rewrite E, lookup_insert. case_decide; [subst|by eauto].
  intros [= <-]. by destruct Hor.
Qed.

Lemma no_new_eq d d' : tb_authorizations d' = tb_authorizations d -> no_new d d'.
Proof. intros E a r. rewrite E. eauto. Qed.

#[export] Hint Resolve no_new_alter no_new_insert no_new_eq : gm.

Lemma AuthzTx_inv {A} now (m : Tx A) d d' res :
  AuthzTx now m d = (d', res) ->
  (exists e, res = Err e /\ d' = d /\ m now d = Err e) \/ (exists a, res = Ok a /\ m now d = Ok (d', a)).
Proof.
  unfold AuthzTx. destruct (m now d) as [[d1 a]|e]; intros [= <- <-]; [right|left]; by eauto.
Qed.

Lemma bind_inv {A B} (m : Tx A) (k : A -> Tx B) now d d' b :
  (m ≫= k) now d = Ok (d', b) -> exists d1 a, m now d = Ok (d1, a) /\ k a now d1 = Ok (d', b).
Proof.
  unfold mbind, Tx_bind. destruct (m now d) as [[d1 a]|e]; [|done]. eauto.
Qed.

Section Authority.
Context `{CollisionFree}.

Definition CORE (d : AuthDB) : Prop := core (tb_authorizations d) (tb_tokens d).
Definition LE (d d' : AuthDB) : Prop :=
  core_le (tb_authorizations d) (tb_tokens d) (tb_authorizations d') (tb_tokens d').
Definition DEAD (id : string) (d : AuthDB) : Prop := dead id (tb_authorizations d) (tb_tokens d).

#[export] Instance LE_po : PreOrder LE.
Proof. split; [intros ?; apply core_le_refl|]. intros a b c. apply core_le_trans. Qed.

(** A step that keeps the invariant and loses nothing. *)
Definition good (d d' : AuthDB) : Prop := CORE d' /\ LE d d' /\ flow_same d d' /\ no_new d d'.

Lemma cred_refl d : CORE d -> good d d.
Proof. intros Hc. split; [done|]. split; [done|]. split; [done|]. by eexists. Qed.

Lemma good_same d d1 d2 :
  tb_authorizations d2 = tb_authorizations d1 -> tb_tokens d2 = tb_tokens d1 -> flow_same d1 d2 ->
  good d d1 -> good d d2.
Proof.
  intros Ea Et Hf (Hc & Hle & Hf' & Hnn). unfold good, CORE, LE, no_new. rewrite Ea, Et.
  split_and!; [done|done|by transitivity d1|done].
Qed.

(** ** The digests *)

Lemma tokenHash_inj a1 k1 v1 a2 k2 v2 :
  nul_free a1 = true -> nul_free a2 = true -> nul_free k1 = true -> nul_free k2 = true ->
  tokenHash a1 k1 v1 = tokenHash a2 k2 v2 -> a1 = a2 /\ k1 = k2 /\ v1 = v2.
Proof.
  intros Ha1 Ha2 Hk1 Hk2 E. unfold tokenHash, digest in E. apply sha256_inj in E.
  rewrite !concat_cons2 in E. apply append_inv_head, append_inv_head in E.
  apply nul_split in E as [-> E]; [|done..]. by apply nul_split in E as [-> E].
Qed.

(** A row found under the hash of a presented refresh token is a refresh token's. *)
Lemma presented_kind A T audience kind v t :
  core A T -> nul_free audience = true -> (kind = TokenKindAccess \/ kind = TokenKindRefresh) ->
  T !! tokenHash audience kind v = Some t -> tk_kind t = kind.
Proof.
  intros Hc Ha Hk Ht. destruct (core_hash _ _ Hc _ _ Ht) as (Hkt & a & w & Haud & E).
  apply tokenHash_inj in E as (_ & E & _); [done|done|done| |].
  - by destruct Hk as [-> | ->].
  - by destruct Hkt as [-> | ->].
Qed.

(** ** Decisions that still hold *)

Record valid_decision (d : AuthDB) (dec : RefreshDecision) : Prop := {
  vd_row : exists t, tb_tokens d !! de_hash dec = Some t /\ tk_kind t = TokenKindRefresh /\
    tk_authorization_id t = au_ID (de_auth dec) /\
    exists r, tb_authorizations d !! au_ID (de_auth dec) = Some r /\
      has_scopes (ar_minted_scopes r) (de_minted dec) /\
      (live t -> has_scopes (ar_scopes r) (de_current dec)) /\
      (forall e, ar_expires_at_ms r = Some e -> (UnixMilli (de_refreshExpiry dec) <= e)%Z);
  vd_known : de_next dec ⊆ list_to_set canonicalOrder;
  vd_next : de_next dec ⊆ de_current dec;
  vd_kept : de_narrowed dec = false -> de_next dec = de_current dec;
}.

Definition valid_refresh (d : AuthDB) (rr : RefreshRead) : Prop :=
  match rr with
  | RefreshRotate dec => valid_decision d dec
  | RefreshReuse row => exists t, tb_tokens d !! to_TokenHash row = Some t /\
      tk_authorization_id t = to_AuthorizationID row /\ tk_spent_at_ms t <> None
  | _ => True
  end.

Lemma valid_refresh_le d d' rr : LE d d' -> valid_refresh d rr -> valid_refresh d' rr.
Proof.
  intros [Ha Ht]. destruct rr as [e|reason e|row|dec]; simpl; try done.
  - intros (t & Hh & Hid & Hs). destruct (Ht _ _ Hh) as (t' & Ht' & Hle). exists t'.
    destruct Hle. split_and!; [done|congruence|]. by rewrite tle_spent.
  - intros [(t & Hh & Hk & Hid & r & Hr & Hmi & Hcur & Hexp) ? ? ?]. split; try done.
    destruct (Ht _ _ Hh) as (t' & Ht' & Hle). destruct (Ha _ _ Hr) as (r' & Hr' & Hale & _ & Hsc).
    exists t'. split; [done|]. split; [by rewrite (tle_kind _ _ Hle)|].
    split; [by rewrite (tle_auth _ _ Hle)|]. exists r'. split; [done|].
    rewrite (ale_minted _ _ Hale), (ale_expires _ _ Hale). split_and!; [done| |done].
    intros Hl. destruct Hsc as [-> |Hsc]; [apply Hcur; by eapply tok_le_live|].
    by destruct (Hsc _ _ _ Hh Hid Hk Ht').
Qed.

Lemma requested_scopes_ok current minted raw next narrowed :
  requested_scopes current minted raw = Ok (next, narrowed) ->
  next ⊆ current /\ (narrowed = false -> next = current) /\
  (current ⊆ list_to_set canonicalOrder -> next ⊆ list_to_set canonicalOrder).
Proof.
  unfold requested_scopes. destruct raw as [|x raw]; [by intros [= <- <-]|].
  destruct (ParseScopes _) as [req|e] eqn:Hp; [|done]. destruct (Empty req); [done|].
  destruct (Widens req minted || Widens req current) eqn:E; [done|]. intros [= <- <-].
  apply orb_false_iff in E as [_ Hw%Widens_false]. split_and!; [done| |].
  - intros Heq%negb_false_iff. unfold Equal in Heq. apply andb_true_iff in Heq as [Hsz%bool_decide_eq_true Hsub%Subset_spec].
    apply leibniz_equiv, set_subseteq_size_equiv; [exact Hsub|]. by rewrite Hsz.
  - intros _. by eapply parse_known.
Qed.

Lemma refresh_read_valid s p allow r d :
  CORE d -> nul_free (sv_audience s) = true -> valid_refresh d (refresh_read s p allow r d).
Proof.
  intros Hc Haud. unfold refresh_read. destruct allow; [done|]. destruct (Check _ _ _ _); [done|].
  unfold TokenByHash. destruct (tb_tokens d !! _) as [t|] eqn:Ht; [|done].
  destruct (negb (equalDigest _ _)); [done|]. destruct (core_pos _ _ Hc _ _ Ht) as [Hp1 Hp2].
  change (to_Revoked (scanToken ?h t)) with (scan_flag (tk_revoked_at_ms t)).
  change (to_Spent (scanToken ?h t)) with (scan_flag (tk_spent_at_ms t)).
  destruct (scan_flag (tk_revoked_at_ms t)) eqn:Hrev; [done|]. destruct (_ <=? _)%Z; [done|].
  destruct (scan_flag (tk_spent_at_ms t)) eqn:Hsp.
  { simpl. exists t. split_and!; [done|done|]. by apply scan_flag_true. }
  apply scan_flag_false in Hrev, Hsp; [|done..]. unfold ReadAuthorization. simpl.
  destruct (tb_authorizations d !! _) as [a|] eqn:Ha; [|done].
  repeat (case_match; [done|]). unfold refresh_decide. simpl.
  destruct (ParseScopeString (ar_scopes a)) as [current|] eqn:Hcur; [|done].
  destruct (ParseScopeString (ar_minted_scopes a)) as [minted|] eqn:Hmin; [|done].
  destruct (requested_scopes _ _ _) as [[next narrowed]|] eqn:Hreq; [|done].
  destruct (rp_TTLs p) as [[[at_ it] ab]|]; [|done].
  destruct (requested_scopes_ok _ _ _ _ _ Hreq) as (Hsub & Hkept & Hknown).
  split; simpl; [|by apply Hknown; by eapply parse_known|done|done].
  exists t. split; [done|]. split; [by eapply presented_kind; eauto|]. split; [done|].
  exists a. split_and!; [done|done|done|]. intros e He. rewrite He. simpl.
  destruct (core_apos _ _ Hc _ _ Ha) as [_ Hne]. rewrite He in Hne.
  destruct (e =? 0)%Z eqn:E0; [apply Z.eqb_eq in E0; congruence|].
  rewrite <- (UnixMilli_ms e) at 2. apply UnixMilli_mono, earlier_le_r.
Qed.

(** ** Carrying decisions out *)

Definition ticking (r : Readings) : Prop := (0 < UnixMilli (rd_tx r))%Z.

(** Attempts and audit rows are neither credentials nor grants. *)
Lemma record_failure_frame d r spec source :
  let d' := (record_failure r spec source d).1 in
  tb_authorizations d' = tb_authorizations d /\ tb_tokens d' = tb_tokens d /\
  tb_clients d' = tb_clients d /\ tb_enrollments d' = tb_enrollments d /\
  tb_requests d' = tb_requests d /\ tb_codes d' = tb_codes d.
Proof. unfold record_failure. by destruct (RecordFailure _ _ _ _ _). Qed.

Lemma record_failure_good d0 d r spec source :
  good d0 d -> good d0 (record_failure r spec source d).1.
Proof.
  pose proof (record_failure_frame d r spec source) as (? & ? & ? & ? & ? & ?).
  by apply good_same.
Qed.

Lemma append_good d0 d r kind result account source fields :
  good d0 d -> good d0 (appendStandalone r kind result account source fields d).
Proof. by apply good_same. Qed.

Lemma revokeFamilyTx_good id fam source now d :
  now <> 0%Z -> CORE d ->
  exists d', revokeFamilyTx id fam source now d = Ok (d', tt) /\ good d d' /\ DEAD id d'.
Proof.
  intros Hn Hc. eexists. split; [reflexivity|].
  destruct (revoke_all_core now id (of_family fam) _ _ Hn Hc) as (Hc' & Hle & Hd).
  split; [|exact Hd]. split_and!; [done|done|done|by eapply no_new_alter].
Qed.

Lemma revoke_tx_good id now d d' :
  now <> 0%Z -> CORE d ->
  tb_authorizations d' = alter (auth_revoked now) id (tb_authorizations d) ->
  tb_tokens d' = update_where (of_authorization id) (token_revoked now) (tb_tokens d) ->
  CORE d' /\ LE d d' /\ DEAD id d'.
Proof.
  intros Hn Hc Ea Et. unfold CORE, LE, DEAD. rewrite Ea, Et. by apply revoke_auth_core.
Qed.

(** A rotation, unless the token was spent or revoked since. *)
Lemma rotate_tx_good s p f dec now d d' raced :
  now <> 0%Z -> nul_free (sv_audience s) = true -> CORE d -> valid_decision d dec ->
  rotate_tx s p f dec now d = Ok (d', raced) ->
  good d d' /\
  (raced = true -> DEAD (au_ID (de_auth dec)) d') /\
  (raced = false ->
     (exists t, tb_tokens d !! de_hash dec = Some t /\ live t) /\
     (exists t', tb_tokens d' !! de_hash dec = Some t' /\ tk_spent_at_ms t' <> None) /\
     (exists r', tb_authorizations d' !! au_ID (de_auth dec) = Some r' /\
        has_scopes (ar_scopes r') (de_next dec) /\ has_scopes (ar_minted_scopes r') (de_minted dec))).
Proof.
  intros Hn Haud Hc [(t & Ht & Hk & Hid & r & Hr & Hmi & Hcur & Hexp) Hknown Hnext Hkept] Htx.
  destruct (core_pos _ _ Hc _ _ Ht) as [Hp1 Hp2]. set (id := au_ID (de_auth dec)) in *.
  unfold rotate_tx in Htx. apply bind_inv in Htx as (d0 & cur & Hread & Htx).
  unfold tx_read, TokenByHash in Hread. rewrite Ht in Hread. injection Hread as <- <-.
  change (to_Spent (scanToken ?h t)) with (scan_flag (tk_spent_at_ms t)) in Htx.
  change (to_Revoked (scanToken ?h t)) with (scan_flag (tk_revoked_at_ms t)) in Htx.
  destruct (scan_flag (tk_spent_at_ms t) || scan_flag (tk_revoked_at_ms t)) eqn:Ef.
  { apply bind_inv in Htx as (d1 & [] & Hrev & [= <- <-]).
    destruct (revokeFamilyTx_good id (to_FamilyID (scanToken (de_hash dec) t))
      (normalizeSource (rp_Source p)) now d Hn Hc) as (d2 & Hrev' & Hg & Hd).
    fold id in Hrev. rewrite Hrev in Hrev'. injection Hrev' as <-. by split_and!. }
  apply orb_false_iff in Ef as [Hsp%scan_flag_false Hrv%scan_flag_false]; [|done..].
  assert (live t) as Hlive by done. pose proof (Hcur Hlive) as Hsc.
  apply bind_inv in Htx as (d1 & [] & Hspend & Htx). unfold SpendToken in Hspend. rewrite Ht in Hspend.
  injection Hspend as <-. apply bind_inv in Htx as (d2 & [] & Hpair & Htx).
  apply token_pair_inv in Hpair as (_ & H1 & H2 & ->). simpl in H1, H2, Htx.
  assert (tb_authorizations d !! tk_authorization_id t = Some r) as Hr' by by rewrite Hid.
  destruct (rotate_core s f _ _ t r (de_hash dec) (de_accessExpiry dec) (de_refreshExpiry dec) now
    Hc Haud Hn Ht Hk Hlive Hr' Hexp) as (Hc2 & Hle & (u & Hu & Husp) & Hdead); [exact H1|by rewrite Hid|].
  rewrite Hid in Hc2, Hle, Hu, Hdead.
  set (T2 := pair_toks s f id (tk_family_id t) (de_accessExpiry dec) (de_refreshExpiry dec) now _) in *.
  assert (has_scopes (ScopeSet_string (de_next dec)) (de_next dec)) as Hstr by by apply parse_string.
  apply bind_inv in Htx as (d3 & [] & Hnarrow & Htx). unfold mbind, Tx_bind, AppendAudit in Htx.
  simpl in Htx. injection Htx as <- <-. destruct (de_narrowed dec) eqn:En.
  - unfold mbind, Tx_bind, SetAuthorizationScopes, AppendAudit in Hnarrow. simpl in Hnarrow.
    fold id in Hnarrow. rewrite Hr in Hnarrow. injection Hnarrow as <-.
    split; [|split; [done|]].
    + split_and!; [|unfold LE; simpl|done|by eapply no_new_insert; [|left; exists r]].
      * by eapply (narrow_core _ _ id r _ now (de_current dec) (de_next dec)).
      * by eapply (narrow_le _ _ _ id r _ now (de_current dec) (de_next dec)).
    + intros _. split; [by exists t|]. split; [by exists u|]. simpl.
      eexists. rewrite lookup_insert_eq. by split_and!.
  - injection Hnarrow as <-. rewrite (Hkept eq_refl).
    split; [split_and!; [done|done|done|by apply no_new_eq]|]. split; [done|].
    intros _. split; [by exists t|]. split; [by exists u|]. by exists r.
Qed.

Lemma ticking_ne r : ticking r -> UnixMilli (rd_tx r) <> 0%Z.
Proof. unfold ticking. lia. Qed.

Lemma refresh_finish_good s p f r rr d :
  ticking r -> nul_free (sv_audience s) = true -> CORE d -> valid_refresh d rr ->
  good d (refresh_finish s p f r rr d).1.
Proof.
  intros Hn%ticking_ne Haud Hc Hv. unfold refresh_finish. destruct rr as [e|reason refusal|row|dec].
  - by apply cred_refl.
  - unfold recordRefreshFailure.
    pose proof (record_failure_good d d r (rp_Limit p) (normalizeSource (rp_Source p)) (cred_refl _ Hc)) as Hg.
    destruct (record_failure _ _ _ _) as [d1 a]. by apply append_good.
  - unfold detectReuse, AuthzTx.
    destruct (revokeFamilyTx_good (to_AuthorizationID row) (to_FamilyID row)
      (normalizeSource (rp_Source p)) _ d Hn Hc) as (d' & -> & Hg & _).
    by apply record_failure_good.
  - destruct (AuthzTx _ _ d) as [d' res] eqn:E.
    apply AuthzTx_inv in E as [(e & -> & -> & _)|(b & -> & Htx)]; [by apply cred_refl|].
    destruct (rotate_tx_good _ _ _ _ _ _ _ _ Hn Haud Hc Hv Htx) as [Hg _]. by destruct b.
Qed.

(** ** The other operations *)

Lemma grant_good s f row d d1 familyID ae re now u :
  now <> 0%Z -> nul_free (sv_audience s) = true -> CORE d ->
  tb_authorizations d !! fr_authorization f = None ->
  ar_revoked_at_ms row = None -> ar_expires_at_ms row <> Some 0%Z -> row_scopes_ok row ->
  (forall e, ar_expires_at_ms row = Some e -> (UnixMilli re <= e)%Z) ->
  token_pair s f (fr_authorization f) familyID ae re now
    (set_authorizations (<[fr_authorization f := row]> (tb_authorizations d)) d) = Ok (d1, u) ->
  CORE d1 /\ LE d d1 /\ flow_same d d1 /\ tb_authorizations d1 = <[fr_authorization f := row]> (tb_authorizations d).
Proof.
  intros Hn Haud Hc Hid Hrev Hexp Hsc Hle Hpair.
  destruct (insert_auth_core _ _ _ row Hc Hid Hrev Hexp Hsc) as [Hc1 Hle1].
  apply token_pair_inv in Hpair as (_ & H1 & H2 & ->). simpl in *.
  destruct (pair_core s f (fr_authorization f) familyID ae re now _ (tb_tokens d) row Hc1 Haud) as [Hc2 Hle2];
    [by rewrite lookup_insert_eq|done| |done|done|done|].
  - intros k v Hv Hvid _ _. destruct (core_fk _ _ Hc _ _ Hv) as [r' Hr']. congruence.
  - split_and!; [exact Hc2| |done|done]. by eapply core_le_trans.
Qed.

Lemma admin_bootstrap_known : AdminBootstrapScopes ⊆ list_to_set canonicalOrder.
Proof. done. Qed.

Lemma admin_grant_known requested granted narrowed :
  admin_grant requested = Ok (granted, narrowed) -> granted ⊆ list_to_set canonicalOrder.
Proof.
  unfold admin_grant. destruct requested as [|x l]; [by intros [= <- _]|].
  destruct (ParseScopes _) as [req|] eqn:E; [|done]. destruct (Empty req); [done|].
  destruct (Widens _ _); [done|]. intros [= <- _]. by eapply parse_known.
Qed.

Lemma nullInt_ne0 v : nullInt v <> Some 0%Z.
Proof. unfold nullInt. case_decide; congruence. Qed.

Lemma nullInt_Some v e : nullInt v = Some e -> v = e.
Proof. unfold nullInt. case_decide; congruence. Qed.

Lemma mint_good s r f ttls secret requested source d :
  ticking r -> nul_free (sv_audience s) = true -> CORE d ->
  good d (MintAdminSession s r f ttls secret requested source d).1.
Proof.
  intros Hn%ticking_ne Haud Hc. unfold MintAdminSession. cbv zeta.
  destruct (Check _ _ _ _); [by apply cred_refl|]. destruct (negb _).
  { unfold recordAdminSecretFailure.
    pose proof (record_failure_good d d r LimitAdminSecret (normalizeSource source) (cred_refl _ Hc)) as Hg.
    destruct (record_failure _ _ _ _) as [d1 a]. by apply append_good. }
  destruct (admin_grant requested) as [[granted narrowed]|] eqn:Hg; [|by apply cred_refl].
  apply admin_grant_known in Hg. destruct ttls as [[[at_ it] ab]|]; [|by apply cred_refl].
  destruct (AuthzTx _ _ d) as [d' res] eqn:E.
  apply AuthzTx_inv in E as [(e & -> & -> & _)|([] & -> & Htx)]; [by apply cred_refl|]. simpl.
  unfold mint_tx in Htx. apply bind_inv in Htx as (d1 & [] & Hcreate & Htx).
  unfold CreateAuthorization in Hcreate. simpl in Hcreate.
  destruct (tb_authorizations d !! fr_authorization f) eqn:Hid; [done|]. injection Hcreate as <-.
  apply bind_inv in Htx as (d2 & [] & Hpair & [= <-]).
  apply grant_good in Hpair as (Hc2 & Hle2 & Hf2 & Ea); [|done..| | |]; simpl.
  - eapply (good_same _ d2); [done..|]. split_and!; [done|done|done|].
    by eapply no_new_insert; [exact Ea|right].
  - apply nullInt_ne0.
  - exists granted, granted. split_and!; [by apply parse_string|by apply parse_string|done|done].
  - intros e He%nullInt_Some. subst e. apply UnixMilli_mono, earlier_le_r.
Qed.

Lemma AuthzTx_good {A} now (m : Tx A) d :
  CORE d -> (forall d' a, m now d = Ok (d', a) -> good d d') -> good d (AuthzTx now m d).1.
Proof.
  intros Hc Hm. unfold AuthzTx. destruct (m now d) as [[d' a]|e]; [by eapply Hm|by apply cred_refl].
Qed.

Lemma revokeAuthorization_good id reason source now d :
  now <> 0%Z -> CORE d ->
  exists d', revokeAuthorization id reason source now d = Ok (d', tt) /\ good d d' /\ DEAD id d'.
Proof.
  intros Hn Hc. eexists. split; [reflexivity|].
  destruct (revoke_auth_core now id _ _ Hn Hc) as (Hc' & Hle & Hd). split; [|exact Hd].
  split_and!; [done|done|done|by eapply no_new_alter].
Qed.

Lemma revoke_finish_good r source rr d :
  ticking r -> CORE d -> good d (revoke_finish r source rr d).1.
Proof.
  intros Hn%ticking_ne Hc. unfold revoke_finish.
  destruct rr; [by apply cred_refl|by apply record_failure_good, cred_refl|by apply cred_refl|].
  unfold AuthzTx. by destruct (revokeAuthorization_good id "token_revoked" (normalizeSource source) _ d Hn Hc)
    as (d' & -> & Hg & _).
Qed.

Lemma owner_revoke_good r id reason source d :
  ticking r -> CORE d -> good d (OwnerRevoke r id reason source d).1.
Proof.
  intros Hn%ticking_ne Hc. unfold OwnerRevoke, ReadAuthorization.
  destruct (tb_authorizations d !! id); [|by apply cred_refl].
  unfold AuthzTx. by destruct (revokeAuthorization_good id reason (normalizeSource source) _ d Hn Hc)
    as (d' & -> & Hg & _).
Qed.

Lemma logout_good r id d : ticking r -> CORE d -> good d (authLogout r id d).1 /\ DEAD id (authLogout r id d).1.
Proof.
  intros Hn%ticking_ne Hc. destruct (revoke_auth_core _ id _ _ Hn Hc) as (Hc' & Hle & Hd).
  split; [|exact Hd]. split_and!; [done|done|done|by eapply no_new_alter].
Qed.

Lemma cred_trans d0 d1 d2 : good d0 d1 -> good d1 d2 -> good d0 d2.
Proof.
  intros (_ & Hle1 & Hf1 & Hn1) (Hc2 & Hle2 & Hf2 & Hn2).
  split_and!; [done|by etransitivity|by etransitivity|]. intros a r Hr Hk.
  destruct (Hn2 a r Hr Hk) as [r1 Hr1]. apply (Hn1 a r1 Hr1).
  destruct (cle_auth _ _ _ _ Hle2 _ _ Hr1) as (r2 & Hr2 & Hale & _). rewrite Hr in Hr2.
  injection Hr2 as <-. by rewrite <- (ale_kind _ _ Hale).
Qed.

Lemma revoke_each_good ids now d :
  now <> 0%Z -> CORE d ->
  exists d', revoke_each ids now d = Ok (d', tt) /\ good d d' /\
    (forall id, id ∈ ids -> is_Some (tb_authorizations d !! id) -> DEAD id d').
Proof.
  intros Hn. revert d. induction ids as [|id ids IH]; intros d Hc.
  { exists d. split; [done|]. split; [by apply cred_refl|]. by intros id ?%not_elem_of_nil. }
  destruct (revoke_auth_core now id _ _ Hn Hc) as (Hc' & Hle' & Hd).
  simpl. unfold mbind, Tx_bind, RevokeAuthorization, RevokeTokensForAuthorization, revoke_tokens_where, AppendAudit.
  simpl. match goal with |- context [revoke_each ids now ?d1] => set (d1' := d1) end.
  assert (good d d1') as Hg1 by (split_and!; [exact Hc'|exact Hle'|done|by eapply no_new_alter]).
  destruct (IH d1') as (d' & Htx & Hg' & Hids); [exact Hc'|].
  exists d'. split; [exact Htx|]. split; [by eapply cred_trans|].
  assert (forall k, is_Some (tb_authorizations d !! k) -> is_Some (tb_authorizations d1' !! k)) as Hsome.
  { intros k [r Hr]. destruct (cle_auth _ _ _ _ Hle' _ _ Hr) as (r' & Hr' & _). by exists r'. }
  intros k [-> |Hk]%elem_of_cons Hex; [|by apply Hids; [|apply Hsome]].
  destruct Hg' as (Hc1 & Hle1 & _). eapply dead_le; [exact Hc1|exact Hle1|by apply Hsome|exact Hd].
Qed.

Lemma superseded_good s r d :
  ticking r -> CORE d ->
  exists d' ids, RevokeSupersededAdminSessions s r d = (d', Ok ids) /\ good d d' /\
    (forall id, id ∈ ids <-> exists row, tb_authorizations d !! id = Some row /\
       superseded (sv_generation s) row = true) /\
    (forall id, id ∈ ids -> DEAD id d').
Proof.
  intros Hn%ticking_ne Hc. unfold RevokeSupersededAdminSessions, AuthzTx.
  set (ids := superseded_ids (sv_generation s) d).
  destruct (revoke_each_good ids _ d Hn Hc) as (d' & Htx & Hg & Hids).
  assert (forall id, id ∈ ids <-> exists row, tb_authorizations d !! id = Some row /\
    superseded (sv_generation s) row = true) as Hspec.
  { intros id. unfold ids, superseded_ids. rewrite list_elem_of_fmap. split.
    - intros ([k row] & -> & [? ?%elem_of_map_to_list]%list_elem_of_filter). by exists row.
    - intros (row & ? & ?). exists (id, row). split; [done|]. apply list_elem_of_filter.
      split; [done|]. by apply elem_of_map_to_list. }
  exists d', ids. split.
  - unfold RevokeAdminAuthorizationsFromOtherSecrets, mbind, Tx_bind. simpl. fold ids. by rewrite Htx.
  - split; [exact Hg|]. split; [exact Hspec|].
    intros id Hid. apply (Hids id Hid). apply Hspec in Hid as (row & Hrow & _). by exists row.
Qed.

(** ** The grant pipeline leaves the credentials alone, but for the exchange *)

Definition safe (d d' : AuthDB) : Prop := CORE d' /\ LE d d'.

Lemma good_safe d d' : good d d' -> safe d d'.
Proof. intros (? & ? & _). by split. Qed.

Lemma safe_refl d : CORE d -> safe d d.
Proof. by split. Qed.

Definition untouched (d d' : AuthDB) : Prop :=
  tb_authorizations d' = tb_authorizations d /\ tb_tokens d' = tb_tokens d.

#[export] Instance untouched_po : PreOrder untouched.
Proof. split; [by intros ?|]. intros a b c [] []. split; congruence. Qed.

Lemma untouched_safe d0 d d' : untouched d d' -> safe d0 d -> safe d0 d'.
Proof. intros [Ea Et] [Hc Hle]. unfold safe, CORE, LE. by rewrite Ea, Et. Qed.

Lemma record_failure_untouched d r spec source : untouched d (record_failure r spec source d).1.
Proof. pose proof (record_failure_frame d r spec source) as (? & ? & _). by split. Qed.

Definition frame {A} (m : Tx A) : Prop := forall now d d' a, m now d = Ok (d', a) -> untouched d d'.

Lemma frame_ret {A} (a : A) : frame (mret a).
Proof. by intros now d d' b [= <- <-]. Qed.

Lemma frame_bind {A B} (m : Tx A) (k : A -> Tx B) : frame m -> (forall a, frame (k a)) -> frame (m ≫= k).
Proof.
  intros Hm Hk now d d' b (d1 & a & H1 & H2)%bind_inv. apply Hm in H1. apply Hk in H2.
  by transitivity d1.
Qed.

Lemma frame_if {A} (b : bool) (m1 m2 : Tx A) : frame m1 -> frame m2 -> frame (if b then m1 else m2).
Proof. by destruct b. Qed.

Ltac frame_op := let d := fresh in let Htx := fresh in
  intros ? d ? ? Htx; cbv beta delta [CreateOAuthClient ActivateOAuthClient DeleteOAuthClient ExpiredUnreferencedClients
    CreateEnrollmentCode ConsumeEnrollmentCode RevokeEnrollmentCode CreateAuthorizationRequest
    DecideAuthorizationRequest CompleteAuthorizationRequest CreateAuthorizationCode
    ConsumeAuthorizationCode AppendAudit] in Htx;
  repeat case_hyp Htx; simplify_eq/=; done.

Lemma frame_CreateOAuthClient id c : frame (CreateOAuthClient id c). Proof. frame_op. Qed.
Lemma frame_ActivateOAuthClient id : frame (ActivateOAuthClient id). Proof. frame_op. Qed.
Lemma frame_DeleteOAuthClient id : frame (DeleteOAuthClient id). Proof. frame_op. Qed.
Lemma frame_Expired : frame ExpiredUnreferencedClients. Proof. frame_op. Qed.
Lemma frame_CreateEnrollmentCode e : frame (CreateEnrollmentCode e). Proof. frame_op. Qed.
Lemma frame_ConsumeEnrollmentCode i q : frame (ConsumeEnrollmentCode i q). Proof. frame_op. Qed.
Lemma frame_RevokeEnrollmentCode i q : frame (RevokeEnrollmentCode i q). Proof. frame_op. Qed.
Lemma frame_CreateAuthorizationRequest a : frame (CreateAuthorizationRequest a). Proof. frame_op. Qed.
Lemma frame_Decide i st g rs : frame (DecideAuthorizationRequest i st g rs). Proof. frame_op. Qed.
Lemma frame_Complete i : frame (CompleteAuthorizationRequest i). Proof. frame_op. Qed.
Lemma frame_CreateAuthorizationCode c : frame (CreateAuthorizationCode c). Proof. frame_op. Qed.
Lemma frame_ConsumeAuthorizationCode h a : frame (ConsumeAuthorizationCode h a). Proof. frame_op. Qed.
Lemma frame_AppendAudit k rs ac au so pl : frame (AppendAudit k rs ac au so pl). Proof. frame_op. Qed.

Lemma frame_sweep ids : frame (sweep_each ids).
Proof.
  induction ids as [|id ids IH]; [apply frame_ret|]. apply frame_bind; [apply frame_DeleteOAuthClient|].
  intros _. apply frame_bind; [apply frame_AppendAudit|]. by intros _.
Qed.

Create HintDb frame.
#[local] Hint Resolve frame_ret frame_CreateOAuthClient frame_ActivateOAuthClient frame_DeleteOAuthClient
  frame_Expired frame_CreateEnrollmentCode frame_ConsumeEnrollmentCode frame_RevokeEnrollmentCode
  frame_CreateAuthorizationRequest frame_Decide frame_Complete frame_CreateAuthorizationCode
  frame_ConsumeAuthorizationCode frame_AppendAudit frame_sweep : frame.

Ltac frames := repeat first [apply frame_bind; [|intros ?] | apply frame_if | solve [auto with frame]].

Lemma AuthzTx_untouched {A} now (m : Tx A) d : frame m -> untouched d (AuthzTx now m d).1.
Proof.
  intros Hm. unfold AuthzTx. destruct (m now d) as [[d' a]|e] eqn:E; [by eapply Hm|done].
Qed.

(** A handler that ends in one transaction. *)
Ltac tx_frame :=
  match goal with |- context [AuthzTx ?n ?m ?d] =>
    let Hu := fresh "Hu" in
    assert (frame m) as Hu by frames; apply (fun Hf => AuthzTx_untouched n m d Hf) in Hu;
    destruct (AuthzTx n m d) as [? [?|?]]; cbn [fst snd] in Hu |- *
  end.

Lemma issue_untouched label scopes allowed ttl id hash source r d :
  untouched d (IssueEnrollmentCode label scopes allowed ttl id hash source r d).1.
Proof.
  unfold IssueEnrollmentCode. case_decide; [done|].
  destruct scopes as [|x xs], allowed as [|z zs]; try done;
    (destruct (enrollmentCeiling _ _); [|done]); (destruct ttl; [|done]); by tx_frame.
Qed.

Lemma revoke_enrollment_untouched r id reason source d :
  untouched d (OwnerRevokeEnrollment r id reason source d).1.
Proof. unfold OwnerRevokeEnrollment. destruct (tb_enrollments d !! id); [|done]. by tx_frame. Qed.

Lemma submit_untouched ctx id token source ttl r sr d :
  untouched d (submit_finish ctx id token source ttl r sr d).1.
Proof.
  unfold submit_finish. destruct sr; [done| |done|].
  - transitivity (record_failure r LimitEnrollmentSource source d).1; apply record_failure_untouched.
  - unfold pending_tx. tx_frame; [by case_match|done].
Qed.

Lemma approve_untouched id source r ar d : untouched d (approve_finish id source r ar d).1.
Proof.
  unfold approve_finish. destruct ar as [[[row selected] granted]|e]; [|done].
  unfold decide_tx, decided. tx_frame; [by case_match|done].
Qed.

Lemma deny_untouched id reason source r dr d : untouched d (deny_finish id reason source r dr d).1.
Proof.
  unfold deny_finish. destruct dr as [row|e]; [|done].
  unfold decide_tx, decided. tx_frame; [by case_match|done].
Qed.

Lemma complete_untouched hash ttl r cr d : untouched d (complete_finish hash ttl r cr d).1.
Proof.
  unfold complete_finish. destruct cr; [done..|]. unfold complete_tx. tx_frame; [by case_match|done].
Qed.

Lemma sweep_untouched r d : untouched d (SweepExpiredRegistrations r d).1.
Proof. unfold SweepExpiredRegistrations. by tx_frame. Qed.

(** ** The exchange *)

Definition valid_exchange (er : ExchangeRead) : Prop :=
  match er with
  | ExchangeMint code scopes _ refreshExpiry deadline _ =>
      scopes ⊆ list_to_set canonicalOrder /\ ScopeAdmin ∉ scopes /\
      has_scopes (co_Scopes code) scopes /\ (UnixMilli refreshExpiry <= UnixMilli deadline)%Z
  | _ => True
  end.

Lemma Has_false s sc : Has s sc = false <-> sc ∉ s.
Proof. apply bool_decide_eq_false. Qed.

Lemma exchange_read_valid i ttls allow r d : valid_exchange (exchange_read i ttls allow r d).
Proof.
  unfold exchange_read. destruct allow; [done|]. destruct (Check _ _ _ _); [done|].
  destruct (AuthorizationCodeByHash _ _) as [code|]; [|done].
  repeat (case_match; [done|]). destruct (ce_Verify i code); [done|].
  destruct (code_scopes code) as [scopes|] eqn:E; [|done].
  destruct ttls as [[[at_ it] ab]|]; [|done]. unfold code_scopes in E.
  destruct (ParseScopeString (co_Scopes code)) as [sc|] eqn:Hp; [|done]. destruct (Empty sc); [done|].
  destruct (Has sc ScopeAdmin) eqn:Hadm; [done|]. injection E as <-. apply Has_false in Hadm.
  split_and!; [by eapply parse_known|done|done|]. apply UnixMilli_mono, earlier_le_r.
Qed.

Lemma replay_safe r source code d :
  ticking r -> CORE d ->
  safe d (revokeAfterReplay r source code d).1 /\
  (co_AuthorizationID code <> ""%string ->
     DEAD (co_AuthorizationID code) (revokeAfterReplay r source code d).1) /\
  (revokeAfterReplay r source code d).2 = Err ErrGrantReplayed.
Proof.
  intros Hn%ticking_ne Hc. unfold revokeAfterReplay. case_decide as E.
  - split_and!; [|done|done]. eapply untouched_safe; [apply record_failure_untouched|by apply safe_refl].
  - unfold AuthzTx. set (d1 := match replay_tx source code (UnixMilli (rd_tx r)) d with
      Ok (d1, _) => d1 | Err _ => d end).
    assert (replay_tx source code (UnixMilli (rd_tx r)) d = Ok (d1, tt)) as -> by done.
    cbv beta iota. cbn [fst snd].
    destruct (revoke_tx_good (co_AuthorizationID code) _ d d1 Hn Hc eq_refl eq_refl) as (Hc' & Hle & Hd).
    pose proof (record_failure_untouched d1 r LimitOAuthToken source) as [Ea Et].
    unfold safe, CORE, LE, DEAD. rewrite Ea, Et. by split_and!.
Qed.

(** What an exchange that mints does to the tables. *)
Lemma exchange_tx_inv s f code scopes ae re deadline now0 source now d d' raced :
  exchange_tx s f code scopes ae re deadline now0 source now d = Ok (d', raced) ->
  (raced = true /\ d' = d /\
     forall row, tb_codes d !! co_CodeHash code = Some row -> cd_consumed_at_ms row <> None) \/
  (raced = false /\ exists row d2 u,
     tb_codes d !! co_CodeHash code = Some row /\ cd_consumed_at_ms row = None /\
     tb_authorizations d !! fr_authorization f = None /\
     let d1 := set_codes (<[co_CodeHash code := code_consumed now (fr_authorization f) row]> (tb_codes d)) d in
     let ar := mkAuthorizationRow AuthKindOAuth (nullString (co_ClientID code)) (ScopeSet_string scopes)
       (ScopeSet_string scopes) None (nullString source) None (nullInt (UnixMilli deadline))
       (if (UnixMilli now0 =? 0)%Z then now else UnixMilli now0) now in
     token_pair s f (fr_authorization f) (fr_family f) ae re now
       (set_authorizations (<[fr_authorization f := ar]> (tb_authorizations d1)) d1) = Ok (d2, u) /\
     tb_authorizations d' = tb_authorizations d2 /\ tb_tokens d' = tb_tokens d2 /\ flow_same d2 d').
Proof.
  unfold exchange_tx. intros (d1 & ok & Hcons & Htx)%bind_inv. unfold ConsumeAuthorizationCode in Hcons.
  destruct (tb_codes d !! co_CodeHash code) as [row|] eqn:Hrow.
  2: { injection Hcons as <- <-. injection Htx as <- <-. by left. }
  destruct (bool_decide (cd_consumed_at_ms row = None)) eqn:Hc.
  2: { injection Hcons as <- <-. injection Htx as <- <-. left. split_and!; [done|done|].
       apply bool_decide_eq_false in Hc. by intros ? [= <-]. }
  apply bool_decide_eq_true in Hc. injection Hcons as <- <-. simpl in Htx.
  apply bind_inv in Htx as (d2 & [] & Hcreate & Htx). unfold CreateAuthorization in Hcreate.
  simpl in Hcreate. destruct (tb_authorizations d !! fr_authorization f) eqn:Hid; [done|].
  injection Hcreate as <-. apply bind_inv in Htx as (d3 & u & Hpair & [= <- <-]).
  right. split; [done|]. exists row, d3, u. by split_and!.
Qed.

Lemma exchange_tx_safe s f code scopes ae re deadline now0 source now d d' raced :
  now <> 0%Z -> nul_free (sv_audience s) = true -> CORE d ->
  valid_exchange (ExchangeMint code scopes ae re deadline now0) ->
  exchange_tx s f code scopes ae re deadline now0 source now d = Ok (d', raced) -> safe d d'.
Proof.
  intros Hn Haud Hc (Hk & Hadm & _ & Hexp) [(_ & -> & _)|(_ & row & d2 & u & _ & _ & Hid & Hpair & Ea & Et & _)]%exchange_tx_inv;
    [by apply safe_refl|].
  apply grant_good in Hpair as (Hc2 & Hle2 & _); [|done|done|done|done|done| | |]; simpl.
  - eapply untouched_safe; [split; [exact Ea|exact Et]|]. by split.
  - apply nullInt_ne0.
  - exists scopes, scopes. split_and!; [by apply parse_string|by apply parse_string|done|done].
  - by intros e <-%nullInt_Some.
Qed.

Lemma exchange_finish_safe s i f r er d :
  ticking r -> nul_free (sv_audience s) = true -> CORE d -> valid_exchange er ->
  safe d (exchange_finish s i f r er d).1.
Proof.
  intros Hn Haud Hc Hv. unfold exchange_finish.
  assert (forall d1 source reason refusal, safe d d1 ->
    safe d (recordOAuthFailure r source reason refusal d1).1) as Hfail.
  { intros d1 source reason refusal Hs. unfold recordOAuthFailure.
    pose proof (record_failure_untouched d1 r LimitOAuthToken source) as Hu.
    destruct (record_failure _ _ _ _) as [d2 a]. simpl in *. eapply untouched_safe; [|exact Hs]. exact Hu. }
  destruct er as [e|reason refusal|code|code refusal|code scopes ae re deadline now0].
  - by apply safe_refl.
  - by apply Hfail, safe_refl.
  - by apply replay_safe.
  - unfold unbound_tx. eapply untouched_safe; [|by apply safe_refl]. tx_frame; [|done].
    etransitivity; [exact Hu|apply record_failure_untouched].
  - destruct (AuthzTx _ _ d) as [d1 res] eqn:E.
    apply AuthzTx_inv in E as [(e & -> & -> & _)|(raced & -> & Htx)]; [by apply safe_refl|].
    pose proof (exchange_tx_safe _ _ _ _ _ _ _ _ _ _ _ _ _ (ticking_ne _ Hn) Haud Hc Hv Htx) as Hs.
    destruct raced; [|exact Hs]. unfold AuthorizationCodeByHash.
    destruct (tb_codes d1 !! ce_CodeHash i) as [row|]; [|by apply Hfail].
    destruct (replay_safe r (normalizeSource (ce_Source i)) (scanAuthorizationCode (ce_CodeHash i) row) d1 Hn (proj1 Hs))
      as ([Hc2 Hle2] & _). split; [exact Hc2|]. etransitivity; [apply Hs|exact Hle2].
Qed.
End Authority.

(** ** The system *)

(** A decision whose transaction is still to come. *)
Inductive Pending : Type :=
| PRefresh (s : Service) (p : refreshParams) (rr : RefreshRead)
| PExchange (s : Service) (i : CodeExchange) (er : ExchangeRead)
| PRevoke (source : string) (rr : RevokeRead)
| PSubmit (ctx : contextPayload) (source : string) (sr : SubmitRead)
| PApprove (id source : string) (ar : Result AdminError (AuthorizationRequest * ScopeSet * ScopeSet))
| PDeny (id reason source : string) (dr : Result AdminError AuthorizationRequest)
| PComplete (cr : CompleteRead).

(** [sy_used]: the IDs of requests and the digests of authorization codes drawn so far;
    a fresh random value is not among them. *)
Record Sys := mkSys {
  sy_db : AuthDB;
  sy_pool : list Pending;
  sy_used : gset string;
}.

Definition initial : Sys := mkSys empty_db [] ∅.

Definition ran (y : Sys) (d : AuthDB) : Sys := mkSys d (sy_pool y) (sy_used y).
Definition chose (y : Sys) (p : Pending) : Sys := mkSys (sy_db y) (p :: sy_pool y) (sy_used y).
Definition drew (y : Sys) (name : string) : Sys := mkSys (sy_db y) (sy_pool y) ({[name]} ∪ sy_used y).

Section System.
Context `{SHA256} (match_redirect : list string -> string -> bool).

Inductive Step (y : Sys) : Sys -> Prop :=
| st_mint s r f ttls secret requested source :
    ticking r -> nul_free (sv_audience s) = true ->
    Step y (ran y (MintAdminSession s r f ttls secret requested source (sy_db y)).1)
| st_refresh_read s p allow r :
    nul_free (sv_audience s) = true ->
    Step y (chose y (PRefresh s p (refresh_read s p allow r (sy_db y))))
| st_refresh_finish s p rr f r :
    PRefresh s p rr ∈ sy_pool y -> ticking r ->
    Step y (ran y (refresh_finish s p f r rr (sy_db y)).1)
| st_exchange_read s i ttls allow r :
    nul_free (sv_audience s) = true ->
    Step y (chose y (PExchange s i (exchange_read i ttls allow r (sy_db y))))
| st_exchange_finish s i er f r :
    PExchange s i er ∈ sy_pool y -> ticking r -> fr_authorization f <> ""%string ->
    Step y (ran y (exchange_finish s i f r er (sy_db y)).1)
| st_revoke_read s presented clientID source allow r :
    Step y (chose y (PRevoke source (revoke_read s presented clientID source allow r (sy_db y))))
| st_revoke_finish source rr r :
    PRevoke source rr ∈ sy_pool y -> ticking r ->
    Step y (ran y (revoke_finish r source rr (sy_db y)).1)
| st_owner_revoke r id reason source :
    ticking r -> Step y (ran y (OwnerRevoke r id reason source (sy_db y)).1)
| st_logout r id : ticking r -> Step y (ran y (authLogout r id (sy_db y)).1)
| st_superseded s r :
    ticking r -> Step y (ran y (RevokeSupersededAdminSessions s r (sy_db y)).1)
| st_issue label scopes allowed ttl id hash source r :
    ticking r -> id <> ""%string -> Step y (ran y (IssueEnrollmentCode label scopes allowed ttl id hash source r (sy_db y)).1)
| st_revoke_enrollment r id reason source :
    ticking r -> Step y (ran y (OwnerRevokeEnrollment r id reason source (sy_db y)).1)
| st_submit_read browser ctx selected hash source r :
    Step y (chose y (PSubmit ctx source (submit_read match_redirect browser ctx selected hash source r (sy_db y))))
| st_submit_finish ctx source sr id token ttl r :
    PSubmit ctx source sr ∈ sy_pool y -> ticking r -> id ∉ sy_used y ->
    Step y (drew (ran y (submit_finish ctx id token source ttl r sr (sy_db y)).1) id)
| st_approve_read id scopes source r :
    Step y (chose y (PApprove id source (approve_read id scopes r (sy_db y))))
| st_approve_finish id source ar r :
    PApprove id source ar ∈ sy_pool y -> ticking r ->
    Step y (ran y (approve_finish id source r ar (sy_db y)).1)
| st_deny_read id reason source :
    Step y (chose y (PDeny id reason source (deny_read id (sy_db y))))
| st_deny_finish id reason source dr r :
    PDeny id reason source dr ∈ sy_pool y -> ticking r ->
    Step y (ran y (deny_finish id reason source r dr (sy_db y)).1)
| st_complete_read id r :
    Step y (chose y (PComplete (complete_read id r (sy_db y))))
| st_complete_finish cr hash ttl r :
    PComplete cr ∈ sy_pool y -> ticking r -> hash ∉ sy_used y ->
    Step y (drew (ran y (complete_finish hash ttl r cr (sy_db y)).1) hash)
| st_client r id c :
    ticking r -> Step y (ran y (AuthzTx (UnixMilli (rd_tx r)) (CreateOAuthClient id c) (sy_db y)).1)
| st_delete_client r id reason source n :
    ticking r ->
    Step y (ran y (AuthzTx (UnixMilli (rd_tx r)) (delete_client_tx id reason source n) (sy_db y)).1)
| st_sweep r : ticking r -> Step y (ran y (SweepExpiredRegistrations r (sy_db y)).1).
End System.

Section Reachable.
Context `{CollisionFree} (match_redirect : list string -> string -> bool).
Notation Step := (Step match_redirect).

(** The hash of the presented token, and the one a decision is about. *)
Definition presented (s : Service) (p : refreshParams) : string :=
  tokenHash (sv_audience s) TokenKindRefresh (rp_PresentedToken p).

Definition decides (rr : RefreshRead) : option string :=
  match rr with
  | RefreshRotate dec => Some (de_hash dec)
  | RefreshReuse row => Some (to_TokenHash row)
  | _ => None
  end.

Lemma refresh_read_decides s p allow r d :
  decides (refresh_read s p allow r d) <> None ->
  decides (refresh_read s p allow r d) = Some (presented s p).
Proof.
  unfold refresh_read. destruct allow; [done|]. destruct (Check _ _ _ _); [done|].
  unfold TokenByHash. destruct (tb_tokens d !! _) as [t|] eqn:Ht; [|done].
  repeat (case_match; [done|]). destruct (to_Spent _); [done|].
  destruct (ReadAuthorization _ _) as [a|]; [|done]. repeat (case_match; [done|]).
  unfold refresh_decide. repeat case_match; done.
Qed.

Definition valid_pending (d : AuthDB) (p : Pending) : Prop :=
  match p with
  | PRefresh s p rr =>
      nul_free (sv_audience s) = true /\ valid_refresh d rr /\
      (decides rr <> None -> decides rr = Some (presented s p))
  | PExchange s _ er => nul_free (sv_audience s) = true /\ valid_exchange er
  | _ => True
  end.

Definition sys_ok (y : Sys) : Prop :=
  CORE (sy_db y) /\ Forall (valid_pending (sy_db y)) (sy_pool y).

Lemma valid_pending_le d d' p : LE d d' -> valid_pending d p -> valid_pending d' p.
Proof. intros Hle. destruct p; simpl; try done. intros (? & ? & ?). split_and!; [done|by eapply valid_refresh_le|done]. Qed.

Lemma empty_core : CORE empty_db.
Proof. split; intros *; by rewrite ?lookup_empty. Qed.

Lemma initial_ok : sys_ok initial.
Proof. split; [apply empty_core|constructor]. Qed.

Lemma ran_ok y d' : sys_ok y -> safe (sy_db y) d' -> sys_ok (ran y d') /\ LE (sy_db y) d'.
Proof.
  intros [Hc Hp] [Hc' Hle]. split; [|done]. split; [done|]. simpl.
  eapply Forall_impl; [exact Hp|]. intros p. by apply valid_pending_le.
Qed.

Lemma chose_ok y p : sys_ok y -> valid_pending (sy_db y) p -> sys_ok (chose y p).
Proof. intros [Hc Hp] Hv. split; [done|]. by constructor. Qed.

Lemma sys_pending y p : sys_ok y -> p ∈ sy_pool y -> valid_pending (sy_db y) p.
Proof. intros [_ Hp]. rewrite Forall_forall in Hp. apply Hp. Qed.

(** The step changes the tables safely, or only adds a decision that holds. *)
Lemma step_ok y y' : sys_ok y -> Step y y' -> sys_ok y' /\ LE (sy_db y) (sy_db y').
Proof.
  intros Hok Hst. pose proof (proj1 Hok) as Hc.
  assert (forall d', untouched (sy_db y) d' -> sys_ok (ran y d') /\ LE (sy_db y) d') as Hun.
  { intros d' Hu. apply ran_ok; [done|]. eapply untouched_safe; [exact Hu|by apply safe_refl]. }
  assert (forall p, valid_pending (sy_db y) p -> sys_ok (chose y p) /\ LE (sy_db y) (sy_db (chose y p))) as Hch.
  { intros p Hp. split; [by apply chose_ok|]. simpl. done. }
  destruct Hst as [| | ? ? ? ? ? Hin | | ? ? ? ? ? Hin| | | | | | | | | | | | | | | | | |].
  - apply ran_ok; [done|]. by apply good_safe, mint_good.
  - apply Hch. split_and!; [done|by apply refresh_read_valid|apply refresh_read_decides].
  - apply ran_ok; [done|]. apply (sys_pending _ _ Hok) in Hin as (Haud & Hv & _).
    by apply good_safe, refresh_finish_good.
  - apply Hch. split; [done|]. apply exchange_read_valid.
  - apply ran_ok; [done|]. apply (sys_pending _ _ Hok) in Hin as [Haud Hv].
    by apply exchange_finish_safe.
  - by apply Hch.
  - apply ran_ok; [done|]. by apply good_safe, revoke_finish_good.
  - apply ran_ok; [done|]. by apply good_safe, owner_revoke_good.
  - apply ran_ok; [done|]. by apply good_safe, logout_good.
  - apply ran_ok; [done|]. destruct (superseded_good s r (sy_db y)) as (d' & ids & -> & Hg & _); [done..|].
    by apply good_safe.
  - apply Hun, issue_untouched.
  - apply Hun, revoke_enrollment_untouched.
  - by apply Hch.
  - destruct (Hun _ (submit_untouched ctx id token source ttl r sr (sy_db y))) as [[? ?] ?]. done.
  - by apply Hch.
  - apply Hun, approve_untouched.
  - by apply Hch.
  - apply Hun, deny_untouched.
  - by apply Hch.
  - destruct (Hun _ (complete_untouched hash ttl r cr (sy_db y))) as [[? ?] ?]. done.
  - apply Hun. apply AuthzTx_untouched, frame_CreateOAuthClient.
  - apply Hun. apply AuthzTx_untouched. apply frame_bind; [apply frame_DeleteOAuthClient|].
    intros _. apply frame_AppendAudit.
  - apply Hun, sweep_untouched.
Qed.

Lemma steps_ok y y' : sys_ok y -> rtc Step y y' -> sys_ok y' /\ LE (sy_db y) (sy_db y').
Proof.
  intros Hok Hr. induction Hr as [y|y y1 y2 Hst _ IH]; [done|].
  destruct (step_ok _ _ Hok Hst) as [Hok1 Hle1]. destruct (IH Hok1) as [Hok2 Hle2].
  split; [done|]. by etransitivity.
Qed.

Lemma sys_reachable_ok y : rtc Step initial y -> sys_ok y.
Proof. intros Hr. by apply (steps_ok _ _ initial_ok Hr). Qed.

(** ** Lemmas on single operations *)

Lemma refresh_Ok_inv s p f r rr d d' sess :
  refresh_finish s p f r rr d = (d', Ok sess) ->
  exists dec, rr = RefreshRotate dec /\
    rotate_tx s p f dec (UnixMilli (rd_tx r)) d = Ok (d', false) /\
    se_AuthorizationID sess = au_ID (de_auth dec) /\ se_Scopes sess = de_next dec /\
    se_MintedScopes sess = de_minted dec.
Proof.
  unfold refresh_finish, recordRefreshFailure, detectReuse.
  destruct rr as [e|reason refusal|row|dec]; [done| | |].
  - by destruct (record_failure _ _ _ _).
  - by destruct (AuthzTx _ _ d) as [d1 [u|e]].
  - destruct (AuthzTx _ _ d) as [d1 res] eqn:E.
    apply AuthzTx_inv in E as [(e & -> & -> & _)|([] & -> & Htx)]; [done..|].
    intros [= <- <-]. by exists dec.
Qed.

(** A decision about a token that is spent or revoked by now ends the session. *)
Lemma stale_reused s p f r rr d h t :
  ticking r -> CORE d -> valid_refresh d rr -> decides rr = Some h ->
  tb_tokens d !! h = Some t -> ~ live t \/ (exists row, rr = RefreshReuse row) ->
  exists d', refresh_finish s p f r rr d = (d', Err ErrTokenReused) /\
    DEAD (tk_authorization_id t) d'.
Proof.
  intros Hn%ticking_ne Hc Hv Hdec Ht Hst. unfold refresh_finish. destruct rr as [e|reason refusal|row|dec]; try done.
  - destruct Hv as (t' & Ht' & Hid & _). injection Hdec as <-. rewrite Ht in Ht'. injection Ht' as <-.
    unfold detectReuse, AuthzTx. rewrite Hid.
    destruct (revokeFamilyTx_good (to_AuthorizationID row) (to_FamilyID row)
      (normalizeSource (rp_Source p)) _ d Hn Hc) as (d' & -> & _ & Hd).
    eexists. split; [reflexivity|].
    pose proof (record_failure_untouched d' r (rp_Limit p) (normalizeSource (rp_Source p))) as [Ea Et].
    unfold DEAD in *. by rewrite Ea, Et.
  - destruct Hv as [(t' & Ht' & _ & Hid & _) _ _ _]. injection Hdec as <-. rewrite Ht in Ht'.
    injection Ht' as <-. destruct (core_pos _ _ Hc _ _ Ht) as [Hp1 Hp2].
    unfold AuthzTx, rotate_tx, mbind, Tx_bind, tx_read, TokenByHash. rewrite Ht.
    change (to_Spent (scanToken ?h t)) with (scan_flag (tk_spent_at_ms t)).
    change (to_Revoked (scanToken ?h t)) with (scan_flag (tk_revoked_at_ms t)).
    assert (scan_flag (tk_spent_at_ms t) || scan_flag (tk_revoked_at_ms t) = true) as ->.
    { destruct Hst as [Hnl|[row ?]]; [|done]. apply not_false_iff_true. intros E. apply Hnl.
      apply orb_false_iff in E as [E1%scan_flag_false E2%scan_flag_false]; done. }
    destruct (revokeFamilyTx_good (au_ID (de_auth dec)) (to_FamilyID (scanToken (de_hash dec) t))
      (normalizeSource (rp_Source p)) _ d Hn Hc) as (d' & E & _ & Hd).
    fold (revokeFamilyTx (au_ID (de_auth dec))). rewrite E. exists d'. split; [done|]. by rewrite Hid.
Qed.

Lemma rotated_spent s p f r dec d d' :
  ticking r -> nul_free (sv_audience s) = true -> CORE d -> valid_decision d dec ->
  rotate_tx s p f dec (UnixMilli (rd_tx r)) d = Ok (d', false) ->
  exists t', tb_tokens d' !! de_hash dec = Some t' /\ tk_spent_at_ms t' <> None /\
    tk_authorization_id t' = au_ID (de_auth dec).
Proof.
  intros Hn%ticking_ne Haud Hc Hv Htx.
  destruct (rotate_tx_good _ _ _ _ _ _ _ _ Hn Haud Hc Hv Htx) as ((_ & [_ Hle] & _) & _ & Hok).
  destruct (Hok eq_refl) as (_ & (t' & Ht' & Hs) & _). exists t'. split_and!; [done|done|].
  destruct Hv as [(t & Ht & _ & Hid & _) _ _ _]. destruct (Hle _ _ Ht) as (u & Hu & Hul).
  rewrite Ht' in Hu. injection Hu as <-. by rewrite (tle_auth _ _ Hul).
Qed.

(** ** Properties *)

(** C2: a refresh token is redeemed at most once.  Once a presentation of it has been
    answered with a session, then whatever happens in between and however the two
    presentations overlap, no presentation of the same token is answered with a session
    again: one whose reads found the token in order, or found it spent, is answered as a
    reuse and leaves the session's authorization and all its tokens revoked. *)
Theorem refresh_single_use y s p rr f r d1 sess y2 :
  rtc Step initial y -> PRefresh s p rr ∈ sy_pool y -> ticking r ->
  refresh_finish s p f r rr (sy_db y) = (d1, Ok sess) -> rtc Step (ran y d1) y2 ->
  forall s2 p2 rr2 f2 r2, PRefresh s2 p2 rr2 ∈ sy_pool y2 -> ticking r2 ->
    presented s2 p2 = presented s p ->
    (forall d3 sess2, refresh_finish s2 p2 f2 r2 rr2 (sy_db y2) <> (d3, Ok sess2)) /\
    (decides rr2 <> None ->
       exists d3, refresh_finish s2 p2 f2 r2 rr2 (sy_db y2) = (d3, Err ErrTokenReused) /\
         DEAD (se_AuthorizationID sess) d3).
Proof.
  intros Hr Hin Hn Hfin Hr2 s2 p2 rr2 f2 r2 Hin2 Hn2 Hp2.
  pose proof (sys_reachable_ok y Hr) as Hok. pose proof (proj1 Hok) as Hc.
  apply (sys_pending _ _ Hok) in Hin as (Haud & Hv & Hdec).
  pose proof (refresh_finish_good s p f r rr _ Hn Haud Hc Hv) as Hg. rewrite Hfin in Hg.
  apply refresh_Ok_inv in Hfin as (dec & -> & Htx & Hid & _). simpl in Hdec, Hv.
  destruct (rotated_spent _ _ _ _ _ _ _ Hn Haud Hc Hv Htx) as (t & Ht & Hsp & Hta).
  injection (Hdec ltac:(done)) as Hh.
  destruct (ran_ok y d1 Hok (good_safe _ _ Hg)) as [Hok1 _].
  destruct (steps_ok _ _ Hok1 Hr2) as [Hok2 [_ Hle2]].
  destruct (Hle2 _ _ Ht) as (t2 & Ht2 & Hl2).
  apply (sys_pending _ _ Hok2) in Hin2 as (_ & Hv2 & Hdec2).
  assert (decides rr2 <> None -> exists d3, refresh_finish s2 p2 f2 r2 rr2 (sy_db y2) = (d3, Err ErrTokenReused) /\
    DEAD (se_AuthorizationID sess) d3) as Hre.
  { intros Hd. rewrite Hid, <- Hta, <- (tle_auth _ _ Hl2).
    apply (stale_reused _ _ _ _ _ _ (de_hash dec)); [done|apply Hok2|done| |done|].
    - rewrite Hh, <- Hp2. by apply Hdec2.
    - left. intros [Hs _]. rewrite (tle_spent _ _ Hl2) in Hs; done. }
  split; [|exact Hre]. intros d3 sess2 Hfin2.
  pose proof Hfin2 as (dec2 & -> & _)%refresh_Ok_inv. destruct (Hre ltac:(done)) as (d4 & E & _).
  by rewrite Hfin2 in E.
Qed.

(** What ends an authorization. *)
Inductive Ends (id : string) (y : Sys) : AuthDB -> Prop :=
| ends_reuse s p rr f r t :
    PRefresh s p rr ∈ sy_pool y -> ticking r -> decides rr <> None ->
    (refresh_finish s p f r rr (sy_db y)).2 = Err ErrTokenReused ->
    tb_tokens (sy_db y) !! presented s p = Some t -> tk_authorization_id t = id ->
    Ends id y (refresh_finish s p f r rr (sy_db y)).1
| ends_logout r : ticking r -> Ends id y (authLogout r id (sy_db y)).1
| ends_owner r reason source :
    ticking r -> Ends id y (OwnerRevoke r id reason source (sy_db y)).1
| ends_client source r :
    ticking r -> Ends id y (revoke_finish r source (RevokeGrant id) (sy_db y)).1
| ends_superseded s r row :
    ticking r -> tb_authorizations (sy_db y) !! id = Some row ->
    superseded (sv_generation s) row = true ->
    Ends id y (RevokeSupersededAdminSessions s r (sy_db y)).1
| ends_replay s i f r code :
    ticking r -> id <> ""%string -> co_AuthorizationID code = id ->
    Ends id y (exchange_finish s i f r (ExchangeReplay code) (sy_db y)).1.

Lemma rotate_tx_err s p f dec now d : rotate_tx s p f dec now d <> Err ErrTokenReused.
Proof.
  unfold rotate_tx, mbind, Tx_bind, tx_read, TokenByHash, token_pair, SpendToken, InsertToken,
    SetAuthorizationScopes, revokeFamilyTx, AppendAudit, mbind, Tx_bind, mret, Tx_ret.
  intros E. repeat (case_match; simplify_eq/=).
Qed.

Lemma reused_dead s p f r rr d t :
  ticking r -> nul_free (sv_audience s) = true -> CORE d -> valid_refresh d rr ->
  decides rr = Some (presented s p) -> tb_tokens d !! presented s p = Some t ->
  (refresh_finish s p f r rr d).2 = Err ErrTokenReused ->
  DEAD (tk_authorization_id t) (refresh_finish s p f r rr d).1.
Proof.
  intros Hn Haud Hc Hv Hd Ht Herr.
  destruct (decide (tk_spent_at_ms t = None /\ tk_revoked_at_ms t = None)) as [Hl|Hl].
  2: { destruct (stale_reused s p f r rr d _ t Hn Hc Hv Hd Ht (or_introl Hl)) as (d' & -> & ?). done. }
  destruct rr as [e|reason refusal|row|dec]; try done.
  - destruct (stale_reused s p f r (RefreshReuse row) d _ t Hn Hc Hv Hd Ht) as (d' & -> & ?); [|done].
    right. eauto.
  - unfold refresh_finish in *. destruct (AuthzTx _ _ d) as [d' res] eqn:E.
    apply AuthzTx_inv in E as [(e & -> & -> & Htx)|(raced & -> & Htx)]; cbn [fst snd] in *.
    + injection Herr as ->. by apply rotate_tx_err in Htx.
    + destruct raced; [|done].
      destruct (rotate_tx_good _ _ _ _ _ _ _ _ (ticking_ne _ Hn) Haud Hc Hv Htx) as (_ & Hdead & _).
      destruct Hv as [(t' & Ht' & _ & Hid & _) _ _ _]. injection Hd as Hh. rewrite <- Hh in Ht.
      rewrite Ht in Ht'. injection Ht' as <-. rewrite Hid. by apply Hdead.
Qed.

Lemma ends_dead id y d :
  sys_ok y -> is_Some (tb_authorizations (sy_db y) !! id) -> Ends id y d ->
  safe (sy_db y) d /\ DEAD id d.
Proof.
  intros Hok [row0 Hrow0] He. pose proof (proj1 Hok) as Hc.
  destruct He as [s p rr f r t Hin Hn Hd Hre Ht Hid|r Hn|r reason source Hn|source r Hn|s r row Hn Hrow Hsup
    |s i f r code Hn Hne Hid].
  - apply (sys_pending _ _ Hok) in Hin as (Haud & Hv & Hdec). split; [by apply good_safe, refresh_finish_good|].
    rewrite <- Hid. by apply reused_dead; auto.
  - destruct (logout_good r id _ Hn Hc) as [Hg Hd]. split; [by apply good_safe|done].
  - split; [by apply good_safe, owner_revoke_good|]. unfold OwnerRevoke, ReadAuthorization, AuthzTx.
    rewrite Hrow0. by destruct (revokeAuthorization_good id reason (normalizeSource source) _ _ (ticking_ne _ Hn) Hc)
      as (d' & -> & _ & Hd).
  - split; [by apply good_safe, revoke_finish_good|]. unfold revoke_finish, AuthzTx.
    by destruct (revokeAuthorization_good id "token_revoked" (normalizeSource source) _ _ (ticking_ne _ Hn) Hc)
      as (d' & -> & _ & Hd).
  - destruct (superseded_good s r _ Hn Hc) as (d' & ids & -> & Hg & Hids & Hdead).
    split; [by apply good_safe|]. apply Hdead, Hids. by exists row.
  - subst id. destruct (replay_safe r (normalizeSource (ce_Source i)) code _ Hn Hc) as (Hs & Hd & _).
    by split; [|apply Hd].
Qed.

(** C10: the end of an authorization is final.  After a detected reuse, a logout, the
    owner's revocation, the client's revocation, a start with another admin secret or the
    replay of its code, no later request is authenticated as that authorization and no
    later refresh gives it a session, whatever was under way when it ended. *)
Theorem revocation_final y id d y2 :
  rtc Step initial y -> is_Some (tb_authorizations (sy_db y) !! id) -> Ends id y d ->
  rtc Step (ran y d) y2 ->
  (forall s now v c, Authenticate s now v (sy_db y2) = Ok c -> ca_ID c <> id) /\
  (forall s p rr f r d3 sess, PRefresh s p rr ∈ sy_pool y2 -> ticking r ->
     refresh_finish s p f r rr (sy_db y2) = (d3, Ok sess) -> se_AuthorizationID sess <> id).
Proof.
  intros Hr [row Hrow] He Hr2. pose proof (sys_reachable_ok y Hr) as Hok.
  destruct (ends_dead _ _ _ Hok ltac:(eauto) He) as [Hs Hd].
  destruct (ran_ok y d Hok Hs) as [Hok1 Hle1]. destruct (steps_ok _ _ Hok1 Hr2) as [Hok2 Hle2].
  assert (DEAD id (sy_db y2)) as Hd2.
  { eapply dead_le; [apply Hok2|exact Hle2| |exact Hd].
    destruct (cle_auth _ _ _ _ Hle1 _ _ Hrow) as (r' & Hr' & _). eauto. }
  split.
  - intros s now v c Hauth <-. unfold Authenticate, TokenByHash in Hauth.
    case_decide; [done|]. destruct (tb_tokens (sy_db y2) !! _) as [t|] eqn:Ht; [|done].
    destruct (negb (equalDigest _ _)); [done|].
    change (to_Revoked (scanToken ?h t)) with (scan_flag (tk_revoked_at_ms t)) in Hauth.
    destruct (scan_flag (tk_revoked_at_ms t)) eqn:Hrv; [done|].
    destruct (core_pos _ _ (proj1 Hok2) _ _ Ht) as [_ Hp]. apply scan_flag_false in Hrv; [|done].
    destruct (_ <=? _)%Z; [done|]. unfold ReadAuthorization in Hauth. simpl in Hauth.
    destruct (tb_authorizations (sy_db y2) !! _) as [a|]; [|done]. repeat (case_match; [done|]).
    apply bind_Ok_inv in Hauth as (sc & _ & Hauth). apply bind_Ok_inv in Hauth as (mi & _ & [= <-]).
    simpl in *. by apply (proj2 Hd2 _ _ Ht eq_refl).
  - intros s p rr f r d3 sess Hin Hn Hfin <-. apply (sys_pending _ _ Hok2) in Hin as (Haud & Hv & _).
    apply refresh_Ok_inv in Hfin as (dec & -> & Htx & Hid & _).
    destruct (rotate_tx_good _ _ _ _ _ _ _ _ (ticking_ne _ Hn) Haud (proj1 Hok2) Hv Htx) as (_ & _ & Hl).
    destruct (Hl eq_refl) as ((t & Ht & _ & Hrv) & _). destruct Hv as [(t' & Ht' & _ & Hta & _) _ _ _].
    rewrite Ht in Ht'. injection Ht' as <-. rewrite <- Hid in Hta. by apply (proj2 Hd2 _ _ Ht Hta).
Qed.

(** C12: scopes only narrow.  From any reachable state to any later one an authorization
    keeps its kind and the scopes it was minted with, and what it holds now is within
    what it held then, which is within what it was minted with; an OAuth authorization
    is never minted with [admin].  A refresh answers with scopes within those the
    authorization holds at that moment, and they are what it holds from then on. *)
Theorem scopes_only_narrow y y2 id r :
  rtc Step initial y -> tb_authorizations (sy_db y) !! id = Some r -> rtc Step y y2 ->
  exists r2 sc sc2 mi,
    tb_authorizations (sy_db y2) !! id = Some r2 /\ ar_kind r2 = ar_kind r /\
    ar_minted_scopes r2 = ar_minted_scopes r /\ has_scopes (ar_scopes r) sc /\
    has_scopes (ar_scopes r2) sc2 /\ has_scopes (ar_minted_scopes r) mi /\
    sc2 ⊆ sc /\ sc ⊆ mi /\ (ar_kind r = AuthKindOAuth -> ScopeAdmin ∉ mi) /\
    (forall s p rr f rd d3 sess, PRefresh s p rr ∈ sy_pool y2 -> ticking rd ->
       refresh_finish s p f rd rr (sy_db y2) = (d3, Ok sess) -> se_AuthorizationID sess = id ->
       se_Scopes sess ⊆ sc2 /\ exists r3, tb_authorizations d3 !! id = Some r3 /\
         has_scopes (ar_scopes r3) (se_Scopes sess)).
Proof.
  intros Hr Hrow Hr2. pose proof (sys_reachable_ok y Hr) as Hok.
  destruct (steps_ok _ _ Hok Hr2) as [Hok2 [Ha _]].
  destruct (core_scopes _ _ (proj1 Hok) _ _ Hrow) as (sc & mi & Hsc & Hmi & Hsub & Hadm).
  destruct (Ha _ _ Hrow) as (r2 & Hrow2 & Hle & Hnar & _). destruct (Hnar _ Hsc) as (sc2 & Hsc2 & Hsub2).
  exists r2, sc, sc2, mi. split_and!; try done; [apply Hle|apply Hle|].
  intros s p rr f rd d3 sess Hin Hn Hfin Hid. apply (sys_pending _ _ Hok2) in Hin as (Haud & Hv & _).
  apply refresh_Ok_inv in Hfin as (dec & -> & Htx & Hid' & Hsess & _).
  destruct (rotate_tx_good _ _ _ _ _ _ _ _ (ticking_ne _ Hn) Haud (proj1 Hok2) Hv Htx) as (_ & _ & Hl).
  destruct (Hl eq_refl) as ((t & Ht & Hlive) & _ & (r3 & Hr3 & Hsc3 & _)). rewrite Hsess.
  rewrite <- Hid', Hid in Hr3. split; [|by exists r3].
  destruct Hv as [(t' & Ht' & _ & _ & ru & Hru & _ & Hcur & _) _ Hnext _].
  rewrite Ht in Ht'. injection Ht' as <-. rewrite <- Hid', Hid, Hrow2 in Hru. injection Hru as <-.
  specialize (Hcur Hlive). unfold has_scopes in *. rewrite Hcur in Hsc2. by injection Hsc2 as <-.
Qed.

Lemma expiry_test r now :
  ar_expires_at_ms r <> Some 0%Z ->
  negb (scanInt (ar_expires_at_ms r) =? 0)%Z && (scanInt (ar_expires_at_ms r) <=? UnixMilli now)%Z = true <->
  exists e, ar_expires_at_ms r = Some e /\ (e <= UnixMilli now)%Z.
Proof.
  intros Hne. rewrite andb_true_iff, negb_true_iff, Z.eqb_neq, Z.leb_le. destruct (ar_expires_at_ms r) as [e|]; simpl.
  - split; [intros [_ ?]; by exists e|]. intros (e' & [= <-] & ?). split; [congruence|done].
  - split; [intros [? _]; done|]. by intros (e & ? & _).
Qed.

(** C11: what a bearer token is worth.  In every reachable state a presented value is
    accepted exactly when it is an access token of this audience that is neither revoked
    nor expired, of an authorization that is neither revoked nor expired, and the caller
    is that authorization with its scopes, which are within its minted ones and never
    [admin] for an OAuth grant; each refusal has its own cause. *)
Theorem authenticate_exact y s now v :
  rtc Step initial y -> nul_free (sv_audience s) = true ->
  let d := sy_db y in
  let row := tb_tokens d !! tokenHash (sv_audience s) TokenKindAccess v in
  match Authenticate s now v d with
  | Ok c =>
      TrimSpace v <> ""%string /\
      (exists t r, row = Some t /\ tk_kind t = TokenKindAccess /\ tk_revoked_at_ms t = None /\
         (UnixMilli now < tk_expires_at_ms t)%Z /\ tk_authorization_id t = ca_ID c /\
         tb_authorizations d !! ca_ID c = Some r /\ ar_revoked_at_ms r = None /\
         (forall e, ar_expires_at_ms r = Some e -> UnixMilli now < e)%Z /\ ca_Kind c = ar_kind r /\
         has_scopes (ar_scopes r) (ca_Scopes c) /\ has_scopes (ar_minted_scopes r) (ca_MintedScopes c)) /\
      ca_Scopes c ⊆ ca_MintedScopes c /\
      (ca_Kind c = AuthKindOAuth -> Require_ (Some c) ScopeAdmin = Some (ErrInsufficientScope ScopeAdmin))
  | Err e =>
      (e = ErrTokenAbsent /\ TrimSpace v = ""%string) \/
      (e = ErrTokenUnknown /\ row = None) \/
      (exists t, row = Some t /\
         ((e = ErrTokenRevoked /\ tk_revoked_at_ms t <> None) \/
          (e = ErrTokenExpired /\ tk_revoked_at_ms t = None /\
             ((tk_expires_at_ms t <= UnixMilli now)%Z \/
              exists r ex, tb_authorizations d !! tk_authorization_id t = Some r /\
                ar_expires_at_ms r = Some ex /\ (ex <= UnixMilli now)%Z))))
  end.
Proof.
  intros Hr Haud. cbv zeta. pose proof (proj1 (sys_reachable_ok y Hr)) as Hc. unfold Authenticate, TokenByHash.
  case_decide as Hblank; [by left|]. destruct (tb_tokens (sy_db y) !! _) as [t|] eqn:Ht; [|auto].
  unfold equalDigest. rewrite bool_decide_eq_true_2 by done. cbv beta iota delta [negb].
  change (to_Revoked (scanToken ?h t)) with (scan_flag (tk_revoked_at_ms t)).
  destruct (core_pos _ _ Hc _ _ Ht) as [_ Hp]. destruct (scan_flag (tk_revoked_at_ms t)) eqn:Hrv.
  { apply scan_flag_true in Hrv; [|done]. eauto 10. }
  apply scan_flag_false in Hrv; [|done]. simpl to_ExpiresAtMS. simpl to_AuthorizationID.
  destruct (tk_expires_at_ms t <=? UnixMilli now)%Z eqn:Hexp; bool_to_prop; [by eauto 10|].
  unfold ReadAuthorization. destruct (core_fk _ _ Hc _ _ Ht) as [a Ha]. rewrite Ha.
  destruct (core_apos _ _ Hc _ _ Ha) as [Hp1 Hp2].
  change (au_Revoked (scanAuthorization ?h a)) with (scan_flag (ar_revoked_at_ms a)).
  assert (ar_revoked_at_ms a = None) as Harv.
  { destruct (ar_revoked_at_ms a) eqn:E; [|done]. by destruct (core_revoked _ _ Hc _ _ a Ht Ha); rewrite ?E. }
  rewrite Harv. simpl scan_flag. cbv iota. simpl au_ExpiresAtMS.
  pose proof (expiry_test a now Hp2) as Het. destruct (_ && _)%bool.
  { right. right. exists t. split; [done|]. right. split_and!; [done|done|].
    destruct (proj1 Het eq_refl) as (ex & ? & ?). eauto 10. }
  destruct (core_scopes _ _ Hc _ _ Ha) as (sc & mi & Hsc & Hmi & Hsub & Hadm). unfold has_scopes in *.
  simpl. rewrite Hsc. simpl. rewrite Hmi. simpl. split_and!; [done| |done|].
  - exists t, a. split_and!; try done; [by eapply presented_kind; eauto|]. intros e He.
    destruct (Z.lt_ge_cases (UnixMilli now) e); [done|]. exfalso.
    by assert (false = true) by (apply Het; eauto).
  - intros Hk. destruct (Has sc ScopeAdmin) eqn:Hh; [|done]. apply bool_decide_eq_true in Hh. set_solver.
Qed.
End Reachable.

(** ** Concrete runs *)

Module Demo.
Definition redirect (uris : list string) (uri : string) : bool := bool_decide (uri ∈ uris).
Definition service : Service := mkService (hashSecret "demo secret") (secretGeneration "demo secret") "https://gm.example/mcp".
Definition at_ms (t : Z) : Readings :=
  let t := (t * Millisecond)%Z in mkReadings t t t t t t.
Definition fresh (n : string) : Fresh := mkFresh ("a" +:+ n) ("f" +:+ n) ("access " +:+ n) ("refresh " +:+ n).
Definition ttls : Result AuthzError TTLs := Ok (15 * Minute, 24 * Hour, 240 * Hour)%Z.

(** An admin session and two presentations of its refresh token that both found it in
    order; the first has come through. *)
Definition minted : Sys :=
  ran initial (MintAdminSession service (at_ms 1000) (fresh "1") ttls "demo secret" [] "local" empty_db).1.
Definition params : refreshParams := Refresh ttls "refresh 1" [ScopeMessagesRead] "local".
Definition read : RefreshRead := refresh_read service params None (at_ms 2000) (sy_db minted).
Definition twice : Sys := chose (chose minted (PRefresh service params read)) (PRefresh service params read).
Definition first := refresh_finish service params (fresh "2") (at_ms 3000) read (sy_db twice).
Definition after : Sys := ran twice first.1.
Definition session : Session := match first.2 with Ok sess => sess | Err _ => mkSession "" "" "" ∅ ∅ 0 0 false end.

Lemma ticks : forall t, (0 < t)%Z -> ticking (at_ms t).
Proof. intros t Ht. unfold ticking, at_ms. cbn [rd_tx]. by rewrite UnixMilli_ms. Qed.

Lemma step_minted : Step redirect initial minted.
Proof. apply st_mint; [by apply ticks|done]. Qed.

Lemma steps_twice : rtc (Step redirect) initial twice.
Proof.
  eapply rtc_l; [apply step_minted|].
  apply (rtc_l _ _ (chose minted (PRefresh service params read))); [by apply st_refresh_read|].
  apply rtc_once. by apply (st_refresh_read redirect (chose minted _)).
Qed.

Lemma pending_twice : PRefresh service params read ∈ sy_pool twice.
Proof. apply elem_of_cons. by left. Qed.

Lemma step_after : Step redirect twice after.
Proof. apply (st_refresh_finish redirect twice); [apply pending_twice|by apply ticks]. Qed.

Lemma steps_after : rtc (Step redirect) initial after.
Proof. eapply rtc_r; [apply steps_twice|apply step_after]. Qed.

Lemma row_after : exists row, tb_authorizations (sy_db after) !! "a1"%string = Some row.
Proof. apply is_Some_alt. by vm_compute. Qed.
End Demo.

Lemma refresh_single_use_witness :
  se_AuthorizationID Demo.session = "a1"%string /\
  exists d3, refresh_finish Demo.service Demo.params (Demo.fresh "3") (Demo.at_ms 4000) Demo.read
      (sy_db Demo.after) = (d3, Err ErrTokenReused) /\ DEAD "a1" d3.
Proof.
  split; [by vm_compute|].
  change "a1"%string with (se_AuthorizationID Demo.session).
  refine (proj2 (refresh_single_use Demo.redirect Demo.twice Demo.service Demo.params Demo.read (Demo.fresh "2")
    (Demo.at_ms 3000) Demo.first.1 Demo.session Demo.after Demo.steps_twice Demo.pending_twice _ _ _
    Demo.service Demo.params Demo.read (Demo.fresh "3") (Demo.at_ms 4000) Demo.pending_twice _ eq_refl) _).
  all: by vm_compute.
Defined.

(** The owner's logout ends what was accepted a moment before. *)
Lemma revocation_final_witness :
  let d := (authLogout (Demo.at_ms 4000) "a1" (sy_db Demo.after)).1 in
  (exists c, Authenticate Demo.service (3500 * Millisecond) "access 2" (sy_db Demo.after) = Ok c /\ ca_ID c = "a1"%string) /\
  (forall now v c, Authenticate Demo.service now v d = Ok c -> ca_ID c <> "a1"%string) /\
  (forall f r d3 sess, ticking r ->
     refresh_finish Demo.service Demo.params f r Demo.read d = (d3, Ok sess) -> se_AuthorizationID sess <> "a1"%string).
Proof.
  intros d. split; [eexists; split; by vm_compute|].
  destruct (revocation_final Demo.redirect Demo.after "a1" d (ran Demo.after d) Demo.steps_after) as [Ha Hb].
  - destruct Demo.row_after as [row ->]. by exists row.
  - apply (ends_logout "a1" Demo.after (Demo.at_ms 4000)). by apply Demo.ticks.
  - apply rtc_refl.
  - split; [intros now v c; apply Ha|]. intros f r d3 sess. apply (Hb _ _ _ f r). apply Demo.pending_twice.
Defined.

(** The refresh of the run narrows the session to reading. *)
Lemma scopes_only_narrow_witness :
  exists r r2 sc sc2, tb_authorizations (sy_db Demo.minted) !! "a1"%string = Some r /\
    tb_authorizations (sy_db Demo.after) !! "a1"%string = Some r2 /\
    has_scopes (ar_scopes r) sc /\ has_scopes (ar_scopes r2) sc2 /\ sc2 ⊆ sc /\
    ar_scopes r2 = ScopeMessagesRead /\ ar_scopes r <> ar_scopes r2.
Proof.
  destruct (tb_authorizations (sy_db Demo.minted) !! "a1"%string) as [r|] eqn:Hr; [|by vm_compute in Hr].
  destruct (scopes_only_narrow Demo.redirect Demo.minted Demo.after "a1" r) as
    (r2 & sc & sc2 & mi & Hr2 & _ & _ & Hsc & Hsc2 & _ & Hsub & _).
  - apply rtc_once, Demo.step_minted.
  - exact Hr.
  - apply (rtc_l _ _ (chose Demo.minted (PRefresh Demo.service Demo.params Demo.read))); [by apply st_refresh_read|].
    apply (rtc_l _ _ Demo.twice); [by apply (st_refresh_read Demo.redirect (chose Demo.minted _))|].
    apply rtc_once, Demo.step_after.
  - assert (ar_scopes <$> tb_authorizations (sy_db Demo.minted) !! "a1"%string = Some (ScopeSet_string AdminBootstrapScopes)) as E1
      by by vm_compute.
    assert (ar_scopes <$> tb_authorizations (sy_db Demo.after) !! "a1"%string = Some ScopeMessagesRead) as E2 by by vm_compute.
    rewrite Hr in E1. rewrite Hr2 in E2. injection E1 as E1. injection E2 as E2.
    exists r, r2, sc, sc2. split; [reflexivity|]. do 4 (split; [assumption|]). split; [exact E2|]. rewrite E1, E2. by vm_compute.
Defined.

Lemma authenticate_exact_witness :
  match Authenticate Demo.service (3500 * Millisecond) "access 2" (sy_db Demo.after) with
  | Ok c => ca_ID c = "a1"%string /\ ca_Scopes c ⊆ ca_MintedScopes c
  | Err _ => False
  end.
Proof.
  pose proof (authenticate_exact Demo.redirect Demo.after Demo.service (3500 * Millisecond) "access 2"
    Demo.steps_after eq_refl) as Ha. cbv zeta in Ha.
  assert (match Authenticate Demo.service (3500 * Millisecond) "access 2" (sy_db Demo.after) with
    Ok c => ca_ID c | Err _ => ""%string end = "a1"%string) as E by by vm_compute.
  destruct (Authenticate Demo.service (3500 * Millisecond) "access 2" (sy_db Demo.after)) as [c|e]; [|done].
  split; [done|apply Ha].
Defined.
