(* ===== verification/Provenance.v ===== *)
(** * Where grants come from

    The invariant of the grant pipeline over the system of Authority.v: an authorization
    request stands on an enrollment code it consumed, a code on a completed request, and
    an OAuth authorization on the code whose exchange made it.  Requests and codes can be
    deleted with their client, so the origin of an authorization is a map of its own,
    from the authorization to the enrollment code; it is injective.  The theorems: every
    OAuth grant goes back to one enrollment code of the owner and stays within its
    ceiling; an authorization code is redeemed at most once and its replay ends what the
    first exchange made. *)

From S2P Require Import Prelude Ids GoStrings Scopes Limits AuthzStore Sessions Grants Credentials Authority.

(** ** The invariant *)

Definition ceiling_of (column : string) (s : ScopeSet) : Prop :=
  exists ceiling, has_scopes column ceiling /\ s ⊆ ceiling.

Record flow (U : gset string) (prov : gmap string string) (d : AuthDB) : Prop := {
  f_enr e er : tb_enrollments d !! e = Some er -> e <> ""%string /\
    er_consumed_at_ms er <> Some 0%Z /\ er_revoked_at_ms er <> Some 0%Z /\
    exists sc, has_scopes (er_scopes er) sc /\ ScopeAdmin ∉ sc;
  f_req id q : tb_requests d !! id = Some q -> id ∈ U /\
    exists e er sel, rq_enrollment_code_id q = Some e /\ tb_enrollments d !! e = Some er /\
      er_consumed_at_ms er <> None /\ er_consumed_by er = Some id /\
      has_scopes (rq_selected_scopes q) sel /\ ceiling_of (er_scopes er) sel /\
      (forall g, rq_granted_scopes q = Some g -> exists gs, has_scopes g gs /\ gs ⊆ sel);
  f_code h c : tb_codes d !! h = Some c -> h ∈ U /\ cd_consumed_at_ms c <> Some 0%Z /\
    exists q sc, tb_requests d !! cd_request_id c = Some q /\ rq_status q = AuthRequestCompleted /\
      has_scopes (cd_scopes c) sc /\ ceiling_of (rq_selected_scopes q) sc /\
      (forall a, cd_authorization_id c = Some a ->
         cd_consumed_at_ms c <> None /\ prov !! a = rq_enrollment_code_id q);
  f_code_one h1 h2 c1 c2 : tb_codes d !! h1 = Some c1 -> tb_codes d !! h2 = Some c2 ->
    cd_request_id c1 = cd_request_id c2 -> h1 = h2;
  f_linked id q e a : tb_requests d !! id = Some q -> rq_enrollment_code_id q = Some e ->
    prov !! a = Some e -> rq_status q = AuthRequestCompleted /\
    exists h c, tb_codes d !! h = Some c /\ cd_request_id c = id /\ cd_authorization_id c = Some a;
  f_prov a e : prov !! a = Some e -> exists r er mi,
    tb_authorizations d !! a = Some r /\ ar_kind r = AuthKindOAuth /\
    tb_enrollments d !! e = Some er /\ er_consumed_at_ms er <> None /\
    has_scopes (ar_minted_scopes r) mi /\ ceiling_of (er_scopes er) mi;
  f_total a r : tb_authorizations d !! a = Some r -> ar_kind r = AuthKindOAuth -> is_Some (prov !! a);
  f_inj a1 a2 e : prov !! a1 = Some e -> prov !! a2 = Some e -> a1 = a2;
}.

(** ** How the rows change

    Nothing deleted comes back under a name that was drawn before. *)
Record flow_le (U : gset string) (d d' : AuthDB) : Prop := {
  fle_enr e er : tb_enrollments d !! e = Some er -> exists er', tb_enrollments d' !! e = Some er' /\
    er_scopes er' = er_scopes er;
  fle_req id q' : tb_requests d' !! id = Some q' -> id ∈ U -> exists q, tb_requests d !! id = Some q /\
    rq_selected_scopes q' = rq_selected_scopes q;
  fle_code h c' : tb_codes d' !! h = Some c' -> h ∈ U -> exists c, tb_codes d !! h = Some c /\
    cd_scopes c' = cd_scopes c /\ cd_request_id c' = cd_request_id c /\
    (cd_consumed_at_ms c <> None ->
       cd_consumed_at_ms c' = cd_consumed_at_ms c /\ cd_authorization_id c' = cd_authorization_id c);
}.

Lemma flow_le_same U d d' :
  tb_enrollments d' = tb_enrollments d -> tb_requests d' = tb_requests d -> tb_codes d' = tb_codes d ->
  flow_le U d d'.
Proof. intros Ee Eq Ec. split; rewrite ?Ee, ?Eq, ?Ec; eauto 10. Qed.

Lemma flow_le_trans U U' d d1 d2 :
  U ⊆ U' -> flow_le U d d1 -> flow_le U' d1 d2 -> flow_le U d d2.
Proof.
  intros HU [He Hq Hc] [He' Hq' Hc']. split.
  - intros e er Her. destruct (He _ _ Her) as (er1 & Her1 & E1). destruct (He' _ _ Her1) as (er2 & ? & E2).
    exists er2. split; [done|congruence].
  - intros id q' Hq2 Hid. destruct (Hq' _ _ Hq2) as (q1 & Hq1 & E1); [set_solver|].
    destruct (Hq _ _ Hq1 Hid) as (q & ? & E2). exists q. split; [done|congruence].
  - intros h c' Hc2 Hh. destruct (Hc' _ _ Hc2) as (c1 & Hc1 & E1 & E2 & Hk1); [set_solver|].
    destruct (Hc _ _ Hc1 Hh) as (c & Hcc & E3 & E4 & Hk). exists c. split_and!; [done|congruence|congruence|].
    intros Hne. destruct (Hk Hne) as [E5 E6]. destruct (Hk1 ltac:(congruence)) as [E7 E8].
    split; congruence.
Qed.

Lemma flow_weaken U U' prov d : U ⊆ U' -> flow U prov d -> flow U' prov d.
Proof.
  intros HU []. split; try done.
  - intros id q Hq. destruct (f_req0 _ _ Hq) as [? ?]. split; [set_solver|done].
  - intros h c Hc. destruct (f_code0 _ _ Hc) as [? ?]. split; [set_solver|done].
Qed.

Section Flow.
Context `{CollisionFree}.

(** Steps that leave the pipeline's tables alone and make no OAuth authorization. *)
Lemma flow_quiet U prov d d' :
  flow U prov d -> LE d d' -> no_new d d' ->
  tb_enrollments d' = tb_enrollments d -> tb_requests d' = tb_requests d -> tb_codes d' = tb_codes d ->
  flow U prov d'.
Proof.
  intros [] [Ha _] Hnn Ee Eq Ec. split; rewrite ?Ee, ?Eq, ?Ec; try done.
  - intros a e Hp. destruct (f_prov0 _ _ Hp) as (r & er & mi & Hr & Hk & ? & ? & Hmi & ?).
    destruct (Ha _ _ Hr) as (r' & Hr' & Hle & _). exists r', er, mi.
    rewrite (ale_kind _ _ Hle), (ale_minted _ _ Hle). by split_and!.
  - intros a r' Hr' Hk. destruct (Hnn _ _ Hr' Hk) as [r Hr]. destruct (Ha _ _ Hr) as (r1 & Hr1 & Hle & _).
    rewrite Hr' in Hr1. injection Hr1 as <-. apply (f_total0 a r Hr). by rewrite <- (ale_kind _ _ Hle).
Qed.

Lemma flow_eq U prov d d' :
  flow U prov d -> tb_authorizations d' = tb_authorizations d ->
  tb_enrollments d' = tb_enrollments d -> tb_requests d' = tb_requests d -> tb_codes d' = tb_codes d ->
  flow U prov d'.
Proof. intros [] Ea Ee Eq Ec. split; rewrite ?Ea, ?Ee, ?Eq, ?Ec; done. Qed.

(** *** Enrollment codes *)

Lemma flow_enrollments U prov d f :
  flow U prov d ->
  (forall e er, tb_enrollments d !! e = Some er -> exists er', f !! e = Some er' /\
     er_scopes er' = er_scopes er /\
     (er_consumed_at_ms er <> None ->
        er_consumed_at_ms er' = er_consumed_at_ms er /\ er_consumed_by er' = er_consumed_by er)) ->
  (forall e er, f !! e = Some er -> e <> ""%string /\ er_consumed_at_ms er <> Some 0%Z /\ er_revoked_at_ms er <> Some 0%Z /\
     exists sc, has_scopes (er_scopes er) sc /\ ScopeAdmin ∉ sc) ->
  flow U prov (set_enrollments f d) /\ flow_le U d (set_enrollments f d).
Proof.
  intros [] Hf Hok. split; [split; simpl; try done|].
  - intros id q Hq. destruct (f_req0 _ _ Hq) as (? & e & er & sel & He & Her & Hcons & Hby & Hsel & Hceil & Hg).
    split; [done|]. destruct (Hf _ _ Her) as (er' & Her' & Es & Hk). destruct (Hk Hcons) as [Ec Eb].
    exists e, er', sel. rewrite Es, Ec, Eb. by split_and!.
  - intros a e Hp. destruct (f_prov0 _ _ Hp) as (r & er & mi & ? & ? & Her & Hcons & ? & ?).
    destruct (Hf _ _ Her) as (er' & Her' & Es & Hk). destruct (Hk Hcons) as [Ec _].
    exists r, er', mi. rewrite Es, Ec. by split_and!.
  - split; simpl; eauto 10. intros e er Her. destruct (Hf _ _ Her) as (er' & ? & ? & _). eauto.
Qed.

Lemma EnrollmentCodeByHash_some hash d e :
  EnrollmentCodeByHash hash d = Some e -> exists er, tb_enrollments d !! en_ID e = Some er /\
    en_Scopes e = er_scopes er.
Proof.
  unfold EnrollmentCodeByHash. destruct (List.find _ _) as [[id er]|] eqn:E; [|done].
  intros [= <-]. apply find_some in E as [Hin _]. exists er. split; [|done]. simpl.
  by apply elem_of_map_to_list, list_elem_of_In.
Qed.

Lemma create_enrollment_flow U prov e now d d' u :
  flow U prov d -> CreateEnrollmentCode e now d = Ok (d', u) ->
  en_ID e <> ""%string -> en_ConsumedAtMS e = 0%Z -> en_RevokedAtMS e = 0%Z ->
  (exists sc, has_scopes (en_Scopes e) sc /\ ScopeAdmin ∉ sc) ->
  flow U prov d' /\ flow_le U d d'.
Proof.
  intros Hf Htx Hne Hcons Hrev Hsc. unfold CreateEnrollmentCode in Htx.
  destruct (tb_enrollments d !! en_ID e) eqn:E; [done|]. destruct (EnrollmentCodeByHash _ _); [done|].
  injection Htx as <- _. apply flow_enrollments; [done| |].
  - intros k er Hk. exists er. rewrite lookup_insert_ne by congruence. by split_and!.
  - intros k er. rewrite lookup_insert. case_decide; [|by apply (f_enr _ _ _ Hf)].
    subst k. intros [= <-]. simpl. rewrite Hcons, Hrev. by split_and!.
Qed.

Lemma revoke_enrollment_flow U prov id reason now d d' ok :
  now <> 0%Z -> flow U prov d -> RevokeEnrollmentCode id reason now d = Ok (d', ok) ->
  flow U prov d' /\ flow_le U d d'.
Proof.
  intros Hn Hf Htx. unfold RevokeEnrollmentCode in Htx.
  destruct (tb_enrollments d !! id) as [er|] eqn:Her; [|injection Htx as <- _; split; [done|by apply flow_le_same]].
  destruct (bool_decide _); injection Htx as <- _; [|split; [done|by apply flow_le_same]].
  destruct (f_enr _ _ _ Hf _ _ Her) as (H1 & H2 & H3 & H4).
  apply flow_enrollments; [done| |]; intros k er0; rewrite lookup_insert; case_decide as Hk.
  - subst k. intros Hk. rewrite Her in Hk. injection Hk as <-. eexists. split; [done|]. by split_and!.
  - intros Hk'. exists er0. by split_and!.
  - subst k. intros [= <-]. simpl. split_and!; [done|done|congruence|done].
  - by apply (f_enr _ _ _ Hf).
Qed.

Lemma canonical_parse s : s ⊆ list_to_set canonicalOrder -> has_scopes (ScopeSet_string s) s.
Proof. apply parse_string. Qed.

Lemma extend_ceiling_known set extras ceiling :
  set ⊆ list_to_set canonicalOrder -> extend_ceiling set extras = Ok ceiling ->
  ceiling ⊆ list_to_set canonicalOrder.
Proof.
  revert set. induction extras as [|x l IH]; intros set Hs; simpl; [by intros [= <-]|].
  destruct (ParseScopes [x]) as [more|] eqn:E; [|done]. apply parse_known in E. apply IH.
  destruct (known_set set Hs) as [_ E1], (known_set more E) as [_ E2]. unfold NewScopeSet.
  rewrite list_to_set_app_L, <- E1, <- E2. set_solver.
Qed.

Lemma enrollmentCeiling_ok scopes allowed ceiling :
  enrollmentCeiling scopes allowed = Ok ceiling ->
  ceiling ⊆ list_to_set canonicalOrder /\ ScopeAdmin ∉ ceiling.
Proof.
  unfold enrollmentCeiling. destruct (ParseScopes _) as [set|] eqn:E; [|done].
  destruct (extend_ceiling set allowed) as [c|] eqn:Ec; [|done]. destruct (Empty c); [done|].
  destruct (Has c ScopeAdmin) eqn:Hadm; [done|]. intros [= <-]. apply parse_known in E.
  split; [by eapply extend_ceiling_known|]. by apply Has_false.
Qed.

(** *** Requests *)

Lemma pending_flow U prov id ctx selected e token source now0 ttl now d d' ok :
  now <> 0%Z -> flow U prov d -> id ∉ U -> selected ⊆ list_to_set canonicalOrder ->
  (exists er, tb_enrollments d !! en_ID e = Some er /\ ceiling_of (er_scopes er) selected) ->
  pending_tx id ctx selected e token source now0 ttl now d = Ok (d', ok) ->
  flow ({[id]} ∪ U) prov d' /\ flow_le U d d'.
Proof.
  intros Hn Hf Hid Hk (er & Her & Hceil) Htx. unfold pending_tx in Htx.
  apply bind_inv in Htx as (d1 & b & Hcons & Htx). unfold ConsumeEnrollmentCode in Hcons. rewrite Her in Hcons.
  destruct (bool_decide (er_consumed_at_ms er = None) && _) eqn:Hb.
  2: { injection Hcons as <- <-. injection Htx as <- _. split; [|by apply flow_le_same].
       eapply flow_weaken; [|exact Hf]. set_solver. }
  injection Hcons as <- <-. bool_to_prop. simpl in Htx.
  apply bind_inv in Htx as (d2 & u & Hreq & Htx). unfold CreateAuthorizationRequest in Hreq. simpl in Hreq.
  destruct (tb_requests d !! id) eqn:Hnone; [done|].
  destruct (tb_clients d !! cx_ClientID ctx) as [cl|]; [|done]. injection Hreq as <- _.
  unfold mbind, Tx_bind, ActivateOAuthClient, AppendAudit in Htx. simpl in Htx. injection Htx as <- _.
  destruct (f_enr _ _ _ Hf _ _ Her) as (Hne & _ & Hr0 & Hsc).
  assert (forall k er0, tb_enrollments d !! k = Some er0 -> er_consumed_at_ms er0 <> None ->
    <[en_ID e := enrollment_consumed now id er]> (tb_enrollments d) !! k = Some er0) as Hkeep.
  { intros k er0 Hk0 Hc0. rewrite lookup_insert_ne; [done|]. intros <-. congruence. }
  split; [split; simpl|].
  - intros k er0. rewrite lookup_insert. case_decide; [|by apply (f_enr _ _ _ Hf)]. subst k.
    intros [= <-]. simpl. split_and!; [done|congruence|done|done].
  - intros k q. rewrite lookup_insert. case_decide as Hkid.
    + subst k. intros [= <-]. split; [set_solver|]. simpl.
      exists (en_ID e), (enrollment_consumed now id er), selected. rewrite nullString_nonempty by done.
      split_and!; [done|by rewrite lookup_insert_eq|done|done|by apply canonical_parse|exact Hceil|].
      by intros g.
    + intros Hq. destruct (f_req _ _ _ Hf _ _ Hq) as (? & e0 & er0 & sel & ? & He0 & ? & ? & ? & ? & ?).
      split; [set_solver|]. exists e0, er0, sel. split_and!; try done. by apply Hkeep.
  - intros h c Hc. destruct (f_code _ _ _ Hf _ _ Hc) as (? & ? & q & sc & Hq & ?).
    split; [set_solver|]. split; [done|]. exists q, sc. rewrite lookup_insert_ne by congruence. done.
  - apply (f_code_one _ _ _ Hf).
  - intros k q e0 a. rewrite lookup_insert. case_decide as Hkid; [|by apply (f_linked _ _ _ Hf)].
    intros [= <-]. simpl. rewrite nullString_nonempty by done. intros [= <-] Hp.
    destruct (f_prov _ _ _ Hf _ _ Hp) as (_ & er0 & _ & _ & _ & Her0 & Hc0 & _). congruence.
  - intros a e0 Hp. destruct (f_prov _ _ _ Hf _ _ Hp) as (r & er0 & mi & ? & ? & He0 & ? & ? & ?).
    exists r, er0, mi. split_and!; try done. by apply Hkeep.
  - apply (f_total _ _ _ Hf).
  - apply (f_inj _ _ _ Hf).
  - split; simpl; [| |by eauto 10].
    + intros k er0 Hk0. rewrite lookup_insert. case_decide; [|by eauto]. subst k. eexists. split; [done|].
      rewrite Her in Hk0. by injection Hk0 as <-.
    + intros k q. rewrite lookup_insert. case_decide; [subst k; done|by eauto].
Qed.

(** A request that is not completed changes its status and its granted scopes. *)
Lemma flow_request U prov d id q q' :
  flow U prov d -> tb_requests d !! id = Some q -> rq_status q <> AuthRequestCompleted ->
  rq_enrollment_code_id q' = rq_enrollment_code_id q -> rq_selected_scopes q' = rq_selected_scopes q ->
  (forall g sel, rq_granted_scopes q' = Some g -> has_scopes (rq_selected_scopes q) sel ->
     exists gs, has_scopes g gs /\ gs ⊆ sel) ->
  flow U prov (set_requests (<[id := q']> (tb_requests d)) d) /\
  flow_le U d (set_requests (<[id := q']> (tb_requests d)) d).
Proof.
  intros Hf Hq Hst Ee Es Hg. split; [split; simpl; try apply Hf|].
  - intros k q0. rewrite lookup_insert. case_decide; [|by apply (f_req _ _ _ Hf)]. subst k.
    intros [= <-]. destruct (f_req _ _ _ Hf _ _ Hq) as (? & e & er & sel & ? & ? & ? & ? & Hsel & ? & _).
    split; [done|]. exists e, er, sel. rewrite Ee, Es. split_and!; try done. intros g Hgr. by eapply Hg.
  - intros h c Hc. destruct (f_code _ _ _ Hf _ _ Hc) as (? & ? & q0 & sc & Hq0 & ?).
    split; [done|]. split; [done|]. exists q0, sc. rewrite lookup_insert_ne; [done|]. intros E.
    rewrite <- E, Hq in Hq0. injection Hq0 as <-. tauto.
  - intros k q0 e a. rewrite lookup_insert. case_decide; [|by apply (f_linked _ _ _ Hf)]. subst k.
    intros [= <-]. rewrite Ee. intros He Hp. by destruct (f_linked _ _ _ Hf _ _ _ _ Hq He Hp).
  - split; simpl; [by eauto| |by eauto 10]. intros k q0. rewrite lookup_insert. case_decide; [|by eauto].
    subst k. intros [= <-] _. by exists q.
Qed.

Lemma decide_flow U prov id status granted reason now d d' ok :
  flow U prov d ->
  (forall q sel, tb_requests d !! id = Some q -> has_scopes (rq_selected_scopes q) sel ->
     granted = ""%string \/ exists gs, has_scopes granted gs /\ gs ⊆ sel) ->
  DecideAuthorizationRequest id status granted reason now d = Ok (d', ok) ->
  flow U prov d' /\ flow_le U d d'.
Proof.
  intros Hf Hg Htx. unfold DecideAuthorizationRequest in Htx.
  destruct (tb_requests d !! id) as [q|] eqn:Hq; [|injection Htx as <- _; split; [done|by apply flow_le_same]].
  destruct (bool_decide _) eqn:Hst; injection Htx as <- _; [|split; [done|by apply flow_le_same]].
  apply bool_decide_eq_true in Hst. apply (flow_request _ _ _ _ q); [done|done|by rewrite Hst|done|done|].
  simpl. intros g sel Hnull Hsel. unfold nullString in Hnull. case_decide; [done|]. injection Hnull as <-.
  by destruct (Hg q sel eq_refl Hsel).
Qed.

(** *** Codes *)

Lemma complete_flow U prov req scopes hash now0 ttl now d d' ok :
  flow U prov d -> hash ∉ U -> scopes ⊆ list_to_set canonicalOrder ->
  (forall q, tb_requests d !! re_ID req = Some q -> ceiling_of (rq_selected_scopes q) scopes) ->
  complete_tx req scopes hash now0 ttl now d = Ok (d', ok) ->
  flow ({[hash]} ∪ U) prov d' /\ flow_le U d d'.
Proof.
  intros Hf Hh Hk Hceil Htx. unfold complete_tx in Htx. apply bind_inv in Htx as (d1 & b & Hcomp & Htx).
  assert (forall x, x = d -> flow ({[hash]} ∪ U) prov x /\ flow_le U d x) as Hsame.
  { intros x ->. split; [|by apply flow_le_same]. eapply flow_weaken; [|exact Hf]. set_solver. }
  unfold CompleteAuthorizationRequest in Hcomp.
  destruct (tb_requests d !! re_ID req) as [q|] eqn:Hq.
  2: { injection Hcomp as <- <-. injection Htx as <- _. by apply Hsame. }
  destruct (bool_decide _) eqn:Hst; injection Hcomp as <- <-; [|injection Htx as <- _; by apply Hsame].
  apply bool_decide_eq_true in Hst. simpl in Htx.
  destruct (flow_request U prov d (re_ID req) q (request_completed now q) Hf Hq) as [Hf1 Hle1];
    [by rewrite Hst|done|done| |].
  { simpl. intros g sel Hg Hsel.
    destruct (f_req _ _ _ Hf _ _ Hq) as (_ & e & er & sel' & _ & _ & _ & _ & Hsel' & _ & Hgr).
    unfold has_scopes in *. rewrite Hsel in Hsel'. injection Hsel' as ->. by apply Hgr. }
  set (d1 := set_requests _ d) in *.
  apply bind_inv in Htx as (d2 & u & Hcode & Htx). unfold CreateAuthorizationCode in Hcode. simpl in Hcode.
  destruct (tb_codes d !! hash) eqn:Hnone; [done|]. rewrite lookup_insert_eq in Hcode. injection Hcode as <- _.
  unfold mbind, Tx_bind, AppendAudit in Htx. simpl in Htx. injection Htx as <- _.
  assert (forall h c, tb_codes d !! h = Some c -> cd_request_id c <> re_ID req) as Hfresh.
  { intros h c Hc E. destruct (f_code _ _ _ Hf _ _ Hc) as (_ & _ & q0 & sc & Hq0 & Hst0 & _).
    rewrite E, Hq in Hq0. injection Hq0 as <-. rewrite Hst in Hst0. done. }
  split; [split; simpl|].
  - apply (f_enr _ _ _ Hf).
  - intros k q0 Hq0. destruct (f_req _ _ _ Hf1 k q0 Hq0) as [? ?]. split; [set_solver|done].
  - intros h c. rewrite lookup_insert. case_decide.
    + subst h. intros [= <-]. simpl. split; [set_solver|]. split; [done|].
      exists (request_completed now q), scopes. rewrite lookup_insert_eq.
      split_and!; [done|done|by apply canonical_parse|by apply (Hceil q)|by intros a].
    + intros Hc. destruct (f_code _ _ _ Hf1 h c Hc) as [? ?]. split; [set_solver|done].
  - intros h1 h2 c1 c2. rewrite !lookup_insert. repeat case_decide; [congruence| | |by apply (f_code_one _ _ _ Hf)].
    + intros [= <-] Hc2 E. by destruct (Hfresh _ _ Hc2).
    + intros Hc1 [= <-] E. by destruct (Hfresh _ _ Hc1).
  - intros k q0 e a Hq0 He Hp. destruct (f_linked _ _ _ Hf1 k q0 e a Hq0 He Hp) as (? & h & c & Hc & ? & ?).
    split; [done|]. exists h, c. rewrite lookup_insert_ne; [done|]. intros <-. simpl in Hc. congruence.
  - apply (f_prov _ _ _ Hf).
  - apply (f_total _ _ _ Hf).
  - apply (f_inj _ _ _ Hf).
  - eapply flow_le_trans; [reflexivity|exact Hle1|]. split; simpl; [by eauto|by eauto|].
    intros h c'. rewrite lookup_insert. case_decide; [by subst h|by eauto 10].
Qed.

(** One enrollment code, one request. *)
Lemma request_unique U prov d id1 id2 q1 q2 e :
  flow U prov d -> tb_requests d !! id1 = Some q1 -> tb_requests d !! id2 = Some q2 ->
  rq_enrollment_code_id q1 = Some e -> rq_enrollment_code_id q2 = Some e -> id1 = id2.
Proof.
  intros Hf H1 H2 E1 E2.
  destruct (f_req _ _ _ Hf _ _ H1) as (_ & e1 & r1 & _ & Ee1 & Her1 & _ & Hby1 & _).
  destruct (f_req _ _ _ Hf _ _ H2) as (_ & e2 & r2 & _ & Ee2 & Her2 & _ & Hby2 & _). congruence.
Qed.

(** An unconsumed code has made nothing, and neither has its enrollment code. *)
Lemma unconsumed_code U prov d h c q e :
  flow U prov d -> tb_codes d !! h = Some c -> cd_consumed_at_ms c = None ->
  tb_requests d !! cd_request_id c = Some q -> rq_enrollment_code_id q = Some e ->
  cd_authorization_id c = None /\ (forall a, prov !! a <> Some e).
Proof.
  intros Hf Hc Hn Hq He. destruct (f_code _ _ _ Hf _ _ Hc) as (_ & _ & q0 & sc & _ & _ & _ & _ & Ha).
  split.
  - destruct (cd_authorization_id c) eqn:E; [|done]. by destruct (Ha _ eq_refl).
  - intros a Hp. destruct (f_linked _ _ _ Hf _ _ _ _ Hq He Hp) as (_ & h' & c' & Hc' & Er & Ea).
    assert (h' = h) as -> by by apply (f_code_one _ _ _ Hf h' h c' c). rewrite Hc in Hc'.
    injection Hc' as <-. by destruct (Ha _ Ea).
Qed.

Lemma consume_le U d h c c' :
  tb_codes d !! h = Some c -> cd_consumed_at_ms c = None -> cd_scopes c' = cd_scopes c ->
  cd_request_id c' = cd_request_id c ->
  flow_le U d (set_codes (<[h := c']> (tb_codes d)) d).
Proof.
  intros Hc Hn E1 E2. split; simpl; [by eauto|by eauto|]. intros k c0. rewrite lookup_insert.
  case_decide; [|by eauto 10]. subst k. intros [= <-] _. exists c. by split_and!.
Qed.

(** The exchange: the grant comes from the enrollment code of the code's request. *)
Lemma exchange_flow U prov d h c now a ar sc :
  now <> 0%Z -> flow U prov d -> a <> ""%string -> tb_authorizations d !! a = None ->
  tb_codes d !! h = Some c -> cd_consumed_at_ms c = None -> has_scopes (cd_scopes c) sc ->
  ar_kind ar = AuthKindOAuth -> has_scopes (ar_minted_scopes ar) sc ->
  exists e, flow U (<[a := e]> prov)
    (set_authorizations (<[a := ar]> (tb_authorizations d)) (set_codes (<[h := code_consumed now a c]> (tb_codes d)) d)).
Proof.
  intros Hnow Hf Hne Hnone Hc Hn Hsc Hk Hmi.
  destruct (f_code _ _ _ Hf _ _ Hc) as (HU & _ & q & sc' & Hq & Hst & Hsc' & (selc & Hselc & Hsub1) & _).
  unfold has_scopes in Hsc, Hsc', Hselc. rewrite Hsc in Hsc'. injection Hsc' as <-.
  destruct (f_req _ _ _ Hf _ _ Hq) as (_ & e & er & sel & He & Her & Hcons & Hby & Hsel & (ce & Hce & Hsub2) & _).
  unfold has_scopes in Hsel. rewrite Hselc in Hsel. injection Hsel as <-.
  destruct (unconsumed_code _ _ _ _ _ _ _ Hf Hc Hn Hq He) as [Hca Hun].
  assert (prov !! a = None) as Hpa.
  { destruct (prov !! a) as [e0|] eqn:E; [|done]. destruct (f_prov _ _ _ Hf _ _ E) as (r & _ & _ & Hr & _). congruence. }
  exists e. split; simpl; try apply Hf.
  - intros k c0. rewrite lookup_insert. case_decide.
    + subst k. intros [= <-]. split; [done|]. split; [simpl; congruence|]. exists q, sc.
      split_and!; [done|done|done|by exists selc|]. simpl. rewrite nullString_nonempty by done.
      intros a0 [= <-]. split; [done|]. by rewrite lookup_insert_eq.
    + intros Hc0. destruct (f_code _ _ _ Hf _ _ Hc0) as (? & ? & q0 & s0 & Hq0 & ? & ? & ? & Ha0).
      split; [done|]. split; [done|]. exists q0, s0. split_and!; try done. intros a0 E0.
      destruct (Ha0 _ E0) as [? Hp0]. split; [done|]. rewrite lookup_insert_ne; [done|].
      intros <-. destruct (f_req _ _ _ Hf _ _ Hq0) as (_ & e0 & _ & _ & E & _). congruence.
  - intros h1 h2 c1 c2. rewrite !lookup_insert. repeat case_decide; subst; [done| | |by apply (f_code_one _ _ _ Hf)];
      [intros [= <-] Hx E|intros Hx [= <-] E]; by eapply (f_code_one _ _ _ Hf).
  - intros k q0 e0 a0 Hq0 He0. rewrite lookup_insert. case_decide.
    + subst a0. intros [= <-]. assert (k = cd_request_id c) as -> by by eapply request_unique.
      rewrite Hq in Hq0. injection Hq0 as <-. split; [done|]. exists h. eexists. rewrite lookup_insert_eq.
      split_and!; [done|done|]. simpl. by rewrite nullString_nonempty.
    + intros Hp. destruct (f_linked _ _ _ Hf _ _ _ _ Hq0 He0 Hp) as (? & h0 & c0 & Hc0 & ? & ?).
      split; [done|]. exists h0, c0. rewrite lookup_insert_ne; [done|]. intros <-. congruence.
  - intros a0 e0. rewrite !lookup_insert. case_decide.
    + intros [= <-]. exists ar, er, sc. split_and!; try done. exists ce. split; [done|]. by etransitivity.
    + intros Hp. apply (f_prov _ _ _ Hf _ _ Hp).
  - intros a0 r0. rewrite !lookup_insert. case_decide; [by eauto|]. apply (f_total _ _ _ Hf).
  - intros a1 a2 e0. rewrite !lookup_insert. repeat case_decide; subst; [done| | |by apply (f_inj _ _ _ Hf)].
    + intros [= <-] Hp. by destruct (Hun a2).
    + intros Hp [= <-]. by destruct (Hun a1).
Qed.

(** A code consumed without a grant. *)
Lemma unbound_flow U prov d h c now :
  now <> 0%Z -> flow U prov d -> tb_codes d !! h = Some c -> cd_consumed_at_ms c = None ->
  flow U prov (set_codes (<[h := code_consumed now "" c]> (tb_codes d)) d).
Proof.
  intros Hnow Hf Hc Hn.
  destruct (f_code _ _ _ Hf _ _ Hc) as (HU & _ & q & sc & Hq & Hst & Hsc & Hsel & Ha).
  destruct (f_req _ _ _ Hf _ _ Hq) as (_ & e & _ & _ & He & _).
  destruct (unconsumed_code _ _ _ _ _ _ _ Hf Hc Hn Hq He) as [Hca _].
  split; simpl; try apply Hf.
  - intros k c0. rewrite lookup_insert. case_decide; [|by apply (f_code _ _ _ Hf)]. subst k.
    intros [= <-]. split; [done|]. split; [simpl; congruence|]. exists q, sc. simpl. rewrite Hca.
    by split_and!.
  - intros h1 h2 c1 c2. rewrite !lookup_insert. repeat case_decide; subst; [done| | |by apply (f_code_one _ _ _ Hf)];
      [intros [= <-] Hx E|intros Hx [= <-] E]; by eapply (f_code_one _ _ _ Hf).
  - intros k q0 e0 a0 Hq0 He0 Hp.
    destruct (f_linked _ _ _ Hf _ _ _ _ Hq0 He0 Hp) as (? & h0 & c0 & Hc0 & ? & ?).
    split; [done|]. exists h0, c0. rewrite lookup_insert_ne; [done|]. intros <-. congruence.
Qed.

(** The client, its requests and their codes gone. *)
Lemma delete_client_flow U prov id now d d' u :
  flow U prov d -> DeleteOAuthClient id now d = Ok (d', u) -> flow U prov d' /\ flow_le U d d'.
Proof.
  intros Hf [= <- _].
  split; [split; simpl; try apply Hf|].
  - intros k q [Hq _]%lookup_delete_where_Some. by apply (f_req _ _ _ Hf).
  - intros h c [Hc Hk]%lookup_delete_where_Some.
    destruct (f_code _ _ _ Hf _ _ Hc) as (? & ? & q & sc & Hq & ?). split; [done|]. split; [done|].
    exists q, sc. split; [|done]. apply lookup_delete_where_Some. by rewrite Hq in Hk.
  - intros h1 h2 c1 c2 [Hc1 _]%lookup_delete_where_Some [Hc2 _]%lookup_delete_where_Some.
    by apply (f_code_one _ _ _ Hf).
  - intros k q e a [Hq Hk]%lookup_delete_where_Some He Hp.
    destruct (f_linked _ _ _ Hf _ _ _ _ Hq He Hp) as (? & h & c & Hc & Er & ?). split; [done|].
    exists h, c. split; [|done]. apply lookup_delete_where_Some. rewrite Er, Hq. done.
  - split; simpl; [by eauto| |].
    + intros k q [Hq _]%lookup_delete_where_Some _. by exists q.
    + intros h c [Hc _]%lookup_delete_where_Some _. by exists c.
Qed.

(** ** The handlers *)

(** [prov] only grows, the tables move by [flow_le]. *)
Definition flows (U U' : gset string) (prov : gmap string string) (d d' : AuthDB) : Prop :=
  exists prov', prov ⊆ prov' /\ flow U' prov' d' /\ flow_le U d d'.

Lemma flows_same U prov d d' : flow U prov d' /\ flow_le U d d' -> flows U U prov d d'.
Proof. intros [? ?]. by exists prov. Qed.

Lemma flows_drew U U' prov d d' : flow U' prov d' /\ flow_le U d d' -> flows U U' prov d d'.
Proof. intros [? ?]. by exists prov. Qed.

Lemma flows_refl U prov d : flow U prov d -> flows U U prov d d.
Proof. intros Hf. exists prov. split_and!; [done|done|by apply flow_le_same]. Qed.

Lemma flows_weaken U U' prov d d' : U ⊆ U' -> flows U U prov d d' -> flows U U' prov d d'.
Proof. intros HU (p & ? & ? & ?). exists p. split_and!; [done|by eapply flow_weaken|done]. Qed.

Lemma flows_trans U prov d d1 d2 :
  flows U U prov d d1 -> (forall p, flow U p d1 -> flows U U p d1 d2) -> flows U U prov d d2.
Proof.
  intros (p & Hp & Hf & Hle) Hnext. destruct (Hnext p Hf) as (p' & Hp' & Hf' & Hle').
  exists p'. split_and!; [by etransitivity|done|by eapply flow_le_trans].
Qed.

Lemma flows_good U prov d d' : flow U prov d -> good d d' -> flows U U prov d d'.
Proof.
  intros Hf (_ & Hle & (_ & Ee & Eq & Ec) & Hnn). apply flows_same.
  split; [by eapply flow_quiet|by apply flow_le_same].
Qed.

Lemma flows_failure U prov d d' r spec source :
  flows U U prov d d' -> flows U U prov d (record_failure r spec source d').1.
Proof.
  intros Hfl. eapply flows_trans; [exact Hfl|]. intros p Hf. apply flows_same.
  destruct (record_failure_frame d' r spec source) as (Ea & _ & _ & Ee & Eq & Ec).
  split; [by eapply flow_eq|by apply flow_le_same].
Qed.

Lemma AuthzTx_flows {A} U U' prov now (m : Tx A) d :
  U ⊆ U' -> flow U prov d ->
  (forall d' a, m now d = Ok (d', a) -> flow U' prov d' /\ flow_le U d d') ->
  flows U U' prov d (AuthzTx now m d).1.
Proof.
  intros HU Hf Hm. unfold AuthzTx. destruct (m now d) as [[d' a]|e] eqn:E; simpl.
  - apply flows_drew. by eapply Hm.
  - eapply flows_weaken; [done|]. by apply flows_refl.
Qed.

(** A transaction of one write and audit rows. *)
Lemma flow_audit U prov d d1 d' :
  flow U prov d1 /\ flow_le U d d1 ->
  tb_authorizations d' = tb_authorizations d1 -> tb_enrollments d' = tb_enrollments d1 ->
  tb_requests d' = tb_requests d1 -> tb_codes d' = tb_codes d1 ->
  flow U prov d' /\ flow_le U d d'.
Proof.
  intros [Hf Hle] Ea Ee Eq Ec. split; [by eapply flow_eq|].
  eapply flow_le_trans; [reflexivity|exact Hle|by apply flow_le_same].
Qed.

Lemma audit_inv kind result account id source fields now d d' u :
  AppendAudit kind result account id source fields now d = Ok (d', u) ->
  tb_authorizations d' = tb_authorizations d /\ tb_enrollments d' = tb_enrollments d /\
  tb_requests d' = tb_requests d /\ tb_codes d' = tb_codes d.
Proof. by intros [= <- _]. Qed.

Lemma audit_if_inv (b : bool) kind result account id source fields now d d' u :
  (if b then AppendAudit kind result account id source fields else mret tt) now d = Ok (d', u) ->
  tb_authorizations d' = tb_authorizations d /\ tb_enrollments d' = tb_enrollments d /\
  tb_requests d' = tb_requests d /\ tb_codes d' = tb_codes d.
Proof. destruct b; [apply audit_inv|]. by intros [= <- _]. Qed.

(** The owner's codes. *)
Lemma issue_tx_flows U prov row kind result account id source fields now d :
  flow U prov d -> en_ID row <> ""%string -> en_ConsumedAtMS row = 0%Z -> en_RevokedAtMS row = 0%Z ->
  (exists sc, has_scopes (en_Scopes row) sc /\ ScopeAdmin ∉ sc) ->
  flows U U prov d (AuthzTx now
    (CreateEnrollmentCode row ≫= fun _ => AppendAudit kind result account id source fields) d).1.
Proof.
  intros Hf Hid Hc Hr Hsc. apply AuthzTx_flows; [done|done|].
  intros d' a (d1 & u & Htx & (Ea & Ee & Eq & Ec)%audit_inv)%bind_inv.
  eapply flow_audit; [|done..]. by eapply create_enrollment_flow.
Qed.

(** The rest of a handler only looks at the outcome. *)
Ltac tx_flows := match goal with |- flows ?U ?U' ?prov ?d ?t.1 => match t with context [AuthzTx ?n ?m ?d0] =>
    assert (flows U U' prov d (AuthzTx n m d0).1); [|by destruct (AuthzTx n m d0) as [? [?|?]]; simpl; repeat case_match] end end.

Lemma issue_flows U prov label scopes allowed ttl id hash source r d :
  flow U prov d -> id <> ""%string ->
  flows U U prov d (IssueEnrollmentCode label scopes allowed ttl id hash source r d).1.
Proof.
  intros Hf Hid. unfold IssueEnrollmentCode. case_decide; [by apply flows_refl|].
  destruct scopes as [|x xs], allowed as [|z zs]; try by apply flows_refl.
  all: destruct (enrollmentCeiling _ _) as [ceiling|] eqn:Ec; [|by apply flows_refl].
  all: destruct ttl; [|by apply flows_refl]; apply enrollmentCeiling_ok in Ec as [Hk Hadm].
  all: tx_flows; apply issue_tx_flows; [done|done|done|done|].
  all: exists ceiling; split; [by apply canonical_parse|done].
Qed.

Lemma revoke_enrollment_flows U prov r id reason source d :
  flow U prov d -> ticking r -> flows U U prov d (OwnerRevokeEnrollment r id reason source d).1.
Proof.
  intros Hf Hn%ticking_ne. unfold OwnerRevokeEnrollment.
  destruct (tb_enrollments d !! id); [|by apply flows_refl].
  tx_flows. apply AuthzTx_flows; [done|done|].
  intros d' a (d1 & ok & Hrv & (d2 & u & (Ea & Ee & Eq & Ec)%audit_if_inv & [= <- _])%bind_inv)%bind_inv.
  eapply flow_audit; [|done..]. by eapply revoke_enrollment_flow.
Qed.

(** The decisions whose transactions are still to come. *)
Definition valid_flow (U : gset string) (d : AuthDB) (p : Pending) : Prop :=
  match p with
  | PExchange _ i (ExchangeMint code _ _ _ _ _) =>
      co_CodeHash code = ce_CodeHash i /\ co_CodeHash code ∈ U /\
      forall c, tb_codes d !! co_CodeHash code = Some c -> cd_scopes c = co_Scopes code
  | PExchange _ i (ExchangeUnbound code _) => co_CodeHash code = ce_CodeHash i /\ co_CodeHash code ∈ U
  | PExchange _ i (ExchangeReplay code) =>
      co_CodeHash code = ce_CodeHash i /\ co_CodeHash code ∈ U /\
      forall c, tb_codes d !! co_CodeHash code = Some c ->
        cd_consumed_at_ms c <> None /\ scanString (cd_authorization_id c) = co_AuthorizationID code
  | PSubmit _ _ (SubmitCreate _ selected e) =>
      selected ⊆ list_to_set canonicalOrder /\
      exists er, tb_enrollments d !! en_ID e = Some er /\ ceiling_of (er_scopes er) selected
  | PApprove id _ (Ok (_, _, granted)) =>
      granted ⊆ list_to_set canonicalOrder /\ id ∈ U /\
      forall q sel, tb_requests d !! id = Some q -> has_scopes (rq_selected_scopes q) sel -> granted ⊆ sel
  | PComplete (CompleteMint req scopes) =>
      scopes ⊆ list_to_set canonicalOrder /\ re_ID req ∈ U /\
      forall q, tb_requests d !! re_ID req = Some q -> ceiling_of (rq_selected_scopes q) scopes
  | _ => True
  end.

Lemma valid_flow_le U U' d d' p :
  U ⊆ U' -> flow_le U d d' -> valid_flow U d p -> valid_flow U' d' p.
Proof.
  intros HU [He Hq Hc]. destruct p as [s p rr|s i er|source rr|ctx source sr|id source ar|id reason source dr|cr];
    simpl; try done.
  - destruct er as [e|reason refusal|code|code refusal|code scopes ae re deadline now0]; try done.
    + intros (E & Hin & Hall). split_and!; [done|set_solver|]. intros c Hc'.
      destruct (Hc _ _ Hc' Hin) as (c0 & Hold & _ & _ & Hk). destruct (Hall _ Hold) as [Hne Ha].
      destruct (Hk Hne) as [E1 E2]. by rewrite E1, E2.
    + intros [E Hin]. split; [done|set_solver].
    + intros (E & Hin & Hall). split_and!; [done|set_solver|]. intros c Hc'.
      destruct (Hc _ _ Hc' Hin) as (c0 & Hold & E0 & _). rewrite E0. by apply Hall.
  - destruct sr as [| | |cid selected e]; try done. intros (Hk & er & Her & Hceil). split; [done|].
    destruct (He _ _ Her) as (er' & Her' & E). exists er'. by rewrite E.
  - destruct ar as [[[row selected] granted]|e]; [|done]. intros (Hk & Hin & Hall).
    split_and!; [done|set_solver|]. intros q sel Hq' Hsel. destruct (Hq _ _ Hq' Hin) as (q0 & Hold & E).
    apply (Hall q0); [done|]. by rewrite <- E.
  - destruct cr as [| | |req scopes]; try done. intros (Hk & Hin & Hall).
    split_and!; [done|set_solver|]. intros q Hq'. destruct (Hq _ _ Hq' Hin) as (q0 & Hold & E).
    rewrite E. by apply Hall.
Qed.

(** *** What a read finds *)

Lemma exchange_read_flow U prov s i ttls allow r d :
  flow U prov d -> valid_flow U d (PExchange s i (exchange_read i ttls allow r d)).
Proof.
  intros Hf. unfold exchange_read. destruct allow; [done|]. destruct (Check _ _ _ _); [done|].
  unfold AuthorizationCodeByHash. destruct (tb_codes d !! ce_CodeHash i) as [c|] eqn:Hc; [|done].
  destruct (f_code _ _ _ Hf _ _ Hc) as (Hin & Hne & _).
  change (co_Consumed (scanAuthorizationCode ?h c)) with (scan_flag (cd_consumed_at_ms c)).
  destruct (scan_flag (cd_consumed_at_ms c)) eqn:Hcons.
  { split_and!; [done|done|]. intros c'. simpl. rewrite Hc. intros [= <-]. split; [|done].
    by apply scan_flag_true. }
  destruct (_ <=? _)%Z; [done|]. destruct (ce_Verify i _); [by split|].
  destruct (code_scopes _); [|done]. destruct ttls as [[[at_ it] ab]|]; [|done].
  split_and!; [done|done|]. intros c'. simpl. rewrite Hc. by intros [= <-].
Qed.

Lemma submit_read_flow U prov mr ctx source browser selected hash r d :
  flow U prov d -> valid_flow U d (PSubmit ctx source (submit_read mr browser ctx selected hash source r d)).
Proof.
  intros Hf. unfold submit_read. destruct (Check _ _ _ _); [done|]. destruct browser; [done|].
  destruct (tb_clients d !! _) as [client|]; [|done]. destruct (negb _); [done|].
  destruct (ParseScopes (cx_Scopes ctx)) as [requested|]; [|done].
  destruct (ParseScopes selected) as [sel|] eqn:Hsel; [|done]. destruct (_ || _); [done|].
  destruct (Check _ _ _ _); [done|]. destruct (EnrollmentCodeByHash hash d) as [e|] eqn:He; [|done].
  destruct (negb _); [done|]. destruct (ParseScopeString (en_Scopes e)) as [ceiling|] eqn:Hp; [|done].
  destruct (Widens sel ceiling) eqn:Hw; [done|]. apply EnrollmentCodeByHash_some in He as (er & Her & E).
  split; [by eapply parse_known|]. exists er. split; [done|]. exists ceiling. rewrite <- E.
  split; [done|]. by apply Widens_false.
Qed.

Lemma approved_scopes_ok selected raw granted :
  selected ⊆ list_to_set canonicalOrder -> approved_scopes selected raw = Ok granted ->
  granted ⊆ list_to_set canonicalOrder /\ granted ⊆ selected.
Proof.
  intros Hk. unfold approved_scopes. destruct raw as [[|x l]|]; [done| |by intros [= <-]].
  destruct (ParseScopes _) as [req|] eqn:E; [|done]. destruct (Empty req); [done|].
  destruct (Widens req selected) eqn:Hw; [done|]. intros [= <-].
  split; [by eapply parse_known|by apply Widens_false].
Qed.

Lemma approve_read_flow U prov id scopes source r d :
  flow U prov d -> valid_flow U d (PApprove id source (approve_read id scopes r d)).
Proof.
  intros Hf. unfold approve_read, AuthorizationRequestByID.
  destruct (tb_requests d !! id) as [q|] eqn:Hq; [|done]. cbn [fmap option_fmap option_map].
  destruct (negb _); [done|]. destruct (_ <=? _)%Z; [done|].
  destruct (ParseScopeString _) as [selected|] eqn:Hsel; [|done].
  destruct (approved_scopes selected scopes) as [granted|] eqn:Hg; [|done].
  apply approved_scopes_ok in Hg as [Hk Hsub]; [|by eapply parse_known]. simpl.
  split_and!; [done|by apply (f_req _ _ _ Hf _ _ Hq)|]. intros q' sel. rewrite Hq. intros [= <-] Hs.
  simpl in Hsel. unfold has_scopes in Hs. rewrite Hsel in Hs. by injection Hs as <-.
Qed.

Lemma complete_read_flow U prov id r d :
  flow U prov d -> valid_flow U d (PComplete (complete_read id r d)).
Proof.
  intros Hf. unfold complete_read, AuthorizationRequestByID.
  destruct (tb_requests d !! id) as [q|] eqn:Hq; [|done]. cbn [fmap option_fmap option_map].
  destruct (bool_decide _); [done|]. destruct (negb _); [done|].
  destruct (ParseScopeString _) as [scopes|] eqn:Hp; [|done].
  destruct (Empty scopes || Has scopes ScopeAdmin); [done|]. simpl. simpl in Hp.
  destruct (f_req _ _ _ Hf _ _ Hq) as (Hin & e & er & sel & _ & _ & _ & _ & Hsel & _ & Hg).
  split_and!; [by eapply parse_known|done|]. intros q'. rewrite Hq. intros [= <-].
  exists sel. split; [done|]. unfold has_scopes in Hsel. case_decide.
  - rewrite Hp in Hsel. by injection Hsel as <-.
  - destruct (rq_granted_scopes q) as [g|]; [|done]. destruct (Hg g eq_refl) as (gs & Hgs & Hsub).
    unfold has_scopes in Hgs. simpl in Hp. rewrite Hp in Hgs. by injection Hgs as <-.
Qed.

(** *** Carrying the decisions out *)

Lemma submit_flows U prov ctx id token source ttl r sr d :
  flow U prov d -> ticking r -> id ∉ U -> valid_flow U d (PSubmit ctx source sr) ->
  flows U ({[id]} ∪ U) prov d (submit_finish ctx id token source ttl r sr d).1.
Proof.
  intros Hf Hn%ticking_ne Hid Hv. assert (U ⊆ {[id]} ∪ U) as HU by set_solver.
  unfold submit_finish. destruct sr as [e| |ceiling|cid selected e].
  - eapply flows_weaken; [done|by apply flows_refl].
  - eapply flows_weaken; [done|]. by apply flows_failure, flows_failure, flows_refl.
  - eapply flows_weaken; [done|by apply flows_refl].
  - destruct Hv as [Hk Her]. cbv zeta. tx_flows.
    apply AuthzTx_flows; [done|done|]. intros d' ok Htx. by eapply pending_flow.
Qed.

Lemma decide_flows U prov id status granted reason kind source fields text now d :
  flow U prov d ->
  (forall q sel, tb_requests d !! id = Some q -> has_scopes (rq_selected_scopes q) sel ->
     granted = ""%string \/ exists gs, has_scopes granted gs /\ gs ⊆ sel) ->
  flows U U prov d
    (decided (AuthzTx now (decide_tx id status granted reason kind source fields) d) text).1.
Proof.
  intros Hf Hg. unfold decided. tx_flows. apply AuthzTx_flows; [done|done|].
  intros d' a (d1 & ok & Htx & (d2 & u & (Ea & Ee & Eq & Ec)%audit_if_inv & [= <- _])%bind_inv)%bind_inv.
  eapply flow_audit; [|done..]. by eapply decide_flow.
Qed.

Lemma approve_flows U prov id source r ar d :
  flow U prov d -> valid_flow U d (PApprove id source ar) ->
  flows U U prov d (approve_finish id source r ar d).1.
Proof.
  intros Hf Hv. unfold approve_finish. destruct ar as [[[row selected] granted]|e]; [|by apply flows_refl].
  destruct Hv as (Hk & _ & Hsub). apply decide_flows; [done|]. intros q sel Hq Hsel. right.
  exists granted. split; [by apply canonical_parse|by eapply Hsub].
Qed.

Lemma deny_flows U prov id reason source r dr d :
  flow U prov d -> flows U U prov d (deny_finish id reason source r dr d).1.
Proof.
  intros Hf. unfold deny_finish. destruct dr as [row|e]; [|by apply flows_refl].
  apply decide_flows; [done|]. intros. by left.
Qed.

Lemma complete_flows U prov hash ttl r cr d :
  flow U prov d -> hash ∉ U -> valid_flow U d (PComplete cr) ->
  flows U ({[hash]} ∪ U) prov d (complete_finish hash ttl r cr d).1.
Proof.
  intros Hf Hh Hv. assert (U ⊆ {[hash]} ∪ U) as HU by set_solver.
  unfold complete_finish. destruct cr as [|req|e|req scopes];
    try (eapply flows_weaken; [done|by apply flows_refl]).
  destruct Hv as (Hk & _ & Hceil). cbv zeta. tx_flows.
  apply AuthzTx_flows; [done|done|]. intros d' ok Htx. by eapply complete_flow.
Qed.

Lemma delete_each_flow U prov ids now d d' u :
  flow U prov d -> sweep_each ids now d = Ok (d', u) -> flow U prov d' /\ flow_le U d d'.
Proof.
  revert d. induction ids as [|id ids IH]; intros d Hf.
  { intros [= <- _]. split; [done|by apply flow_le_same]. }
  intros (d1 & u1 & Hdel & (d2 & u2 & (Ea & Ee & Eq & Ec)%audit_inv & Htx)%bind_inv)%bind_inv.
  apply (delete_client_flow U prov) in Hdel; [|done].
  pose proof (flow_audit _ _ _ _ _ Hdel Ea Ee Eq Ec) as [Hf2 Hle2].
  destruct (IH _ Hf2 Htx) as [Hf3 Hle3]. split; [done|]. by eapply flow_le_trans.
Qed.

Lemma sweep_flows U prov r d :
  flow U prov d -> flows U U prov d (SweepExpiredRegistrations r d).1.
Proof.
  intros Hf. unfold SweepExpiredRegistrations. apply AuthzTx_flows; [done|done|].
  intros d' a (d1 & ids & Hread & (d2 & u & Htx & [= <- _])%bind_inv)%bind_inv.
  injection Hread as <- _. by eapply delete_each_flow.
Qed.

Lemma delete_tx_flows U prov r id reason source n d :
  flow U prov d ->
  flows U U prov d (AuthzTx (UnixMilli (rd_tx r)) (delete_client_tx id reason source n) d).1.
Proof.
  intros Hf. apply AuthzTx_flows; [done|done|].
  intros d' a (d1 & u & Htx & (Ea & Ee & Eq & Ec)%audit_inv)%bind_inv.
  eapply flow_audit; [|done..]. by eapply delete_client_flow.
Qed.

Lemma create_client_flows U prov r id c d :
  flow U prov d -> flows U U prov d (AuthzTx (UnixMilli (rd_tx r)) (CreateOAuthClient id c) d).1.
Proof.
  intros Hf. apply AuthzTx_flows; [done|done|]. intros d' a Htx. unfold CreateOAuthClient in Htx.
  destruct (tb_clients d !! id); [done|]. injection Htx as <- _.
  split; [by eapply flow_eq|by apply flow_le_same].
Qed.

Lemma replay_flows U prov r source code d :
  flow U prov d -> ticking r -> CORE d -> flows U U prov d (revokeAfterReplay r source code d).1.
Proof.
  intros Hf Hn%ticking_ne Hc. unfold revokeAfterReplay. case_decide; [by apply flows_failure, flows_refl|].
  unfold AuthzTx. set (d1 := match replay_tx source code (UnixMilli (rd_tx r)) d with
    Ok (d1, _) => d1 | Err _ => d end).
  assert (replay_tx source code (UnixMilli (rd_tx r)) d = Ok (d1, tt)) as -> by done.
  cbv beta iota. cbn [fst snd]. apply flows_failure, flows_good; [done|].
  destruct (revoke_tx_good (co_AuthorizationID code) _ d d1 Hn Hc eq_refl eq_refl) as (? & ? & _).
  split_and!; [done|done|done|by eapply no_new_alter].
Qed.

Lemma exchange_tx_flows U prov s i f code scopes ae re deadline now0 source now d d' raced :
  now <> 0%Z -> fr_authorization f <> ""%string -> flow U prov d ->
  valid_exchange (ExchangeMint code scopes ae re deadline now0) ->
  valid_flow U d (PExchange s i (ExchangeMint code scopes ae re deadline now0)) ->
  exchange_tx s f code scopes ae re deadline now0 source now d = Ok (d', raced) ->
  flows U U prov d d'.
Proof.
  intros Hn Hne Hf (Hk & _ & Hsc & _) (E & Hin & Hcode)
    [(_ & -> & _)|(_ & row & d2 & u & Hrow & Hun & Hnone & Hpair & Ea & _ & (_ & Ee & Eq & Ec))]%exchange_tx_inv;
    [by apply flows_refl|].
  apply token_pair_inv in Hpair as (_ & _ & _ & ->). simpl in *.
  match type of Ea with _ = <[_ := ?ar]> _ => destruct (exchange_flow U prov d (co_CodeHash code) row now
    (fr_authorization f) ar scopes Hn Hf Hne Hnone Hrow Hun) as [e He] end.
  - by rewrite (Hcode _ Hrow).
  - done.
  - by apply canonical_parse.
  - exists (<[fr_authorization f := e]> prov). split_and!.
    + apply insert_subseteq. destruct (prov !! fr_authorization f) as [e0|] eqn:E0; [|done].
      destruct (f_prov _ _ _ Hf _ _ E0) as (r0 & _ & _ & Hr0 & _). congruence.
    + by eapply flow_eq.
    + eapply flow_le_trans; [reflexivity| |].
      { by apply (consume_le U d (co_CodeHash code) row (code_consumed now (fr_authorization f) row)). }
      by apply flow_le_same.
Qed.

Lemma failure_flows U prov d d' r source reason refusal :
  flows U U prov d d' -> flows U U prov d (recordOAuthFailure r source reason refusal d').1.
Proof.
  intros Hfl. unfold recordOAuthFailure. eapply (flows_failure _ _ _ _ r LimitOAuthToken source) in Hfl.
  destruct (record_failure _ _ _ d') as [d2 a]. simpl in *. eapply flows_trans; [exact Hfl|].
  intros p Hf. apply flows_same. split; [by eapply flow_eq|by apply flow_le_same].
Qed.

Lemma exchange_flows U prov s i f r er d :
  ticking r -> nul_free (sv_audience s) = true -> fr_authorization f <> ""%string ->
  CORE d -> flow U prov d -> valid_exchange er -> valid_flow U d (PExchange s i er) ->
  flows U U prov d (exchange_finish s i f r er d).1.
Proof.
  intros Hn Haud Hne Hc Hf Hve Hvf. unfold exchange_finish. pose proof (ticking_ne _ Hn) as Hn0.
  destruct er as [e|reason refusal|code|code refusal|code scopes ae re deadline now0].
  - by apply flows_refl.
  - by apply failure_flows, flows_refl.
  - by apply replay_flows.
  - match goal with |- context [AuthzTx ?n ?m ?d0] =>
      assert (flows U U prov d (AuthzTx n m d0).1) as Hfl; [|destruct (AuthzTx n m d0) as [? [?|?]]] end.
    2: { by apply flows_failure. }
    2: { done. }
    apply AuthzTx_flows; [done|done|].
    intros d' a (d1 & b & Hcons & (Ea & Ee & Eq & Ec)%audit_inv)%bind_inv. eapply flow_audit; [|done..].
    unfold ConsumeAuthorizationCode in Hcons. destruct (tb_codes d !! co_CodeHash code) as [c|] eqn:Hcode.
    2: { injection Hcons as <- _. split; [done|by apply flow_le_same]. }
    destruct (bool_decide _) eqn:Hb; injection Hcons as <- _; [|split; [done|by apply flow_le_same]].
    apply bool_decide_eq_true in Hb. split; [by apply unbound_flow|by apply (consume_le U d _ c)].
  - destruct (AuthzTx _ _ d) as [d1 res] eqn:E.
    apply AuthzTx_inv in E as [(e & -> & -> & _)|(raced & -> & Htx)]; [by apply flows_refl|].
    pose proof (exchange_tx_flows _ _ _ _ _ _ _ _ _ _ _ _ _ _ _ _ Hn0 Hne Hf Hve Hvf Htx) as Hfl.
    pose proof (exchange_tx_safe _ _ _ _ _ _ _ _ _ _ _ _ _ Hn0 Haud Hc Hve Htx) as [Hc1 _].
    destruct raced; [|exact Hfl]. unfold AuthorizationCodeByHash.
    destruct (tb_codes d1 !! ce_CodeHash i) as [row|]; [|by apply failure_flows].
    eapply flows_trans; [exact Hfl|]. intros p Hf1. by apply replay_flows.
Qed.
End Flow.

(** ** The system *)

Section Provenance.
Context `{CollisionFree} (match_redirect : list string -> string -> bool).
Notation Step := (Step match_redirect).

Definition flow_ok (prov : gmap string string) (y : Sys) : Prop :=
  flow (sy_used y) prov (sy_db y) /\ Forall (valid_flow (sy_used y) (sy_db y)) (sy_pool y).

Lemma empty_flow : flow ∅ ∅ empty_db.
Proof. split; intros *; by rewrite ?lookup_empty. Qed.

Lemma flow_initial : flow_ok ∅ initial.
Proof. split; [apply empty_flow|constructor]. Qed.

Lemma flow_pending prov y p : flow_ok prov y -> p ∈ sy_pool y -> valid_flow (sy_used y) (sy_db y) p.
Proof. intros [_ Hp]. rewrite Forall_forall in Hp. apply Hp. Qed.

(** How the whole moves. *)
Definition flow_step (prov : gmap string string) (y y' : Sys) : Prop :=
  exists prov', prov ⊆ prov' /\ flow_ok prov' y' /\ sy_used y ⊆ sy_used y' /\
    flow_le (sy_used y) (sy_db y) (sy_db y').

Lemma flow_moved prov y U' d' :
  flow_ok prov y -> sy_used y ⊆ U' -> flows (sy_used y) U' prov (sy_db y) d' ->
  flow_step prov y (mkSys d' (sy_pool y) U').
Proof.
  intros [Hf Hp] HU (prov' & Hsub & Hf' & Hle). exists prov'. split_and!; [done| |done|done].
  split; [done|]. simpl. eapply Forall_impl; [exact Hp|]. intros p. by apply valid_flow_le.
Qed.

Lemma flow_ran prov y d' :
  flow_ok prov y -> flows (sy_used y) (sy_used y) prov (sy_db y) d' -> flow_step prov y (ran y d').
Proof. intros Hok. by apply flow_moved. Qed.

Lemma flow_chose prov y p :
  flow_ok prov y -> valid_flow (sy_used y) (sy_db y) p -> flow_step prov y (chose y p).
Proof.
  intros [Hf Hp] Hv. exists prov. split_and!; [done| |done|by apply flow_le_same].
  split; [done|]. by constructor.
Qed.

Lemma step_flow prov y y' :
  sys_ok y -> flow_ok prov y -> Step y y' -> flow_step prov y y'.
Proof.
  intros Hok Hfo Hst. pose proof (proj1 Hok) as Hc. pose proof (proj1 Hfo) as Hf.
  destruct Hst as [| | ? ? ? ? ? Hin | | ? ? ? ? ? Hin| | | | | | | | |? ? ? ? ? ? ? Hin| |? ? ? ? Hin| | | |? ? ? ? Hin| | |].
  - apply flow_ran; [done|]. apply flows_good; [done|]. by apply mint_good.
  - by apply flow_chose.
  - apply flow_ran; [done|]. apply flows_good; [done|].
    apply (sys_pending _ _ Hok) in Hin as (Haud & Hv & _). by apply refresh_finish_good.
  - apply flow_chose; [done|]. by eapply exchange_read_flow.
  - apply flow_ran; [done|]. pose proof (flow_pending _ _ _ Hfo Hin) as Hvf.
    apply (sys_pending _ _ Hok) in Hin as [Haud Hv]. by apply exchange_flows.
  - by apply flow_chose.
  - apply flow_ran; [done|]. apply flows_good; [done|]. by apply revoke_finish_good.
  - apply flow_ran; [done|]. apply flows_good; [done|]. by apply owner_revoke_good.
  - apply flow_ran; [done|]. apply flows_good; [done|]. by apply logout_good.
  - apply flow_ran; [done|]. destruct (superseded_good s r (sy_db y)) as (d' & ids & -> & Hg & _); [done..|].
    by apply flows_good.
  - apply flow_ran; [done|]. by apply issue_flows.
  - apply flow_ran; [done|]. by apply revoke_enrollment_flows.
  - apply flow_chose; [done|]. by eapply submit_read_flow.
  - apply (flow_moved prov y); [done|simpl; set_solver|]. apply submit_flows; [done..|]. exact (flow_pending prov y _ Hfo Hin).
  - apply flow_chose; [done|]. by eapply approve_read_flow.
  - apply flow_ran; [done|]. apply approve_flows; [done|]. exact (flow_pending prov y _ Hfo Hin).
  - by apply flow_chose.
  - apply flow_ran; [done|]. by apply deny_flows.
  - apply flow_chose; [done|]. by eapply complete_read_flow.
  - apply (flow_moved prov y); [done|simpl; set_solver|]. apply complete_flows; [done..|]. exact (flow_pending prov y _ Hfo Hin).
  - apply flow_ran; [done|]. by apply create_client_flows.
  - apply flow_ran; [done|]. by apply delete_tx_flows.
  - apply flow_ran; [done|]. by apply sweep_flows.
Qed.

Lemma steps_flow prov y y' :
  sys_ok y -> flow_ok prov y -> rtc Step y y' -> flow_step prov y y'.
Proof.
  intros Hok Hfo Hr. revert prov Hfo. induction Hr as [y|y y1 y2 Hst _ IH]; intros prov Hfo.
  { exists prov. split_and!; [done|done|done|by apply flow_le_same]. }
  destruct (step_flow _ _ _ Hok Hfo Hst) as (p1 & Hp1 & Hfo1 & HU1 & Hle1).
  destruct (IH (proj1 (step_ok _ _ _ Hok Hst)) _ Hfo1) as (p2 & Hp2 & Hfo2 & HU2 & Hle2).
  exists p2. split_and!; [by etransitivity|done|by etransitivity|]. by eapply flow_le_trans.
Qed.

Lemma reachable_flow y : rtc Step initial y -> exists prov, flow_ok prov y.
Proof.
  intros Hr. destruct (steps_flow ∅ _ _ initial_ok flow_initial Hr) as (p & _ & Hp & _). by exists p.
Qed.

(** ** Properties *)

(** Every OAuth grant and the enrollment code it comes from. *)
Definition origin (prov : gmap string string) (d : AuthDB) : Prop :=
  (forall a1 a2 e, prov !! a1 = Some e -> prov !! a2 = Some e -> a1 = a2) /\
  forall a r, tb_authorizations d !! a = Some r -> ar_kind r = AuthKindOAuth ->
    exists e er sc mi ceiling, prov !! a = Some e /\ tb_enrollments d !! e = Some er /\
      er_consumed_at_ms er <> None /\ has_scopes (ar_scopes r) sc /\
      has_scopes (ar_minted_scopes r) mi /\ has_scopes (er_scopes er) ceiling /\
      sc ⊆ mi /\ mi ⊆ ceiling /\ ScopeAdmin ∉ ceiling.

Lemma flow_origin prov y : sys_ok y -> flow_ok prov y -> origin prov (sy_db y).
Proof.
  intros [Hc _] [Hf _]. split; [apply (f_inj _ _ _ Hf)|]. intros a r Hr Hk.
  destruct (f_total _ _ _ Hf _ _ Hr Hk) as [e He].
  destruct (f_prov _ _ _ Hf _ _ He) as (r0 & er & mi & Hr0 & _ & Her & Hcons & Hmi & ceiling & Hceil & Hsub).
  rewrite Hr in Hr0. injection Hr0 as <-.
  destruct (core_scopes _ _ Hc _ _ Hr) as (sc & mi' & Hsc & Hmi' & Hsub' & _).
  destruct (f_enr _ _ _ Hf _ _ Her) as (_ & _ & _ & ceiling' & Hceil' & Hadm). unfold has_scopes in *.
  rewrite Hmi in Hmi'. injection Hmi' as <-. rewrite Hceil in Hceil'. injection Hceil' as <-.
  exists e, er, sc, mi, ceiling. by split_and!.
Qed.

(** C4: every grant goes back to the owner.  In every reachable state there is an
    injective assignment of consumed enrollment codes to the OAuth authorizations: one
    code makes at most one grant, and the grant's scopes are within what it was minted
    with, which is within the code's ceiling, which the owner set and which never holds
    [admin].  The assignment is never revised: in every later state an extension of it
    does the same. *)
Theorem grant_provenance y y2 :
  rtc Step initial y -> rtc Step y y2 ->
  exists prov prov2, prov ⊆ prov2 /\ origin prov (sy_db y) /\ origin prov2 (sy_db y2).
Proof.
  intros Hr Hr2. destruct (reachable_flow _ Hr) as [prov Hfo].
  pose proof (sys_reachable_ok _ _ Hr) as Hok. destruct (steps_ok _ _ _ Hok Hr2) as [Hok2 _].
  destruct (steps_flow _ _ _ Hok Hfo Hr2) as (prov2 & Hsub & Hfo2 & _).
  exists prov, prov2. split_and!; [done|by apply flow_origin|by apply flow_origin].
Qed.

(** A code that was drawn and is consumed or gone. *)
Definition settled (h : string) (y : Sys) : Prop :=
  h ∈ sy_used y /\ forall c, tb_codes (sy_db y) !! h = Some c -> cd_consumed_at_ms c <> None.

Lemma settled_later prov h y y' : flow_step prov y y' -> settled h y -> settled h y'.
Proof.
  intros (_ & _ & _ & HU & Hle) [Hin Hall]. split; [by apply HU|]. intros c Hc.
  destruct (fle_code _ _ _ Hle _ _ Hc Hin) as (c0 & Hc0 & _ & _ & Hk).
  destruct (Hk (Hall _ Hc0)) as [E _]. rewrite E. by apply Hall.
Qed.

Lemma exchange_Ok_inv s i f r er d d' sess :
  exchange_finish s i f r er d = (d', Ok sess) ->
  exists code scopes ae re deadline now0, er = ExchangeMint code scopes ae re deadline now0 /\
    exchange_tx s f code scopes ae re deadline now0 (normalizeSource (ce_Source i)) (UnixMilli (rd_tx r)) d = Ok (d', false) /\
    se_AuthorizationID sess = fr_authorization f.
Proof.
  unfold exchange_finish, recordOAuthFailure, revokeAfterReplay.
  destruct er as [e|reason refusal|code|code refusal|code scopes ae re deadline now0]; [done| | | |].
  - by destruct (record_failure _ _ _ _).
  - case_decide; [done|]. by destruct (AuthzTx _ _ d) as [d1 [u|e]].
  - by destruct (AuthzTx _ _ d) as [d1 [u|e]].
  - destruct (AuthzTx _ _ d) as [d1 res] eqn:E.
    apply AuthzTx_inv in E as [(e & -> & -> & _)|([] & -> & Htx)]; [done| |].
    + destruct (AuthorizationCodeByHash _ d1) as [row|]; [|by destruct (record_failure _ _ _ _)].
      case_decide; [done|]. by destruct (AuthzTx _ _ d1) as [d2 [u|e]].
    + intros [= <- <-]. by exists code, scopes, ae, re, deadline, now0.
Qed.

Lemma settled_refused prov y s i f r er d' sess :
  flow_ok prov y -> PExchange s i er ∈ sy_pool y -> settled (ce_CodeHash i) y ->
  exchange_finish s i f r er (sy_db y) <> (d', Ok sess).
Proof.
  intros Hfo Hin [_ Hall] Hfin. apply (flow_pending _ _ _ Hfo) in Hin.
  apply exchange_Ok_inv in Hfin as (code & scopes & ae & re & deadline & now0 & -> & Htx & _).
  destruct Hin as [E _]. rewrite <- E in Hall.
  apply exchange_tx_inv in Htx as [[? _]|(_ & row & _ & _ & Hrow & Hun & _)]; [done|]. by apply (Hall row).
Qed.

Lemma exchange_tx_raced s f code scopes ae re deadline now0 source now d c :
  tb_codes d !! co_CodeHash code = Some c -> cd_consumed_at_ms c <> None ->
  exchange_tx s f code scopes ae re deadline now0 source now d = Ok (d, true).
Proof.
  intros Hc Hne. unfold exchange_tx, mbind, Tx_bind, ConsumeAuthorizationCode. rewrite Hc.
  by rewrite bool_decide_eq_false_2.
Qed.

Definition redeems (er : ExchangeRead) : Prop :=
  match er with ExchangeMint _ _ _ _ _ _ | ExchangeReplay _ => True | _ => False end.

(** A presentation of a code whose grant is known ends that grant. *)
Lemma replay_ends prov y s i f r er c a :
  sys_ok y -> flow_ok prov y -> PExchange s i er ∈ sy_pool y -> ticking r -> redeems er -> a <> ""%string ->
  tb_codes (sy_db y) !! ce_CodeHash i = Some c -> cd_consumed_at_ms c <> None -> cd_authorization_id c = Some a ->
  exists d', exchange_finish s i f r er (sy_db y) = (d', Err ErrGrantReplayed) /\ DEAD a d'.
Proof.
  intros [Hc _] Hfo Hin Hn Hred Hne Hcode Hcons Ha. apply (flow_pending _ _ _ Hfo) in Hin.
  assert (forall code, co_AuthorizationID code = a ->
    exists d', revokeAfterReplay r (normalizeSource (ce_Source i)) code (sy_db y) = (d', Err ErrGrantReplayed) /\
      DEAD a d') as Hre.
  { intros code E. destruct (replay_safe r (normalizeSource (ce_Source i)) code _ Hn Hc) as (_ & Hd & He).
    destruct (revokeAfterReplay _ _ code _) as [d' res] eqn:Er. simpl in *. subst res a. eauto. }
  destruct er as [| |code| |code scopes ae re deadline now0]; try done; destruct Hin as (E & _ & Hall).
  - apply Hre. rewrite E in Hall. destruct (Hall c Hcode) as [_ <-]. by rewrite Ha.
  - unfold exchange_finish, AuthzTx. rewrite (exchange_tx_raced _ _ _ _ _ _ _ _ _ _ _ c); [|by rewrite E|done].
    unfold AuthorizationCodeByHash. rewrite Hcode. apply Hre. simpl. by rewrite Ha.
Qed.

(** A presentation that was answered with a session or failed its binding check. *)
Lemma burnt y prov s i f r er d1 res :
  flow_ok prov y -> PExchange s i er ∈ sy_pool y -> exchange_finish s i f r er (sy_db y) = (d1, res) ->
  ticking r -> (exists sess, res = Ok sess) \/ (exists code refusal, er = ExchangeUnbound code refusal) ->
  ce_CodeHash i ∈ sy_used y /\
  (forall c, tb_codes d1 !! ce_CodeHash i = Some c -> cd_consumed_at_ms c <> None) /\
  (forall sess, res = Ok sess -> fr_authorization f <> ""%string -> exists c,
     tb_codes d1 !! ce_CodeHash i = Some c /\ cd_authorization_id c = Some (se_AuthorizationID sess)).
Proof.
  intros Hfo Hin Hfin Hn%ticking_ne Hor. apply (flow_pending _ _ _ Hfo) in Hin.
  destruct Hor as [[sess ->]|(code & refusal & ->)].
  - apply exchange_Ok_inv in Hfin as (code & scopes & ae & re & deadline & now0 & -> & Htx & Hid).
    destruct Hin as (E & HU & _). rewrite <- E. split; [done|].
    apply exchange_tx_inv in Htx as [[? _]|(_ & row & d2 & u & _ & _ & _ & Hpair & _ & _ & (_ & _ & _ & Ec))]; [done|].
    apply token_pair_inv in Hpair as (_ & _ & _ & ->). simpl in Ec. rewrite Ec, lookup_insert_eq. split.
    + by intros c [= <-].
    + intros sess' [= <-] Hne. eexists. split; [done|]. simpl. by rewrite nullString_nonempty, Hid.
  - destruct Hin as [E HU]. rewrite <- E. split; [done|]. unfold exchange_finish in Hfin.
    destruct (AuthzTx _ _ _) as [d2 res2] eqn:Htx.
    apply AuthzTx_inv in Htx as [(e & _ & _ & Htx)|(u & -> & Htx)].
    { exfalso. unfold unbound_tx, ConsumeAuthorizationCode, mbind, Tx_bind in Htx.
      by destruct (tb_codes _ !! _); [destruct (bool_decide _)|]. }
    injection Hfin as <- <-. split; [|done]. intros c. change (tb_codes (set_attempts ?t d2)) with (tb_codes d2).
    apply bind_inv in Htx as (d3 & b & Hcons & (_ & _ & _ & ->)%audit_inv).
    unfold ConsumeAuthorizationCode in Hcons.
    destruct (tb_codes (sy_db y) !! co_CodeHash code) as [c0|] eqn:Hc0; [|injection Hcons as <- _; congruence].
    destruct (bool_decide _) eqn:Hb; injection Hcons as <- _.
    + simpl. rewrite lookup_insert_eq. by intros [= <-].
    + apply bool_decide_eq_false in Hb. rewrite Hc0. by intros [= <-].
Qed.

(** C3: an authorization code is redeemed at most once.  Once a presentation of it has
    been answered with a session, or has failed the check of its client, redirect URI,
    verifier and resource, no presentation of it is answered with a session, whatever
    happens in between and however the presentations overlap.  After a session, a
    presentation whose reads found the code in order or consumed is answered as a replay
    and leaves the first one's authorization and all its tokens revoked, as long as the
    code's row is there. *)
Theorem code_single_use y s i er f r d1 res y2 :
  rtc Step initial y -> PExchange s i er ∈ sy_pool y -> ticking r -> fr_authorization f <> ""%string ->
  exchange_finish s i f r er (sy_db y) = (d1, res) ->
  (exists sess, res = Ok sess) \/ (exists code refusal, er = ExchangeUnbound code refusal) ->
  rtc Step (ran y d1) y2 ->
  forall s2 i2 er2 f2 r2, PExchange s2 i2 er2 ∈ sy_pool y2 -> ticking r2 -> ce_CodeHash i2 = ce_CodeHash i ->
    (forall d3 sess2, exchange_finish s2 i2 f2 r2 er2 (sy_db y2) <> (d3, Ok sess2)) /\
    (forall sess, res = Ok sess -> redeems er2 -> is_Some (tb_codes (sy_db y2) !! ce_CodeHash i) ->
       exists d3, exchange_finish s2 i2 f2 r2 er2 (sy_db y2) = (d3, Err ErrGrantReplayed) /\
         DEAD (se_AuthorizationID sess) d3).
Proof.
  intros Hr Hin Hn Hne Hfin Hor Hr2 s2 i2 er2 f2 r2 Hin2 Hn2 Heq.
  destruct (reachable_flow _ Hr) as [prov Hfo]. pose proof (sys_reachable_ok _ _ Hr) as Hok.
  assert (Step y (ran y d1)) as Hst.
  { replace d1 with (exchange_finish s i f r er (sy_db y)).1 by by rewrite Hfin. by apply st_exchange_finish. }
  destruct (step_flow _ _ _ Hok Hfo Hst) as (p1 & _ & Hfo1 & HU1 & Hle1).
  pose proof (proj1 (step_ok _ _ _ Hok Hst)) as Hok1.
  pose proof (steps_flow _ _ _ Hok1 Hfo1 Hr2) as Hfs. destruct (steps_ok _ _ _ Hok1 Hr2) as [Hok2 _].
  destruct (burnt _ _ _ _ _ _ _ _ _ Hfo Hin Hfin Hn Hor) as (HU & Hburnt & Hgrant).
  assert (settled (ce_CodeHash i) (ran y d1)) as Hs1 by by split.
  pose proof (settled_later _ _ _ _ Hfs Hs1) as Hs2. destruct Hfs as (p2 & _ & Hfo2 & _ & Hle2). split.
  - intros d3 sess2. eapply settled_refused; [exact Hfo2|exact Hin2|by rewrite Heq].
  - intros sess Hres Hred [c2 Hc2]. destruct (fle_code _ _ _ Hle2 _ _ Hc2 HU) as (c1 & Hc1 & _ & _ & Hk).
    destruct (Hgrant sess Hres Hne) as (c1' & Hc1' & Ha). simpl in Hc1. rewrite Hc1 in Hc1'. injection Hc1' as <-.
    destruct (Hk (Hburnt _ Hc1)) as [E1 E2].
    eapply replay_ends; [exact Hok2|exact Hfo2|exact Hin2|done|done| |by rewrite Heq|by apply Hs2|by rewrite E2].
    subst res. apply exchange_Ok_inv in Hfin as (? & ? & ? & ? & ? & ? & _ & _ & ->). done.
Qed.
End Provenance.

(** ** A concrete run: from the owner's code to the grant and its replay *)

Module Run.
Import Demo.

Definition uri : string := "https://app.example/cb".
Definition client : ClientRow :=
  mkClientRow (Some "app"%string) [uri] "authorization_code" "code" "none" "{}" None None None 0 false false.
Definition registered : Sys := ran initial (AuthzTx 1000 (CreateOAuthClient "c1" client) empty_db).1.
Definition issued : Sys :=
  ran registered (IssueEnrollmentCode "laptop" [] [] (Ok Hour) "e1" "code digest" "local" (at_ms 1000) (sy_db registered)).1.
Definition context : contextPayload :=
  mkContextPayload "handle" "c1" uri "st" "challenge" "S256" "https://gm.example/mcp" [ScopeMessagesRead; ScopeMessagesWrite].
Definition submitted_read : SubmitRead :=
  submit_read redirect None context [ScopeMessagesRead] "code digest" "local" (at_ms 2000) (sy_db issued).
Definition submitting : Sys := chose issued (PSubmit context "local" submitted_read).
Definition submitted : Sys :=
  drew (ran submitting (submit_finish context "q1" "form" "local" (Ok Hour) (at_ms 3000) submitted_read (sy_db submitting)).1) "q1".
Definition approving_read := approve_read "q1" None (at_ms 4000) (sy_db submitted).
Definition approving : Sys := chose submitted (PApprove "q1" "local" approving_read).
Definition approved : Sys := ran approving (approve_finish "q1" "local" (at_ms 5000) approving_read (sy_db approving)).1.
Definition completing_read : CompleteRead := complete_read "q1" (at_ms 6000) (sy_db approved).
Definition completing : Sys := chose approved (PComplete completing_read).
Definition completed : Sys :=
  drew (ran completing (complete_finish "h1" (Ok Hour) (at_ms 7000) completing_read (sy_db completing)).1) "h1".

(** Two presentations of the code that both found it in order. *)
Definition exchange : CodeExchange :=
  mkCodeExchange "h1" "c1" "local" (Verify (fun v c => bool_decide (v = c)) "c1" uri "challenge" "https://gm.example/mcp").
Definition exchanging_read : ExchangeRead := exchange_read exchange ttls None (at_ms 8000) (sy_db completed).
Definition exchanging : Sys := chose completed (PExchange service exchange exchanging_read).
Definition exchanging2 : Sys := chose exchanging (PExchange service exchange exchanging_read).
Definition exchanged := exchange_finish service exchange (fresh "9") (at_ms 9000) exchanging_read (sy_db exchanging2).
Definition granted : Sys := ran exchanging2 exchanged.1.
Definition session : Session := match exchanged.2 with Ok sess => sess | Err _ => mkSession "" "" "" ∅ ∅ 0 0 false end.

Lemma pending_exchange : PExchange service exchange exchanging_read ∈ sy_pool exchanging2.
Proof. apply elem_of_cons. by left. Qed.

Ltac take mid := apply (rtc_l _ _ mid).

Lemma steps_exchanging : rtc (Step redirect) initial exchanging2.
Proof.
  take registered; [by apply (st_client redirect initial (at_ms 1000))|].
  take issued; [by apply (st_issue redirect registered); [apply ticks|]|].
  take submitting; [by apply (st_submit_read redirect issued)|].
  take submitted; [by apply (st_submit_finish redirect submitting); [apply elem_of_cons; left|apply ticks|set_solver]|].
  take approving; [by apply (st_approve_read redirect submitted)|].
  take approved; [by apply (st_approve_finish redirect approving); [apply elem_of_cons; left|apply ticks]|].
  take completing; [by apply (st_complete_read redirect approved)|].
  take completed; [by apply (st_complete_finish redirect completing); [apply elem_of_cons; left|apply ticks|set_solver]|].
  take exchanging; [by apply (st_exchange_read redirect completed)|].
  apply rtc_once. by apply (st_exchange_read redirect exchanging).
Qed.

Lemma steps_granted : rtc (Step redirect) exchanging2 granted.
Proof.
  apply rtc_once. apply (st_exchange_finish redirect exchanging2); [apply pending_exchange|by apply ticks|done].
Qed.
End Run.

(** The grant of the run goes back to the owner's code. *)
Lemma grant_provenance_witness :
  exists (prov : gmap string string) r er sc ceiling, tb_authorizations (sy_db Run.granted) !! "a9"%string = Some r /\
    prov !! "a9"%string = Some "e1"%string /\ tb_enrollments (sy_db Run.granted) !! "e1"%string = Some er /\
    has_scopes (ar_scopes r) sc /\ has_scopes (er_scopes er) ceiling /\ sc ⊆ ceiling.
Proof.
  destruct (grant_provenance Demo.redirect Run.exchanging2 Run.granted Run.steps_exchanging Run.steps_granted)
    as (_ & prov & _ & _ & _ & Hall).
  assert (exists r, tb_authorizations (sy_db Run.granted) !! "a9"%string = Some r /\ ar_kind r = AuthKindOAuth) as (r & Hr & Hk).
  { assert (ar_kind <$> tb_authorizations (sy_db Run.granted) !! "a9"%string = Some AuthKindOAuth) as E by by vm_compute.
    apply fmap_Some in E as (r & Hr & E). exists r. split; [exact Hr|exact (eq_sym E)]. }
  destruct (Hall "a9"%string r Hr Hk) as (e & er & sc & mi & ceiling & He & Her & _ & Hsc & _ & Hceil & Hsub & Hsub' & _).
  assert (e = "e1"%string) as ->.
  { assert (is_Some (tb_enrollments (sy_db Run.granted) !! e)) as Hin by (exists er; exact Her).
    apply elem_of_dom in Hin. assert (dom (tb_enrollments (sy_db Run.granted)) = {["e1"%string]}) as Hd by by vm_compute.
    rewrite Hd in Hin. by apply elem_of_singleton in Hin. }
  exists prov, r, er, sc, ceiling. do 5 (split; [assumption|]). by etransitivity.
Defined.

Lemma code_single_use_witness :
  se_AuthorizationID Run.session = "a9"%string /\
  exists d3, exchange_finish Demo.service Run.exchange (Demo.fresh "10") (Demo.at_ms 9500) Run.exchanging_read
      (sy_db Run.granted) = (d3, Err ErrGrantReplayed) /\ DEAD "a9" d3.
Proof.
  split; [by vm_compute|]. change "a9"%string with (se_AuthorizationID Run.session).
  apply (code_single_use Demo.redirect Run.exchanging2 Demo.service Run.exchange Run.exchanging_read (Demo.fresh "9")
    (Demo.at_ms 9000) Run.exchanged.1 (Ok Run.session) Run.granted Run.steps_exchanging Run.pending_exchange).
  - by vm_compute.
  - done.
  - by vm_compute.
  - left. by exists Run.session.
  - apply rtc_refl.
  - apply Run.pending_exchange.
  - by vm_compute.
  - reflexivity.
  - reflexivity.
  - by vm_compute.
  - apply is_Some_alt. by vm_compute.
Defined.
