(* ===== verification/Messages.v ===== *)
(** * Conversations, messages, attachments and reactions
      (internal/store/messages.go, contacts.go, attachments.go, reactions.go)

    The rows Google's events produce.  [DB] is the part of the database these
    files write: one [gmap] per table, keyed by primary key (the reactions table
    by its UNIQUE pair).  Every method of [*Store] is a function of the clock
    reading it takes and of the database; the error branch means the transaction
    was rolled back.  UNIQUE and REFERENCES constraints and the delivery trigger
    are part of the functions, as SQLite enforces them.  The theorems are about
    every database these methods can produce. *)

From S2P Require Import Prelude Delivery Ids GoStrings.
From stdpp Require Export pretty sorting.

(** ** The gm layer's values (internal/gm/types.go)

    A [time.Time] is [None] when it is the zero time, and otherwise its
    [UnixMilli] reading, the only thing these methods take from it. *)

Inductive Folder : Type := FolderUnknown | FolderInbox | FolderArchive | FolderSpamBlocked.
Inductive ConversationType : Type :=
  ConversationTypeUnknown | ConversationTypeSMSMMS | ConversationTypeRCS.
Inductive SendMode : Type := SendModeAuto | SendModeXMS | SendModeXMSLatch.

#[export] Instance Folder_eq_dec : EqDecision Folder.
Proof. solve_decision. Defined.
#[export] Instance ConversationType_eq_dec : EqDecision ConversationType.
Proof. solve_decision. Defined.
#[export] Instance SendMode_eq_dec : EqDecision SendMode.
Proof. solve_decision. Defined.

Definition Folder_string (f : Folder) : string :=
  match f with
  | FolderInbox => "active"
  | FolderArchive => "archived"
  | FolderSpamBlocked => "spam_blocked"
  | FolderUnknown => "unknown"
  end.

Record GmParticipant := mkGmParticipant {
  p_SourceID : string;
  p_ContactID : string;
  p_DisplayName : string;
  p_FirstName : string;
  p_PhoneE164 : string;
  p_FormattedNumber : string;
  p_IdentifierType : string;
  p_IsMe : bool;
  p_IsVisible : bool;
}.

Record GmConversation := mkGmConversation {
  c_SourceID : string;
  c_Name : string;
  c_IsGroup : bool;
  c_Type : ConversationType;
  c_SendModeRaw : SendMode;
  c_Folder : Folder;
  c_Unread : bool;
  c_Pinned : bool;
  c_ReadOnly : bool;
  c_Deleted : bool;
  c_DefaultOutgoingID : string;
  c_LatestMessageID : string;
  c_LastActivity : option Z;
  c_GroupAvatarURL : string;
  c_SIMPayload : string;
  c_Participants : list GmParticipant;
}.

Definition ForceRCSEligible (c : GmConversation) : bool :=
  bool_decide (c_Type c = ConversationTypeRCS) && bool_decide (c_SendModeRaw c = SendModeAuto).

Record GmAttachment := mkGmAttachment {
  a_PartIndex : Z;
  a_MediaID : string;
  a_ThumbnailMediaID : string;
  a_DecryptionKey : string;
  a_Filename : string;
  a_MimeType : string;
  a_MediaFormat : string;
  a_SizeBytes : Z;
  a_Width : Z;
  a_Height : Z;
}.

Record GmReaction := mkGmReaction {
  r_Emoji : option string;
  r_Type : string;
  r_ParticipantIDs : list string;
}.

Record GmMessage := mkGmMessage {
  m_SourceID : string;
  m_ConversationID : string;
  m_ParticipantID : string;
  m_Text : string;
  m_Subject : string;
  m_Timestamp : option Z;
  m_TmpID : string;
  m_StatusRaw : Z;
  m_Kind : MessageKind;
  m_DeliveryState : DeliveryState;
  m_ReplyToMessageID : string;
  m_Attachments : list GmAttachment;
  m_Reactions : list GmReaction;
}.

Record GmContact := mkGmContact {
  ct_src_SourceID : string;
  ct_src_DisplayName : string;
  ct_src_PhoneE164 : string;
  ct_src_IsTop : bool;
}.

(** ** Rows (migrations 0001 and 0002) *)

Record ContactRow := mkContactRow {
  ct_account_id : string;
  ct_source_id : string;
  ct_display_name : option string;
  ct_phone_e164 : option string;
  ct_avatar_hash : option string;
  ct_is_top : bool;
  ct_updated_at_ms : Z;
}.

Record ConversationRow := mkConversationRow {
  cv_account_id : string;
  cv_source_id : string;
  cv_name : option string;
  cv_is_group : bool;
  cv_conversation_type : ConversationType;
  cv_send_mode_raw : SendMode;
  cv_folder : string;
  cv_unread : bool;
  cv_pinned : bool;
  cv_read_only : bool;
  cv_force_rcs_eligible : bool;
  cv_default_outgoing_id : option string;
  cv_latest_message_id : option string;
  cv_last_activity_ms : Z;
  cv_group_avatar_url : option string;
  cv_sim_payload_json : option string;
  cv_deleted_at_ms : option Z;
  cv_created_at_ms : Z;
  cv_updated_at_ms : Z;
}.

Record ParticipantRow := mkParticipantRow {
  pt_account_id : string;
  pt_conversation_id : string;
  pt_source_id : string;
  pt_contact_id : option string;
  pt_display_name : option string;
  pt_first_name : option string;
  pt_phone_e164 : option string;
  pt_formatted_number : option string;
  pt_identifier_type : option string;
  pt_is_me : bool;
  pt_is_visible : bool;
}.

Record MessageRow := mkMessageRow {
  ms_account_id : string;
  ms_conversation_id : string;
  ms_source_id : string;
  ms_kind : MessageKind;
  ms_direction : Direction;
  ms_sender_participant : option string;
  ms_text : option string;
  ms_subject : option string;
  ms_delivery_state : DeliveryState;
  ms_delivery_state_raw : Z;
  ms_reply_to_message_id : option string;
  ms_operation_id : option string;
  ms_tmp_id : option string;
  ms_is_deleted : bool;
  ms_sent_at_ms : Z;
  ms_ingested_at_ms : Z;
  ms_updated_at_ms : Z;
  ms_content_hash : string;
}.

Record AttachmentRow := mkAttachmentRow {
  at_account_id : string;
  at_message_id : string;
  at_part_index : Z;
  at_media_id : option string;
  at_thumbnail_media_id : option string;
  at_decryption_key : option string;
  at_filename : option string;
  at_mime_type : option string;
  at_media_format : option string;
  at_size_bytes : option Z;
  at_width : option Z;
  at_height : option Z;
  at_download_state : string;
  at_sha256 : option string;
}.

Record ReactionRow := mkReactionRow {
  re_id : string;
  re_emoji : option string;
  re_emoji_type : string;
  re_is_mine : bool;
  re_updated_at_ms : Z;
}.

Record DB := mkDB {
  db_accounts : gset string;
  db_contacts : gmap string ContactRow;
  db_conversations : gmap string ConversationRow;
  db_participants : gmap string ParticipantRow;
  db_messages : gmap string MessageRow;
  db_attachments : gmap string AttachmentRow;
  db_reactions : gmap (string * string) ReactionRow;
}.

Definition set_contacts (t : gmap string ContactRow) (db : DB) : DB :=
  mkDB (db_accounts db) t (db_conversations db) (db_participants db) (db_messages db)
    (db_attachments db) (db_reactions db).
Definition set_conversations (t : gmap string ConversationRow) (db : DB) : DB :=
  mkDB (db_accounts db) (db_contacts db) t (db_participants db) (db_messages db)
    (db_attachments db) (db_reactions db).
Definition set_participants (t : gmap string ParticipantRow) (db : DB) : DB :=
  mkDB (db_accounts db) (db_contacts db) (db_conversations db) t (db_messages db)
    (db_attachments db) (db_reactions db).
Definition set_messages (t : gmap string MessageRow) (db : DB) : DB :=
  mkDB (db_accounts db) (db_contacts db) (db_conversations db) (db_participants db) t
    (db_attachments db) (db_reactions db).
Definition set_attachments (t : gmap string AttachmentRow) (db : DB) : DB :=
  mkDB (db_accounts db) (db_contacts db) (db_conversations db) (db_participants db)
    (db_messages db) t (db_reactions db).
Definition set_reactions (t : gmap (string * string) ReactionRow) (db : DB) : DB :=
  mkDB (db_accounts db) (db_contacts db) (db_conversations db) (db_participants db)
    (db_messages db) (db_attachments db) t.

(** ** Errors *)

Inductive StoreError : Type :=
| ErrUnique        (** a PRIMARY KEY or UNIQUE constraint failed *)
| ErrForeignKey    (** a REFERENCES constraint failed *)
| ErrTrigger       (** [messages_no_backward_delivery] aborted the statement *)
| ErrNotFound.     (** [sql.ErrNoRows] *)

(** A row other than [id]'s satisfies [P]: what a UNIQUE index looks for. *)
Definition taken {V} (P : V -> bool) (id : string) (t : gmap string V) : bool :=
  negb (bool_decide (rows_affected P (delete id t) = 0%nat)).

Definition require {E} (b : bool) (e : E) : Result E unit := if b then Ok tt else Err e.

(** [crypto/sha256], and [json.Marshal] of a [[]byte]. *)
Class Digest := {
  digest_sha256 :: SHA256;
  json_Marshal_bytes : string -> string;
}.

Section Store.
Context `{UUID} `{Digest}.

(** ** ContentHash *)

Definition NL : string := String (Ascii.ascii_of_nat 10) EmptyString.

Definition hash_media (a : GmAttachment) : string :=
  "media:" +:+ pretty (a_PartIndex a) +:+ ":" +:+ a_MediaID a +:+ ":" +:+
  pretty (a_SizeBytes a) +:+ NL.

Definition hash_reaction (r : GmReaction) : string :=
  "react:" +:+ r_Type r +:+ ":" +:+ default ""%string (r_Emoji r) +:+ ":" +:+
  String.concat "," (r_ParticipantIDs r) +:+ NL.

(** What is written to the hash. *)
Definition content (m : GmMessage) : string :=
  "text:" +:+ m_Text m +:+ NL +:+ "subject:" +:+ m_Subject m +:+ NL +:+
  String.concat "" (hash_media <$> m_Attachments m) +:+
  String.concat "" (hash_reaction <$> m_Reactions m).

Definition ContentHash (m : GmMessage) : string := sha256_hex (content m).

(** ** UpsertConversation *)

(** A [time.Time] written as milliseconds, the zero time as 0. *)
Definition ms_or_zero (t : option Z) : Z := default 0%Z t.

Definition sim_json (payload : string) : option string :=
  if decide (payload = ""%string) then None else Some (json_Marshal_bytes payload).

(** The row the [VALUES] clause describes, [excluded] in the conflict clause. *)
Definition conversation_values (now : Z) (accountID : string) (c : GmConversation)
    : ConversationRow := {|
  cv_account_id := accountID;
  cv_source_id := c_SourceID c;
  cv_name := nullString (c_Name c);
  cv_is_group := c_IsGroup c;
  cv_conversation_type := c_Type c;
  cv_send_mode_raw := c_SendModeRaw c;
  cv_folder := Folder_string (c_Folder c);
  cv_unread := c_Unread c;
  cv_pinned := c_Pinned c;
  cv_read_only := c_ReadOnly c;
  cv_force_rcs_eligible := ForceRCSEligible c;
  cv_default_outgoing_id := nullString (c_DefaultOutgoingID c);
  cv_latest_message_id := nullString (c_LatestMessageID c);
  cv_last_activity_ms := ms_or_zero (c_LastActivity c);
  cv_group_avatar_url := nullString (c_GroupAvatarURL c);
  cv_sim_payload_json := sim_json (c_SIMPayload c);
  cv_deleted_at_ms := if c_Deleted c then Some now else None;
  cv_created_at_ms := now;
  cv_updated_at_ms := now;
|}.

(** [ON CONFLICT(id) DO UPDATE SET ...]. *)
Definition conversation_conflict (old excluded : ConversationRow) : ConversationRow := {|
  cv_account_id := cv_account_id old;
  cv_source_id := cv_source_id old;
  cv_name := cv_name excluded;
  cv_is_group := cv_is_group excluded;
  cv_conversation_type := cv_conversation_type excluded;
  cv_send_mode_raw := cv_send_mode_raw excluded;
  cv_folder := cv_folder excluded;
  cv_unread := cv_unread excluded;
  cv_pinned := cv_pinned excluded;
  cv_read_only := cv_read_only excluded;
  cv_force_rcs_eligible := cv_force_rcs_eligible excluded;
  cv_default_outgoing_id :=
    coalesce (cv_default_outgoing_id excluded) (cv_default_outgoing_id old);
  cv_latest_message_id := coalesce (cv_latest_message_id excluded) (cv_latest_message_id old);
  cv_last_activity_ms := Z.max (cv_last_activity_ms old) (cv_last_activity_ms excluded);
  cv_group_avatar_url := cv_group_avatar_url excluded;
  cv_sim_payload_json := coalesce (cv_sim_payload_json excluded) (cv_sim_payload_json old);
  cv_deleted_at_ms := cv_deleted_at_ms excluded;
  cv_created_at_ms := cv_created_at_ms old;
  cv_updated_at_ms := cv_updated_at_ms excluded;
|}.

Definition write_conversation (now : Z) (accountID : string) (c : GmConversation) (db : DB)
    : Result StoreError DB :=
  let id := ConversationID accountID (c_SourceID c) in
  let v := conversation_values now accountID c in
  match db_conversations db !! id with
  | Some old =>
      Ok (set_conversations (<[id := conversation_conflict old v]> (db_conversations db)) db)
  | None =>
      _ ← require (negb (taken (fun r => bool_decide (cv_account_id r = accountID) &&
                       bool_decide (cv_source_id r = c_SourceID c)) id (db_conversations db)))
            ErrUnique;
      _ ← require (bool_decide (accountID ∈ db_accounts db)) ErrForeignKey;
      Ok (set_conversations (<[id := v]> (db_conversations db)) db)
  end.

Definition participant_row (accountID conversationID : string) (p : GmParticipant)
    : ParticipantRow := {|
  pt_account_id := accountID;
  pt_conversation_id := conversationID;
  pt_source_id := p_SourceID p;
  pt_contact_id := None;
  pt_display_name := nullString (p_DisplayName p);
  pt_first_name := nullString (p_FirstName p);
  pt_phone_e164 := nullString (p_PhoneE164 p);
  pt_formatted_number := nullString (p_FormattedNumber p);
  pt_identifier_type := nullString (p_IdentifierType p);
  pt_is_me := p_IsMe p;
  pt_is_visible := p_IsVisible p;
|}.

(** The loop of plain [INSERT]s: any conflict fails the transaction. *)
Fixpoint insert_participants (accountID conversationID : string) (ps : list GmParticipant)
    (t : gmap string ParticipantRow) : Result StoreError (gmap string ParticipantRow) :=
  match ps with
  | [] => Ok t
  | p :: ps' =>
      let id := ParticipantID conversationID (p_SourceID p) in
      match t !! id with
      | Some _ => Err ErrUnique
      | None =>
          _ ← require (negb (taken (fun r => bool_decide (pt_conversation_id r = conversationID) &&
                        bool_decide (pt_source_id r = p_SourceID p)) id t)) ErrUnique;
          insert_participants accountID conversationID ps'
            (<[id := participant_row accountID conversationID p]> t)
      end
  end.

(** [(SELECT c.id FROM contacts c WHERE c.account_id = a AND c.source_id = s)]:
    at most one row, by the UNIQUE constraint of contacts. *)
Definition contact_of (accountID sourceID : string) (t : gmap string ContactRow) : option string :=
  fst <$> head (map_to_list (filter (fun kv : string * ContactRow =>
    ct_account_id kv.2 = accountID /\ ct_source_id kv.2 = sourceID) t)).

Definition with_contact (c : option string) (r : ParticipantRow) : ParticipantRow := {|
  pt_account_id := pt_account_id r; pt_conversation_id := pt_conversation_id r;
  pt_source_id := pt_source_id r; pt_contact_id := c;
  pt_display_name := pt_display_name r; pt_first_name := pt_first_name r;
  pt_phone_e164 := pt_phone_e164 r; pt_formatted_number := pt_formatted_number r;
  pt_identifier_type := pt_identifier_type r; pt_is_me := pt_is_me r;
  pt_is_visible := pt_is_visible r;
|}.

Definition linkParticipantContacts (accountID conversationID : string) (db : DB) : DB :=
  set_participants
    (update_where (fun r => bool_decide (pt_conversation_id r = conversationID))
       (fun r => with_contact (contact_of accountID (pt_source_id r) (db_contacts db)) r)
       (db_participants db)) db.

Definition RelinkAccountContacts (accountID : string) (db : DB) : DB :=
  set_participants
    (update_where (fun r => bool_decide (pt_account_id r = accountID))
       (fun r => with_contact (contact_of (pt_account_id r) (pt_source_id r) (db_contacts db)) r)
       (db_participants db)) db.

(** The delete, the inserts and the linking pass, in one transaction. *)
Definition UpsertParticipants (accountID conversationID : string) (ps : list GmParticipant)
    (db : DB) : Result StoreError DB :=
  t ← insert_participants accountID conversationID ps
        (delete_where (fun r => bool_decide (pt_conversation_id r = conversationID))
           (db_participants db));
  _ ← require (match ps with
               | [] => true
               | _ => bool_decide (accountID ∈ db_accounts db) &&
                      bool_decide (is_Some (db_conversations db !! conversationID))
               end) ErrForeignKey;
  Ok (linkParticipantContacts accountID conversationID (set_participants t db)).

Definition UpsertConversation (now : Z) (accountID : string) (c : GmConversation) (db : DB)
    : Result StoreError (DB * string) :=
  let id := ConversationID accountID (c_SourceID c) in
  db1 ← write_conversation now accountID c db;
  match c_Participants c with
  | [] => Ok (db1, id)
  | ps => db2 ← UpsertParticipants accountID id ps db1; Ok (db2, id)
  end.

Definition UpsertContact (now : Z) (accountID : string) (c : GmContact) (avatarHash : string)
    (db : DB) : Result StoreError (DB * string) :=
  let id := ContactID accountID (ct_src_SourceID c) in
  let v := mkContactRow accountID (ct_src_SourceID c) (nullString (ct_src_DisplayName c))
             (nullString (ct_src_PhoneE164 c)) (nullString avatarHash) (ct_src_IsTop c) now in
  match db_contacts db !! id with
  | Some old =>
      Ok (set_contacts (<[id := mkContactRow (ct_account_id old) (ct_source_id old)
            (ct_display_name v) (ct_phone_e164 v)
            (coalesce (ct_avatar_hash v) (ct_avatar_hash old)) (ct_is_top v) now]>
            (db_contacts db)) db, id)
  | None =>
      _ ← require (negb (taken (fun r => bool_decide (ct_account_id r = accountID) &&
                    bool_decide (ct_source_id r = ct_src_SourceID c)) id (db_contacts db)))
            ErrUnique;
      _ ← require (bool_decide (accountID ∈ db_accounts db)) ErrForeignKey;
      Ok (set_contacts (<[id := v]> (db_contacts db)) db, id)
  end.

(** ** UpsertMessage *)

Record UpsertMessageResult := mkUpsertMessageResult {
  res_ID : string;
  res_Inserted : bool;
  res_Updated : bool;
  res_TransitionRefused : bool;
  res_PreviousState : option DeliveryState;  (** [None] is the empty string *)
}.

Definition sender_of (accountID convSourceID : string) (m : GmMessage) : string :=
  if decide (m_ParticipantID m <> ""%string)
  then ParticipantID (ConversationID accountID convSourceID) (m_ParticipantID m)
  else ""%string.

Definition message_values (now : Z) (accountID convSourceID : string) (m : GmMessage)
    : MessageRow := {|
  ms_account_id := accountID;
  ms_conversation_id := ConversationID accountID convSourceID;
  ms_source_id := m_SourceID m;
  ms_kind := m_Kind m;
  ms_direction := MessageDirection (m_StatusRaw m);
  ms_sender_participant := nullString (sender_of accountID convSourceID m);
  ms_text := nullString (m_Text m);
  ms_subject := nullString (m_Subject m);
  ms_delivery_state := m_DeliveryState m;
  ms_delivery_state_raw := m_StatusRaw m;
  ms_reply_to_message_id := nullString (m_ReplyToMessageID m);
  ms_operation_id := None;
  ms_tmp_id := nullString (m_TmpID m);
  ms_is_deleted := bool_decide (m_DeliveryState m = DeliveryStateDeleted);
  ms_sent_at_ms := ms_or_zero (m_Timestamp m);
  ms_ingested_at_ms := now;
  ms_updated_at_ms := now;
  ms_content_hash := ContentHash m;
|}.

(** The new state, and whether the move was refused. *)
Definition new_state (old : MessageRow) (m : GmMessage) : DeliveryState * bool :=
  if bool_decide (ms_direction old = DirectionOutgoing) &&
     negb (TransitionAllowed (ms_delivery_state old) (m_DeliveryState m))
  then (ms_delivery_state old, true)
  else (m_DeliveryState m, false).

Definition message_update (now : Z) (accountID convSourceID : string) (m : GmMessage)
    (old : MessageRow) : MessageRow :=
  let newState := (new_state old m).1 in {|
  ms_account_id := ms_account_id old;
  ms_conversation_id := ms_conversation_id old;
  ms_source_id := ms_source_id old;
  ms_kind := m_Kind m;
  ms_direction := ms_direction old;
  ms_sender_participant :=
    coalesce (nullString (sender_of accountID convSourceID m)) (ms_sender_participant old);
  ms_text := nullString (m_Text m);
  ms_subject := nullString (m_Subject m);
  ms_delivery_state := newState;
  ms_delivery_state_raw := m_StatusRaw m;
  ms_reply_to_message_id :=
    coalesce (nullString (m_ReplyToMessageID m)) (ms_reply_to_message_id old);
  ms_operation_id := ms_operation_id old;
  ms_tmp_id := coalesce (nullString (m_TmpID m)) (ms_tmp_id old);
  ms_is_deleted := bool_decide (newState = DeliveryStateDeleted);
  ms_sent_at_ms := ms_sent_at_ms old;
  ms_ingested_at_ms := ms_ingested_at_ms old;
  ms_updated_at_ms := now;
  ms_content_hash := ContentHash m;
|}.

(** An [UPDATE messages] that sets [delivery_state], under the trigger. *)
Definition update_message_row (id : string) (old new : MessageRow) (db : DB)
    : Result StoreError DB :=
  if messages_no_backward_delivery (ms_direction old) (ms_delivery_state old)
       (ms_delivery_state new)
  then Err ErrTrigger
  else Ok (set_messages (<[id := new]> (db_messages db)) db).

Definition UpsertMessage (now : Z) (accountID convSourceID : string) (m : GmMessage) (db : DB)
    : Result StoreError (DB * UpsertMessageResult) :=
  let convID := ConversationID accountID convSourceID in
  let id := MessageID accountID convSourceID (m_SourceID m) in
  match db_messages db !! id with
  | None =>
      _ ← require (negb (taken (fun r => bool_decide (ms_conversation_id r = convID) &&
                    bool_decide (ms_source_id r = m_SourceID m)) id (db_messages db))) ErrUnique;
      _ ← require (bool_decide (accountID ∈ db_accounts db) &&
                   bool_decide (is_Some (db_conversations db !! convID))) ErrForeignKey;
      Ok (set_messages (<[id := message_values now accountID convSourceID m]> (db_messages db)) db,
          mkUpsertMessageResult id true false false None)
  | Some old =>
      if bool_decide (ms_content_hash old = ContentHash m) &&
         bool_decide (ms_delivery_state_raw old = m_StatusRaw m)
      then Ok (db, mkUpsertMessageResult id false false false (Some (ms_delivery_state old)))
      else
        db' ← update_message_row id old (message_update now accountID convSourceID m old) db;
        Ok (db', mkUpsertMessageResult id false true (new_state old m).2
                   (Some (ms_delivery_state old)))
  end.

(** ** LinkMessageOperation and BumpConversationActivity *)

Definition with_operation (op : string) (r : MessageRow) : MessageRow := {|
  ms_account_id := ms_account_id r; ms_conversation_id := ms_conversation_id r;
  ms_source_id := ms_source_id r; ms_kind := ms_kind r; ms_direction := ms_direction r;
  ms_sender_participant := ms_sender_participant r; ms_text := ms_text r;
  ms_subject := ms_subject r; ms_delivery_state := ms_delivery_state r;
  ms_delivery_state_raw := ms_delivery_state_raw r;
  ms_reply_to_message_id := ms_reply_to_message_id r;
  ms_operation_id := Some op;
  ms_tmp_id := ms_tmp_id r; ms_is_deleted := ms_is_deleted r; ms_sent_at_ms := ms_sent_at_ms r;
  ms_ingested_at_ms := ms_ingested_at_ms r; ms_updated_at_ms := ms_updated_at_ms r;
  ms_content_hash := ms_content_hash r;
|}.

Definition LinkMessageOperation (messageID operationID : string) (db : DB) : DB :=
  if bool_decide (messageID = ""%string) || bool_decide (operationID = ""%string) then db
  else match db_messages db !! messageID with
       | Some r =>
           match ms_operation_id r with
           | None => set_messages (<[messageID := with_operation operationID r]> (db_messages db)) db
           | Some _ => db
           end
       | None => db
       end.

Definition with_activity (now : Z) (latestMessageID : string) (activityMS : Z)
    (r : ConversationRow) : ConversationRow := {|
  cv_account_id := cv_account_id r; cv_source_id := cv_source_id r; cv_name := cv_name r;
  cv_is_group := cv_is_group r; cv_conversation_type := cv_conversation_type r;
  cv_send_mode_raw := cv_send_mode_raw r; cv_folder := cv_folder r; cv_unread := cv_unread r;
  cv_pinned := cv_pinned r; cv_read_only := cv_read_only r;
  cv_force_rcs_eligible := cv_force_rcs_eligible r;
  cv_default_outgoing_id := cv_default_outgoing_id r;
  cv_latest_message_id :=
    if (cv_last_activity_ms r <? activityMS)%Z then nullString latestMessageID
    else cv_latest_message_id r;
  cv_last_activity_ms := Z.max (cv_last_activity_ms r) activityMS;
  cv_group_avatar_url := cv_group_avatar_url r; cv_sim_payload_json := cv_sim_payload_json r;
  cv_deleted_at_ms := cv_deleted_at_ms r; cv_created_at_ms := cv_created_at_ms r;
  cv_updated_at_ms := now;
|}.

Definition BumpConversationActivity (now : Z) (conversationID latestMessageID : string)
    (activityMS : Z) (db : DB) : DB :=
  match db_conversations db !! conversationID with
  | Some r =>
      set_conversations
        (<[conversationID := with_activity now latestMessageID activityMS r]>
           (db_conversations db)) db
  | None => db
  end.

(** ** Attachments *)

Definition DownloadStateAvailable : string := "available".
Definition DownloadStatePending : string := "pending".
Definition DownloadStateFailed : string := "failed".
Definition DownloadStateUnavailable : string := "unavailable".

Definition DownloadStateForMessage (mediaID thumbnailMediaID : string)
    (deliveryState : option DeliveryState) : string :=
  if decide (deliveryState = Some DeliveryStateDownloadFailed) then DownloadStateFailed
  else if decide (mediaID <> ""%string) then DownloadStateAvailable
  else if decide (thumbnailMediaID <> ""%string) then DownloadStatePending
  else DownloadStateUnavailable.

Definition DownloadStateFor (mediaID thumbnailMediaID : string) : string :=
  DownloadStateForMessage mediaID thumbnailMediaID None.

(** [nullBlob]: a blob is a byte string here. *)
Definition nullBlob (b : string) : option string := nullString b.

Definition attachment_values (accountID messageID : string) (a : GmAttachment)
    (sealedKey downloadState : string) : AttachmentRow := {|
  at_account_id := accountID;
  at_message_id := messageID;
  at_part_index := a_PartIndex a;
  at_media_id := nullString (a_MediaID a);
  at_thumbnail_media_id := nullString (a_ThumbnailMediaID a);
  at_decryption_key := nullBlob sealedKey;
  at_filename := nullString (a_Filename a);
  at_mime_type := nullString (a_MimeType a);
  at_media_format := nullString (a_MediaFormat a);
  at_size_bytes := nullInt (a_SizeBytes a);
  at_width := nullInt (a_Width a);
  at_height := nullInt (a_Height a);
  at_download_state :=
    if decide (downloadState = ""%string) then DownloadStatePending else downloadState;
  at_sha256 := None;
|}.

Definition attachment_conflict (old excluded : AttachmentRow) : AttachmentRow := {|
  at_account_id := at_account_id old;
  at_message_id := at_message_id old;
  at_part_index := at_part_index old;
  at_media_id := at_media_id excluded;
  at_thumbnail_media_id := at_thumbnail_media_id excluded;
  at_decryption_key := coalesce (at_decryption_key excluded) (at_decryption_key old);
  at_filename := at_filename excluded;
  at_mime_type := at_mime_type excluded;
  at_media_format := at_media_format excluded;
  at_size_bytes := coalesce (at_size_bytes excluded) (at_size_bytes old);
  at_width := at_width excluded;
  at_height := at_height excluded;
  at_download_state := at_download_state excluded;
  at_sha256 := at_sha256 old;
|}.

Definition same_part (messageID : string) (partIndex : Z) (r : AttachmentRow) : bool :=
  bool_decide (at_message_id r = messageID) && bool_decide (at_part_index r = partIndex).

Definition UpsertAttachment (accountID messageID : string) (a : GmAttachment)
    (sealedKey downloadState : string) (db : DB) : Result StoreError (DB * string) :=
  let id := AttachmentID messageID (pretty (a_PartIndex a)) (a_MediaID a) in
  let v := attachment_values accountID messageID a sealedKey downloadState in
  match db_attachments db !! id with
  | Some old =>
      Ok (set_attachments (<[id := attachment_conflict old v]> (db_attachments db)) db, id)
  | None =>
      _ ← require (negb (taken (same_part messageID (a_PartIndex a)) id (db_attachments db)))
            ErrUnique;
      _ ← require (bool_decide (accountID ∈ db_accounts db) &&
                   bool_decide (is_Some (db_messages db !! messageID))) ErrForeignKey;
      Ok (set_attachments (<[id := v]> (db_attachments db)) db, id)
  end.

Definition with_size (s : Z) (r : AttachmentRow) : AttachmentRow := {|
  at_account_id := at_account_id r; at_message_id := at_message_id r;
  at_part_index := at_part_index r; at_media_id := at_media_id r;
  at_thumbnail_media_id := at_thumbnail_media_id r; at_decryption_key := at_decryption_key r;
  at_filename := at_filename r; at_mime_type := at_mime_type r;
  at_media_format := at_media_format r; at_size_bytes := Some s; at_width := at_width r;
  at_height := at_height r; at_download_state := at_download_state r; at_sha256 := at_sha256 r;
|}.

Definition lacks_size (messageID : string) (r : AttachmentRow) : bool :=
  bool_decide (at_message_id r = messageID) &&
  (bool_decide (at_size_bytes r = None) || bool_decide (at_size_bytes r = Some 0%Z)).

Definition FillMissingAttachmentSize (messageID : string) (size : Z) (db : DB) : DB :=
  if (size <=? 0)%Z then db
  else set_attachments (update_where (lacks_size messageID) (with_size size)
                          (db_attachments db)) db.

Definition with_download (state sha256hex : string) (r : AttachmentRow) : AttachmentRow := {|
  at_account_id := at_account_id r; at_message_id := at_message_id r;
  at_part_index := at_part_index r; at_media_id := at_media_id r;
  at_thumbnail_media_id := at_thumbnail_media_id r; at_decryption_key := at_decryption_key r;
  at_filename := at_filename r; at_mime_type := at_mime_type r;
  at_media_format := at_media_format r; at_size_bytes := at_size_bytes r;
  at_width := at_width r; at_height := at_height r;
  at_download_state := state; at_sha256 := coalesce (nullString sha256hex) (at_sha256 r);
|}.

Definition SetAttachmentDownloadState (attachmentID state sha256hex : string) (db : DB) : DB :=
  match db_attachments db !! attachmentID with
  | Some r =>
      set_attachments (<[attachmentID := with_download state sha256hex r]> (db_attachments db)) db
  | None => db
  end.

(** ** Reactions *)

(** The rows of one message's set, in the order they are written. *)
Record ReactionEntry := mkReactionEntry { en_source : string; en_reaction : GmReaction }.

Definition entries (rs : list GmReaction) : list ReactionEntry :=
  rs ≫= fun r => (fun s => mkReactionEntry s r) <$> r_ParticipantIDs r.

Definition reaction_pid (conversationID sourceID : string) : string :=
  if decide (conversationID <> ""%string) then ParticipantID conversationID sourceID else sourceID.

Definition canonical_emoji (r : GmReaction) : string := default (r_Type r) (r_Emoji r).

Definition reaction_values (now : Z) (conversationID messageID myParticipantID : string)
    (e : ReactionEntry) : ReactionRow :=
  let pid := reaction_pid conversationID (en_source e) in {|
  re_id := ReactionID messageID pid (canonical_emoji (en_reaction e));
  re_emoji := r_Emoji (en_reaction e);
  re_emoji_type := r_Type (en_reaction e);
  re_is_mine := bool_decide (myParticipantID <> ""%string) &&
                bool_decide (en_source e = myParticipantID);
  re_updated_at_ms := now;
|}.

(** One [INSERT ... ON CONFLICT(message_id, participant_id) DO UPDATE], which
    writes every column of the new row; the primary key must stay unique. *)
Definition insert_reaction (now : Z) (conversationID messageID myParticipantID : string)
    (e : ReactionEntry) (t : gmap (string * string) ReactionRow)
    : Result StoreError (gmap (string * string) ReactionRow) :=
  let key := (messageID, reaction_pid conversationID (en_source e)) in
  let v := reaction_values now conversationID messageID myParticipantID e in
  _ ← require (bool_decide (rows_affected (fun r => bool_decide (re_id r = re_id v))
                 (delete key t) = 0%nat)) ErrUnique;
  Ok (<[key := v]> t).

Fixpoint insert_reactions (now : Z) (conversationID messageID myParticipantID : string)
    (es : list ReactionEntry) (t : gmap (string * string) ReactionRow)
    : Result StoreError (gmap (string * string) ReactionRow) :=
  match es with
  | [] => Ok t
  | e :: es' =>
      t' ← insert_reaction now conversationID messageID myParticipantID e t;
      insert_reactions now conversationID messageID myParticipantID es' t'
  end.

Definition delete_reactions (messageID : string) (t : gmap (string * string) ReactionRow)
    : gmap (string * string) ReactionRow :=
  filter (fun kv : (string * string) * ReactionRow => kv.1.1 <> messageID) t.

Definition ReplaceReactions (now : Z) (conversationID messageID myParticipantID : string)
    (rs : list GmReaction) (db : DB) : Result StoreError DB :=
  t ← insert_reactions now conversationID messageID myParticipantID (entries rs)
        (delete_reactions messageID (db_reactions db));
  _ ← require (match entries rs with
               | [] => true
               | _ => bool_decide (is_Some (db_messages db !! messageID))
               end) ErrForeignKey;
  Ok (set_reactions t db).

(** ** Listings *)

Record ConversationFilter := mkConversationFilter {
  cf_AccountID : string; cf_Folder : string; cf_Limit : nat;
}.

Definition conversation_selected (f : ConversationFilter) (x : string * ConversationRow) : bool :=
  bool_decide (cv_deleted_at_ms x.2 = None) &&
  (bool_decide (cf_AccountID f = ""%string) || bool_decide (cv_account_id x.2 = cf_AccountID f)) &&
  (bool_decide (cf_Folder f = ""%string) || bool_decide (cv_folder x.2 = cf_Folder f)).

Definition Conversations (f : ConversationFilter) (db : DB) : list (string * ConversationRow) :=
  listing cv_last_activity_ms (conversation_selected f) (cf_Limit f) (db_conversations db).

Record MessageFilter := mkMessageFilter {
  mf_AccountID : string; mf_AllAccounts : bool; mf_ConversationID : string;
  mf_IncludeSystem : bool; mf_Limit : nat;
}.

Definition message_selected (f : MessageFilter) (x : string * MessageRow) : bool :=
  (bool_decide (mf_AccountID f = ""%string) || bool_decide (ms_account_id x.2 = mf_AccountID f)) &&
  (bool_decide (mf_ConversationID f = ""%string) ||
     bool_decide (ms_conversation_id x.2 = mf_ConversationID f)) &&
  (mf_IncludeSystem f || negb (bool_decide (ms_kind x.2 = MessageKindSystem))).

(** [None] is the error that refuses a query without any account predicate. *)
Definition Messages (f : MessageFilter) (db : DB) : option (list (string * MessageRow)) :=
  if bool_decide (mf_AccountID f = ""%string) && bool_decide (mf_ConversationID f = ""%string) &&
     negb (mf_AllAccounts f)
  then None
  else Some (listing ms_sent_at_ms (message_selected f) (mf_Limit f) (db_messages db)).

(** [MessageByTmpID]: the first row of the account with this tmp ID. *)
Definition MessageByTmpID (accountID tmpID : string) (db : DB) : Result StoreError MessageRow :=
  match select_where (fun r => bool_decide (ms_account_id r = accountID) &&
          bool_decide (ms_tmp_id r = Some tmpID)) (db_messages db) with
  | r :: _ => Ok r
  | [] => Err ErrNotFound
  end.
End Store.

(** The participant IDs a set-replace stores hold no NUL byte: they are derived from
    the conversation, or, when no conversation is given, already derived IDs. *)
Definition clean_entries `{UUID} (conv : string) (es : list ReactionEntry) : Prop :=
  Forall (fun e => nul_free (reaction_pid conv (en_source e)) = true) es.

(** ** Histories

    One step is one successful method call.  The IDs Google hands over and the
    account IDs hold no NUL byte. *)
Section Histories.
Context `{UUID} `{Digest}.

Inductive MsgStep (db : DB) : DB -> Prop :=
| step_account a :
    nul_free a = true ->
    MsgStep db (mkDB ({[a]} ∪ db_accounts db) (db_contacts db) (db_conversations db)
      (db_participants db) (db_messages db) (db_attachments db) (db_reactions db))
| step_conversation now a c db' id :
    nul_free a = true -> nul_free (c_SourceID c) = true ->
    UpsertConversation now a c db = Ok (db', id) -> MsgStep db db'
| step_contact now a c h db' id :
    nul_free a = true -> nul_free (ct_src_SourceID c) = true ->
    UpsertContact now a c h db = Ok (db', id) -> MsgStep db db'
| step_participants a conv ps db' :
    UpsertParticipants a conv ps db = Ok db' -> MsgStep db db'
| step_relink a : MsgStep db (RelinkAccountContacts a db)
| step_message now a cs m db' res :
    nul_free a = true -> nul_free cs = true -> nul_free (m_SourceID m) = true ->
    UpsertMessage now a cs m db = Ok (db', res) -> MsgStep db db'
| step_link msg op : MsgStep db (LinkMessageOperation msg op db)
| step_bump now conv latest activity :
    MsgStep db (BumpConversationActivity now conv latest activity db)
| step_attachment a msg att key state db' id :
    nul_free msg = true -> UpsertAttachment a msg att key state db = Ok (db', id) -> MsgStep db db'
| step_fill msg size : MsgStep db (FillMissingAttachmentSize msg size db)
| step_download att state sha : MsgStep db (SetAttachmentDownloadState att state sha db)
| step_reactions now conv msg me rs db' :
    clean_entries conv (entries rs) ->
    ReplaceReactions now conv msg me rs db = Ok db' -> MsgStep db db'.

Definition empty_db : DB := mkDB ∅ ∅ ∅ ∅ ∅ ∅ ∅.

(** ** The invariant: keys, references, uniqueness *)

Definition conv_row_ok (db : DB) (id : string) (r : ConversationRow) : Prop :=
  id = ConversationID (cv_account_id r) (cv_source_id r) /\
  nul_free (cv_account_id r) = true /\ nul_free (cv_source_id r) = true /\
  cv_account_id r ∈ db_accounts db.

Definition contact_row_ok (id : string) (r : ContactRow) : Prop :=
  id = ContactID (ct_account_id r) (ct_source_id r) /\
  nul_free (ct_account_id r) = true /\ nul_free (ct_source_id r) = true.

Definition part_row_ok (db : DB) (id : string) (r : ParticipantRow) : Prop :=
  id = ParticipantID (pt_conversation_id r) (pt_source_id r) /\
  is_Some (db_conversations db !! pt_conversation_id r).

Definition msg_row_ok (db : DB) (id : string) (r : MessageRow) : Prop :=
  (exists cs, ms_conversation_id r = ConversationID (ms_account_id r) cs /\
     id = MessageID (ms_account_id r) cs (ms_source_id r) /\
     nul_free (ms_account_id r) = true /\ nul_free cs = true /\
     nul_free (ms_source_id r) = true) /\
  is_Some (db_conversations db !! ms_conversation_id r) /\
  ms_is_deleted r = bool_decide (ms_delivery_state r = DeliveryStateDeleted).

Definition att_row_ok (db : DB) (id : string) (r : AttachmentRow) : Prop :=
  id = AttachmentID (at_message_id r) (pretty (at_part_index r)) (scanString (at_media_id r)) /\
  at_media_id r = nullString (scanString (at_media_id r)) /\
  is_Some (db_messages db !! at_message_id r).

Definition re_row_ok (db : DB) (k : string * string) (r : ReactionRow) : Prop :=
  is_Some (db_messages db !! k.1) /\ nul_free k.2 = true /\
  re_id r = ReactionID k.1 k.2 (default (re_emoji_type r) (re_emoji r)).

Record db_ok (db : DB) : Prop := {
  ok_conv id r : db_conversations db !! id = Some r -> conv_row_ok db id r;
  ok_contact id r : db_contacts db !! id = Some r -> contact_row_ok id r;
  ok_part id r : db_participants db !! id = Some r -> part_row_ok db id r;
  ok_msg id r : db_messages db !! id = Some r -> msg_row_ok db id r;
  ok_att id r : db_attachments db !! id = Some r -> att_row_ok db id r;
  ok_att_unique i1 i2 r1 r2 :
    db_attachments db !! i1 = Some r1 -> db_attachments db !! i2 = Some r2 ->
    at_message_id r1 = at_message_id r2 -> at_part_index r1 = at_part_index r2 -> i1 = i2;
  ok_re k r : db_reactions db !! k = Some r -> re_row_ok db k r;
}.

(** ** The order of histories: what no method ever undoes *)

Definition conv_le (r r' : ConversationRow) : Prop :=
  cv_account_id r' = cv_account_id r /\ cv_source_id r' = cv_source_id r /\
  cv_created_at_ms r' = cv_created_at_ms r /\
  (cv_last_activity_ms r <= cv_last_activity_ms r')%Z.

Definition msg_le (r r' : MessageRow) : Prop :=
  ms_account_id r' = ms_account_id r /\ ms_conversation_id r' = ms_conversation_id r /\
  ms_source_id r' = ms_source_id r /\ ms_direction r' = ms_direction r /\
  ms_sent_at_ms r' = ms_sent_at_ms r /\ ms_ingested_at_ms r' = ms_ingested_at_ms r /\
  (ms_direction r = DirectionOutgoing -> delivery_le (ms_delivery_state r) (ms_delivery_state r')) /\
  (forall op, ms_operation_id r = Some op -> ms_operation_id r' = Some op) /\
  (is_Some (ms_sender_participant r) -> is_Some (ms_sender_participant r')) /\
  (is_Some (ms_tmp_id r) -> is_Some (ms_tmp_id r')).

(** A size is known when it is neither NULL nor 0. *)
Definition size_known (r : AttachmentRow) : Prop :=
  at_size_bytes r <> None /\ at_size_bytes r <> Some 0%Z.

Definition att_le (r r' : AttachmentRow) : Prop :=
  at_account_id r' = at_account_id r /\ at_message_id r' = at_message_id r /\
  at_part_index r' = at_part_index r /\ at_media_id r' = at_media_id r /\
  (size_known r -> size_known r') /\
  (is_Some (at_decryption_key r) -> is_Some (at_decryption_key r')) /\
  (is_Some (at_sha256 r) -> is_Some (at_sha256 r')).

(** Rows are kept and move along [R]. *)
Definition table_le {K V} `{Countable K} (R : relation V) (t t' : gmap K V) : Prop :=
  forall k r, t !! k = Some r -> exists r', t' !! k = Some r' /\ R r r'.

Record db_le (db db' : DB) : Prop := {
  le_accounts : db_accounts db ⊆ db_accounts db';
  le_conv : table_le conv_le (db_conversations db) (db_conversations db');
  le_msg : table_le msg_le (db_messages db) (db_messages db');
  le_att : table_le att_le (db_attachments db) (db_attachments db');
}.

(** ** Lemmas *)

Lemma require_true {E} b (e : E) u : require b e = Ok u <-> b = true.
Proof. unfold require. destruct b, u; naive_solver. Qed.

Lemma taken_true {V} (P : V -> bool) id t :
  taken P id t = true <-> exists id' r, id' <> id /\ t !! id' = Some r /\ P r = true.
Proof.
  unfold taken. rewrite negb_true_iff, bool_decide_eq_false.
  assert (rows_affected P (delete id t) = 0%nat <-> select_where P (delete id t) = []) as ->.
  { unfold rows_affected. rewrite length_zero_iff_nil. done. }
  split.
  - intros Hn. destruct (select_where P (delete id t)) as [|r l] eqn:E; [done|].
    assert (r ∈ select_where P (delete id t)) as (k & Hk & HP)%elem_of_select_where
      by (rewrite E; apply elem_of_cons; auto).
    apply lookup_delete_Some in Hk. naive_solver.
  - intros (k & r & Hne & Hk & HP) Hnil. rewrite select_where_nil in Hnil.
    rewrite (Hnil k r) in HP; [done|]. by rewrite lookup_delete_ne.
Qed.

Lemma taken_false {V} (P : V -> bool) id t :
  taken P id t = false <-> forall id' r, t !! id' = Some r -> P r = true -> id' = id.
Proof.
  rewrite <- not_true_iff_false, taken_true. split.
  - intros Hn id' r Hr HP. destruct (decide (id' = id)); [done|]. exfalso. eauto 6.
  - intros Hall (id' & r & Hne & Hr & HP). eauto.
Qed.

Section TableLe.
Context {K V : Type} `{Countable K} (R : relation V) `{!Reflexive R}.

Lemma table_le_insert (t : gmap K V) k v :
  (forall r, t !! k = Some r -> R r v) -> table_le R t (<[k:=v]> t).
Proof.
  intros HR k' r Hr. destruct (decide (k = k')) as [<-|Hne].
  - exists v. rewrite lookup_insert_eq. auto.
  - exists r. by rewrite lookup_insert_ne.
Qed.

Lemma table_le_update (t : gmap K V) P f :
  (forall r, P r = true -> R r (f r)) -> table_le R t (update_where P f t).
Proof.
  intros HR k r Hr. rewrite lookup_update_where, Hr. simpl. eexists. split; [done|].
  destruct (P r) eqn:HP; auto.
Qed.

Lemma table_le_is_Some (t t' : gmap K V) k : table_le R t t' -> is_Some (t !! k) -> is_Some (t' !! k).
Proof. intros Hle [r Hr]. destruct (Hle k r Hr) as (r' & -> & _). done. Qed.
End TableLe.

#[export] Instance conv_le_po : PreOrder conv_le.
Proof.
  split.
  - intros r. unfold conv_le. split_and!; done || lia.
  - intros r1 r2 r3 (?&?&?&?) (?&?&?&?). unfold conv_le. split_and!; congruence || lia.
Qed.

#[export] Instance msg_le_po : PreOrder msg_le.
Proof.
  split.
  - intros r. unfold msg_le. split_and!; auto. by intros _.
  - intros r1 r2 r3 (?&?&?&Hd&?&?&Hs&?&?&?) (?&?&?&?&?&?&Hs'&?&?&?).
    unfold msg_le. split_and!; try congruence; auto.
    intros Ho. transitivity (ms_delivery_state r2); [auto|]. apply Hs'. congruence.
Qed.

#[export] Instance att_le_po : PreOrder att_le.
Proof.
  split.
  - intros r. unfold att_le. split_and!; auto.
  - intros r1 r2 r3 (?&?&?&?&?&?&?) (?&?&?&?&?&?&?). unfold att_le.
    split_and!; try congruence; auto.
Qed.

Lemma table_le_refl {K V} `{Countable K} (R : relation V) `{!Reflexive R} (t : gmap K V) :
  table_le R t t.
Proof. intros k r Hr. eauto. Qed.

Lemma table_le_trans {K V} `{Countable K} (R : relation V) `{!Transitive R} (t1 t2 t3 : gmap K V) :
  table_le R t1 t2 -> table_le R t2 t3 -> table_le R t1 t3.
Proof.
  intros H12 H23 k r Hr. destruct (H12 k r Hr) as (r2 & Hr2 & ?).
  destruct (H23 k r2 Hr2) as (r3 & ? & ?). exists r3. eauto.
Qed.

#[export] Instance db_le_po : PreOrder db_le.
Proof.
  split.
  - intros db. split; auto using table_le_refl with typeclass_instances.
  - intros a b c [] []. split; [set_solver|eapply table_le_trans; eauto with typeclass_instances ..].
Qed.

(** What each kind of write must establish. *)
Definition good (db db' : DB) : Prop := db_ok db' /\ db_le db db'.

Lemma good_conversations db t :
  db_ok db -> table_le conv_le (db_conversations db) t ->
  (forall id r, t !! id = Some r -> conv_row_ok db id r) ->
  good db (set_conversations t db).
Proof.
  intros [] Hle Hrows. split.
  - split; simpl; try done.
    + intros id r Hr. destruct (ok_part0 id r Hr). split; [done|]. simpl.
      by eapply table_le_is_Some.
    + intros id r Hr. destruct (ok_msg0 id r Hr) as (? & ? & ?). split_and!; [done| |done].
      simpl. by eapply table_le_is_Some.
  - split; simpl; auto using table_le_refl with typeclass_instances.
Qed.

Lemma good_contacts db t :
  db_ok db -> (forall id r, t !! id = Some r -> contact_row_ok id r) -> good db (set_contacts t db).
Proof.
  intros [] Hrows. split.
  - split; simpl; try done.
  - split; simpl; auto using table_le_refl with typeclass_instances.
Qed.

Lemma good_participants db t :
  db_ok db -> (forall id r, t !! id = Some r -> part_row_ok db id r) ->
  good db (set_participants t db).
Proof.
  intros [] Hrows. split.
  - split; simpl; try done.
  - split; simpl; auto using table_le_refl with typeclass_instances.
Qed.

Lemma good_messages db t :
  db_ok db -> table_le msg_le (db_messages db) t ->
  (forall id r, t !! id = Some r -> msg_row_ok db id r) ->
  good db (set_messages t db).
Proof.
  intros [] Hle Hrows. split.
  - split; simpl; try done.
    + intros id r Hr. destruct (ok_att0 id r Hr) as (? & ? & ?). split_and!; [done|done|].
      simpl. by eapply table_le_is_Some.
    + intros k r Hr. destruct (ok_re0 k r Hr). split; [|done]. simpl.
      by eapply table_le_is_Some.
  - split; simpl; auto using table_le_refl with typeclass_instances.
Qed.

Lemma good_attachments db t :
  db_ok db -> table_le att_le (db_attachments db) t ->
  (forall id r, t !! id = Some r -> att_row_ok db id r) ->
  (forall i1 i2 r1 r2, t !! i1 = Some r1 -> t !! i2 = Some r2 ->
    at_message_id r1 = at_message_id r2 -> at_part_index r1 = at_part_index r2 -> i1 = i2) ->
  good db (set_attachments t db).
Proof.
  intros [] Hle Hrows Hu. split.
  - split; simpl; try done.
  - split; simpl; auto using table_le_refl with typeclass_instances.
Qed.

Lemma good_reactions db t :
  db_ok db -> (forall k r, t !! k = Some r -> re_row_ok db k r) ->
  good db (set_reactions t db).
Proof.
  intros [] Hrows. split.
  - split; simpl; try done.
  - split; simpl; auto using table_le_refl with typeclass_instances.
Qed.

Lemma good_refl db : db_ok db -> good db db.
Proof. intros. by split. Qed.

Lemma good_trans a b c : good a b -> (db_ok b -> good b c) -> good a c.
Proof. intros [? ?] Hbc. destruct (Hbc H1). split; [done|]. by transitivity b. Qed.
End Histories.

(** ** Every method keeps the invariant and only moves forward *)

Lemma pretty_N_go_nul_free x s : nul_free s = true -> nul_free (pretty_N_go x s) = true.
Proof.
  revert s. induction (N.lt_wf_0 x) as [x _ IH]; intros s Hs.
  destruct (decide (x = 0)%N) as [->|]; [by rewrite pretty_N_go_0|].
  rewrite pretty_N_go_step by lia. apply IH; [apply N.div_lt; lia|].
  simpl. rewrite Hs, andb_true_r. unfold pretty_N_char.
  by destruct (x `mod` 10)%N as [|p]; [|do 4 (try destruct p as [p|p|])].
Qed.

Lemma pretty_Z_nul_free (z : Z) : nul_free (pretty z) = true.
Proof.
  unfold pretty, pretty_Z, pretty, pretty_positive, pretty, pretty_N.
  destruct z as [|p|p]; [done| |]; case_decide; try done; simpl;
    by apply pretty_N_go_nul_free.
Qed.

Section Preservation.
Context `{UUIDLaws} `{Digest}.

Lemma write_conversation_good now a c db db' :
  nul_free a = true -> nul_free (c_SourceID c) = true -> db_ok db ->
  write_conversation now a c db = Ok db' ->
  good db db' /\ is_Some (db_conversations db' !! ConversationID a (c_SourceID c)).
Proof.
  intros Ha Hs Hok. unfold write_conversation.
  destruct (db_conversations db !! _) as [old|] eqn:E.
  - intros [= <-]. split; [|simpl; by rewrite lookup_insert_eq].
    apply good_conversations; [done| |].
    + apply table_le_insert; [apply _|]. intros r Hr. simplify_eq.
      unfold conv_le. simpl. split_and!; done || lia.
    + intros id r [[<- <-]|[_ Hr]]%lookup_insert_Some; [|by apply Hok].
      apply Hok in E. exact E.
  - intros ([] & Hu & (? & Hf & [= <-])%bind_Ok_inv)%bind_Ok_inv.
    apply require_true in Hf. bool_to_prop.
    split; [|simpl; by rewrite lookup_insert_eq]. apply good_conversations; [done| |].
    + apply table_le_insert; [apply _|]. intros r Hr. congruence.
    + intros id r [[<- <-]|[_ Hr]]%lookup_insert_Some; [|by apply Hok].
      by split_and!.
Qed.

Lemma insert_participants_rows a conv ps t t' :
  insert_participants a conv ps t = Ok t' ->
  forall id r, t' !! id = Some r ->
    t !! id = Some r \/
    exists p, p ∈ ps /\ id = ParticipantID conv (p_SourceID p) /\ r = participant_row a conv p.
Proof.
  revert t. induction ps as [|p ps IH]; simpl; intros t; [naive_solver|].
  destruct (t !! _) eqn:E; [done|].
  intros ([] & _ & Hins)%bind_Ok_inv id r Hr.
  destruct (IH _ Hins id r Hr) as [Hin|(q & ? & ? & ?)].
  - apply lookup_insert_Some in Hin as [[<- <-]|[_ Hin]]; [|by left].
    right. exists p. set_solver.
  - right. exists q. set_solver.
Qed.

Lemma with_contact_ok db id (b : bool) c r :
  part_row_ok db id r -> part_row_ok db id (if b then with_contact c r else r).
Proof. by destruct b. Qed.

Lemma UpsertParticipants_good a conv ps db db' :
  db_ok db -> UpsertParticipants a conv ps db = Ok db' -> good db db'.
Proof.
  intros Hok (t & Ht & (? & Hf & [= <-])%bind_Ok_inv)%bind_Ok_inv.
  apply require_true in Hf. unfold linkParticipantContacts. simpl.
  change (set_participants ?x (set_participants t db)) with (set_participants x db).
  apply good_participants; [done|]. intros id r' (r & Hr & ->)%lookup_update_where_Some.
  apply (with_contact_ok _ _ (bool_decide _)).
  destruct (insert_participants_rows _ _ _ _ _ Ht id r Hr)
    as [[Hr0 _]%lookup_delete_where_Some|(p & Hp & -> & ->)]; [by apply Hok|].
  destruct ps as [|q ps]; [set_solver|]. apply andb_true_iff in Hf as [_ Hc].
  split; [done|]. by bool_to_prop.
Qed.

Lemma UpsertConversation_good now a c db db' id :
  nul_free a = true -> nul_free (c_SourceID c) = true -> db_ok db ->
  UpsertConversation now a c db = Ok (db', id) -> good db db'.
Proof.
  intros Ha Hs Hok (db1 & [Hg Hc]%write_conversation_good & Hps)%bind_Ok_inv; [|done..].
  destruct (c_Participants c) as [|p ps]; [by simplify_eq|].
  apply bind_Ok_inv in Hps as (db2 & Hps & [= <- _]).
  eapply good_trans; [exact Hg|]. intros Hok1. by eapply UpsertParticipants_good.
Qed.

Lemma UpsertContact_good now a c h db db' id :
  nul_free a = true -> nul_free (ct_src_SourceID c) = true -> db_ok db ->
  UpsertContact now a c h db = Ok (db', id) -> good db db'.
Proof.
  intros Ha Hs Hok. unfold UpsertContact.
  destruct (db_contacts db !! _) as [old|] eqn:E.
  - intros [= <- _]. apply good_contacts; [done|].
    intros i r [[<- <-]|[_ Hr]]%lookup_insert_Some; [|by apply Hok].
    apply Hok in E. exact E.
  - intros ([] & _ & (? & _ & [= <- _])%bind_Ok_inv)%bind_Ok_inv.
    apply good_contacts; [done|].
    intros i r [[<- <-]|[_ Hr]]%lookup_insert_Some; [|by apply Hok]. done.
Qed.

Lemma RelinkAccountContacts_good a db : db_ok db -> good db (RelinkAccountContacts a db).
Proof.
  intros Hok. apply good_participants; [done|].
  intros id r' (r & Hr & ->)%lookup_update_where_Some. apply Hok in Hr.
  by apply (with_contact_ok _ _ (bool_decide _)).
Qed.

(** The move [UpsertMessage] writes is one the trigger lets through. *)
Lemma new_state_allowed old m :
  ms_direction old = DirectionOutgoing -> delivery_le (ms_delivery_state old) (new_state old m).1.
Proof.
  intros Ho. unfold new_state. rewrite Ho. simpl.
  by destruct (TransitionAllowed (ms_delivery_state old) (m_DeliveryState m)) eqn:E.
Qed.

Lemma update_message_ok now a cs m id old db :
  update_message_row id old (message_update now a cs m old) db =
  Ok (set_messages (<[id := message_update now a cs m old]> (db_messages db)) db).
Proof.
  unfold update_message_row. rewrite trigger_spec. simpl.
  destruct (ms_direction old) eqn:Ho; [done|]. simpl.
  assert (TransitionAllowed (ms_delivery_state old) (new_state old m).1 = true) as ->; [|done].
  by apply new_state_allowed.
Qed.

Lemma coalesce_is_Some {A} (x y : option A) : is_Some y -> is_Some (coalesce x y).
Proof. by destruct x. Qed.

Lemma message_update_le now a cs m old : msg_le old (message_update now a cs m old).
Proof.
  unfold msg_le. simpl. split_and!; try done.
  - intros Ho. by apply new_state_allowed.
  - apply coalesce_is_Some.
  - apply coalesce_is_Some.
Qed.

Lemma put_message_good db id old r :
  db_ok db -> db_messages db !! id = Some old -> msg_le old r -> msg_row_ok db id r ->
  good db (set_messages (<[id := r]> (db_messages db)) db).
Proof.
  intros Hok E Hle Hrow. apply good_messages; [done| |].
  - apply table_le_insert; [apply _|]. intros r0 Hr0. congruence.
  - intros i r0 [[<- <-]|[_ Hr]]%lookup_insert_Some; [done|by apply Hok].
Qed.

Lemma UpsertMessage_good now a cs m db db' res :
  nul_free a = true -> nul_free cs = true -> nul_free (m_SourceID m) = true -> db_ok db ->
  UpsertMessage now a cs m db = Ok (db', res) -> good db db'.
Proof.
  intros Ha Hcs Hs Hok. unfold UpsertMessage. destruct (db_messages db !! _) as [old|] eqn:E.
  - case_match; [intros [= <- _]; by apply good_refl|].
    rewrite update_message_ok. intros [= <- _].
    apply (put_message_good _ _ old); [done|done|apply message_update_le|].
    apply Hok in E as (? & ? & _). by split_and!.
  - intros ([] & _ & (? & Hf & [= <- _])%bind_Ok_inv)%bind_Ok_inv.
    apply require_true, andb_true_iff in Hf as [_ Hf%bool_decide_eq_true].
    apply good_messages; [done| |].
    + apply table_le_insert; [apply _|]. intros r Hr. congruence.
    + intros i r [[<- <-]|[_ Hr]]%lookup_insert_Some; [|by apply Hok].
      split_and!; [|done|done]. by exists cs.
Qed.

Lemma LinkMessageOperation_good msg op db : db_ok db -> good db (LinkMessageOperation msg op db).
Proof.
  intros Hok. unfold LinkMessageOperation. case_match; [by apply good_refl|].
  destruct (db_messages db !! msg) as [r|] eqn:E; [|by apply good_refl].
  destruct (ms_operation_id r) eqn:Eop; [by apply good_refl|].
  apply (put_message_good _ _ r); [done|done| |].
  - unfold msg_le. simpl. split_and!; try done. congruence.
  - apply Hok in E. exact E.
Qed.

Lemma BumpConversationActivity_good now conv latest act db :
  db_ok db -> good db (BumpConversationActivity now conv latest act db).
Proof.
  intros Hok. unfold BumpConversationActivity.
  destruct (db_conversations db !! conv) as [r|] eqn:E; [|by apply good_refl].
  apply good_conversations; [done| |].
  - apply table_le_insert; [apply _|]. intros r0 Hr0. simplify_eq.
    unfold conv_le. simpl. split_and!; done || lia.
  - intros i r0 [[<- <-]|[_ Hr]]%lookup_insert_Some; [|by apply Hok].
    apply Hok in E. exact E.
Qed.

(** A write at the key of an existing attachment that leaves its part alone. *)
Lemma put_attachment_good db id old r :
  db_ok db -> db_attachments db !! id = Some old -> att_le old r -> att_row_ok db id r ->
  good db (set_attachments (<[id := r]> (db_attachments db)) db).
Proof.
  intros Hok E Hle Hrow. apply good_attachments; [done| | |].
  - apply table_le_insert; [apply _|]. intros r0 Hr0. congruence.
  - intros i r0 [[<- <-]|[_ Hr]]%lookup_insert_Some; [done|by apply Hok].
  - destruct Hle as (_ & Hm & Hp & _).
    intros i1 i2 r1 r2 [[<- <-]|[_ Hr1]]%lookup_insert_Some [[<- <-]|[_ Hr2]]%lookup_insert_Some;
      rewrite ?Hm, ?Hp; [done|..]; intros; by eapply (ok_att_unique db Hok).
Qed.

Lemma nullString_scan s : nullString (scanString (nullString s)) = nullString s.
Proof. by rewrite scan_nullString. Qed.

(** On a good table the row at an attachment's derived ID is that part's row,
    with that media ID. *)
Lemma attachment_at_id db msg part media old :
  db_ok db -> nul_free msg = true ->
  db_attachments db !! AttachmentID msg (pretty part) media = Some old ->
  at_message_id old = msg /\ at_part_index old = part /\ at_media_id old = nullString media.
Proof.
  intros Hok Hm E. apply Hok in E as (Hid & Hmed & Hmsg).
  assert (nul_free (at_message_id old) = true) as Hfree.
  { destruct Hmsg as [r Hr]. apply Hok in Hr as ((cs & _ & -> & _) & _).
    apply MessageID_nul_free. }
  apply AttachmentID_inj in Hid as (<- & Hp & ->); auto using pretty_Z_nul_free.
  split_and!; [done| |done]. by apply (inj pretty) in Hp.
Qed.

Lemma attachment_conflict_good a msg att key state db old :
  let id := AttachmentID msg (pretty (a_PartIndex att)) (a_MediaID att) in
  db_ok db -> nul_free msg = true -> db_attachments db !! id = Some old ->
  good db (set_attachments
    (<[id := attachment_conflict old (attachment_values a msg att key state)]>
       (db_attachments db)) db).
Proof.
  intros id Hok Hm E. destruct (attachment_at_id _ _ _ _ _ Hok Hm E) as (Hmsg & Hpart & Hmed).
  apply (put_attachment_good _ _ old); [done|done| |].
  - unfold att_le, size_known. simpl. split_and!; try done.
    + unfold nullInt. case_decide; [done|]. simpl. naive_solver.
    + apply coalesce_is_Some.
  - apply Hok in E as (_ & _ & Hex). unfold att_row_ok. simpl.
    rewrite scan_nullString, Hmsg, Hpart. by rewrite Hmsg in Hex.
Qed.

Lemma UpsertAttachment_good a msg att key state db db' id :
  nul_free msg = true -> db_ok db ->
  UpsertAttachment a msg att key state db = Ok (db', id) -> good db db'.
Proof.
  intros Hm Hok. unfold UpsertAttachment. destruct (db_attachments db !! _) as [old|] eqn:E.
  - intros [= <- _]. by apply attachment_conflict_good.
  - intros ([] & Hu & (? & Hf & [= <- _])%bind_Ok_inv)%bind_Ok_inv.
    apply require_true, andb_true_iff in Hf as [_ Hf%bool_decide_eq_true].
    apply require_true, negb_true_iff in Hu. rewrite taken_false in Hu.
    assert (forall i r, db_attachments db !! i = Some r -> at_message_id r = msg ->
      at_part_index r = a_PartIndex att -> False) as Hno.
    { intros i r Hr Hmsg Hpart. rewrite (Hu i r) in Hr; [congruence|done|].
      unfold same_part. by rewrite Hmsg, Hpart, !bool_decide_eq_true_2. }
    apply good_attachments; [done| | |].
    + apply table_le_insert; [apply _|]. intros r Hr. congruence.
    + intros i r [[<- <-]|[_ Hr]]%lookup_insert_Some; [|by apply Hok].
      unfold att_row_ok. simpl. by rewrite scan_nullString.
    + intros i1 i2 r1 r2 [[<- <-]|[_ Hr1]]%lookup_insert_Some
        [[<- <-]|[_ Hr2]]%lookup_insert_Some; simpl; intros; [done|exfalso; eauto ..|].
      by eapply (ok_att_unique db Hok).
Qed.

Lemma with_size_le msg size r : (0 < size)%Z -> att_le r (if lacks_size msg r then with_size size r else r).
Proof.
  intros Hs. destruct (lacks_size msg r) eqn:E; [|reflexivity].
  unfold att_le, size_known. simpl. split_and!; try done. intros _.
  split; [done|]. intros [= ->]. lia.
Qed.

Lemma FillMissingAttachmentSize_good msg size db :
  db_ok db -> good db (FillMissingAttachmentSize msg size db).
Proof.
  intros Hok. unfold FillMissingAttachmentSize.
  destruct (size <=? 0)%Z eqn:Hs; [by apply good_refl|]. apply Z.leb_gt in Hs.
  assert (forall r, at_message_id (if lacks_size msg r then with_size size r else r) =
    at_message_id r /\ at_part_index (if lacks_size msg r then with_size size r else r) =
    at_part_index r /\ at_media_id (if lacks_size msg r then with_size size r else r) =
    at_media_id r) as Hsame by (intros r; by destruct (lacks_size msg r)).
  apply good_attachments; [done| | |].
  - intros k r Hr. eexists. rewrite lookup_update_where, Hr. split; [done|].
    by apply with_size_le.
  - intros i r' (r & Hr & ->)%lookup_update_where_Some. apply Hok in Hr.
    destruct (Hsame r) as (? & ? & ?). unfold att_row_ok in *. congruence.
  - intros i1 i2 r1' r2' (r1 & Hr1 & ->)%lookup_update_where_Some
      (r2 & Hr2 & ->)%lookup_update_where_Some.
    destruct (Hsame r1) as (-> & -> & _), (Hsame r2) as (-> & -> & _).
    by apply (ok_att_unique db Hok).
Qed.

Lemma SetAttachmentDownloadState_good att state sha db :
  db_ok db -> good db (SetAttachmentDownloadState att state sha db).
Proof.
  intros Hok. unfold SetAttachmentDownloadState.
  destruct (db_attachments db !! att) as [r|] eqn:E; [|by apply good_refl].
  apply (put_attachment_good _ _ r); [done|done| |].
  - unfold att_le. simpl. split_and!; try done. apply coalesce_is_Some.
  - apply Hok in E. exact E.
Qed.

(** On good rows [insert_reactions] never fails: it is a fold of insertions. *)
Definition reaction_key (conv msg : string) (e : ReactionEntry) : string * string :=
  (msg, reaction_pid conv (en_source e)).

Definition put_reactions (now : Z) (conv msg me : string) (es : list ReactionEntry)
    (t : gmap (string * string) ReactionRow) : gmap (string * string) ReactionRow :=
  foldl (fun t e => <[reaction_key conv msg e := reaction_values now conv msg me e]> t) t es.

Lemma clean_entries_derived conv es : conv <> ""%string -> clean_entries conv es.
Proof.
  intros Hc. apply Forall_forall. intros e _. unfold reaction_pid.
  rewrite decide_True by done. apply ParticipantID_nul_free.
Qed.

Lemma msg_id_nul_free db id r :
  db_ok db -> db_messages db !! id = Some r -> nul_free id = true.
Proof. intros Hok Hr. apply Hok in Hr as ((cs & _ & -> & _) & _). apply MessageID_nul_free. Qed.

Lemma re_row_id_inj db k1 k2 r1 r2 :
  db_ok db -> re_row_ok db k1 r1 -> re_row_ok db k2 r2 -> re_id r1 = re_id r2 -> k1 = k2.
Proof.
  intros Hok ([m1 Hm1] & Hk1 & ->) ([m2 Hm2] & Hk2 & ->) E.
  apply ReactionID_inj in E as (? & ? & _); eauto using msg_id_nul_free.
  by destruct k1, k2; simpl in *; subst.
Qed.

Lemma reaction_values_ok db now conv msg me e :
  nul_free (reaction_pid conv (en_source e)) = true -> is_Some (db_messages db !! msg) ->
  re_row_ok db (reaction_key conv msg e) (reaction_values now conv msg me e).
Proof. intros Hc Hm. by split_and!. Qed.

Lemma insert_reactions_total db now conv msg me es t :
  db_ok db -> clean_entries conv es -> is_Some (db_messages db !! msg) ->
  (forall k r, t !! k = Some r -> re_row_ok db k r) ->
  insert_reactions now conv msg me es t = Ok (put_reactions now conv msg me es t).
Proof.
  intros Hok Hc Hm. revert t. induction Hc as [|e es He0 _ IH]; intros t Ht; [done|].
  pose proof (reaction_values_ok db now conv msg me e He0 Hm) as He.
  simpl. unfold insert_reaction at 1. rewrite bool_decide_eq_true_2.
  - simpl. apply IH. intros k r [[<- <-]|[_ Hr]]%lookup_insert_Some; [exact He|auto].
  - apply length_zero_iff_nil, select_where_nil.
    intros k r [Hne Hr]%lookup_delete_Some. apply bool_decide_eq_false. intros E.
    apply Hne. symmetry. by apply (re_row_id_inj db _ _ _ _ Hok (Ht k r Hr) He).
Qed.

Lemma put_reactions_ok db now conv msg me es t :
  clean_entries conv es -> is_Some (db_messages db !! msg) ->
  (forall k r, t !! k = Some r -> re_row_ok db k r) ->
  forall k r, put_reactions now conv msg me es t !! k = Some r -> re_row_ok db k r.
Proof.
  intros Hc Hm. revert t. induction Hc as [|e es He0 _ IH]; intros t Ht; [done|]. simpl. apply IH.
  intros k r [[<- <-]|[_ Hr]]%lookup_insert_Some; [by apply reaction_values_ok|auto].
Qed.

Lemma delete_reactions_Some msg t k r :
  delete_reactions msg t !! k = Some r <-> t !! k = Some r /\ k.1 <> msg.
Proof. unfold delete_reactions. by rewrite map_lookup_filter_Some. Qed.

Lemma delete_reactions_ok db msg :
  db_ok db -> forall k r, delete_reactions msg (db_reactions db) !! k = Some r -> re_row_ok db k r.
Proof. intros Hok k r [Hr _]%delete_reactions_Some. by apply Hok. Qed.

(** The whole call, on a good database. *)
Lemma ReplaceReactions_spec now conv msg me rs db :
  db_ok db -> clean_entries conv (entries rs) -> is_Some (db_messages db !! msg) ->
  ReplaceReactions now conv msg me rs db =
  Ok (set_reactions (put_reactions now conv msg me (entries rs)
        (delete_reactions msg (db_reactions db))) db).
Proof.
  intros Hok Hc Hm. unfold ReplaceReactions.
  rewrite (insert_reactions_total db); [|done..|by apply delete_reactions_ok]. simpl.
  destruct (entries rs); [done|]. by rewrite bool_decide_eq_true_2.
Qed.

Lemma ReplaceReactions_good now conv msg me rs db db' :
  db_ok db -> clean_entries conv (entries rs) -> ReplaceReactions now conv msg me rs db = Ok db' -> good db db'.
Proof.
  intros Hok Hc (t & Ht & (? & Hf%require_true & [= <-])%bind_Ok_inv)%bind_Ok_inv.
  apply good_reactions; [done|].
  destruct (entries rs) as [|e es] eqn:E.
  - injection Ht as <-. by apply delete_reactions_ok.
  - rewrite <- E in *. apply bool_decide_eq_true in Hf || (rewrite E in Hf; apply bool_decide_eq_true in Hf).
    rewrite (insert_reactions_total db) in Ht; [|done..|by apply delete_reactions_ok].
    injection Ht as <-. by apply put_reactions_ok, delete_reactions_ok.
Qed.

Lemma msg_step_good db db' : db_ok db -> MsgStep db db' -> good db db'.
Proof.
  intros Hok. destruct 1 as [a ? |? ? ? ? ? ? ? Hc| ? ? ? ? ? ? ? ? Hc | ? ? ? ? Hp | | ? ? ? ? ? ? ? ? ? Hm
    | | | ? ? ? ? ? ? ? ? Ha | | | ? ? ? ? ? ? ? Hr].
  - destruct Hok. split.
    + split; simpl; try done. intros id r Hr. destruct (ok_conv0 id r Hr) as (? & ? & ? & ?).
      split_and!; [done..|]. simpl. set_solver.
    + split; simpl; auto using table_le_refl with typeclass_instances. set_solver.
  - by eapply UpsertConversation_good; [..|exact Hc].
  - by eapply UpsertContact_good; [..|exact Hc].
  - by eapply UpsertParticipants_good.
  - by apply RelinkAccountContacts_good.
  - by eapply UpsertMessage_good; [..|exact Hm].
  - by apply LinkMessageOperation_good.
  - by apply BumpConversationActivity_good.
  - by eapply UpsertAttachment_good; [..|exact Ha].
  - by apply FillMissingAttachmentSize_good.
  - by apply SetAttachmentDownloadState_good.
  - by eapply ReplaceReactions_good.
Qed.

Lemma empty_db_ok : db_ok empty_db.
Proof. split; simpl; intros *; rewrite ?lookup_empty; done. Qed.

Lemma msg_steps_good db db' : db_ok db -> rtc MsgStep db db' -> good db db'.
Proof.
  intros Hok Hs. induction Hs as [db|a b c Hab _ IH]; [by apply good_refl|].
  eapply good_trans; [by apply msg_step_good|]. done.
Qed.

Lemma reachable_ok db : rtc MsgStep empty_db db -> db_ok db.
Proof. intros Hs. by apply (msg_steps_good empty_db db empty_db_ok). Qed.
End Preservation.

(** ** Properties *)
Section Theorems.
Context `{UUIDLaws} `{Digest}.

Lemma history_le db db' : rtc MsgStep empty_db db -> rtc MsgStep db db' -> db_le db db'.
Proof. intros Hr Hs. by apply msg_steps_good; [apply reachable_ok|]. Qed.

(** C6: a message's history.  In every continuation of every reachable database a
    stored message keeps its account, conversation, Google ID, direction and times;
    an outgoing message's delivery state only moves along [TransitionAllowed], so it
    never comes back to a state it left; and the operation it was linked to is
    never replaced. *)
Theorem message_history db db' id r :
  rtc MsgStep empty_db db -> db_messages db !! id = Some r -> rtc MsgStep db db' ->
  exists r', db_messages db' !! id = Some r' /\
    ms_account_id r' = ms_account_id r /\ ms_conversation_id r' = ms_conversation_id r /\
    ms_source_id r' = ms_source_id r /\ ms_direction r' = ms_direction r /\
    ms_sent_at_ms r' = ms_sent_at_ms r /\ ms_ingested_at_ms r' = ms_ingested_at_ms r /\
    (ms_direction r = DirectionOutgoing ->
       TransitionAllowed (ms_delivery_state r) (ms_delivery_state r') = true /\
       (TransitionAllowed (ms_delivery_state r') (ms_delivery_state r) = true ->
          ms_delivery_state r' = ms_delivery_state r)) /\
    (forall op, ms_operation_id r = Some op -> ms_operation_id r' = Some op) /\
    ms_is_deleted r' = bool_decide (ms_delivery_state r' = DeliveryStateDeleted).
Proof.
  intros Hr Hid Hs. destruct (le_msg _ _ (history_le _ _ Hr Hs) id r Hid)
    as (r' & Hr' & ? & ? & ? & ? & ? & ? & Hd & ? & _).
  assert (db_ok db') as Hok'.
  { apply reachable_ok. by etransitivity. }
  exists r'. split_and!; try done.
  - intros Ho. split; [by apply Hd|]. intros Hback. symmetry.
    apply (anti_symm delivery_le); [by apply Hd|exact Hback].
  - by apply Hok' in Hr' as (_ & _ & ?).
Qed.

(** A message insert can only be refused by a foreign key. *)
Lemma message_not_taken db a cs m :
  db_ok db -> nul_free a = true -> nul_free cs = true ->
  taken (fun r => bool_decide (ms_conversation_id r = ConversationID a cs) &&
                  bool_decide (ms_source_id r = m_SourceID m))
    (MessageID a cs (m_SourceID m)) (db_messages db) = false.
Proof.
  intros Hok Ha Hcs. apply taken_false. intros id r Hr Hp. bool_to_prop.
  apply Hok in Hr as ((cs' & Hconv & -> & ? & ? & ?) & _).
  match goal with E : ms_conversation_id r = _ |- _ => rewrite Hconv in E end.
  match goal with E : ConversationID _ _ = _ |- _ => apply ConversationID_inj in E as [-> ->] end;
    [congruence|done..].
Qed.

(** What one [UpsertMessage] does, on every branch.  On a reachable database it
    fails only when the message is new and its account or conversation is missing.
    A new message is inserted as described; a stored one is left untouched when its
    hash and raw status are unchanged, and is otherwise rewritten, with the raw
    status always taken over and a backward move of an outgoing message refused,
    reported and not applied.  The database trigger never fires, and no other row
    changes. *)
Theorem upsert_message_spec now a cs m db :
  rtc MsgStep empty_db db ->
  nul_free a = true -> nul_free cs = true -> nul_free (m_SourceID m) = true ->
  let id := MessageID a cs (m_SourceID m) in
  match db_messages db !! id with
  | None =>
      UpsertMessage now a cs m db =
        if decide (a ∈ db_accounts db /\ is_Some (db_conversations db !! ConversationID a cs))
        then Ok (set_messages (<[id := message_values now a cs m]> (db_messages db)) db,
                 mkUpsertMessageResult id true false false None)
        else Err ErrForeignKey
  | Some old =>
      exists db' res, UpsertMessage now a cs m db = Ok (db', res) /\
        res_ID res = id /\ res_Inserted res = false /\
        res_PreviousState res = Some (ms_delivery_state old) /\
        (res_Updated res = false <->
           ms_content_hash old = ContentHash m /\ ms_delivery_state_raw old = m_StatusRaw m) /\
        (res_Updated res = false -> db' = db /\ res_TransitionRefused res = false) /\
        (res_Updated res = true -> exists r',
           db' = set_messages (<[id := r']> (db_messages db)) db /\
           ms_delivery_state_raw r' = m_StatusRaw m /\ ms_content_hash r' = ContentHash m /\
           ms_delivery_state r' =
             (if res_TransitionRefused res then ms_delivery_state old else m_DeliveryState m)) /\
        (res_TransitionRefused res = true <->
           res_Updated res = true /\ ms_direction old = DirectionOutgoing /\
           TransitionAllowed (ms_delivery_state old) (m_DeliveryState m) = false)
  end.
Proof.
  intros Hr Ha Hcs Hs id. apply reachable_ok in Hr. unfold UpsertMessage. fold id.
  destruct (db_messages db !! id) as [old|] eqn:E.
  - destruct (bool_decide (ms_content_hash old = ContentHash m) &&
              bool_decide (ms_delivery_state_raw old = m_StatusRaw m)) eqn:Hsame.
    + bool_to_prop. eexists _, _. split; [done|]. simpl. split_and!; naive_solver.
    + rewrite update_message_ok. eexists _, _. split; [reflexivity|]. simpl.
      rewrite andb_false_iff, !bool_decide_eq_false in Hsame.
      split_and!; try done; [naive_solver| |].
      * intros _. eexists. split; [done|]. simpl. split_and!; [done..|].
        unfold new_state. by case_match.
      * unfold new_state.
        destruct (ms_direction old), (TransitionAllowed (ms_delivery_state old) (m_DeliveryState m));
          naive_solver.
  - rewrite message_not_taken by done. simpl. case_decide as Hc.
    + by rewrite !bool_decide_eq_true_2 by tauto.
    + assert (bool_decide (a ∈ db_accounts db) &&
        bool_decide (is_Some (db_conversations db !! ConversationID a cs)) = false) as ->; [|done].
      rewrite andb_false_iff, !bool_decide_eq_false. destruct (decide (a ∈ db_accounts db)); tauto.
Qed.

(** A replay writes nothing.  Once an event was stored, whether it was
    inserted, applied or partly refused, delivering the same event again at any
    later time leaves the database exactly as it is and reports no write. *)
Theorem replay_writes_nothing now now' a cs m db db1 res :
  UpsertMessage now a cs m db = Ok (db1, res) ->
  exists prev, UpsertMessage now' a cs m db1 =
    Ok (db1, mkUpsertMessageResult (res_ID res) false false false prev).
Proof.
  unfold UpsertMessage at 1. destruct (db_messages db !! _) as [old|] eqn:E.
  - destruct (bool_decide (ms_content_hash old = ContentHash m) &&
              bool_decide (ms_delivery_state_raw old = m_StatusRaw m)) eqn:Hsame.
    + intros [= <- <-]. eexists. unfold UpsertMessage. by rewrite E, Hsame.
    + rewrite update_message_ok. intros [= <- <-]. eexists. unfold UpsertMessage. simpl.
      rewrite lookup_insert_eq. simpl. by rewrite !bool_decide_eq_true_2.
  - intros ([] & _ & (? & _ & [= <- <-])%bind_Ok_inv)%bind_Ok_inv. eexists.
    unfold UpsertMessage. simpl. rewrite lookup_insert_eq. simpl.
    by rewrite !bool_decide_eq_true_2.
Qed.

(** An attachment's history.  Along every history an attachment keeps its
    account, message, part index and media ID; a size that is known is never
    erased, nor is a decryption key or a recorded SHA-256. *)
Theorem attachment_history db db' id r :
  rtc MsgStep empty_db db -> db_attachments db !! id = Some r -> rtc MsgStep db db' ->
  exists r', db_attachments db' !! id = Some r' /\
    at_account_id r' = at_account_id r /\ at_message_id r' = at_message_id r /\
    at_part_index r' = at_part_index r /\ at_media_id r' = at_media_id r /\
    (size_known r -> size_known r') /\
    (is_Some (at_decryption_key r) -> is_Some (at_decryption_key r')) /\
    (is_Some (at_sha256 r) -> is_Some (at_sha256 r')).
Proof.
  intros Hr Hid Hs. destruct (le_att _ _ (history_le _ _ Hr Hs) id r Hid) as (r' & Hr' & Hle).
  exists r'. split; [done|exact Hle].
Qed.

(** Filling a size is a fill, not a correction.  On any database the call sets
    the size of exactly this message's attachments whose size is unknown, changes
    no other column, and does nothing for a size that is not positive. *)
Theorem fill_size_exact msg size db :
  let db' := FillMissingAttachmentSize msg size db in
  db_messages db' = db_messages db /\ db_conversations db' = db_conversations db /\
  db_reactions db' = db_reactions db /\
  (forall id, db_attachments db !! id = None -> db_attachments db' !! id = None) /\
  (forall id r, db_attachments db !! id = Some r -> exists r',
     db_attachments db' !! id = Some r' /\
     (if decide ((0 < size)%Z /\ at_message_id r = msg /\ ~ size_known r)
      then r' = with_size size r else r' = r)).
Proof.
  unfold FillMissingAttachmentSize. destruct (size <=? 0)%Z eqn:Hs; bool_to_prop; simpl.
  - split_and!; try done. intros id r Hr. exists r. split; [done|].
    rewrite decide_False; [done|lia].
  - split_and!; try done; [intros id; apply update_where_None|].
    intros id r Hr. eexists. rewrite lookup_update_where, Hr. split; [done|].
    assert (lacks_size msg r = true <-> at_message_id r = msg /\ ~ size_known r) as Hl.
    { unfold lacks_size, size_known. rewrite andb_true_iff, orb_true_iff, !bool_decide_eq_true.
      destruct (decide (at_size_bytes r = None)), (decide (at_size_bytes r = Some 0%Z)); tauto. }
    case_decide as Hd.
    + by rewrite (proj2 Hl) by tauto.
    + destruct (lacks_size msg r); [|done]. destruct Hd. split; [done|by apply Hl].
Qed.

(** A part's media ID is frozen at its first write.  On a reachable database,
    once a part of a message is stored, an upsert of the same part with another
    media ID (for instance the full-size media arriving after the thumbnail) is
    always refused by UNIQUE (message_id, part_index), because the row's primary
    key is derived from the media ID and the conflict clause only covers the key.
    With the stored media ID the upsert always succeeds. *)
Theorem attachment_media_id_frozen a msg att key state db id r :
  rtc MsgStep empty_db db ->
  db_attachments db !! id = Some r -> at_message_id r = msg ->
  at_part_index r = a_PartIndex att ->
  if decide (at_media_id r = nullString (a_MediaID att))
  then exists db', UpsertAttachment a msg att key state db = Ok (db', id)
  else UpsertAttachment a msg att key state db = Err ErrUnique.
Proof.
  intros Hok%reachable_ok Hr Hmsg Hpart. pose proof (ok_att db Hok id r Hr) as (Hid & Hmed & Hex).
  unfold UpsertAttachment. case_decide as Hm.
  - assert (id = AttachmentID msg (pretty (a_PartIndex att)) (a_MediaID att)) as <-.
    { by rewrite Hid, Hm, scan_nullString, Hmsg, Hpart. }
    rewrite Hr. eauto.
  - destruct (db_attachments db !! AttachmentID msg (pretty (a_PartIndex att)) (a_MediaID att))
      as [old|] eqn:E.
    + assert (nul_free msg = true) as Hfree.
      { destruct Hex as [m Hex]. rewrite <- Hmsg. by apply (msg_id_nul_free _ _ _ Hok Hex). }
      destruct (attachment_at_id _ _ _ _ _ Hok Hfree E) as (Hm' & Hp' & Hmed').
      assert (id = AttachmentID msg (pretty (a_PartIndex att)) (a_MediaID att)) as ->.
      { eapply (ok_att_unique db Hok); [exact Hr|exact E|congruence..]. }
      congruence.
    + assert (taken (same_part msg (a_PartIndex att))
        (AttachmentID msg (pretty (a_PartIndex att)) (a_MediaID att)) (db_attachments db) = true)
        as ->; [|done].
      apply taken_true. exists id, r. split_and!; [congruence|done|].
      unfold same_part. by rewrite Hmsg, Hpart, !bool_decide_eq_true_2.
Qed.

Lemma put_reactions_lookup now conv msg me es t k :
  put_reactions now conv msg me es t !! k =
  match last (filter (fun e => reaction_key conv msg e = k) es) with
  | Some e => Some (reaction_values now conv msg me e)
  | None => t !! k
  end.
Proof.
  revert t. induction es as [|e es IH]; intros t; [done|]. simpl. rewrite IH. clear IH.
  rewrite filter_cons. case_decide as He.
  - rewrite last_cons. destruct (last _) as [e'|]; [done|]. subst k. by rewrite lookup_insert_eq.
  - destruct (last _); [done|]. by rewrite lookup_insert_ne.
Qed.

(** Reactions are set-replaced.  On a reachable database and for a stored
    message the call always succeeds; afterwards a participant has a row on this
    message exactly when the new set names it, carrying the last reaction the set
    gives it, and every other message's reactions, and every other table, are as
    they were. *)
Theorem reactions_set_replace now conv msg me rs db :
  rtc MsgStep empty_db db -> clean_entries conv (entries rs) -> is_Some (db_messages db !! msg) ->
  exists t, ReplaceReactions now conv msg me rs db = Ok (set_reactions t db) /\
    (forall msg' pid, msg' <> msg -> t !! (msg', pid) = db_reactions db !! (msg', pid)) /\
    (forall pid, t !! (msg, pid) =
       reaction_values now conv msg me <$>
         last (filter (fun e => reaction_pid conv (en_source e) = pid) (entries rs))) /\
    (forall pid, is_Some (t !! (msg, pid)) <->
       exists r s, r ∈ rs /\ s ∈ r_ParticipantIDs r /\ pid = reaction_pid conv s).
Proof.
  intros Hok%reachable_ok Hc Hm.
  assert (forall pid, put_reactions now conv msg me (entries rs)
            (delete_reactions msg (db_reactions db)) !! (msg, pid) =
    reaction_values now conv msg me <$>
      last (filter (fun e => reaction_pid conv (en_source e) = pid) (entries rs))) as Hlook.
  { intros pid. rewrite put_reactions_lookup.
    rewrite (list_filter_iff _ (fun e => reaction_pid conv (en_source e) = pid)).
    - destruct (last _); [done|]. simpl. apply eq_None_not_Some.
      by intros [r [_ Hr]%delete_reactions_Some].
    - intros e. unfold reaction_key. naive_solver. }
  eexists. split; [by apply ReplaceReactions_spec|]. split_and!; [|exact Hlook|].
  - intros msg' pid Hne. rewrite put_reactions_lookup.
    destruct (last _) as [e|] eqn:E.
    + apply last_Some_elem_of, list_elem_of_filter in E as [E _].
      unfold reaction_key in E. congruence.
    + destruct (db_reactions db !! (msg', pid)) as [r|] eqn:Er.
      * by apply delete_reactions_Some.
      * apply eq_None_not_Some. intros [r [Hr _]%delete_reactions_Some]. congruence.
  - intros pid. rewrite Hlook, fmap_is_Some, last_is_Some.
    assert (forall e, e ∈ filter (fun e => reaction_pid conv (en_source e) = pid) (entries rs) <->
      exists r s, r ∈ rs /\ s ∈ r_ParticipantIDs r /\ pid = reaction_pid conv s /\
        e = mkReactionEntry s r) as Hin.
    { intros e. rewrite list_elem_of_filter. unfold entries. rewrite list_elem_of_bind.
      setoid_rewrite list_elem_of_fmap. naive_solver. }
    split.
    + intros Hne. destruct (filter _ _) as [|e l] eqn:E; [done|].
      destruct (proj1 (Hin e)) as (r & s & ? & ? & ? & _); [|eauto].
      apply elem_of_cons. auto.
    + intros (r & s & ? & ? & ?) Hnil.
      apply (not_elem_of_nil (mkReactionEntry s r)). rewrite <- Hnil. apply Hin. eauto 6.
Qed.

(** Conversation activity is monotone.  Along every history a conversation
    keeps its account and Google ID and its [last_activity_ms] never decreases.
    One [BumpConversationActivity] raises it to the maximum and replaces the
    latest message only for a strictly newer activity. *)
Theorem conversation_activity_monotone db db' id r now latest activity :
  rtc MsgStep empty_db db -> db_conversations db !! id = Some r ->
  (rtc MsgStep db db' -> exists r', db_conversations db' !! id = Some r' /\
     cv_account_id r' = cv_account_id r /\ cv_source_id r' = cv_source_id r /\
     (cv_last_activity_ms r <= cv_last_activity_ms r')%Z) /\
  (exists r', db_conversations (BumpConversationActivity now id latest activity db) !! id = Some r' /\
     cv_last_activity_ms r' = Z.max (cv_last_activity_ms r) activity /\
     cv_latest_message_id r' = (if decide (cv_last_activity_ms r < activity)%Z
                                then nullString latest else cv_latest_message_id r)).
Proof.
  intros Hr Hid. split.
  - intros Hs. destruct (le_conv _ _ (history_le _ _ Hr Hs) id r Hid)
      as (r' & Hr' & ? & ? & ? & ?). exists r'. by split_and!.
  - unfold BumpConversationActivity. rewrite Hid. simpl. eexists. rewrite lookup_insert_eq.
    split; [done|]. simpl. split; [done|].
    destruct (cv_last_activity_ms r <? activity)%Z eqn:E; bool_to_prop;
      case_decide; done || lia.
Qed.

(** Participant rows are keyed by their derived ID, whatever the conversation. *)
Definition part_key_ok (id : string) (r : ParticipantRow) : Prop :=
  id = ParticipantID (pt_conversation_id r) (pt_source_id r) /\
  nul_free (pt_conversation_id r) = true.

Lemma insert_participants_dup a conv ps t s :
  s ∈ (p_SourceID <$> ps) -> is_Some (t !! ParticipantID conv s) ->
  is_ok (insert_participants a conv ps t) = false.
Proof.
  revert t. induction ps as [|q ps IH]; intros t Hin Hs; [by apply not_elem_of_nil in Hin|].
  simpl in *. destruct (t !! ParticipantID conv (p_SourceID q)) as [w|] eqn:Eq; [done|].
  destruct (require _ ErrUnique) as [[]|]; [|done]. simpl.
  apply elem_of_cons in Hin as [->|Hin]; [rewrite Eq in Hs; by destruct Hs|].
  apply IH; [done|]. apply lookup_insert_is_Some'. auto.
Qed.

Lemma insert_participants_ok a conv ps t :
  nul_free conv = true ->
  (forall id r, t !! id = Some r -> part_key_ok id r) ->
  (forall id r, t !! id = Some r -> pt_conversation_id r = conv ->
     pt_source_id r ∉ (p_SourceID <$> ps)) ->
  is_ok (insert_participants a conv ps t) = bool_decide (NoDup (p_SourceID <$> ps)).
Proof.
  intros Hc. revert t. induction ps as [|p ps IH]; intros t Hkey Hfresh; simpl.
  { done. }
  assert (t !! ParticipantID conv (p_SourceID p) = None) as E.
  { apply eq_None_not_Some. intros [r Hr]. destruct (Hkey _ _ Hr) as [Hid Hn].
    apply ParticipantID_inj in Hid as [Hc' Hs]; [|done..].
    apply (Hfresh _ _ Hr); [done|]. rewrite <- Hs. simpl. apply elem_of_cons. auto. }
  rewrite E. destruct (taken _ _ t) eqn:Et.
  { apply taken_true in Et as (i & r & _ & Hr & Hp). bool_to_prop.
    destruct (Hfresh i r Hr); [done|]. simpl. apply elem_of_cons. auto. }
  simpl. destruct (decide (p_SourceID p ∈ (p_SourceID <$> ps))) as [Hin|Hnin].
  - rewrite bool_decide_eq_false_2 by (by rewrite NoDup_cons; intros [? _]).
    apply (insert_participants_dup _ _ _ _ (p_SourceID p)); [done|].
    by rewrite lookup_insert_eq.
  - rewrite IH.
    + apply bool_decide_ext. simpl. rewrite NoDup_cons. tauto.
    + intros i r [[<- <-]|[_ Hr]]%lookup_insert_Some; [|by apply Hkey]. done.
    + intros i r [[<- <-]|[_ Hr]]%lookup_insert_Some; [done|].
      intros Hconv Hin. apply (Hfresh i r Hr Hconv). simpl. apply elem_of_cons. auto.
Qed.

Lemma insert_participants_keeps a conv ps t t' :
  insert_participants a conv ps t = Ok t' ->
  (forall id r, t !! id = Some r -> t' !! id = Some r) /\
  (forall p, p ∈ ps -> t' !! ParticipantID conv (p_SourceID p) = Some (participant_row a conv p)).
Proof.
  revert t. induction ps as [|q ps IH]; simpl; intros t.
  { intros [= <-]. split; [done|]. intros p Hp. by apply not_elem_of_nil in Hp. }
  destruct (t !! _) eqn:E; [done|]. intros ([] & _ & Hins)%bind_Ok_inv.
  destruct (IH _ Hins) as [Hkeep Hall]. split.
  - intros id r Hr. apply Hkeep. rewrite lookup_insert_ne; [done|congruence].
  - intros p [->|Hp]%elem_of_cons; [|by apply Hall]. apply Hkeep. by rewrite lookup_insert_eq.
Qed.

(** On a good database the conversation row is written whenever the account exists. *)
Lemma write_conversation_ok now a c db :
  db_ok db -> nul_free a = true -> nul_free (c_SourceID c) = true ->
  let id := ConversationID a (c_SourceID c) in
  write_conversation now a c db =
  if decide (a ∈ db_accounts db)
  then Ok (set_conversations
    (<[id := match db_conversations db !! id with
             | Some old => conversation_conflict old (conversation_values now a c)
             | None => conversation_values now a c
             end]> (db_conversations db)) db)
  else Err ErrForeignKey.
Proof.
  intros Hok Ha Hs id. unfold write_conversation. fold id.
  destruct (db_conversations db !! id) as [old|] eqn:E.
  - rewrite decide_True; [done|].
    destruct (ok_conv db Hok id old E) as (Hid & ? & ? & Hin).
    apply ConversationID_inj in Hid as [-> _]; done.
  - assert (taken (fun r => bool_decide (cv_account_id r = a) &&
      bool_decide (cv_source_id r = c_SourceID c)) id (db_conversations db) = false) as ->.
    { apply taken_false. intros i r Hr Hp. bool_to_prop.
      destruct (ok_conv db Hok i r Hr) as (-> & _). unfold id. congruence. }
    simpl. case_decide as Hin; [by rewrite bool_decide_eq_true_2|by rewrite bool_decide_eq_false_2].
Qed.

Lemma UpsertParticipants_ok a conv ps db :
  db_ok db -> a ∈ db_accounts db -> is_Some (db_conversations db !! conv) ->
  is_ok (UpsertParticipants a conv ps db) = bool_decide (NoDup (p_SourceID <$> ps)).
Proof.
  intros Hok Ha Hc.
  assert (forall i r, db_participants db !! i = Some r -> part_key_ok i r) as Hkeys.
  { intros i r Hr. apply Hok in Hr as [? [c Hcv]]. split; [done|].
    apply Hok in Hcv as (-> & _). apply ConversationID_nul_free. }
  assert (nul_free conv = true) as Hfree.
  { destruct Hc as [c Hcv]. apply Hok in Hcv as (-> & _). apply ConversationID_nul_free. }
  rewrite <- (insert_participants_ok a conv ps (delete_where
    (fun r => bool_decide (pt_conversation_id r = conv)) (db_participants db)) Hfree).
  - unfold UpsertParticipants. destruct (insert_participants _ _ _ _) as [t|]; [|done]. simpl.
    destruct ps; [done|]. by rewrite !bool_decide_eq_true_2.
  - intros i r [Hr _]%lookup_delete_where_Some. by apply Hkeys.
  - intros i r [_ Hr]%lookup_delete_where_Some. by bool_to_prop.
Qed.

(** What a successful [UpsertParticipants] leaves behind. *)
Lemma UpsertParticipants_spec a conv ps db db' :
  UpsertParticipants a conv ps db = Ok db' ->
  db_conversations db' = db_conversations db /\ db_messages db' = db_messages db /\
  forall pid r, db_participants db' !! pid = Some r <->
    (db_participants db !! pid = Some r /\ pt_conversation_id r <> conv) \/
    exists p, p ∈ ps /\ pid = ParticipantID conv (p_SourceID p) /\
      r = with_contact (contact_of a (p_SourceID p) (db_contacts db)) (participant_row a conv p).
Proof.
  intros (t & Ht & (? & _ & [= <-])%bind_Ok_inv)%bind_Ok_inv.
  destruct (insert_participants_keeps _ _ _ _ _ Ht) as [Hkeep Hall].
  split_and!; [done|done|]. intros pid r. simpl. rewrite lookup_update_where_Some. split.
  - intros (r0 & Hr0 & ->).
    destruct (insert_participants_rows _ _ _ _ _ Ht _ _ Hr0)
      as [[Hr Hne]%lookup_delete_where_Some|(p & ? & -> & ->)].
    + left. by rewrite Hne in *; bool_to_prop.
    + right. exists p. simpl. by rewrite bool_decide_eq_true_2.
  - intros [[Hr Hne]|(p & Hp & -> & ->)].
    + exists r. rewrite bool_decide_eq_false_2 by done. split; [|done]. apply Hkeep.
      apply lookup_delete_where_Some. by rewrite bool_decide_eq_false_2.
    + exists (participant_row a conv p). split; [by apply Hall|]. simpl.
      by rewrite bool_decide_eq_true_2.
Qed.

(** What one [UpsertConversation] does.  On a reachable database it succeeds
    exactly when the account exists and no two participants share a Google ID, and
    otherwise nothing is written.  On success the stored activity is the maximum of
    the old and the new one; a non-empty participant list replaces the
    conversation's whole set, each row linked to this account's contact for that
    person if there is one, and an empty list leaves the set alone; no other
    conversation, no other conversation's participant and no message changes. *)
Theorem upsert_conversation_spec now a c db :
  rtc MsgStep empty_db db -> nul_free a = true -> nul_free (c_SourceID c) = true ->
  let id := ConversationID a (c_SourceID c) in
  (is_ok (UpsertConversation now a c db) = true <->
     a ∈ db_accounts db /\ NoDup (p_SourceID <$> c_Participants c)) /\
  (forall db' i, UpsertConversation now a c db = Ok (db', i) ->
     i = id /\ db_messages db' = db_messages db /\
     (forall k, k <> id -> db_conversations db' !! k = db_conversations db !! k) /\
     (exists r, db_conversations db' !! id = Some r /\ cv_account_id r = a /\
        cv_last_activity_ms r = Z.max (ms_or_zero (c_LastActivity c))
          (default (ms_or_zero (c_LastActivity c))
             (cv_last_activity_ms <$> db_conversations db !! id))) /\
     (forall pid r, db_participants db' !! pid = Some r <->
        (db_participants db !! pid = Some r /\
           (pt_conversation_id r <> id \/ c_Participants c = [])) \/
        exists p, p ∈ c_Participants c /\ pid = ParticipantID id (p_SourceID p) /\
          r = with_contact (contact_of a (p_SourceID p) (db_contacts db))
                (participant_row a id p))).
Proof.
  intros Hok%reachable_ok Ha Hs id. unfold UpsertConversation. fold id.
  rewrite (write_conversation_ok now a c db Hok Ha Hs). fold id.
  pose proof (write_conversation_good now a c db) as Hgood.
  rewrite (write_conversation_ok now a c db Hok Ha Hs) in Hgood. fold id in Hgood.
  set (row := match db_conversations db !! id with Some _ => _ | None => _ end) in *.
  case_decide as Hin; simpl; [|naive_solver].
  destruct (Hgood _ Ha Hs Hok eq_refl) as [[Hok1 _] Hex]. clear Hgood.
  set (db1 := set_conversations _ db) in *.
  assert (cv_account_id row = a /\ cv_last_activity_ms row =
    Z.max (ms_or_zero (c_LastActivity c)) (default (ms_or_zero (c_LastActivity c))
       (cv_last_activity_ms <$> db_conversations db !! id))) as [Hacc Hact].
  { unfold row. destruct (db_conversations db !! id) as [old|] eqn:E; simpl; [|split; lia || done].
    split; [|lia]. destruct (ok_conv db Hok id old E) as (Hid & ? & ? & _).
    by apply ConversationID_inj in Hid as [-> _]. }
  assert (db_conversations db1 !! id = Some row) as Hrow by apply lookup_insert_eq.
  assert (forall k, k <> id -> db_conversations db1 !! k = db_conversations db !! k) as Hother.
  { intros k Hk. by apply lookup_insert_ne. }
  destruct (c_Participants c) as [|p ps] eqn:Eps; simpl.
  - split; [split; [split; [done|constructor]|done]|]. intros db' i [= <- <-].
    split_and!; eauto. intros pid r. split; [tauto|]. intros [[? _]|(p & Hp & _)]; [done|].
    by apply not_elem_of_nil in Hp.
  - pose proof (UpsertParticipants_ok a id (p :: ps) db1 Hok1 Hin Hex) as Hnd.
    destruct (UpsertParticipants a id (p :: ps) db1) as [db2|] eqn:Eu; simpl in *.
    + symmetry in Hnd. rewrite bool_decide_eq_true in Hnd. split; [naive_solver|].
      intros db' i [= <- <-].
      destruct (UpsertParticipants_spec _ _ _ _ _ Eu) as (Hcv & Hms & Hpt).
      rewrite Hcv. split_and!; [done|by rewrite Hms|done|by eauto|].
      intros pid r. rewrite Hpt. naive_solver.
    + symmetry in Hnd. rewrite bool_decide_eq_false in Hnd. split; [naive_solver|done].
Qed.

(** Message listings.  A query that names neither an account nor a
    conversation, and does not ask for all accounts, is refused.  Any other one
    lists each selected row at most once, newest first with the ID as tiebreaker,
    and nothing else: rows of another account, of another conversation, or system
    events that were not asked for never appear; without a limit every selected row
    is listed, and a limit cuts off a prefix. *)
Theorem messages_listing f db :
  (Messages f db = None <->
     mf_AccountID f = ""%string /\ mf_ConversationID f = ""%string /\ mf_AllAccounts f = false) /\
  (forall l, Messages f db = Some l ->
     NoDup l.*1 /\ StronglySorted (newest_first ms_sent_at_ms) l /\
     (forall id r, (id, r) ∈ l -> db_messages db !! id = Some r /\
        (mf_AccountID f <> ""%string -> ms_account_id r = mf_AccountID f) /\
        (mf_ConversationID f <> ""%string -> ms_conversation_id r = mf_ConversationID f) /\
        (mf_IncludeSystem f = false -> ms_kind r = MessageKindMessage)) /\
     exists all, Messages (mkMessageFilter (mf_AccountID f) (mf_AllAccounts f)
         (mf_ConversationID f) (mf_IncludeSystem f) 0) db = Some all /\
       (forall id r, (id, r) ∈ all <->
          db_messages db !! id = Some r /\ message_selected f (id, r) = true) /\
       l = (if decide (mf_Limit f = 0%nat) then all else take (mf_Limit f) all)).
Proof.
  unfold Messages. simpl.
  destruct (bool_decide (mf_AccountID f = ""%string) &&
    bool_decide (mf_ConversationID f = ""%string) && negb (mf_AllAccounts f)) eqn:E.
  - bool_to_prop. naive_solver.
  - split.
    { split; [done|]. intros (Ha & Hc & Hall). by rewrite Ha, Hc, Hall in E. }
    intros l [= <-]. split_and!; [apply listing_NoDup|apply listing_sorted| |].
    + intros id r [Hr Hsel]%listing_elem. split; [done|]. unfold message_selected in Hsel.
      simpl in *. rewrite !andb_true_iff, !orb_true_iff, negb_true_iff in Hsel.
      rewrite !bool_decide_eq_true, bool_decide_eq_false in Hsel.
      destruct Hsel as [[? ?] ?]. split_and!; [naive_solver..|].
      intros Hs. destruct (ms_kind r); [done|]. naive_solver congruence.
    + eexists. split; [done|]. split.
      * intros id r. apply (listing_all ms_sent_at_ms (message_selected f) _ (id, r)).
      * destruct (decide (mf_Limit f = 0%nat)) as [Hl|]; [rewrite Hl; reflexivity|].
        apply (listing_limit ms_sent_at_ms (message_selected f)). lia.
Qed.

(** The text that is hashed does not separate its fields: a newline in the text
    can imitate the subject line, so an edit that moves the boundary is taken for a
    replay. *)
Lemma content_ambiguous :
  exists m1 m2, m_Text m1 <> m_Text m2 /\ ContentHash m1 = ContentHash m2.
Proof.
  exists (mkGmMessage "m" "c" "" "a" ("b" +:+ NL +:+ "subject:c") None "" 100 MessageKindMessage
    DeliveryStateReceived "" [] []).
  exists (mkGmMessage "m" "c" "" ("a" +:+ NL +:+ "subject:b") "c" None "" 100 MessageKindMessage
    DeliveryStateReceived "" [] []).
  split; [done|]. unfold ContentHash. f_equal.
Qed.
End Theorems.

(** ** Witnesses: one conversation, one sent message with a thumbnail part *)

#[export] Instance plain_digest : Digest := {
  digest_sha256 := plain_sha256;
  json_Marshal_bytes s := s;
}.

Definition demo_conv : GmConversation :=
  mkGmConversation "c1" "Ann" false ConversationTypeRCS SendModeAuto FolderInbox false false false
    false "me" "" (Some 5%Z) "" "" [mkGmParticipant "p1" "" "Ann" "" "" "" "" false true].

Definition demo_msg (raw : Z) : GmMessage :=
  mkGmMessage "m1" "c1" "p1" "hello" "" (Some 7%Z) "tmp_1" raw MessageKindMessage
    (DeliveryStateFor raw).1 "" [] [mkGmReaction (Some "x"%string) "custom" ["p1"]].

Definition demo_thumb (media : string) : GmAttachment :=
  mkGmAttachment 0 media "thumb" "" "a.jpg" "image/jpeg" "" 0 0 0.

Definition db_of {A} (r : Result StoreError (DB * A)) : DB :=
  match r with Ok (db, _) => db | Err _ => empty_db end.

Definition demo_account : DB := mkDB {["acct_1"%string]} ∅ ∅ ∅ ∅ ∅ ∅.
Definition demo_db1 : DB := db_of (UpsertConversation 1 "acct_1" demo_conv demo_account).
Definition demo_db2 : DB := db_of (UpsertMessage 2 "acct_1" "c1" (demo_msg 1) demo_db1).
Definition demo_msg_id : string := MessageID "acct_1" "c1" "m1".
Definition demo_conv_id : string := ConversationID "acct_1" "c1".
Definition demo_db3 : DB :=
  db_of (UpsertAttachment "acct_1" demo_msg_id (demo_thumb "") "" "pending" demo_db2).
(** A later backward report (sending), refused. *)
Definition demo_db4 : DB := db_of (UpsertMessage 3 "acct_1" "c1" (demo_msg 3) demo_db3).

Lemma db_of_ok {A} (r : Result StoreError (DB * A)) :
  is_ok r = true -> exists x, r = Ok (db_of r, x).
Proof. destruct r as [[db x]|]; [by exists x|done]. Qed.

Lemma demo_steps : rtc MsgStep empty_db demo_db3 /\ MsgStep demo_db3 demo_db4.
Proof.
  destruct (db_of_ok (UpsertConversation 1 "acct_1" demo_conv demo_account)) as [id1 H1];
    [vm_compute; reflexivity|].
  destruct (db_of_ok (UpsertMessage 2 "acct_1" "c1" (demo_msg 1) demo_db1)) as [res2 H2];
    [vm_compute; reflexivity|].
  destruct (db_of_ok (UpsertAttachment "acct_1" demo_msg_id (demo_thumb "") "" "pending" demo_db2))
    as [id3 H3]; [vm_compute; reflexivity|].
  destruct (db_of_ok (UpsertMessage 3 "acct_1" "c1" (demo_msg 3) demo_db3)) as [res4 H4];
    [vm_compute; reflexivity|].
  split.
  - apply (rtc_l _ _ demo_account).
    { by apply (step_account empty_db "acct_1"). }
    apply (rtc_l _ _ demo_db1); [by eapply step_conversation; [..|exact H1]|].
    apply (rtc_l _ _ demo_db2); [by eapply step_message; [..|exact H2]|].
    apply rtc_once. eapply step_attachment; [apply MessageID_nul_free|exact H3].
  - by eapply step_message; [..|exact H4].
Qed.

Lemma demo_reachable : rtc MsgStep empty_db demo_db3.
Proof. apply demo_steps. Qed.

(** A stored row, by evaluation. *)
Definition demo_row : MessageRow :=
  default (message_values 0 "" "" (demo_msg 0)) (db_messages demo_db3 !! demo_msg_id).
Definition demo_part : AttachmentRow :=
  default (attachment_values "" "" (demo_thumb "") "" "")
    (db_attachments demo_db3 !! AttachmentID demo_msg_id "0" "").

Lemma demo_row_stored : db_messages demo_db3 !! demo_msg_id = Some demo_row.
Proof. vm_compute. reflexivity. Qed.
Lemma demo_part_stored :
  db_attachments demo_db3 !! AttachmentID demo_msg_id "0" "" = Some demo_part.
Proof. vm_compute. reflexivity. Qed.

Example message_history_witness :
  exists r', db_messages demo_db4 !! demo_msg_id = Some r' /\
    TransitionAllowed DeliveryStateSent (ms_delivery_state r') = true.
Proof.
  destruct (message_history demo_db3 demo_db4 demo_msg_id demo_row demo_reachable
    demo_row_stored (rtc_once _ _ (proj2 demo_steps)))
    as (r' & Hr' & _ & _ & _ & _ & _ & _ & Hd & _).
  exists r'. split; [exact Hr'|]. apply Hd. vm_compute. reflexivity.
Defined.

Example upsert_message_spec_witness :
  exists db' res, UpsertMessage 3 "acct_1" "c1" (demo_msg 3) demo_db3 = Ok (db', res) /\
    res_PreviousState res = Some (ms_delivery_state demo_row).
Proof.
  pose proof (upsert_message_spec 3 "acct_1" "c1" (demo_msg 3) demo_db3 demo_reachable
    eq_refl eq_refl eq_refl) as Hspec.
  change (MessageID "acct_1" "c1" (m_SourceID (demo_msg 3))) with demo_msg_id in Hspec.
  cbv zeta in Hspec. rewrite demo_row_stored in Hspec.
  destruct Hspec as (db' & res & Heq & _ & _ & Hp & _). exists db', res. split; [exact Heq|exact Hp].
Defined.

Example replay_writes_nothing_witness :
  exists id prev, UpsertMessage 9 "acct_1" "c1" (demo_msg 3) demo_db4 =
    Ok (demo_db4, mkUpsertMessageResult id false false false prev).
Proof.
  destruct (db_of_ok (UpsertMessage 3 "acct_1" "c1" (demo_msg 3) demo_db3)) as [res Hres];
    [vm_compute; reflexivity|].
  exists (res_ID res).
  exact (replay_writes_nothing 3 9 "acct_1" "c1" (demo_msg 3) demo_db3 demo_db4 res Hres).
Defined.

Example attachment_history_witness :
  exists r', db_attachments demo_db4 !! AttachmentID demo_msg_id "0" "" = Some r' /\
    at_message_id r' = demo_msg_id.
Proof.
  destruct (attachment_history demo_db3 demo_db4 (AttachmentID demo_msg_id "0" "") demo_part
    demo_reachable demo_part_stored (rtc_once _ _ (proj2 demo_steps)))
    as (r' & Hr' & _ & Hm & _).
  exists r'. split; [exact Hr'|]. rewrite Hm. vm_compute. reflexivity.
Defined.

(** The full-size media of the thumbnail part arrives: refused. *)
Example attachment_media_id_frozen_witness :
  UpsertAttachment "acct_1" demo_msg_id (demo_thumb "media_1") "" "available" demo_db3
    = Err ErrUnique.
Proof.
  exact (attachment_media_id_frozen "acct_1" demo_msg_id (demo_thumb "media_1") "" "available"
    demo_db3 (AttachmentID demo_msg_id "0" "") demo_part demo_reachable demo_part_stored
    eq_refl eq_refl).
Defined.

Example reactions_set_replace_witness :
  exists t, ReplaceReactions 4 demo_conv_id demo_msg_id "" (m_Reactions (demo_msg 1)) demo_db3
    = Ok (set_reactions t demo_db3).
Proof.
  destruct (reactions_set_replace 4 demo_conv_id demo_msg_id "" (m_Reactions (demo_msg 1)) demo_db3
    demo_reachable (clean_entries_derived demo_conv_id _ ltac:(discriminate)) (ex_intro _ _ demo_row_stored))
    as (t & Ht & _).
  exists t. exact Ht.
Defined.

Example conversation_activity_monotone_witness :
  exists r', db_conversations (BumpConversationActivity 9 demo_conv_id demo_msg_id 4 demo_db3)
      !! demo_conv_id = Some r' /\ cv_last_activity_ms r' = 5%Z.
Proof.
  destruct (db_conversations demo_db3 !! demo_conv_id) as [r|] eqn:E; [|vm_compute in E; discriminate E].
  destruct (proj2 (conversation_activity_monotone demo_db3 demo_db3 demo_conv_id r 9 demo_msg_id 4
    demo_reachable E)) as (r' & Hr' & Ha & _).
  exists r'. split; [exact Hr'|]. rewrite Ha. vm_compute in E. injection E as <-. reflexivity.
Defined.

Example upsert_conversation_spec_witness :
  is_ok (UpsertConversation 8 "acct_1" demo_conv demo_db3) = true.
Proof.
  apply (proj1 (upsert_conversation_spec 8 "acct_1" demo_conv demo_db3 demo_reachable
    eq_refl eq_refl)).
  split; [apply (bool_decide_unpack _); vm_compute; exact I|].
  apply (bool_decide_unpack _). vm_compute. exact I.
Defined.

Example messages_listing_witness :
  exists l, Messages (mkMessageFilter "acct_1" false "" false 1) demo_db3 = Some l /\
    NoDup l.*1.
Proof.
  eexists. split; [reflexivity|].
  apply (proj2 (messages_listing (mkMessageFilter "acct_1" false "" false 1) demo_db3) _ eq_refl).
Defined.
