(* ===== verification/Capability.v ===== *)
(** * Refusals that come before any operation row
      (internal/apierr/error.go, internal/core/capability.go, internal/core/accounts.go)

    The constructors of public errors, the prefix rule for IDs, the choice of an
    account for a request, the account and object checks.  Every check is a pure
    function that returns an error or nothing; the theorems say exactly when each
    one refuses and with which code, status and reason. *)

From S2P Require Import Prelude Delivery Ids Messages Errors.

(** [strconv.Quote], the [%q] verb. *)
Class GoFmt := { strconv_Quote : string -> string }.

Section Capability.
Context `{GoFmt}.

Definition details_of (l : list (string * DetailValue)) : gmap string DetailValue := list_to_map l.

(** ** Constructors *)

Definition MissingParameter (name : string) : ApiFields :=
  withDetails CodeInvalidRequest (name +:+ " is required") (details_of [("parameter", DString name)]).

Definition WrongIDPrefix (parameter expectedPrefix : string) : ApiFields :=
  withDetails CodeInvalidRequest
    (parameter +:+ " must be an Agent GM ID beginning with " +:+ strconv_Quote expectedPrefix)
    (details_of [("parameter", DString parameter); ("expected_prefix", DString expectedPrefix)]).

Definition CheckIDPrefix (value parameter expectedPrefix : string) : option ApiFields :=
  if decide (value = ""%string) then Some (MissingParameter parameter)
  else if (String.length value <=? String.length expectedPrefix)%nat ||
          negb (bool_decide (take_bytes (String.length expectedPrefix) value = expectedPrefix))
  then Some (WrongIDPrefix parameter expectedPrefix)
  else None.

Definition WrongTypeForField (field want : string) : ApiFields :=
  withDetails CodeInvalidRequest ("body field " +:+ strconv_Quote field +:+ " must be " +:+ want)
    (details_of [("field", DString field)]).

Definition MalformedBody (reason : string) : ApiFields :=
  New CodeInvalidRequest ("the request body could not be read as JSON: " +:+ reason).

Definition IDFromAnotherAccount (parameter id accountID : string) : ApiFields :=
  withDetails CodeInvalidRequest
    (parameter +:+ " " +:+ id +:+ " belongs to a different account than account_id " +:+ accountID +:+
     "; the thread still exists, so drop account_id or name the owning account")
    (details_of [("parameter", DString parameter); ("id", DString id);
                 ("account_id", DString accountID)]).

Definition AmbiguousAccount (candidates : list (string * string * string)) : ApiFields :=
  withDetails CodeInvalidRequest
    "more than one account exists, so a write must name one in account_id; the candidates are in details.accounts"
    (details_of [("field", DString "account_id"); ("accounts", DAccounts candidates)]).

Definition NotFound (what : string) : ApiFields := New CodeNotFound ("No such " +:+ what +:+ ".").

Definition NotPaired : ApiFields :=
  New CodeNotPaired "no Google account is paired; run `agm pair` first".

Definition IdempotencyConflict (key : string) : ApiFields :=
  withDetails CodeIdempotencyConflict
    ("idempotency key " +:+ strconv_Quote key +:+
     " was already used with a different request body; nothing was done")
    (details_of [("idempotency_key", DString key)]).

(** The [%v] form of the capability's value. *)
Definition show_detail (v : DetailValue) : string :=
  match v with
  | DInt z => pretty z
  | DString s => s
  | DBool b => if b then "true" else "false"
  | DReason r => r
  | DAccounts _ => ""
  end.

Definition UnsupportedCapability (reason objectID action capability : string)
    (current : DetailValue) : ApiFields :=
  withDetails CodeUnsupportedCapability
    ("cannot " +:+ action +:+ " " +:+ objectID +:+ ": " +:+ reason +:+ " (" +:+ capability +:+
     " is " +:+ show_detail current +:+ ")")
    (details_of [("reason", DReason reason); ("object_id", DString objectID);
                 ("action", DString action); ("capability", DString capability);
                 ("capability_value", current)]).

Definition ReasonConversationReadOnly : string := "conversation_read_only".
Definition ReasonConversationDeleted : string := "conversation_deleted".
Definition ReasonNotMyMessage : string := "not_my_message".
Definition ReasonNotMyReaction : string := "not_my_reaction".
Definition ReasonReplyNotSupported : string := "reply_not_supported".
Definition ReasonRCSNotAvailable : string := "rcs_not_available".
Definition ReasonMediaPending : string := "media_pending".

(** ** The object checks of capability.go *)

Definition CheckConversationActionable (id : string) (c : ConversationRow) (action : string)
    : option ApiFields :=
  if cv_read_only c then
    Some (UnsupportedCapability ReasonConversationReadOnly id action "read_only" (DBool true))
  else if bool_decide (scanInt (cv_deleted_at_ms c) <> 0%Z) then
    Some (UnsupportedCapability ReasonConversationDeleted id action "deleted" (DBool true))
  else None.

Definition ConversationType_string (t : ConversationType) : string :=
  match t with
  | ConversationTypeUnknown => "unknown"
  | ConversationTypeSMSMMS => "sms_mms"
  | ConversationTypeRCS => "rcs"
  end.

Definition CheckReplySupported (id : string) (c : ConversationRow) (replyToMessageID : string)
    : option ApiFields :=
  if decide (replyToMessageID = ""%string) then None
  else if decide (cv_conversation_type c = ConversationTypeRCS) then None
  else Some (UnsupportedCapability ReasonReplyNotSupported id "reply" "conversation_type"
               (DString (ConversationType_string (cv_conversation_type c)))).

Definition CheckForceRCS (id : string) (c : ConversationRow) (forceRCS : bool) : option ApiFields :=
  if negb forceRCS || cv_force_rcs_eligible c then None
  else Some (UnsupportedCapability ReasonRCSNotAvailable id "send" "force_rcs" (DBool false)).

Definition Direction_string (d : Direction) : string :=
  match d with DirectionIncoming => "incoming" | DirectionOutgoing => "outgoing" end.

Definition CheckMyMessage (id : string) (m : MessageRow) (action : string) : option ApiFields :=
  if decide (ms_direction m = DirectionOutgoing) then None
  else Some (UnsupportedCapability ReasonNotMyMessage id action "direction"
               (DString (Direction_string (ms_direction m)))).

Definition CheckMyReaction (r : ReactionRow) : option ApiFields :=
  if re_is_mine r then None
  else Some (UnsupportedCapability ReasonNotMyReaction (re_id r) "remove_reaction" "is_mine"
               (DBool false)).

Definition CheckMediaReady (id : string) (att : AttachmentRow) (action : string)
    : option ApiFields :=
  if decide (at_download_state att = DownloadStateAvailable) then None
  else Some (UnsupportedCapability ReasonMediaPending id action "download_state"
               (DString (at_download_state att))).

(** ** Choosing an account (core/accounts.go) *)

Record AccountRef := mkAccountRef { ref_ID : string; ref_GoogleAccount : string; ref_State : string }.

Inductive Intent : Type := Read | Write.

Record Resolution := mkResolution { res_AccountID : string; res_AllAccounts : bool }.

Definition toCandidates (accounts : list AccountRef) : list (string * string * string) :=
  (fun a => (ref_ID a, ref_GoogleAccount a, ref_State a)) <$> accounts.

Definition ResolveAccount `{UUID} (requested : string) (accounts : list AccountRef)
    (intent : Intent) : Result ApiFields Resolution :=
  if decide (requested <> ""%string) then
    if negb (HasPrefix requested PrefixAccount)
    then Err (WrongIDPrefix "account_id" PrefixAccount)
    else if existsb (fun a => bool_decide (ref_ID a = requested)) accounts
    then Ok (mkResolution requested false)
    else Err (NotFound "account")
  else match accounts with
       | [a] => Ok (mkResolution (ref_ID a) false)
       | [] => match intent with
               | Write => Err NotPaired
               | Read => Ok (mkResolution "" true)
               end
       | _ => match intent with
              | Read => Ok (mkResolution "" true)
              | Write => Err (AmbiguousAccount (toCandidates accounts))
              end
       end.

Definition CheckObjectAccount (param objectID objectAccountID requestedAccountID : string)
    : option ApiFields :=
  if bool_decide (requestedAccountID = ""%string) ||
     bool_decide (objectAccountID = requestedAccountID)
  then None
  else Some (IDFromAnotherAccount param objectID requestedAccountID).

Definition WritableStates (s : string) : bool :=
  bool_decide (s = "connected"%string) || bool_decide (s = "degraded"%string).

Definition CheckAccountWritable (a : AccountRef) : option ApiFields :=
  if WritableStates (ref_State a) then None
  else Some (UnsupportedCapability ReasonNotSignedIn (ref_ID a) "write to" "state"
               (DString (ref_State a))).
End Capability.

(** ** Lemmas *)
Section Lemmas.
Context `{GoFmt}.

(** A refused capability: the documented code, status and reason, and the object. *)
Definition refuses (reason id : string) (e : ApiFields) : Prop :=
  api_Code e = CodeUnsupportedCapability /\ ApiError_HTTPStatus e = 409%Z /\
  ApiError_Retryable e = false /\
  api_Details e !! "reason"%string = Some (DReason reason) /\
  api_Details e !! "object_id"%string = Some (DString id) /\
  reason ∈ Reasons.

Lemma UnsupportedCapability_refuses reason id action capability v :
  reason ∈ Reasons -> refuses reason id (UnsupportedCapability reason id action capability v).
Proof. intros Hr. split_and!; [vm_compute; reflexivity..|exact Hr]. Qed.
End Lemmas.

(** A check passes exactly when [P] holds, and otherwise refuses with [reason]. *)
Definition verdict (P : Prop) (reason id : string) (c : option ApiFields) : Prop :=
  (c = None <-> P) /\ forall e, c = Some e -> refuses reason id e.

Ltac solve_verdict :=
  split;
  [repeat case_match; bool_to_prop; rewrite ?orb_true_iff, ?negb_true_iff, ?bool_decide_eq_true in *;
   intuition (congruence || lia)
  |intros e; repeat case_match; intros [= <-];
   apply UnsupportedCapability_refuses; apply (bool_decide_unpack _); vm_compute; exact I].

(** ** Properties *)
Section Theorems.
Context `{GoFmt}.

(** The object checks.  Each check passes exactly when the object allows the
    action, and otherwise refuses with [unsupported_capability], a 409 that is never
    retryable, whose details name the object and a reason of the closed list: a
    read-only thread before a deleted one; a reply outside RCS; forced RCS on a
    thread that cannot; another person's message or reaction; media that is not
    downloadable yet; an account that is not signed in. *)
Theorem capability_checks_exact id c m k r att acc action reply force :
  (cv_read_only c = true ->
     verdict False ReasonConversationReadOnly id (CheckConversationActionable id c action)) /\
  (cv_read_only c = false ->
     verdict (scanInt (cv_deleted_at_ms c) = 0%Z) ReasonConversationDeleted id
       (CheckConversationActionable id c action)) /\
  verdict (reply = ""%string \/ cv_conversation_type c = ConversationTypeRCS)
    ReasonReplyNotSupported id (CheckReplySupported id c reply) /\
  verdict (force = true -> cv_force_rcs_eligible c = true)
    ReasonRCSNotAvailable id (CheckForceRCS id c force) /\
  verdict (ms_direction m = DirectionOutgoing) ReasonNotMyMessage k (CheckMyMessage k m action) /\
  verdict (re_is_mine r = true) ReasonNotMyReaction (re_id r) (CheckMyReaction r) /\
  verdict (at_download_state att = DownloadStateAvailable) ReasonMediaPending id
    (CheckMediaReady id att action) /\
  verdict (ref_State acc = "connected"%string \/ ref_State acc = "degraded"%string)
    ReasonNotSignedIn (ref_ID acc) (CheckAccountWritable acc).
Proof.
  split_and!; intros; unfold verdict, CheckConversationActionable, CheckReplySupported,
    CheckForceRCS, CheckMyMessage, CheckMyReaction, CheckMediaReady, CheckAccountWritable,
    WritableStates.
  1, 2: match goal with E : cv_read_only _ = _ |- _ => rewrite E; clear E end.
  all: solve_verdict.
Qed.

(** The choice of an account.  A named account must have the prefix of an account
    ID and exist; without a name, the only account is taken; a read over several or
    no accounts covers all of them, a write over none is [not_paired] and over several
    is refused with the candidates.  So a write always lands on exactly one existing
    account. *)
Theorem resolve_account_spec `{UUID} requested accounts intent :
  match ResolveAccount requested accounts intent with
  | Ok res =>
      (res_AllAccounts res = false ->
         exists a, a ∈ accounts /\ ref_ID a = res_AccountID res /\
           (requested <> ""%string -> res_AccountID res = requested)) /\
      (res_AllAccounts res = true ->
         intent = Read /\ requested = ""%string /\ length accounts <> 1%nat /\
         res_AccountID res = ""%string)
  | Err e =>
      (requested <> ""%string /\ HasPrefix requested PrefixAccount = false /\
         api_Code e = CodeInvalidRequest /\
         api_Details e !! "expected_prefix"%string = Some (DString PrefixAccount)) \/
      (requested <> ""%string /\ HasPrefix requested PrefixAccount = true /\
         (forall a, a ∈ accounts -> ref_ID a <> requested) /\ api_Code e = CodeNotFound) \/
      (requested = ""%string /\ intent = Write /\ accounts = [] /\ api_Code e = CodeNotPaired) \/
      (requested = ""%string /\ intent = Write /\ (2 <= length accounts)%nat /\
         api_Code e = CodeInvalidRequest /\
         api_Details e !! "accounts"%string = Some (DAccounts (toCandidates accounts)))
  end.
Proof.
  unfold ResolveAccount. destruct (decide (requested <> ""%string)) as [Hne|He].
  - destruct (HasPrefix requested PrefixAccount) eqn:Hp; simpl; [|left; by split_and!].
    destruct (existsb _ accounts) eqn:Hex.
    + apply existsb_exists in Hex as (a & Ha & Hid%bool_decide_eq_true).
      apply list_elem_of_In in Ha. split; [|done]. intros _. by exists a.
    + right. left. split_and!; [done..| |done]. intros a Ha Hid.
      rewrite <- not_true_iff_false, existsb_exists in Hex. apply Hex. exists a.
      rewrite bool_decide_eq_true. by apply list_elem_of_In in Ha.
  - assert (requested = ""%string) as -> by (by destruct (decide (requested = ""%string))).
    destruct accounts as [|a [|b l]]; [destruct intent|destruct intent|destruct intent]; simpl.
    + by split.
    + right. right. left. done.
    + split; [|done]. intros _. exists a. split_and!; [apply elem_of_cons; auto|done|done].
    + split; [|done]. intros _. exists a. split_and!; [apply elem_of_cons; auto|done|done].
    + by split.
    + right. right. right. split_and!; [done|done|simpl; lia|done|by vm_compute].
Qed.
End Theorems.

(** [NotFound] completes a sentence, so a full sentence is doubled. *)
Lemma not_found_doubled :
  api_Message (NotFound "No such conversation.") = "No such No such conversation.."%string.
Proof. reflexivity. Qed.

(** ** Witnesses *)

Example capability_checks_exact_witness :
  CheckConversationActionable "conv_1" (mkConversationRow "a" "c" None false ConversationTypeRCS
    SendModeAuto "inbox" false false false false None None 0 None None None 0 0) "send" = None.
Proof.
  apply (proj1 (proj2 (capability_checks_exact "conv_1" (mkConversationRow "a" "c" None
    false ConversationTypeRCS SendModeAuto "inbox" false false false false None None 0 None
    None None 0 0)
    (mkMessageRow "a" "conv_1" "m" MessageKindMessage DirectionOutgoing None None None
       DeliveryStateSent 1 None None None false 0 0 0 "")
    "msg_1" (mkReactionRow "react_1" None "like" true 0)
    (mkAttachmentRow "a" "msg_1" 0 None None None None None None None None None "pending" None)
    (mkAccountRef "acct_1" "x" "connected") "send" "" false)) eq_refl).
  reflexivity.
Defined.
