(* ===== verification/Pipeline.v ===== *)
(** * The mutation pipeline (internal/core/operations.go, internal/core/send.go)

    [runOperation] is steps 7 to 11 of every mutation: look the idempotency key up,
    insert the operation as running, make the library call, record the outcome.  The
    library call is an argument: a function from the operation and the state of the
    process to a new state, an outcome and an error, so that it stands for anything
    that happens while the call is in flight, other requests and the remote echo
    included.  The theorems say which requests reach the call, that a keyed request
    reaches it at most once, and what each outcome makes of the operation. *)

From S2P Require Import Prelude Delivery Ids Operations Errors GoStrings Messages Capability.

(** ** Operation kinds *)

Definition KindSendText : string := "send_text".
Definition KindSendMedia : string := "send_media".
Definition KindStartConversation : string := "start_conversation".
Definition KindMarkRead : string := "mark_read".
Definition KindAddReaction : string := "add_reaction".
Definition KindRemoveReaction : string := "remove_reaction".
Definition KindDeleteMessage : string := "delete_message".
Definition KindDeleteConv : string := "delete_conversation".

Definition MaxIdempotencyKeyBytes : nat := 200.

(** ** The request fingerprint (internal/store/operations.go) *)

(** What [json.Decode] with [UseNumber] puts into an [any]. *)
Inductive JSON : Type :=
| JNull
| JBool (b : bool)
| JNumber (literal : string)
| JString (s : string)
| JArray (l : list JSON)
| JObject (m : list (string * JSON)).  (** a map: its keys in any order *)

(** [encoding/json]: decoding, with its error text, and encoding of one string. *)
Class JSONLib := {
  json_Decode : string -> Result string JSON;
  json_Marshal_string : string -> string;
}.

(** [sort.Strings] on the keys. *)
Definition key_le (x y : string * string) : Prop := String.le x.1 y.1.

#[export] Instance key_le_dec : RelDecision key_le.
Proof. intros x y. unfold key_le. apply _. Defined.

Section Fingerprint.
Context `{JSONLib} `{Digest}.

Definition write_field (kv : string * string) : string :=
  json_Marshal_string kv.1 +:+ ":" +:+ kv.2.

Fixpoint canonicalJSON (v : JSON) : string :=
  match v with
  | JObject m =>
      "{" +:+ String.concat ","
        (List.map write_field (merge_sort key_le
           (List.map (fun kv : string * JSON => let '(k, e) := kv in (k, canonicalJSON e)) m)))
      +:+ "}"
  | JArray l => "[" +:+ String.concat "," (List.map canonicalJSON l) +:+ "]"
  | JString s => json_Marshal_string s
  | JNumber n => n
  | JBool true => "true"
  | JBool false => "false"
  | JNull => "null"
  end.

(** [len(bytes.TrimSpace(body)) == 0]. *)
Definition blank (body : string) : bool := forallb IsSpace (runes body).

Definition RequestFingerprint (body : string) : Result string string :=
  if blank body then Ok (sha256_hex (canonicalJSON JNull))
  else match json_Decode body with
       | Ok v => Ok (sha256_hex (canonicalJSON v))
       | Err text => Err ("fingerprinting request body: " +:+ text)
       end.
End Fingerprint.

(** ** The shape of an idempotency key *)

Definition isControl (r : Z) : bool := (r <? 0x20)%Z || (r =? 0x7f)%Z.

Definition idempotencyKeyInvalid (msg : string) : ApiFields :=
  withDetails CodeInvalidRequest msg (details_of [("field", DString "Idempotency-Key")]).

Definition ValidateIdempotencyKey (key : string) : option ApiFields :=
  if decide (key = ""%string) then None
  else if (MaxIdempotencyKeyBytes <? String.length key)%nat then
    Some (idempotencyKeyInvalid ("Idempotency-Key must be at most " +:+
            pretty MaxIdempotencyKeyBytes +:+ " bytes"))
  else if negb (ValidString key) then
    Some (idempotencyKeyInvalid "Idempotency-Key must be valid UTF-8")
  else if ContainsFunc isControl key then
    Some (idempotencyKeyInvalid "Idempotency-Key must not contain control characters")
  else None.

(** ** The state of the process and the shared request *)

Record World := mkWorld {
  w_ops : ops_table;
  w_db : DB;
  w_accounts : gmap string AccountRef;  (** the accounts table: address and state *)
}.

Definition set_ops (ops : ops_table) (w : World) : World := mkWorld ops (w_db w) (w_accounts w).
Definition set_db (db : DB) (w : World) : World := mkWorld (w_ops w) db (w_accounts w).

Record Request := mkRequest {
  rq_AuthorizationID : string;
  rq_Key : string;
  rq_Body : string;
  rq_ConversationID : string;
}.

Record Outcome := mkOutcome {
  out_MessageID : string;
  out_ConversationID : string;
  out_GoogleStatusRaw : Z;
}.

Definition no_outcome : Outcome := mkOutcome "" "" 0.

(** [HasOperation] is [Some]; the error is returned beside the result. *)
Record MutationResult := mkMutationResult {
  rs_Operation : option Operation;
  rs_Replayed : bool;
  rs_Changed : bool;
  rs_err : option GoError;
}.

Definition api_error (e : ApiFields) : GoError := EApi e None.

Definition refused (e : GoError) : MutationResult := mkMutationResult None false false (Some e).

(** An error of the store that is not one of the typed refusals. *)
Definition store_error (e : OpStoreError) : GoError :=
  EOther match e with
         | ErrOperationTransition _ _ => "operation status transition not allowed"
         | ErrOperationNotFound => "operation not found"
         | ErrConstraint => "constraint failed"
         | ErrNoRows => "sql: no rows in result set"
         end.

(** The clock readings and fresh identifiers one run takes. *)
Record RunEnv := mkRunEnv {
  env_op_id : string;       (** store.OperationID() *)
  env_tmp_id : string;      (** gm.GenerateTmpID() *)
  env_insert_ms : Z;
  env_media_ms : Z;
  env_settle_ms : Z;
}.

Definition Call : Type := Operation -> World -> World * (Outcome * option GoError).

Section Pipeline.
Context `{GoFmt} `{JSONLib} `{Digest}.

Definition idempotencyKeyCrossedAccounts (key firstAccount thisAccount : string) : ApiFields :=
  withDetails CodeInvalidRequest
    ("Idempotency-Key " +:+ strconv_Quote key +:+ " was already used for this kind against account " +:+
     firstAccount +:+ "; reusing it against " +:+ thisAccount +:+
     " is not a replay -- it would send a second real message to a real person. Use a fresh key for a genuinely new send.")
    (details_of [("field", DString "Idempotency-Key"); ("account_id", DString firstAccount);
                 ("other_account_id", DString thisAccount)]).

Definition tmpIDFor (env : RunEnv) (kind : string) : string :=
  if decide (kind = KindSendText \/ kind = KindSendMedia) then env_tmp_id env else ""%string.

(** ** settle *)

Definition settlement_of (outcome : Outcome) (callErr : option GoError) : Settlement :=
  match callErr with
  | None => {|
      st_Status := OpSucceeded; st_MessageID := out_MessageID outcome;
      st_ConversationID := out_ConversationID outcome; st_ErrorCode := "";
      st_ErrorMessage := ""; st_ErrorRetryable := false;
      st_GoogleStatusRaw := out_GoogleStatusRaw outcome |}
  | Some err =>
      let e := fields (classify_error err) in {|
      st_Status := if KeepsOperationPending e then OpPending else OpFailed;
      st_MessageID := out_MessageID outcome; st_ConversationID := out_ConversationID outcome;
      st_ErrorCode := Code e; st_ErrorMessage := Message e; st_ErrorRetryable := Retryable e;
      st_GoogleStatusRaw := if decide (GoogleStatusRaw e <> 0%Z) then GoogleStatusRaw e
                            else out_GoogleStatusRaw outcome |}
  end.

Definition settle (now : Z) (op : Operation) (outcome : Outcome) (callErr : option GoError)
    (ops : ops_table) : Result OpStoreError (ops_table * Operation) :=
  SettleOperation now (o_ID op) (settlement_of outcome callErr) ops.

(** ** runOperation *)

Inductive KeyLookup : Type :=
| LookupRefused (e : ApiFields)
| LookupReplay (op : Operation)
| LookupNew.

(** Steps 7b and 7c. *)
Definition lookup_key (accountID kind fingerprint : string) (req : Request) (ops : ops_table)
    : KeyLookup :=
  if decide (rq_Key req = ""%string) then LookupNew
  else
    let '(other, used) :=
      KeyUsedByAnotherAccount (rq_AuthorizationID req) kind (rq_Key req) accountID ops in
    if used then LookupRefused (idempotencyKeyCrossedAccounts (rq_Key req) other accountID)
    else match OperationByKey (rq_AuthorizationID req) accountID kind (rq_Key req) ops with
         | Ok existing =>
             if decide (o_RequestFingerprint existing = fingerprint) then LookupReplay existing
             else LookupRefused (IdempotencyConflict (rq_Key req))
         | Err _ => LookupNew
         end.

Definition new_operation (env : RunEnv) (accountID kind fingerprint : string) (req : Request)
    : NewOperation := {|
  new_id := env_op_id env; new_account_id := accountID; new_kind := kind;
  new_authorization_id := rq_AuthorizationID req; new_idempotency_key := rq_Key req;
  new_request_fingerprint := fingerprint; new_conversation_id := rq_ConversationID req;
  new_message_id := ""; new_tmp_id := tmpIDFor env kind; new_request_payload_json := "";
|}.

(** Steps 8 to 11. *)
Definition execute (env : RunEnv) (accountID kind fingerprint : string) (req : Request)
    (call : Call) (w : World) : World * MutationResult :=
  match InsertOperation (env_insert_ms env) (env_op_id env)
          (new_operation env accountID kind fingerprint req) (w_ops w) with
  | Err e => (w, refused (store_error e))
  | Ok ops1 =>
      let w1 := set_ops ops1 w in
      match ReadOperation (env_op_id env) ops1 with
      | Err e => (w1, refused (store_error e))
      | Ok op =>
          let '(w2, (outcome, callErr)) := call op w1 in
          match settle (env_settle_ms env) op outcome callErr (w_ops w2) with
          | Err e => (w2, mkMutationResult (Some op) false false (Some (store_error e)))
          | Ok (ops3, settled) =>
              (set_ops ops3 w2,
               mkMutationResult (Some settled) false (bool_decide (callErr = None)) callErr)
          end
      end
  end.

Definition runOperation (env : RunEnv) (accountID kind : string) (req : Request) (call : Call)
    (w : World) : World * MutationResult :=
  match ValidateIdempotencyKey (rq_Key req) with
  | Some e => (w, refused (api_error e))
  | None =>
      match RequestFingerprint (rq_Body req) with
      | Err text => (w, refused (api_error (MalformedBody text)))
      | Ok fingerprint =>
          match lookup_key accountID kind fingerprint req (w_ops w) with
          | LookupRefused e => (w, refused (api_error e))
          | LookupReplay op => (w, mkMutationResult (Some op) true false None)
          | LookupNew => execute env accountID kind fingerprint req call w
          end
      end
  end.

(** ** SendWithRetry *)

(** gm.SendRetryBackoff, in milliseconds. *)
Definition SendRetryBackoff : list Z := [3000; 8000; 20000]%Z.

(** The loop, over the backoffs that are left; [attempt] is one library send and
    [sleep] the clock's [Sleep], which fails when the context is done. *)
Fixpoint send_loop {S : Type} (attempt : S -> S * (Z * option GoError))
    (sleep : Z -> S -> S * option GoError) (backoff : list Z) (s : S)
    : S * (Z * option GoError) :=
  let '(s1, (status, err)) := attempt s in
  match err with
  | Some e => (s1, (status, Some e))
  | None =>
      if decide (status = SendStatusSuccess) then (s1, (status, None))
      else if negb (IsTransient status) then (s1, (status, Some (error_of (SendFailure status))))
      else match backoff with
           | [] => (s1, (status, Some (error_of (SendFailure status))))
           | d :: rest =>
               let '(s2, serr) := sleep d s1 in
               match serr with
               | Some e => (s2, (status, Some e))
               | None => send_loop attempt sleep rest s2
               end
           end
  end.

Definition SendWithRetry {S : Type} (attempt : S -> S * (Z * option GoError))
    (sleep : Z -> S -> S * option GoError) (s : S) : S * (Z * option GoError) :=
  send_loop attempt sleep SendRetryBackoff s.
End Pipeline.

(** ** Lemmas *)

Lemma isControl_ascii r : isControl r = true -> (r < 0x80)%Z.
Proof. unfold isControl. rewrite orb_true_iff, Z.ltb_lt, Z.eqb_eq. lia. Qed.

Section Lemmas.
Context `{GoFmt} `{JSONLib} `{Digest}.

Lemma used_elsewhere_true auth kind key a r :
  used_elsewhere auth kind key a r = true <->
  op_authorization_id r = auth /\ op_kind r = kind /\ op_idempotency_key r = Some key /\
  op_account_id r <> a.
Proof.
  unfold used_elsewhere.
  rewrite !andb_true_iff, negb_true_iff, !bool_decide_eq_true, bool_decide_eq_false. tauto.
Qed.

Lemma same_idempotency_true auth account kind key r :
  same_idempotency auth account kind key r = true <->
  op_authorization_id r = auth /\ op_account_id r = account /\ op_kind r = kind /\
  op_idempotency_key r = Some key.
Proof.
  unfold same_idempotency. rewrite !andb_true_iff, !bool_decide_eq_true. tauto.
Qed.

(** The cross-account lookup: some row elsewhere, and the account it names. *)
Lemma KeyUsed_spec auth kind key a ops :
  key <> ""%string ->
  match KeyUsedByAnotherAccount auth kind key a ops with
  | (other, true) => exists id r, ops !! id = Some r /\
      used_elsewhere auth kind key a r = true /\ other = op_account_id r
  | (_, false) => forall id r, ops !! id = Some r -> used_elsewhere auth kind key a r = false
  end.
Proof.
  intros Hk. unfold KeyUsedByAnotherAccount. rewrite decide_False by done.
  destruct (first_by op_created_at_ms _) as [r|] eqn:E.
  - apply first_by_elem, elem_of_select_where in E as (id & Hid & Hr). eauto.
  - rewrite first_by_None, select_where_nil in E. exact E.
Qed.

Lemma OperationByKey_spec auth account kind key ops :
  key <> ""%string ->
  match OperationByKey auth account kind key ops with
  | Ok o => exists id r, ops !! id = Some r /\
      same_idempotency auth account kind key r = true /\ o = scanOperation r
  | Err _ => forall id r, ops !! id = Some r -> same_idempotency auth account kind key r = false
  end.
Proof.
  intros Hk. unfold OperationByKey. rewrite decide_False by done.
  destruct (select_where _ ops) as [|r l] eqn:E.
  - rewrite select_where_nil in E. exact E.
  - assert (r ∈ select_where (same_idempotency auth account kind key) ops) as Hin
      by (rewrite E; apply elem_of_cons; auto).
    apply elem_of_select_where in Hin as (id & Hid & Hr). eauto.
Qed.

(** A lookup that ends in a new operation leaves room for its insert. *)
Lemma LookupNew_no_conflict env account kind fp req ops :
  lookup_key account kind fp req ops = LookupNew ->
  idempotency_conflict
    (insert_row (env_insert_ms env) (env_op_id env) (new_operation env account kind fp req)) ops
  = false.
Proof.
  intros Hl. apply not_true_is_false. intros Hc.
  apply idempotency_conflict_spec in Hc as (id & r & Hid & Hs). unfold same_key in Hs. simpl in Hs.
  destruct Hs as (Ha & Hac & Hki & Hke & [k Hk]). revert Hl. unfold lookup_key.
  unfold nullString in *. case_decide as Hempty; [done|].
  pose proof (KeyUsed_spec (rq_AuthorizationID req) kind (rq_Key req) account ops Hempty) as Hu.
  destruct (KeyUsedByAnotherAccount _ _ _ _ _) as [other []]; [done|].
  pose proof (OperationByKey_spec (rq_AuthorizationID req) account kind (rq_Key req) ops Hempty)
    as Hb.
  destruct (OperationByKey _ _ _ _ _); [by case_decide|]. intros _.
  specialize (Hb id r Hid). apply not_true_iff_false in Hb. apply Hb, same_idempotency_true.
  split_and!; congruence.
Qed.

Lemma insert_new env account kind fp req ops :
  env_op_id env <> ""%string -> ops !! env_op_id env = None ->
  lookup_key account kind fp req ops = LookupNew ->
  InsertOperation (env_insert_ms env) (env_op_id env) (new_operation env account kind fp req) ops =
  Ok (<[env_op_id env := insert_row (env_insert_ms env) (env_op_id env)
         (new_operation env account kind fp req)]> ops).
Proof.
  intros Hid Hfresh Hl. unfold InsertOperation. simpl. rewrite decide_False by done.
  by rewrite Hfresh, (LookupNew_no_conflict env _ _ _ _ _ Hl).
Qed.
End Lemmas.

(** ** Properties *)
Section Theorems.
Context `{GoFmt} `{JSONLib} `{Digest}.

(** The row of a key on this account decides a request with that key. *)
Lemma run_keyed env account kind req call w fp :
  rtc OpStep ∅ (w_ops w) -> rq_Key req <> ""%string ->
  ValidateIdempotencyKey (rq_Key req) = None -> RequestFingerprint (rq_Body req) = Ok fp ->
  (forall id r, w_ops w !! id = Some r ->
     used_elsewhere (rq_AuthorizationID req) kind (rq_Key req) account r = false) ->
  forall id r, w_ops w !! id = Some r ->
    same_idempotency (rq_AuthorizationID req) account kind (rq_Key req) r = true ->
    runOperation env account kind req call w =
    (w, if decide (op_request_fingerprint r = fp)
        then mkMutationResult (Some (scanOperation r)) true false None
        else refused (api_error (IdempotencyConflict (rq_Key req)))).
Proof.
  intros Hr Hk Hv Hfp Hno id r Hid Hs.
  destruct (table_ok_steps _ _ table_ok_empty Hr) as [_ Huniq].
  unfold runOperation, lookup_key. rewrite Hv, Hfp, decide_False by done.
  pose proof (KeyUsed_spec (rq_AuthorizationID req) kind (rq_Key req) account (w_ops w) Hk) as Hu.
  destruct (KeyUsedByAnotherAccount _ _ _ _ _) as [other []].
  { destruct Hu as (i & r0 & Hi & Hel & _). by rewrite (Hno _ _ Hi) in Hel. }
  pose proof (OperationByKey_spec (rq_AuthorizationID req) account kind (rq_Key req) (w_ops w) Hk)
    as Hb.
  destruct (OperationByKey _ _ _ _ _) as [o|]; [|by rewrite (Hb _ _ Hid) in Hs].
  destruct Hb as (id' & r' & Hid' & Hs' & ->).
  assert (r' = r) as ->; [|simpl; by destruct (decide (op_request_fingerprint r = fp))].
  apply same_idempotency_true in Hs, Hs'.
  assert (id' = id) as ->; [|congruence].
  apply (Huniq _ _ _ _ Hid' Hid). unfold same_key.
  destruct Hs as (? & ? & ? & ->), Hs' as (? & ? & ? & ->). split_and!; congruence || done.
Qed.

(** C8: which requests reach the library call.  On a reachable operations table, an
    unusable key or a malformed body is refused; a key this authorization already
    used for this kind on another account is refused, naming that account; a key
    already used on this account returns the existing operation when the body is the
    same and a conflict when it is not.  In all these cases the state is unchanged
    and the call is irrelevant.  Only a request without a key, or with an unused
    one, is executed. *)
Theorem run_operation_gate env account kind req call w :
  rtc OpStep ∅ (w_ops w) ->
  let run := runOperation env account kind req call w in
  let key := rq_Key req in
  let auth := rq_AuthorizationID req in
  (forall e, ValidateIdempotencyKey key = Some e -> run = (w, refused (api_error e))) /\
  (ValidateIdempotencyKey key = None -> forall text, RequestFingerprint (rq_Body req) = Err text ->
     run = (w, refused (api_error (MalformedBody text)))) /\
  (ValidateIdempotencyKey key = None -> forall fp, RequestFingerprint (rq_Body req) = Ok fp ->
     (key = ""%string -> run = execute env account kind fp req call w) /\
     (key <> ""%string ->
        (forall id r, w_ops w !! id = Some r -> used_elsewhere auth kind key account r = true ->
           exists other, other <> account /\
             run = (w, refused (api_error (idempotencyKeyCrossedAccounts key other account)))) /\
        ((forall id r, w_ops w !! id = Some r -> used_elsewhere auth kind key account r = false) ->
           (forall id r, w_ops w !! id = Some r -> same_idempotency auth account kind key r = true ->
              run = (w, if decide (op_request_fingerprint r = fp)
                        then mkMutationResult (Some (scanOperation r)) true false None
                        else refused (api_error (IdempotencyConflict key)))) /\
           ((forall id r, w_ops w !! id = Some r -> same_idempotency auth account kind key r = false) ->
              run = execute env account kind fp req call w)))).
Proof.
  intros Hr. cbv zeta. split.
  { intros e He. unfold runOperation. by rewrite He. }
  split.
  { intros Hv text Ht. unfold runOperation. by rewrite Hv, Ht. }
  intros Hv fp Hfp.
  assert (runOperation env account kind req call w =
    match lookup_key account kind fp req (w_ops w) with
    | LookupRefused e => (w, refused (api_error e))
    | LookupReplay op => (w, mkMutationResult (Some op) true false None)
    | LookupNew => execute env account kind fp req call w
    end) as Hrun by (unfold runOperation; by rewrite Hv, Hfp).
  split; [intros Hk; rewrite Hrun; unfold lookup_key; by rewrite decide_True|].
  intros Hk. split.
  - intros id r Hid Hel. rewrite Hrun. unfold lookup_key. rewrite decide_False by done.
    pose proof (KeyUsed_spec (rq_AuthorizationID req) kind (rq_Key req) account (w_ops w) Hk) as Hu.
    destruct (KeyUsedByAnotherAccount _ _ _ _ _) as [other []];
      [|by rewrite (Hu _ _ Hid) in Hel].
    destruct Hu as (i & r0 & _ & Hel0 & ->). exists (op_account_id r0).
    split; [|done]. by apply used_elsewhere_true in Hel0 as (_ & _ & _ & ?).
  - intros Hno. split; [intros id r; by apply run_keyed|]. intros Hnone.
    rewrite Hrun. unfold lookup_key. rewrite decide_False by done.
    pose proof (KeyUsed_spec (rq_AuthorizationID req) kind (rq_Key req) account (w_ops w) Hk) as Hu.
    destruct (KeyUsedByAnotherAccount _ _ _ _ _) as [other []].
    { destruct Hu as (i & r0 & Hi & Hel & _). by rewrite (Hno _ _ Hi) in Hel. }
    pose proof (OperationByKey_spec (rq_AuthorizationID req) account kind (rq_Key req) (w_ops w) Hk)
      as Hb.
    destruct (OperationByKey _ _ _ _ _) as [o|]; [|done].
    destruct Hb as (id' & r' & Hid' & Hs' & _). by rewrite (Hnone _ _ Hid') in Hs'.
Qed.

(** What an executed request does.  With a fresh operation ID, and no row in
    the way, the call runs exactly once, on a state whose table already holds the
    operation as running, with the tmp ID it is handed; whatever else happens during
    the call, if the row is then still running, the outcome is recorded: success
    without an error; still pending, and not terminal, exactly when the phone did
    not answer; failed for every other error, with the classified code, message and
    retryability; and the caller gets the recorded operation and the call's error. *)
Theorem execute_outcome env account kind fp req call w w2 outcome err r2 :
  env_op_id env <> ""%string -> w_ops w !! env_op_id env = None ->
  lookup_key account kind fp req (w_ops w) = LookupNew ->
  let row := insert_row (env_insert_ms env) (env_op_id env)
               (new_operation env account kind fp req) in
  let op := scanOperation row in
  call op (set_ops (<[env_op_id env := row]> (w_ops w)) w) = (w2, (outcome, err)) ->
  w_ops w2 !! env_op_id env = Some r2 -> op_status r2 = OpRunning ->
  o_Status op = OpRunning /\ o_TmpID op = tmpIDFor env kind /\
  exists r3, execute env account kind fp req call w =
      (set_ops (<[env_op_id env := r3]> (w_ops w2)) w2,
       mkMutationResult (Some (scanOperation r3)) false (bool_decide (err = None)) err) /\
    match err with
    | None => op_status r3 = OpSucceeded /\ op_terminal r3 = true /\ op_error_code r3 = None
    | Some e =>
        let f := fields (classify_error e) in
        op_status r3 = (if KeepsOperationPending f then OpPending else OpFailed) /\
        op_terminal r3 = negb (KeepsOperationPending f) /\
        op_error_code r3 = nullString (Code f) /\
        (Code f <> ""%string -> op_error_retryable r3 = Some (Retryable f))
    end.
Proof.
  intros Hid Hfresh Hl row op Hcall Hr2 Hst.
  split_and!; [done|by unfold op; simpl; rewrite scan_nullString|].
  unfold execute. rewrite insert_new by done. fold row. unfold ReadOperation.
  rewrite lookup_insert_eq. fold op. rewrite Hcall. unfold settle, SettleOperation.
  change (o_ID op) with (env_op_id env). rewrite Hr2. simpl. rewrite Hst.
  destruct err as [e|]; simpl.
  - set (f := fields (classify_error e)). destruct (KeepsOperationPending f) eqn:Hk; simpl;
      (eexists; split; [reflexivity|]; simpl; split_and!; try done;
       intros Hc; unfold nullErrorRetryable; simpl; by rewrite decide_False).
  - eexists. split; [reflexivity|]. done.
Qed.


(** The shape rule for a key.  A key is usable exactly when it is absent, or at
    most 200 bytes of valid UTF-8 without a control character; the decoding of runes
    makes that a test on bytes.  Every refusal is [invalid_request], a 400 that names
    the header. *)
Theorem idempotency_key_shape key :
  (ValidateIdempotencyKey key = None <->
     key = ""%string \/
     ((String.length key <= 200)%nat /\ ValidString key = true /\
      Forall (fun b => (0x20 <= b)%Z /\ b <> 0x7f%Z) (bytes key))) /\
  (forall e, ValidateIdempotencyKey key = Some e ->
     api_Code e = CodeInvalidRequest /\ ApiError_HTTPStatus e = StatusBadRequest /\
     ApiError_Retryable e = false /\
     api_Details e !! "field"%string = Some (DString "Idempotency-Key")).
Proof.
  unfold ValidateIdempotencyKey. rewrite (ContainsFunc_ascii _ _ isControl_ascii).
  assert (existsb isControl (bytes key) = false <->
    Forall (fun b => (0x20 <= b)%Z /\ b <> 0x7f%Z) (bytes key)) as Hctl.
  { rewrite <- not_true_iff_false, existsb_exists, Forall_forall. unfold isControl. split.
    - intros Hno b Hb. apply list_elem_of_In in Hb.
      destruct (decide (b < 0x20 \/ b = 0x7f)%Z) as [Hc|Hc]; [|lia].
      destruct Hno. exists b. by rewrite orb_true_iff, Z.ltb_lt, Z.eqb_eq.
    - intros Hall (b & Hb & Hc). rewrite orb_true_iff, Z.ltb_lt, Z.eqb_eq in Hc.
      apply list_elem_of_In, Hall in Hb. lia. }
  split.
  - case_decide as He; [tauto|].
    destruct (MaxIdempotencyKeyBytes <? String.length key)%nat eqn:Hlen.
    { apply Nat.ltb_lt in Hlen. unfold MaxIdempotencyKeyBytes in Hlen.
      split; [done|]. intros [?|[? _]]; [done|lia]. }
    apply Nat.ltb_ge in Hlen. destruct (ValidString key); simpl; [|naive_solver].
    destruct (existsb isControl (bytes key)); [|tauto].
    split; [done|]. intros [?|(_ & _ & Hf)]; [done|]. by apply Hctl in Hf.
  - intros e. repeat case_match; try done; intros [= <-]; by vm_compute.
Qed.

(** [reorder v v']: the same value with the keys of some objects in another order. *)
Inductive reorder : JSON -> JSON -> Prop :=
| reorder_refl v : reorder v v
| reorder_keys m m' : NoDup m.*1 -> m ≡ₚ m' -> reorder (JObject m) (JObject m')
| reorder_member pre k v v' post :
    reorder v v' -> reorder (JObject (pre ++ (k, v) :: post)) (JObject (pre ++ (k, v') :: post))
| reorder_element pre v v' post :
    reorder v v' -> reorder (JArray (pre ++ v :: post)) (JArray (pre ++ v' :: post))
| reorder_trans v1 v2 v3 : reorder v1 v2 -> reorder v2 v3 -> reorder v1 v3.

Lemma NoDup_fst_eq {A B} (l : list (A * B)) k v1 v2 :
  NoDup l.*1 -> (k, v1) ∈ l -> (k, v2) ∈ l -> v1 = v2.
Proof.
  induction l as [|[k' v] l IH]; [by intros _ []%not_elem_of_nil|].
  csimpl. intros [Hk Hl]%NoDup_cons. rewrite !elem_of_cons.
  assert (forall w, (k', w) ∈ l -> False) as Hno.
  { intros w Hw. apply Hk. by apply (list_elem_of_fmap_2 fst) in Hw. }
  intros [?|?] [?|?]; simplify_eq; auto; exfalso; eauto.
Qed.

Lemma merge_sort_perm (l l' : list (string * string)) :
  NoDup l.*1 -> l ≡ₚ l' -> merge_sort key_le l = merge_sort key_le l'.
Proof.
  intros Hnd Hp.
  assert (Transitive key_le) by (intros x y z; apply (transitivity (R := String.le))).
  assert (Total key_le) by (intros x y; apply (total String.le)).
  apply (StronglySorted_unique_strong key_le); [|apply StronglySorted_merge_sort; apply _..|].
  - intros [k1 v1] [k2 v2]. rewrite !merge_sort_Permutation, <- Hp. unfold key_le. simpl.
    intros H1in H2in Hle1 Hle2. assert (k1 = k2) as -> by by apply (anti_symm String.le).
    f_equal. by apply (NoDup_fst_eq l k2).
  - by rewrite !merge_sort_Permutation.
Qed.

(** Reordered keys are a replay.  The canonical form, and so the fingerprint, of
    a body does not depend on the order of the keys of any object in it, at any
    depth. *)
Theorem fingerprint_key_order v v' body body' :
  reorder v v' ->
  canonicalJSON v = canonicalJSON v' /\
  (blank body = false -> blank body' = false ->
   json_Decode body = Ok v -> json_Decode body' = Ok v' ->
   RequestFingerprint body = RequestFingerprint body').
Proof.
  intros Hro. assert (canonicalJSON v = canonicalJSON v') as E.
  { induction Hro as [|m m' Hnd Hp|pre k v v' post _ IH|pre v v' post _ IH|]; [done|..|congruence].
    - simpl. f_equal. f_equal. f_equal. f_equal. apply merge_sort_perm.
      + assert ((List.map (fun kv : string * JSON => let '(k, e) := kv in (k, canonicalJSON e)) m).*1
          = m.*1) as ->; [|done].
        clear. induction m as [|[k e] m IH]; csimpl; [done|by rewrite IH].
      + by apply Permutation_map.
    - simpl. rewrite !List.map_app. simpl. by rewrite IH.
    - simpl. rewrite !List.map_app. simpl. by rewrite IH. }
  split; [exact E|]. intros Hb Hb' Hd Hd'. unfold RequestFingerprint.
  by rewrite Hb, Hb', Hd, Hd', E.
Qed.

(** ** The send loop, with a log of what it did *)

Inductive SendEvent : Type :=
| EvAttempt (status : Z) (err : option GoError)
| EvSleep (ms : Z).

Definition logged_attempt {S} (attempt : S -> S * (Z * option GoError)) (s : S * list SendEvent)
    : (S * list SendEvent) * (Z * option GoError) :=
  let '(s1, a) := attempt s.1 in ((s1, s.2 ++ [EvAttempt a.1 a.2]), a).

Definition logged_sleep {S} (sleep : Z -> S -> S * option GoError) (d : Z)
    (s : S * list SendEvent) : (S * list SendEvent) * option GoError :=
  let '(s1, e) := sleep d s.1 in ((s1, s.2 ++ [EvSleep d]), e).

Definition attempts_of (l : list SendEvent) : list (Z * option GoError) :=
  omap (fun ev => match ev with EvAttempt st e => Some (st, e) | EvSleep _ => None end) l.
Definition sleeps_of (l : list SendEvent) : list Z :=
  omap (fun ev => match ev with EvSleep d => Some d | EvAttempt _ _ => None end) l.

(** What a finished loop did, for a given list of backoffs. *)
Definition send_run_ok (backoff : list Z) (l : list SendEvent) (status : Z) (err : option GoError)
    : Prop :=
  exists init final,
    attempts_of l = init ++ [final] /\
    Forall (fun a => IsTransient a.1 = true /\ a.2 = None) init /\
    sleeps_of l `prefix_of` backoff /\
    (length init <= length (sleeps_of l) <= S (length init))%nat /\
    status = final.1 /\
    (forall e, final.2 = Some e -> err = Some e) /\
    (err = None <-> final = (SendStatusSuccess, None)) /\
    (length (sleeps_of l) = length init -> final.2 = None -> final.1 <> SendStatusSuccess ->
       err = Some (error_of (SendFailure final.1)) /\
       (IsTransient final.1 = true -> length init = length backoff)).

Lemma send_loop_ok {S} attempt sleep backoff (s s' : S) log0 log status err :
  send_loop (logged_attempt attempt) (logged_sleep sleep) backoff (s, log0)
    = ((s', log), (status, err)) ->
  exists l, log = log0 ++ l /\ send_run_ok backoff l status err.
Proof.
  revert s log0. induction backoff as [|d rest IH]; intros s log0; simpl;
    unfold logged_attempt at 1; simpl; destruct (attempt s) as [s1 [st [e|]]] eqn:Ea; simpl.
  1, 3: intros [= <- <- <- <-]; exists [EvAttempt st (Some e)]; split; [done|];
    exists [], (st, Some e); cbn; split_and!; try done || lia; try apply prefix_nil; naive_solver.
  - destruct (decide (st = SendStatusSuccess)) as [->|Hns].
    { intros [= <- <- <- <-]. exists [EvAttempt SendStatusSuccess None]. split; [done|].
      exists [], (SendStatusSuccess, None). cbn. split_and!; try done || lia. }
    destruct (IsTransient st) eqn:Ht; simpl; intros [= <- <- <- <-];
      (exists [EvAttempt st None]; split; [done|]; exists [], (st, None); cbn;
       split_and!; try done || lia; split; [done|intros [=]; done]).
  - destruct (decide (st = SendStatusSuccess)) as [->|Hns].
    { intros [= <- <- <- <-]. exists [EvAttempt SendStatusSuccess None]. split; [done|].
      exists [], (SendStatusSuccess, None). cbn. split_and!; try done || lia. apply prefix_nil. }
    destruct (IsTransient st) eqn:Ht; simpl.
    2: { intros [= <- <- <- <-]. exists [EvAttempt st None]. split; [done|].
         exists [], (st, None). cbn. split_and!; try done || lia; [apply prefix_nil| |].
         - split; [done|intros [=]; done].
         - intros _ _ _. split; [done|congruence]. }
    unfold logged_sleep at 1. simpl. destruct (sleep d s1) as [s2 [e|]]; simpl.
    + intros [= <- <- <- <-]. exists [EvAttempt st None; EvSleep d].
      split; [by rewrite <- app_assoc|]. exists [], (st, None). cbn.
      split_and!; try done || lia; try apply prefix_cons, prefix_nil; naive_solver.
    + intros Hloop. destruct (IH _ _ Hloop) as (l & -> & init & final & Ha & Hf & Hsl & Hlen & Hst &
        He & Hok & Hfail).
      exists (EvAttempt st None :: EvSleep d :: l). split; [by rewrite <- !app_assoc|].
      exists ((st, None) :: init), final. cbn. fold (attempts_of l) (sleeps_of l).
      rewrite Ha. split_and!; try done || lia.
      * by constructor.
      * by apply prefix_cons.
      * intros Hl Hn Hs. destruct (Hfail ltac:(lia) Hn Hs) as [? Hlast].
        split; [done|]. intros Htr. f_equal. by apply Hlast.
Qed.

(** The send retries.  Whatever the phone answers, one send makes at most four
    attempts; it sleeps only between attempts, on a prefix of the schedule 3 s, 8 s,
    20 s; it only goes on after a transient status with no error; a library error is
    returned at once and never retried; it succeeds exactly when the last attempt
    did; and a refusal is the classified failure of the last status, which is
    transient only when all three retries were used. *)
Theorem send_retry_schedule {S} attempt sleep (s s' : S) log status err :
  SendWithRetry (logged_attempt attempt) (logged_sleep sleep) (s, [])
    = ((s', log), (status, err)) ->
  send_run_ok [3000; 8000; 20000]%Z log status err /\ (length (attempts_of log) <= 4)%nat.
Proof.
  intros Hrun. apply send_loop_ok in Hrun as (l & -> & Hok). simpl. split; [exact Hok|].
  destruct Hok as (init & final & -> & _ & Hpre & Hlen & _).
  apply prefix_length in Hpre. rewrite length_app. simpl in *. lia.
Qed.
End Theorems.

(** ** Witnesses *)

#[export] Instance plain_fmt : GoFmt := { strconv_Quote s := s }.

#[export] Instance plain_json : JSONLib := {
  json_Decode s := if decide (s = "{"%string) then Err "unexpected EOF"%string else Ok (JString s);
  json_Marshal_string s := s;
}.

Definition demo_env : RunEnv := mkRunEnv "op_1" "tmp_1" 5 6 7.
Definition demo_request : Request := mkRequest "auth_1" "key-1" "hello" "conv_1".
Definition demo_world : World := mkWorld ∅ empty_db ∅.

(** A call during which nothing else happens and the phone does not answer. *)
Definition demo_call : Call :=
  fun _ w => (w, (no_outcome, Some (ESentinel ErrPhoneNotResponding))).

Definition demo_op_row : OperationRow :=
  insert_row 5 "op_1" (new_operation demo_env "acct_1" KindSendText "hello" demo_request).
Definition demo_running : ops_table := <["op_1"%string := demo_op_row]> ∅.

Lemma demo_running_reach : rtc OpStep ∅ demo_running.
Proof.
  apply rtc_once.
  by apply (step_insert ∅ 5 "op_1"
    (new_operation demo_env "acct_1" KindSendText "hello" demo_request)).
Qed.

(** The same key against another account is refused, whatever the call is. *)
Example run_operation_gate_witness :
  exists other, other <> "acct_2"%string /\
    runOperation demo_env "acct_2" KindSendText demo_request demo_call
      (mkWorld demo_running empty_db ∅) =
    (mkWorld demo_running empty_db ∅,
     refused (api_error (idempotencyKeyCrossedAccounts "key-1" other "acct_2"))).
Proof.
  destruct (run_operation_gate demo_env "acct_2" KindSendText demo_request demo_call
    (mkWorld demo_running empty_db ∅) demo_running_reach) as (_ & _ & Hrun).
  destruct (Hrun eq_refl "hello"%string eq_refl) as [_ Hkeyed].
  destruct (Hkeyed ltac:(discriminate)) as [Hcross _].
  exact (Hcross "op_1"%string demo_op_row eq_refl eq_refl).
Defined.

Example execute_outcome_witness :
  exists r3, op_status r3 = OpPending /\ op_terminal r3 = false /\
    execute demo_env "acct_1" KindSendText "hello" demo_request demo_call demo_world =
    (set_ops (<["op_1"%string := r3]> demo_running) (set_ops demo_running demo_world),
     mkMutationResult (Some (scanOperation r3)) false false
       (Some (ESentinel ErrPhoneNotResponding))).
Proof.
  destruct (execute_outcome demo_env "acct_1" KindSendText "hello" demo_request demo_call
    demo_world (set_ops demo_running demo_world) no_outcome
    (Some (ESentinel ErrPhoneNotResponding)) demo_op_row
    ltac:(discriminate) eq_refl eq_refl eq_refl eq_refl eq_refl)
    as (_ & _ & r3 & Hrun & Hs & Ht & _).
  exists r3. split; [exact Hs|]. split; [exact Ht|exact Hrun].
Defined.


Example fingerprint_key_order_witness :
  canonicalJSON (JObject [("a"%string, JNull); ("b"%string, JBool true)]) =
  canonicalJSON (JObject [("b"%string, JBool true); ("a"%string, JNull)]).
Proof.
  refine (proj1 (fingerprint_key_order _ _ "" "" _)). apply reorder_keys.
  - apply (bool_decide_unpack _). vm_compute. exact I.
  - apply perm_swap.
Defined.

(** Two transient answers, then success. *)
Definition demo_attempt (n : nat) : nat * (Z * option GoError) :=
  (S n, (if (n <? 2)%nat then SendStatusFailure2 else SendStatusSuccess, None)).
Definition demo_sleep (_ : Z) (n : nat) : nat * option GoError := (n, None).

Example send_retry_schedule_witness :
  (length (attempts_of
     (SendWithRetry (logged_attempt demo_attempt) (logged_sleep demo_sleep) (0%nat, [])).1.2) <= 4)%nat.
Proof.
  refine (proj2 (send_retry_schedule demo_attempt demo_sleep 0%nat 3%nat _ SendStatusSuccess None _)).
  vm_compute. reflexivity.
Defined.
