(* ===== verification/Ingest.v ===== *)
(** * Ingestion and echo correlation (internal/core/ingest.go, core/operations.go)

    [IngestMessage] is the only writer of message rows.  It composes the store
    methods of Messages.v, each its own transaction, in the order of the code, so an
    error part-way leaves the earlier writes in place.  The theorems: everything it
    does is a history of store steps (so every invariant of the tables carries over),
    an old or an ignored message has no side effects, what a remote echo makes of the
    operation it belongs to, what happens to the thread's activity and reactions. *)

From S2P Require Import Prelude Delivery Ids Operations Errors GoStrings Messages Capability Pipeline.

(** ** The ingester's counters: [atomic.Uint64] *)

Record Counters := mkCounters {
  ct_ignored : Z;
  ct_unknown : Z;
  ct_applied : Z;
  ct_outOfOrd : Z;
  ct_newMsgs : Z;
}.

Definition add_one (c : Z) : Z := ((c + 1) mod 2 ^ 64)%Z.

Definition count_ignored (c : Counters) : Counters :=
  mkCounters (add_one (ct_ignored c)) (ct_unknown c) (ct_applied c) (ct_outOfOrd c) (ct_newMsgs c).
Definition CountUnknown (c : Counters) : Counters :=
  mkCounters (ct_ignored c) (add_one (ct_unknown c)) (ct_applied c) (ct_outOfOrd c) (ct_newMsgs c).
Definition count_applied (c : Counters) : Counters :=
  mkCounters (ct_ignored c) (ct_unknown c) (add_one (ct_applied c)) (ct_outOfOrd c) (ct_newMsgs c).
Definition count_out_of_order (c : Counters) : Counters :=
  mkCounters (ct_ignored c) (ct_unknown c) (ct_applied c) (add_one (ct_outOfOrd c)) (ct_newMsgs c).
Definition count_new (c : Counters) : Counters :=
  mkCounters (ct_ignored c) (ct_unknown c) (ct_applied c) (ct_outOfOrd c) (add_one (ct_newMsgs c)).

(** What an ingester works on: the process state and its own counters. *)
Record IngestState := mkIngestState { is_world : World; is_count : Counters }.

Definition on_world (f : World -> World) (s : IngestState) : IngestState :=
  mkIngestState (f (is_world s)) (is_count s).
Definition on_count (f : Counters -> Counters) (s : IngestState) : IngestState :=
  mkIngestState (is_world s) (f (is_count s)).

(** The account ID, the sealing of attachment keys (third-party cryptography; [None]
    without a data key), and the clock readings of one call. *)
Record Ingester := mkIngester {
  in_AccountID : string;
  in_seal : option (string -> string -> Result string string);
  in_upsert_ms : Z;
  in_reactions_ms : Z;
  in_settle_ms : Z;
  in_bump_ms : Z;
}.

Definition store_failure (context : string) (e : StoreError) : GoError :=
  EWrap context (EOther match e with
    | ErrUnique => "UNIQUE constraint failed"
    | ErrForeignKey => "FOREIGN KEY constraint failed"
    | ErrTrigger => "delivery_state may not move backwards"
    | ErrNotFound => "sql: no rows in result set"
    end).

Section Ingest.
Context `{UUID} `{Digest}.

Definition IngestConversation (ing : Ingester) (c : GmConversation) (s : IngestState)
    : IngestState * Result GoError string :=
  match UpsertConversation (in_upsert_ms ing) (in_AccountID ing) c (w_db (is_world s)) with
  | Err e => (s, Err (store_failure "upserting conversation" e))
  | Ok (db, id) => (on_count count_applied (on_world (set_db db) s), Ok id)
  end.

(** ** Steps 6 and 7: the parts *)

Definition seal_attachment (ing : Ingester) (messageID : string) (a : GmAttachment)
    : Result GoError string :=
  match in_seal ing with
  | Some seal =>
      if decide (a_DecryptionKey a = ""%string) then Ok ""%string
      else match seal (AttachmentID messageID (pretty (a_PartIndex a)) (a_MediaID a))
                   (a_DecryptionKey a) with
           | Ok sealed => Ok sealed
           | Err e => Err (EWrap "sealing attachment key" (EOther e))
           end
  | None => Ok ""%string
  end.

(** The attachment loop; the returned database keeps what was written before an error. *)
Fixpoint apply_attachments (ing : Ingester) (messageID : string) (state : DeliveryState)
    (l : list GmAttachment) (db : DB) : DB * option GoError :=
  match l with
  | [] => (db, None)
  | a :: l' =>
      match seal_attachment ing messageID a with
      | Err e => (db, Some e)
      | Ok sealed =>
          match UpsertAttachment (in_AccountID ing) messageID a sealed
                  (DownloadStateForMessage (a_MediaID a) (a_ThumbnailMediaID a) (Some state)) db with
          | Err e => (db, Some (store_failure "upserting attachment" e))
          | Ok (db', _) => apply_attachments ing messageID state l' db'
          end
      end
  end.

Definition myParticipant (ing : Ingester) (m : GmMessage) (db : DB) : string :=
  match db_conversations db !! ConversationID (in_AccountID ing) (m_ConversationID m) with
  | Some c => scanString (cv_default_outgoing_id c)
  | None => ""
  end.

Definition applyParts (ing : Ingester) (messageID : string) (m : GmMessage) (db : DB)
    : DB * option GoError :=
  let '(db1, err) := apply_attachments ing messageID (m_DeliveryState m) (m_Attachments m) db in
  match err with
  | Some e => (db1, Some e)
  | None =>
      match m_Reactions m with
      | [] => (db1, None)
      | rs =>
          match ReplaceReactions (in_reactions_ms ing)
                  (ConversationID (in_AccountID ing) (m_ConversationID m)) messageID
                  (myParticipant ing m db1) rs db1 with
          | Err e => (db1, Some (store_failure "replacing reactions" e))
          | Ok db2 => (db2, None)
          end
      end
  end.

(** ** Step 8: the remote echo *)

Definition echo_settlement (op : Operation) (messageID : string) (m : GmMessage) : Settlement :=
  if bool_decide (o_Status op = OpPending) || bool_decide (o_Status op = OpUnknown) then
    if decide (m_DeliveryState m = DeliveryStateFailed) then {|
      st_Status := OpFailed; st_MessageID := messageID; st_ConversationID := "";
      st_ErrorCode := CodeGoogleError;
      st_ErrorMessage := "the phone reported the message as failed";
      st_ErrorRetryable := false; st_GoogleStatusRaw := m_StatusRaw m |}
    else {|
      st_Status := OpSucceeded; st_MessageID := messageID; st_ConversationID := "";
      st_ErrorCode := ""; st_ErrorMessage := ""; st_ErrorRetryable := false;
      st_GoogleStatusRaw := m_StatusRaw m |}
  else {|
    st_Status := o_Status op; st_MessageID := messageID; st_ConversationID := "";
    st_ErrorCode := ""; st_ErrorMessage := ""; st_ErrorRetryable := false;
    st_GoogleStatusRaw := 0 |}.

(** The link, the size and the settlement; a failing settlement is only logged. *)
Definition correlateEcho (ing : Ingester) (messageID : string) (m : GmMessage) (w : World) : World :=
  match OperationByTmpID (in_AccountID ing) (m_TmpID m) (w_ops w) with
  | Err _ => w
  | Ok op =>
      let w1 := set_db (LinkMessageOperation messageID (o_ID op) (w_db w)) w in
      let w2 := if (0 <? o_MediaSizeBytes op)%Z
                then set_db (FillMissingAttachmentSize messageID (o_MediaSizeBytes op) (w_db w1)) w1
                else w1 in
      match SettleOperation (in_settle_ms ing) (o_ID op) (echo_settlement op messageID m)
              (w_ops w2) with
      | Ok (ops, _) => set_ops ops w2
      | Err _ => w2
      end
  end.

(** ** Step 9: the conversation's activity *)

Definition applyActivity (ing : Ingester) (m : GmMessage) (messageID : string) (isOld : bool)
    (db : DB) : DB :=
  match isOld, m_Timestamp m with
  | false, Some activity =>
      let convID := ConversationID (in_AccountID ing) (m_ConversationID m) in
      match db_conversations db !! convID with
      | Some current =>
          if (activity <=? cv_last_activity_ms current)%Z then db
          else BumpConversationActivity (in_bump_ms ing) convID messageID activity db
      | None => BumpConversationActivity (in_bump_ms ing) convID messageID activity db
      end
  | _, _ => db
  end.

(** ** IngestMessage *)

Definition zero_result : UpsertMessageResult := mkUpsertMessageResult "" false false false None.

Definition IngestMessage (ing : Ingester) (m : GmMessage) (isDM isOld : bool) (s : IngestState)
    : IngestState * (UpsertMessageResult * option GoError) :=
  if ShouldIgnoreStatus (m_StatusRaw m) isDM then (on_count count_ignored s, (zero_result, None))
  else if decide (m_ConversationID m = ""%string) then
    (s, (zero_result, Some (EOther "message carries no conversation ID")))
  else
    match UpsertMessage (in_upsert_ms ing) (in_AccountID ing) (m_ConversationID m) m
            (w_db (is_world s)) with
    | Err e => (s, (zero_result, Some (store_failure "upserting message" e)))
    | Ok (db1, res) =>
        let s1 := on_world (set_db db1) s in
        let s2 := if res_TransitionRefused res then on_count count_out_of_order s1 else s1 in
        let s3 := if res_Inserted res || res_Updated res then on_count count_applied s2 else s2 in
        let s4 := if res_Inserted res && negb isOld then on_count count_new s3 else s3 in
        let '(db2, err) :=
          if res_Inserted res || res_Updated res
          then applyParts ing (res_ID res) m (w_db (is_world s4)) else (w_db (is_world s4), None) in
        let s5 := on_world (set_db db2) s4 in
        match err with
        | Some e => (s5, (res, Some e))
        | None =>
            let s6 := if negb isOld && negb (bool_decide (m_TmpID m = ""%string))
                      then on_world (correlateEcho ing (res_ID res) m) s5 else s5 in
            let s7 := on_world (fun w => set_db (applyActivity ing m (res_ID res) isOld (w_db w)) w) s6 in
            (s7, (res, None))
        end
    end.

(** [IsDM]. *)
Definition IsDM (c : option GmConversation) : bool :=
  match c with Some c => negb (c_IsGroup c) | None => false end.
End Ingest.

(** ** Histories of the whole state *)

Inductive WStep `{UUID} `{Digest} (w : World) : World -> Prop :=
| ws_db db' : MsgStep (w_db w) db' -> WStep w (set_db db' w)
| ws_ops ops' : OpStep (w_ops w) ops' -> WStep w (set_ops ops' w).

Section Steps.
Context `{UUIDLaws} `{Digest}.

Lemma set_db_id w : set_db (w_db w) w = w.
Proof. by destruct w. Qed.

Lemma db_steps w db' : rtc MsgStep (w_db w) db' -> rtc WStep w (set_db db' w).
Proof.
  intros Hs. destruct w as [ops db accs]. unfold set_db. simpl in *.
  induction Hs as [db|a b c Hab _ IH]; [done|].
  eapply rtc_l; [|exact IH]. apply (ws_db (mkWorld ops a accs)). exact Hab.
Qed.

(** A history of the state is a history of each of its tables. *)
Lemma wsteps_split w w' :
  rtc WStep w w' ->
  rtc MsgStep (w_db w) (w_db w') /\ rtc OpStep (w_ops w) (w_ops w') /\ w_accounts w' = w_accounts w.
Proof.
  induction 1 as [w|a b c Hab _ (IHdb & IHops & IHacc)]; [done|].
  destruct Hab as [db' Hs|ops' Hs]; simpl in *; split_and!; try done; by eapply rtc_l.
Qed.

Lemma upsert_attachment_frame a msg att key st db db' id :
  UpsertAttachment a msg att key st db = Ok (db', id) ->
  db_reactions db' = db_reactions db /\ db_messages db' = db_messages db /\
  db_conversations db' = db_conversations db.
Proof.
  intros E. unfold UpsertAttachment in E. destruct (db_attachments db !! _); [by simplify_eq|].
  by apply bind_Ok_inv in E as (? & _ & (? & _ & [= <- _])%bind_Ok_inv).
Qed.

Lemma apply_attachments_reactions ing id st l db db' e :
  apply_attachments ing id st l db = (db', e) ->
  db_reactions db' = db_reactions db /\ db_messages db' = db_messages db /\
  db_conversations db' = db_conversations db.
Proof.
  revert db. induction l as [|a l IH]; intros db; simpl; [by intros [= <- _]|].
  destruct (seal_attachment ing id a) as [sealed|]; [|by intros [= <- _]].
  destruct (UpsertAttachment _ _ _ _ _ db) as [[db1 aid]|] eqn:E; [|by intros [= <- _]].
  intros (-> & -> & ->)%IH. by eapply upsert_attachment_frame.
Qed.

(** What the attachment loop touches. *)
Lemma apply_attachments_steps ing id st l db :
  nul_free id = true ->
  let db' := (apply_attachments ing id st l db).1 in
  rtc MsgStep db db' /\ db_reactions db' = db_reactions db /\ db_messages db' = db_messages db /\
  db_conversations db' = db_conversations db.
Proof.
  intros Hid. revert db. induction l as [|a l IH]; intros db; simpl; [by split_and!|].
  destruct (seal_attachment ing id a) as [sealed|e]; simpl; [|by split_and!].
  destruct (UpsertAttachment _ _ _ _ _ db) as [[db1 aid]|e] eqn:E; simpl; [|by split_and!].
  destruct (IH db1) as (Hs & Hr & Hm & Hc).
  destruct (upsert_attachment_frame _ _ _ _ _ _ _ _ E) as (E1 & E2 & E3).
  rewrite <- E1, <- E2, <- E3. split_and!; [|done..].
  eapply rtc_l; [|exact Hs]. eapply step_attachment; [exact Hid|exact E].
Qed.

Lemma replace_reactions_frame now conv msg me rs db db' :
  ReplaceReactions now conv msg me rs db = Ok db' ->
  db_messages db' = db_messages db /\ db_conversations db' = db_conversations db.
Proof. by intros (t & _ & (? & _ & [= <-])%bind_Ok_inv)%bind_Ok_inv. Qed.

Lemma ConversationID_nonempty a b : ConversationID a b <> ""%string.
Proof. done. Qed.

Lemma applyParts_steps ing id m db :
  nul_free id = true ->
  let db' := (applyParts ing id m db).1 in
  rtc MsgStep db db' /\ db_messages db' = db_messages db /\
  db_conversations db' = db_conversations db /\
  (m_Reactions m = [] -> db_reactions db' = db_reactions db).
Proof.
  intros Hid. unfold applyParts.
  destruct (apply_attachments_steps ing id (m_DeliveryState m) (m_Attachments m) db Hid)
    as (Hs & Hr & Hm & Hc).
  destruct (apply_attachments _ _ _ _ db) as [db1 [e|]]; simpl in *; [by split_and!|].
  destruct (m_Reactions m) as [|r rs] eqn:Ers; simpl; [by split_and!|].
  destruct (ReplaceReactions _ _ _ _ _ db1) as [db2|e] eqn:E; simpl; [|by split_and!].
  destruct (replace_reactions_frame _ _ _ _ _ _ _ E) as [Em Ec].
  split_and!; [|congruence..|done].
  eapply rtc_r; [exact Hs|]. eapply step_reactions; [|exact E].
  by apply clean_entries_derived.
Qed.

(** What the echo touches: the operations, one message's link, attachment sizes. *)
Lemma correlateEcho_steps ing id m w :
  (0 < in_settle_ms ing)%Z ->
  let w' := correlateEcho ing id m w in
  rtc WStep w w' /\ db_conversations (w_db w') = db_conversations (w_db w) /\
  db_reactions (w_db w') = db_reactions (w_db w).
Proof.
  intros Hnow. unfold correlateEcho.
  destruct (OperationByTmpID _ _ _) as [op|]; simpl; [|done].
  set (db1 := LinkMessageOperation id (o_ID op) (w_db w)).
  assert (db_conversations db1 = db_conversations (w_db w) /\
          db_reactions db1 = db_reactions (w_db w)) as [Ec1 Er1].
  { unfold db1, LinkMessageOperation. by repeat case_match. }
  set (w2 := if (0 <? o_MediaSizeBytes op)%Z then _ else _).
  assert (rtc WStep w w2 /\ db_conversations (w_db w2) = db_conversations db1 /\
          db_reactions (w_db w2) = db_reactions db1) as (Hs2 & Ec2 & Er2).
  { assert (WStep w (set_db db1 w)) as Hl by apply ws_db, step_link.
    unfold w2. destruct (0 <? o_MediaSizeBytes op)%Z; simpl.
    - split_and!; [|unfold FillMissingAttachmentSize; by case_match..].
      eapply rtc_l; [exact Hl|]. apply rtc_once.
      apply (ws_db (set_db db1 w)), step_fill.
    - split_and!; [by apply rtc_once|done..]. }
  destruct (SettleOperation _ _ _ _) as [[ops out]|e] eqn:E; simpl.
  - split_and!; [|congruence..].
    eapply rtc_r; [exact Hs2|]. apply ws_ops. eapply step_settle; [exact Hnow|exact E].
  - split_and!; [exact Hs2|congruence..].
Qed.

Lemma applyActivity_steps ing m id isOld db :
  let db' := applyActivity ing m id isOld db in
  rtc MsgStep db db' /\ db_messages db' = db_messages db /\ db_reactions db' = db_reactions db.
Proof.
  unfold applyActivity. destruct isOld; [done|]. destruct (m_Timestamp m) as [t|]; [|done].
  assert (forall c i, rtc MsgStep db (BumpConversationActivity (in_bump_ms ing) c i t db) /\
    db_messages (BumpConversationActivity (in_bump_ms ing) c i t db) = db_messages db /\
    db_reactions (BumpConversationActivity (in_bump_ms ing) c i t db) = db_reactions db) as Hb.
  { intros c i. split_and!; [apply rtc_once, step_bump|..];
      unfold BumpConversationActivity; by case_match. }
  simpl. destruct (db_conversations db !! _) as [c|]; [|apply Hb].
  destruct (t <=? cv_last_activity_ms c)%Z; [done|apply Hb].
Qed.

Lemma UpsertMessage_frame now a cs m db db' res :
  UpsertMessage now a cs m db = Ok (db', res) ->
  db_conversations db' = db_conversations db /\ db_reactions db' = db_reactions db /\
  res_ID res = MessageID a cs (m_SourceID m).
Proof.
  unfold UpsertMessage. destruct (db_messages db !! _) as [old|] eqn:E.
  - case_match; [by intros [= <- <-]|]. rewrite update_message_ok. by intros [= <- <-].
  - by intros ([] & _ & (? & _ & [= <- <-])%bind_Ok_inv)%bind_Ok_inv.
Qed.

(** The tail of [IngestMessage], after the upsert. *)
Definition after_upsert (ing : Ingester) (m : GmMessage) (isOld : bool)
    (res : UpsertMessageResult) (s1 : IngestState) : IngestState * option GoError :=
  let s2 := if res_TransitionRefused res then on_count count_out_of_order s1 else s1 in
  let s3 := if res_Inserted res || res_Updated res then on_count count_applied s2 else s2 in
  let s4 := if res_Inserted res && negb isOld then on_count count_new s3 else s3 in
  let '(db2, err) :=
    if res_Inserted res || res_Updated res
    then applyParts ing (res_ID res) m (w_db (is_world s4)) else (w_db (is_world s4), None) in
  let s5 := on_world (set_db db2) s4 in
  match err with
  | Some e => (s5, Some e)
  | None =>
      let s6 := if negb isOld && negb (bool_decide (m_TmpID m = ""%string))
                then on_world (correlateEcho ing (res_ID res) m) s5 else s5 in
      (on_world (fun w => set_db (applyActivity ing m (res_ID res) isOld (w_db w)) w) s6, None)
  end.

Lemma IngestMessage_eq ing m isDM isOld s :
  ShouldIgnoreStatus (m_StatusRaw m) isDM = false -> m_ConversationID m <> ""%string ->
  IngestMessage ing m isDM isOld s =
  match UpsertMessage (in_upsert_ms ing) (in_AccountID ing) (m_ConversationID m) m
          (w_db (is_world s)) with
  | Err e => (s, (zero_result, Some (store_failure "upserting message" e)))
  | Ok (db1, res) =>
      let '(s', err) := after_upsert ing m isOld res (on_world (set_db db1) s) in (s', (res, err))
  end.
Proof.
  intros Hi Hc. unfold IngestMessage, after_upsert. rewrite Hi, decide_False by done.
  destruct (UpsertMessage _ _ _ _ _) as [[db1 res]|]; [|done]. simpl.
  destruct (if res_Inserted res || res_Updated res then _ else _) as [db2 [e|]]; done.
Qed.

(** The counters never touch the state. *)
Lemma counted_world (b : bool) f s : is_world (if b then on_count f s else s) = is_world s.
Proof. by destruct b. Qed.

Lemma after_upsert_steps ing m isOld res s :
  nul_free (res_ID res) = true -> (0 < in_settle_ms ing)%Z ->
  let s' := (after_upsert ing m isOld res s).1 in
  rtc WStep (is_world s) (is_world s') /\
  (m_Reactions m = [] -> db_reactions (w_db (is_world s')) = db_reactions (w_db (is_world s))) /\
  (isOld = true -> w_ops (is_world s') = w_ops (is_world s) /\
     db_conversations (w_db (is_world s')) = db_conversations (w_db (is_world s)) /\
     ct_newMsgs (is_count s') = ct_newMsgs (is_count s)).
Proof.
  intros Hid Hnow. unfold after_upsert.
  set (s2 := if res_TransitionRefused res then _ else _).
  set (s3 := if res_Inserted res || res_Updated res then on_count _ _ else _).
  set (s4 := if res_Inserted res && negb isOld then _ else _).
  assert (is_world s4 = is_world s) as Ew.
  { unfold s4, s3, s2. by rewrite !counted_world. }
  assert (isOld = true -> ct_newMsgs (is_count s4) = ct_newMsgs (is_count s)) as En.
  { intros ->. unfold s4. rewrite andb_false_r. unfold s3, s2.
    by destruct (res_Inserted res || res_Updated res), (res_TransitionRefused res). }
  rewrite Ew.
  assert (exists db2 err, (if res_Inserted res || res_Updated res
      then applyParts ing (res_ID res) m (w_db (is_world s)) else (w_db (is_world s), None))
      = (db2, err) /\ rtc MsgStep (w_db (is_world s)) db2 /\
      db_conversations db2 = db_conversations (w_db (is_world s)) /\
      (m_Reactions m = [] -> db_reactions db2 = db_reactions (w_db (is_world s))))
    as (db2 & err & -> & Hs & Hc & Hre).
  { destruct (applyParts_steps ing (res_ID res) m (w_db (is_world s)) Hid) as (? & ? & ? & ?).
    destruct (res_Inserted res || res_Updated res); [|by eexists _, _].
    destruct (applyParts _ _ _ _) as [db2 err]. by exists db2, err. }
  assert (is_world (on_world (set_db db2) s4) = set_db db2 (is_world s)) as E5
    by (simpl; by rewrite Ew).
  assert (is_count (on_world (set_db db2) s4) = is_count s4) as C5 by done.
  revert E5 C5. generalize (on_world (set_db db2) s4). intros s5 E5 C5.
  destruct err as [e|]; simpl.
  { rewrite E5. simpl. split_and!; [by apply db_steps|done|].
    intros Hold. rewrite C5. auto. }
  set (s6 := if negb isOld && _ then _ else _).
  assert (rtc WStep (set_db db2 (is_world s)) (is_world s6) /\
     (m_Reactions m = [] -> db_reactions (w_db (is_world s6)) = db_reactions db2) /\
     (isOld = true -> is_world s6 = set_db db2 (is_world s) /\ is_count s6 = is_count s5))
    as (Hs6 & Hr6 & Ho6).
  { unfold s6. destruct (negb isOld && _) eqn:Eb.
    - destruct (correlateEcho_steps ing (res_ID res) m (is_world s5) Hnow) as (? & ? & Hr).
      simpl. rewrite E5 in *. simpl in *. split_and!; [done|by intros _|].
      intros ->. done.
    - rewrite E5. split_and!; done. }
  destruct (applyActivity_steps ing m (res_ID res) isOld (w_db (is_world s6))) as (Ha & _ & Hra).
  split_and!.
  - etransitivity; [by apply (db_steps _ db2)|]. etransitivity; [exact Hs6|]. by apply db_steps.
  - intros Hrs. rewrite Hra, Hr6, Hre by done. done.
  - intros Hold. destruct (Ho6 Hold) as [E6 Ec6]. rewrite Ec6, E6. simpl. unfold applyActivity.
    rewrite Hold. split_and!; [done|by rewrite Hc|]. rewrite C5. auto.
Qed.

Lemma upsert_then_tail ing m isDM isOld s :
  nul_free (in_AccountID ing) = true -> nul_free (m_ConversationID m) = true ->
  nul_free (m_SourceID m) = true -> (0 < in_settle_ms ing)%Z ->
  let s' := (IngestMessage ing m isDM isOld s).1 in
  rtc WStep (is_world s) (is_world s') /\
  (m_Reactions m = [] -> db_reactions (w_db (is_world s')) = db_reactions (w_db (is_world s))) /\
  (isOld = true -> w_ops (is_world s') = w_ops (is_world s) /\
     db_conversations (w_db (is_world s')) = db_conversations (w_db (is_world s)) /\
     ct_newMsgs (is_count s') = ct_newMsgs (is_count s)).
Proof.
  intros Ha Hc Hs Hnow. destruct (ShouldIgnoreStatus (m_StatusRaw m) isDM) eqn:Hi.
  { unfold IngestMessage. rewrite Hi. simpl. done. }
  destruct (decide (m_ConversationID m = ""%string)) as [Hempty|Hne].
  { unfold IngestMessage. rewrite Hi, decide_True by done. done. }
  rewrite IngestMessage_eq by done.
  destruct (UpsertMessage _ _ _ _ _) as [[db1 res]|e] eqn:E; [|done].
  destruct (UpsertMessage_frame _ _ _ _ _ _ _ E) as (Ec & Er & Eid).
  destruct (after_upsert_steps ing m isOld res (on_world (set_db db1) s)) as (H1' & H2' & H3').
  { rewrite Eid. apply MessageID_nul_free. }
  { done. }
  destruct (after_upsert _ _ _ _ _) as [s' err]. simpl in *.
  split_and!.
  - eapply rtc_l; [|exact H1']. apply ws_db. by eapply step_message; [..|exact E].
  - intros Hrs. by rewrite H2'.
  - intros Hold. destruct (H3' Hold) as (? & ? & ?). split_and!; congruence.
Qed.

(** The activity of step 9 is computed on conversations nobody else touched. *)
Lemma after_upsert_activity ing m isOld res s s' :
  nul_free (res_ID res) = true -> (0 < in_settle_ms ing)%Z ->
  after_upsert ing m isOld res s = (s', None) ->
  exists db6, db_conversations db6 = db_conversations (w_db (is_world s)) /\
    (isOld = true -> db_messages db6 = db_messages (w_db (is_world s))) /\
    w_db (is_world s') = applyActivity ing m (res_ID res) isOld db6.
Proof.
  intros Hid Hnow. unfold after_upsert.
  set (s4 := if res_Inserted res && negb isOld then _ else _).
  assert (is_world s4 = is_world s) as Ew by (unfold s4; by rewrite !counted_world).
  rewrite Ew. clearbody s4.
  destruct (applyParts_steps ing (res_ID res) m (w_db (is_world s)) Hid) as (_ & Hm & Hc & _).
  destruct (if res_Inserted res || res_Updated res then _ else _) as [db2 err] eqn:E.
  assert (db_messages db2 = db_messages (w_db (is_world s)) /\
          db_conversations db2 = db_conversations (w_db (is_world s))) as [Em2 Ec2].
  { destruct (res_Inserted res || res_Updated res); [by rewrite E in Hm, Hc|by injection E as <- _]. }
  destruct err as [e|]; [done|]. intros [= <-]. simpl. eexists. split_and!; [| |reflexivity].
  - destruct (negb isOld && _); [|done]. simpl.
    by destruct (correlateEcho_steps ing (res_ID res) m (set_db db2 (is_world s4)) Hnow)
      as (_ & -> & _).
  - intros ->. done.
Qed.

(** The counters of the tail. *)
Lemma after_upsert_counts ing m isOld res s :
  is_count (after_upsert ing m isOld res s).1 =
  (if res_Inserted res && negb isOld then count_new else id)
    ((if res_Inserted res || res_Updated res then count_applied else id)
       ((if res_TransitionRefused res then count_out_of_order else id) (is_count s))).
Proof.
  unfold after_upsert.
  destruct (if res_Inserted res || res_Updated res then applyParts _ _ _ _ else _) as [db2 [e|]];
    simpl; [|destruct (negb isOld && _); simpl];
    by destruct (res_Inserted res && _), (res_Inserted res || _), (res_TransitionRefused res).
Qed.
End Steps.

(** ** Properties *)
Section Theorems.
Context `{UUIDLaws} `{Digest}.

(** Ingestion is a history.  Whatever the message and wherever an error stops it,
    [IngestMessage] only takes steps of the stores; so on a reachable state every
    table invariant holds afterwards, every row has only moved as its store allows,
    and the accounts are untouched. *)
Theorem ingest_is_history ing m isDM isOld s :
  nul_free (in_AccountID ing) = true -> nul_free (m_ConversationID m) = true ->
  nul_free (m_SourceID m) = true -> (0 < in_settle_ms ing)%Z ->
  rtc MsgStep empty_db (w_db (is_world s)) -> rtc OpStep ∅ (w_ops (is_world s)) ->
  let w := is_world s in
  let w' := is_world (IngestMessage ing m isDM isOld s).1 in
  rtc WStep w w' /\ db_ok (w_db w') /\ db_le (w_db w) (w_db w') /\ table_ok (w_ops w') /\
  w_accounts w' = w_accounts w.
Proof.
  intros Ha Hc Hs Hnow Hdb Hops. cbv zeta.
  destruct (upsert_then_tail ing m isDM isOld s Ha Hc Hs Hnow) as (Hst & _).
  destruct (wsteps_split _ _ Hst) as (Hd & Ho & Hacc).
  destruct (msg_steps_good _ _ (reachable_ok _ Hdb) Hd) as [Hok Hle].
  split_and!; try done. apply (table_ok_steps ∅ _ table_ok_empty). by etransitivity.
Qed.

(** What is counted, on every branch.  An ignored status is only counted; a
    message without a conversation and a message the store refuses change nothing;
    otherwise "applied" counts a written row, "out of order" a refused backward
    move, and "new" an inserted message that is not a replay. *)
Theorem ingest_accounting ing m isDM isOld s :
  let out := IngestMessage ing m isDM isOld s in
  (ShouldIgnoreStatus (m_StatusRaw m) isDM = true ->
     out = (on_count count_ignored s, (zero_result, None))) /\
  (ShouldIgnoreStatus (m_StatusRaw m) isDM = false ->
     (m_ConversationID m = ""%string -> out.1 = s /\ out.2.2 <> None) /\
     (m_ConversationID m <> ""%string ->
        match UpsertMessage (in_upsert_ms ing) (in_AccountID ing) (m_ConversationID m) m
                (w_db (is_world s)) with
        | Err _ => out.1 = s /\ out.2.2 <> None
        | Ok (_, res) =>
            out.2.1 = res /\
            let c := is_count s in
            let c' := is_count out.1 in
            ct_ignored c' = ct_ignored c /\ ct_unknown c' = ct_unknown c /\
            ct_applied c' = (if res_Inserted res || res_Updated res
                             then add_one (ct_applied c) else ct_applied c) /\
            ct_outOfOrd c' = (if res_TransitionRefused res
                              then add_one (ct_outOfOrd c) else ct_outOfOrd c) /\
            ct_newMsgs c' = (if res_Inserted res && negb isOld
                             then add_one (ct_newMsgs c) else ct_newMsgs c)
        end)).
Proof.
  cbv zeta. split; [intros Hi; unfold IngestMessage; by rewrite Hi|]. intros Hi. split.
  { intros He. unfold IngestMessage. by rewrite Hi, decide_True. }
  intros He. rewrite IngestMessage_eq by done.
  destruct (UpsertMessage _ _ _ _ _) as [[db1 res]|e]; [|done].
  pose proof (after_upsert_counts ing m isOld res (on_world (set_db db1) s)) as Hc.
  destruct (after_upsert _ _ _ _ _) as [s' err]. simpl in *. rewrite Hc.
  by destruct (res_Inserted res && _), (res_Inserted res || _), (res_TransitionRefused res).
Qed.

(** An old message has no side effects, but is stored.  Ingesting a replay never
    touches an operation, a conversation's activity or the count of new messages;
    when it succeeds, its message row is exactly what the store's upsert makes of it,
    the same as for a live message up to the link to an operation. *)
Theorem old_message_no_side_effects ing m isDM s :
  nul_free (in_AccountID ing) = true -> nul_free (m_ConversationID m) = true ->
  nul_free (m_SourceID m) = true -> (0 < in_settle_ms ing)%Z ->
  let s' := (IngestMessage ing m isDM true s).1 in
  w_ops (is_world s') = w_ops (is_world s) /\
  db_conversations (w_db (is_world s')) = db_conversations (w_db (is_world s)) /\
  ct_newMsgs (is_count s') = ct_newMsgs (is_count s) /\
  (forall db1 res, ShouldIgnoreStatus (m_StatusRaw m) isDM = false ->
     m_ConversationID m <> ""%string ->
     UpsertMessage (in_upsert_ms ing) (in_AccountID ing) (m_ConversationID m) m
       (w_db (is_world s)) = Ok (db1, res) ->
     (IngestMessage ing m isDM true s).2.2 = None ->
     db_messages (w_db (is_world s')) = db_messages db1).
Proof.
  intros Ha Hc Hs Hnow. cbv zeta.
  destruct (upsert_then_tail ing m isDM true s Ha Hc Hs Hnow) as (_ & _ & Hold).
  destruct (Hold eq_refl) as (? & ? & ?). split_and!; try done.
  intros db1 res Hi Hne E. rewrite IngestMessage_eq by done. rewrite E.
  destruct (UpsertMessage_frame _ _ _ _ _ _ _ E) as (_ & _ & Eid).
  destruct (after_upsert _ _ _ _ _) as [s' err] eqn:Et. simpl. intros ->.
  apply after_upsert_activity in Et as (db6 & _ & Hm & ->); [|rewrite Eid; apply MessageID_nul_free|done].
  simpl. by apply Hm.
Qed.

(** Step 9.  After a message that was ingested without an error, its stored
    conversation has the later of the old activity and the message's time, and its
    latest message is this one exactly when the time moved forward; a replay and a
    message without a time leave the conversation as it was; no other conversation
    changes. *)
Theorem ingest_activity ing m isDM isOld s k r :
  nul_free (in_AccountID ing) = true -> nul_free (m_ConversationID m) = true ->
  nul_free (m_SourceID m) = true -> (0 < in_settle_ms ing)%Z ->
  ShouldIgnoreStatus (m_StatusRaw m) isDM = false -> m_ConversationID m <> ""%string ->
  (IngestMessage ing m isDM isOld s).2.2 = None ->
  db_conversations (w_db (is_world s)) !! k = Some r ->
  exists r', db_conversations (w_db (is_world (IngestMessage ing m isDM isOld s).1)) !! k = Some r' /\
    match isOld, m_Timestamp m with
    | false, Some t =>
        if decide (k = ConversationID (in_AccountID ing) (m_ConversationID m))
        then cv_last_activity_ms r' = Z.max (cv_last_activity_ms r) t /\
             cv_latest_message_id r' =
               (if decide (cv_last_activity_ms r < t)%Z
                then Some (MessageID (in_AccountID ing) (m_ConversationID m) (m_SourceID m))
                else cv_latest_message_id r) /\
             ((t <= cv_last_activity_ms r)%Z -> r' = r)
        else r' = r
    | _, _ => r' = r
    end.
Proof.
  intros Ha Hc Hs Hnow Hi Hne Hok Hk. rewrite IngestMessage_eq in * by done.
  destruct (UpsertMessage _ _ _ _ _) as [[db1 res]|e] eqn:E; [|done].
  destruct (UpsertMessage_frame _ _ _ _ _ _ _ E) as (Ec & _ & Eid).
  destruct (after_upsert _ _ _ _ _) as [s' err] eqn:Et. simpl in *. subst err.
  apply after_upsert_activity in Et as (db6 & Hc6 & _ & ->);
    [|rewrite Eid; apply MessageID_nul_free|done].
  rewrite Eid. simpl in Hc6. rewrite Ec in Hc6. clear - Hc6 Hk. unfold applyActivity.
  destruct isOld; [exists r; by rewrite Hc6|]. destruct (m_Timestamp m) as [t|];
    [|exists r; by rewrite Hc6].
  set (conv := ConversationID _ _). set (msg := MessageID _ _ _). rewrite Hc6.
  unfold BumpConversationActivity. rewrite Hc6.
  case_decide as Heq.
  - subst k. rewrite Hk. destruct (t <=? cv_last_activity_ms r)%Z eqn:Hle.
    + apply Z.leb_le in Hle. exists r. rewrite Hc6, decide_False by lia. split_and!; [done|lia|done..].
    + apply Z.leb_gt in Hle. simpl. rewrite lookup_insert_eq, decide_True by done.
      eexists. split_and!; [done|done| |lia].
      cbn [cv_latest_message_id with_activity]. by rewrite (proj2 (Z.ltb_lt _ _)).
  - exists r. split; [|done].
    destruct (db_conversations (w_db (is_world s)) !! conv) as [c|]; [case_match|]; simpl;
      rewrite ?lookup_insert_ne by done; by rewrite ?Hc6.
Qed.

(** The operation an echo finds: the newest with the tmp ID. *)
Lemma OperationByTmpID_found a tmp ops id r :
  rows_ok ops -> ops !! id = Some r -> has_tmp_id a tmp r = true ->
  exists r1, OperationByTmpID a tmp ops = Ok (scanOperation r1) /\
    ops !! op_id r1 = Some r1 /\ has_tmp_id a tmp r1 = true /\
    (op_created_at_ms r <= op_created_at_ms r1)%Z.
Proof.
  intros Hok Hid Ht. unfold OperationByTmpID.
  assert (r ∈ select_where (has_tmp_id a tmp) ops) as Hin
    by (apply elem_of_select_where; eauto).
  destruct (first_by _ _) as [r1|] eqn:E.
  - exists r1. pose proof (first_by_least _ _ _ E _ Hin) as Hle. simpl in Hle.
    apply first_by_elem, elem_of_select_where in E as (k & Hk & Hr1).
    destruct (Hok _ _ Hk) as (Ek & _). rewrite Ek. split_and!; [done..|lia].
  - apply first_by_None in E. rewrite E in Hin. by apply elem_of_nil in Hin.
Qed.

Lemma fill_messages msg size db :
  db_messages (FillMissingAttachmentSize msg size db) = db_messages db.
Proof. unfold FillMissingAttachmentSize. by case_match. Qed.

(** What the echo's settlement writes, in terms of the row. *)
Lemma settle_echo now id m ops r :
  rows_ok ops -> (0 < now)%Z -> id <> ""%string -> ops !! op_id r = Some r ->
  exists r', SettleOperation now (op_id r) (echo_settlement (scanOperation r) id m) ops =
      Ok (<[op_id r := r']> ops, scanOperation r') /\
    op_message_id r' = Some id /\
    let decided := bool_decide (op_status r = OpPending) || bool_decide (op_status r = OpUnknown) in
    let failed := bool_decide (m_DeliveryState m = DeliveryStateFailed) in
    op_status r' = (if decided then if failed then OpFailed else OpSucceeded else op_status r) /\
    op_terminal_at_ms r' =
      (if decided then coalesce (op_terminal_at_ms r) (Some now) else op_terminal_at_ms r) /\
    op_corrected_at_ms r' =
      (if bool_decide (op_status r = OpUnknown) then Some now else op_corrected_at_ms r) /\
    op_error_code r' = (if decided && failed then Some CodeGoogleError else None).
Proof.
  intros Hok Hnow Hid Hr. destruct (Hok _ _ Hr) as (_ & Ht & Hta & Hca).
  unfold SettleOperation. rewrite Hr. cbn [o_Status scanOperation].
  unfold echo_settlement. cbn [o_Status scanOperation].
  unfold settle_terminal_at, settle_corrected_at. cbn [o_Status o_TerminalAtMS o_CorrectedAtMS scanOperation].
  destruct (op_status r) eqn:Es; try rewrite Ht in Hta;
    destruct (op_terminal_at_ms r) as [t|]; simpl in Hta; try (by destruct Hta);
    destruct (op_corrected_at_ms r) as [c|]; try (by destruct Hca as [_ [|]]);
    destruct (decide (m_DeliveryState m = DeliveryStateFailed)) as [Hd|Hd]; simpl;
    rewrite ?(bool_decide_eq_true_2 _ Hd), ?(bool_decide_eq_false_2 _ Hd);
    (eexists; split; [reflexivity|]; simpl; rewrite (nullString_nonempty id Hid);
     split_and!; try done; repeat case_decide; try done; lia).
Qed.

(** C15: the remote echo settles its operation.  When an operation of this account
    carries the echo's tmp ID, the newest such operation gains the message's ID, and
    the message is linked back unless it already belongs to an operation.  A pending
    or unknown operation is settled: failed when the phone reported the message as
    failed, else succeeded, keeping a terminal time it already has, and an unknown one
    is stamped as corrected.  A running, succeeded or failed one keeps its status and
    its times; its error code is cleared.  Every other operation is untouched, and
    without such an operation nothing happens. *)
Theorem echo_settles ing id m w :
  rtc OpStep ∅ (w_ops w) -> (0 < in_settle_ms ing)%Z -> id <> ""%string ->
  let w' := correlateEcho ing id m w in
  let mine := has_tmp_id (in_AccountID ing) (m_TmpID m) in
  ((forall k r, w_ops w !! k = Some r -> mine r = false) -> w' = w) /\
  (forall k0 r0, w_ops w !! k0 = Some r0 -> mine r0 = true ->
   (forall k r, w_ops w !! k = Some r -> mine r = true -> op_id r <> ""%string) ->
   exists r r', w_ops w !! op_id r = Some r /\ mine r = true /\
    (op_created_at_ms r0 <= op_created_at_ms r)%Z /\
    w_ops w' = <[op_id r := r']> (w_ops w) /\ op_message_id r' = Some id /\
    (let decided := bool_decide (op_status r = OpPending) || bool_decide (op_status r = OpUnknown) in
     let failed := bool_decide (m_DeliveryState m = DeliveryStateFailed) in
     op_status r' = (if decided then if failed then OpFailed else OpSucceeded else op_status r) /\
     op_terminal_at_ms r' =
       (if decided then coalesce (op_terminal_at_ms r) (Some (in_settle_ms ing))
        else op_terminal_at_ms r) /\
     op_corrected_at_ms r' =
       (if bool_decide (op_status r = OpUnknown) then Some (in_settle_ms ing)
        else op_corrected_at_ms r) /\
     op_error_code r' = (if decided && failed then Some CodeGoogleError else None)) /\
    (forall msg, db_messages (w_db w) !! id = Some msg ->
       db_messages (w_db w') !! id =
         Some (match ms_operation_id msg with
               | None => with_operation (op_id r) msg
               | Some _ => msg
               end))).
Proof.
  intros Hops Hnow Hid. cbv zeta.
  assert (rows_ok (w_ops w)) as Hok by apply (table_ok_steps _ _ table_ok_empty Hops).
  split.
  { intros Hno. unfold correlateEcho, OperationByTmpID.
    replace (select_where _ (w_ops w)) with ([] : list OperationRow); [done|].
    symmetry. by apply select_where_nil. }
  intros k0 r0 Hr0 Hm0 Hne.
  destruct (OperationByTmpID_found _ _ _ _ _ Hok Hr0 Hm0) as (r & Hfind & Hr & Hm & Hle).
  destruct (settle_echo (in_settle_ms ing) id m (w_ops w) r Hok Hnow Hid Hr)
    as (r' & Hset & Hmsg & Hspec).
  exists r, r'. unfold correlateEcho. rewrite Hfind. change (o_ID (scanOperation r)) with (op_id r).
  set (w2 := if (0 <? _)%Z then _ else _).
  assert (w_ops w2 = w_ops w /\ db_messages (w_db w2) =
          db_messages (LinkMessageOperation id (op_id r) (w_db w))) as [Eo Em].
  { unfold w2. destruct (0 <? o_MediaSizeBytes (scanOperation r))%Z; split; try done. apply fill_messages. }
  rewrite Eo, Hset. simpl. split_and!; try done.
  - apply Hspec.
  - apply Hspec.
  - apply Hspec.
  - apply Hspec.
  - intros msg Hmid. rewrite Em. unfold LinkMessageOperation.
    rewrite (bool_decide_eq_false_2 _ Hid), (bool_decide_eq_false_2 _ (Hne _ _ Hr Hm)). simpl.
    rewrite Hmid. destruct (ms_operation_id msg); [done|]. simpl. by rewrite lookup_insert_eq.
Qed.

(** Ingesting a message that carries no reactions never changes a reaction, also
    when the stored message has some; and one that carries reactions leaves, when the
    parts are written without an error, exactly the set-replacement of
    [ReplaceReactions] on that message. *)
Theorem ingest_reactions ing m isDM isOld s :
  nul_free (in_AccountID ing) = true -> nul_free (m_ConversationID m) = true ->
  nul_free (m_SourceID m) = true -> (0 < in_settle_ms ing)%Z ->
  (m_Reactions m = [] ->
     db_reactions (w_db (is_world (IngestMessage ing m isDM isOld s).1)) =
     db_reactions (w_db (is_world s))) /\
  (forall id db db', m_Reactions m <> [] -> applyParts ing id m db = (db', None) ->
     exists db1, db_reactions db1 = db_reactions db /\
       db_messages db1 = db_messages db /\
       ReplaceReactions (in_reactions_ms ing)
         (ConversationID (in_AccountID ing) (m_ConversationID m)) id
         (myParticipant ing m db1) (m_Reactions m) db1 = Ok db').
Proof.
  intros Ha Hc Hs Hnow. split.
  - intros Hr. by apply (upsert_then_tail ing m isDM isOld s Ha Hc Hs Hnow).
  - intros id db db' Hne. unfold applyParts.
    destruct (apply_attachments ing id (m_DeliveryState m) (m_Attachments m) db) as [db1 [e|]] eqn:E;
      [done|].
    destruct (m_Reactions m) as [|x l]; [done|].
    destruct (ReplaceReactions _ _ _ _ _ db1) as [db2|e] eqn:Er; [|done]. intros [= <-].
    exists db1. split_and!; [..|done].
    + by apply (apply_attachments_reactions _ _ _ _ _ _ _ E).
    + by apply (apply_attachments_reactions _ _ _ _ _ _ _ E).
Qed.
End Theorems.

(** ** Witnesses: one sent message comes back while its operation is running *)

Definition demo_ingester : Ingester := mkIngester "acct_1" None 11 12 13 14.
Definition demo_counters : Counters := mkCounters 0 0 0 0 0.
Definition demo_state : IngestState :=
  mkIngestState (mkWorld demo_running demo_db1 ∅) demo_counters.

Lemma demo_db1_reach : rtc MsgStep empty_db demo_db1.
Proof.
  destruct (db_of_ok (UpsertConversation 1 "acct_1" demo_conv demo_account)) as [id1 H1];
    [vm_compute; reflexivity|].
  apply (rtc_l _ _ demo_account); [by apply (step_account empty_db "acct_1")|].
  apply rtc_once. by eapply step_conversation; [..|exact H1].
Qed.

Example ingest_is_history_witness :
  db_ok (w_db (is_world (IngestMessage demo_ingester (demo_msg 1) true false demo_state).1)).
Proof.
  exact (proj1 (proj2 (ingest_is_history demo_ingester (demo_msg 1) true false demo_state
    eq_refl eq_refl eq_refl eq_refl demo_db1_reach demo_running_reach))).
Defined.

Example ingest_accounting_witness :
  (IngestMessage demo_ingester (mkGmMessage "m1" "" "p1" "hello" "" None "" 1 MessageKindMessage
     DeliveryStateSent "" [] []) true false demo_state).1 = demo_state.
Proof.
  refine (proj1 (proj1 (proj2 (ingest_accounting demo_ingester (mkGmMessage "m1" "" "p1" "hello" ""
    None "" 1 MessageKindMessage DeliveryStateSent "" [] []) true false demo_state) _) _));
    vm_compute; reflexivity.
Defined.

Example old_message_no_side_effects_witness :
  w_ops (is_world (IngestMessage demo_ingester (demo_msg 1) true true demo_state).1) = demo_running /\
  is_Some (db_messages (w_db (is_world
    (IngestMessage demo_ingester (demo_msg 1) true true demo_state).1)) !! demo_msg_id).
Proof.
  destruct (old_message_no_side_effects demo_ingester (demo_msg 1) true demo_state
    eq_refl eq_refl eq_refl eq_refl) as (Ho & _ & _ & Hm).
  split; [exact Ho|].
  destruct (db_of_ok (UpsertMessage 11 "acct_1" "c1" (demo_msg 1) demo_db1)) as [res E];
    [vm_compute; reflexivity|].
  rewrite (Hm _ res ltac:(vm_compute; reflexivity) ltac:(discriminate) E
             ltac:(vm_compute; reflexivity)).
  apply (bool_decide_unpack _). vm_compute. exact I.
Defined.

Definition demo_conv_row : ConversationRow :=
  default (conversation_values 0 "" demo_conv) (db_conversations demo_db1 !! demo_conv_id).

Example ingest_activity_witness :
  exists r', db_conversations (w_db (is_world
      (IngestMessage demo_ingester (demo_msg 1) true false demo_state).1)) !! demo_conv_id = Some r' /\
    cv_last_activity_ms r' = 7%Z /\ cv_latest_message_id r' = Some demo_msg_id.
Proof.
  destruct (ingest_activity demo_ingester (demo_msg 1) true false demo_state demo_conv_id
    demo_conv_row eq_refl eq_refl eq_refl eq_refl) as (r' & Hr' & Hm).
  - vm_compute. reflexivity.
  - discriminate.
  - vm_compute. reflexivity.
  - vm_compute. reflexivity.
  - exists r'. split; [exact Hr'|]. destruct Hm as (Ha & Hl & _).
    split; [rewrite Ha; vm_compute; reflexivity|]. rewrite Hl. vm_compute. reflexivity.
Defined.

(** The operation's request is still in flight: the echo only adds the message. *)
Example echo_settles_witness :
  exists r', w_ops (correlateEcho demo_ingester "msg_1" (demo_msg 1) (mkWorld demo_running demo_db1 ∅)) =
      <["op_1"%string := r']> demo_running /\
    op_status r' = OpRunning /\ op_message_id r' = Some "msg_1"%string.
Proof.
  destruct (echo_settles demo_ingester "msg_1" (demo_msg 1) (mkWorld demo_running demo_db1 ∅)
    demo_running_reach eq_refl ltac:(discriminate)) as [_ He].
  assert (forall k r, demo_running !! k = Some r -> r = demo_op_row) as Honly.
  { intros k r Hr. unfold demo_running in Hr.
    apply lookup_insert_Some in Hr as [[_ <-]|[_ Hr]]; [reflexivity|].
    rewrite lookup_empty in Hr. discriminate Hr. }
  destruct (He "op_1"%string demo_op_row eq_refl ltac:(vm_compute; reflexivity))
    as (r & r' & Hr & _ & _ & Ho & Hm & (Hs & _) & _).
  - intros k r Hr _. rewrite (Honly _ _ Hr). discriminate.
  - apply Honly in Hr as ->. exists r'. split; [exact Ho|]. split; [exact Hs|exact Hm].
Defined.

(** The stored reaction of the first event survives an event that has none. *)
Example ingest_reactions_witness :
  db_reactions (w_db (is_world (IngestMessage demo_ingester (mkGmMessage "m1" "c1" "p1" "edited" ""
    (Some 7%Z) "" 1 MessageKindMessage DeliveryStateSent "" [] []) true false
    (IngestMessage demo_ingester (demo_msg 1) true false demo_state).1).1)) =
  db_reactions (w_db (is_world (IngestMessage demo_ingester (demo_msg 1) true false demo_state).1)).
Proof.
  exact (proj1 (ingest_reactions demo_ingester (mkGmMessage "m1" "c1" "p1" "edited" ""
    (Some 7%Z) "" 1 MessageKindMessage DeliveryStateSent "" [] []) true false
    (IngestMessage demo_ingester (demo_msg 1) true false demo_state).1
    eq_refl eq_refl eq_refl eq_refl) eq_refl).
Defined.
