(* ===== verification/Emoji.v ===== *)
(** * Reaction emoji (internal/gm/emoji.go)

    Google's closed reaction enum, its numeric values, and the canonical form every
    emoji is brought to before an ID is derived from it or a path segment is matched.
    Unicode normalisation is a third-party package and a parameter. *)

From S2P Require Import Prelude.

(** [norm.NFC.String]. *)
Class Norm := { NFC : string -> string }.

(** ** EmojiType *)

Definition EmojiTypeUnspecified : string := "unspecified".
Definition EmojiTypeLike : string := "like".
Definition EmojiTypeLove : string := "love".
Definition EmojiTypeLaugh : string := "laugh".
Definition EmojiTypeSurprised : string := "surprised".
Definition EmojiTypeSad : string := "sad".
Definition EmojiTypeAngry : string := "angry".
Definition EmojiTypeDislike : string := "dislike".
Definition EmojiTypeCustom : string := "custom".
Definition EmojiTypeQuestioning : string := "questioning".
Definition EmojiTypeCryingFace : string := "crying_face".
Definition EmojiTypePoutingFace : string := "pouting_face".
Definition EmojiTypeRedHeart : string := "red_heart".
Definition EmojiTypeEmotify : string := "emotify".

Definition emojiTypeByRaw : gmap Z string := list_to_map [
  (0%Z, EmojiTypeUnspecified);
  (1%Z, EmojiTypeLike);
  (2%Z, EmojiTypeLove);
  (3%Z, EmojiTypeLaugh);
  (4%Z, EmojiTypeSurprised);
  (5%Z, EmojiTypeSad);
  (6%Z, EmojiTypeAngry);
  (7%Z, EmojiTypeDislike);
  (8%Z, EmojiTypeCustom);
  (9%Z, EmojiTypeQuestioning);
  (10%Z, EmojiTypeCryingFace);
  (11%Z, EmojiTypePoutingFace);
  (12%Z, EmojiTypeRedHeart);
  (13%Z, EmojiTypeEmotify)].

Definition rawByEmojiType : gmap string Z :=
  list_to_map ((fun kv : Z * string => (kv.2, kv.1)) <$> map_to_list emojiTypeByRaw).

(** The UTF-8 encodings of the code points in the source. *)
Definition canonicalUnicode : gmap string string := list_to_map [
  (EmojiTypeLike, "👍"%string);
  (EmojiTypeLove, "😍"%string);
  (EmojiTypeLaugh, "😂"%string);
  (EmojiTypeSurprised, "😮"%string);
  (EmojiTypeSad, "😥"%string);
  (EmojiTypeAngry, "😠"%string);
  (EmojiTypeDislike, "👎"%string);
  (EmojiTypeQuestioning, "🤔"%string);
  (EmojiTypeCryingFace, "😢"%string);
  (EmojiTypePoutingFace, "😡"%string);
  (EmojiTypeRedHeart, "❤️"%string)].

Definition EmojiTypeForRaw (raw : Z) : string * bool :=
  match emojiTypeByRaw !! raw with
  | None => (EmojiTypeCustom, false)
  | Some t => (t, true)
  end.

Definition RawEmojiType (t : string) : Z * bool :=
  match rawByEmojiType !! t with
  | None => (0%Z, false)
  | Some raw => (raw, true)
  end.

(** The cases of the switch, in its order. *)
Definition emojiCases : list (string * string) := [
  ("👍"%string, EmojiTypeLike);
  ("😍"%string, EmojiTypeLove);
  ("😂"%string, EmojiTypeLaugh);
  ("😮"%string, EmojiTypeSurprised);
  ("😥"%string, EmojiTypeSad);
  ("😠"%string, EmojiTypeAngry);
  ("👎"%string, EmojiTypeDislike);
  ("🤔"%string, EmojiTypeQuestioning);
  ("😢"%string, EmojiTypeCryingFace);
  ("😡"%string, EmojiTypePoutingFace);
  ("❤"%string, EmojiTypeRedHeart);
  ("❤️"%string, EmojiTypeRedHeart)].

Fixpoint switch (cases : list (string * string)) (default_ e : string) : string :=
  match cases with
  | [] => default_
  | (k, t) :: cases' => if decide (e = k) then t else switch cases' default_ e
  end.

Section Emoji.
Context `{Norm}.

Definition EmojiTypeForUnicode (emoji : string) : string :=
  switch emojiCases EmojiTypeCustom (NFC emoji).

Definition CanonicalEmoji (t raw : string) : option string :=
  match canonicalUnicode !! t with
  | Some u => Some u
  | None =>
      if decide (t = EmojiTypeCustom /\ raw <> ""%string) then Some (NFC raw) else None
  end.

Definition CanonicaliseEmojiInput (input : string) : string * option string :=
  let t := EmojiTypeForUnicode input in (t, CanonicalEmoji t input).
End Emoji.

(** What the code relies on of NFC: it is idempotent, maps only the empty string to
    the empty string, and leaves the code points of the table alone. *)
Class NormLaws `{Norm} := {
  NFC_idemp s : NFC (NFC s) = NFC s;
  NFC_empty s : NFC s = ""%string <-> s = ""%string;
  NFC_table k t : (k, t) ∈ emojiCases -> NFC k = k;
}.

(** ** Lemmas *)

Lemma switch_cases cases d e :
  (exists t, (e, t) ∈ cases /\ switch cases d e = t) \/ switch cases d e = d.
Proof.
  induction cases as [|[k t] cases IH]; simpl; [by right|].
  setoid_rewrite elem_of_cons. case_decide as Hk; [left; subst; eauto|].
  destruct IH as [(t' & ? & ?)|?]; [left; eauto|by right].
Qed.

(** The forward and backward tables. *)
Lemma raw_types :
  forallb (fun p : Z * string => bool_decide (rawByEmojiType !! p.2 = Some p.1))
    (map_to_list emojiTypeByRaw) = true /\
  forallb (fun p : string * Z => bool_decide (emojiTypeByRaw !! p.2 = Some p.1))
    (map_to_list rawByEmojiType) = true.
Proof. split; vm_compute; reflexivity. Qed.

(** Every case's type has a canonical form, which is a case of the same type. *)
Lemma cases_canonical :
  forallb (fun p : string * string =>
    match canonicalUnicode !! p.2 with
    | Some u => bool_decide ((u, p.2) ∈ emojiCases) &&
                bool_decide (switch emojiCases EmojiTypeCustom u = p.2) &&
                bool_decide (p.2 <> EmojiTypeCustom)
    | None => false
    end) emojiCases = true.
Proof. vm_compute. reflexivity. Qed.

Lemma case_canonical k t :
  (k, t) ∈ emojiCases ->
  exists u, canonicalUnicode !! t = Some u /\ (u, t) ∈ emojiCases /\
    switch emojiCases EmojiTypeCustom u = t /\ t <> EmojiTypeCustom.
Proof.
  intros Hin. pose proof (proj1 (forallb_forall _ _) cases_canonical (k, t)) as Hf.
  specialize (Hf (proj1 (list_elem_of_In _ _) Hin)). cbn [snd] in Hf.
  destruct (canonicalUnicode !! t) as [u|]; [|done].
  rewrite !andb_true_iff, !bool_decide_eq_true in Hf. exists u. tauto.
Qed.

Lemma case_nonempty t : (""%string, t) ∉ emojiCases.
Proof.
  intros Hin%list_elem_of_In.
  assert (forallb (fun p : string * string => negb (bool_decide (p.1 = ""%string))) emojiCases = true)
    as Hf by (vm_compute; reflexivity).
  rewrite forallb_forall in Hf. by apply Hf in Hin.
Qed.

Lemma custom_no_unicode : canonicalUnicode !! EmojiTypeCustom = None.
Proof. vm_compute. reflexivity. Qed.

(** ** Properties *)
Section Theorems.
Context `{NormLaws}.

(** The two ways [CanonicaliseEmojiInput] can come out. *)
Lemma canonicalise_cases s :
  (exists t u, CanonicaliseEmojiInput s = (t, Some u) /\ (NFC s, t) ∈ emojiCases /\
     canonicalUnicode !! t = Some u) \/
  (switch emojiCases EmojiTypeCustom (NFC s) = EmojiTypeCustom /\
   CanonicaliseEmojiInput s =
     (EmojiTypeCustom, if decide (s = ""%string) then None else Some (NFC s))).
Proof.
  unfold CanonicaliseEmojiInput, EmojiTypeForUnicode, CanonicalEmoji.
  destruct (switch_cases emojiCases EmojiTypeCustom (NFC s)) as [(t & Hin & ->)|Hs].
  - destruct (case_canonical _ _ Hin) as (u & Hu & _). left. exists t, u. by rewrite Hu.
  - right. split; [exact Hs|]. rewrite Hs, custom_no_unicode. f_equal.
    destruct (decide (s = ""%string)) as [->|Hne]; [by rewrite decide_False by tauto|].
    by rewrite decide_True.
Qed.

(** Canonicalisation of an emoji.  Two spellings with the same normal form are the
    same reaction; the canonical form is a fixed point, so an emoji read back from a
    reaction addresses the same reaction; only the empty input has no canonical form;
    and an emoji that is not custom comes out as the one spelling of its type. *)
Theorem emoji_canonical s :
  (forall s', NFC s' = NFC s -> CanonicaliseEmojiInput s' = CanonicaliseEmojiInput s) /\
  ((CanonicaliseEmojiInput s).2 = None <-> s = ""%string) /\
  (forall t c, CanonicaliseEmojiInput s = (t, Some c) -> CanonicaliseEmojiInput c = (t, Some c)) /\
  ((CanonicaliseEmojiInput s).1 <> EmojiTypeCustom ->
     (CanonicaliseEmojiInput s).2 = canonicalUnicode !! (CanonicaliseEmojiInput s).1 /\
     is_Some (canonicalUnicode !! (CanonicaliseEmojiInput s).1)).
Proof.
  split_and!.
  - intros s' E. unfold CanonicaliseEmojiInput, EmojiTypeForUnicode, CanonicalEmoji. rewrite E.
    assert (s' = ""%string <-> s = ""%string) as Hne by (by rewrite <- (NFC_empty s'), E, NFC_empty).
    f_equal. case_match; [done|]. apply decide_ext. tauto.
  - destruct (canonicalise_cases s) as [(t & u & -> & Hin & _)|[_ ->]]; simpl.
    + split; [done|]. intros ->. rewrite (proj2 (NFC_empty "") eq_refl) in Hin.
      by destruct (case_nonempty _ Hin).
    + by case_decide.
  - intros t c. destruct (canonicalise_cases s) as [(t' & u & -> & Hin & Hu)|[Hs ->]].
    + intros [= -> ->]. destruct (case_canonical _ _ Hin) as (c' & Hc' & Hin' & Hsw & _).
      assert (c' = c) as -> by congruence.
      unfold CanonicaliseEmojiInput, EmojiTypeForUnicode, CanonicalEmoji.
      by rewrite (NFC_table _ _ Hin'), Hsw, Hu.
    + case_decide as Hne; [done|]. intros [= <- <-].
      unfold CanonicaliseEmojiInput, EmojiTypeForUnicode, CanonicalEmoji.
      rewrite NFC_idemp, Hs, custom_no_unicode, decide_True; [done|].
      split; [done|]. by rewrite NFC_empty.
  - destruct (canonicalise_cases s) as [(t & u & -> & Hin & Hu)|[_ ->]]; [|done].
    intros _. simpl. by rewrite Hu.
Qed.

(** The raw values.  Numbering and naming are inverse to each other on the
    fourteen types; any other number is reported as custom and as unknown, and any
    other name has no number. *)
Theorem emoji_raw_roundtrip raw t :
  (EmojiTypeForRaw raw = (t, true) <-> RawEmojiType t = (raw, true)) /\
  ((EmojiTypeForRaw raw).2 = false -> EmojiTypeForRaw raw = (EmojiTypeCustom, false)) /\
  ((EmojiTypeForRaw raw).2 = true <-> (0 <= raw <= 13)%Z).
Proof.
  destruct raw_types as [Hf Hb]. unfold EmojiTypeForRaw, RawEmojiType. split_and!.
  - rewrite forallb_forall in Hf, Hb. split.
    + destruct (emojiTypeByRaw !! raw) as [t'|] eqn:E; [|done]. intros [= ->].
      apply elem_of_map_to_list, list_elem_of_In, Hf, bool_decide_eq_true in E.
      cbn [fst snd] in E. by rewrite E.
    + destruct (rawByEmojiType !! t) as [r|] eqn:E; [|done]. intros [= ->].
      apply elem_of_map_to_list, list_elem_of_In, Hb, bool_decide_eq_true in E.
      cbn [fst snd] in E. by rewrite E.
  - by destruct (emojiTypeByRaw !! raw).
  - split.
    + destruct (emojiTypeByRaw !! raw) as [t'|] eqn:E; [|done]. intros _.
      apply elem_of_list_to_map_2 in E. rewrite list_elem_of_In in E. simpl in E.
      repeat destruct E as [[= <- _]|E]; lia || done.
    + intros Hr.
      assert (raw ∈ seqZ 0 14) as Hin by (apply elem_of_seqZ; lia).
      assert (forallb (fun r => bool_decide (is_Some (emojiTypeByRaw !! r))) (seqZ 0 14) = true) as Ha
        by (vm_compute; reflexivity).
      rewrite forallb_forall in Ha. apply list_elem_of_In, Ha, bool_decide_eq_true in Hin.
      destruct Hin as [t' ->]. done.
Qed.
End Theorems.

(** ** Witnesses: no input is changed by the normalisation *)

#[export] Instance plain_norm : Norm := { NFC s := s }.

#[export] Instance plain_norm_laws : NormLaws.
Proof. by split. Qed.

(** Both spellings of a heart are one reaction. *)
Example emoji_canonical_witness :
  CanonicaliseEmojiInput "❤" = (EmojiTypeRedHeart, Some "❤️"%string) /\
  CanonicaliseEmojiInput "❤️" = (EmojiTypeRedHeart, Some "❤️"%string).
Proof.
  assert (CanonicaliseEmojiInput "❤" = (EmojiTypeRedHeart, Some "❤️"%string)) as E
    by (vm_compute; reflexivity).
  split; [exact E|].
  exact (proj1 (proj2 (proj2 (emoji_canonical "❤"))) _ _ E).
Defined.

Example emoji_raw_roundtrip_witness : RawEmojiType EmojiTypeRedHeart = (12%Z, true).
Proof. apply (proj1 (emoji_raw_roundtrip 12 EmojiTypeRedHeart)). vm_compute. reflexivity. Defined.
