(* ===== verification/Mutations.v ===== *)
(** * The mutations (internal/core/mutations.go, internal/core/reactions.go,
      [freshSend] of internal/core/refresh.go)

    One function per mutation kind: resolve the object, check that the account may
    write and that the thread and the object allow the action, and only then enter
    the pipeline of Pipeline.v with the library call.  The library (the interface
    [gm.Backend]) and the clock are parameters that may do anything to the state of
    the process, so a call stands for everything that happens while it is in flight.
    The theorems: nothing happens to the state and no operation exists unless every
    check passed; what the local half of a reaction leaves behind; which reaction a
    removal addresses. *)

From S2P Require Import Prelude Delivery Ids Operations Errors GoStrings Messages Capability Pipeline Ingest Emoji.

(** ** The library's requests and operations *)

Record SendTextRequest := mkSendTextRequest {
  str_ConversationID : string;
  str_ParticipantID : string;
  str_Text : string;
  str_TmpID : string;
  str_ReplyToMessageID : string;
  str_ForceRCS : bool;
  str_SIMPayload : string;
}.

Record MediaRef := mkMediaRef {
  mr_MediaID : string;
  mr_Format : string;
  mr_Name : string;
  mr_SizeBytes : Z;
  mr_DecryptionKey : string;
  mr_MimeType : string;
}.

Record SendMediaRequest := mkSendMediaRequest {
  smr_ConversationID : string;
  smr_ParticipantID : string;
  smr_Media : MediaRef;
  smr_Caption : string;
  smr_TmpID : string;
  smr_ReplyToMessageID : string;
  smr_ForceRCS : bool;
  smr_SIMPayload : string;
}.

Definition ReactionActionAdd : Z := 1.
Definition ReactionActionRemove : Z := 2.
Definition ReactionActionSwitch : Z := 3.

Definition Step (A : Type) : Type := World -> World * A.

(** [gm.Backend], as far as the mutations use it, the clock's [Sleep], and the decoding
    of the stored SIM payload.  [be_WithSession] is the optional interface: it is given
    the request as a step on the state and the result variable the closure assigns. *)
Class Backend := {
  be_SendText : SendTextRequest -> Step (Z * option GoError);
  be_SendMedia : SendMediaRequest -> Step (Z * option GoError);
  be_React : string -> string -> Z -> Step (option GoError);
  be_DeleteMessage : string -> Step (option GoError);
  be_MarkRead : string -> string -> Step (option GoError);
  be_DeleteConversation : string -> string -> Step (option GoError);
  be_ResolveConversation :
    list string -> string -> Step (Result GoError (option GmConversation * Z));
  be_CompiledConfigVersion : ConfigVersion;
  be_FetchConfig : Step (Result GoError ConfigVersion);
  be_GetConversation : string -> Step (Result GoError (option GmConversation));
  be_WithSession : option
    ((World * MutationResult -> (World * MutationResult) * option GoError) ->
     World * MutationResult -> (World * MutationResult) * option GoError);
  clk_Sleep : Z -> Step (option GoError);
  json_Unmarshal_bytes : string -> string;
}.

(** A list of guards: the first refusal, or the checked value. *)
Definition check (e : option ApiFields) : Result GoError unit :=
  match e with Some e => Err (api_error e) | None => Ok tt end.

Definition guarded {A} (g : Result GoError A) (k : A -> Step MutationResult) : Step MutationResult :=
  fun w => match g with Err e => (w, refused e) | Ok x => k x w end.

Section Mutations.
Context `{GoFmt} `{UUID} `{Digest} `{JSONLib} `{Norm} `{Backend}.

(** ** Shared resolution.  [a] is the account's engine: its ID and clock readings. *)

Definition conversation (a : Ingester) (id : string) (w : World) : Result GoError ConversationRow :=
  _ ← check (CheckIDPrefix id "conversation_id" PrefixConversation);
  match db_conversations (w_db w) !! id with
  | None => Err (api_error (NotFound "No such conversation."))
  | Some conv =>
      _ ← check (CheckObjectAccount "conversation_id" id (cv_account_id conv) (in_AccountID a));
      Ok conv
  end.

Definition message (a : Ingester) (id : string) (w : World) : Result GoError MessageRow :=
  _ ← check (CheckIDPrefix id "message_id" PrefixMessage);
  match db_messages (w_db w) !! id with
  | None => Err (api_error (NotFound "No such message."))
  | Some msg =>
      _ ← check (CheckObjectAccount "message_id" id (ms_account_id msg) (in_AccountID a));
      Ok msg
  end.

Definition ErrAccountNotFound : GoError := EOther "account not found".

Definition writableAccount (a : Ingester) (w : World) : Result GoError unit :=
  match w_accounts w !! in_AccountID a with
  | None => Err ErrAccountNotFound
  | Some row => check (CheckAccountWritable row)
  end.

Definition writableConversation (a : Ingester) (conversationID action : string) (w : World)
    : Result GoError ConversationRow :=
  conv ← conversation a conversationID w;
  _ ← writableAccount a w;
  _ ← check (CheckConversationActionable conversationID conv action);
  Ok conv.

Definition simPayload (conv : ConversationRow) : string :=
  match cv_sim_payload_json conv with
  | Some j => if decide (j = ""%string) then ""%string else json_Unmarshal_bytes j
  | None => ""%string
  end.

(** ** Sends *)

Record SendTextInput := mkSendTextInput {
  sti_Request : Request;
  sti_Text : string;
  sti_ReplyToMessageID : string;
  sti_ForceRCS : bool;
}.

Definition sendable (a : Ingester) (conversationID replyTo : string) (forceRCS : bool) (w : World)
    : Result GoError ConversationRow :=
  conv ← writableConversation a conversationID "send" w;
  _ ← check (CheckReplySupported conversationID conv replyTo);
  _ ← check (CheckForceRCS conversationID conv forceRCS);
  Ok conv.

Definition sendText_call (convID : string) (conv : ConversationRow) (i : SendTextInput) : Call :=
  fun op w =>
    let '(w', (status, err)) :=
      SendWithRetry (be_SendText {|
        str_ConversationID := cv_source_id conv;
        str_ParticipantID := scanString (cv_default_outgoing_id conv);
        str_Text := sti_Text i; str_TmpID := o_TmpID op;
        str_ReplyToMessageID := sti_ReplyToMessageID i; str_ForceRCS := sti_ForceRCS i;
        str_SIMPayload := simPayload conv |}) clk_Sleep w in
    (w', (mkOutcome "" convID status, err)).

Definition sendText (a : Ingester) (env : RunEnv) (i : SendTextInput) : Step MutationResult :=
  fun w =>
    let convID := rq_ConversationID (sti_Request i) in
    guarded (sendable a convID (sti_ReplyToMessageID i) (sti_ForceRCS i) w)
      (fun conv => runOperation env (in_AccountID a) KindSendText (sti_Request i)
                     (sendText_call convID conv i)) w.

Record SendMediaInput := mkSendMediaInput {
  smi_Request : Request;
  smi_Media : MediaRef;
  smi_Caption : string;
  smi_ReplyToMessageID : string;
  smi_ForceRCS : bool;
}.

(** The byte count is written before the send.  [SetOperationMediaSize] cannot fail
    here: it updates one row. *)
Definition sendMedia_call (env : RunEnv) (convID : string) (conv : ConversationRow)
    (i : SendMediaInput) : Call :=
  fun op w =>
    let w := set_ops (SetOperationMediaSize (env_media_ms env) (o_ID op)
                        (mr_SizeBytes (smi_Media i)) (w_ops w)) w in
    let '(w', (status, err)) :=
      SendWithRetry (be_SendMedia {|
        smr_ConversationID := cv_source_id conv;
        smr_ParticipantID := scanString (cv_default_outgoing_id conv);
        smr_Media := smi_Media i; smr_Caption := smi_Caption i; smr_TmpID := o_TmpID op;
        smr_ReplyToMessageID := smi_ReplyToMessageID i; smr_ForceRCS := smi_ForceRCS i;
        smr_SIMPayload := simPayload conv |}) clk_Sleep w in
    (w', (mkOutcome "" convID status, err)).

Definition sendMedia (a : Ingester) (env : RunEnv) (i : SendMediaInput) : Step MutationResult :=
  fun w =>
    let convID := rq_ConversationID (smi_Request i) in
    guarded (sendable a convID (smi_ReplyToMessageID i) (smi_ForceRCS i) w)
      (fun conv => runOperation env (in_AccountID a) KindSendMedia (smi_Request i)
                     (sendMedia_call env convID conv i)) w.

(** ** freshSend: with a freshener, a send first refreshes the thread *)

(** The ingest's counters are not part of [World]. *)
Definition ingest_conversation (a : Ingester) (c : GmConversation) : Step (Result GoError string) :=
  fun w =>
    let '(s, r) := IngestConversation a c (mkIngestState w (mkCounters 0 0 0 0 0)) in
    (is_world s, r).

Definition refreshMetadata (a : Ingester) (c : ConversationRow) : Step (option GoError) :=
  fun w =>
    match be_GetConversation (cv_source_id c) w with
    | (w1, Err e) => (w1, Some e)
    | (w1, Ok fresh) =>
        match fresh with
        | None => (w1, Some (api_error (NotFound "conversation")))
        | Some f =>
            if decide (c_SourceID f = cv_source_id c) then
              match ingest_conversation a f w1 with
              | (w2, Err e) => (w2, Some e)
              | (w2, Ok _) => (w2, None)
              end
            else (w1, Some (api_error (NotFound "conversation")))
        end
    end.

Definition no_result : MutationResult := mkMutationResult None false false None.

Definition withSession
    (fn : World * MutationResult -> (World * MutationResult) * option GoError)
    : World * MutationResult -> (World * MutationResult) * option GoError :=
  match be_WithSession with Some ws => ws fn | None => fn end.

(** The body of the session: [result] is assigned by the send only. *)
Definition fresh_body (a : Ingester) (c : ConversationRow) (send : Step MutationResult)
    (s : World * MutationResult) : (World * MutationResult) * option GoError :=
  match refreshMetadata a c s.1 with
  | (w1, Some e) => ((w1, s.2), Some e)
  | (w1, None) => let '(w2, r) := send w1 in ((w2, r), rs_err r)
  end.

(** The local checks; [gate] is the error of waiting for the account's lock. *)
Definition fresh_guards (a : Ingester) (gate : option GoError) (id : string) (w : World)
    : Result GoError ConversationRow :=
  _ ← (match gate with Some e => Err e | None => Ok tt end : Result GoError unit);
  c ← (match db_conversations (w_db w) !! id with
       | None => Err (EOther "sql: no rows in result set")
       | Some c => Ok c
       end : Result GoError ConversationRow);
  _ ← check (if decide (cv_account_id c = in_AccountID a) then None
             else Some (NotFound "conversation"));
  _ ← writableAccount a w;
  Ok c.

Definition freshSend (a : Ingester) (gate : option GoError) (id : string)
    (send : Step MutationResult) : Step MutationResult :=
  fun w => guarded (fresh_guards a gate id w) (fun c w =>
    let '((w', result), err) := withSession (fresh_body a c send) (w, no_result) in
    (w', mkMutationResult (rs_Operation result) (rs_Replayed result) (rs_Changed result) err)) w.

(** [SendText] and [SendMedia]: [fresh] is the freshener's lock, when there is one. *)
Definition SendText (a : Ingester) (fresh : option (option GoError)) (env : RunEnv)
    (i : SendTextInput) : Step MutationResult :=
  match fresh with
  | Some gate => freshSend a gate (rq_ConversationID (sti_Request i)) (sendText a env i)
  | None => sendText a env i
  end.

Definition SendMedia (a : Ingester) (fresh : option (option GoError)) (env : RunEnv)
    (i : SendMediaInput) : Step MutationResult :=
  match fresh with
  | Some gate => freshSend a gate (rq_ConversationID (smi_Request i)) (sendMedia a env i)
  | None => sendMedia a env i
  end.

(** ** StartConversation *)

Record StartConversationInput := mkStartConversationInput {
  sci_Request : Request;
  sci_Numbers : list string;
  sci_GroupName : string;
}.

Definition resolve_error (e : ResolveError) : GoError :=
  match e with
  | ErrResolveNoConversation => EOther "google answered SUCCESS with no conversation"
  | ResolveRefused (Some e) => error_of e
  | ResolveRefused None => EOther ""
  end.

Definition StartConversation_call (a : Ingester) (i : StartConversationInput) : Call :=
  fun _ w =>
    match be_ResolveConversation (sci_Numbers i) (sci_GroupName i) w with
    | (w1, Err e) => (w1, (no_outcome, Some e))
    | (w1, Ok (found, status)) =>
        let '(w2, cfg) := be_FetchConfig w1 in
        let live := match cfg with Ok v => v | Err _ => be_CompiledConfigVersion end in
        match ClassifyResolve found status be_CompiledConfigVersion live with
        | Err e => (w2, (mkOutcome "" "" status, Some (resolve_error e)))
        | Ok conv =>
            match ingest_conversation a conv w2 with
            | (w3, Err e) => (w3, (no_outcome, Some e))
            | (w3, Ok id) => (w3, (mkOutcome "" id status, None))
            end
        end
    end.

Definition StartConversation (a : Ingester) (env : RunEnv) (i : StartConversationInput)
    : Step MutationResult :=
  fun w =>
    guarded (check (match sci_Numbers i with [] => Some (MissingParameter "to") | _ => None end))
      (fun _ => runOperation env (in_AccountID a) KindStartConversation (sci_Request i)
                  (StartConversation_call a i)) w.

(** ** MarkRead, DeleteMessage, DeleteConversation *)

Record MarkReadInput := mkMarkReadInput { mri_Request : Request; mri_MessageID : string }.

Definition MarkRead (a : Ingester) (env : RunEnv) (i : MarkReadInput) : Step MutationResult :=
  fun w =>
    let convID := rq_ConversationID (mri_Request i) in
    let guards :=
      conv ← writableConversation a convID "mark_read" w;
      sourceMsg ← (if decide (mri_MessageID i = ""%string) then Ok ""%string
                   else m ← message a (mri_MessageID i) w; Ok (ms_source_id m)
                   : Result GoError string);
      Ok (conv, sourceMsg) in
    guarded guards (fun '(conv, sourceMsg) =>
      runOperation env (in_AccountID a) KindMarkRead (mri_Request i) (fun _ w =>
        let '(w', err) := be_MarkRead (cv_source_id conv) sourceMsg w in
        (w', (mkOutcome "" convID 0, err)))) w.

Definition with_conversation (req : Request) (conversationID : string) : Request :=
  mkRequest (rq_AuthorizationID req) (rq_Key req) (rq_Body req) conversationID.

Record DeleteMessageInput := mkDeleteMessageInput { dmi_Request : Request; dmi_MessageID : string }.

Definition DeleteMessage (a : Ingester) (env : RunEnv) (i : DeleteMessageInput)
    : Step MutationResult :=
  fun w =>
    let guards :=
      msg ← message a (dmi_MessageID i) w;
      _ ← writableConversation a (ms_conversation_id msg) "delete" w;
      _ ← check (CheckMyMessage (dmi_MessageID i) msg "delete");
      Ok msg in
    guarded guards (fun msg =>
      let convID := ms_conversation_id msg in
      runOperation env (in_AccountID a) KindDeleteMessage
        (with_conversation (dmi_Request i) convID) (fun _ w =>
        let '(w', err) := be_DeleteMessage (ms_source_id msg) w in
        (w', (mkOutcome (dmi_MessageID i) convID 0, err)))) w.

Record DeleteConversationInput := mkDeleteConversationInput {
  dci_Request : Request;
  dci_ConversationID : string;
}.

(** [ORDER BY source_id]. *)
Definition by_source (x y : ParticipantRow) : Prop := String.le (pt_source_id x) (pt_source_id y).

#[local] Instance by_source_dec : RelDecision by_source.
Proof. intros x y. unfold by_source. apply _. Defined.

Definition Participants (conversationID : string) (db : DB) : list ParticipantRow :=
  merge_sort by_source
    (select_where (fun p => bool_decide (pt_conversation_id p = conversationID))
       (db_participants db)).

Definition firstOtherParticipantPhone (conversationID : string) (db : DB) : string :=
  match List.find (fun p => negb (pt_is_me p) &&
                            negb (bool_decide (scanString (pt_phone_e164 p) = ""%string)))
          (Participants conversationID db) with
  | Some p => scanString (pt_phone_e164 p)
  | None => ""%string
  end.

Definition DeleteConversation (a : Ingester) (env : RunEnv) (i : DeleteConversationInput)
    : Step MutationResult :=
  fun w =>
    let convID := dci_ConversationID i in
    guarded (writableConversation a convID "delete" w) (fun conv =>
      let phone := firstOtherParticipantPhone convID (w_db w) in
      runOperation env (in_AccountID a) KindDeleteConv
        (with_conversation (dci_Request i) convID) (fun _ w =>
        let '(w', err) := be_DeleteConversation (cv_source_id conv) phone w in
        (w', (mkOutcome "" convID 0, err)))) w.

(** ** Reactions *)

(** A reaction row with its key: the message and the participant. *)
Definition Reaction : Type := (string * string) * ReactionRow.

Definition by_participant (x y : Reaction) : Prop := String.le x.1.2 y.1.2.

#[local] Instance by_participant_dec : RelDecision by_participant.
Proof. intros x y. unfold by_participant. apply _. Defined.

Definition ReactionsForMessage (messageID : string) (db : DB) : list Reaction :=
  merge_sort by_participant
    (List.filter (fun kv : Reaction => bool_decide (kv.1.1 = messageID))
       (map_to_list (db_reactions db))).

Definition ReactionByID (id : string) (db : DB) : option Reaction :=
  List.find (fun kv : Reaction => bool_decide (re_id kv.2 = id)) (map_to_list (db_reactions db)).

Definition toGMReaction (r : Reaction) : GmReaction :=
  mkGmReaction (re_emoji r.2) (re_emoji_type r.2) [r.1.2].

(** The reactions of everybody else. *)
Definition others (messageID participantID : string) (db : DB) : list GmReaction :=
  toGMReaction <$> filter (fun r : Reaction => r.1.2 <> participantID)
                     (ReactionsForMessage messageID db).

Definition recordReaction (now : Z) (conversationID messageID sourceParticipantID t : string)
    (canonical : string) (db : DB) : Result StoreError DB :=
  if decide (sourceParticipantID = ""%string) then Ok db
  else
    let participantID := ParticipantID conversationID sourceParticipantID in
    ReplaceReactions now "" messageID participantID
      (mkGmReaction (Some canonical) t [participantID] :: others messageID participantID db) db.

Definition dropReaction (now : Z) (messageID participantID : string) (db : DB)
    : Result StoreError DB :=
  ReplaceReactions now "" messageID participantID (others messageID participantID db) db.

Definition run_store (f : DB -> Result StoreError DB) (w : World) : World * option GoError :=
  match f (w_db w) with
  | Ok db => (set_db db w, None)
  | Err e => (w, Some (store_failure "" e))
  end.

Definition reactionTarget (a : Ingester) (messageID action : string) (w : World)
    : Result GoError (MessageRow * ConversationRow) :=
  msg ← message a messageID w;
  conv ← writableConversation a (ms_conversation_id msg) action w;
  Ok (msg, conv).

Definition myReaction (messageID : string) (db : DB) : option Reaction :=
  List.find (fun r : Reaction => re_is_mine r.2) (ReactionsForMessage messageID db).

Record ReactionInput := mkReactionInput {
  ri_Request : Request;
  ri_MessageID : string;
  ri_Emoji : string;
  ri_ReactionID : string;
}.

Definition bad_emoji : GoError :=
  api_error (WrongTypeForField "emoji" "an emoji this account can send").

Definition AddReaction_call (a : Ingester) (i : ReactionInput) (msg : MessageRow)
    (conv : ConversationRow) (t canonical : string) (action : Z) : Call :=
  fun _ w =>
    match be_React (ms_source_id msg) canonical action w with
    | (w1, Some e) => (w1, (no_outcome, Some e))
    | (w1, None) =>
        let convID := ms_conversation_id msg in
        let '(w2, err) := run_store (recordReaction (in_reactions_ms a) convID (ri_MessageID i)
                            (scanString (cv_default_outgoing_id conv)) t canonical) w1 in
        (w2, (mkOutcome (ri_MessageID i) convID 0, err))
    end.

Definition AddReaction (a : Ingester) (env : RunEnv) (i : ReactionInput) : Step MutationResult :=
  fun w =>
    let guards :=
      target ← reactionTarget a (ri_MessageID i) "add_reaction" w;
      match CanonicaliseEmojiInput (ri_Emoji i) with
      | (t, Some canonical) => Ok (target, (t, canonical))
      | (_, None) => Err bad_emoji
      end in
    guarded guards (fun '((msg, conv), (t, canonical)) w =>
      let run action :=
        runOperation env (in_AccountID a) KindAddReaction
          (with_conversation (ri_Request i) (ms_conversation_id msg))
          (AddReaction_call a i msg conv t canonical action) w in
      match myReaction (ri_MessageID i) (w_db w) with
      | Some mine =>
          if decide (scanString (re_emoji mine.2) = canonical) then (w, no_result)
          else run ReactionActionSwitch
      | None => run ReactionActionAdd
      end) w.

Definition removal_target (i : ReactionInput) (db : DB) : Result GoError Reaction :=
  if decide (ri_ReactionID i <> ""%string) then
    _ ← check (CheckIDPrefix (ri_ReactionID i) "reaction_id" PrefixReaction);
    match ReactionByID (ri_ReactionID i) db with
    | None => Err (api_error (NotFound "No such reaction."))
    | Some r => Ok r
    end
  else if decide (ri_Emoji i <> ""%string) then
    match CanonicaliseEmojiInput (ri_Emoji i) with
    | (_, None) => Err bad_emoji
    | (_, Some canonical) =>
        match List.find (fun r : Reaction => bool_decide (scanString (re_emoji r.2) = canonical))
                (ReactionsForMessage (ri_MessageID i) db) with
        | None => Err (api_error (NotFound "No such reaction."))
        | Some r => Ok r
        end
    end
  else Err (api_error (MissingParameter "emoji")).

Definition RemoveReaction (a : Ingester) (env : RunEnv) (i : ReactionInput)
    : Step MutationResult :=
  fun w =>
    let guards :=
      mc ← reactionTarget a (ri_MessageID i) "remove_reaction" w;
      target ← removal_target i (w_db w);
      _ ← check (CheckMyReaction target.2);
      Ok (mc.1, target) in
    guarded guards (fun '(msg, target) =>
      let convID := ms_conversation_id msg in
      runOperation env (in_AccountID a) KindRemoveReaction
        (with_conversation (ri_Request i) convID) (fun _ w =>
        match be_React (ms_source_id msg) (scanString (re_emoji target.2)) ReactionActionRemove w with
        | (w1, Some e) => (w1, (no_outcome, Some e))
        | (w1, None) =>
            let '(w2, err) := run_store
              (dropReaction (in_reactions_ms a) (ri_MessageID i) target.1.2) w1 in
            (w2, (mkOutcome (ri_MessageID i) convID 0, err))
        end)) w.

Definition ReactionPathSegment (segment : string) : string :=
  if String.prefix PrefixReaction segment then segment
  else match (CanonicaliseEmojiInput segment).2 with
       | Some canonical => canonical
       | None => segment
       end.
End Mutations.

(** ** The mutations as one type *)

Inductive Mutation : Type :=
| MutSendText (i : SendTextInput)
| MutSendMedia (i : SendMediaInput)
| MutMarkRead (i : MarkReadInput)
| MutDeleteMessage (i : DeleteMessageInput)
| MutDeleteConversation (i : DeleteConversationInput)
| MutAddReaction (i : ReactionInput)
| MutRemoveReaction (i : ReactionInput).

(** The thread a mutation is about. *)
Definition target_of (mu : Mutation) (w : World) : option string :=
  let of_message id := ms_conversation_id <$> db_messages (w_db w) !! id in
  match mu with
  | MutSendText i => Some (rq_ConversationID (sti_Request i))
  | MutSendMedia i => Some (rq_ConversationID (smi_Request i))
  | MutMarkRead i => Some (rq_ConversationID (mri_Request i))
  | MutDeleteMessage i => of_message (dmi_MessageID i)
  | MutDeleteConversation i => Some (dci_ConversationID i)
  | MutAddReaction i => of_message (ri_MessageID i)
  | MutRemoveReaction i => of_message (ri_MessageID i)
  end.

Section Gate.
Context `{GoFmt} `{UUID} `{Digest} `{JSONLib} `{Norm} `{Backend}.

Definition run_mutation (a : Ingester) (env : RunEnv) (mu : Mutation) : Step MutationResult :=
  match mu with
  | MutSendText i => sendText a env i
  | MutSendMedia i => sendMedia a env i
  | MutMarkRead i => MarkRead a env i
  | MutDeleteMessage i => DeleteMessage a env i
  | MutDeleteConversation i => DeleteConversation a env i
  | MutAddReaction i => AddReaction a env i
  | MutRemoveReaction i => RemoveReaction a env i
  end.

(** Something happened: the state changed or there is an operation to show. *)
Definition effective (w : World) (out : World * MutationResult) : Prop :=
  out.1 <> w \/ rs_Operation out.2 <> None.

Definition send_allowed (conv : ConversationRow) (replyTo : string) (force : bool) : Prop :=
  (replyTo = ""%string \/ cv_conversation_type conv = ConversationTypeRCS) /\
  (force = true -> cv_force_rcs_eligible conv = true).

(** What the object itself must allow. *)
Definition object_allows (a : Ingester) (mu : Mutation) (conv : ConversationRow) (w : World)
    : Prop :=
  match mu with
  | MutSendText i => send_allowed conv (sti_ReplyToMessageID i) (sti_ForceRCS i)
  | MutSendMedia i => send_allowed conv (smi_ReplyToMessageID i) (smi_ForceRCS i)
  | MutMarkRead i =>
      mri_MessageID i = ""%string \/
      exists m, db_messages (w_db w) !! mri_MessageID i = Some m /\
        ms_account_id m = in_AccountID a
  | MutDeleteMessage i =>
      exists m, db_messages (w_db w) !! dmi_MessageID i = Some m /\
        ms_account_id m = in_AccountID a /\ ms_direction m = DirectionOutgoing
  | MutDeleteConversation _ => True
  | MutAddReaction i =>
      exists c, (CanonicaliseEmojiInput (ri_Emoji i)).2 = Some c /\
        forall mine, myReaction (ri_MessageID i) (w_db w) = Some mine ->
          scanString (re_emoji mine.2) <> c
  | MutRemoveReaction i =>
      exists r, removal_target i (w_db w) = Ok r /\ re_is_mine r.2 = true
  end.

Lemma guarded_effective {A} (g : Result GoError A) k w :
  effective w (guarded g k w) -> exists x, g = Ok x /\ effective w (k x w).
Proof.
  unfold guarded. destruct g as [x|e]; [by exists x|]. by intros [?|?].
Qed.

Lemma check_Ok e u : check e = Ok u -> e = None.
Proof. by destruct e. Qed.

Lemma conversation_Ok a id w c :
  in_AccountID a <> ""%string -> conversation a id w = Ok c ->
  db_conversations (w_db w) !! id = Some c /\ cv_account_id c = in_AccountID a.
Proof.
  unfold conversation. intros Ha (? & _ & Hc)%bind_Ok_inv.
  destruct (db_conversations (w_db w) !! id) as [conv|]; [|done].
  apply bind_Ok_inv in Hc as (? & Hck%check_Ok & [= ->]). split; [done|].
  unfold CheckObjectAccount in Hck. rewrite bool_decide_eq_false_2 in Hck by done.
  destruct (bool_decide _) eqn:E in Hck; [|done]. by bool_to_prop.
Qed.

Lemma message_Ok a id w m :
  in_AccountID a <> ""%string -> message a id w = Ok m ->
  db_messages (w_db w) !! id = Some m /\ ms_account_id m = in_AccountID a.
Proof.
  unfold message. intros Ha (? & _ & Hc)%bind_Ok_inv.
  destruct (db_messages (w_db w) !! id) as [msg|]; [|done].
  apply bind_Ok_inv in Hc as (? & Hck%check_Ok & [= ->]). split; [done|].
  unfold CheckObjectAccount in Hck. rewrite bool_decide_eq_false_2 in Hck by done.
  destruct (bool_decide _) eqn:E in Hck; [|done]. by bool_to_prop.
Qed.

(** The thread and the account as every mutation finds them. *)
Definition writable (a : Ingester) (convID : string) (conv : ConversationRow) (w : World) : Prop :=
  db_conversations (w_db w) !! convID = Some conv /\ cv_account_id conv = in_AccountID a /\
  cv_read_only conv = false /\ scanInt (cv_deleted_at_ms conv) = 0%Z /\
  exists acc, w_accounts w !! in_AccountID a = Some acc /\ WritableStates (ref_State acc) = true.

Lemma writableConversation_Ok a id action w c :
  in_AccountID a <> ""%string -> writableConversation a id action w = Ok c -> writable a id c w.
Proof.
  intros Ha (c' & [Hc Hacc]%conversation_Ok & (? & Hw & (? & Hck%check_Ok & [= ->])%bind_Ok_inv)
    %bind_Ok_inv)%bind_Ok_inv; [|done].
  unfold writableAccount in Hw. unfold CheckConversationActionable in Hck.
  destruct (w_accounts w !! in_AccountID a) as [acc|] eqn:E; [|done].
  apply check_Ok in Hw. unfold CheckAccountWritable in Hw.
  destruct (WritableStates (ref_State acc)) eqn:Ew; [|done].
  destruct (cv_read_only c) eqn:?; [done|].
  destruct (bool_decide (scanInt _ <> _)) eqn:?; [done|]. bool_to_prop.
  split_and!; try done; [|eauto].
  by destruct (decide (scanInt (cv_deleted_at_ms c) = 0%Z)).
Qed.

Lemma sendable_Ok a id reply force w c :
  in_AccountID a <> ""%string -> sendable a id reply force w = Ok c ->
  writable a id c w /\ send_allowed c reply force.
Proof.
  intros Ha (c' & Hw%writableConversation_Ok & (? & Hr%check_Ok & (? & Hf%check_Ok & [= ->])
    %bind_Ok_inv)%bind_Ok_inv)%bind_Ok_inv; [|done].
  split; [done|]. unfold CheckReplySupported in Hr. unfold CheckForceRCS in Hf. split.
  - repeat case_decide; auto. done.
  - intros ->. by destruct (cv_force_rcs_eligible c).
Qed.

Lemma reactionTarget_Ok a id action w msg c :
  in_AccountID a <> ""%string -> reactionTarget a id action w = Ok (msg, c) ->
  db_messages (w_db w) !! id = Some msg /\ ms_account_id msg = in_AccountID a /\
  writable a (ms_conversation_id msg) c w.
Proof.
  intros Ha (m & [Hm Hacc]%message_Ok & (? & Hw%writableConversation_Ok & [= -> ->])%bind_Ok_inv)
    %bind_Ok_inv; done.
Qed.
End Gate.

(** ** Properties *)
Section Theorems.
Context `{GoFmt} `{UUIDLaws} `{Digest} `{JSONLib} `{Norm} `{Backend}.


(** A send with a freshener.  Before any network request it refuses when the lock
    is not granted, when the thread is unknown or another account's, and when the
    account may not write; then the state is unchanged and there is no operation.  A
    failing refresh of the thread's metadata is reported and the send is not attempted.
    (A missing thread is reported with the store's error here, not as not_found.) *)
Theorem fresh_send_checks_first a gate id send w :
  effective w (freshSend a gate id send w) ->
  gate = None /\
  (exists conv, db_conversations (w_db w) !! id = Some conv /\
     cv_account_id conv = in_AccountID a /\
     (be_WithSession = None -> forall w1 e,
        refreshMetadata a conv w = (w1, Some e) ->
        freshSend a gate id send w = (w1, mkMutationResult None false false (Some e))) /\
     (be_WithSession = None -> forall w1,
        refreshMetadata a conv w = (w1, None) -> freshSend a gate id send w = send w1)) /\
  (exists acc, w_accounts w !! in_AccountID a = Some acc /\ WritableStates (ref_State acc) = true).
Proof.
  unfold freshSend. intros (c & Hg & _)%guarded_effective. rewrite Hg. cbn [guarded].
  unfold fresh_guards in Hg. destruct gate as [e|]; [done|].
  apply bind_Ok_inv in Hg as (? & _ & (c' & Hc & Hg)%bind_Ok_inv).
  destruct (db_conversations (w_db w) !! id) as [conv|] eqn:Ec; [|done]. injection Hc as <-.
  apply bind_Ok_inv in Hg as (? & Hck%check_Ok & (u & Hw & [= ->])%bind_Ok_inv).
  case_decide as Hacc; [|done].
  split; [done|]. split.
  - exists c. split_and!; [done..| |]; intros Hs w1; unfold withSession, fresh_body; rewrite Hs; simpl.
    + intros e Hr. by rewrite Hr.
    + intros Hr. rewrite Hr. by destruct (send w1) as [w2 [op rep ch err]].
  - unfold writableAccount in Hw. destruct (w_accounts w !! _) as [acc|]; [|done].
    apply check_Ok in Hw. unfold CheckAccountWritable in Hw. exists acc.
    by destruct (WritableStates (ref_State acc)).
Qed.

(** ** The local half of a reaction *)

(** A row of somebody else, written again. *)
Definition rewritten (now : Z) (r : ReactionRow) : ReactionRow :=
  mkReactionRow (re_id r) (re_emoji r) (re_emoji_type r) false now.

Lemma reaction_pid_stored s : reaction_pid "" s = s.
Proof. done. Qed.

Lemma ReactionsForMessage_elem msg db x :
  x ∈ ReactionsForMessage msg db <-> db_reactions db !! x.1 = Some x.2 /\ x.1.1 = msg.
Proof.
  unfold ReactionsForMessage. rewrite merge_sort_Permutation, list_elem_of_In, filter_In,
    <- list_elem_of_In, bool_decide_eq_true. destruct x as [k r]. by rewrite elem_of_map_to_list.
Qed.

Lemma others_entries msg pid db e :
  e ∈ entries (others msg pid db) <->
  exists p r, db_reactions db !! (msg, p) = Some r /\ p <> pid /\
    e = mkReactionEntry p (toGMReaction ((msg, p), r)).
Proof.
  unfold entries, others. rewrite list_elem_of_bind. split.
  - intros (g & Hs & (x & -> & Hx)%list_elem_of_fmap).
    apply list_elem_of_filter in Hx as [Hne [Hx Hm]%ReactionsForMessage_elem].
    simpl in Hs. apply list_elem_of_singleton in Hs as ->.
    destruct x as [[m p] r]. simpl in *. subst m. by exists p, r.
  - intros (p & r & Hr & Hne & ->). exists (toGMReaction ((msg, p), r)).
    split; [simpl; by apply list_elem_of_singleton|]. apply list_elem_of_fmap.
    exists ((msg, p), r). split; [done|].
    by rewrite list_elem_of_filter, ReactionsForMessage_elem.
Qed.

Lemma others_clean msg pid db : db_ok db -> clean_entries "" (entries (others msg pid db)).
Proof.
  intros Hok. apply Forall_forall. intros e (p & r & Hr & _ & ->)%others_entries.
  by apply Hok in Hr as (_ & ? & _).
Qed.

(** What writing the others again leaves on this message. *)
Lemma put_others_lookup now msg pid db t p :
  db_ok db ->
  put_reactions now "" msg pid (entries (others msg pid db)) t !! (msg, p) =
  match db_reactions db !! (msg, p) with
  | Some r => if decide (p = pid) then t !! (msg, p) else Some (rewritten now r)
  | None => t !! (msg, p)
  end.
Proof.
  intros Hok. rewrite put_reactions_lookup.
  destruct (last _) as [e|] eqn:E.
  - apply last_Some_elem_of, list_elem_of_filter in E as [Hk (p' & r & Hr & Hne & ->)%others_entries].
    injection Hk as Hp. rewrite reaction_pid_stored in Hp. simpl in Hp. subst p'. rewrite Hr, decide_False by done. f_equal.
    pose proof (ok_re _ Hok _ _ Hr) as (_ & _ & Hid). unfold reaction_values, rewritten.
    rewrite reaction_pid_stored. unfold canonical_emoji. simpl.
    rewrite (bool_decide_eq_false_2 (p = pid)), andb_false_r by done. simpl in Hid. by rewrite Hid.
  - destruct (db_reactions db !! (msg, p)) as [r|] eqn:Hr; [|done].
    case_decide as Hp; [done|]. exfalso.
    apply last_None in E. apply (not_elem_of_nil (mkReactionEntry p (toGMReaction ((msg, p), r)))).
    rewrite <- E. apply list_elem_of_filter. split.
    + unfold reaction_key. by rewrite reaction_pid_stored.
    + apply others_entries. by exists p, r.
Qed.

Lemma put_others_elsewhere now msg pid db t m p :
  m <> msg -> put_reactions now "" msg pid (entries (others msg pid db)) t !! (m, p) = t !! (m, p).
Proof.
  intros Hne. rewrite put_reactions_lookup. destruct (last _) as [e|] eqn:E; [|done].
  apply last_Some_elem_of, list_elem_of_filter in E as [E _]. unfold reaction_key in E. congruence.
Qed.

Lemma delete_reactions_elsewhere msg t m p :
  m <> msg -> delete_reactions msg t !! (m, p) = t !! (m, p).
Proof.
  intros Hne. destruct (t !! (m, p)) as [r|] eqn:E.
  - by apply delete_reactions_Some.
  - apply eq_None_not_Some. intros [r [Hr _]%delete_reactions_Some]. congruence.
Qed.

Lemma delete_reactions_here msg t p : delete_reactions msg t !! (msg, p) = None.
Proof. apply eq_None_not_Some. by intros [r [_ Hr]%delete_reactions_Some]. Qed.

(** The local half of a reaction.  On a reachable database and a stored message,
    recording an own reaction always succeeds and leaves exactly one reaction of the
    own participant, the new one, marked as own; dropping a participant's reaction
    leaves none of theirs.  In both cases everybody else keeps their one reaction on
    the message, and no other message's reactions change. *)
Theorem local_reactions now conv msg src t c db :
  rtc MsgStep empty_db db -> is_Some (db_messages db !! msg) -> src <> ""%string ->
  let pid := ParticipantID conv src in
  exists added dropped,
    recordReaction now conv msg src t c db = Ok (set_reactions added db) /\
    dropReaction now msg pid db = Ok (set_reactions dropped db) /\
    added !! (msg, pid) = Some (mkReactionRow (ReactionID msg pid c) (Some c) t true now) /\
    dropped !! (msg, pid) = None /\
    (forall p, p <> pid ->
       added !! (msg, p) = rewritten now <$> db_reactions db !! (msg, p) /\
       dropped !! (msg, p) = rewritten now <$> db_reactions db !! (msg, p)) /\
    (forall m p, m <> msg ->
       added !! (m, p) = db_reactions db !! (m, p) /\ dropped !! (m, p) = db_reactions db !! (m, p)).
Proof.
  intros Hok%reachable_ok Hm Hsrc pid. unfold recordReaction, dropReaction.
  rewrite decide_False by done. fold pid.
  assert (clean_entries "" (entries (mkGmReaction (Some c) t [pid] :: others msg pid db))) as Hc1.
  { constructor; [|by apply others_clean]. rewrite reaction_pid_stored. apply ParticipantID_nul_free. }
  eexists _, _. split; [by apply ReplaceReactions_spec|].
  split; [apply ReplaceReactions_spec; [done|by apply others_clean|done]|].
  set (t1 := delete_reactions msg (db_reactions db)).
  assert (put_reactions now "" msg pid (entries (mkGmReaction (Some c) t [pid] :: others msg pid db)) t1 =
    put_reactions now "" msg pid (entries (others msg pid db))
      (<[(msg, pid) := mkReactionRow (ReactionID msg pid c) (Some c) t true now]> t1)) as ->.
  { simpl. unfold put_reactions at 1. simpl. f_equal. unfold reaction_key, reaction_values.
    rewrite reaction_pid_stored. simpl. by rewrite !bool_decide_eq_true_2 by done. }
  split_and!.
  - rewrite put_others_lookup by done.
    destruct (db_reactions db !! (msg, pid)); rewrite ?decide_True by done; apply lookup_insert_eq.
  - rewrite put_others_lookup by done.
    destruct (db_reactions db !! (msg, pid)); rewrite ?decide_True by done; apply delete_reactions_here.
  - intros p Hp. rewrite !put_others_lookup by done. rewrite lookup_insert_ne by congruence.
    unfold t1. rewrite delete_reactions_here. destruct (db_reactions db !! (msg, p)); [|done].
    rewrite decide_False by done. done.
  - intros m p Hne. rewrite !put_others_elsewhere by done. rewrite lookup_insert_ne by congruence.
    unfold t1. by rewrite (delete_reactions_elsewhere msg _ m p Hne).
Qed.

Lemma ReactionsForMessage_sorted msg db : StronglySorted by_participant (ReactionsForMessage msg db).
Proof.
  assert (Transitive by_participant)
    by (intros x y z; unfold by_participant; apply (transitivity (R := String.le))).
  assert (Total by_participant) by (intros x y; apply (total String.le)).
  apply (StronglySorted_merge_sort by_participant).
Qed.

(** The first match in a sorted list is the least match. *)
Lemma find_sorted (f : Reaction -> bool) l x y msg :
  StronglySorted by_participant l -> List.find f l = Some x -> ((msg, y.1), y.2) ∈ l ->
  f ((msg, y.1), y.2) = true -> String.le x.1.2 y.1.
Proof.
  intros Hs. induction Hs as [|z l Hs IH Hall]; simpl; [done|].
  destruct (f z) eqn:E.
  - intros [= ->] [<-|Hin]%elem_of_cons _; [reflexivity|].
    rewrite Forall_forall in Hall. apply (Hall _ Hin).
  - intros Hf [<-|Hin]%elem_of_cons Hy; [congruence|]. by apply IH.
Qed.

(** Which reaction a removal by emoji addresses.  Among the reactions of the message
    that show the emoji it is the one of the first participant in the order of IDs.  When
    that is not the own one, the removal is refused as not_my_reaction and nothing
    happens, even when the own participant has the same emoji on the message. *)
Theorem remove_by_emoji_first a env i w msg conv t c k r :
  reactionTarget a (ri_MessageID i) "remove_reaction" w = Ok (msg, conv) ->
  ri_ReactionID i = ""%string -> ri_Emoji i <> ""%string ->
  CanonicaliseEmojiInput (ri_Emoji i) = (t, Some c) ->
  db_reactions (w_db w) !! (ri_MessageID i, k) = Some r -> scanString (re_emoji r) = c ->
  (forall k' r', db_reactions (w_db w) !! (ri_MessageID i, k') = Some r' ->
     scanString (re_emoji r') = c -> String.le k k') ->
  removal_target i (w_db w) = Ok ((ri_MessageID i, k), r) /\
  (re_is_mine r = false ->
     RemoveReaction a env i w =
     (w, refused (api_error (UnsupportedCapability ReasonNotMyReaction (re_id r)
            "remove_reaction" "is_mine" (DBool false))))).
Proof.
  intros Ht Hid He Hc Hr Hemoji Hfirst.
  set (l := ReactionsForMessage (ri_MessageID i) (w_db w)).
  assert ((((ri_MessageID i, k), r) : Reaction) ∈ l) as Hin by (by apply ReactionsForMessage_elem).
  destruct (List.find (fun x : Reaction => bool_decide (scanString (re_emoji x.2) = c)) l) as [x|] eqn:Hf.
  2: { apply list_elem_of_In in Hin. pose proof (find_none _ _ Hf _ Hin) as Hn. simpl in Hn.
       by bool_to_prop. }
  assert (x = ((ri_MessageID i, k), r)) as ->.
  { destruct (find_some _ _ Hf) as [Hx%list_elem_of_In Hxe%bool_decide_eq_true].
    pose proof (proj1 (ReactionsForMessage_elem _ _ _) Hx) as [Hxr Hxm].
    destruct x as [[m1 k1] r1]. simpl in *. subst m1.
    assert (k1 = k) as ->; [|by rewrite Hr in Hxr; injection Hxr as ->].
    apply (anti_symm String.le); [|by eapply Hfirst].
    apply (find_sorted _ _ _ (k, r) _ (ReactionsForMessage_sorted _ _) Hf Hin). by apply bool_decide_eq_true. }
  assert (removal_target i (w_db w) = Ok ((ri_MessageID i, k), r)) as Htgt.
  { unfold removal_target. rewrite Hid, decide_False, decide_True, Hc by (done || intros []; done).
    fold l. by rewrite Hf. }
  split; [exact Htgt|]. intros Hmine. unfold RemoveReaction.
  rewrite Ht. cbn [mbind Result_bind]. rewrite Htgt. cbn. unfold CheckMyReaction. cbn. by rewrite Hmine.
Qed.
End Theorems.

(** ** Witnesses: a library that accepts everything and changes nothing *)

#[export] Instance quiet_backend : Backend := {
  be_SendText _ w := (w, (SendStatusSuccess, None));
  be_SendMedia _ w := (w, (SendStatusSuccess, None));
  be_React _ _ _ w := (w, None);
  be_DeleteMessage _ w := (w, None);
  be_MarkRead _ _ w := (w, None);
  be_DeleteConversation _ _ w := (w, None);
  be_ResolveConversation _ _ w := (w, Ok (Some demo_conv, ResolveStatusSuccess));
  be_CompiledConfigVersion := mkConfigVersion 2024 1 1 4 6;
  be_FetchConfig w := (w, Ok (mkConfigVersion 2024 1 1 4 6));
  be_GetConversation _ w := (w, Ok (Some demo_conv));
  be_WithSession := None;
  clk_Sleep _ w := (w, None);
  json_Unmarshal_bytes s := s;
}.

Definition demo_accounts : gmap string AccountRef :=
  {["acct_1"%string := mkAccountRef "acct_1" "a@example.com" "connected"]}.

(** Two people have put the same emoji on the message, the own one second. *)
Definition demo_reacted : DB :=
  match ReplaceReactions 5 demo_conv_id demo_msg_id "me"
          [mkGmReaction (Some "👍"%string) EmojiTypeLike ["aa"; "me"]%string] demo_db3 with
  | Ok db => db
  | Err _ => demo_db3
  end.
Definition demo_live : World := mkWorld ∅ demo_reacted demo_accounts.

Definition demo_send : SendTextInput :=
  mkSendTextInput (mkRequest "auth_1" "" "{}x" demo_conv_id) "hi" "" false.


Example fresh_send_checks_first_witness :
  exists acc, w_accounts demo_live !! "acct_1"%string = Some acc /\
    WritableStates (ref_State acc) = true.
Proof.
  refine (proj2 (proj2 (fresh_send_checks_first demo_ingester None demo_conv_id
    (sendText demo_ingester demo_env demo_send) demo_live _))).
  right. vm_compute. discriminate.
Defined.

Example local_reactions_witness :
  exists t, recordReaction 9 demo_conv_id demo_msg_id "me" EmojiTypeLike "👍" demo_db3 =
    Ok (set_reactions t demo_db3) /\
    is_Some (t !! (demo_msg_id, ParticipantID demo_conv_id "me")).
Proof.
  destruct (local_reactions 9 demo_conv_id demo_msg_id "me" EmojiTypeLike "👍" demo_db3
    demo_reachable) as (t & _ & H1 & _ & H2 & _).
  - rewrite demo_row_stored. exact (mk_is_Some _ _ eq_refl).
  - discriminate.
  - exists t. split; [exact H1|]. exact (mk_is_Some _ _ H2).
Defined.

Definition demo_removal : ReactionInput :=
  mkReactionInput (mkRequest "auth_1" "" "{}x" "") demo_msg_id "👍" "".
Definition demo_other : string := ParticipantID demo_conv_id "aa".
Definition demo_other_row : ReactionRow :=
  mkReactionRow (ReactionID demo_msg_id demo_other "👍") (Some "👍"%string) EmojiTypeLike false 5.

(** The own reaction is there, yet its removal is refused. *)
Example remove_by_emoji_first_witness :
  (exists mine, myReaction demo_msg_id demo_reacted = Some mine /\
     scanString (re_emoji mine.2) = "👍"%string) /\
  exists e, RemoveReaction demo_ingester demo_env demo_removal demo_live = (demo_live, refused e).
Proof.
  split.
  { eexists. split; [vm_compute; reflexivity|reflexivity]. }
  destruct (reactionTarget demo_ingester demo_msg_id "remove_reaction" demo_live) as [[m c]|e] eqn:E;
    [|vm_compute in E; discriminate E].
  eexists.
  refine (proj2 (remove_by_emoji_first demo_ingester demo_env demo_removal demo_live m c
    EmojiTypeLike "👍" demo_other demo_other_row E eq_refl ltac:(discriminate)
    ltac:(vm_compute; reflexivity) ltac:(vm_compute; reflexivity) ltac:(vm_compute; reflexivity) _) _);
    [|reflexivity].
  assert (map_Forall (fun (key : string * string) r => key.1 = demo_msg_id ->
    String.le demo_other key.2) (db_reactions demo_reacted)) as Hall.
  { apply (bool_decide_unpack _). vm_compute. exact I. }
  intros k' r' Hr' _. exact (Hall (demo_msg_id, k') r' Hr' eq_refl).
Defined.
