(* ===== verification/Prog.v ===== *)
(** * Programs of atomic actions

    A Go function that runs beside other goroutines is a [Prog]: a sequence of atomic
    actions on a shared state, each of which chooses what follows by what it returns.
    One action is one critical section or one statement of the database; between two of
    them anything may happen.  [run] is the function with nothing in between.  [PoolStep]
    is one action of one goroutine of a pool; a property every action of every program
    has is a property of the pool. *)

From S2P Require Import Prelude.

Section Prog.
Context {S : Type}.

Inductive Prog (A : Type) : Type :=
| Ret (a : A)
| Act (B : Type) (f : S -> S * B) (k : B -> Prog A).
Arguments Ret {A} a.
Arguments Act {A B} f k.

Fixpoint prog_bind {A B} (k : A -> Prog B) (p : Prog A) : Prog B :=
  match p with
  | Ret a => k a
  | Act f k' => Act f (fun b => prog_bind k (k' b))
  end.

#[export] Instance Prog_ret : MRet Prog := fun A a => Ret a.
#[export] Instance Prog_bind : MBind Prog := fun A B k p => prog_bind k p.

Definition atomic {B} (f : S -> S * B) : Prog B := Act f Ret.
Definition modify (f : S -> S) : Prog () := atomic (fun s => (f s, tt)).
Definition look {B} (f : S -> B) : Prog B := atomic (fun s => (s, f s)).

Fixpoint run {A} (p : Prog A) (s : S) : S * A :=
  match p with
  | Ret a => (s, a)
  | Act f k => let '(s', b) := f s in run (k b) s'
  end.

Lemma run_bind {A B} (p : Prog A) (k : A -> Prog B) s :
  run (p ≫= k) s = let '(s', a) := run p s in run (k a) s'.
Proof.
  unfold mbind, Prog_bind. revert s. induction p as [a|C f k' IH]; intros s; simpl; [done|].
  destruct (f s) as [s' b]. apply IH.
Qed.

(** ** What every action guarantees *)

Fixpoint guarantees (R : S -> S -> Prop) {A} (p : Prog A) : Prop :=
  match p with
  | Ret _ => True
  | Act f k => (forall s, R s (f s).1) /\ forall b, guarantees R (k b)
  end.

Section Guarantees.
Context (R : S -> S -> Prop).

Lemma guarantees_ret {A} (a : A) : guarantees R (mret a).
Proof. exact I. Qed.

Lemma guarantees_bind {A B} (p : Prog A) (k : A -> Prog B) :
  guarantees R p -> (forall a, guarantees R (k a)) -> guarantees R (p ≫= k).
Proof.
  intros Hp Hk. unfold mbind, Prog_bind. induction p as [a|C f k' IH]; simpl; [apply Hk|].
  destruct Hp as [Hf Hk']. split; [exact Hf|]. intros b. apply IH, Hk'.
Qed.

Lemma guarantees_atomic {B} (f : S -> S * B) : (forall s, R s (f s).1) -> guarantees R (atomic f).
Proof. intros Hf. split; [exact Hf|]. intros b. exact I. Qed.

Lemma guarantees_modify (f : S -> S) : (forall s, R s (f s)) -> guarantees R (modify f).
Proof. intros Hf. by apply guarantees_atomic. Qed.

Lemma guarantees_look `{!Reflexive R} {B} (f : S -> B) : guarantees R (look f).
Proof. apply guarantees_atomic. intros s. reflexivity. Qed.

Lemma guarantees_run `{!PreOrder R} {A} (p : Prog A) s : guarantees R p -> R s (run p s).1.
Proof.
  revert s. induction p as [a|C f k IH]; intros s; simpl; [reflexivity|]. intros [Hf Hk].
  specialize (Hf s). destruct (f s) as [s' b]. simpl in Hf. etransitivity; [exact Hf|]. by apply IH.
Qed.
End Guarantees.

Lemma guarantees_mono (R R' : S -> S -> Prop) {A} (p : Prog A) :
  (forall s s', R s s' -> R' s s') -> guarantees R p -> guarantees R' p.
Proof.
  intros HR. induction p as [a|C f k IH]; simpl; [done|]. intros [Hf Hk].
  split; [intros s; apply HR, Hf|intros b; apply IH, Hk].
Qed.

(** ** Pools of goroutines *)

Section Pool.
(** [starts] are the programs a goroutine may be started with, [env] is what moves by
    itself: the clock. *)
Context (starts : Prog () -> Prop) (env : S -> S -> Prop).

Inductive PoolStep : list (Prog ()) * S -> list (Prog ()) * S -> Prop :=
| pool_act i B (f : S -> S * B) k pool s s' b :
    pool !! i = Some (Act f k) -> f s = (s', b) -> PoolStep (pool, s) (<[i := k b]> pool, s')
| pool_start p pool s : starts p -> PoolStep (pool, s) (pool ++ [p], s)
| pool_env pool s s' : env s s' -> PoolStep (pool, s) (pool, s').

Lemma pool_guarantees (R : S -> S -> Prop) `{!PreOrder R} c c' :
  (forall p, starts p -> guarantees R p) -> (forall s s', env s s' -> R s s') ->
  rtc PoolStep c c' -> Forall (guarantees R) c.1 -> Forall (guarantees R) c'.1 /\ R c.2 c'.2.
Proof.
  intros Hstarts Henv. induction 1 as [c|c c1 c' Hst _ IH]; intros Hall; [by split|].
  assert (Forall (guarantees R) c1.1 /\ R c.2 c1.2) as [H1 HR].
  { destruct Hst as [i B f k pool s s' b Hi Hf|p pool s Hp|pool s s' He]; simpl in *.
    - destruct (proj1 (Forall_lookup _ _) Hall i _ Hi) as [HR Hk]. specialize (HR s).
      rewrite Hf in HR. split; [|exact HR]. apply Forall_insert; [done|apply Hk].
    - split; [|reflexivity]. apply Forall_app. split; [done|]. constructor; [by apply Hstarts|done].
    - split; [done|]. by apply Henv. }
  destruct (IH H1) as [Hc' HR']. split; [done|]. by etransitivity.
Qed.

(** A goroutine that nothing interrupts. *)
Lemma pool_run i p pool s :
  pool !! i = Some p -> rtc PoolStep (pool, s) (<[i := Ret tt]> pool, (run p s).1).
Proof.
  revert pool s. induction p as [[]|C f k IH]; intros pool s Hi; simpl.
  { by rewrite list_insert_id. }
  destruct (f s) as [s' b] eqn:E. eapply rtc_l; [by eapply pool_act|].
  rewrite <- (list_insert_insert_eq pool i (Ret tt) (k b)). apply IH.
  apply list_lookup_insert_eq. by eapply lookup_lt_Some.
Qed.

(** The same, stopped after [n] actions. *)
Fixpoint skip (n : nat) (p : Prog ()) (s : S) : Prog () * S :=
  match n, p with
  | Datatypes.S n', Act f k => let '(s', b) := f s in skip n' (k b) s'
  | _, _ => (p, s)
  end.

Lemma pool_skip n i p pool s :
  pool !! i = Some p -> rtc PoolStep (pool, s) (<[i := (skip n p s).1]> pool, (skip n p s).2).
Proof.
  revert p pool s. induction n as [|n IH]; intros p pool s Hp; [by rewrite list_insert_id|].
  destruct p as [[]|B f k]; [by rewrite list_insert_id|]. simpl. destruct (f s) as [s' b] eqn:E.
  eapply rtc_l; [by eapply (pool_act i)|]. rewrite <- (list_insert_insert_eq pool i (skip n (k b) s').1 (k b)).
  apply IH, list_lookup_insert_eq. by eapply lookup_lt_Some.
Qed.
End Pool.
End Prog.

Arguments Prog S A : clear implicits.
Arguments Ret {S A} a.
Arguments Act {S A B} f k.

(** ** A program of one component, run in a larger state *)

Section Lift.
Context {T S : Type} (get : S -> T) (put : T -> S -> S).

Fixpoint lift {A} (p : Prog T A) : Prog S A :=
  match p with
  | Ret a => Ret a
  | Act f k => Act (fun s => let '(t, b) := f (get s) in (put t s, b)) (fun b => lift (k b))
  end.

Lemma guarantees_lift (R : T -> T -> Prop) (R' : S -> S -> Prop) {A} (p : Prog T A) :
  (forall s t, R (get s) t -> R' s (put t s)) -> guarantees R p -> guarantees R' (lift p).
Proof.
  intros HR. induction p as [a|B f k IH]; simpl; [done|]. intros [Hf Hk]. split.
  - intros s. specialize (Hf (get s)). destruct (f (get s)) as [t b]. by apply HR.
  - intros b. apply IH, Hk.
Qed.

Lemma run_lift {A} (p : Prog T A) s :
  (forall s t, get (put t s) = t) -> (forall s t t', put t' (put t s) = put t' s) ->
  (forall s, put (get s) s = s) ->
  run (lift p) s = (put (run p (get s)).1 s, (run p (get s)).2).
Proof.
  intros Hgp Hpp Hpg. revert s. induction p as [a|B f k IH]; intros s; simpl; [by rewrite Hpg|].
  destruct (f (get s)) as [t b]. by rewrite IH, Hgp, Hpp.
Qed.
End Lift.

(** Walks a program down to its actions. *)
Ltac guarantee_step :=
  first
    [ apply guarantees_ret
    | apply guarantees_look; exact _
    | apply guarantees_bind; [|intros ?]
    | match goal with
      | |- guarantees _ (if ?b then _ else _) => destruct b eqn:?
      | |- guarantees _ (match ?x with _ => _ end) => destruct x eqn:?
      | |- guarantees _ (let _ := _ in _) => cbv zeta
      end ].
