(* ===== verification/Encoding.v ===== *)
(** * Text encodings of the standard library

    [base64.RawURLEncoding], [strconv.FormatInt] and [ParseInt] in base ten, and
    [strings.Split] and [Join] on a separator byte, with their round trips. *)

From S2P Require Import Prelude GoStrings.
From stdpp Require Export pretty.

Local Open Scope Z_scope.

Definition char_of (z : Z) : Ascii.ascii := Ascii.ascii_of_N (Z.to_N z).

Lemma char_of_byte c : char_of (byte_of c) = c.
Proof. unfold char_of, byte_of. by rewrite N2Z.id, Ascii.ascii_N_embedding. Qed.

Lemma byte_of_char z : 0 <= z < 256 -> byte_of (char_of z) = z.
Proof. intros Hz. unfold char_of, byte_of. rewrite Ascii.N_ascii_embedding by lia. lia. Qed.

(** ** Base64 *)

(** The URL alphabet. *)
Definition digit64 (v : Z) : Ascii.ascii :=
  if v <? 26 then char_of (v + 65)
  else if v <? 52 then char_of (v + 71)
  else if v <? 62 then char_of (v - 4)
  else if v =? 62 then char_of 45 else char_of 95.

Definition value64 (c : Ascii.ascii) : option Z :=
  let b := byte_of c in
  if in_range b 65 90 then Some (b - 65)
  else if in_range b 97 122 then Some (b - 71)
  else if in_range b 48 57 then Some (b + 4)
  else if b =? 45 then Some 62
  else if b =? 95 then Some 63
  else None.

(** Three bytes make four digits; two make three and one makes two. *)
Fixpoint EncodeToString (s : string) : string :=
  match s with
  | EmptyString => EmptyString
  | String c0 EmptyString =>
      let n := byte_of c0 in
      String (digit64 (n / 4)) (String (digit64 (n mod 4 * 16)) EmptyString)
  | String c0 (String c1 EmptyString) =>
      let n := byte_of c0 * 256 + byte_of c1 in
      String (digit64 (n / 1024)) (String (digit64 (n / 16 mod 64)) (String (digit64 (n mod 16 * 4)) EmptyString))
  | String c0 (String c1 (String c2 s')) =>
      let n := byte_of c0 * 65536 + byte_of c1 * 256 + byte_of c2 in
      String (digit64 (n / 262144)) (String (digit64 (n / 4096 mod 64))
        (String (digit64 (n / 64 mod 64)) (String (digit64 (n mod 64)) (EncodeToString s'))))
  end.

(** The decoder skips carriage returns and newlines and does not look at the bits a
    shorter last group leaves over. *)
Fixpoint values64 (s : string) : option (list Z) :=
  match s with
  | EmptyString => Some []
  | String c s' =>
      if (byte_of c =? 10) || (byte_of c =? 13) then values64 s'
      else v ← value64 c; l ← values64 s'; Some (v :: l)
  end.

Fixpoint group64 (l : list Z) : option string :=
  match l with
  | [] => Some EmptyString
  | v0 :: v1 :: v2 :: v3 :: l' =>
      let n := v0 * 262144 + v1 * 4096 + v2 * 64 + v3 in
      rest ← group64 l';
      Some (String (char_of (n / 65536)) (String (char_of (n / 256 mod 256)) (String (char_of (n mod 256)) rest)))
  | [v0; v1; v2] =>
      let n := (v0 * 262144 + v1 * 4096 + v2 * 64) in
      Some (String (char_of (n / 65536)) (String (char_of (n / 256 mod 256)) EmptyString))
  | [v0; v1] => Some (String (char_of ((v0 * 64 + v1) / 16)) EmptyString)
  | [_] => None
  end.

Definition DecodeString (s : string) : option string := values64 s ≫= group64.

Lemma value_digit v : 0 <= v < 64 -> value64 (digit64 v) = Some v /\
  byte_of (digit64 v) <> 10 /\ byte_of (digit64 v) <> 13 /\ digit64 v <> char_of 46.
Proof.
  intros Hv. assert (v ∈ seqZ 0 64) as Hin by (apply elem_of_seqZ; lia).
  assert (forallb (fun v => bool_decide (value64 (digit64 v) = Some v /\
    byte_of (digit64 v) <> 10 /\ byte_of (digit64 v) <> 13 /\ digit64 v <> char_of 46)) (seqZ 0 64) = true) as H by (vm_compute; reflexivity).
  rewrite forallb_forall in H.
  by apply list_elem_of_In, H, bool_decide_eq_true in Hin.
Qed.

Lemma values64_digit v s : 0 <= v < 64 -> values64 (String (digit64 v) s) = cons v <$> values64 s.
Proof.
  intros Hv. destruct (value_digit v Hv) as (E & H1 & H2 & _). cbn [values64].
  rewrite (proj2 (Z.eqb_neq _ _) H1), (proj2 (Z.eqb_neq _ _) H2), E. simpl. by destruct (values64 s).
Qed.

(** Induction three bytes at a time. *)
Lemma string3_ind (P : string -> Prop) :
  P EmptyString -> (forall c0, P (String c0 EmptyString)) -> (forall c0 c1, P (String c0 (String c1 EmptyString))) ->
  (forall c0 c1 c2 s, P s -> P (String c0 (String c1 (String c2 s)))) -> forall s, P s.
Proof.
  intros H0 H1 H2 H3. fix go 1. intros [|c0 [|c1 [|c2 s]]]; [done|apply H1|apply H2|]. apply H3, go.
Qed.

Lemma group_three n0 n1 n2 :
  0 <= n0 < 256 -> 0 <= n1 < 256 -> 0 <= n2 < 256 ->
  let n := n0 * 65536 + n1 * 256 + n2 in
  n / 262144 * 262144 + n / 4096 mod 64 * 4096 + n / 64 mod 64 * 64 + n mod 64 = n /\
  n / 65536 = n0 /\ n / 256 mod 256 = n1 /\ n mod 256 = n2 /\
  0 <= n / 262144 < 64 /\ 0 <= n / 4096 mod 64 < 64 /\ 0 <= n / 64 mod 64 < 64 /\ 0 <= n mod 64 < 64.
Proof. intros H0 H1 H2 n. unfold n. split_and!; Z.to_euclidean_division_equations; lia. Qed.

Lemma group_two n0 n1 :
  0 <= n0 < 256 -> 0 <= n1 < 256 ->
  let n := n0 * 256 + n1 in let k := n / 1024 * 262144 + n / 16 mod 64 * 4096 + n mod 16 * 4 * 64 in
  k / 65536 = n0 /\ k / 256 mod 256 = n1 /\
  0 <= n / 1024 < 64 /\ 0 <= n / 16 mod 64 < 64 /\ 0 <= n mod 16 * 4 < 64.
Proof. intros H0 H1 n k. unfold k, n. split_and!; Z.to_euclidean_division_equations; lia. Qed.

Lemma group_one n : 0 <= n < 256 ->
  (n / 4 * 64 + n mod 4 * 16) / 16 = n /\ 0 <= n / 4 < 64 /\ 0 <= n mod 4 * 16 < 64.
Proof. intros H. split_and!; Z.to_euclidean_division_equations; lia. Qed.

Lemma decode_encode s : DecodeString (EncodeToString s) = Some s.
Proof.
  unfold DecodeString. induction s as [|c0|c0 c1|c0 c1 c2 s IH] using string3_ind; [done| | |].
  - destruct (group_one (byte_of c0) (byte_of_range c0)) as (E & H1 & H2). cbn [EncodeToString].
    rewrite !values64_digit by done. simpl. by rewrite E, char_of_byte.
  - destruct (group_two (byte_of c0) (byte_of c1) (byte_of_range c0) (byte_of_range c1)) as (E0 & E1 & H1 & H2 & H3).
    cbn [EncodeToString]. cbv zeta in *. rewrite !values64_digit by done. cbn [values64 fmap option_fmap option_map mbind option_bind group64].
    by rewrite E0, E1, !char_of_byte.
  - destruct (group_three (byte_of c0) (byte_of c1) (byte_of c2) (byte_of_range c0) (byte_of_range c1) (byte_of_range c2))
      as (E & E0 & E1 & E2 & H1 & H2 & H3 & H4).
    cbn [EncodeToString]. cbv zeta in *. rewrite !values64_digit by done.
    destruct (values64 (EncodeToString s)) as [l|]; [|done]. simpl in IH.
    cbn [fmap option_fmap option_map mbind option_bind group64]. rewrite IH. simpl.
    by rewrite E, E0, E1, E2, !char_of_byte.
Qed.

(** ** Separators *)

Fixpoint has_byte (c : Ascii.ascii) (s : string) : bool :=
  match s with EmptyString => false | String d s' => bool_decide (d = c) || has_byte c s' end.

Lemma has_byte_app c a b : has_byte c (a +:+ b) = has_byte c a || has_byte c b.
Proof. induction a as [|d a IH]; simpl; [done|]. by rewrite IH, orb_assoc. Qed.

(** [strings.Cut] and [strings.Split] on one byte. *)
Fixpoint Cut (c : Ascii.ascii) (s : string) : option (string * string) :=
  match s with
  | EmptyString => None
  | String d s' =>
      if decide (d = c) then Some (EmptyString, s')
      else match Cut c s' with Some (a, b) => Some (String d a, b) | None => None end
  end.

Fixpoint Split (c : Ascii.ascii) (s : string) : list string :=
  match s with
  | EmptyString => [EmptyString]
  | String d s' =>
      if decide (d = c) then EmptyString :: Split c s'
      else match Split c s' with a :: l => String d a :: l | [] => [String d EmptyString] end
  end.

Definition Join (c : Ascii.ascii) (l : list string) : string := String.concat (String c EmptyString) l.

Lemma Cut_app c a b : has_byte c a = false -> Cut c (a +:+ String c b) = Some (a, b).
Proof.
  induction a as [|d a IH]; simpl; [by rewrite decide_True|]. intros H. bool_to_prop.
  rewrite decide_False by done. by rewrite IH.
Qed.

Lemma Split_nonempty c s : Split c s <> [].
Proof. destruct s as [|d s]; simpl; [done|]. case_decide; [done|]. by destruct (Split c s). Qed.

Lemma Split_app c a b : has_byte c a = false -> Split c (a +:+ String c b) = a :: Split c b.
Proof.
  induction a as [|d a IH]; simpl; [by rewrite decide_True|]. intros H. bool_to_prop.
  rewrite decide_False by done. by rewrite IH.
Qed.

Lemma Split_clean c a : has_byte c a = false -> Split c a = [a].
Proof.
  induction a as [|d a IH]; simpl; [done|]. intros H. bool_to_prop.
  rewrite decide_False by done. by rewrite IH.
Qed.

Lemma Split_Join c l : l <> [] -> forallb (fun a => negb (has_byte c a)) l = true -> Split c (Join c l) = l.
Proof.
  unfold Join. induction l as [|a l IH]; [done|]. intros _. simpl forallb. intros [Ha Hl]%andb_true_iff.
  apply negb_true_iff in Ha. destruct l as [|b l]; [by apply Split_clean|].
  change (Split c (a +:+ String c (String.concat (String c EmptyString) (b :: l))) = a :: b :: l).
  rewrite Split_app by done. f_equal. by apply IH.
Qed.

(** ** Decimal integers *)

Definition digit_value (c : Ascii.ascii) : option N :=
  let b := byte_of c in if in_range b 48 57 then Some (Z.to_N (b - 48)) else None.

Fixpoint digits (s : string) (acc : N) : option N :=
  match s with
  | EmptyString => Some acc
  | String c s' => match digit_value c with Some d => digits s' (acc * 10 + d)%N | None => None end
  end.

Definition min_int64 : Z := - 2 ^ 63.
Definition max_int64 : Z := 2 ^ 63 - 1.

Definition in_int64 (z : Z) : option Z := if (min_int64 <=? z) && (z <=? max_int64) then Some z else None.

(** [strconv.ParseInt(s, 10, 64)]; [None] is any error. *)
Definition ParseUint (s : string) : option N := if decide (s = EmptyString) then None else digits s 0.

Definition ParseInt (s : string) : option Z :=
  match s with
  | EmptyString => None
  | String c s' =>
      if byte_of c =? 45 then n ← ParseUint s'; in_int64 (- Z.of_N n)
      else if byte_of c =? 43 then n ← ParseUint s'; in_int64 (Z.of_N n)
      else n ← ParseUint s; in_int64 (Z.of_N n)
  end.

Definition FormatInt (z : Z) : string := pretty z.

Lemma pretty_char d : (d < 10)%N -> digit_value (pretty_N_char d) = Some d.
Proof.
  intros Hd. assert (d = 0 \/ d = 1 \/ d = 2 \/ d = 3 \/ d = 4 \/ d = 5 \/ d = 6 \/ d = 7 \/ d = 8 \/ d = 9)%N as H by lia.
  by repeat destruct H as [-> |H]; subst.
Qed.

Lemma digits_pretty_go x s : digits (pretty_N_go x s) 0 = digits s x.
Proof.
  revert s. induction (N.lt_wf_0 x) as [x _ IH]. intros s.
  destruct (decide (0 < x)%N) as [Hx|Hx]; [|assert (x = 0%N) as -> by lia; by rewrite pretty_N_go_0].
  rewrite pretty_N_go_step by done. rewrite IH by (apply N.div_lt; lia). simpl.
  rewrite pretty_char by (apply N.mod_lt; lia). f_equal. pose proof (N.div_mod x 10). lia.
Qed.

Lemma digits_pretty (x : N) : digits (pretty x) 0 = Some x.
Proof.
  unfold pretty, pretty_N. case_decide as E; [by subst|]. apply digits_pretty_go.
Qed.

Lemma pretty_N_first (x : N) : exists c s, pretty x = String c s /\ digit_value c <> None.
Proof.
  pose proof (digits_pretty x) as H. destruct (pretty x) as [|c s] eqn:E.
  - injection H as <-. discriminate E.
  - exists c, s. split; [done|]. simpl in H. by destruct (digit_value c).
Qed.

Lemma digit_no_sign c : digit_value c <> None -> byte_of c <> 45 /\ byte_of c <> 43.
Proof. unfold digit_value, in_range. intros H. split; intros E; by rewrite E in H. Qed.

Lemma Parse_Format z : min_int64 <= z <= max_int64 -> ParseInt (FormatInt z) = Some z.
Proof.
  intros Hz. assert (in_int64 z = Some z) as Hin.
  { unfold in_int64. by rewrite (proj2 (Z.leb_le _ _) (proj1 Hz)), (proj2 (Z.leb_le _ _) (proj2 Hz)). }
  unfold FormatInt. destruct z as [|p|p]; [done| |].
  - change (pretty (Z.pos p)) with (pretty (N.pos p)). destruct (pretty_N_first (N.pos p)) as (c & s & E & Hc).
    unfold ParseInt. rewrite E. destruct (digit_no_sign c Hc) as [H1 H2].
    rewrite (proj2 (Z.eqb_neq _ _) H1), (proj2 (Z.eqb_neq _ _) H2). unfold ParseUint. rewrite decide_False by done.
    rewrite <- E, digits_pretty. exact Hin.
  - change (pretty (Z.neg p)) with (String (char_of 45) (pretty (N.pos p))). unfold ParseInt.
    change (byte_of (char_of 45) =? 45) with true. cbv iota. unfold ParseUint.
    destruct (pretty_N_first (N.pos p)) as (c & s & E & _). rewrite decide_False by (by rewrite E).
    rewrite digits_pretty. exact Hin.
Qed.

(** A printed integer holds digits and a sign. *)
Lemma FormatInt_no_byte z c : digit_value c = None -> byte_of c <> 45 -> has_byte c (FormatInt z) = false.
Proof.
  intros Hc Hsign. assert (forall s acc n, digits s acc = Some n -> has_byte c s = false) as Hd.
  { induction s as [|d s IH]; intros acc n; simpl; [done|]. destruct (digit_value d) eqn:E; [|done].
    intros H%IH. rewrite H, bool_decide_eq_false_2 by congruence. done. }
  unfold FormatInt. destruct z as [|p|p]; simpl.
  - rewrite bool_decide_eq_false_2; [done|]. by intros <-.
  - change (pretty p) with (pretty (N.pos p)). eapply Hd, digits_pretty.
  - change (pretty (Z.neg p)) with (String (char_of 45) (pretty (N.pos p))). simpl.
    rewrite bool_decide_eq_false_2 by (by intros <-). eapply Hd, digits_pretty.
Qed.
