(* ===== verification/Cursor.v ===== *)
(** * Cursors (internal/store/cursor.go)

    A cursor is a position of a listing, signed and bound to the endpoint and to the
    query as the caller wrote it.  The cryptographic functions of the standard library
    are a class over byte strings; nothing is assumed of the MAC, and of SHA-256 that
    distinct inputs have distinct digests. *)

From S2P Require Import Prelude GoStrings Ids Encoding.

(** [sha256.Sum], [hmac.New(sha256.New, key)] and [hkdf.Key] with 32 bytes, which cannot
    fail. *)
Class Crypto := {
  sha256_sum : string -> string;
  hmac_sha256 : string -> string -> string;
  hkdf_sha256 : string -> string -> string;
}.

Class DigestInj `{Crypto} := sha256_sum_inj :: Inj (=) (=) sha256_sum.

Record Cursor := mkCursor { cu_SentAtMS : Z; cu_ID : string }.

Inductive CursorError : Type := ErrCursorInvalid | ErrCursorFilterMismatch.

Definition cursorVersion : string := "agmc1".
Definition InfoCursor : string := "agent-gm/cursor/v1".
Definition NULc : Ascii.ascii := Ascii.zero.
Definition DOT : Ascii.ascii := char_of 46.
Definition LF : Ascii.ascii := char_of 10.
Definition COLON : Ascii.ascii := char_of 58.

Section Cursors.
Context `{Crypto}.

(** ** The fingerprint of a query *)

Definition writeLenPrefixed (s : string) : string :=
  FormatInt (Z.of_nat (String.length s)) +:+ String COLON (s +:+ String LF EmptyString).

Fixpoint write_values (vs : list string) : string :=
  match vs with [] => EmptyString | v :: vs' => writeLenPrefixed v +:+ write_values vs' end.

Definition write_param (kv : string * list string) : string :=
  writeLenPrefixed kv.1 +:+ (FormatInt (Z.of_nat (length kv.2)) +:+ String LF (write_values kv.2)).

Fixpoint write_params (l : list (string * list string)) : string :=
  match l with [] => EmptyString | kv :: l' => write_param kv +:+ write_params l' end.

Definition key_order (x y : string * list string) : Prop := String.le x.1 y.1.

#[export] Instance key_order_dec : RelDecision key_order.
Proof. intros x y. unfold key_order. apply _. Defined.

#[export] Instance key_order_total : Total key_order.
Proof. intros x y. unfold key_order. destruct (total String.le x.1 y.1); auto. Qed.

(** A map of parameters, written in the order of its keys. *)
Definition FilterFingerprint (params : gmap string (list string)) : string :=
  EncodeToString (sha256_sum (write_params (merge_sort key_order (map_to_list params)))).

(** ** Tokens *)

Definition cursorKey (key : string) : string := hkdf_sha256 key InfoCursor.
Definition signCursor (mac payload : string) : string := hmac_sha256 mac payload.

Definition cursorPayload (endpoint fingerprint : string) (c : Cursor) : string :=
  Join NULc [cursorVersion; endpoint; fingerprint; FormatInt (cu_SentAtMS c); cu_ID c].

Definition EncodeCursor (key endpoint fingerprint : string) (c : Cursor) : string :=
  let payload := cursorPayload endpoint fingerprint c in
  EncodeToString payload +:+ String DOT (EncodeToString (signCursor (cursorKey key) payload)).

Definition decode_payload (endpoint fingerprint payload : string) : Result CursorError Cursor :=
  match Split NULc payload with
  | [version; e; f; sentAt; id] =>
      if negb (bool_decide (version = cursorVersion)) then Err ErrCursorInvalid
      else
        match ParseInt sentAt with
        | None => Err ErrCursorInvalid
        | Some ms =>
            if negb (bool_decide (e = endpoint)) || negb (bool_decide (f = fingerprint)) then Err ErrCursorFilterMismatch
            else Ok (mkCursor ms id)
        end
  | _ => Err ErrCursorInvalid
  end.

Definition DecodeCursor (key endpoint fingerprint token : string) : Result CursorError Cursor :=
  match Cut DOT token with
  | None => Err ErrCursorInvalid
  | Some (rawPayload, rawSig) =>
      match DecodeString rawPayload with
      | None => Err ErrCursorInvalid
      | Some payload =>
          match DecodeString rawSig with
          | None => Err ErrCursorInvalid
          | Some sig =>
              if negb (bool_decide (sig = signCursor (cursorKey key) payload)) then Err ErrCursorInvalid
              else decode_payload endpoint fingerprint payload
          end
      end
  end.

(** ** Round trip and binding *)

Lemma encoded_no_byte c s : (forall v, (0 <= v < 64)%Z -> digit64 v <> c) -> has_byte c (EncodeToString s) = false.
Proof.
  intros Hc. assert (forall v t, (0 <= v < 64)%Z -> has_byte c (String (digit64 v) t) = has_byte c t) as Hd.
  { intros v t Hv. simpl. by rewrite bool_decide_eq_false_2 by auto. }
  induction s as [|c0|c0 c1|c0 c1 c2 s IH] using string3_ind; [done| | |]; cbn [EncodeToString].
  - destruct (group_one (byte_of c0) (byte_of_range c0)) as (_ & H1 & H2). by rewrite !Hd.
  - destruct (group_two (byte_of c0) (byte_of c1) (byte_of_range c0) (byte_of_range c1)) as (_ & _ & H1 & H2 & H3).
    cbv zeta in *. by rewrite !Hd.
  - destruct (group_three (byte_of c0) (byte_of c1) (byte_of c2) (byte_of_range c0) (byte_of_range c1) (byte_of_range c2))
      as (_ & _ & _ & _ & H1 & H2 & H3 & H4). cbv zeta in *. by rewrite !Hd.
Qed.

Lemma encoded_no_dot s : has_byte DOT (EncodeToString s) = false.
Proof. apply encoded_no_byte. intros v Hv. by destruct (value_digit v Hv) as (_ & _ & _ & ?). Qed.

Lemma encoded_no_nul s : has_byte NULc (EncodeToString s) = false.
Proof. apply encoded_no_byte. intros v Hv E. destruct (value_digit v Hv) as (Hd & _). by rewrite E in Hd. Qed.

Lemma payload_fields endpoint fingerprint c :
  has_byte NULc endpoint = false -> has_byte NULc fingerprint = false -> has_byte NULc (cu_ID c) = false ->
  Split NULc (cursorPayload endpoint fingerprint c) =
    [cursorVersion; endpoint; fingerprint; FormatInt (cu_SentAtMS c); cu_ID c].
Proof.
  intros He Hf Hi. apply Split_Join; [done|]. simpl. rewrite He, Hf, Hi.
  by rewrite (FormatInt_no_byte (cu_SentAtMS c) NULc) by done.
Qed.

Lemma decode_honest key endpoint fingerprint e' f' c :
  has_byte NULc endpoint = false -> has_byte NULc fingerprint = false -> has_byte NULc (cu_ID c) = false ->
  (min_int64 <= cu_SentAtMS c <= max_int64)%Z ->
  DecodeCursor key e' f' (EncodeCursor key endpoint fingerprint c) =
    if decide (endpoint = e' /\ fingerprint = f') then Ok c else Err ErrCursorFilterMismatch.
Proof.
  intros He Hf Hi Hms. unfold DecodeCursor, EncodeCursor. rewrite Cut_app by apply encoded_no_dot.
  rewrite !decode_encode. rewrite bool_decide_eq_true_2 by done. simpl. unfold decode_payload.
  rewrite payload_fields by done. rewrite bool_decide_eq_true_2 by done. simpl. rewrite Parse_Format by done.
  case_decide as Hd; [destruct Hd as [-> ->]; rewrite !bool_decide_eq_true_2 by done; by destruct c|].
  destruct (decide (endpoint = e')); [rewrite (bool_decide_eq_false_2 (fingerprint = f')) by tauto; by rewrite orb_true_r|].
  by rewrite (bool_decide_eq_false_2 (endpoint = e')) by done.
Qed.

(** C37: a cursor read back is the position it was issued for, and only for its query.
    A token this server issued decodes, under the same endpoint and fingerprint, to the
    position it encodes; under any other endpoint or fingerprint it is refused as a
    mismatch, never as invalid.  And whatever token decodes carries a MAC of this
    server's key over a payload that names that endpoint and that fingerprint. *)
Theorem cursor_roundtrip key endpoint fingerprint c :
  has_byte NULc endpoint = false -> has_byte NULc fingerprint = false -> has_byte NULc (cu_ID c) = false ->
  (min_int64 <= cu_SentAtMS c <= max_int64)%Z ->
  let token := EncodeCursor key endpoint fingerprint c in
  DecodeCursor key endpoint fingerprint token = Ok c /\
  (forall e f, (e, f) <> (endpoint, fingerprint) -> DecodeCursor key e f token = Err ErrCursorFilterMismatch) /\
  forall t e f c', DecodeCursor key e f t = Ok c' ->
    exists rawPayload rawSig payload sentAt, Cut DOT t = Some (rawPayload, rawSig) /\
      DecodeString rawPayload = Some payload /\
      DecodeString rawSig = Some (signCursor (cursorKey key) payload) /\
      Split NULc payload = [cursorVersion; e; f; sentAt; cu_ID c'] /\ ParseInt sentAt = Some (cu_SentAtMS c').
Proof.
  intros He Hf Hi Hms token. unfold token. split_and!.
  - rewrite decode_honest by done. by rewrite decide_True.
  - intros e f Hne. rewrite decode_honest by done. rewrite decide_False; [done|]. intros [-> ->]. done.
  - intros t e f c'. unfold DecodeCursor. destruct (Cut DOT t) as [[rp rs]|]; [|done].
    destruct (DecodeString rp) as [payload|] eqn:Ep; [|done]. destruct (DecodeString rs) as [sig|] eqn:Es; [|done].
    destruct (negb _) eqn:Esig; [done|]. bool_to_prop. subst sig. unfold decode_payload.
    destruct (Split NULc payload) as [|v [|e0 [|f0 [|ms [|id [|]]]]]] eqn:Esp; try done.
    destruct (negb (bool_decide (v = _))) eqn:Ev; [done|]. destruct (ParseInt ms) as [z|] eqn:Ez; [|done].
    destruct (_ || _) eqn:Eb; [done|]. intros [= <-]. bool_to_prop. subst. by exists rp, rs, payload, ms.
Qed.

(** ** The fingerprint determines the query *)

Lemma cut_inj c a b x y :
  has_byte c a = false -> has_byte c b = false -> a +:+ String c x = b +:+ String c y -> a = b /\ x = y.
Proof. intros Ha Hb E. pose proof (Cut_app c a x Ha) as H1. rewrite E, Cut_app in H1 by done. by injection H1. Qed.

Lemma append_length_inj a b x y :
  String.length a = String.length b -> a +:+ x = b +:+ y -> a = b /\ x = y.
Proof.
  revert b. induction a as [|c a IH]; intros [|d b] Hl E; try done.
  injection Hl as Hl. injection E as -> E. by destruct (IH b Hl E) as [-> ->].
Qed.

Lemma FormatInt_inj n m : FormatInt (Z.of_nat n) = FormatInt (Z.of_nat m) -> n = m.
Proof. intros E%(inj pretty). lia. Qed.

Lemma line_inj c n m x y : c = COLON \/ c = LF ->
  FormatInt (Z.of_nat n) +:+ String c x = FormatInt (Z.of_nat m) +:+ String c y -> n = m /\ x = y.
Proof.
  intros Hc E. assert (forall z, has_byte c (FormatInt z) = false) as Hb.
  { intros z. destruct Hc as [-> | ->]; by apply FormatInt_no_byte. }
  destruct (cut_inj c _ _ _ _ (Hb _) (Hb _) E) as [E1%FormatInt_inj E2]. done.
Qed.

Lemma prefixed_app s x :
  writeLenPrefixed s +:+ x = FormatInt (Z.of_nat (String.length s)) +:+ String COLON (s +:+ String LF x).
Proof.
  unfold writeLenPrefixed. rewrite append_assoc. f_equal.
  change (String COLON ((s +:+ String LF EmptyString) +:+ x) = String COLON (s +:+ String LF x)).
  by rewrite append_assoc.
Qed.

Lemma prefixed_inj a b x y :
  writeLenPrefixed a +:+ x = writeLenPrefixed b +:+ y -> a = b /\ x = y.
Proof.
  rewrite !prefixed_app. intros E.
  destruct (line_inj COLON _ _ _ _ (or_introl eq_refl) E) as [Hl E'].
  destruct (append_length_inj _ _ _ _ Hl E') as [-> E'']. by injection E''.
Qed.

Lemma values_inj vs ws x y :
  length vs = length ws -> write_values vs +:+ x = write_values ws +:+ y -> vs = ws /\ x = y.
Proof.
  revert ws. induction vs as [|v vs IH]; intros [|w ws] Hl; [done|done|done|]. cbn [write_values].
  rewrite !append_assoc. injection Hl as Hl. intros [-> E]%prefixed_inj. by destruct (IH ws Hl E) as [-> ->].
Qed.

Lemma param_app k vs x :
  write_param (k, vs) +:+ x =
    writeLenPrefixed k +:+ (FormatInt (Z.of_nat (length vs)) +:+ String LF (write_values vs +:+ x)).
Proof. unfold write_param. cbn [fst snd]. by rewrite !append_assoc. Qed.

Lemma param_inj kv kw x y : write_param kv +:+ x = write_param kw +:+ y -> kv = kw /\ x = y.
Proof.
  destruct kv as [k vs], kw as [k' ws]. rewrite !param_app. intros [-> E]%prefixed_inj.
  destruct (line_inj LF _ _ _ _ (or_intror eq_refl) E) as [Hl E']. by destruct (values_inj vs ws x y Hl E') as [-> ->].
Qed.

Lemma write_param_nonempty kv x : write_param kv +:+ x <> EmptyString.
Proof.
  destruct kv as [k vs]. rewrite param_app, prefixed_app. unfold FormatInt. intros E.
  by destruct (pretty (Z.of_nat (String.length k))).
Qed.

Lemma write_params_inj l1 l2 : write_params l1 = write_params l2 -> l1 = l2.
Proof.
  revert l2. induction l1 as [|kv l1 IH]; intros [|kw l2]; cbn [write_params]; intros E; [done| | |].
  - symmetry in E. by apply write_param_nonempty in E.
  - by apply write_param_nonempty in E.
  - apply param_inj in E as [-> E]. f_equal. by apply IH.
Qed.

(** The fingerprint is the query.  Two queries have the same fingerprint only if they
    have the same parameters with the same values in the same order: an absent parameter
    differs from any value of it, the empty one included, and no two queries can be
    confused by moving bytes between keys and values. *)
Theorem fingerprint_injective `{!DigestInj} p1 p2 :
  FilterFingerprint p1 = FilterFingerprint p2 -> p1 = p2.
Proof.
  unfold FilterFingerprint. intros E. assert (forall s t, EncodeToString s = EncodeToString t -> s = t) as Hinj.
  { intros s t Est. pose proof (decode_encode s) as Hs. rewrite Est, decode_encode in Hs. congruence. }
  apply Hinj, (inj sha256_sum), write_params_inj in E.
  rewrite <- (list_to_map_to_list p1), <- (list_to_map_to_list p2).
  assert (map_to_list p1 ≡ₚ map_to_list p2) as Hp.
  { rewrite <- (merge_sort_Permutation key_order (map_to_list p1)), E. apply merge_sort_Permutation. }
  apply list_to_map_proper; [apply NoDup_fst_map_to_list|done].
Qed.
End Cursors.

(** *** Concrete functions *)

#[export] Instance plain_crypto : Crypto := {|
  sha256_sum s := s;
  hmac_sha256 key m := key +:+ m;
  hkdf_sha256 key info := key +:+ info;
|}.

#[export] Instance plain_digest_inj : DigestInj.
Proof. intros s t. done. Qed.

Definition demo_cursor : Cursor := mkCursor 1757151662000 "msg_1".

Lemma cursor_roundtrip_witness :
  let token := EncodeCursor "k" "messages.list" "f" demo_cursor in
  DecodeCursor "k" "messages.list" "f" token = Ok demo_cursor /\
  (forall e f, (e, f) <> ("messages.list"%string, "f"%string) -> DecodeCursor "k" e f token = Err ErrCursorFilterMismatch) /\
  forall t e f c', DecodeCursor "k" e f t = Ok c' ->
    exists rawPayload rawSig payload sentAt, Cut DOT t = Some (rawPayload, rawSig) /\
      DecodeString rawPayload = Some payload /\
      DecodeString rawSig = Some (signCursor (cursorKey "k") payload) /\
      Split NULc payload = [cursorVersion; e; f; sentAt; cu_ID c'] /\ ParseInt sentAt = Some (cu_SentAtMS c').
Proof.
  apply (cursor_roundtrip "k" "messages.list" "f" demo_cursor); [reflexivity|reflexivity|reflexivity|].
  split; vm_compute; discriminate.
Defined.

Lemma fingerprint_injective_witness :
  ({["folder"%string := ["active"%string]]} : gmap string (list string)) = <["folder"%string := ["active"%string]]> ∅.
Proof. apply fingerprint_injective. vm_compute. reflexivity. Defined.
