(* ===== verification/Accounts.v ===== *)
(** * The accounts table (internal/store/accounts.go, internal/accounts/state.go)

    One row per Google account.  The state is the closed vocabulary of seven; the reason
    is text.  A method is a function of the clock reading and the table.  [AcctStep] is
    one call of any method that changes the table; the theorem is that a paired account
    is never lost and never moves back in time. *)

From S2P Require Import Prelude Limits.

(** ** The vocabulary *)

Inductive AccountState : Type :=
| StatePairing | StateConnected | StateDegraded | StateError | StateSignedOut | StateParked
| StateAccountChanged.

#[export] Instance AccountState_eq_dec : EqDecision AccountState.
Proof. solve_decision. Defined.

Definition AccountState_string (s : AccountState) : string :=
  match s with
  | StatePairing => "pairing"
  | StateConnected => "connected"
  | StateDegraded => "degraded"
  | StateError => "error"
  | StateSignedOut => "signed_out"
  | StateParked => "parked"
  | StateAccountChanged => "account_changed"
  end.

Definition States : list AccountState :=
  [StatePairing; StateConnected; StateDegraded; StateError; StateSignedOut; StateParked;
   StateAccountChanged].

Definition Resting (s : AccountState) : bool := negb (bool_decide (s = StatePairing)).

Definition Writable (s : AccountState) : bool :=
  bool_decide (s = StateConnected) || bool_decide (s = StateDegraded).

Definition Schedulable (s : AccountState) : bool :=
  match s with StateConnected | StateDegraded | StatePairing => true | _ => false end.

Definition CountsTowardAmbiguity (s : AccountState) : bool :=
  match s with
  | StateConnected | StateDegraded | StateParked | StateError | StateSignedOut | StateAccountChanged => true
  | StatePairing => false
  end.

Definition ReasonNone : string := "".
Definition ReasonCapacity : string := "capacity".
Definition ReasonListenError : string := "listen_error".
Definition ReasonCredentials : string := "credentials".
Definition ReasonRevokedByPhone : string := "revoked_by_phone".
Definition ReasonCookiesExpired : string := "cookies_expired".
Definition ReasonAccountSwitched : string := "account_switched".
Definition ReasonCrashRecovered : string := "crash_recovered".

Definition Reasons : list string :=
  [ReasonCapacity; ReasonListenError; ReasonCredentials; ReasonRevokedByPhone;
   ReasonCookiesExpired; ReasonAccountSwitched; ReasonCrashRecovered].

Definition Reason_Valid (r : string) : bool :=
  bool_decide (r = ReasonNone) || bool_decide (r ∈ Reasons).

(** ** The table *)

Record AccountRow := mkAccountRow {
  ac_google_account : string;
  ac_label : option string;
  ac_state : AccountState;
  ac_state_reason : option string;
  ac_phone_id : option string;
  ac_gaia_dest_reg_uuid : option string;
  ac_gaia_device_last_seen_ms : option Z;
  ac_session_present : bool;
  ac_paired_at_ms : option Z;
  ac_last_event_at_ms : option Z;
  ac_last_sweep_at_ms : option Z;
  ac_backfill_complete_at_ms : option Z;
  ac_created_at_ms : Z;
  ac_updated_at_ms : Z;
}.

Record Account := mkAccount {
  a_ID : string;
  a_GoogleAccount : string;
  a_Label : string;
  a_State : AccountState;
  a_StateReason : string;
  a_PhoneID : string;
  a_GaiaDestRegUUID : string;
  a_GaiaDeviceLastSeenMS : Z;
  a_SessionPresent : bool;
  a_PairedAtMS : Z;
  a_LastEventAtMS : Z;
  a_LastSweepAtMS : Z;
  a_BackfillCompleteAtMS : Z;
  a_CreatedAtMS : Z;
  a_UpdatedAtMS : Z;
}.

Definition scanAccount (id : string) (r : AccountRow) : Account :=
  mkAccount id (ac_google_account r) (scanString (ac_label r)) (ac_state r)
    (scanString (ac_state_reason r)) (scanString (ac_phone_id r))
    (scanString (ac_gaia_dest_reg_uuid r)) (scanInt (ac_gaia_device_last_seen_ms r))
    (ac_session_present r) (scanInt (ac_paired_at_ms r)) (scanInt (ac_last_event_at_ms r))
    (scanInt (ac_last_sweep_at_ms r)) (scanInt (ac_backfill_complete_at_ms r))
    (ac_created_at_ms r) (ac_updated_at_ms r).

Notation accounts_table := (gmap string AccountRow).

Inductive AcctError : Type := ErrAccountNotFound | ErrAccountConstraint.

(** The row of an [INSERT], and what [ON CONFLICT(id)] makes of the row that is there. *)
Definition account_values (now : Z) (a : Account) : AccountRow :=
  mkAccountRow (a_GoogleAccount a) (nullString (a_Label a)) (a_State a)
    (nullString (a_StateReason a)) (nullString (a_PhoneID a)) (nullString (a_GaiaDestRegUUID a))
    (nullInt (a_GaiaDeviceLastSeenMS a)) (a_SessionPresent a) (nullInt (a_PairedAtMS a))
    (nullInt (a_LastEventAtMS a)) (nullInt (a_LastSweepAtMS a))
    (nullInt (a_BackfillCompleteAtMS a)) now now.

Definition account_conflict (new old : AccountRow) : AccountRow :=
  mkAccountRow (ac_google_account new) (coalesce (ac_label new) (ac_label old)) (ac_state new)
    (ac_state_reason new) (coalesce (ac_phone_id new) (ac_phone_id old))
    (coalesce (ac_gaia_dest_reg_uuid new) (ac_gaia_dest_reg_uuid old))
    (coalesce (ac_gaia_device_last_seen_ms new) (ac_gaia_device_last_seen_ms old))
    (ac_session_present new) (coalesce (ac_paired_at_ms new) (ac_paired_at_ms old))
    (ac_last_event_at_ms old) (ac_last_sweep_at_ms old) (ac_backfill_complete_at_ms old)
    (ac_created_at_ms old) (ac_updated_at_ms new).

(** [google_account] is UNIQUE: another row has the address. *)
Definition address_taken (id address : string) (t : accounts_table) : bool :=
  existsb (fun kr : string * AccountRow =>
    negb (bool_decide (kr.1 = id)) && bool_decide (ac_google_account kr.2 = address)) (map_to_list t).

Definition UpsertAccount (now : Z) (a : Account) (t : accounts_table) : Result AcctError accounts_table :=
  if address_taken (a_ID a) (a_GoogleAccount a) t then Err ErrAccountConstraint
  else
    let new := account_values now a in
    Ok (<[a_ID a := match t !! a_ID a with Some old => account_conflict new old | None => new end]> t).

Definition with_state (now : Z) (st : AccountState) (reason : string) (r : AccountRow) : AccountRow :=
  mkAccountRow (ac_google_account r) (ac_label r) st (nullString reason) (ac_phone_id r)
    (ac_gaia_dest_reg_uuid r) (ac_gaia_device_last_seen_ms r) (ac_session_present r)
    (ac_paired_at_ms r) (ac_last_event_at_ms r) (ac_last_sweep_at_ms r)
    (ac_backfill_complete_at_ms r) (ac_created_at_ms r) now.

Definition SetAccountState (now : Z) (id : string) (st : AccountState) (reason : string)
    (t : accounts_table) : Result AcctError accounts_table :=
  match t !! id with
  | None => Err ErrAccountNotFound
  | Some r => Ok (<[id := with_state now st reason r]> t)
  end.

Definition with_session (now : Z) (present : bool) (r : AccountRow) : AccountRow :=
  mkAccountRow (ac_google_account r) (ac_label r) (ac_state r) (ac_state_reason r) (ac_phone_id r)
    (ac_gaia_dest_reg_uuid r) (ac_gaia_device_last_seen_ms r) present
    (ac_paired_at_ms r) (ac_last_event_at_ms r) (ac_last_sweep_at_ms r)
    (ac_backfill_complete_at_ms r) (ac_created_at_ms r) now.

Definition SetSessionPresent (now : Z) (id : string) (present : bool) (t : accounts_table) : accounts_table :=
  alter (with_session now present) id t.

Definition touched (ms : Z) (r : AccountRow) : AccountRow :=
  mkAccountRow (ac_google_account r) (ac_label r) (ac_state r) (ac_state_reason r) (ac_phone_id r)
    (ac_gaia_dest_reg_uuid r) (ac_gaia_device_last_seen_ms r) (ac_session_present r)
    (ac_paired_at_ms r) (Some (Z.max (default 0%Z (ac_last_event_at_ms r)) ms)) (ac_last_sweep_at_ms r)
    (ac_backfill_complete_at_ms r) (ac_created_at_ms r) ms.

(** [ms] is the given instant, not a reading of the store's clock. *)
Definition TouchAccountEvent (ms : Z) (id : string) (t : accounts_table) : accounts_table :=
  alter (touched ms) id t.

Definition swept (ms : Z) (r : AccountRow) : AccountRow :=
  mkAccountRow (ac_google_account r) (ac_label r) (ac_state r) (ac_state_reason r) (ac_phone_id r)
    (ac_gaia_dest_reg_uuid r) (ac_gaia_device_last_seen_ms r) (ac_session_present r)
    (ac_paired_at_ms r) (ac_last_event_at_ms r) (Some (Z.max (default 0%Z (ac_last_sweep_at_ms r)) ms))
    (ac_backfill_complete_at_ms r) (ac_created_at_ms r) ms.

Definition SetAccountLastSweep (ms : Z) (id : string) (t : accounts_table) : accounts_table :=
  alter (swept ms) id t.

Definition with_backfill (now : Z) (at_ : option Z) (r : AccountRow) : AccountRow :=
  mkAccountRow (ac_google_account r) (ac_label r) (ac_state r) (ac_state_reason r) (ac_phone_id r)
    (ac_gaia_dest_reg_uuid r) (ac_gaia_device_last_seen_ms r) (ac_session_present r)
    (ac_paired_at_ms r) (ac_last_event_at_ms r) (ac_last_sweep_at_ms r) at_ (ac_created_at_ms r) now.

(** The zero time is [None]. *)
Definition SetAccountBackfillComplete (now : Z) (id : string) (at_ : option Z) (t : accounts_table)
    : accounts_table := alter (with_backfill now at_) id t.

Definition with_label (now : Z) (label : string) (r : AccountRow) : AccountRow :=
  mkAccountRow (ac_google_account r) (nullString label) (ac_state r) (ac_state_reason r) (ac_phone_id r)
    (ac_gaia_dest_reg_uuid r) (ac_gaia_device_last_seen_ms r) (ac_session_present r)
    (ac_paired_at_ms r) (ac_last_event_at_ms r) (ac_last_sweep_at_ms r)
    (ac_backfill_complete_at_ms r) (ac_created_at_ms r) now.

Definition SetAccountLabel (now : Z) (id label : string) (t : accounts_table) : accounts_table :=
  alter (with_label now label) id t.

Definition ReadAccount (id : string) (t : accounts_table) : Result AcctError Account :=
  match t !! id with Some r => Ok (scanAccount id r) | None => Err ErrAccountNotFound end.

(** [ORDER BY COALESCE(last_event_at_ms, 0) DESC, id ASC]. *)
Definition newest_event_first (x y : string * AccountRow) : Prop :=
  (scanInt (ac_last_event_at_ms y.2) < scanInt (ac_last_event_at_ms x.2))%Z \/
  scanInt (ac_last_event_at_ms y.2) = scanInt (ac_last_event_at_ms x.2) /\ String.le x.1 y.1.

#[export] Instance newest_event_first_dec : RelDecision newest_event_first.
Proof. intros x y. unfold newest_event_first. apply _. Defined.

#[export] Instance newest_event_first_total : Total newest_event_first.
Proof.
  intros [i x] [j y]. unfold newest_event_first. simpl.
  destruct (Z.lt_trichotomy (scanInt (ac_last_event_at_ms x)) (scanInt (ac_last_event_at_ms y)))
    as [?|[?|?]]; [by auto| |by auto].
  destruct (total String.le i j); auto.
Qed.

Definition Accounts (t : accounts_table) : list Account :=
  (fun kr => scanAccount kr.1 kr.2) <$> merge_sort newest_event_first (map_to_list t).

(** [state = 'pairing' AND paired_at_ms IS NULL]. *)
Definition never_paired (r : AccountRow) : bool :=
  bool_decide (ac_state r = StatePairing) && bool_decide (ac_paired_at_ms r = None).

Definition DeletePairingAccount (id : string) (t : accounts_table) : accounts_table :=
  match t !! id with Some r => if never_paired r then delete id t else t | None => t end.

Definition pairing_candidates (t : accounts_table) : list string :=
  (filter (fun kr : string * AccountRow => never_paired kr.2 = true) (map_to_list t)).*1.

(** Each candidate is read again before it is deleted; a candidate that has gone is an
    error, and what was deleted before it stays deleted. *)
Fixpoint sweep_candidates (live : gset string) (cutoff : Z) (ids deleted : list string)
    (t : accounts_table) : accounts_table * Result AcctError (list string) :=
  match ids with
  | [] => (t, Ok deleted)
  | id :: ids' =>
      match t !! id with
      | None => (t, Err ErrAccountNotFound)
      | Some r =>
          if bool_decide (id ∈ live) && (cutoff <=? ac_updated_at_ms r)%Z
          then sweep_candidates live cutoff ids' deleted t
          else sweep_candidates live cutoff ids' (deleted ++ [id]) (DeletePairingAccount id t)
      end
  end.

Definition SweepAbandonedPairings (now : Z) (live : gset string) (olderThan : Z) (t : accounts_table)
    : accounts_table * Result AcctError (list string) :=
  sweep_candidates live (UnixMilli (now - olderThan)) (pairing_candidates t) [] t.

(** ** Histories *)

(** One call of a method that changes the table.  Erasure is not among them. *)
Inductive AcctStep (t : accounts_table) : accounts_table -> Prop :=
| as_upsert now a t' : UpsertAccount now a t = Ok t' -> AcctStep t t'
| as_state now id st reason t' : SetAccountState now id st reason t = Ok t' -> AcctStep t t'
| as_session now id present : AcctStep t (SetSessionPresent now id present t)
| as_touch ms id : AcctStep t (TouchAccountEvent ms id t)
| as_sweep ms id : AcctStep t (SetAccountLastSweep ms id t)
| as_backfill now id at_ : AcctStep t (SetAccountBackfillComplete now id at_ t)
| as_label now id label : AcctStep t (SetAccountLabel now id label t)
| as_delete id : AcctStep t (DeletePairingAccount id t).

(** What a row keeps: its creation, that it was paired, and its two monotone instants. *)
Record acct_le (r r' : AccountRow) : Prop := {
  al_created : ac_created_at_ms r' = ac_created_at_ms r;
  al_paired : ac_paired_at_ms r <> None -> ac_paired_at_ms r' <> None;
  al_event : (scanInt (ac_last_event_at_ms r) <= scanInt (ac_last_event_at_ms r'))%Z;
  al_swept : (scanInt (ac_last_sweep_at_ms r) <= scanInt (ac_last_sweep_at_ms r'))%Z;
}.

#[export] Instance acct_le_po : PreOrder acct_le.
Proof.
  split; [by intros r|]. intros r1 r2 r3 [] []. split; [congruence|auto|lia|lia].
Qed.

Lemma acct_le_alter g id (t : accounts_table) k r :
  (forall r0, acct_le r0 (g r0)) -> t !! k = Some r ->
  exists r', alter g id t !! k = Some r' /\ acct_le r r'.
Proof.
  intros Hg Hk. rewrite lookup_alter. case_decide; [subst k; rewrite Hk; by eexists|by exists r].
Qed.

Lemma acct_le_insert id r0 r1 (t : accounts_table) k r :
  t !! id = Some r0 -> acct_le r0 r1 -> t !! k = Some r ->
  exists r', <[id := r1]> t !! k = Some r' /\ acct_le r r'.
Proof.
  intros Hid Hle Hk. rewrite lookup_insert. case_decide as E; [|by exists r].
  subst k. rewrite Hid in Hk. injection Hk as <-. by exists r1.
Qed.

Lemma touched_le ms r : acct_le r (touched ms r).
Proof. split; simpl; [done|done|unfold scanInt; lia|lia]. Qed.

Lemma swept_le ms r : acct_le r (swept ms r).
Proof. split; simpl; [done|done|lia|unfold scanInt; lia]. Qed.

Lemma conflict_le new old : acct_le old (account_conflict new old).
Proof. split; simpl; try done. by destruct (ac_paired_at_ms new). Qed.

Lemma step_le t t' k r :
  AcctStep t t' -> t !! k = Some r -> ac_paired_at_ms r <> None ->
  exists r', t' !! k = Some r' /\ acct_le r r'.
Proof.
  intros Hst Hk Hp. destruct Hst as [now a t' Hu|now id st reason t' Hs| | | | | |id].
  - unfold UpsertAccount in Hu. destruct (address_taken _ _ _); [done|]. injection Hu as <-.
    destruct (t !! a_ID a) as [old|] eqn:E; [by eapply acct_le_insert, Hk; [|apply conflict_le]|].
    exists r. split; [|done]. rewrite lookup_insert_ne; [done|congruence].
  - unfold SetAccountState in Hs. destruct (t !! id) as [r0|] eqn:E; [|done]. injection Hs as <-.
    by eapply acct_le_insert.
  - by apply acct_le_alter.
  - apply acct_le_alter; [apply touched_le|done].
  - apply acct_le_alter; [apply swept_le|done].
  - by apply acct_le_alter.
  - by apply acct_le_alter.
  - exists r. split; [|done]. unfold DeletePairingAccount. destruct (t !! id) as [r0|] eqn:E; [|done].
    destruct (never_paired r0) eqn:Hn; [|done]. rewrite lookup_delete_ne; [done|]. intros ->.
    rewrite E in Hk. injection Hk as ->. unfold never_paired in Hn. bool_to_prop. tauto.
Qed.

Lemma steps_le t t' id r :
  rtc AcctStep t t' -> t !! id = Some r -> ac_paired_at_ms r <> None ->
  exists r', t' !! id = Some r' /\ acct_le r r' /\ ac_paired_at_ms r' <> None.
Proof.
  intros Hst. revert r. induction Hst as [t|t t1 t' H1 _ IH]; intros r Hk Hp; [by exists r|].
  destruct (step_le _ _ _ _ H1 Hk Hp) as (r1 & Hr1 & Hle).
  destruct (IH r1 Hr1 (al_paired _ _ Hle Hp)) as (r' & Hr' & Hle' & Hp').
  exists r'. split_and!; [done|by etransitivity|done].
Qed.

(** A paired account is never lost and never goes back.  Whatever methods are called
    in whatever order, the row of an account that was ever paired stays, keeps its
    creation time, remains paired, and the instants of its last event and last sweep
    never move backwards. *)
Theorem paired_account_history t t' id r :
  rtc AcctStep t t' -> t !! id = Some r -> ac_paired_at_ms r <> None ->
  exists r', t' !! id = Some r' /\ acct_le r r' /\ ac_paired_at_ms r' <> None.
Proof. apply steps_le. Qed.

(** ** The sweep of abandoned pairings *)

Definition abandoned (live : gset string) (cutoff : Z) (id : string) (r : AccountRow) : bool :=
  never_paired r && negb (bool_decide (id ∈ live) && (cutoff <=? ac_updated_at_ms r)%Z).

Lemma elem_pairing_candidates t id :
  id ∈ pairing_candidates t <-> exists r, t !! id = Some r /\ never_paired r = true.
Proof.
  unfold pairing_candidates. rewrite list_elem_of_fmap. split.
  - intros ([k r] & -> & [? Hin]%list_elem_of_filter). exists r. by apply elem_of_map_to_list in Hin.
  - intros (r & Hr & Hn). exists (id, r). split; [done|]. apply list_elem_of_filter.
    split; [done|]. by apply elem_of_map_to_list.
Qed.

Lemma NoDup_pairing_candidates t : NoDup (pairing_candidates t).
Proof.
  unfold pairing_candidates. apply NoDup_fmap_fst; [|apply NoDup_filter, NoDup_map_to_list].
  intros k r1 r2 [_ H1%elem_of_map_to_list]%list_elem_of_filter [_ H2%elem_of_map_to_list]%list_elem_of_filter.
  congruence.
Qed.

Lemma sweep_candidates_spec live cutoff ids deleted t :
  NoDup ids -> (forall id, id ∈ ids -> exists r, t !! id = Some r /\ never_paired r = true) ->
  exists t' gone, sweep_candidates live cutoff ids deleted t = (t', Ok (deleted ++ gone)) /\
    (forall id, id ∈ gone <-> id ∈ ids /\ exists r, t !! id = Some r /\ abandoned live cutoff id r = true) /\
    (forall id, t' !! id = if decide (id ∈ gone) then None else t !! id).
Proof.
  revert deleted t. induction ids as [|id ids IH]; intros deleted t Hnd Hin.
  { exists t, []. simpl. rewrite app_nil_r. split; [done|]. split; [|done].
    intros id. split; [by intros ?%not_elem_of_nil|by intros [?%not_elem_of_nil _]]. }
  apply NoDup_cons in Hnd as [Hnot Hnd]. destruct (Hin id) as (r & Hr & Hn); [apply elem_of_cons; auto|].
  simpl. rewrite Hr. destruct (bool_decide (id ∈ live) && (cutoff <=? ac_updated_at_ms r)%Z) eqn:E.
  - destruct (IH deleted t Hnd) as (t' & gone & -> & Hgone & Ht'); [intros; apply Hin; apply elem_of_cons; auto|].
    exists t', gone. split; [done|]. split; [|done]. intros k. rewrite Hgone, elem_of_cons.
    split; [naive_solver|]. intros [[-> |Hk] (r0 & Hr0 & Hab)]; [|by eauto].
    rewrite Hr in Hr0. injection Hr0 as <-. unfold abandoned in Hab. rewrite E, Hn in Hab. done.
  - unfold DeletePairingAccount. rewrite Hr, Hn.
    assert (forall k, k ∈ ids -> delete id t !! k = t !! k) as Hsame
      by (intros k Hk; apply lookup_delete_ne; congruence).
    destruct (IH (deleted ++ [id]) (delete id t) Hnd) as (t' & gone & -> & Hgone & Ht').
    { intros k Hk. rewrite Hsame by done. apply Hin, elem_of_cons. auto. }
    exists t', (id :: gone). rewrite <- app_assoc. split; [done|]. split.
    + intros k. rewrite !elem_of_cons, Hgone. split.
      * intros [-> |[Hk (r0 & Hr0 & Hab)]]; [split; [auto|]; exists r; split; [done|]; unfold abandoned; by rewrite Hn, E|].
        split; [auto|]. exists r0. by rewrite <- Hsame.
      * intros [[-> |Hk] Hab]; [auto|right]. split; [done|]. by rewrite Hsame.
    + intros k. rewrite Ht'. destruct (decide (k = id)) as [-> |Hne].
      * rewrite (decide_True (P := id ∈ id :: gone)) by (apply elem_of_cons; auto).
        rewrite lookup_delete_eq. by destruct (decide (id ∈ gone)).
      * rewrite lookup_delete_ne by done. destruct (decide (k ∈ gone)); [rewrite decide_True|rewrite decide_False];
          rewrite ?elem_of_cons; naive_solver.
Qed.

(** The sweep of abandoned pairings.  It always succeeds; it deletes exactly the rows
    in [pairing] that were never paired and have no live pairing behind them or have not
    been written since the timeout, and it changes no other row. *)
Theorem abandoned_sweep_exact now live olderThan t :
  exists t' gone, SweepAbandonedPairings now live olderThan t = (t', Ok gone) /\
    (forall id, id ∈ gone <-> exists r, t !! id = Some r /\ ac_state r = StatePairing /\
       ac_paired_at_ms r = None /\ (id ∉ live \/ ac_updated_at_ms r < UnixMilli (now - olderThan))%Z) /\
    (forall id, t' !! id = if decide (id ∈ gone) then None else t !! id).
Proof.
  destruct (sweep_candidates_spec live (UnixMilli (now - olderThan)) (pairing_candidates t) [] t
    (NoDup_pairing_candidates t)) as (t' & gone & E & Hgone & Ht').
  { intros id. apply elem_pairing_candidates. }
  exists t', gone. split; [exact E|]. split; [|done]. intros id. rewrite Hgone, elem_pairing_candidates.
  assert (forall r, abandoned live (UnixMilli (now - olderThan)) id r = true <->
    ac_state r = StatePairing /\ ac_paired_at_ms r = None /\
    (id ∉ live \/ ac_updated_at_ms r < UnixMilli (now - olderThan))%Z) as Hab.
  { intros r. unfold abandoned, never_paired.
    rewrite !andb_true_iff, negb_true_iff, andb_false_iff, !bool_decide_eq_true, bool_decide_eq_false, Z.leb_gt. tauto. }
  split.
  - intros [_ (r & Hr & ?%Hab)]. by exists r.
  - intros (r & Hr & Hr'). split; [|exists r; by rewrite Hab]. exists r. split; [done|].
    unfold never_paired. destruct Hr' as (-> & -> & _). done.
Qed.

(** ** The listing *)

#[export] Instance newest_event_first_trans : Transitive newest_event_first.
Proof.
  intros [i x] [j y] [k z]. unfold newest_event_first. simpl.
  intros [?|[? ?]] [?|[? ?]]; [left; lia..|]. right. split; [lia|by etransitivity].
Qed.

Lemma elem_Accounts t a : a ∈ Accounts t <-> exists r, t !! a_ID a = Some r /\ a = scanAccount (a_ID a) r.
Proof.
  unfold Accounts. rewrite list_elem_of_fmap. split.
  - intros ([k r] & -> & Hin). exists r. simpl. split; [|done].
    by rewrite merge_sort_Permutation, elem_of_map_to_list in Hin.
  - intros (r & Hr & ->). exists (a_ID a, r). split; [done|].
    by rewrite merge_sort_Permutation, elem_of_map_to_list.
Qed.

Lemma NoDup_Accounts t : NoDup (a_ID <$> Accounts t).
Proof.
  unfold Accounts. rewrite <- list_fmap_compose.
  change (NoDup ((merge_sort newest_event_first (map_to_list t)).*1)).
  rewrite merge_sort_Permutation. apply NoDup_fst_map_to_list.
Qed.

(** *** Concrete tables *)

Definition demo_row : AccountRow :=
  mkAccountRow "a@example.org" None StateSignedOut (Some ReasonCredentials) None None None true (Some 5%Z)
    (Some 70%Z) None None 1 9.

Lemma paired_account_history_witness :
  let t := {["acct_1"%string := demo_row]} in
  let t' := TouchAccountEvent 40 "acct_1" (DeletePairingAccount "acct_1" t) in
  exists r', t' !! "acct_1"%string = Some r' /\ acct_le demo_row r' /\ ac_paired_at_ms r' <> None.
Proof.
  intros t t'. apply (paired_account_history t t' "acct_1" demo_row); [|done|done].
  apply (rtc_l _ _ (DeletePairingAccount "acct_1" t)); [apply as_delete|].
  apply rtc_once. apply as_touch.
Defined.
