(* ===== verification/Workers.v ===== *)
(** * The backfill workers (internal/accounts/workers.go)

    The real [Backfiller]: one worker state per account, found through a map, and one
    goroutine per walk.  A [workerState] is shared by the map and the goroutine, so the
    heap of worker states and the map are separate.  [WkStep] is one critical section of
    one call or of one goroutine; what a call does after it released the mutex (cancel
    the walk, send on the resume channel) is a step of its own, taken here at any time. *)

From S2P Require Import Prelude Errors Accounts.

Record Worker := mkWorker {
  wk_cancel : option nat;       (** the run whose context [cancel] ends *)
  wk_paused : bool;
  wk_token : bool;              (** the buffered [resume] channel, of capacity one *)
  wk_started : bool;
  wk_done : bool;
  wk_err : option GoError;
}.

(** [run]: before the test of [paused], in its [select], in [engine.Backfill], past its
    body, and after the deferred write of [done]. *)
Inductive Phase : Type := PhChecking | PhBlocked | PhWalking | PhReturning | PhEnded.

#[export] Instance Phase_eq_dec : EqDecision Phase.
Proof. solve_decision. Defined.

Record Run := mkRun {
  rn_account : string;
  rn_worker : nat;
  rn_cancelled : bool;
  rn_phase : Phase;
}.

Record Workers := mkWorkers {
  ws_heap : gmap nat Worker;
  ws_state : gmap string nat;
  ws_runs : gmap nat Run;
  ws_next : nat;                (** the next worker and run *)
  ws_cancelling : gset nat;     (** runs a [Stop] has yet to cancel *)
  ws_signalling : gset nat;     (** workers a [Resume] has yet to signal *)
}.

Definition NewWorkers : Workers := mkWorkers ∅ ∅ ∅ 0 ∅ ∅.

Definition with_heap (f : gmap nat Worker -> gmap nat Worker) (w : Workers) : Workers :=
  mkWorkers (f (ws_heap w)) (ws_state w) (ws_runs w) (ws_next w) (ws_cancelling w) (ws_signalling w).

Definition with_runs (f : gmap nat Run -> gmap nat Run) (w : Workers) : Workers :=
  mkWorkers (ws_heap w) (ws_state w) (f (ws_runs w)) (ws_next w) (ws_cancelling w) (ws_signalling w).

Definition newWorker : Worker := mkWorker None false false false false None.

Definition launched (r : nat) (k : Worker) : Worker :=
  mkWorker (Some r) (wk_paused k) (wk_token k) true false (wk_err k).

Definition set_paused (b : bool) (k : Worker) : Worker :=
  mkWorker (wk_cancel k) b (wk_token k) (wk_started k) (wk_done k) (wk_err k).

Definition set_token (b : bool) (k : Worker) : Worker :=
  mkWorker (wk_cancel k) (wk_paused k) b (wk_started k) (wk_done k) (wk_err k).

Definition set_done (k : Worker) : Worker :=
  mkWorker (wk_cancel k) (wk_paused k) (wk_token k) (wk_started k) true (wk_err k).

Definition set_err (e : GoError) (k : Worker) : Worker :=
  mkWorker (wk_cancel k) (wk_paused k) (wk_token k) (wk_started k) (wk_done k) (Some e).

Definition set_phase (p : Phase) (r : Run) : Run :=
  mkRun (rn_account r) (rn_worker r) (rn_cancelled r) p.

Definition set_cancelled (r : Run) : Run :=
  mkRun (rn_account r) (rn_worker r) true (rn_phase r).

(** ** The methods *)

Definition busy (k : Worker) : bool := wk_started k && negb (wk_done k).

Definition allocate (id : string) (k : Worker) (w : Workers) : Workers :=
  mkWorkers (<[ws_next w := k]> (ws_heap w)) (<[id := ws_next w]> (ws_state w)) (ws_runs w)
    (S (ws_next w)) (ws_cancelling w) (ws_signalling w).

(** The goroutine of a walk with worker [i], and its [cancel]. *)
Definition launch (id : string) (i : nat) (w : Workers) : Workers :=
  let r := ws_next w in
  mkWorkers (alter (launched r) i (ws_heap w)) (ws_state w)
    (<[r := mkRun id i false PhChecking]> (ws_runs w)) (S r) (ws_cancelling w) (ws_signalling w).

Definition Workers_Start (id : string) (w : Workers) : Workers :=
  match ws_state w !! id with
  | Some i =>
      match ws_heap w !! i with
      | Some k => if busy k then w else launch id i w
      | None => w
      end
  | None => launch id (ws_next w) (allocate id newWorker w)
  end.

(** The worker leaves the map under the mutex; its walk is cancelled after. *)
Definition Workers_Stop_unmap (id : string) (w : Workers) : Workers :=
  match ws_state w !! id with
  | None => w
  | Some i =>
      mkWorkers (ws_heap w) (delete id (ws_state w)) (ws_runs w) (ws_next w)
        (match ws_heap w !! i ≫= wk_cancel with
         | Some r => {[r]} ∪ ws_cancelling w
         | None => ws_cancelling w
         end) (ws_signalling w)
  end.

Definition Workers_cancel (r : nat) (w : Workers) : Workers :=
  mkWorkers (ws_heap w) (ws_state w) (alter set_cancelled r (ws_runs w)) (ws_next w)
    (ws_cancelling w ∖ {[r]}) (ws_signalling w).

Definition Workers_Pause (id : string) (w : Workers) : Workers :=
  match ws_state w !! id with
  | Some i => with_heap (alter (set_paused true) i) w
  | None => allocate id (set_paused true newWorker) w
  end.

(** [paused] is cleared under the mutex, the channel is sent to after. *)
Definition Workers_Resume_clear (id : string) (w : Workers) : Workers :=
  match ws_state w !! id with
  | Some i =>
      mkWorkers (alter (set_paused false) i (ws_heap w)) (ws_state w) (ws_runs w) (ws_next w)
        (ws_cancelling w) ({[i]} ∪ ws_signalling w)
  | None => w
  end.

Definition Workers_signal (i : nat) (w : Workers) : Workers :=
  mkWorkers (alter (set_token true) i (ws_heap w)) (ws_state w) (ws_runs w) (ws_next w)
    (ws_cancelling w) (ws_signalling w ∖ {[i]}).

Definition worker_of (r : Run) (w : Workers) : Worker := default newWorker (ws_heap w !! rn_worker r).

(** [waitWhilePaused]: the test, and the two ways out of the [select]. *)
Definition run_check (n : nat) (r : Run) (w : Workers) : Workers :=
  with_runs <[n := set_phase (if wk_paused (worker_of r w) then PhBlocked else PhWalking) r]> w.

Definition run_wake (n : nat) (r : Run) (w : Workers) : Workers :=
  with_runs <[n := set_phase PhChecking r]> (with_heap (alter (set_token false) (rn_worker r)) w).

(** [fail], when there is an error, and the return from the body. *)
Definition run_return (n : nat) (r : Run) (err : option GoError) (w : Workers) : Workers :=
  with_runs <[n := set_phase PhReturning r]>
    (match err with Some e => with_heap (alter (set_err e) (rn_worker r)) w | None => w end).

Definition run_end (n : nat) (r : Run) (w : Workers) : Workers :=
  with_runs <[n := set_phase PhEnded r]> (with_heap (alter set_done (rn_worker r)) w).

Inductive WkStep (w : Workers) : Workers -> Prop :=
| wk_start id : WkStep w (Workers_Start id w)
| wk_stop id : WkStep w (Workers_Stop_unmap id w)
| wk_do_cancel r : WkStep w (Workers_cancel r w)
| wk_pause id : WkStep w (Workers_Pause id w)
| wk_resume id : WkStep w (Workers_Resume_clear id w)
| wk_do_signal i : WkStep w (Workers_signal i w)
| wk_check n r : ws_runs w !! n = Some r -> rn_phase r = PhChecking -> WkStep w (run_check n r w)
| wk_wake n r : ws_runs w !! n = Some r -> rn_phase r = PhBlocked ->
    wk_token (worker_of r w) = true -> WkStep w (run_wake n r w)
| wk_cancelled n r : ws_runs w !! n = Some r -> rn_phase r = PhBlocked ->
    rn_cancelled r = true -> WkStep w (run_return n r None w)
| wk_walked n r err : ws_runs w !! n = Some r -> rn_phase r = PhWalking ->
    WkStep w (run_return n r err w)
| wk_end n r : ws_runs w !! n = Some r -> rn_phase r = PhReturning -> WkStep w (run_end n r w).

(** ** The invariant *)

Definition live (r : Run) : Prop := rn_phase r <> PhEnded.

Record workers_ok (w : Workers) : Prop := {
  wo_state : forall id i, ws_state w !! id = Some i -> is_Some (ws_heap w !! i);
  wo_inj : forall id1 id2 i, ws_state w !! id1 = Some i -> ws_state w !! id2 = Some i -> id1 = id2;
  wo_heap_lt : forall i, is_Some (ws_heap w !! i) -> (i < ws_next w)%nat;
  wo_run_lt : forall n, is_Some (ws_runs w !! n) -> (n < ws_next w)%nat;
  (* the worker of a live walk is marked busy, and it is that walk its cancel ends *)
  wo_live : forall n r, ws_runs w !! n = Some r -> live r ->
    exists k, ws_heap w !! rn_worker r = Some k /\ wk_cancel k = Some n /\ busy k = true;
  (* a live walk is the one its account's entry leads to, or it is being cancelled *)
  wo_mapped : forall n r, ws_runs w !! n = Some r -> live r ->
    ws_state w !! rn_account r = Some (rn_worker r) \/ rn_cancelled r = true \/ n ∈ ws_cancelling w;
  (* no wake-up is lost *)
  wo_blocked : forall n r k, ws_runs w !! n = Some r -> rn_phase r = PhBlocked ->
    ws_heap w !! rn_worker r = Some k -> wk_paused k = false ->
    wk_token k = true \/ rn_worker r ∈ ws_signalling w;
}.

Lemma NewWorkers_ok : workers_ok NewWorkers.
Proof.
  split; simpl; intros; rewrite ?lookup_empty in *; try done; by destruct H.
Qed.

Lemma heap_alter f i (h : gmap nat Worker) j k :
  h !! j = Some k -> exists k', alter f i h !! j = Some k' /\ (k' = k \/ j = i /\ k' = f k).
Proof.
  intros Hj. rewrite lookup_alter. case_decide as E; [subst j; rewrite Hj; eauto|eauto].
Qed.

Lemma heap_alter_inv f i (h : gmap nat Worker) j k' :
  alter f i h !! j = Some k' -> exists k, h !! j = Some k /\ k' = if decide (i = j) then f k else k.
Proof.
  rewrite lookup_alter. case_decide as E; [|eauto].
  destruct (h !! i) as [k|] eqn:Hi; [|done]. intros [= <-]. exists k. by subst.
Qed.

(** A worker has at most one live walk. *)
Lemma live_unique w n1 n2 r1 r2 :
  workers_ok w -> ws_runs w !! n1 = Some r1 -> live r1 -> ws_runs w !! n2 = Some r2 -> live r2 ->
  rn_worker r1 = rn_worker r2 -> n1 = n2.
Proof.
  intros Hok H1 L1 H2 L2 E. destruct (wo_live w Hok n1 r1 H1 L1) as (k1 & Hk1 & Hc1 & _).
  destruct (wo_live w Hok n2 r2 H2 L2) as (k2 & Hk2 & Hc2 & _). rewrite E in Hk1. congruence.
Qed.

(** An update of one worker that keeps its cancel and its busyness, and that unpauses it
    only along with a token or a pending signal. *)
Lemma ok_heap w f i sig :
  workers_ok w ->
  (forall k, wk_cancel (f k) = wk_cancel k /\ busy (f k) = busy k) ->
  (forall j, j ∈ ws_signalling w -> j ∈ sig \/ j = i /\ forall k, wk_token (f k) = true) ->
  (forall k, wk_paused (f k) = false ->
     i ∈ sig \/ wk_token (f k) = true \/
     wk_paused k = false /\ (wk_token k = true -> wk_token (f k) = true) /\ i ∉ ws_signalling w) ->
  workers_ok (mkWorkers (alter f i (ws_heap w)) (ws_state w) (ws_runs w) (ws_next w) (ws_cancelling w) sig).
Proof.
  intros [Hst Hinj Hh Hr Hl Hm Hb] Hf Hsig Hp. split; simpl; [|done| |done| |done|].
  - intros id j Hj. rewrite lookup_alter_is_Some. eauto.
  - intros j. rewrite lookup_alter_is_Some. apply Hh.
  - intros n r Hn Hlive. destruct (Hl n r Hn Hlive) as (k & Hk & Hc & Hbusy).
    destruct (heap_alter f i _ _ _ Hk) as (k' & Hk' & [->|[_ ->]]); [by exists k|].
    exists (f k). destruct (Hf k) as [-> ->]. done.
  - intros n r k' Hn Hph Hk' Hpaused. destruct (heap_alter_inv _ _ _ _ _ Hk') as (k & Hk & ->).
    destruct (decide (i = rn_worker r)) as [->|Hne].
    + destruct (Hp k Hpaused) as [?|[?|(Hpk & Htok & Hnot)]]; [by right|by left|].
      destruct (Hb n r k Hn Hph Hk Hpk) as [?|?]; [left; auto|done].
    + destruct (Hb n r k Hn Hph Hk Hpaused) as [?|Hs]; [by left|].
      destruct (Hsig _ Hs) as [?|[? _]]; [by right|congruence].
Qed.

(** A live walk moves to another phase. *)
Lemma ok_phase w n r p :
  workers_ok w -> ws_runs w !! n = Some r -> live r ->
  (p = PhBlocked -> wk_paused (worker_of r w) = true) ->
  workers_ok (with_runs <[n := set_phase p r]> w).
Proof.
  intros [Hst Hinj Hh Hr Hl Hm Hb] Hn Hlive Hp. split; simpl; [done|done|done| | | |].
  - intros m. rewrite lookup_insert. case_decide; [subst m; intros _; apply Hr; eauto|apply Hr].
  - intros m r'. rewrite lookup_insert. case_decide; [subst m; intros [= <-] _; by apply (Hl n r)|apply Hl].
  - intros m r'. rewrite lookup_insert. case_decide; [subst m; intros [= <-] _; by apply (Hm n r)|apply Hm].
  - intros m r' k. rewrite lookup_insert. case_decide; [subst m; intros [= <-]|apply Hb]. simpl.
    intros Hph Hk Hpaused. specialize (Hp Hph). unfold worker_of in Hp. rewrite Hk in Hp. simpl in Hp. congruence.
Qed.

Lemma worker_of_eq w r k : ws_heap w !! rn_worker r = Some k -> worker_of r w = k.
Proof. intros Hk. unfold worker_of. by rewrite Hk. Qed.

Lemma ok_launch w id i k :
  workers_ok w -> ws_state w !! id = Some i -> ws_heap w !! i = Some k -> busy k = false ->
  workers_ok (launch id i w).
Proof.
  intros [Hst Hinj Hh Hr Hl Hm Hb] Hid Hi Hidle.
  assert (forall n r, ws_runs w !! n = Some r -> live r -> rn_worker r <> i) as Hnot.
  { intros n r Hn Hlive E. destruct (Hl n r Hn Hlive) as (k' & Hk' & _ & ?). congruence. }
  assert (ws_runs w !! ws_next w = None) as Hfresh.
  { apply eq_None_not_Some. intros ?%Hr. lia. }
  unfold launch. split; simpl; [|done| | | | |].
  - intros id' j Hj. rewrite lookup_alter_is_Some. eauto.
  - intros j. rewrite lookup_alter_is_Some. intros ?%Hh. lia.
  - intros n. rewrite lookup_insert. case_decide; [lia|]. intros ?%Hr. lia.
  - intros n r. rewrite lookup_insert. case_decide as E.
    + subst n. intros [= <-] _. simpl. exists (launched (ws_next w) k).
      rewrite lookup_alter_eq, Hi. done.
    + intros Hn Hlive. rewrite lookup_alter_ne by (apply not_eq_sym; eauto). eauto.
  - intros n r. rewrite lookup_insert. case_decide as E; [|eauto]. intros [= <-] _. by left.
  - intros n r k'. rewrite lookup_insert. case_decide as E; [by intros [= <-]|]. intros Hn Hph.
    rewrite lookup_alter_ne; [by eauto|]. apply not_eq_sym, (Hnot n); [done|]. unfold live. by rewrite Hph.
Qed.

Lemma ok_allocate w id k :
  workers_ok w -> ws_state w !! id = None -> workers_ok (allocate id k w).
Proof.
  intros [Hst Hinj Hh Hr Hl Hm Hb] Hid. unfold allocate.
  assert (ws_heap w !! ws_next w = None) as Hfresh by (apply eq_None_not_Some; intros ?%Hh; lia).
  assert (forall n r, ws_runs w !! n = Some r -> live r -> rn_worker r <> ws_next w) as Hnot.
  { intros n r Hn Hlive E. destruct (Hl n r Hn Hlive) as (k' & Hk' & _). congruence. }
  split; simpl.
  - intros id' i. rewrite lookup_insert. case_decide.
    + intros [= <-]. rewrite lookup_insert_eq. eauto.
    + intros Hi. rewrite lookup_insert_is_Some'. eauto.
  - intros id1 id2 i. rewrite !lookup_insert. repeat case_decide; [congruence| | |apply Hinj].
    + intros [= <-] Hi. destruct (Hst _ _ Hi). congruence.
    + intros Hi [= <-]. destruct (Hst _ _ Hi). congruence.
  - intros i. rewrite lookup_insert_is_Some'. intros [<-|?%Hh]; lia.
  - intros n ?%Hr. lia.
  - intros n r Hn Hlive. rewrite lookup_insert_ne by (apply not_eq_sym; eauto). eauto.
  - intros n r Hn Hlive. destruct (Hm n r Hn Hlive) as [Hs|?]; [|by right]. left.
    rewrite lookup_insert_ne by congruence. done.
  - intros n r k' Hn Hph. rewrite lookup_insert_ne; [by eauto|]. apply not_eq_sym, (Hnot n); [done|].
    unfold live. by rewrite Hph.
Qed.

Lemma ok_stop w id : workers_ok w -> workers_ok (Workers_Stop_unmap id w).
Proof.
  intros [Hst Hinj Hh Hr Hl Hm Hb]. unfold Workers_Stop_unmap.
  destruct (ws_state w !! id) as [i|] eqn:Hid; [|done]. split; simpl; [| |done|done|done| |done].
  - intros id' j. rewrite lookup_delete_Some. intros [_ ?]. eauto.
  - intros id1 id2 j. rewrite !lookup_delete_Some. intros [_ ?] [_ ?]. eauto.
  - intros n r Hn Hlive. destruct (Hm n r Hn Hlive) as [Hs|[Hc|Hc]]; [|by auto|].
    + destruct (decide (id = rn_account r)) as [->|Hne]; [|left; by rewrite lookup_delete_ne].
      destruct (Hl n r Hn Hlive) as (k & Hk & Hcan & _). rewrite Hs in Hid. injection Hid as <-.
      rewrite Hk. simpl. rewrite Hcan. set_solver.
    + right. right. destruct (ws_heap w !! i ≫= wk_cancel); set_solver.
Qed.

Lemma ok_cancel w n0 : workers_ok w -> workers_ok (Workers_cancel n0 w).
Proof.
  intros [Hst Hinj Hh Hr Hl Hm Hb]. unfold Workers_cancel. split; simpl; [done|done|done| | | |].
  - intros n. rewrite lookup_alter_is_Some. apply Hr.
  - intros n r. rewrite lookup_alter. case_decide; [subst n0|apply Hl].
    destruct (ws_runs w !! n) as [r0|] eqn:E; [|done]. intros [= <-]. by apply (Hl n r0).
  - intros n r. rewrite lookup_alter. case_decide.
    + destruct (ws_runs w !! n0) as [r0|]; [|done]. intros [= <-]. auto.
    + intros Hn Hlive. destruct (Hm n r Hn Hlive) as [?|[?|?]]; [by auto..|]. set_solver.
  - intros n r k. rewrite lookup_alter. case_decide; [subst n0|apply Hb].
    destruct (ws_runs w !! n) as [r0|] eqn:E; [|done]. intros [= <-]. by apply (Hb n r0).
Qed.

(** The walk marks its worker done as its last act. *)
Lemma ok_end w n r :
  workers_ok w -> ws_runs w !! n = Some r -> rn_phase r = PhReturning -> workers_ok (run_end n r w).
Proof.
  intros Hok Hn Hph. assert (live r) as Hlive by (unfold live; by rewrite Hph).
  assert (forall m r', ws_runs w !! m = Some r' -> live r' -> m <> n -> rn_worker r' <> rn_worker r) as Hne.
  { intros m r' Hm Hl' Hneq E. by eapply Hneq, live_unique. }
  destruct Hok as [Hst Hinj Hh Hr Hl Hm Hb]. unfold run_end, with_runs, with_heap. split; simpl; [|done| | | | |].
  - intros id j Hj. rewrite lookup_alter_is_Some. eauto.
  - intros j. rewrite lookup_alter_is_Some. apply Hh.
  - intros m. rewrite lookup_insert. case_decide; [subst m; intros _; apply Hr; eauto|apply Hr].
  - intros m r'. rewrite lookup_insert. case_decide; [by intros [= <-]|]. intros Hm' Hl'.
    rewrite lookup_alter_ne; [by eauto|]. apply not_eq_sym, (Hne m); auto.
  - intros m r'. rewrite lookup_insert. case_decide; [by intros [= <-]|]. eauto.
  - intros m r' k. rewrite lookup_insert. case_decide; [by intros [= <-]|]. intros Hm' Hph'.
    rewrite lookup_alter_ne; [by eauto|]. apply not_eq_sym, (Hne m); [done| |auto]. unfold live. by rewrite Hph'.
Qed.

Lemma workers_step_ok w w' : WkStep w w' -> workers_ok w -> workers_ok w'.
Proof.
  intros Hst Hok. destruct Hst as [id|id|r0|id|id|i|n r Hn Hph|n r Hn Hph Htok|n r Hn Hph Hc|n r err Hn Hph|n r Hn Hph].
  - unfold Workers_Start. destruct (ws_state w !! id) as [i|] eqn:Hid.
    + destruct (ws_heap w !! i) as [k|] eqn:Hi; [|done]. destruct (busy k) eqn:Hb; [done|]. by eapply ok_launch.
    + eapply (ok_launch _ id _ newWorker); [by apply ok_allocate| | |done]; simpl; by rewrite lookup_insert_eq.
  - by apply ok_stop.
  - by apply ok_cancel.
  - unfold Workers_Pause. destruct (ws_state w !! id) as [i|] eqn:Hid; [|by apply ok_allocate].
    apply ok_heap; [done|done|by left|done].
  - unfold Workers_Resume_clear. destruct (ws_state w !! id) as [i|] eqn:Hid; [|done].
    apply ok_heap; [done|done|set_solver|set_solver].
  - unfold Workers_signal. apply ok_heap; [done|done| |].
    + intros j Hj. destruct (decide (j = i)) as [-> |]; [by right|left; set_solver].
    + intros k _. right. by left.
  - apply ok_phase; [done|done|unfold live; by rewrite Hph|]. by destruct (wk_paused (worker_of r w)).
  - (* the only blocked walk of this worker is the one that takes the token *)
    assert (live r) as Hlive by (unfold live; by rewrite Hph).
    pose proof (live_unique w) as Huniq. destruct Hok as [Hst Hinj Hh Hr Hl Hm Hb].
    unfold run_wake, with_runs, with_heap. split; simpl; [|done| | | | |].
    + intros id j Hj. rewrite lookup_alter_is_Some. eauto.
    + intros j. rewrite lookup_alter_is_Some. apply Hh.
    + intros m. rewrite lookup_insert. case_decide; [subst m; intros _; apply Hr; eauto|apply Hr].
    + intros m r' Hm' Hl'. assert (exists k, ws_heap w !! rn_worker r' = Some k /\ wk_cancel k = Some m /\ busy k = true) as (k & Hk & Hck & Hbk).
      { revert Hm'. rewrite lookup_insert. case_decide; [subst m; intros [= <-]; by apply (Hl n r)|intros; eauto]. }
      destruct (heap_alter (set_token false) (rn_worker r) _ _ _ Hk) as (k' & Hk' & [->|[_ ->]]); eauto.
    + intros m r'. rewrite lookup_insert. case_decide; [subst m; intros [= <-] _; by apply (Hm n r)|apply Hm].
    + intros m r' k. rewrite lookup_insert. case_decide as E; [by intros [= <-]|]. intros Hm' Hph'.
      rewrite lookup_alter_ne; [by eauto|]. intros Heq. apply E.
      by apply (Huniq n m r r'); [split| | | |unfold live; rewrite Hph'|].
  - apply ok_phase; [done|done|unfold live; by rewrite Hph|done].
  - assert (live r) as Hlive by (unfold live; by rewrite Hph). unfold run_return. destruct err as [e|]; [|by apply ok_phase].
    apply ok_phase; [|done|done|done]. apply ok_heap; [done|done|by left|]. intros k Hp.
    destruct (decide (rn_worker r ∈ ws_signalling w)); [by left|]. right. right. auto.
  - by apply ok_end.
Qed.

Lemma workers_reach_ok w : rtc WkStep NewWorkers w -> workers_ok w.
Proof.
  assert (forall w0 w1, rtc WkStep w0 w1 -> workers_ok w0 -> workers_ok w1) as H.
  { induction 1; eauto using workers_step_ok. }
  intros Hw. by eapply H, NewWorkers_ok.
Qed.

(** C38: an account has one backfill walk.  Whatever interleaving of starts, stops, pauses,
    resumes and walks led here, two walks of an account that have not ended are one and
    the same, unless a stop has cancelled one of them or is about to. *)
Theorem one_walk_per_account w n1 n2 r1 r2 :
  rtc WkStep NewWorkers w ->
  ws_runs w !! n1 = Some r1 -> ws_runs w !! n2 = Some r2 -> rn_account r1 = rn_account r2 ->
  live r1 -> live r2 -> n1 <> n2 ->
  exists n r, (n = n1 /\ r = r1 \/ n = n2 /\ r = r2) /\ (rn_cancelled r = true \/ n ∈ ws_cancelling w).
Proof.
  intros Hw H1 H2 Hacc L1 L2 Hne. pose proof (workers_reach_ok w Hw) as Hok.
  destruct (wo_mapped w Hok n1 r1 H1 L1) as [M1|C1]; [|by exists n1, r1; auto].
  destruct (wo_mapped w Hok n2 r2 H2 L2) as [M2|C2]; [|by exists n2, r2; auto].
  destruct Hne. apply (live_unique w n1 n2 r1 r2); try done. congruence.
Qed.

(** C39: a resume is never lost.  In every reachable state in which no resume is between
    its two halves, a walk blocked on a pause that has been lifted finds a token in its
    channel: two steps of its own take it into the walk. *)
Theorem resume_wakes w n r k :
  rtc WkStep NewWorkers w -> ws_signalling w = ∅ ->
  ws_runs w !! n = Some r -> rn_phase r = PhBlocked ->
  ws_heap w !! rn_worker r = Some k -> wk_paused k = false ->
  exists w1 w2 r2, WkStep w w1 /\ WkStep w1 w2 /\ ws_runs w2 !! n = Some r2 /\ rn_phase r2 = PhWalking.
Proof.
  intros Hw Hsig Hn Hph Hk Hp.
  destruct (wo_blocked w (workers_reach_ok w Hw) n r k Hn Hph Hk Hp) as [Htok|Hin]; [|by rewrite Hsig in Hin].
  set (r1 := set_phase PhChecking r). set (w1 := run_wake n r w).
  assert (ws_heap w1 !! rn_worker r1 = Some (set_token false k)) as Hk1.
  { simpl. rewrite lookup_alter_eq, Hk. done. }
  assert (ws_runs w1 !! n = Some r1) as Hn1 by (simpl; by rewrite lookup_insert_eq).
  exists w1, (run_check n r1 w1), (set_phase PhWalking r1). split_and!.
  - apply wk_wake; [done|done|]. by rewrite (worker_of_eq w r k).
  - by apply wk_check.
  - unfold run_check. rewrite (worker_of_eq w1 r1 _ Hk1). simpl. rewrite Hp. by rewrite lookup_insert_eq.
  - done.
Qed.

(** A pause that arrives while the walk is under way holds nothing: the walk goes on and
    can end, with the worker still paused. *)
Lemma pause_misses_a_walk w id i n r :
  ws_state w !! id = Some i -> ws_runs w !! n = Some r -> rn_phase r = PhWalking ->
  let w1 := Workers_Pause id w in
  WkStep w w1 /\ ws_runs w1 !! n = Some r /\ WkStep w1 (run_return n r None w1).
Proof.
  intros Hid Hn Hph w1.
  assert (ws_runs w1 !! n = Some r) as Hn1 by (unfold w1, Workers_Pause; by rewrite Hid).
  split_and!; [apply wk_pause|done|by apply wk_walked].
Qed.

(** ** What health says of a walk *)

Definition BackfillComplete : string := "complete".
Definition BackfillRunning : string := "running".
Definition BackfillPaused : string := "paused".
Definition BackfillPending : string := "pending".
Definition BackfillNotStarted : string := "not_started".

Definition BackfillStates : list string :=
  [BackfillComplete; BackfillRunning; BackfillPaused; BackfillPending; BackfillNotStarted].

Record BackfillHealth := mkBackfillHealth {
  bh_State : string;
  bh_ConversationsDone : Z;
  bh_ConversationsTotal : Z;
  bh_CompletedAt : option string;
}.

Definition progress_state (w : Workers) (id : string) (st : AccountState) : string :=
  let idle := if Schedulable st then BackfillPending else BackfillNotStarted in
  match ws_state w !! id ≫= fun i => ws_heap w !! i with
  | Some k =>
      if wk_started k
      then if wk_done k then BackfillComplete else if wk_paused k then BackfillPaused else BackfillRunning
      else idle
  | None => idle
  end.

(** [counts] are the rows of [backfill_state]: [None] when they cannot be read. *)
Definition ProgressFor (w : Workers) (counts : option (Z * Z)) (id : string) (st : AccountState) : BackfillHealth :=
  match counts with
  | Some (done_, total) => mkBackfillHealth (progress_state w id st) done_ total None
  | None => mkBackfillHealth (progress_state w id st) 0 0 None
  end.

(** A walk that failed is reported complete. *)
Example failed_walk_is_complete :
  let e := EOther "listing inbox conversations" in
  let w1 := Workers_Start "acct_1" NewWorkers in
  let r := mkRun "acct_1" 0 false PhChecking in
  let w2 := run_check 1 r w1 in
  let w3 := run_return 1 (set_phase PhWalking r) (Some e) w2 in
  let w4 := run_end 1 (set_phase PhReturning r) w3 in
  WkStep NewWorkers w1 /\ WkStep w1 w2 /\ WkStep w2 w3 /\ WkStep w3 w4 /\
  ProgressFor w4 (Some (0, 0)%Z) "acct_1" StateConnected = mkBackfillHealth BackfillComplete 0 0 None.
Proof.
  split_and!.
  - apply wk_start.
  - by apply wk_check.
  - by apply wk_walked.
  - by apply wk_end.
  - vm_compute. reflexivity.
Qed.

(** *** Concrete histories *)

(** Start, stop, start: the first walk is still there and is about to be cancelled. *)
Lemma one_walk_per_account_witness :
  let w := Workers_Start "acct_1" (Workers_Stop_unmap "acct_1" (Workers_Start "acct_1" NewWorkers)) in
  exists n r, (n = 1%nat /\ r = mkRun "acct_1" 0 false PhChecking \/ n = 3%nat /\ r = mkRun "acct_1" 2 false PhChecking) /\
    (rn_cancelled r = true \/ n ∈ ws_cancelling w).
Proof.
  intros w. apply (one_walk_per_account w 1 3 (mkRun "acct_1" 0 false PhChecking) (mkRun "acct_1" 2 false PhChecking)).
  - eapply rtc_l; [apply (wk_start _ "acct_1")|]. eapply rtc_l; [apply (wk_stop _ "acct_1")|].
    apply rtc_once, wk_start.
  - by vm_compute.
  - by vm_compute.
  - reflexivity.
  - discriminate.
  - discriminate.
  - discriminate.
Defined.

(** The pause comes first, the walk blocks, the resume lifts it. *)
Lemma resume_wakes_witness :
  let w0 := Workers_Start "acct_1" (Workers_Pause "acct_1" NewWorkers) in
  let r := mkRun "acct_1" 0 false PhBlocked in
  let w := Workers_signal 0 (Workers_Resume_clear "acct_1" (run_check 1 (set_phase PhChecking r) w0)) in
  exists w1 w2 r2, WkStep w w1 /\ WkStep w1 w2 /\ ws_runs w2 !! 1%nat = Some r2 /\ rn_phase r2 = PhWalking.
Proof.
  intros w0 r w. apply (resume_wakes w 1 r (mkWorker (Some 1%nat) false true true false None)).
  - eapply rtc_l; [apply (wk_pause _ "acct_1")|]. eapply rtc_l; [apply (wk_start _ "acct_1")|].
    eapply rtc_l; [by apply (wk_check _ 1 (set_phase PhChecking r))|].
    eapply rtc_l; [apply (wk_resume _ "acct_1")|]. apply rtc_once, wk_do_signal.
  - by vm_compute.
  - by vm_compute.
  - reflexivity.
  - by vm_compute.
  - reflexivity.
Defined.
