(* ===== verification/Feed.v ===== *)
(** * The state-change feed (internal/accounts/state.go)

    A publication copies the matching subscriptions under the feed's mutex and sends to
    each after it released the mutex; [Close] unregisters under the mutex and closes the
    channel after.  A send never blocks: a full buffer counts a dropped change.  A
    subscription is found by its id, also after it was unregistered, as the pointer a
    publication holds. *)

From S2P Require Import Prelude Limits Accounts Prog.

Definition SubscriberBuffer : nat := 64.

Record StateChange := mkStateChange {
  sc_AccountID : string;
  sc_From : option AccountState;   (** the empty state is [None] *)
  sc_To : AccountState;
  sc_Reason : string;
  sc_At : Z;
}.

#[export] Instance StateChange_eq_dec : EqDecision StateChange.
Proof. solve_decision. Defined.

(** [time.Time.Truncate(time.Millisecond)]. *)
Definition truncate_ms (t : Z) : Z := (t / Millisecond * Millisecond)%Z.

(** [MarshalJSON]: what is encoded, with [instant] the rendering of a time. *)
Record Frame := mkFrame {
  fr_account_id : string;
  fr_from : option string;
  fr_to : string;
  fr_state_reason : option string;
  fr_at : string;
}.

Definition MarshalJSON (instant : Z -> string) (c : StateChange) : Frame :=
  mkFrame (sc_AccountID c) (AccountState_string <$> sc_From c) (AccountState_string (sc_To c))
    (nullString (sc_Reason c)) (instant (sc_At c)).

Record Subscription := mkSubscription {
  sb_accountID : string;
  sb_ch : list StateChange;       (** the buffer of the channel, oldest first *)
  sb_closed : bool;               (** the channel is closed *)
  sb_once : bool;                 (** [closeOnce] has fired *)
  sb_dropped : nat;
}.

Record Feed := mkFeed {
  fd_heap : gmap nat Subscription;
  fd_subs : gset nat;
  fd_next : nat;
  fd_panic : bool;                (** a send on a closed channel ended the process *)
}.

Definition newFeed : Feed := mkFeed ∅ ∅ 0 false.

Definition with_subs (f : gmap nat Subscription -> gmap nat Subscription) (d : Feed) : Feed :=
  mkFeed (f (fd_heap d)) (fd_subs d) (fd_next d) (fd_panic d).

Definition subscribe (accountID : string) (d : Feed) : Feed * nat :=
  let n := S (fd_next d) in
  (mkFeed (<[n := mkSubscription accountID [] false false 0]> (fd_heap d)) ({[n]} ∪ fd_subs d) n (fd_panic d), n).

Definition follows (ev : StateChange) (b : Subscription) : bool :=
  bool_decide (sb_accountID b = ""%string) || bool_decide (sb_accountID b = sc_AccountID ev).

(** The subscriptions a publication sends to.  Go's map order is any order; sends to
    different subscriptions commute. *)
Definition matching (ev : StateChange) (d : Feed) : list nat :=
  filter (fun n => match fd_heap d !! n with Some b => follows ev b | None => false end = true) (elements (fd_subs d)).

Definition deliver (ev : StateChange) (b : Subscription) : Subscription :=
  if decide (length (sb_ch b) < SubscriberBuffer)%nat
  then mkSubscription (sb_accountID b) (sb_ch b ++ [ev]) (sb_closed b) (sb_once b) (sb_dropped b)
  else mkSubscription (sb_accountID b) (sb_ch b) (sb_closed b) (sb_once b) (S (sb_dropped b)).

(** [select { case s.ch <- ev: default: }]: a closed channel panics before anything. *)
Definition send (ev : StateChange) (n : nat) (d : Feed) : Feed :=
  match fd_heap d !! n with
  | None => d
  | Some b =>
      if sb_closed b then mkFeed (fd_heap d) (fd_subs d) (fd_next d) true
      else with_subs <[n := deliver ev b]> d
  end.

Fixpoint send_all (ev : StateChange) (l : list nat) : Prog Feed () :=
  match l with
  | [] => mret ()
  | n :: l' => modify (send ev n) ≫= fun _ => send_all ev l'
  end.

Definition publish (ev : StateChange) : Prog Feed () :=
  look (matching ev) ≫= send_all ev.

(** [Close], under [closeOnce]. *)
Definition close_once (n : nat) (d : Feed) : Feed * bool :=
  match fd_heap d !! n with
  | Some b =>
      if sb_once b then (d, false)
      else (with_subs <[n := mkSubscription (sb_accountID b) (sb_ch b) (sb_closed b) true (sb_dropped b)]> d, true)
  | None => (d, false)
  end.

Definition unregister (n : nat) (d : Feed) : Feed :=
  mkFeed (fd_heap d) (fd_subs d ∖ {[n]}) (fd_next d) (fd_panic d).

Definition close_ch (b : Subscription) : Subscription :=
  mkSubscription (sb_accountID b) (sb_ch b) true (sb_once b) (sb_dropped b).

Definition Close (n : nat) : Prog Feed () :=
  atomic (close_once n) ≫= fun first =>
  if first : bool then modify (unregister n) ≫= fun _ => modify (with_subs (alter close_ch n)) else mret ().

(** A reader takes the oldest change. *)
Definition receive (n : nat) (d : Feed) : Feed * option StateChange :=
  match fd_heap d !! n with
  | Some (mkSubscription id (ev :: q) c o dr) => (with_subs <[n := mkSubscription id q c o dr]> d, Some ev)
  | _ => (d, None)
  end.

(** ** What a publication does *)

Definition feed_ok (d : Feed) : Prop :=
  forall n b, fd_heap d !! n = Some b ->
    (length (sb_ch b) <= SubscriberBuffer)%nat /\ (n ∈ fd_subs d -> sb_closed b = false).

Lemma send_lookup ev n d m :
  fd_heap (send ev n d) !! m =
    (fun b => if decide (m = n) then if sb_closed b then b else deliver ev b else b) <$> fd_heap d !! m.
Proof.
  unfold send. destruct (decide (m = n)) as [-> |Hne].
  - destruct (fd_heap d !! n) as [b|] eqn:E; simpl; [|by rewrite E].
    destruct (sb_closed b) eqn:Hc; simpl; [by rewrite E|by rewrite lookup_insert_eq].
  - destruct (fd_heap d !! n) as [b|] eqn:E; [destruct (sb_closed b)|]; simpl; rewrite ?lookup_insert_ne by done;
      by destruct (fd_heap d !! m).
Qed.

Lemma send_fields ev n d :
  fd_subs (send ev n d) = fd_subs d /\ fd_next (send ev n d) = fd_next d /\
  fd_panic (send ev n d) = fd_panic d || match fd_heap d !! n with Some b => sb_closed b | None => false end.
Proof.
  unfold send. destruct (fd_heap d !! n) as [b|]; [destruct (sb_closed b)|]; simpl; by rewrite ?orb_false_r, ?orb_true_r.
Qed.

Lemma send_all_run ev l d :
  NoDup l -> (forall n b, n ∈ l -> fd_heap d !! n = Some b -> sb_closed b = false) ->
  let d' := (run (send_all ev l) d).1 in
  fd_subs d' = fd_subs d /\ fd_next d' = fd_next d /\ fd_panic d' = fd_panic d /\
  forall m, fd_heap d' !! m = (fun b => if decide (m ∈ l) then deliver ev b else b) <$> fd_heap d !! m.
Proof.
  revert d. induction l as [|n l IH]; intros d Hnd Hopen; simpl.
  { split_and!; try done. intros m. by destruct (fd_heap d !! m). }
  apply NoDup_cons in Hnd as [Hn Hnd]. destruct (send_fields ev n d) as (Hs & Hx & Hp).
  destruct (IH (send ev n d) Hnd) as (-> & -> & -> & Hl).
  { intros m b Hm. rewrite send_lookup. destruct (decide (m = n)) as [-> |]; [done|].
    destruct (fd_heap d !! m) as [b0|] eqn:E; [|done]. simpl. intros [= <-]. apply (Hopen m); [apply elem_of_cons; auto|done]. }
  split_and!; [done|done| |].
  - rewrite Hp. destruct (fd_heap d !! n) as [b|] eqn:E; [|by rewrite orb_false_r].
    rewrite (Hopen n b), orb_false_r; [done|apply elem_of_cons; auto|done].
  - intros m. rewrite Hl, send_lookup, <- option_fmap_compose. destruct (fd_heap d !! m) as [b|] eqn:E; [|done].
    simpl. f_equal. destruct (decide (m = n)) as [-> |Hne].
    + rewrite decide_False by done. rewrite decide_True by (apply elem_of_cons; auto).
      by rewrite (Hopen n b) by (done || (apply elem_of_cons; auto)).
    + destruct (decide (m ∈ l)); [rewrite decide_True by (apply elem_of_cons; auto)|rewrite decide_False by (rewrite elem_of_cons; tauto)]; done.
Qed.

(** A publication with nothing in between.  It never blocks and never panics; every
    registered subscription of the account, or of all accounts, gets the change at the
    end of its buffer or counts it as dropped, the latter exactly when 64 changes are
    waiting; every other subscription is left alone. *)
Theorem publish_reaches ev d :
  feed_ok d ->
  let d' := (run (publish ev) d).1 in
  feed_ok d' /\ fd_panic d' = fd_panic d /\ fd_subs d' = fd_subs d /\
  forall n b, fd_heap d !! n = Some b ->
    exists b', fd_heap d' !! n = Some b' /\
      if decide (n ∈ fd_subs d) then
        if follows ev b then
          if decide (length (sb_ch b) < SubscriberBuffer)%nat
          then sb_ch b' = sb_ch b ++ [ev] /\ sb_dropped b' = sb_dropped b
          else sb_ch b' = sb_ch b /\ sb_dropped b' = S (sb_dropped b)
        else b' = b
      else b' = b.
Proof.
  intros Hok d'. set (l := matching ev d).
  assert (forall n, n ∈ l <-> n ∈ fd_subs d /\ exists b, fd_heap d !! n = Some b /\ follows ev b = true) as Hl.
  { intros n. unfold l, matching. rewrite list_elem_of_filter, elem_of_elements.
    destruct (fd_heap d !! n) as [b|]; naive_solver. }
  destruct (send_all_run ev l d) as (Hs & _ & Hp & Hh).
  { apply NoDup_filter, NoDup_elements. }
  { intros n b [Hn _]%Hl Hb. by apply (Hok n b Hb). }
  change (run (send_all ev l) d).1 with d' in Hs, Hp, Hh. split_and!; [|done|done|].
  - intros n b'. rewrite Hh, Hs. destruct (fd_heap d !! n) as [b|] eqn:E; [|done]. intros [= <-].
    destruct (Hok n b E) as [Hlen Hop]. destruct (decide (n ∈ l)); [|done]. unfold deliver.
    destruct (decide _); simpl; [rewrite length_app; simpl; split; [lia|done]|done].
  - intros n b E. exists (if decide (n ∈ l) then deliver ev b else b). rewrite Hh, E. split; [done|].
    destruct (decide (n ∈ fd_subs d)) as [Hn|Hn].
    + destruct (follows ev b) eqn:Hf.
      * assert (n ∈ l) as Hnl by (apply Hl; eauto). rewrite (decide_True (P := n ∈ l)) by done. unfold deliver. by destruct (decide (length (sb_ch b) < SubscriberBuffer)%nat).
      * rewrite (decide_False (P := n ∈ l)); [done|]. rewrite Hl. intros (_ & b0 & ? & ?). congruence.
    + rewrite (decide_False (P := n ∈ l)); [done|]. rewrite Hl. tauto.
Qed.

(** ** A subscriber that leaves during a publication

    The publication has copied the subscription, the subscriber unregisters and closes
    its channel, and the send that follows is a send on a closed channel. *)

Definition demo_change : StateChange := mkStateChange "acct_1" (Some StateConnected) StateDegraded "listen_error" 0.
Definition demo_feed : Feed := (subscribe "acct_1" newFeed).1.

Example close_during_publish_panics :
  exists pool d, rtc (PoolStep (fun _ => False) (fun _ _ => False)) ([publish demo_change; Close 1], demo_feed) (pool, d) /\
    fd_panic d = true.
Proof.
  eexists _, _. split.
  - eapply rtc_l; [by eapply (pool_act _ _ 0)|]. eapply rtc_l; [by eapply (pool_act _ _ 1)|].
    eapply rtc_l; [by eapply (pool_act _ _ 1)|]. eapply rtc_l; [by eapply (pool_act _ _ 1)|].
    apply rtc_once. by eapply (pool_act _ _ 0).
  - vm_compute. reflexivity.
Qed.

Lemma publish_reaches_witness :
  let d' := (run (publish demo_change) demo_feed).1 in
  feed_ok d' /\ fd_panic d' = false /\ fd_subs d' = {[1%nat]} /\
  forall n b, fd_heap demo_feed !! n = Some b ->
    exists b', fd_heap d' !! n = Some b' /\
      if decide (n ∈ fd_subs demo_feed) then
        if follows demo_change b then
          if decide (length (sb_ch b) < SubscriberBuffer)%nat
          then sb_ch b' = sb_ch b ++ [demo_change] /\ sb_dropped b' = sb_dropped b
          else sb_ch b' = sb_ch b /\ sb_dropped b' = S (sb_dropped b)
        else b' = b
      else b' = b.
Proof.
  apply (publish_reaches demo_change demo_feed). intros n b Hn.
  assert (b = mkSubscription "acct_1" [] false false 0) as ->.
  { unfold demo_feed in Hn. simpl in Hn. apply lookup_insert_Some in Hn as [[_ Hb]|[_ Hb]]; [by symmetry|done]. }
  split; [vm_compute; lia|done].
Defined.
