(* ===== verification/Supervisor.v ===== *)
(** * The account supervisor (internal/accounts/supervisor.go, lifecycle.go)

    [Sup] is the supervisor with the accounts table, the session files, the workers and
    the feed; each method is a program of atomic actions (Prog.v): a section under the
    supervisor's mutex, a statement of the database, a call of the feed or the workers.
    What the phone, the capture and the disk answer is an argument.  The theorems about
    all interleavings are in the first half (slots, isolation, the table of accounts);
    the second half is about a method that nothing interrupts. *)

From S2P Require Import Prelude Ids Errors Limits Prog Accounts Workers Feed.

Definition DefaultMaxConcurrent : Z := 8.
Definition DefaultPairingTimeout : Z := 5 * Minute.
Definition DefaultSweepInterval : Z := 15 * Minute.

(** [PairingTimeoutFromEnv]: [parsed] is what [time.ParseDuration] makes of the value. *)
Definition PairingTimeoutFromEnv (raw : string) (parsed : option Z) : Z :=
  if bool_decide (raw = ""%string) then DefaultPairingTimeout
  else match parsed with
       | Some d => if (d <=? 0)%Z then DefaultPairingTimeout else d
       | None => DefaultPairingTimeout
       end.

(** [strings.ToLower], over the tables of the [unicode] package. *)
Class Lower := { ToLower : string -> string }.

(** [store.AccountID]. *)
Definition AccountID `{UUID, Lower} (address : string) : string :=
  PrefixAccount +:+ v5 ["account"; ToLower address].

(** [plausibleAddress]: an at sign that is neither first nor last, and no white space. *)
Definition is_blank (c : Ascii.ascii) : bool :=
  existsb (fun n => bool_decide (c = Ascii.ascii_of_nat n)) [32; 9; 13; 10]%nat.

Fixpoint ContainsBlank (s : string) : bool :=
  match s with
  | EmptyString => false
  | String c s' => is_blank c || ContainsBlank s'
  end.

Definition PlausibleAccountAddress (s : string) : bool :=
  match String.index 0 "@" s with
  | None => false
  | Some at_ =>
      negb (bool_decide (at_ = 0%nat)) && negb (bool_decide (S at_ = String.length s)) && negb (ContainsBlank s)
  end.

(** A lower-casing that knows the ASCII letters only. *)
Fixpoint lower_ascii (s : string) : string :=
  match s with
  | EmptyString => EmptyString
  | String c s' =>
      let n := Ascii.nat_of_ascii c in
      String (if (65 <=? n)%nat && (n <=? 90)%nat then Ascii.ascii_of_nat (n + 32) else c) (lower_ascii s')
  end.

#[export] Instance ascii_lower : Lower := {| ToLower := lower_ascii |}.

Definition AccountAddressFromPairing `{Lower} (rawSourceID : string) : option string :=
  let address := ToLower rawSourceID in
  if PlausibleAccountAddress address then Some address else None.

(** ** State *)

Record GoogleHealth := mkGoogleHealth {
  gh_ConfigVersionLive : ConfigVersion;   (** served as its [String] *)
  gh_ConfigVersionStale : bool;
  gh_IsDefaultSMSApp : bool;
}.

(** An [Account] of the supervisor: its goroutine has its [done] channel, and the cached
    values of health. *)
Record Managed := mkManaged {
  ma_running : bool;
  ma_loop : bool;
  ma_google : option GoogleHealth;
  ma_phoneResponding : bool;
  ma_sweeps : Z;
  ma_backfillPaused : bool;
}.

Record Sup := mkSup {
  su_clock : Z;
  su_rows : accounts_table;
  su_sessions : gset string;          (** the session files *)
  su_accounts : gmap string Managed;
  su_pairings : gset string;
  su_rebalancing : bool;
  su_max : Z;
  su_workers : Workers;
  su_feed : Feed;
  su_log : list StateChange;          (** every change published, oldest first *)
}.

Definition set_rows (t : accounts_table) (s : Sup) : Sup :=
  mkSup (su_clock s) t (su_sessions s) (su_accounts s) (su_pairings s) (su_rebalancing s) (su_max s)
    (su_workers s) (su_feed s) (su_log s).

Definition on_rows (f : Z -> accounts_table -> accounts_table) (s : Sup) : Sup :=
  set_rows (f (su_clock s) (su_rows s)) s.

Definition on_sessions (f : gset string -> gset string) (s : Sup) : Sup :=
  mkSup (su_clock s) (su_rows s) (f (su_sessions s)) (su_accounts s) (su_pairings s) (su_rebalancing s) (su_max s)
    (su_workers s) (su_feed s) (su_log s).

Definition on_accounts (f : gmap string Managed -> gmap string Managed) (s : Sup) : Sup :=
  mkSup (su_clock s) (su_rows s) (su_sessions s) (f (su_accounts s)) (su_pairings s) (su_rebalancing s) (su_max s)
    (su_workers s) (su_feed s) (su_log s).

Definition on_pairings (f : gset string -> gset string) (s : Sup) : Sup :=
  mkSup (su_clock s) (su_rows s) (su_sessions s) (su_accounts s) (f (su_pairings s)) (su_rebalancing s) (su_max s)
    (su_workers s) (su_feed s) (su_log s).

Definition set_rebalancing (b : bool) (s : Sup) : Sup :=
  mkSup (su_clock s) (su_rows s) (su_sessions s) (su_accounts s) (su_pairings s) b (su_max s)
    (su_workers s) (su_feed s) (su_log s).

Definition set_max (n : Z) (s : Sup) : Sup :=
  mkSup (su_clock s) (su_rows s) (su_sessions s) (su_accounts s) (su_pairings s) (su_rebalancing s) n
    (su_workers s) (su_feed s) (su_log s).

Definition set_workers (w : Workers) (s : Sup) : Sup :=
  mkSup (su_clock s) (su_rows s) (su_sessions s) (su_accounts s) (su_pairings s) (su_rebalancing s) (su_max s)
    w (su_feed s) (su_log s).

Definition set_feed (d : Feed) (s : Sup) : Sup :=
  mkSup (su_clock s) (su_rows s) (su_sessions s) (su_accounts s) (su_pairings s) (su_rebalancing s) (su_max s)
    (su_workers s) d (su_log s).

Definition log_change (ev : StateChange) (s : Sup) : Sup :=
  mkSup (su_clock s) (su_rows s) (su_sessions s) (su_accounts s) (su_pairings s) (su_rebalancing s) (su_max s)
    (su_workers s) (su_feed s) (su_log s ++ [ev]).

Definition set_clock (t : Z) (s : Sup) : Sup :=
  mkSup t (su_rows s) (su_sessions s) (su_accounts s) (su_pairings s) (su_rebalancing s) (su_max s)
    (su_workers s) (su_feed s) (su_log s).

Definition NewSup (now : Z) (rows : accounts_table) (sessions : gset string) : Sup :=
  mkSup now rows sessions ∅ ∅ false DefaultMaxConcurrent NewWorkers newFeed [].

Definition set_running (b : bool) (m : Managed) : Managed :=
  mkManaged b (ma_loop m) (ma_google m) (ma_phoneResponding m) (ma_sweeps m) (ma_backfillPaused m).
Definition set_loop (b : bool) (m : Managed) : Managed :=
  mkManaged (ma_running m) b (ma_google m) (ma_phoneResponding m) (ma_sweeps m) (ma_backfillPaused m).
Definition set_google (g : option GoogleHealth) (m : Managed) : Managed :=
  mkManaged (ma_running m) (ma_loop m) g (ma_phoneResponding m) (ma_sweeps m) (ma_backfillPaused m).
Definition set_phone (b : bool) (m : Managed) : Managed :=
  mkManaged (ma_running m) (ma_loop m) (ma_google m) b (ma_sweeps m) (ma_backfillPaused m).
Definition count_sweep (m : Managed) : Managed :=
  mkManaged (ma_running m) (ma_loop m) (ma_google m) (ma_phoneResponding m) (ma_sweeps m + 1) (ma_backfillPaused m).
Definition set_backfillPaused (b : bool) (m : Managed) : Managed :=
  mkManaged (ma_running m) (ma_loop m) (ma_google m) (ma_phoneResponding m) (ma_sweeps m) b.

Definition newManaged : Managed := mkManaged false false None true 0 false.

Definition on_account (id : string) (f : Managed -> Managed) (s : Sup) : Sup := on_accounts (alter f id) s.

Notation SP := (Prog Sup).

(** ** Transitions *)

(** [announce]: the audit row is not modelled. *)
Definition announce (id : string) (from : option AccountState) (to : AccountState) (reason : string) : SP () :=
  now ← look su_clock;
  let ev := mkStateChange id from to reason (truncate_ms now) in
  _ ← modify (log_change ev);
  lift su_feed set_feed (publish ev).

Definition write_state (id : string) (to : AccountState) (reason : string) (s : Sup) : Sup * option AcctError :=
  match SetAccountState (UnixMilli (su_clock s)) id to reason (su_rows s) with
  | Ok t => (set_rows t s, None)
  | Err e => (s, Some e)
  end.

Definition transition (id : string) (to : AccountState) (reason : string) : SP (option AcctError) :=
  row ← look (fun s => su_rows s !! id);
  err ← atomic (write_state id to reason);
  match err with
  | Some e => mret (Some e)
  | None =>
      let from := ac_state <$> row in
      let fromReason := default ReasonNone ((fun r => scanString (ac_state_reason r)) <$> row) in
      if bool_decide (from = Some to) && bool_decide (fromReason = reason) then mret None
      else _ ← announce id from to reason; mret None
  end.

Definition MarkUnresumable (id reason : string) : SP (option AcctError) :=
  transition id StateSignedOut reason.

(** ** Connecting *)

(** What the outside answers while an account is started. *)
Record Outcome := mkOutcome {
  oc_prepare : option GoError;
  oc_connect : option GoError;
  oc_persist : option GoError;
  oc_list : option GoError;
  oc_google : option (ConfigVersion * ConfigVersion * bool);   (** live, compiled, default SMS app *)
  oc_sweep : option GoError;
}.

Definition runningCount (s : Sup) : nat := rows_affected ma_running (su_accounts s).

(** A slot is free: there is no bound, or it is not reached. *)
Definition free_slot (s : Sup) : bool := (su_max s <=? 0)%Z || (Z.of_nat (runningCount s) <? su_max s)%Z.

Inductive Begin : Type := BeginRunning | BeginNoSlot | BeginGo.

Definition start_begin (id : string) (s : Sup) : Sup * Begin :=
  match su_accounts s !! id with
  | None => (s, BeginRunning)       (* every *Account is in the map *)
  | Some m =>
      if ma_running m then (s, BeginRunning)
      else if free_slot s then (on_account id (set_running true) s, BeginGo)
      else (s, BeginNoSlot)
  end.

(** [PersistSession]: the file is written, then the column. *)
Definition PersistSession (id : string) (err : option GoError) : SP (option GoError) :=
  match err with
  | Some e => mret (Some e)
  | None =>
      _ ← modify (on_sessions (fun f => {[id]} ∪ f));
      _ ← modify (on_rows (fun now => SetSessionPresent (UnixMilli now) id true));
      mret None
  end.

Definition refreshGoogle (id : string) (g : option (ConfigVersion * ConfigVersion * bool)) : SP () :=
  match g with
  | None => mret ()
  | Some (live_, compiled, isDefault) =>
      modify (on_account id (set_google (Some (mkGoogleHealth live_ (negb (SameDate live_ compiled)) isDefault))))
  end.

Definition noteSweep (id : string) : SP () :=
  _ ← modify (on_account id count_sweep);
  modify (on_rows (fun now => SetAccountLastSweep (UnixMilli now) id)).

(** The sweep writes [last_sweep_at_ms] itself when it succeeds, and the supervisor notes
    it again. *)
Definition sweep (id : string) (err : option GoError) : SP () :=
  match err with
  | Some _ => mret ()
  | None => _ ← modify (on_rows (fun now => SetAccountLastSweep (UnixMilli now) id)); noteSweep id
  end.

Inductive StartError : Type := SeGo (e : GoError) | SeStore (e : AcctError).

Definition store_error (e : option AcctError) : option StartError := SeStore <$> e.

Definition signs_out (e : GoError) : bool :=
  match as_Error e with Some ge => SignsOutAccount (fields ge) | None => false end.

(** The failure of [PrepareBackend] or [Connect]: the slot is given back first. *)
Definition start_failed (id : string) (e : GoError) (st : AccountState) (reason : string) : SP (option StartError) :=
  _ ← modify (on_account id (set_running false));
  _ ← transition id st reason;
  mret (Some (SeGo e)).

(** From a successful [Connect] on. *)
Definition start_connected (id : string) (oc : Outcome) : SP (option StartError) :=
  p ← PersistSession id (oc_persist oc);
  match p with
  | Some e => mret (Some (SeGo e))
  | None =>
      _ ← modify (on_account id (set_loop true));
      match oc_list oc with
      | Some e => mret (Some (SeGo e))
      | None =>
          _ ← refreshGoogle id (oc_google oc);
          _ ← sweep id (oc_sweep oc);
          _ ← modify (fun s => set_workers (Workers_Start id (su_workers s)) s);
          e ← transition id StateConnected ReasonNone;
          mret (store_error e)
      end
  end.

Definition start_no_slot (id : string) : SP (option StartError) :=
  e ← transition id StateParked ReasonCapacity;
  mret (store_error e).

Definition start_go (id : string) (oc : Outcome) : SP (option StartError) :=
  match oc_prepare oc with
  | Some e => start_failed id e StateError ReasonListenError
  | None =>
      match oc_connect oc with
      | Some e =>
          if signs_out e then start_failed id e StateSignedOut ReasonCredentials
          else start_failed id e StateError ReasonListenError
      | None => start_connected id oc
      end
  end.

(** [start]: [Start] without the rebalance. *)
Definition start (id : string) (oc : Outcome) : SP (option StartError) :=
  b ← atomic (start_begin id);
  match b with
  | BeginRunning => mret None
  | BeginNoSlot => start_no_slot id
  | BeginGo => start_go id oc
  end.

(** ** Rebalancing *)

Definition enter_rebalance (s : Sup) : Sup * bool :=
  if su_rebalancing s then (s, false) else (set_rebalancing true s, true).

(** The first parked row not tried yet whose account is held and not running; the map is
    read under the mutex once per row. *)
Fixpoint pick (rows : list Account) (tried : gset string) : SP (option string) :=
  match rows with
  | [] => mret None
  | r :: rows' =>
      if negb (bool_decide (a_State r = StateParked)) || bool_decide (a_ID r ∈ tried) then pick rows' tried
      else
        a ← look (fun s => su_accounts s !! a_ID r);
        match a with
        | Some m => if ma_running m then pick rows' tried else mret (Some (a_ID r))
        | None => pick rows' tried
        end
  end.

(** The loop; [false] is out of fuel.  A failed start is a log line. *)
Fixpoint rebalance_loop (fuel : nat) (tried : gset string) (ocs : string -> Outcome) : SP bool :=
  match fuel with
  | 0%nat => mret false
  | S fuel' =>
      free ← look free_slot;
      if free : bool then
        rows ← look (fun s => Accounts (su_rows s));
        next ← pick rows tried;
        match next with
        | None => mret true
        | Some id => _ ← start id (ocs id); rebalance_loop fuel' ({[id]} ∪ tried) ocs
        end
      else mret true
  end.

Definition rebalance (fuel : nat) (ocs : string -> Outcome) : SP bool :=
  mine ← atomic enter_rebalance;
  if mine : bool then
    ok ← rebalance_loop fuel ∅ ocs;
    _ ← modify (set_rebalancing false);
    mret ok
  else mret true.

Section Methods.
(** The fuel of the rebalances a method ends with, and what they meet. *)
Context (fuel : nat) (ocs : string -> Outcome).

Definition Start (id : string) (oc : Outcome) : SP (option StartError) :=
  e ← start id oc;
  _ ← rebalance fuel ocs;
  mret e.

Definition SetMaxConcurrent (n : Z) : SP () :=
  _ ← modify (set_max n);
  _ ← rebalance fuel ocs;
  mret ().

(** [settings] is [None] when there is no source. *)
Definition ReloadMaxConcurrent (settings : option Z) : SP () :=
  match settings with
  | Some n => SetMaxConcurrent n
  | None => _ ← rebalance fuel ocs; mret ()
  end.

(** ** Disconnecting *)

Definition stop_begin (id : string) (s : Sup) : Sup * bool :=
  match su_accounts s !! id with
  | Some m => if ma_running m then (on_account id (set_running false) s, true) else (s, false)
  | None => (s, false)
  end.

(** [Workers.Stop]: the walk the entry leads to. *)
Definition mapped_run (id : string) (w : Workers) : option nat :=
  match ws_state w !! id with
  | Some i => match ws_heap w !! i with Some k => wk_cancel k | None => None end
  | None => None
  end.

Definition stop_worker (id : string) : SP () :=
  r ← atomic (fun s => (set_workers (Workers_Stop_unmap id (su_workers s)) s, mapped_run id (su_workers s)));
  match r with
  | Some n => modify (fun s => set_workers (Workers_cancel n (su_workers s)) s)
  | None => mret ()
  end.

Definition Stop (id : string) : SP () :=
  b ← atomic (stop_begin id);
  if b : bool then
    _ ← modify (on_account id (set_loop false));
    _ ← modify (on_account id (set_google None));
    stop_worker id
  else mret ().

Definition Reconnect (id : string) (oc : Outcome) : SP (option StartError) :=
  _ ← Stop id;
  Start id oc.

(** [SignOut] up to its rebalance; [shred] is what the disk answers. *)
Definition sign_out (id : string) (shred : option GoError) : SP (option StartError) :=
  _ ← Stop id;
  match shred with
  | Some e => mret (Some (SeGo e))
  | None =>
      _ ← modify (on_sessions (fun f => f ∖ {[id]}));
      _ ← modify (on_rows (fun now => SetSessionPresent (UnixMilli now) id false));
      e ← transition id StateSignedOut ReasonCredentials;
      mret (store_error e)
  end.

Definition SignOut (id : string) (shred : option GoError) : SP (option StartError) :=
  e ← sign_out id shred;
  match e with
  | Some e => mret (Some e)
  | None => _ ← rebalance fuel ocs; mret None
  end.

Fixpoint stop_each (ids : list string) (persist : string -> option GoError) : SP () :=
  match ids with
  | [] => mret ()
  | id :: ids' => _ ← PersistSession id (persist id); _ ← Stop id; stop_each ids' persist
  end.

(** [List]: ordered by ID. *)
Definition List_ (s : Sup) : list string := merge_sort String.le (elements (dom (su_accounts s))).

Definition StopAll (persist : string -> option GoError) : SP () :=
  ids ← look List_;
  stop_each ids persist.

(** ** Events *)

(** The part of [gm.Event] that reaches the account's state; the conversations and
    messages of an event are ingested by Ingest.v's functions. *)
Inductive Event : Type :=
| EventClientReady
| EventAuthTokenRefreshed
| EventListenTemporaryError
| EventListenRecovered
| EventListenFatalError (CredentialsDead : bool)
| EventPingFailed (ErrorCount : Z) (EntityNotFound : bool)
| EventPairSuccessful
| EventGaiaLoggedOut
| EventRevokePairData
| EventAccountChange (IsFake : bool)
| EventConversation
| EventMessage (IsOld : bool)
| EventUserAlert (alert : Z)
| EventPhoneNotResponding
| EventPhoneRespondingAgain
| EventNoDataReceived
| EventHackySetActiveMayFail
| EventSettings
| EventTyping
| EventUnknown.

Definition AlertMobileDatabaseSyncing : Z := 11.
Definition AlertMobileDatabaseSyncComplete : Z := 12.
Definition AlertMobileDatabaseSyncStarted : Z := 13.

Definition PausesBackfill (a : Z) : bool :=
  (a =? AlertMobileDatabaseSyncStarted)%Z || (a =? AlertMobileDatabaseSyncing)%Z.

(** [setState]: a missing row or a failed write is at most a log line. *)
Definition setState (id : string) (st : AccountState) (reason : string) : SP () :=
  _ ← transition id st reason; mret ().

Definition touch (id : string) : SP () :=
  modify (on_rows (fun now => TouchAccountEvent (UnixMilli now) id)).

Definition resume_worker (id : string) : SP () :=
  i ← atomic (fun s => (set_workers (Workers_Resume_clear id (su_workers s)) s, ws_state (su_workers s) !! id));
  match i with
  | Some i => modify (fun s => set_workers (Workers_signal i (su_workers s)) s)
  | None => mret ()
  end.

(** [persist] is what saving the session answers, where the event asks for it. *)
Definition Apply (id : string) (persist : option GoError) (ev : Event) : SP () :=
  match ev with
  | EventClientReady | EventListenRecovered => setState id StateConnected ReasonNone
  | EventAuthTokenRefreshed | EventPairSuccessful => _ ← PersistSession id persist; mret ()
  | EventListenTemporaryError => setState id StateDegraded ReasonListenError
  | EventListenFatalError dead =>
      if dead then setState id StateSignedOut ReasonCredentials
      else setState id StateError ReasonListenError
  | EventPingFailed count notFound =>
      if notFound then setState id StateSignedOut ReasonRevokedByPhone
      else if (1 <? count)%Z then setState id StateError ReasonListenError
      else mret ()
  | EventGaiaLoggedOut => setState id StateSignedOut ReasonCookiesExpired
  | EventRevokePairData => setState id StateSignedOut ReasonRevokedByPhone
  | EventAccountChange fake =>
      if fake then mret () else setState id StateAccountChanged ReasonAccountSwitched
  | EventConversation => touch id
  | EventMessage old => if old then mret () else touch id
  | EventUserAlert alert =>
      _ ← (if PausesBackfill alert then
             _ ← modify (on_account id (set_backfillPaused true));
             modify (fun s => set_workers (Workers_Pause id (su_workers s)) s)
           else if (alert =? AlertMobileDatabaseSyncComplete)%Z then
             _ ← modify (on_account id (set_backfillPaused false));
             resume_worker id
           else mret ());
      touch id
  | EventPhoneNotResponding => modify (on_account id (set_phone false))
  | EventPhoneRespondingAgain => modify (on_account id (set_phone true))
  | EventNoDataReceived | EventHackySetActiveMayFail | EventSettings | EventTyping | EventUnknown => mret ()
  end.

(** One turn of the account's sweep timer. *)
Definition sweep_tick (id : string) (g : option (ConfigVersion * ConfigVersion * bool)) (err : option GoError) : SP () :=
  _ ← refreshGoogle id g;
  sweep id err.

(** ** Pairing *)

Context `{UUID, Lower}.

Record Device := mkDevice {
  dv_AccountAddress : string;
  dv_PhoneID : string;
  dv_DestRegUUID : string;
  dv_DeviceLastSeenMS : Z;       (** zero when the device was never seen *)
}.

(** The outside of one [PairAs]: the addresses the backend had when it called the emoji
    callback, what [StartGooglePairing] returned, whether the caller had given up by
    then, and what persisting and starting meet. *)
Record Pairing := mkPairing {
  pr_emoji : list string;
  pr_device : Result GoError Device;
  pr_cancelled : bool;
  pr_persist : option GoError;
  pr_start : Outcome;
}.

(** The local variables the callback writes. *)
Record Pending := mkPending {
  pe_id : string;
  pe_new : bool;
  pe_wrong : string;
}.

Inductive PairError : Type :=
| PeBackend (e : GoError)
| PeWrongAccount
| PeCancelled
| PeNoAddress
| PeStore (e : AcctError)
| PeStart (e : StartError).

Definition markPairing (id : string) (live_ : bool) : SP () :=
  if bool_decide (id = ""%string) then mret ()
  else modify (on_pairings (fun p => if live_ then {[id]} ∪ p else p ∖ {[id]})).

(** An upsert whose error the caller looks at. *)
Definition upsert (a : Account) (s : Sup) : Sup * option AcctError :=
  match UpsertAccount (UnixMilli (su_clock s)) a (su_rows s) with
  | Ok t => (set_rows t s, None)
  | Err e => (s, Some e)
  end.

(** A new account in [pairing]; its instants are the clock's either way. *)
Definition pairing_account (id address : string) : Account :=
  mkAccount id address "" StatePairing "" "" "" 0 false 0 0 0 0 0 0.

Definition on_emoji (expectedID address : string) (p : Pending) : SP Pending :=
  if negb (PlausibleAccountAddress address) then mret p
  else
    let id := AccountID address in
    if negb (bool_decide (expectedID = ""%string)) && negb (bool_decide (id = expectedID))
    then mret (mkPending (pe_id p) (pe_new p) id)
    else
      row ← look (fun s => su_rows s !! id);
      match row with
      | Some _ => mret (mkPending id (pe_new p) (pe_wrong p))
      | None =>
          _ ← atomic (upsert (pairing_account id address));
          _ ← markPairing id true;
          _ ← announce id None StatePairing ReasonNone;
          mret (mkPending id true (pe_wrong p))
      end.

Fixpoint each_emoji (expectedID : string) (addresses : list string) (p : Pending) : SP Pending :=
  match addresses with
  | [] => mret p
  | a :: rest => p' ← on_emoji expectedID a p; each_emoji expectedID rest p'
  end.

Definition abandon (p : Pending) : SP () :=
  _ ← markPairing (pe_id p) false;
  if pe_new p && negb (bool_decide (pe_id p = ""%string))
  then modify (on_rows (fun _ => DeletePairingAccount (pe_id p)))
  else mret ().

Definition call_off (p : Pending) (e : PairError) : SP (Result PairError string) :=
  _ ← abandon p;
  mret (Err e).

Definition register (id : string) : SP () :=
  modify (on_accounts (fun m => match m !! id with Some _ => m | None => <[id := newManaged]> m end)).

Definition Adopt := register.

Definition paired_account (now : Z) (id address : string) (d : Device) : Account :=
  mkAccount id address "" StateConnected "" (dv_PhoneID d) (dv_DestRegUUID d) (dv_DeviceLastSeenMS d) true
    (UnixMilli now) 0 0 0 0 0.

(** From the upsert of the paired account on. *)
Definition pair_finish (p : Pending) (id address : string) (d : Device) (pr : Pairing)
    : SP (Result PairError string) :=
  now ← look su_clock;
  row ← look (fun s => su_rows s !! id);
  err ← atomic (upsert (paired_account now id address d));
  match err with
  | Some e => call_off p (PeStore e)
  | None =>
      _ ← markPairing id false;
      _ ← announce id (ac_state <$> row) StateConnected ReasonNone;
      held ← look (fun s => bool_decide (is_Some (su_accounts s !! id)));
      _ ← (if held : bool then Stop id else mret ());
      _ ← register id;
      pe ← PersistSession id (pr_persist pr);
      match pe with
      | Some e => mret (Err (PeBackend e))
      | None =>
          e ← Start id (pr_start pr);
          match e with Some e => mret (Err (PeStart e)) | None => mret (Ok id) end
      end
  end.

Definition PairAs (expectedID : string) (pr : Pairing) : SP (Result PairError string) :=
  p ← each_emoji expectedID (pr_emoji pr) (mkPending "" false "");
  match pr_device pr with
  | Err e => call_off p (PeBackend e)
  | Ok d =>
      if negb (bool_decide (pe_wrong p = ""%string)) then call_off p PeWrongAccount
      else if pr_cancelled pr then call_off p PeCancelled
      else
        match AccountAddressFromPairing (dv_AccountAddress d) with
        | None => call_off p PeNoAddress
        | Some address =>
            let id := AccountID address in
            if negb (bool_decide (expectedID = ""%string)) && negb (bool_decide (id = expectedID))
            then call_off p PeWrongAccount
            else pair_finish p id address d pr
        end
  end.

Definition Pair (pr : Pairing) : SP (Result PairError string) := PairAs "" pr.

Definition SweepPairings (timeout : Z) : SP (Result AcctError (list string)) :=
  live_ ← look su_pairings;
  atomic (fun s =>
    let '(t, r) := SweepAbandonedPairings (su_clock s) live_ (if (timeout <=? 0)%Z then DefaultPairingTimeout else timeout) (su_rows s) in
    (set_rows t s, r)).
End Methods.
