(* ===== verification/SupervisorPool.v ===== *)
(** * The supervisor under every interleaving

    A pool of goroutines that run the methods of Supervisor.v, together with the walks of
    the workers, the feed's readers and the clock.  [sup_rel] is what every action of
    every method guarantees; what follows from it holds after any interleaving: the
    bound on running accounts, the history of the accounts table, the workers' own
    theorems.  The isolation of accounts is proved the same way. *)

From S2P Require Import Prelude Ids Errors Limits Prog Accounts Workers Feed Supervisor.

(** ** What every action guarantees *)

Definition slots_ok (s : Sup) : Prop :=
  (0 < su_max s)%Z -> (Z.of_nat (runningCount s) <= su_max s)%Z.

Record sup_rel (s s' : Sup) : Prop := {
  sr_max : su_max s' = su_max s;
  sr_slots : slots_ok s -> slots_ok s';
  sr_workers : rtc WkStep (su_workers s) (su_workers s');
  sr_rows : rtc AcctStep (su_rows s) (su_rows s');
}.

#[export] Instance sup_rel_po : PreOrder sup_rel.
Proof.
  split; [by intros s|]. intros s1 s2 s3 [] []. split; [congruence|auto|by etransitivity..].
Qed.

Lemma rel_refl s : sup_rel s s.
Proof. reflexivity. Qed.

Lemma rel_rows t s : rtc AcctStep (su_rows s) t -> sup_rel s (set_rows t s).
Proof. by split. Qed.

Lemma rel_row t s : AcctStep (su_rows s) t -> sup_rel s (set_rows t s).
Proof. intros. by apply rel_rows, rtc_once. Qed.

Lemma rel_workers w s : WkStep (su_workers s) w -> sup_rel s (set_workers w s).
Proof. intros. split; [done|done|by apply rtc_once|done]. Qed.

(** Running accounts, counted along an update of one. *)
Lemma count_alter id f (m : gmap string Managed) a :
  m !! id = Some a ->
  exists n, rows_affected ma_running m = ((if ma_running a then 1 else 0) + n)%nat /\
    rows_affected ma_running (alter f id m) = ((if ma_running (f a) then 1 else 0) + n)%nat.
Proof.
  intros E. exists (rows_affected ma_running (delete id m)). rewrite <- (insert_delete_id m id a E) at 1 3.
  rewrite alter_insert_eq, !rows_affected_insert by apply lookup_delete_eq. done.
Qed.

Lemma count_alter_le id f (m : gmap string Managed) :
  (forall a, ma_running (f a) = true -> ma_running a = true) ->
  (rows_affected ma_running (alter f id m) <= rows_affected ma_running m)%nat.
Proof.
  intros Hf. destruct (m !! id) as [a|] eqn:E; [|by rewrite alter_id' by done].
  destruct (count_alter id f m a E) as (n & -> & ->). specialize (Hf a).
  destruct (ma_running (f a)); [rewrite Hf by done; lia|destruct (ma_running a); lia].
Qed.

Lemma rel_account id f s :
  (forall a, ma_running (f a) = true -> ma_running a = true) -> sup_rel s (on_account id f s).
Proof.
  intros Hf. split; [done| |done|done]. intros Hs Hm. specialize (Hs Hm).
  pose proof (count_alter_le id f (su_accounts s) Hf). unfold runningCount in *. simpl in *. lia.
Qed.

Lemma rel_begin id s : sup_rel s (start_begin id s).1.
Proof.
  unfold start_begin. destruct (su_accounts s !! id) as [a|] eqn:E; [|done].
  destruct (ma_running a) eqn:Ha; [done|]. destruct (free_slot s) eqn:Hfree; [|done].
  split; [done| |done|done]. intros Hs Hm. unfold free_slot, runningCount in *. simpl in *.
  destruct (count_alter id (set_running true) _ a E) as (n & Hc & Hc'). rewrite Ha in Hc. simpl in Hc'.
  rewrite Hc'. apply orb_true_iff in Hfree as [?%Z.leb_le|?%Z.ltb_lt]; lia.
Qed.

Lemma rel_stop_begin id s : sup_rel s (stop_begin id s).1.
Proof.
  unfold stop_begin. destruct (su_accounts s !! id) as [a|]; [destruct (ma_running a)|]; try done.
  by apply rel_account.
Qed.

Lemma rel_write_state id to reason s : sup_rel s (write_state id to reason s).1.
Proof.
  unfold write_state. destruct (SetAccountState _ _ _ _ _) as [t|e] eqn:E; [|done]. by eapply rel_row, as_state.
Qed.

Lemma rel_upsert a s : sup_rel s (upsert a s).1.
Proof.
  unfold upsert. destruct (UpsertAccount _ _ _) as [t|e] eqn:E; [|done]. by eapply rel_row, as_upsert.
Qed.

Lemma rel_register id s :
  sup_rel s (on_accounts (fun m => match m !! id with Some _ => m | None => <[id := newManaged]> m end) s).
Proof.
  split; [done| |done|done]. intros Hs Hm. specialize (Hs Hm). unfold runningCount in *. simpl in *.
  destruct (su_accounts s !! id) eqn:E; [done|]. by rewrite rows_affected_insert.
Qed.

Lemma rel_enter s : sup_rel s (enter_rebalance s).1.
Proof. unfold enter_rebalance. by destruct (su_rebalancing s). Qed.

(** The sweep of abandoned pairings deletes one row after the other. *)
Lemma sweep_candidates_steps live_ cutoff ids deleted t :
  rtc AcctStep t (sweep_candidates live_ cutoff ids deleted t).1.
Proof.
  revert deleted t. induction ids as [|id ids IH]; intros deleted t; simpl; [done|].
  destruct (t !! id) as [r|]; [|done]. destruct (_ && _); [apply IH|].
  eapply rtc_l; [apply (as_delete _ id)|apply IH].
Qed.

#[export] Hint Resolve rel_refl rel_begin rel_stop_begin rel_write_state rel_upsert rel_register rel_enter : sup.
#[export] Hint Extern 1 (sup_rel _ (on_rows _ _)) => (apply rel_row; constructor) : sup.
#[export] Hint Extern 1 (sup_rel _ (on_account _ _ _)) => (apply rel_account; simpl; congruence) : sup.
#[export] Hint Extern 1 (sup_rel _ (set_workers _ _)) => (apply rel_workers; constructor) : sup.
#[export] Hint Extern 2 (sup_rel _ _) => (split; reflexivity || tauto) : sup.

(** Walks a method down to its actions and discharges each. *)
Ltac sup_guarantee :=
  repeat first
    [ solve [auto with sup]
    | guarantee_step
    | apply guarantees_modify; intros ?; solve [auto with sup]
    | apply guarantees_atomic; intros ?; cbn [fst]; solve [auto with sup] ].

Notation promises := (guarantees sup_rel).

Lemma publish_rel ev : promises (lift su_feed set_feed (publish ev)).
Proof.
  apply (guarantees_lift su_feed set_feed (fun _ _ => True)); [intros s t _; auto with sup|].
  unfold publish. apply guarantees_bind; [by apply guarantees_atomic|]. intros l.
  induction l as [|n l IH]; simpl; [done|]. by split.
Qed.
#[export] Hint Resolve publish_rel : sup.

Lemma announce_rel id from to reason : promises (announce id from to reason).
Proof. unfold announce. sup_guarantee. Qed.
#[export] Hint Resolve announce_rel : sup.

Lemma transition_rel id to reason : promises (transition id to reason).
Proof. unfold transition. sup_guarantee. Qed.
#[export] Hint Resolve transition_rel : sup.

Lemma PersistSession_rel id err : promises (PersistSession id err).
Proof. unfold PersistSession. sup_guarantee. Qed.
#[export] Hint Resolve PersistSession_rel : sup.

Lemma refreshGoogle_rel id g : promises (refreshGoogle id g).
Proof. unfold refreshGoogle. sup_guarantee. Qed.
#[export] Hint Resolve refreshGoogle_rel : sup.

Lemma sweep_rel id err : promises (sweep id err).
Proof. unfold sweep, noteSweep. sup_guarantee. Qed.
#[export] Hint Resolve sweep_rel : sup.

Lemma start_rel id oc : promises (start id oc).
Proof. unfold start, start_no_slot, start_go, start_failed, start_connected. sup_guarantee. Qed.
#[export] Hint Resolve start_rel : sup.

Lemma pick_rel rows tried : promises (pick rows tried).
Proof. induction rows as [|r rows IH]; cbn [pick]; sup_guarantee. Qed.
#[export] Hint Resolve pick_rel : sup.

Lemma rebalance_loop_rel fuel tried ocs : promises (rebalance_loop fuel tried ocs).
Proof. revert tried. induction fuel as [|fuel IH]; intros tried; cbn [rebalance_loop]; sup_guarantee. Qed.
#[export] Hint Resolve rebalance_loop_rel : sup.

Lemma rebalance_rel fuel ocs : promises (rebalance fuel ocs).
Proof. unfold rebalance. sup_guarantee. Qed.
#[export] Hint Resolve rebalance_rel : sup.

Lemma stop_worker_rel id : promises (stop_worker id).
Proof. unfold stop_worker. sup_guarantee. Qed.
#[export] Hint Resolve stop_worker_rel : sup.

Lemma Stop_rel id : promises (Stop id).
Proof. unfold Stop. sup_guarantee. Qed.
#[export] Hint Resolve Stop_rel : sup.

Lemma Start_rel fuel ocs id oc : promises (Start fuel ocs id oc).
Proof. unfold Start. sup_guarantee. Qed.
#[export] Hint Resolve Start_rel : sup.

Lemma SignOut_rel fuel ocs id shred : promises (SignOut fuel ocs id shred).
Proof. unfold SignOut, sign_out. sup_guarantee. Qed.

Lemma StopAll_rel persist : promises (StopAll persist).
Proof.
  unfold StopAll. sup_guarantee.
  match goal with ids : list string |- _ => induction ids as [|id ids IH] end; cbn [stop_each]; sup_guarantee.
Qed.

Lemma resume_worker_rel id : promises (resume_worker id).
Proof. unfold resume_worker. sup_guarantee. Qed.
#[export] Hint Resolve resume_worker_rel : sup.

Lemma touch_rel id : promises (touch id).
Proof. unfold touch. sup_guarantee. Qed.
#[export] Hint Resolve touch_rel : sup.

Lemma Apply_rel id persist ev : promises (Apply id persist ev).
Proof. unfold Apply, setState. sup_guarantee. Qed.

Section PairingRel.
Context `{UUID, Lower} (fuel : nat) (ocs : string -> Outcome).

Lemma markPairing_rel id b : promises (markPairing id b).
Proof. unfold markPairing. sup_guarantee. Qed.
Hint Resolve markPairing_rel : sup.

Lemma abandon_rel p : promises (abandon p).
Proof. unfold abandon. sup_guarantee. Qed.
Hint Resolve abandon_rel : sup.

Lemma each_emoji_rel expectedID l p : promises (each_emoji expectedID l p).
Proof. revert p. induction l as [|a l IH]; intros p; cbn [each_emoji]; unfold on_emoji; sup_guarantee. Qed.
Hint Resolve each_emoji_rel : sup.

Lemma PairAs_rel expectedID pr : promises (PairAs fuel ocs expectedID pr).
Proof. unfold PairAs, pair_finish, call_off, register. sup_guarantee. Qed.

Lemma SweepPairings_rel timeout : promises (SweepPairings timeout).
Proof.
  unfold SweepPairings. apply guarantees_bind; [sup_guarantee|]. intros live_. apply guarantees_atomic.
  intros s. unfold SweepAbandonedPairings. set (cut := UnixMilli _).
  pose proof (sweep_candidates_steps live_ cut (pairing_candidates (su_rows s)) [] (su_rows s)) as Hs.
  destruct (sweep_candidates _ _ _ _ _) as [t r]. by apply rel_rows.
Qed.
End PairingRel.

(** ** The pool *)

Definition go {A} (p : SP A) : SP () := p ≫= fun _ => mret ().

(** The methods goroutines run, with any answers from outside.  [SetMaxConcurrent] is
    not among them: nothing in the program calls it. *)
Inductive Method `{UUID, Lower} : SP () -> Prop :=
| me_Start fuel ocs id oc : Method (go (Start fuel ocs id oc))
| me_Stop id : Method (Stop id)
| me_Reconnect fuel ocs id oc : Method (go (Reconnect fuel ocs id oc))
| me_StopAll persist : Method (StopAll persist)
| me_SignOut fuel ocs id shred : Method (go (SignOut fuel ocs id shred))
| me_Apply id persist ev : Method (Apply id persist ev)
| me_sweep_tick id g err : Method (sweep_tick id g err)
| me_MarkUnresumable id reason : Method (go (MarkUnresumable id reason))
| me_Adopt id : Method (Adopt id)
| me_PairAs fuel ocs expectedID pr : Method (go (PairAs fuel ocs expectedID pr))
| me_SweepPairings timeout : Method (go (SweepPairings timeout)).

(** What moves beside the methods: the clock, the walks and their store writes, the
    owner's labels, the feed's readers. *)
Inductive Env (s : Sup) : Sup -> Prop :=
| env_clock t : (su_clock s <= t)%Z -> Env s (set_clock t s)
| env_workers w : WkStep (su_workers s) w -> Env s (set_workers w s)
| env_label now id label : Env s (set_rows (SetAccountLabel now id label (su_rows s)) s)
| env_backfill now id at_ : Env s (set_rows (SetAccountBackfillComplete now id at_ (su_rows s)) s)
| env_event ms id : Env s (set_rows (TouchAccountEvent ms id (su_rows s)) s)
| env_feed d : Env s (set_feed d s).

Lemma Env_rel s s' : Env s s' -> sup_rel s s'.
Proof.
  destruct 1; [auto with sup|by apply rel_workers| | | |auto with sup]; apply rel_row; constructor.
Qed.

Section Pool.
Context `{UUID, Lower}.

Lemma Method_rel p : Method p -> promises p.
Proof.
  destruct 1; unfold go, Reconnect, sweep_tick, MarkUnresumable, Adopt, register;
    try (apply guarantees_bind; [|intros; apply guarantees_ret]).
  - apply Start_rel.
  - apply Stop_rel.
  - sup_guarantee.
  - apply StopAll_rel.
  - apply SignOut_rel.
  - apply Apply_rel.
  - sup_guarantee.
  - sup_guarantee.
  - sup_guarantee.
  - apply PairAs_rel.
  - apply SweepPairings_rel.
Qed.

Definition SupStep := PoolStep Method Env.

Lemma pool_rel s pool s' : rtc SupStep ([], s) (pool, s') -> sup_rel s s'.
Proof.
  intros Hst. destruct (pool_guarantees Method Env sup_rel _ _ Method_rel Env_rel Hst) as [_ Hr]; [by constructor|done].
Qed.

(** C23: no interleaving runs more accounts than there are slots.  From a freshly built
    supervisor, whatever goroutines start, stop, sign out, pair, rebalance and apply
    events in whatever order, at most [max_concurrent] accounts run. *)
Theorem slots_bounded now rows sessions pool s :
  rtc SupStep ([], NewSup now rows sessions) (pool, s) ->
  su_max s = DefaultMaxConcurrent /\ (Z.of_nat (runningCount s) <= DefaultMaxConcurrent)%Z.
Proof.
  intros Hst%pool_rel. destruct Hst as [Hm Hs _ _]. split; [done|].
  assert (slots_ok (NewSup now rows sessions)) as Hok%Hs.
  { intros _. unfold runningCount. simpl. rewrite rows_affected_empty. done. }
  unfold slots_ok in Hok. rewrite Hm in Hok. by apply Hok.
Qed.

End Pool.

(** ** Isolation *)

(** Nothing of account [k] has changed: its row, its flags, its session file, its pairing,
    its worker, and what was published of it. *)
Record untouched (k : string) (s s' : Sup) : Prop := {
  un_row : su_rows s' !! k = su_rows s !! k;
  un_account : su_accounts s' !! k = su_accounts s !! k;
  un_session : k ∈ su_sessions s' <-> k ∈ su_sessions s;
  un_pairing : k ∈ su_pairings s' <-> k ∈ su_pairings s;
  un_worker : ws_state (su_workers s') !! k = ws_state (su_workers s) !! k;
  un_log : filter (fun ev => sc_AccountID ev = k) (su_log s') = filter (fun ev => sc_AccountID ev = k) (su_log s);
}.

#[export] Instance untouched_po k : PreOrder (untouched k).
Proof. split; [by intros s|]. intros s1 s2 s3 [] []. split; (congruence || tauto). Qed.

(** What the goroutines of one account run: everything but the rebalance, which is there
    to start other accounts. *)
Inductive Own (id : string) : SP () -> Prop :=
| ow_start oc : Own id (go (start id oc))
| ow_Stop : Own id (Stop id)
| ow_sign_out shred : Own id (go (sign_out id shred))
| ow_Apply persist ev : Own id (Apply id persist ev)
| ow_sweep_tick g err : Own id (sweep_tick id g err)
| ow_MarkUnresumable reason : Own id (go (MarkUnresumable id reason))
| ow_Adopt : Own id (Adopt id).

Inductive Tick (s : Sup) : Sup -> Prop :=
| tick t : (su_clock s <= t)%Z -> Tick s (set_clock t s).

Section Isolation.
Context (k id : string) (Hne : id <> k).

Lemma un_refl s : untouched k s s.
Proof. reflexivity. Qed.

Lemma un_rows t s : t !! k = su_rows s !! k -> untouched k s (set_rows t s).
Proof. by split. Qed.

Lemma un_alter (f : Z -> AccountRow -> AccountRow) s :
  untouched k s (on_rows (fun now => alter (f now) id) s).
Proof. apply un_rows. by apply lookup_alter_ne. Qed.

Lemma un_on_account f s : untouched k s (on_account id f s).
Proof. split; simpl; try done. by apply lookup_alter_ne. Qed.

Lemma un_workers w s : ws_state w !! k = ws_state (su_workers s) !! k -> untouched k s (set_workers w s).
Proof. by split. Qed.

Lemma un_begin s : untouched k s (start_begin id s).1.
Proof.
  unfold start_begin. destruct (su_accounts s !! id) as [a|]; [destruct (ma_running a); [|destruct (free_slot s)]|];
    try apply un_refl. apply un_on_account.
Qed.

Lemma un_stop_begin s : untouched k s (stop_begin id s).1.
Proof.
  unfold stop_begin. destruct (su_accounts s !! id) as [a|]; [destruct (ma_running a)|];
    try apply un_refl. apply un_on_account.
Qed.

Lemma un_write_state to reason s : untouched k s (write_state id to reason s).1.
Proof.
  unfold write_state, SetAccountState. destruct (su_rows s !! id); [|apply un_refl].
  apply un_rows. by apply lookup_insert_ne.
Qed.

Lemma un_register s :
  untouched k s (on_accounts (fun m => match m !! id with Some _ => m | None => <[id := newManaged]> m end) s).
Proof. split; simpl; try done. destruct (su_accounts s !! id); [done|]. by apply lookup_insert_ne. Qed.

Lemma un_save s : untouched k s (on_sessions (fun f => {[id]} ∪ f) s).
Proof. split; simpl; try done. set_solver. Qed.

Lemma un_shred s : untouched k s (on_sessions (fun f => f ∖ {[id]}) s).
Proof. split; simpl; try done. set_solver. Qed.

Lemma un_worker_start s : untouched k s (set_workers (Workers_Start id (su_workers s)) s).
Proof.
  apply un_workers. unfold Workers_Start. destruct (ws_state (su_workers s) !! id) as [i|].
  - destruct (ws_heap (su_workers s) !! i) as [a|]; [by destruct (busy a)|done].
  - simpl. by apply lookup_insert_ne.
Qed.

Lemma un_worker_stop s : untouched k s (set_workers (Workers_Stop_unmap id (su_workers s)) s).
Proof.
  apply un_workers. unfold Workers_Stop_unmap. destruct (ws_state (su_workers s) !! id); [|done].
  by apply lookup_delete_ne.
Qed.

Lemma un_worker_pause s : untouched k s (set_workers (Workers_Pause id (su_workers s)) s).
Proof.
  apply un_workers. unfold Workers_Pause. destruct (ws_state (su_workers s) !! id); [done|].
  by apply lookup_insert_ne.
Qed.

Lemma un_worker_resume s : untouched k s (set_workers (Workers_Resume_clear id (su_workers s)) s).
Proof. apply un_workers. unfold Workers_Resume_clear. by destruct (ws_state (su_workers s) !! id). Qed.

Lemma un_log_change s from to reason at_ : untouched k s (log_change (mkStateChange id from to reason at_) s).
Proof.
  split; simpl; try done. rewrite filter_app, filter_cons_False by (simpl; congruence).
  by rewrite filter_nil, app_nil_r.
Qed.
End Isolation.

#[export] Hint Resolve un_refl un_on_account un_begin un_stop_begin un_write_state un_register un_save un_shred
  un_worker_start un_worker_stop un_worker_pause un_worker_resume un_log_change : own.
#[export] Hint Extern 1 (untouched _ _ (on_rows _ _)) => (by apply un_alter) : own.
#[export] Hint Extern 2 (untouched _ _ (set_workers _ _)) => (by apply un_workers) : own.
#[export] Hint Extern 2 (untouched _ _ (set_feed _ _)) => (by split) : own.
#[export] Hint Extern 2 (untouched _ _ (set_clock _ _)) => (by split) : own.

Ltac own_guarantee :=
  repeat first
    [ solve [auto with own]
    | guarantee_step
    | apply guarantees_modify; intros ?; solve [auto with own]
    | apply guarantees_atomic; intros ?; cbn [fst]; solve [auto with own] ].

Section IsolatedMethods.
Context (k id : string) (Hne : id <> k).
Notation isolated := (guarantees (untouched k)).

Lemma publish_own ev : isolated (lift su_feed set_feed (publish ev)).
Proof.
  apply (guarantees_lift su_feed set_feed (fun _ _ => True)); [by split|].
  unfold publish. apply guarantees_bind; [by apply guarantees_atomic|]. intros l.
  induction l as [|n l IH]; cbn [send_all]; [done|]. by split.
Qed.
Hint Resolve publish_own : own.

Lemma announce_own from to reason : isolated (announce id from to reason).
Proof. unfold announce. own_guarantee. Qed.
Hint Resolve announce_own : own.

Lemma transition_own to reason : isolated (transition id to reason).
Proof. unfold transition. own_guarantee. Qed.
Hint Resolve transition_own : own.

Lemma PersistSession_own err : isolated (PersistSession id err).
Proof. unfold PersistSession. own_guarantee. Qed.
Hint Resolve PersistSession_own : own.

Lemma sweep_tick_own g err : isolated (sweep_tick id g err).
Proof. unfold sweep_tick, refreshGoogle, sweep, noteSweep. own_guarantee. Qed.

Lemma start_own oc : isolated (start id oc).
Proof.
  unfold start, start_no_slot, start_go, start_failed, start_connected, refreshGoogle, sweep, noteSweep.
  own_guarantee.
Qed.
Hint Resolve start_own : own.

Lemma Stop_own : isolated (Stop id).
Proof. unfold Stop, stop_worker. own_guarantee. Qed.
Hint Resolve Stop_own : own.

Lemma sign_out_own shred : isolated (sign_out id shred).
Proof. unfold sign_out. own_guarantee. Qed.

Lemma Apply_own persist ev : isolated (Apply id persist ev).
Proof. unfold Apply, setState, touch, resume_worker. own_guarantee. Qed.

Lemma Own_isolated p : Own id p -> isolated p.
Proof.
  destruct 1; unfold go, MarkUnresumable, Adopt, register;
    try (apply guarantees_bind; [|intros; apply guarantees_ret]).
  - apply start_own.
  - apply Stop_own.
  - apply sign_out_own.
  - apply Apply_own.
  - apply sweep_tick_own.
  - apply transition_own.
  - own_guarantee.
Qed.
End IsolatedMethods.

(** Accounts are independent.  Whatever the goroutines of other accounts do, in any
    number and any interleaving (connecting, failing, signing out, events of every kind),
    nothing of this account changes: not its row, its running flag and cached health, its
    session file, its pairing, its worker, nor the sequence of its published changes. *)
Theorem account_isolation k s pool s' :
  rtc (PoolStep (fun p => exists id, id <> k /\ Own id p) Tick) ([], s) (pool, s') -> untouched k s s'.
Proof.
  set (starts := fun p => exists id, id <> k /\ Own id p). intros Hst.
  destruct (pool_guarantees starts Tick (untouched k) ([], s) (pool, s')) as [_ Hr]; [| |exact Hst|by constructor|exact Hr].
  - intros p (id & Hne & Hp). by eapply Own_isolated.
  - intros s1 s2 [t _]. by split.
Qed.

(** *** Concrete interleavings *)

Definition demo_outcome : Outcome := mkOutcome None None None None None None.

Definition demo_rows : accounts_table :=
  {["acct_1"%string := with_session 0 true demo_row]}.

Definition demo_start : SP () := go (Start 1 (fun _ => demo_outcome) "acct_1" demo_outcome).

(** Two goroutines: one adopts the account, the other begins to start it. *)
Lemma demo_pool_steps :
  exists pool s, rtc SupStep ([], NewSup 0 demo_rows ∅) (pool, s) /\ runningCount s = 1%nat.
Proof.
  eexists _, _. split.
  - eapply rtc_l; [apply (pool_start _ _ (Adopt "acct_1")), me_Adopt|].
    eapply rtc_l; [apply (pool_start _ _ demo_start), me_Start|].
    eapply rtc_l; [by eapply (pool_act _ _ 0)|]. apply rtc_once. by eapply (pool_act _ _ 1).
  - by vm_compute.
Qed.

Lemma slots_bounded_witness :
  exists s, runningCount s = 1%nat /\
    su_max s = DefaultMaxConcurrent /\ (Z.of_nat (runningCount s) <= DefaultMaxConcurrent)%Z.
Proof.
  destruct demo_pool_steps as (pool & s & Hst & Hc). exists s. split; [exact Hc|].
  exact (slots_bounded 0 demo_rows ∅ pool s Hst).
Defined.


Definition demo_sup : Sup :=
  on_accounts (fun _ => {["acct_1"%string := set_running true newManaged]}) (NewSup 0 demo_rows ∅).

(** The phone of another account is gone. *)
Lemma account_isolation_witness :
  exists pool s', rtc (PoolStep (fun p => exists id, id <> "acct_2"%string /\ Own id p) Tick) ([], demo_sup) (pool, s') /\
    ac_state <$> su_rows s' !! "acct_1"%string = Some StateError /\
    untouched "acct_2" demo_sup s'.
Proof.
  assert (exists pool s', rtc (PoolStep (fun p => exists id, id <> "acct_2"%string /\ Own id p) Tick) ([], demo_sup) (pool, s') /\
    ac_state <$> su_rows s' !! "acct_1"%string = Some StateError) as (pool & s' & Hst & Hs).
  { eexists _, _. split.
    - eapply rtc_l; [apply (pool_start _ _ (Apply "acct_1" None (EventListenFatalError false)))|].
      + exists "acct_1"%string. split; [done|apply ow_Apply].
      + eapply rtc_l; [by eapply (pool_act _ _ 0)|]. apply rtc_once. by eapply (pool_act _ _ 0).
    - by vm_compute. }
  exists pool, s'. split; [exact Hst|]. split; [exact Hs|]. exact (account_isolation _ _ _ _ Hst).
Defined.
