(* ===== verification/SupervisorRuns.v ===== *)
(** * The supervisor's methods, one at a time

    What each method does when nothing interrupts it: transitions and events, the
    rebalance, sign-out, pairing, and the feed against the table.  The end of the file
    has the interleavings in which two methods undo each other. *)

From S2P Require Import Prelude Ids Errors Limits Prog Accounts Workers Feed Supervisor SupervisorPool.

(** ** Transitions *)

Lemma run_publish ev s : exists d, (run (lift su_feed set_feed (publish ev)) s).1 = set_feed d s.
Proof.
  rewrite run_lift by (try intros []; done). simpl. eauto.
Qed.

Lemma run_announce id from to reason s :
  exists d, (run (announce id from to reason) s).1 =
    set_feed d (log_change (mkStateChange id from to reason (truncate_ms (su_clock s))) s).
Proof.
  unfold announce. rewrite !run_bind. simpl.
  set (s1 := log_change _ s). destruct (run_publish (mkStateChange id from to reason (truncate_ms (su_clock s))) s1) as [d Hd].
  exists d. exact Hd.
Qed.

(** The changes a transition publishes. *)
Definition change (id : string) (r : AccountRow) (to : AccountState) (reason : string) (now : Z) : list StateChange :=
  if bool_decide (ac_state r = to) && bool_decide (scanString (ac_state_reason r) = reason) then []
  else [mkStateChange id (Some (ac_state r)) to reason (truncate_ms now)].

Lemma run_transition id to reason s r :
  su_rows s !! id = Some r ->
  exists d, run (transition id to reason) s =
    (mkSup (su_clock s) (<[id := with_state (UnixMilli (su_clock s)) to reason r]> (su_rows s)) (su_sessions s)
       (su_accounts s) (su_pairings s) (su_rebalancing s) (su_max s) (su_workers s) d
       (su_log s ++ change id r to reason (su_clock s)), None).
Proof.
  intros Hr. unfold transition. rewrite run_bind. cbn [run look atomic]. rewrite Hr, run_bind. cbn [run atomic].
  unfold write_state, SetAccountState. rewrite Hr. cbn [fmap option_fmap option_map default].
  unfold change. rewrite (bool_decide_ext (Some (ac_state r) = Some to) (ac_state r = to)) by naive_solver.
  destruct (bool_decide _ && bool_decide _).
  - exists (su_feed s). simpl. by rewrite app_nil_r.
  - rewrite run_bind. set (s1 := set_rows _ s).
    destruct (run_announce id (Some (ac_state r)) to reason s1) as [d Hd].
    exists d. destruct (run (announce _ _ _ _) s1) as [s2 []]. simpl in Hd. subst s2. done.
Qed.

Lemma run_transition_missing id to reason s :
  su_rows s !! id = None -> run (transition id to reason) s = (s, Some ErrAccountNotFound).
Proof.
  intros Hr. unfold transition. rewrite run_bind. cbn [run look atomic]. rewrite Hr, run_bind. cbn [run atomic].
  unfold write_state, SetAccountState. by rewrite Hr.
Qed.

(** ** Events *)

(** Where an event moves the account, and why; [None] is nowhere. *)
Definition verdict (ev : Event) : option (AccountState * string) :=
  match ev with
  | EventClientReady | EventListenRecovered => Some (StateConnected, ReasonNone)
  | EventListenTemporaryError => Some (StateDegraded, ReasonListenError)
  | EventListenFatalError true => Some (StateSignedOut, ReasonCredentials)
  | EventListenFatalError false => Some (StateError, ReasonListenError)
  | EventPingFailed _ true => Some (StateSignedOut, ReasonRevokedByPhone)
  | EventPingFailed n false => if decide (2 <= n)%Z then Some (StateError, ReasonListenError) else None
  | EventGaiaLoggedOut => Some (StateSignedOut, ReasonCookiesExpired)
  | EventRevokePairData => Some (StateSignedOut, ReasonRevokedByPhone)
  | EventAccountChange false => Some (StateAccountChanged, ReasonAccountSwitched)
  | _ => None
  end.

(** A method that leaves the account's state, its running flag and the log alone. *)
Record quiet (id : string) (s s' : Sup) : Prop := {
  qu_state : forall r, su_rows s !! id = Some r -> exists r', su_rows s' !! id = Some r' /\
    ac_state r' = ac_state r /\ ac_state_reason r' = ac_state_reason r;
  qu_running : ma_running <$> su_accounts s' !! id = ma_running <$> su_accounts s !! id;
  qu_log : su_log s' = su_log s;
}.

#[export] Instance quiet_po id : PreOrder (quiet id).
Proof.
  split; [intros s; split; eauto|]. intros s1 s2 s3 [H1 ? ?] [H2 ? ?]. split; [|congruence..].
  intros r (r1 & Hr1 & ? & ?)%H1. destruct (H2 r1 Hr1) as (r2 & ? & ? & ?). exists r2. split_and!; congruence.
Qed.

Lemma quiet_on_rows id (f : Z -> AccountRow -> AccountRow) s :
  (forall now r, ac_state (f now r) = ac_state r /\ ac_state_reason (f now r) = ac_state_reason r) ->
  quiet id s (on_rows (fun now => alter (f now) id) s).
Proof.
  intros Hf. split; [|done|done]. intros r Hr. simpl. rewrite lookup_alter_eq, Hr. eexists. split; [done|apply Hf].
Qed.

Lemma quiet_on_account id f s : (forall m, ma_running (f m) = ma_running m) -> quiet id s (on_account id f s).
Proof.
  intros Hf. split; [eauto| |done]. simpl. rewrite lookup_alter_eq. destruct (su_accounts s !! id); simpl; by rewrite ?Hf.
Qed.

Lemma quiet_same id s s' :
  su_rows s' = su_rows s -> su_accounts s' = su_accounts s -> su_log s' = su_log s -> quiet id s s'.
Proof. intros E1 E2 E3. split; rewrite ?E1, ?E2, ?E3; eauto. Qed.

Create HintDb quiet.
#[export] Hint Extern 1 (quiet _ ?s ?s) => reflexivity : quiet.
#[export] Hint Extern 1 (quiet _ _ (on_rows _ _)) => (by apply quiet_on_rows) : quiet.
#[export] Hint Extern 1 (quiet _ _ (on_account _ _ _)) => (by apply quiet_on_account) : quiet.
#[export] Hint Extern 2 (quiet _ _ _) => (by apply quiet_same) : quiet.

Ltac quiet_guarantee :=
  repeat first
    [ solve [auto with quiet]
    | guarantee_step
    | apply guarantees_modify; intros ?; solve [auto with quiet]
    | apply guarantees_atomic; intros ?; cbn [fst]; solve [auto with quiet] ].

Lemma Apply_quiet id persist ev :
  verdict ev = None -> guarantees (quiet id) (Apply id persist ev).
Proof.
  intros Hv. destruct ev; simpl in Hv; unfold Apply, PersistSession, touch, resume_worker; try discriminate.
  all: try (match type of Hv with context [if ?b then _ else _] => destruct b eqn:? end; try discriminate).
  all: try solve [quiet_guarantee].
  case_decide; [done|]. rewrite (proj2 (Z.ltb_ge 1 ErrorCount)) by lia. quiet_guarantee.
Qed.

Lemma Apply_moves id persist ev st reason :
  verdict ev = Some (st, reason) -> Apply id persist ev = setState id st reason.
Proof.
  destruct ev as [| | | |[]|n []| | | |[]| |[]| | | | | | | |]; simpl; try (intros [= <- <-]; done); try done.
  case_decide; [|done]. intros [= <- <-]. rewrite (proj2 (Z.ltb_lt 1 n)) by lia. done.
Qed.

(** What an event does to an account.  The account moves exactly where the table of
    events says, never into [pairing] or [parked] and always with a reason of the closed
    vocabulary; the change is published, with the state it came from, exactly when the
    state or the reason is new; every other event leaves state, reason and feed alone; and
    no event starts or stops the account. *)
Theorem event_applied id persist ev s r :
  su_rows s !! id = Some r ->
  let s' := (run (Apply id persist ev) s).1 in
  exists r', su_rows s' !! id = Some r' /\
    ma_running <$> su_accounts s' !! id = ma_running <$> su_accounts s !! id /\
    match verdict ev with
    | Some (st, reason) =>
        ac_state r' = st /\ scanString (ac_state_reason r') = reason /\
        su_log s' = su_log s ++ change id r st reason (su_clock s) /\
        st <> StatePairing /\ st <> StateParked /\ Reason_Valid reason = true
    | None => ac_state r' = ac_state r /\ ac_state_reason r' = ac_state_reason r /\ su_log s' = su_log s
    end.
Proof.
  intros Hr s'. destruct (verdict ev) as [[st reason]|] eqn:Hv.
  - unfold s'. rewrite (Apply_moves id persist ev st reason Hv). unfold setState. rewrite run_bind.
    destruct (run_transition id st reason s r Hr) as [d ->]. simpl.
    exists (with_state (UnixMilli (su_clock s)) st reason r). rewrite lookup_insert_eq. split_and!; try done.
    + apply scan_nullString.
    + clear -Hv. destruct ev as [| | | |[]|n []| | | |[]| |[]| | | | | | | |]; simpl in Hv; try case_decide; by simplify_eq.
    + clear -Hv. destruct ev as [| | | |[]|n []| | | |[]| |[]| | | | | | | |]; simpl in Hv; try case_decide; by simplify_eq.
    + clear -Hv. destruct ev as [| | | |[]|n []| | | |[]| |[]| | | | | | | |]; simpl in Hv; try case_decide; by simplify_eq.
  - destruct (guarantees_run (quiet id) (Apply id persist ev) s (Apply_quiet id persist ev Hv)) as [Hq Hrun Hlog].
    destruct (Hq r Hr) as (r' & Hr' & Hst & Hre). exists r'. split_and!; done.
Qed.

Lemma event_applied_witness :
  let s' := (run (Apply "acct_1" None EventGaiaLoggedOut) demo_sup).1 in
  exists r', su_rows s' !! "acct_1"%string = Some r' /\
    ma_running <$> su_accounts s' !! "acct_1"%string = ma_running <$> su_accounts demo_sup !! "acct_1"%string /\
    ac_state r' = StateSignedOut /\ scanString (ac_state_reason r') = ReasonCookiesExpired /\
    su_log s' = su_log demo_sup ++ change "acct_1" (with_session 0 true demo_row) StateSignedOut ReasonCookiesExpired 0 /\
    StateSignedOut <> StatePairing /\ StateSignedOut <> StateParked /\ Reason_Valid ReasonCookiesExpired = true.
Proof.
  exact (event_applied "acct_1" None EventGaiaLoggedOut demo_sup (with_session 0 true demo_row) eq_refl).
Defined.

(** ** Rebalancing *)

(** A parked account that is held and could be started. *)
Definition waiting (s : Sup) (id : string) : Prop :=
  exists r m, su_rows s !! id = Some r /\ ac_state r = StateParked /\
    su_accounts s !! id = Some m /\ ma_running m = false.

Lemma waiting_untouched k s s' : untouched k s s' -> waiting s' k <-> waiting s k.
Proof. intros [Hr Ha _ _ _ _]. unfold waiting. by rewrite Hr, Ha. Qed.

(** The running flag of an account. *)
Definition flag (id : string) (s s' : Sup) : Prop :=
  ma_running <$> su_accounts s' !! id = ma_running <$> su_accounts s !! id /\
  dom (su_accounts s') = dom (su_accounts s).

#[export] Instance flag_po id : PreOrder (flag id).
Proof. split; [by split|]. intros s1 s2 s3 [] []. split; congruence. Qed.

Lemma flag_on_account id f s : (forall m, ma_running (f m) = ma_running m) -> flag id s (on_account id f s).
Proof.
  intros Hf. split; simpl; [|by rewrite dom_alter_L]. rewrite lookup_alter_eq.
  destruct (su_accounts s !! id); simpl; by rewrite ?Hf.
Qed.

Create HintDb flag.
#[export] Hint Extern 1 (flag _ _ (on_account _ _ _)) => (by apply flag_on_account) : flag.
#[export] Hint Extern 2 (flag _ _ _) => (by split) : flag.

Lemma flag_write_state id k to reason s : flag id s (write_state k to reason s).1.
Proof. unfold write_state. by destruct (SetAccountState _ _ _ _ _). Qed.
#[export] Hint Resolve flag_write_state : flag.

Ltac flag_guarantee :=
  repeat first
    [ solve [auto with flag]
    | guarantee_step
    | apply guarantees_modify; intros ?; solve [auto with flag]
    | apply guarantees_atomic; intros ?; cbn [fst]; solve [auto with flag] ].

Lemma publish_flag id ev : guarantees (flag id) (lift su_feed set_feed (publish ev)).
Proof.
  apply (guarantees_lift su_feed set_feed (fun _ _ => True)); [by split|].
  unfold publish. apply guarantees_bind; [by apply guarantees_atomic|]. intros l.
  induction l as [|n l IH]; cbn [send_all]; [done|]. by split.
Qed.
#[export] Hint Resolve publish_flag : flag.

Lemma transition_flag id k to reason : guarantees (flag id) (transition k to reason).
Proof. unfold transition, announce. flag_guarantee. Qed.
#[export] Hint Resolve transition_flag : flag.

Lemma start_connected_flag id oc : guarantees (flag id) (start_connected id oc).
Proof. unfold start_connected, PersistSession, refreshGoogle, sweep, noteSweep. flag_guarantee. Qed.

(** Starting keeps the set of accounts. *)
Lemma start_failed_run id e st reason s r :
  su_rows s !! id = Some r ->
  let s' := (run (start_failed id e st reason) s).1 in
  dom (su_accounts s') = dom (su_accounts s) /\ exists r', su_rows s' !! id = Some r' /\ ac_state r' = st.
Proof.
  intros Hr s'. unfold s', start_failed. rewrite run_bind. cbn [run modify atomic].
  set (s1 := on_account id (set_running false) s). rewrite run_bind.
  destruct (run_transition id st reason s1 r Hr) as [d ->]. simpl. rewrite dom_alter_L, lookup_insert_eq. eauto.
Qed.

Lemma start_settles id oc s :
  waiting s id -> free_slot s = true ->
  let s' := (run (start id oc) s).1 in
  ~ waiting s' id /\ dom (su_accounts s') = dom (su_accounts s).
Proof.
  intros (r & m & Hr & Hst & Hm & Hrun) Hfree s'. unfold s', start. rewrite run_bind. cbn [run atomic].
  unfold start_begin. rewrite Hm, Hrun, Hfree. set (s1 := on_account id (set_running true) s).
  assert (dom (su_accounts s1) = dom (su_accounts s)) as Hd1 by (simpl; by rewrite dom_alter_L).
  assert (forall e st reason, st <> StateParked ->
    let s' := (run (start_failed id e st reason) s1).1 in ~ waiting s' id /\ dom (su_accounts s') = dom (su_accounts s)) as Hfail.
  { intros e st reason Hne. destruct (start_failed_run id e st reason s1 r Hr) as (Hd & r' & Hr' & Hs').
    split; [|congruence]. intros (r0 & m0 & Hr0 & Hs0 & _). congruence. }
  unfold start_go. destruct (oc_prepare oc) as [e|]; [by apply Hfail|].
  destruct (oc_connect oc) as [e|]; [destruct (signs_out e); by apply Hfail|].
  destruct (guarantees_run (flag id) _ s1 (start_connected_flag id oc)) as [Hf Hd]. split; [|congruence].
  intros (r0 & m0 & _ & _ & Hm0 & Hr0). rewrite Hm0 in Hf. simpl in Hf. rewrite lookup_alter_eq, Hm in Hf.
  simpl in Hf. congruence.
Qed.

Lemma pick_run rows tried s :
  exists res, run (pick rows tried) s = (s, res) /\
  match res with
  | Some id => id ∉ tried /\ (exists a m, a ∈ rows /\ a_ID a = id /\ a_State a = StateParked /\
                 su_accounts s !! id = Some m /\ ma_running m = false)
  | None => forall a m, a ∈ rows -> a_State a = StateParked -> a_ID a ∉ tried ->
              su_accounts s !! a_ID a = Some m -> ma_running m = true
  end.
Proof.
  induction rows as [|a rows IH]; cbn [pick].
  { exists None. split; [done|]. by intros a m ?%not_elem_of_nil. }
  assert ((forall m, a_State a = StateParked -> a_ID a ∉ tried -> su_accounts s !! a_ID a = Some m -> ma_running m = true) ->
    exists res, run (pick rows tried) s = (s, res) /\
    match res with
    | Some id => id ∉ tried /\ (exists b m, b ∈ a :: rows /\ a_ID b = id /\ a_State b = StateParked /\
                   su_accounts s !! id = Some m /\ ma_running m = false)
    | None => forall b m, b ∈ a :: rows -> a_State b = StateParked -> a_ID b ∉ tried ->
                su_accounts s !! a_ID b = Some m -> ma_running m = true
    end) as Hskip.
  { intros Ha. destruct IH as (res & E & Hres). exists res. split; [exact E|]. destruct res as [id|].
    - destruct Hres as (Hn & b & m & Hb & Hrest). split; [done|]. exists b, m. split; [apply elem_of_cons; auto|done].
    - intros b m [-> |Hb]%elem_of_cons; [apply Ha|by apply Hres]. }
  destruct (_ || _) eqn:E.
  - apply Hskip. intros m Hs Hn. apply orb_true_iff in E as [E|E]; bool_to_prop; done.
  - apply orb_false_iff in E as [E1 E2]. bool_to_prop. rewrite run_bind. cbn [run look atomic].
    destruct (su_accounts s !! a_ID a) as [m|] eqn:Hm; [destruct (ma_running m) eqn:Hr|].
    + apply Hskip. intros m' _ _ [= <-]. done.
    + exists (Some (a_ID a)). split; [done|]. split; [done|]. exists a, m. split; [apply elem_of_cons; auto|done].
    + apply Hskip. done.
Qed.

Lemma rebalance_loop_run fuel tried ocs s :
  tried ⊆ dom (su_accounts s) -> (forall id, waiting s id -> id ∉ tried) ->
  (size (dom (su_accounts s) ∖ tried) < fuel)%nat ->
  exists s', run (rebalance_loop fuel tried ocs) s = (s', true) /\
    (free_slot s' = false \/ forall id, ~ waiting s' id) /\ (forall k, ~ waiting s k -> untouched k s s').
Proof.
  revert tried s. induction fuel as [|fuel IH]; intros tried s Hsub Hfresh Hsize; [lia|].
  cbn [rebalance_loop]. rewrite run_bind. cbn [run look atomic]. destruct (free_slot s) eqn:Hfree; cycle 1.
  { exists s. split; [done|]. split; [by left|]. intros k _. reflexivity. }
  rewrite run_bind. cbn [run look atomic]. rewrite run_bind.
  destruct (pick_run (Accounts (su_rows s)) tried s) as (res & -> & Hres). destruct res as [id|]; cycle 1.
  { exists s. split; [done|]. split; [right|intros k _; reflexivity].
    intros id Hw. pose proof Hw as (r & m & Hr & Hs & Hm & Hrun).
    assert (ma_running m = true); [|congruence].
    apply (Hres (scanAccount id r) m); [|done|by apply Hfresh|done]. apply elem_Accounts. by exists r. }
  destruct Hres as (Hn & a & m & (r & Hr & Ea)%elem_Accounts & Eid & Hs & Hm & Hrun).
  assert (waiting s id) as Hw. { exists r, m. subst id. rewrite Ea in Hs. done. }
  rewrite run_bind. destruct (start_settles id (ocs id) s Hw Hfree) as [Hset Hdom].
  assert (forall k, k <> id -> untouched k s (run (start id (ocs id)) s).1) as Hun.
  { intros k Hk. apply (guarantees_run (untouched k)), start_own. congruence. }
  destruct (run (start id (ocs id)) s) as [s1 e]. simpl in *.
  assert (id ∈ dom (su_accounts s)) as Hin by (apply elem_of_dom; eauto).
  destruct (IH ({[id]} ∪ tried) s1) as (s' & -> & Hend & Hrest).
  - set_solver.
  - intros k Hk. destruct (decide (k = id)) as [-> |Hne]; [done|].
    apply (waiting_untouched k s s1 (Hun k Hne)) in Hk. apply Hfresh in Hk. set_solver.
  - rewrite Hdom. assert (size (dom (su_accounts s) ∖ ({[id]} ∪ tried)) < size (dom (su_accounts s) ∖ tried))%nat; [|lia].
    apply subset_size. set_solver.
  - exists s'. split; [done|]. split; [done|]. intros k Hk. assert (k <> id) as Hne by congruence.
    etransitivity; [by apply Hun|]. apply Hrest. by rewrite (waiting_untouched k s s1 (Hun k Hne)).
Qed.

Lemma rebalance_run fuel ocs s :
  su_rebalancing s = false -> (size (su_accounts s) < fuel)%nat ->
  exists s', run (rebalance fuel ocs) s = (s', true) /\ su_rebalancing s' = false /\
    (free_slot s' = false \/ forall id, ~ waiting s' id) /\ (forall k, ~ waiting s k -> untouched k s s').
Proof.
  intros Hreb Hfuel. unfold rebalance. rewrite run_bind. cbn [run atomic]. unfold enter_rebalance. rewrite Hreb.
  rewrite run_bind.
  destruct (rebalance_loop_run fuel ∅ ocs (set_rebalancing true s)) as (s1 & -> & Hend & Hun).
  - set_solver.
  - intros id _. set_solver.
  - simpl. rewrite difference_empty_L, size_dom. done.
  - exists (set_rebalancing false s1). split; [done|]. split; [done|]. split; [exact Hend|].
    intros k Hk. destruct (Hun k Hk). by split.
Qed.

(** Rebalancing terminates and leaves no slot unused.  With fuel above the number of
    accounts the loop ends by itself, whatever connecting answers; it ends with every
    slot taken or with no parked account left to start, and it touches no account that
    was not waiting: in particular a running one is never preempted. *)
Theorem rebalance_fills fuel ocs s :
  su_rebalancing s = false -> (size (su_accounts s) < fuel)%nat ->
  let '(s', finished) := run (rebalance fuel ocs) s in
  finished = true /\ (free_slot s' = false \/ forall id, ~ waiting s' id) /\
  forall k, ~ waiting s k -> untouched k s s'.
Proof. intros H1 H2. destruct (rebalance_run fuel ocs s H1 H2) as (s' & -> & _ & ? & ?). done. Qed.

(** A parked account and a free slot. *)
Definition parked_sup : Sup :=
  on_accounts (fun _ => {["acct_1"%string := newManaged]})
    (NewSup 0 {["acct_1"%string := with_state 0 StateParked ReasonCapacity demo_row]} ∅).

Lemma rebalance_fills_witness :
  waiting parked_sup "acct_1" /\
  let '(s', finished) := run (rebalance 2 (fun _ => demo_outcome)) parked_sup in
  finished = true /\ (free_slot s' = false \/ forall id, ~ waiting s' id) /\
  forall k, ~ waiting parked_sup k -> untouched k parked_sup s'.
Proof.
  split.
  - eexists _, _. split_and!; [by vm_compute|done|by vm_compute|done].
  - apply (rebalance_fills 2 (fun _ => demo_outcome) parked_sup); [reflexivity|]. vm_compute. lia.
Defined.

(** ** The feed against the table *)

(** The last change published of every account that has a row is the state and the reason
    in the row; an account nothing was published of is as it was in [rows0]. *)
Definition faithful (rows0 : accounts_table) (s : Sup) : Prop :=
  forall id r, su_rows s !! id = Some r ->
    match last (filter (fun ev => sc_AccountID ev = id) (su_log s)) with
    | Some ev => sc_To ev = ac_state r /\ sc_Reason ev = scanString (ac_state_reason r)
    | None => exists r0, rows0 !! id = Some r0 /\ ac_state r0 = ac_state r /\
                scanString (ac_state_reason r0) = scanString (ac_state_reason r)
    end.

(** An action that publishes nothing and moves no state. *)
Record calm (s s' : Sup) : Prop := {
  ca_log : su_log s' = su_log s;
  ca_rows : forall id r', su_rows s' !! id = Some r' -> exists r, su_rows s !! id = Some r /\
    ac_state r' = ac_state r /\ ac_state_reason r' = ac_state_reason r;
}.

#[export] Instance calm_po : PreOrder calm.
Proof.
  split; [intros s; split; eauto|]. intros s1 s2 s3 [? H1] [? H2]. split; [congruence|].
  intros id r3 (r2 & Hr2 & ? & ?)%H2. destruct (H1 id r2 Hr2) as (r1 & ? & ? & ?). exists r1. split_and!; congruence.
Qed.

Lemma calm_faithful rows0 s s' : calm s s' -> faithful rows0 s -> faithful rows0 s'.
Proof.
  intros [Hlog Hrows] Hf id r' Hr'. destruct (Hrows id r' Hr') as (r & Hr & -> & ->). rewrite Hlog. by apply Hf.
Qed.

Lemma calm_same s s' : su_log s' = su_log s -> su_rows s' = su_rows s -> calm s s'.
Proof. intros E1 E2. split; [done|]. rewrite E2. eauto. Qed.

Lemma calm_alter (f : Z -> AccountRow -> AccountRow) id s :
  (forall now r, ac_state (f now r) = ac_state r /\ ac_state_reason (f now r) = ac_state_reason r) ->
  calm s (on_rows (fun now => alter (f now) id) s).
Proof.
  intros Hf. split; [done|]. intros k r'. simpl. rewrite lookup_alter. case_decide; [subst k|eauto].
  destruct (su_rows s !! id) as [r|]; [|done]. intros [= <-]. exists r. split; [done|apply Hf].
Qed.

Lemma calm_delete t s : t ⊆ su_rows s -> calm s (set_rows t s).
Proof. intros Ht. split; [done|]. intros id r Hr. exists r. split; [|done]. by eapply lookup_weaken. Qed.

Lemma DeletePairingAccount_sub id t : DeletePairingAccount id t ⊆ t.
Proof.
  unfold DeletePairingAccount. destruct (t !! id) as [r|]; [destruct (never_paired r)|]; try done. apply delete_subseteq.
Qed.

Lemma sweep_candidates_sub live_ cutoff ids deleted t : (sweep_candidates live_ cutoff ids deleted t).1 ⊆ t.
Proof.
  revert deleted t. induction ids as [|id ids IH]; intros deleted t; simpl; [done|].
  destruct (t !! id) as [r|]; [|done]. destruct (_ && _); [apply IH|].
  etransitivity; [apply IH|apply DeletePairingAccount_sub].
Qed.

Lemma calm_begin id s : calm s (start_begin id s).1.
Proof.
  unfold start_begin. destruct (su_accounts s !! id) as [a|]; [destruct (ma_running a); [|destruct (free_slot s)]|];
    by apply calm_same.
Qed.
Lemma calm_stop_begin id s : calm s (stop_begin id s).1.
Proof.
  unfold stop_begin. destruct (su_accounts s !! id) as [a|]; [destruct (ma_running a)|]; by apply calm_same.
Qed.
Lemma calm_enter s : calm s (enter_rebalance s).1.
Proof. unfold enter_rebalance. destruct (su_rebalancing s); by apply calm_same. Qed.

Create HintDb calm.
#[export] Hint Resolve calm_begin calm_stop_begin calm_enter : calm.
#[export] Hint Extern 1 (calm ?s ?s) => reflexivity : calm.
#[export] Hint Extern 1 (calm _ (on_rows (fun _ => DeletePairingAccount _) _)) => (apply calm_delete, DeletePairingAccount_sub) : calm.
#[export] Hint Extern 2 (calm _ (on_rows _ _)) => (by apply calm_alter) : calm.
#[export] Hint Extern 3 (calm _ _) => (by apply calm_same) : calm.

Ltac calm_guarantee :=
  repeat first
    [ solve [auto with calm]
    | guarantee_step
    | apply guarantees_modify; intros ?; solve [auto with calm]
    | apply guarantees_atomic; intros ?; cbn [fst]; solve [auto with calm] ].

Section Faithful.
Context (rows0 : accounts_table).

Definition keeps {A} (p : SP A) : Prop := forall s, faithful rows0 s -> faithful rows0 (run p s).1.

Lemma keeps_calm {A} (p : SP A) : guarantees calm p -> keeps p.
Proof. intros Hp s. apply calm_faithful. by apply (guarantees_run calm). Qed.

Lemma keeps_ret {A} (a : A) : keeps (mret a).
Proof. by intros s. Qed.

Lemma keeps_bind {A B} (p : SP A) (k : A -> SP B) : keeps p -> (forall a, keeps (k a)) -> keeps (p ≫= k).
Proof.
  intros Hp Hk s Hs. rewrite run_bind. specialize (Hp s Hs). destruct (run p s) as [s' a]. by apply Hk.
Qed.

(** The row moves and the change is published. *)
Lemma faithful_move id to reason from at_ d s s2 r' :
  faithful rows0 s -> su_log s2 = su_log s ->
  su_rows s2 !! id = Some r' -> ac_state r' = to -> scanString (ac_state_reason r') = reason ->
  (forall k, k <> id -> su_rows s2 !! k = su_rows s !! k) ->
  faithful rows0 (set_feed d (log_change (mkStateChange id from to reason at_) s2)).
Proof.
  intros Hf Hlog Hid Hs Hr Hother k r Hk. simpl in *. rewrite Hlog, filter_app. destruct (decide (k = id)) as [-> |Hne].
  - rewrite filter_cons_True by done. rewrite filter_nil, last_snoc. simpl. split; congruence.
  - rewrite filter_cons_False by (simpl; congruence). rewrite filter_nil, app_nil_r.
    apply Hf. by rewrite <- Hother.
Qed.

Lemma keeps_transition id to reason : keeps (transition id to reason).
Proof.
  intros s Hf. destruct (su_rows s !! id) as [r|] eqn:Hr; [|by rewrite run_transition_missing].
  destruct (run_transition id to reason s r Hr) as [d ->]. cbn [fst]. unfold change.
  destruct (bool_decide _ && bool_decide _) eqn:E; cycle 1.
  - refine (faithful_move id to reason (Some (ac_state r)) (truncate_ms (su_clock s)) d s
      (set_rows (<[id := with_state (UnixMilli (su_clock s)) to reason r]> (su_rows s)) s)
      (with_state (UnixMilli (su_clock s)) to reason r) _ _ _ _ _ _);
      [done|done|apply lookup_insert_eq|done|apply scan_nullString|].
    intros k Hk. by apply lookup_insert_ne.
  - rewrite app_nil_r. bool_to_prop. intros k r' Hk. cbn [su_rows su_log] in *. rewrite lookup_insert in Hk. case_decide as Hd; [|by apply Hf].
    subst k. injection Hk as <-. simpl. rewrite scan_nullString. specialize (Hf id r Hr).
    destruct (last _) as [ev|]; [destruct Hf; split; congruence|].
    destruct Hf as (r0 & Hr0 & ? & ?). exists r0. split_and!; congruence.
Qed.
Hint Resolve keeps_transition keeps_ret : keeps.
End Faithful.

#[export] Hint Resolve keeps_transition keeps_ret : keeps.

Ltac keep :=
  repeat first
    [ solve [auto with keeps]
    | apply keeps_calm; solve [calm_guarantee]
    | apply keeps_bind; [|intros ?]
    | match goal with
      | |- keeps _ (if ?b then _ else _) => destruct b eqn:?
      | |- keeps _ (match ?x with _ => _ end) => destruct x eqn:?
      end ].

Section FaithfulMethods.
Context (rows0 : accounts_table).
Notation keeps := (keeps rows0).

Lemma keeps_start id oc : keeps (start id oc).
Proof.
  unfold start, start_no_slot, start_go, start_failed, start_connected, PersistSession, refreshGoogle, sweep, noteSweep. keep.
Qed.
Hint Resolve keeps_start : keeps.

Lemma keeps_pick rows tried : guarantees calm (pick rows tried).
Proof. induction rows as [|r rows IH]; cbn [pick]; calm_guarantee. Qed.
Hint Resolve keeps_pick : calm.

Lemma keeps_rebalance fuel ocs : keeps (rebalance fuel ocs).
Proof.
  unfold rebalance. generalize (∅ : gset string). intros tried.
  assert (forall tried, keeps (rebalance_loop fuel tried ocs)) as Hloop; [|keep].
  clear tried. induction fuel as [|fuel IH]; intros tried; cbn [rebalance_loop]; keep.
Qed.
Hint Resolve keeps_rebalance : keeps.

Lemma keeps_Start fuel ocs id oc : keeps (Start fuel ocs id oc).
Proof. unfold Start. keep. Qed.
Hint Resolve keeps_Start : keeps.

Lemma keeps_Stop id : keeps (Stop id).
Proof. unfold Stop, stop_worker. keep. Qed.
Hint Resolve keeps_Stop : keeps.

Lemma keeps_SignOut fuel ocs id shred : keeps (SignOut fuel ocs id shred).
Proof. unfold SignOut, sign_out. keep. Qed.

Lemma keeps_StopAll persist : keeps (StopAll persist).
Proof.
  unfold StopAll. apply keeps_bind; [keep|]. intros ids. induction ids as [|id ids IH]; cbn [stop_each]; unfold PersistSession; keep.
Qed.

Lemma keeps_Apply id persist ev : keeps (Apply id persist ev).
Proof. unfold Apply, setState, PersistSession, touch, resume_worker. destruct ev; keep. Qed.

Context `{UUID, Lower}.

Lemma upsert_row now a t t' :
  UpsertAccount now a t = Ok t' ->
  (exists r, t' !! a_ID a = Some r /\ ac_state r = a_State a /\ ac_state_reason r = nullString (a_StateReason a)) /\
  forall k, k <> a_ID a -> t' !! k = t !! k.
Proof.
  unfold UpsertAccount. destruct (address_taken _ _ _); [done|]. intros [= <-]. split.
  - eexists. rewrite lookup_insert_eq. split; [done|]. by destruct (t !! a_ID a).
  - intros k Hk. by apply lookup_insert_ne.
Qed.

Lemma run_markPairing id b s :
  exists p, (run (markPairing id b) s).1 = on_pairings (fun _ => p) s.
Proof. unfold markPairing. destruct (bool_decide _); [exists (su_pairings s); by destruct s|eexists; done]. Qed.

Lemma faithful_upsert a from b s t :
  UpsertAccount (UnixMilli (su_clock s)) a (su_rows s) = Ok t -> faithful rows0 s ->
  faithful rows0 (run (_ ← markPairing (a_ID a) b; announce (a_ID a) from (a_State a) (a_StateReason a)) (set_rows t s)).1.
Proof.
  intros Hu Hf. destruct (upsert_row _ _ _ _ Hu) as [(r & Hr & Hs & Hre) Hother]. rewrite run_bind.
  destruct (run_markPairing (a_ID a) b (set_rows t s)) as [p Hp].
  destruct (run (markPairing _ _) _) as [s2 []]. cbn [fst] in Hp. subst s2.
  destruct (run_announce (a_ID a) from (a_State a) (a_StateReason a) (on_pairings (fun _ => p) (set_rows t s))) as [d ->].
  refine (faithful_move rows0 (a_ID a) (a_State a) (a_StateReason a) from _ d s (on_pairings (fun _ => p) (set_rows t s)) r _ _ _ _ _ _);
    try done. by rewrite Hre, scan_nullString.
Qed.

Lemma keeps_emoji expectedID address p : keeps (on_emoji expectedID address p).
Proof.
  unfold on_emoji. destruct (negb _); [keep|]. cbv zeta. destruct (_ && _); [keep|]. set (id := AccountID address).
  intros s Hf. rewrite run_bind. cbn [run look atomic]. destruct (su_rows s !! id) as [r|] eqn:Hr; [done|].
  rewrite run_bind. cbn [run atomic]. unfold upsert.
  destruct (UpsertAccount _ _ _) as [t|e] eqn:Hu.
  - pose proof (faithful_upsert (pairing_account id address) None true s t Hu Hf) as Hk.
    rewrite run_bind in Hk. rewrite run_bind. cbn [a_ID pairing_account a_State a_StateReason] in Hk.
    destruct (run (markPairing id true) (set_rows t s)) as [s2 []]. rewrite run_bind.
    unfold ReasonNone. by destruct (run (announce _ _ _ _) s2).
  - rewrite run_bind. destruct (run_markPairing id true s) as [q Hq]. destruct (run (markPairing id true) s) as [s2 []].
    cbn [fst] in Hq. subst s2. rewrite run_bind.
    destruct (run_announce id None StatePairing ReasonNone (on_pairings (fun _ => q) s)) as [d Hd].
    destruct (run (announce _ _ _ _) _) as [s3 []]. cbn [fst] in Hd. subst s3.
    intros k r' Hk. change (su_rows s !! k = Some r') in Hk.
    change (su_log (run _ _).1) with (su_log s ++ [mkStateChange id None StatePairing ReasonNone (truncate_ms (su_clock s))]).
    rewrite filter_app, (filter_cons_False _ _ []) by (simpl; congruence). rewrite filter_nil, app_nil_r. by apply Hf.
Qed.
Hint Resolve keeps_emoji keeps_start keeps_Start keeps_Stop : keeps.

Lemma keeps_call_off p e : keeps (call_off p e).
Proof. unfold call_off, abandon, markPairing. keep. Qed.
Hint Resolve keeps_call_off : keeps.

Lemma keeps_pair_finish fuel ocs p id address d pr : keeps (pair_finish fuel ocs p id address d pr).
Proof.
  intros s Hf. unfold pair_finish. rewrite run_bind. cbn [run look atomic]. rewrite run_bind. cbn [run look atomic].
  rewrite run_bind. cbn [run atomic]. unfold upsert. set (a := paired_account (su_clock s) id address d).
  destruct (UpsertAccount _ _ _) as [t|e] eqn:Hu; [|by apply keeps_call_off].
  pose proof (faithful_upsert a (ac_state <$> su_rows s !! id) false s t Hu Hf) as Hk.
  rewrite run_bind in Hk. rewrite run_bind. cbn [a_ID a_State a_StateReason a paired_account] in Hk.
  destruct (run (markPairing id false) (set_rows t s)) as [s2 []]. rewrite run_bind.
  unfold ReasonNone. destruct (run (announce _ _ _ _) s2) as [s3 []]. cbn [fst] in Hk. revert s3 Hk.
  assert (forall q : SP (Result PairError string), keeps q -> forall s3, faithful rows0 s3 -> faithful rows0 (run q s3).1) as Hq by auto.
  apply Hq. unfold register, PersistSession. keep.
Qed.
Hint Resolve keeps_pair_finish : keeps.

Lemma keeps_PairAs fuel ocs expectedID pr : keeps (PairAs fuel ocs expectedID pr).
Proof.
  unfold PairAs. apply keeps_bind; [|intros p; cbv zeta; keep]. generalize (mkPending "" false "").
  induction (pr_emoji pr) as [|a l IH]; intros p; cbn [each_emoji]; keep.
Qed.

Lemma keeps_Method p : Method p -> keeps p.
Proof.
  destruct 1; unfold go, Reconnect, MarkUnresumable, Adopt, register, sweep_tick, refreshGoogle, sweep, noteSweep;
    try (apply keeps_bind; [|intros; apply keeps_ret]).
  - apply keeps_Start.
  - apply keeps_Stop.
  - keep.
  - apply keeps_StopAll.
  - apply keeps_SignOut.
  - apply keeps_Apply.
  - keep.
  - keep.
  - keep.
  - apply keeps_PairAs.
  - apply keeps_calm. unfold SweepPairings. apply guarantees_bind; [calm_guarantee|]. intros live_.
    apply guarantees_atomic. intros s. unfold SweepAbandonedPairings. set (cut := UnixMilli _).
    pose proof (sweep_candidates_sub live_ cut (pairing_candidates (su_rows s)) [] (su_rows s)) as Hs.
    destruct (sweep_candidates _ _ _ _ _) as [t r]. by apply calm_delete.
Qed.

(** One method after the other, and what moves in between. *)
Inductive Turn (s : Sup) : Sup -> Prop :=
| turn_method p : Method p -> Turn s (run p s).1
| turn_env s' : Env s s' -> Turn s s'.
End FaithfulMethods.

Lemma Env_calm s s' : Env s s' -> calm s s'.
Proof.
  destruct 1 as [t _|w _|now id label|now id at_|ms id|d]; try by apply calm_same.
  - apply (calm_alter (fun _ => with_label now label) id s). done.
  - apply (calm_alter (fun _ => with_backfill now at_) id s). done.
  - apply (calm_alter (fun _ => touched ms) id s). done.
Qed.

(** C24: what a watcher of the feed knows is true.  After any sequence of methods, each
    running to its end before the next, the last change published of an account is the
    state and the reason in its row: no method moves a state silently, and none announces
    a state it did not write. *)
Theorem feed_faithful `{UUID, Lower} now rows0 sessions s :
  rtc Turn (NewSup now rows0 sessions) s -> faithful rows0 s.
Proof.
  assert (forall s0, faithful rows0 s0 -> rtc Turn s0 s -> faithful rows0 s) as Hall.
  { intros s0 Hf Hst. induction Hst as [s0|s0 s1 s Ht _ IH]; [done|]. apply IH. destruct Ht as [p Hp|s' He].
    - exact (keeps_Method rows0 p Hp s0 Hf).
    - by eapply calm_faithful; [apply Env_calm|]. }
  apply Hall. intros id r Hr. exists r. done.
Qed.

Lemma feed_faithful_witness :
  let s1 := (run (Apply "acct_1" None EventClientReady) (NewSup 0 demo_rows ∅)).1 in
  ac_state <$> su_rows s1 !! "acct_1"%string = Some StateConnected /\ faithful demo_rows s1.
Proof.
  intros s1. split; [by vm_compute|]. apply (feed_faithful 0 demo_rows ∅ s1).
  apply rtc_once, turn_method, me_Apply.
Defined.

(** ** Signing out *)

(** A method that changes neither the table nor the files nor the accounts held. *)
Record offline (s s' : Sup) : Prop := {
  of_rows : su_rows s' = su_rows s;
  of_sessions : su_sessions s' = su_sessions s;
  of_dom : dom (su_accounts s') = dom (su_accounts s);
  of_rebalancing : su_rebalancing s' = su_rebalancing s;
  of_clock : su_clock s' = su_clock s;
  of_log : su_log s' = su_log s;
}.

#[export] Instance offline_po : PreOrder offline.
Proof. split; [by intros s|]. intros s1 s2 s3 [] []. split; congruence. Qed.

Lemma offline_on_account id f s : offline s (on_account id f s).
Proof. split; try done. apply dom_alter_L. Qed.

Lemma offline_stop_begin id s : offline s (stop_begin id s).1.
Proof.
  unfold stop_begin. destruct (su_accounts s !! id) as [a|]; [destruct (ma_running a)|]; try done. apply offline_on_account.
Qed.

Lemma Stop_offline id : guarantees offline (Stop id).
Proof.
  unfold Stop, stop_worker.
  repeat first [guarantee_step
    | apply guarantees_modify; intros ?; solve [apply offline_on_account | by split]
    | apply guarantees_atomic; intros ?; solve [apply offline_stop_begin | by split]].
Qed.

Lemma stop_worker_flag id k : guarantees (flag k) (stop_worker id).
Proof. unfold stop_worker. flag_guarantee. Qed.

Lemma Stop_stops id s m :
  su_accounts s !! id = Some m -> exists m', su_accounts (run (Stop id) s).1 !! id = Some m' /\ ma_running m' = false.
Proof.
  intros Hm. unfold Stop. rewrite run_bind. cbn [run atomic]. unfold stop_begin. rewrite Hm.
  destruct (ma_running m) eqn:Hr; [|exists m; done].
  set (s1 := on_account id (set_running false) s).
  assert (ma_running <$> su_accounts s1 !! id = Some false) as H1 by (simpl; by rewrite lookup_alter_eq, Hm).
  assert (guarantees (flag id) (_ ← modify (on_account id (set_loop false));
    _ ← modify (on_account id (set_google None)); stop_worker id)) as Hg.
  { pose proof (stop_worker_flag id id). flag_guarantee. }
  destruct (guarantees_run (flag id) _ s1 Hg) as [Hf _]. rewrite H1 in Hf.
  apply fmap_Some in Hf as (m' & Hm' & Hr'). by exists m'.
Qed.

Lemma sign_out_run id s r m :
  su_rows s !! id = Some r -> su_accounts s !! id = Some m ->
  exists s', run (sign_out id None) s = (s', None) /\
    (exists r', su_rows s' !! id = Some r' /\ ac_state r' = StateSignedOut /\
       ac_state_reason r' = Some ReasonCredentials /\ ac_session_present r' = false) /\
    id ∉ su_sessions s' /\ (exists m', su_accounts s' !! id = Some m' /\ ma_running m' = false) /\
    dom (su_accounts s') = dom (su_accounts s) /\ su_rebalancing s' = su_rebalancing s.
Proof.
  intros Hr Hm. unfold sign_out. rewrite run_bind.
  destruct (guarantees_run offline (Stop id) s (Stop_offline id)) as [E1 E2 E3 E4 E5 E6].
  destruct (Stop_stops id s m Hm) as (m' & Hm' & Hrun).
  destruct (run (Stop id) s) as [s1 []]. cbn [fst] in *. rewrite !run_bind. cbn [run modify atomic]. rewrite run_bind.
  cbn [run modify atomic]. set (s2 := on_rows _ _). rewrite run_bind.
  assert (su_rows s2 !! id = Some (with_session (UnixMilli (su_clock s1)) false r)) as Hr2.
  { unfold s2. simpl. unfold SetSessionPresent. by rewrite lookup_alter_eq, E1, Hr. }
  destruct (run_transition id StateSignedOut ReasonCredentials s2 _ Hr2) as [d ->]. eexists. split; [done|].
  cbn [su_rows su_sessions su_accounts su_rebalancing]. split_and!.
  - eexists. rewrite lookup_insert_eq. split; [done|]. done.
  - unfold s2. simpl. set_solver.
  - exists m'. done.
  - exact E3.
  - exact E4.
Qed.

(** Signing out, with nothing in between.  The account ends [signed_out] for its
    credentials, marked without a session, its session file gone, not running; no other
    account is touched unless it was waiting for the slot that this frees. *)
Theorem sign_out_complete fuel ocs id s r m :
  su_rows s !! id = Some r -> su_accounts s !! id = Some m ->
  su_rebalancing s = false -> (size (su_accounts s) < fuel)%nat ->
  let '(s', err) := run (SignOut fuel ocs id None) s in
  err = None /\
  (exists r', su_rows s' !! id = Some r' /\ ac_state r' = StateSignedOut /\
     ac_state_reason r' = Some ReasonCredentials /\ ac_session_present r' = false) /\
  id ∉ su_sessions s' /\ (exists m', su_accounts s' !! id = Some m' /\ ma_running m' = false) /\
  forall k, k <> id -> ~ waiting s k -> untouched k s s'.
Proof.
  intros Hr Hm Hreb Hfuel. unfold SignOut. rewrite run_bind.
  destruct (sign_out_run id s r m Hr Hm) as (s1 & E & Hrow & Hsess & Hacc & Hdom & Hreb1).
  assert (forall k, k <> id -> untouched k s s1) as Hun.
  { intros k Hk. change s1 with (s1, @None StartError).1. rewrite <- E. apply (guarantees_run (untouched k)), sign_out_own. congruence. }
  rewrite E, run_bind.
  destruct (rebalance_run fuel ocs s1) as (s' & -> & _ & _ & Hreb').
  { congruence. }
  { rewrite <- size_dom, Hdom, size_dom. done. }
  assert (~ waiting s1 id) as Hnw.
  { destruct Hrow as (r' & Hr' & Hs' & _). intros (r0 & m0 & Hr0 & Hs0 & _). congruence. }
  destruct (Hreb' id Hnw) as [Hr1 Ha1 Hs1 _ _ _]. cbn [run]. split; [done|]. rewrite Hr1, Ha1, Hs1.
  split; [done|]. split; [done|]. split; [done|]. intros k Hk Hkw. etransitivity; [by apply Hun|].
  apply Hreb'. by rewrite (waiting_untouched k s s1 (Hun k Hk)).
Qed.

Lemma sign_out_complete_witness :
  let '(s', err) := run (SignOut 2 (fun _ => demo_outcome) "acct_1" None) demo_sup in
  err = None /\
  (exists r', su_rows s' !! "acct_1"%string = Some r' /\ ac_state r' = StateSignedOut /\
     ac_state_reason r' = Some ReasonCredentials /\ ac_session_present r' = false) /\
  "acct_1"%string ∉ su_sessions s' /\ (exists m', su_accounts s' !! "acct_1"%string = Some m' /\ ma_running m' = false) /\
  forall k, k <> "acct_1"%string -> ~ waiting demo_sup k -> untouched k demo_sup s'.
Proof.
  apply (sign_out_complete 2 (fun _ => demo_outcome) "acct_1" demo_sup (with_session 0 true demo_row)
    (set_running true newManaged)); [reflexivity|reflexivity|reflexivity|vm_compute; lia].
Defined.

(** ** Pairing that fails *)

(** A method that touches neither the session files nor the accounts held. *)
Record aside (s s' : Sup) : Prop := {
  as_sessions : su_sessions s' = su_sessions s;
  as_accounts : su_accounts s' = su_accounts s;
}.

#[export] Instance aside_po : PreOrder aside.
Proof. split; [by split|]. intros s1 s2 s3 [] []. split; congruence. Qed.

Section Pairing.
Context `{UUID, Lower}.

Lemma publish_aside ev : guarantees aside (lift su_feed set_feed (publish ev)).
Proof.
  apply (guarantees_lift su_feed set_feed (fun _ _ => True)); [by split|].
  unfold publish. apply guarantees_bind; [by apply guarantees_atomic|]. intros l.
  induction l as [|n l IH]; cbn [send_all]; [done|]. by split.
Qed.

Lemma upsert_aside a s : aside s (upsert a s).1.
Proof. unfold upsert. by destruct (UpsertAccount _ _ _). Qed.

Ltac aside_guarantee :=
  repeat first
    [ solve [auto]
    | apply publish_aside
    | guarantee_step
    | apply guarantees_modify; intros ?; solve [by split]
    | apply guarantees_atomic; intros ?; solve [apply upsert_aside | by split] ].

Lemma emoji_aside expectedID a p : guarantees aside (on_emoji expectedID a p).
Proof. unfold on_emoji, announce, markPairing. aside_guarantee. Qed.

Lemma call_off_aside p e : guarantees aside (call_off p e).
Proof. unfold call_off, abandon, markPairing. aside_guarantee. Qed.

Lemma AccountID_nonempty a : AccountID a <> ""%string.
Proof. done. Qed.

(** What giving up undoes: nothing, or the row this pairing created. *)
Definition undoable (rows : accounts_table) (p : Pending) (s : Sup) : Prop :=
  (if pe_new p && negb (bool_decide (pe_id p = ""%string)) then DeletePairingAccount (pe_id p) (su_rows s) else su_rows s) = rows.

Lemma emoji_undoable expectedID a s :
  undoable (su_rows s) (run (on_emoji expectedID a (mkPending "" false "")) s).2
    (run (on_emoji expectedID a (mkPending "" false "")) s).1.
Proof.
  unfold on_emoji. destruct (negb _); [done|]. cbv zeta. destruct (_ && _); [done|]. set (id := AccountID a).
  rewrite run_bind. cbn [run look atomic]. destruct (su_rows s !! id) as [r|] eqn:Hr; [done|].
  rewrite run_bind. cbn [run atomic].
  assert (DeletePairingAccount id (su_rows (upsert (pairing_account id a) s).1) = su_rows s) as Hdel.
  { unfold upsert, UpsertAccount. cbn [a_ID pairing_account]. rewrite Hr. destruct (address_taken _ _ _); cbn [fst].
    - unfold DeletePairingAccount. by rewrite Hr.
    - unfold DeletePairingAccount, set_rows. cbn [su_rows]. rewrite lookup_insert_eq.
      change (never_paired _) with true. cbv iota. rewrite delete_insert_eq. by apply delete_id. }
  destruct (upsert _ s) as [s1 err]. cbn [fst] in Hdel. rewrite run_bind.
  destruct (run_markPairing id true s1) as [q Hq]. destruct (run (markPairing id true) s1) as [s2 []].
  cbn [fst] in Hq. subst s2. rewrite run_bind.
  destruct (run_announce id None StatePairing ReasonNone (on_pairings (fun _ => q) s1)) as [d Hd].
  destruct (run (announce _ _ _ _) _) as [s3 []]. cbn [fst] in Hd. subst s3. exact Hdel.
Qed.

Lemma call_off_undoes rows p e s :
  undoable rows p s -> su_rows (run (call_off p e) s).1 = rows.
Proof.
  intros Hu. unfold call_off, abandon. rewrite !run_bind. destruct (run_markPairing (pe_id p) false s) as [q Hq].
  destruct (run (markPairing (pe_id p) false) s) as [s1 []]. cbn [fst] in Hq. subst s1. unfold undoable in Hu.
  by destruct (pe_new p && _).
Qed.

Lemma call_off_error p e s : (run (call_off p e) s).2 = Err e.
Proof. unfold call_off. rewrite run_bind. by destruct (run (abandon p) s). Qed.

(** C25: a pairing that fails leaves nothing behind.  When the pairing is refused, fails on
    the phone, is cancelled, signs in another account than the expected one, or cannot be
    stored, the accounts table, the session files and the accounts held are exactly what
    they were: the row a new account got while its emoji was shown is gone again. *)
Theorem failed_pairing_leaves_nothing fuel ocs expectedID pr s s' e :
  (length (pr_emoji pr) <= 1)%nat ->
  run (PairAs fuel ocs expectedID pr) s = (s', Err e) ->
  (forall x, e <> PeStart x) -> (forall g, e = PeBackend g -> pr_device pr = Err g) ->
  su_rows s' = su_rows s /\ su_sessions s' = su_sessions s /\ su_accounts s' = su_accounts s.
Proof.
  intros Hlen Hrun Hstart Hbackend. set (p0 := mkPending "" false "").
  assert (exists p s1, run (each_emoji expectedID (pr_emoji pr) p0) s = (s1, p) /\ undoable (su_rows s) p s1 /\ aside s s1)
    as (p & s1 & E & Hu & Ha).
  { destruct (pr_emoji pr) as [|a [|b l]]; [by exists p0, s| |simpl in Hlen; lia]. cbn [each_emoji]. rewrite run_bind.
    pose proof (emoji_undoable expectedID a s) as Hu.
    pose proof (guarantees_run aside _ s (emoji_aside expectedID a p0)) as Ha. fold p0 in Hu.
    destruct (run (on_emoji expectedID a p0) s) as [s1 p]. by exists p, s1. }
  assert (forall e s2, su_rows s2 = su_rows s1 -> aside s1 s2 ->
    forall s3 r, run (call_off p e) s2 = (s3, r) -> su_rows s3 = su_rows s /\ aside s s3) as Hgive.
  { intros e0 s2 Hrows Ha2 s3 r Hg. change s3 with (s3, r).1. rewrite <- Hg. split.
    - apply call_off_undoes. unfold undoable. by rewrite Hrows.
    - etransitivity; [exact Ha|]. etransitivity; [exact Ha2|]. apply (guarantees_run aside), call_off_aside. }
  unfold PairAs in Hrun. rewrite run_bind in Hrun. fold p0 in Hrun. rewrite E in Hrun.
  cut (su_rows s' = su_rows s /\ aside s s'); [intros [? []]; done|].
  destruct (pr_device pr) as [d|g]; [|by eapply Hgive, Hrun].
  destruct (negb _); [by eapply Hgive, Hrun|]. destruct (pr_cancelled pr); [by eapply Hgive, Hrun|].
  destruct (AccountAddressFromPairing _) as [address|]; [|by eapply Hgive, Hrun]. cbv zeta in Hrun.
  destruct (_ && _); [by eapply Hgive, Hrun|]. set (id := AccountID address) in Hrun.
  unfold pair_finish in Hrun. rewrite run_bind in Hrun. cbn [run look atomic] in Hrun. rewrite run_bind in Hrun.
  cbn [run look atomic] in Hrun. rewrite run_bind in Hrun. cbn [run atomic] in Hrun. unfold upsert in Hrun.
  destruct (UpsertAccount _ _ _) as [t|err]; [exfalso|by eapply Hgive, Hrun].
  do 5 (rewrite run_bind in Hrun; destruct (run _ _) as [? ?] in Hrun).
  rewrite run_bind in Hrun. destruct (run (PersistSession id _) _) as [sp [g|]].
  - injection Hrun as _ <-. by specialize (Hbackend g eq_refl).
  - rewrite run_bind in Hrun. destruct (run (Start _ _ _ _) _) as [sq [x|]]; [|done].
    injection Hrun as _ <-. by apply (Hstart x).
Qed.
End Pairing.

(** The phone declines the pairing of a new account. *)
Definition demo_pairing : Pairing :=
  mkPairing ["b@example.org"%string] (Err (EOther "declined")) false None demo_outcome.

Lemma failed_pairing_leaves_nothing_witness :
  let '(s', r) := run (PairAs 2 (fun _ => demo_outcome) "" demo_pairing) demo_sup in
  r = Err (PeBackend (EOther "declined")) /\
  su_rows s' = su_rows demo_sup /\ su_sessions s' = su_sessions demo_sup /\ su_accounts s' = su_accounts demo_sup.
Proof.
  assert ((run (PairAs 2 (fun _ => demo_outcome) "" demo_pairing) demo_sup).2 = Err (PeBackend (EOther "declined"))) as Hr
    by (vm_compute; reflexivity).
  destruct (run (PairAs 2 (fun _ => demo_outcome) "" demo_pairing) demo_sup) as [s' r] eqn:E. cbn [snd] in Hr. subst r.
  split; [reflexivity|].
  exact (failed_pairing_leaves_nothing 2 (fun _ => demo_outcome) "" demo_pairing demo_sup s' _
    (le_n 1) E (fun x H => match H in _ = y return match y with PeStart _ => False | _ => True end with eq_refl => I end)
    (fun g H => f_equal (fun e => match e with PeBackend g => Err g | _ => Err g end) H)).
Defined.

(** ** Methods that undo each other *)

Notation InterleaveStep := (PoolStep (fun _ : SP () => False) (fun _ _ : Sup => False)).

(** The phase of a start after its slot is taken, as a goroutine. *)
Definition stopped_sup : Sup := on_accounts (fun _ => {["acct_1"%string := newManaged]}) (NewSup 0 demo_rows ∅).

(** A sign-out that runs while the account is connecting is undone: the start saves the
    session again, launches the loop and marks the account connected, while the slot was
    given back. *)
Example sign_out_undone :
  exists pool s, rtc InterleaveStep ([go (start "acct_1" demo_outcome); go (sign_out "acct_1" None)], stopped_sup) (pool, s) /\
    ac_state <$> su_rows s !! "acct_1"%string = Some StateConnected /\
    bool_decide ("acct_1"%string ∈ su_sessions s) = true /\
    (fun m => (ma_running m, ma_loop m)) <$> su_accounts s !! "acct_1"%string = Some (false, true).
Proof.
  eexists _, _. split.
  - eapply rtc_l; [by eapply (pool_act _ _ 0)|]. etransitivity; [by apply (pool_run _ _ 1)|]. by apply (pool_run _ _ 0).
  - by vm_compute.
Qed.

(** A phone that revokes the pairing while the start is still listing: the start's last
    transition makes the account connected again. *)
Example revocation_overwritten :
  exists pool s, rtc InterleaveStep
      ([go (start "acct_1" demo_outcome); Apply "acct_1" None EventRevokePairData], stopped_sup) (pool, s) /\
    ac_state <$> su_rows s !! "acct_1"%string = Some StateConnected.
Proof.
  eexists _, _. split.
  - etransitivity; [by apply (pool_skip _ _ 4 0)|]. etransitivity; [by apply (pool_run _ _ 1)|]. by apply (pool_run _ _ 0).
  - by vm_compute.
Qed.

(** Two transitions at once: the change published last is not the state in the row. *)
Example feed_overtaken :
  exists pool s, rtc InterleaveStep
      ([Apply "acct_1" None EventListenTemporaryError; Apply "acct_1" None EventGaiaLoggedOut], demo_sup) (pool, s) /\
    ac_state <$> su_rows s !! "acct_1"%string = Some StateSignedOut /\
    sc_To <$> last (su_log s) = Some StateDegraded.
Proof.
  eexists _, _. split.
  - etransitivity; [by apply (pool_skip _ _ 2 0)|]. etransitivity; [by apply (pool_run _ _ 1)|]. by apply (pool_run _ _ 0).
  - by vm_compute.
Qed.

(** A start whose session cannot be saved holds its slot without a loop, and starting
    again does nothing. *)
Example unsaved_session_holds_a_slot :
  let oc := mkOutcome None None (Some (EOther "disk full")) None None None in
  let '(s1, e1) := run (start "acct_1" oc) stopped_sup in
  let '(s2, e2) := run (start "acct_1" demo_outcome) s1 in
  e1 = Some (SeGo (EOther "disk full")) /\ e2 = None /\
  (fun m => (ma_running m, ma_loop m)) <$> su_accounts s2 !! "acct_1"%string = Some (true, false) /\
  ac_state <$> su_rows s2 !! "acct_1"%string = ac_state <$> su_rows stopped_sup !! "acct_1"%string.
Proof. vm_compute. split_and!; reflexivity. Qed.
