(* ===== verification/Patterns.v ===== *)
(** * Text matching in the listings (internal/store/queries.go)

    [likeContains] escapes a search text for [LIKE ... ESCAPE '\'], and [PhoneMatch]
    turns a typed number into an exact text and a suffix for [LIKE '%' || suffix].
    SQLite's LIKE is written out: [%] any run, [_] one UTF-8 character, the escape byte
    makes the next byte literal, and letters of ASCII, and only they, compare without
    case.  Texts are taken to hold no NUL byte, where SQLite's LIKE would stop. *)

From S2P Require Import Prelude GoStrings Ids Encoding Cursor.

Local Open Scope Z_scope.

(** ** LIKE *)

Definition PERCENT : Ascii.ascii := char_of 37.
Definition UNDERSCORE : Ascii.ascii := char_of 95.
Definition BACKSLASH : Ascii.ascii := char_of 92.
Definition PLUS : Ascii.ascii := char_of 43.

Definition lower (c : Ascii.ascii) : Ascii.ascii :=
  if in_range (byte_of c) 65 90 then char_of (byte_of c + 32) else c.

Fixpoint skip_continuation (s : string) : string :=
  match s with
  | String c s' => if in_range (byte_of c) 0x80 0xBF then skip_continuation s' else s
  | EmptyString => EmptyString
  end.

(** What is left of a text after one UTF-8 character. *)
Definition one_char (s : string) : option string :=
  match s with
  | EmptyString => None
  | String c s' => Some (if (0xC0 <=? byte_of c) then skip_continuation s' else s')
  end.

Definition same_letter (c d : Ascii.ascii) : bool := bool_decide (lower c = lower d).

Section Like.
Context (escape : option Ascii.ascii).

Fixpoint Like (pattern : string) : string -> bool :=
  match pattern with
  | EmptyString => fun s => bool_decide (s = EmptyString)
  | String c pattern' =>
      if bool_decide (escape = Some c) then
        match pattern' with
        | EmptyString => fun _ => false
        | String d pattern'' => fun s =>
            match s with String e s' => same_letter d e && Like pattern'' s' | EmptyString => false end
        end
      else if bool_decide (c = PERCENT) then
        fix anywhere (s : string) : bool :=
          Like pattern' s || match s with String _ s' => anywhere s' | EmptyString => false end
      else if bool_decide (c = UNDERSCORE) then fun s =>
        match one_char s with Some s' => Like pattern' s' | None => false end
      else fun s =>
        match s with String e s' => same_letter c e && Like pattern' s' | EmptyString => false end
  end.
End Like.

(** A NULL column matches nothing. *)
Definition like_column (escape : option Ascii.ascii) (pattern : string) (column : option string) : bool :=
  match column with Some s => Like escape pattern s | None => false end.

Fixpoint escape_like (s : string) : string :=
  match s with
  | EmptyString => EmptyString
  | String c s' =>
      if bool_decide (c = BACKSLASH) || bool_decide (c = PERCENT) || bool_decide (c = UNDERSCORE)
      then String BACKSLASH (String c (escape_like s')) else String c (escape_like s')
  end.

Definition likeContains (s : string) : string :=
  String PERCENT (escape_like s +:+ String PERCENT EmptyString).

(** ** Numbers *)

Definition is_digit (c : Ascii.ascii) : bool := in_range (byte_of c) 48 57.

Fixpoint digits_of (s : string) : string :=
  match s with
  | EmptyString => EmptyString
  | String c s' => if is_digit c then String c (digits_of s') else digits_of s'
  end.

Fixpoint skip_bytes (n : nat) (s : string) : string :=
  match n, s with
  | S n', String _ s' => skip_bytes n' s'
  | _, _ => s
  end.

Definition national : nat := 10.

Definition PhoneMatch (raw : string) : string * string :=
  let digits := digits_of raw in
  if (String.length digits <? 7)%nat then (raw, EmptyString)
  else if (national <? String.length digits)%nat then (raw, skip_bytes (String.length digits - national) digits)
  else (raw, digits).

(** [p.phone_e164 = exact OR (suffix <> '' AND p.phone_e164 LIKE '%' || suffix)]. *)
Definition phone_matches (raw : string) (stored : option string) : bool :=
  let '(exact, suffix) := PhoneMatch raw in
  bool_decide (stored = Some exact) ||
  (negb (bool_decide (suffix = EmptyString)) && like_column None (String PERCENT suffix) stored).

(** ** A search text is literal *)

Fixpoint same_text (q s : string) : bool :=
  match q, s with
  | EmptyString, EmptyString => true
  | String c q', String d s' => same_letter c d && same_text q' s'
  | _, _ => false
  end.

Lemma Like_percent escape pattern s : escape <> Some PERCENT ->
  Like escape (String PERCENT pattern) s = true <-> exists a b, s = a +:+ b /\ Like escape pattern b = true.
Proof.
  intros He. cbn [Like]. rewrite (bool_decide_eq_false_2 (escape = _)) by done.
  rewrite (bool_decide_eq_true_2 (PERCENT = _)) by done. induction s as [|c s IH].
  - rewrite orb_false_r. split; [by exists EmptyString, EmptyString|]. intros (a & b & E & Hb). by destruct a, b.
  - cbn beta iota. rewrite orb_true_iff, IH. split.
    + intros [H|(a & b & -> & H)]; [by exists EmptyString, (String c s)|by exists (String c a), b].
    + intros ([|d a] & b & E & Hb); [left; by rewrite E|]. injection E as -> E. right. by exists a, b.
Qed.

Lemma Like_literal_app q p s :
  Like (Some BACKSLASH) (escape_like q +:+ p) s = true <->
  exists m b, s = m +:+ b /\ same_text q m = true /\ Like (Some BACKSLASH) p b = true.
Proof.
  revert s. induction q as [|c q IH]; intros s.
  - split; [by exists EmptyString, s|]. intros (m & b & -> & Hm & Hb). by destruct m.
  - assert (forall s, match s with String e s' => same_letter c e && Like (Some BACKSLASH) (escape_like q +:+ p) s'
        | EmptyString => false end = true <-> exists m b, s = m +:+ b /\ same_text (String c q) m = true /\
          Like (Some BACKSLASH) p b = true) as Hstep.
    { intros [|e s']; [split; [done|]; intros (m & b & E & Hm & _); by destruct m|].
      rewrite andb_true_iff, IH. split.
      - intros (He & m & b & -> & Hm & Hb). exists (String e m), b. split_and!; [done| |done].
        cbn [same_text]. by rewrite He.
      - intros ([|e' m] & b & E & Hm & Hb); [done|]. injection E as -> E. cbn [same_text] in Hm.
        bool_to_prop. split; [done|]. by exists m, b. }
    cbn [escape_like]. destruct (_ || _) eqn:Ec.
    + change (Like (Some BACKSLASH) (String BACKSLASH (String c (escape_like q +:+ p))) s = true <->
        exists m b, s = m +:+ b /\ same_text (String c q) m = true /\ Like (Some BACKSLASH) p b = true).
      cbn [Like]. rewrite bool_decide_eq_true_2 by done. apply Hstep.
    + change (Like (Some BACKSLASH) (String c (escape_like q +:+ p)) s = true <->
        exists m b, s = m +:+ b /\ same_text (String c q) m = true /\ Like (Some BACKSLASH) p b = true).
      bool_to_prop. cbn [Like]. rewrite (bool_decide_eq_false_2 (Some _ = _)) by (intros [= E]; by subst c).
      rewrite (bool_decide_eq_false_2 (c = PERCENT)), (bool_decide_eq_false_2 (c = UNDERSCORE)) by done. apply Hstep.
Qed.

Lemma Like_tail s escape : escape <> Some PERCENT -> Like escape (String PERCENT EmptyString) s = true.
Proof. intros He. apply Like_percent; [done|]. exists s, EmptyString. by rewrite append_empty. Qed.

(** A search text of a listing is literal.
    [LIKE likeContains(q) ESCAPE '\'] holds of a text exactly when the text has a part
    that spells [q], ASCII letters compared without case: [%], [_] and [\] of the
    caller are themselves. *)
Theorem search_text_literal q s :
  Like (Some BACKSLASH) (likeContains q) s = true <->
  exists a m b, s = a +:+ (m +:+ b) /\ same_text q m = true.
Proof.
  unfold likeContains. rewrite Like_percent by done. setoid_rewrite Like_literal_app. split.
  - intros (a & b & -> & m & c & -> & Hm & _). by exists a, m, c.
  - intros (a & m & b & -> & Hm). exists a, (m +:+ b). split; [done|]. exists m, b. split_and!; [done..|]. by apply Like_tail.
Qed.

(** ** A number is found under the forms it is written in *)

Definition ends_in (s d : string) : Prop := exists a, s = a +:+ d.

Definition all_digits (s : string) : Prop := digits_of s = s.

Lemma digits_of_app a b : digits_of (a +:+ b) = digits_of a +:+ digits_of b.
Proof.
  induction a as [|c a IH]; [done|]. change (digits_of (String c (a +:+ b)) = digits_of (String c a) +:+ digits_of b).
  cbn [digits_of]. destruct (is_digit c); [|done]. exact (f_equal (String c) IH).
Qed.

Lemma digits_of_idem s : digits_of (digits_of s) = digits_of s.
Proof.
  induction s as [|c s IH]; [done|]. cbn [digits_of]. destruct (is_digit c) eqn:E; [|done].
  cbn [digits_of]. by rewrite E, IH.
Qed.

Lemma drop_app a b : skip_bytes (String.length a) (a +:+ b) = b.
Proof. induction a as [|c a IH]; [by destruct b|]. exact IH. Qed.

Lemma drop_split n s : (n <= String.length s)%nat ->
  exists a, s = a +:+ skip_bytes n s /\ String.length a = n.
Proof.
  revert s. induction n as [|n IH]; intros s Hn; [by exists EmptyString; destruct s|].
  destruct s as [|c s]; simpl in Hn; [lia|]. destruct (IH s ltac:(lia)) as (a & E & Ha).
  exists (String c a). split; [exact (f_equal (String c) E)|]. exact (f_equal S Ha).
Qed.

(** The digit bytes are neither letters nor wildcards. *)
Lemma digit_literal c : is_digit c = true -> c <> PERCENT /\ c <> UNDERSCORE /\ forall e, same_letter c e = bool_decide (c = e).
Proof.
  intros Hc. assert (forallb (fun n => let c := Ascii.ascii_of_nat n in
      negb (is_digit c) || (negb (bool_decide (c = PERCENT)) && negb (bool_decide (c = UNDERSCORE)) &&
        forallb (fun m => eqb (same_letter c (Ascii.ascii_of_nat m)) (bool_decide (c = Ascii.ascii_of_nat m))) (seq 0 256)))
    (seq 0 256) = true) as Hall by (vm_compute; reflexivity).
  rewrite forallb_forall in Hall. specialize (Hall (Ascii.nat_of_ascii c)).
  cbv beta zeta in Hall. rewrite Ascii.ascii_nat_embedding, Hc in Hall. cbn [negb orb] in Hall.
  assert (forall d, In (Ascii.nat_of_ascii d) (seq 0 256)) as Hin.
  { intros d. apply in_seq. pose proof (Ascii.nat_ascii_bounded d). lia. }
  specialize (Hall (Hin c)). bool_to_prop. split_and!; [done..|]. intros e. rewrite forallb_forall in *.
  match goal with H : forall x, In x (seq 0 256) -> _ |- _ => specialize (H (Ascii.nat_of_ascii e) (Hin e));
    rewrite Ascii.ascii_nat_embedding in H; by apply eqb_prop in H end.
Qed.

Lemma Like_digits d s : all_digits d -> Like None d s = bool_decide (s = d).
Proof.
  unfold all_digits. revert s. induction d as [|c d IH]; intros s Hd; [done|].
  cbn [digits_of] in Hd. destruct (is_digit c) eqn:Hc.
  2: { exfalso. assert (forall s, String.length (digits_of s) <= String.length s)%nat as Hlen.
       { clear. induction s as [|c s IH]; [done|]. cbn [digits_of]. destruct (is_digit c); simpl; lia. }
       pose proof (Hlen d) as H. rewrite Hd in H. simpl in H. lia. }
  injection Hd as Hd. destruct (digit_literal c Hc) as (Hp & Hu & Hl). cbn [Like].
  rewrite (bool_decide_eq_false_2 (None = _)), (bool_decide_eq_false_2 (c = PERCENT)),
    (bool_decide_eq_false_2 (c = UNDERSCORE)) by done.
  destruct s as [|e s]; [done|]. rewrite Hl, (IH s Hd). apply eq_true_iff_eq. rewrite andb_true_iff, !bool_decide_eq_true.
  split; [intros [-> ->]; done|intros [= -> ->]; done].
Qed.

Lemma Like_suffix d s : all_digits d -> Like None (String PERCENT d) s = true <-> ends_in s d.
Proof.
  intros Hd. rewrite Like_percent by done. unfold ends_in. split.
  - intros (a & b & -> & Hb). rewrite Like_digits in Hb by done. bool_to_prop. subst b. by exists a.
  - intros (a & ->). exists a, d. split; [done|]. rewrite Like_digits by done. by apply bool_decide_eq_true.
Qed.

Lemma all_digits_suffix a d : all_digits (a +:+ d) -> all_digits d.
Proof.
  unfold all_digits. rewrite digits_of_app. intros E.
  assert (forall s, String.length (digits_of s) <= String.length s)%nat as Hlen.
  { intros s. induction s as [|c s IH]; [done|]. cbn [digits_of]. destruct (is_digit c); simpl; lia. }
  pose proof (Hlen a) as H1. pose proof (Hlen d) as H2. pose proof (f_equal String.length E) as H3.
  rewrite !length_append in H3. assert (String.length (digits_of a) = String.length a) as Hl by lia.
  by destruct (append_length_inj _ _ _ _ Hl E).
Qed.

(** The suffix: the last ten digits of a text of at least seven digits. *)
Lemma PhoneMatch_suffix raw : (7 <= String.length (digits_of raw))%nat ->
  exists a d, PhoneMatch raw = (raw, d) /\ digits_of raw = a +:+ d /\ all_digits d /\ d <> EmptyString /\
    String.length d = Nat.min 10 (String.length (digits_of raw)).
Proof.
  intros H7. unfold PhoneMatch, national. rewrite (proj2 (Nat.ltb_ge _ 7)) by lia.
  destruct (10 <? String.length (digits_of raw))%nat eqn:E.
  - apply Nat.ltb_lt in E. destruct (drop_split (String.length (digits_of raw) - 10) (digits_of raw) ltac:(lia)) as (a & Ea & Ha).
    exists a, (skip_bytes (String.length (digits_of raw) - 10) (digits_of raw)).
    pose proof (f_equal String.length Ea) as Hl. rewrite length_append in Hl. split_and!; [done|done| | |lia].
    + apply (all_digits_suffix a). rewrite <- Ea. apply digits_of_idem.
    + intros E0. rewrite E0 in Hl. simpl in Hl. lia.
  - apply Nat.ltb_ge in E. exists EmptyString, (digits_of raw). split_and!; [done|done|apply digits_of_idem| |lia].
    intros E0. rewrite E0 in H7. simpl in H7. lia.
Qed.

Lemma phone_matches_long raw stored a d :
  PhoneMatch raw = (raw, d) -> d <> EmptyString -> all_digits d -> digits_of raw = a +:+ d ->
  phone_matches raw (Some stored) = true <-> stored = raw \/ ends_in stored d.
Proof.
  intros E Hne Hd _. unfold phone_matches. rewrite E. cbn beta iota. rewrite (bool_decide_eq_false_2 (d = _)) by done.
  cbn [negb andb like_column]. rewrite orb_true_iff, (Like_suffix d stored Hd), bool_decide_eq_true.
  split; (intros [H|H]; [left; congruence|by right]).
Qed.

Lemma ends_in_length s d1 d2 : ends_in s d1 -> ends_in s d2 -> String.length d1 = String.length d2 -> d1 = d2.
Proof.
  intros (a & ->) (b & E) Hl. pose proof (f_equal String.length E) as H. rewrite !length_append in H.
  by destruct (append_length_inj a b d1 d2 ltac:(lia) E).
Qed.

(** A stored number is found under every form it is written in.
    A stored number that ends in ten digits is matched by every typed text whose digits
    end in those ten, whatever country code, spaces and punctuation it carries; of a
    typed text of ten digits or more nothing else is matched but the text itself.  A
    fragment of fewer than seven digits matches only the very text stored, and a NULL
    number is never matched. *)
Theorem phone_forms raw prefix n :
  String.length n = 10%nat -> all_digits n ->
  (forall a, digits_of raw = a +:+ n -> phone_matches raw (Some (prefix +:+ n)) = true) /\
  (forall stored a, digits_of raw = a +:+ n -> phone_matches raw (Some stored) = true ->
     stored = raw \/ ends_in stored n) /\
  (forall stored, (String.length (digits_of raw) < 7)%nat ->
     phone_matches raw (Some stored) = bool_decide (stored = raw)) /\
  phone_matches raw None = false.
Proof.
  intros Hn Hd.
  assert (forall a, digits_of raw = a +:+ n -> PhoneMatch raw = (raw, n)) as Hpm.
  { intros a Ea. pose proof (f_equal String.length Ea) as Hl. rewrite length_append in Hl.
    destruct (PhoneMatch_suffix raw ltac:(lia)) as (b & d & E & Eb & _ & _ & Hdl). rewrite E. f_equal.
    apply (ends_in_length (digits_of raw)); [by exists b|by exists a|lia]. }
  assert (n <> EmptyString) as Hne by (intros ->; done). split_and!.
  - intros a Ea. apply (phone_matches_long raw _ a n); [by eapply Hpm|done..|]. right. by exists prefix.
  - intros stored a Ea Hm. by apply (phone_matches_long raw _ a n) in Hm; [|by eapply Hpm|..].
  - intros stored H7. unfold phone_matches, PhoneMatch. rewrite (proj2 (Nat.ltb_lt _ 7)) by done. cbn beta iota.
    rewrite (bool_decide_eq_true_2 (EmptyString = EmptyString)) by done. rewrite andb_false_l, orb_false_r.
    apply bool_decide_ext. split; [by intros [= ->]|by intros ->].
  - unfold phone_matches. destruct (PhoneMatch raw). cbn beta iota. by rewrite andb_false_r.
Qed.

Lemma phone_forms_witness :
  phone_matches "(202) 555-0123" (Some ("+1" +:+ "2025550123")) = true /\
  phone_matches "+1 202.555.0123" (Some ("+1" +:+ "2025550123")) = true /\
  phone_matches "5550" (Some "+12025550123") = false.
Proof.
  split_and!.
  - refine (proj1 (phone_forms "(202) 555-0123" "+1" "2025550123" eq_refl eq_refl) EmptyString _). reflexivity.
  - refine (proj1 (phone_forms "+1 202.555.0123" "+1" "2025550123" eq_refl eq_refl) "1" _). reflexivity.
  - rewrite (proj1 (proj2 (proj2 (phone_forms "5550" "+1" "2025550123" eq_refl eq_refl))) "+12025550123");
      [reflexivity|simpl; lia].
Defined.

(** A national form with a trunk zero and fewer than eleven digits is not found under
    the number as it is stored. *)
Example trunk_zero_missed : phone_matches "030 123456" (Some "+4930123456") = false.
Proof. reflexivity. Qed.
