(* ===== verification/Pages.v ===== *)
(** * Keyset pages (internal/store/queries.go, internal/api/params.go)

    A listing is served a page at a time: the rows after the cursor's position, newest
    first, cut at the limit; the next cursor is the position of the page's last row, or
    none when the page was not full.  A caller's walk presents each next cursor in turn,
    and the table may change between two of its requests: a walk here runs over the
    sequence of tables its requests see. *)

From S2P Require Import Prelude GoStrings Encoding Cursor.

Definition DefaultLimit : Z := 50.
Definition MaxLimit : Z := 100.

Definition clampLimit (n : Z) : Z :=
  if (n <=? 0)%Z then DefaultLimit else if (n >? MaxLimit)%Z then MaxLimit else n.

Definition clampContext (n : Z) : Z :=
  if (n <=? 0)%Z then 5%Z else if (n >? MaxLimit)%Z then MaxLimit else n.

(** [a < b] of SQLite's BINARY collation. *)
Definition text_lt (a b : string) : bool := bool_decide (String.le a b) && negb (bool_decide (a = b)).

Lemma clampLimit_range n : (1 <= clampLimit n <= MaxLimit)%Z /\ ((1 <= n <= MaxLimit)%Z -> clampLimit n = n).
Proof. unfold clampLimit, DefaultLimit, MaxLimit. repeat case_match; lia. Qed.

Lemma clampContext_range n : (1 <= clampContext n <= MaxLimit)%Z.
Proof. unfold clampContext, MaxLimit. repeat case_match; lia. Qed.

Section Keyset.
Context {V : Type} (key : V -> Z).

Definition CursorPosition (x : string * V) : Cursor := mkCursor (key x.2) x.1.

(** [builder.after]: the keyset predicate, or nothing without a cursor. *)
Definition after (c : option Cursor) (x : string * V) : bool :=
  match c with
  | None => true
  | Some c => (key x.2 <? cu_SentAtMS c)%Z || ((key x.2 =? cu_SentAtMS c)%Z && text_lt x.1 (cu_ID c))
  end.

Definition page_rows (P : string * V -> bool) (c : option Cursor) (limit : Z) (t : gmap string V)
    : list (string * V) :=
  listing key (fun x => P x && after c x) (Z.to_nat (clampLimit limit)) t.

(** [nextCursor], before the position is encoded. *)
Definition nextPosition (limit : Z) (rows : list (string * V)) : option Cursor :=
  if (Z.of_nat (length rows) <? limit)%Z || (Z.of_nat (length rows) =? 0)%Z then None
  else CursorPosition <$> last rows.

(** What one request of a walk sees: the rows its filters select, and the table. *)
Definition view : Type := (string * V -> bool) * gmap string V.

(** [x] is a selected row of a view. *)
Definition shown (x : string * V) (w : view) : Prop := w.2 !! x.1 = Some x.2 /\ w.1 x = true.

(** A walk: the pages it is served, and whether it came to the end. *)
Fixpoint walk (limit : Z) (ws : list view) (c : option Cursor) : list (list (string * V)) * bool :=
  match ws with
  | [] => ([], false)
  | w :: ws' =>
      let rows := page_rows w.1 c limit w.2 in
      match nextPosition limit rows with
      | None => ([rows], true)
      | Some c' => let '(ps, ended) := walk limit ws' (Some c') in (rows :: ps, ended)
      end
  end.

(** [y] comes strictly after [x]. *)
Definition above (x y : string * V) : Prop := after (Some (CursorPosition x)) y = true.

Lemma above_newest x y : above x y <-> newest_first key x y /\ (key x.2 <> key y.2 \/ x.1 <> y.1).
Proof.
  unfold above, after, newest_first, text_lt, CursorPosition. cbn [cu_SentAtMS cu_ID].
  rewrite orb_true_iff, !andb_true_iff, negb_true_iff, Z.ltb_lt, Z.eqb_eq, bool_decide_eq_true, bool_decide_eq_false.
  split; intros H; [destruct H as [H|[E [Hle Hne]]]; (split; [tauto || (right; done)|])|].
  - left. lia.
  - right. congruence.
  - destruct H as [[H|[E Hle]] Hne]; [by left|]. right. split; [done|]. split; [done|]. intros E1. destruct Hne; congruence.
Qed.

#[export] Instance above_trans : Transitive above.
Proof.
  intros x y z. rewrite !above_newest. intros [H1 N1] [H2 N2]. split; [by etransitivity|].
  destruct (decide (key x.2 = key z.2)) as [Ek|]; [right|by left]. intros Ei.
  unfold newest_first in *. destruct N1 as [N1|N1]; [destruct H1, H2; lia|].
  destruct H1 as [H1|[E1 L1]], H2 as [H2|[E2 L2]]; try lia. apply N1.
  apply (anti_symm String.le); [|done]. by rewrite Ei.
Qed.

Lemma above_irrefl x : ~ above x x.
Proof. rewrite above_newest. naive_solver. Qed.

Lemma after_above x y c : after c x = true -> above x y -> after c y = true.
Proof.
  destruct c as [c|]; [|done]. intros Hx Hxy.
  (* a cursor is the position of some row as far as [after] can tell *)
  set (z := (cu_ID c, x.2)).
  unfold above, after, CursorPosition, text_lt in *. cbn [cu_SentAtMS cu_ID] in *.
  rewrite orb_true_iff, !andb_true_iff, negb_true_iff, Z.ltb_lt, Z.eqb_eq, bool_decide_eq_true, bool_decide_eq_false in *.
  destruct Hx as [Hx|(Ex & Lx & Nx)], Hxy as [Hy|(Ey & Ly & Ny)]; [left; lia..|]. right.
  split; [lia|]. split; [by etransitivity|]. intros E. apply Nx. apply (anti_symm String.le); [done|]. by rewrite <- E.
Qed.

(** ** The listing as one strictly descending list *)

Lemma listing_strict P limit t : StronglySorted above (listing key P limit t).
Proof.
  pose proof (listing_sorted key P limit t) as Hs. pose proof (listing_NoDup key P limit t) as Hn.
  induction Hs as [|x l Hs IH Hall]; [constructor|]. cbn [fmap list_fmap] in Hn. apply NoDup_cons in Hn as [Hx Hn].
  constructor; [by apply IH|]. rewrite Forall_forall in *. intros y Hy. apply above_newest. split; [by apply Hall|].
  right. intros E. apply Hx. rewrite E. by apply list_elem_of_fmap_2.
Qed.

Lemma strict_unique l1 l2 : StronglySorted above l1 -> StronglySorted above l2 ->
  (forall x, x ∈ l1 <-> x ∈ l2) -> l1 = l2.
Proof.
  assert (forall l, StronglySorted above l -> NoDup l) as Hnd.
  { intros l Hl. induction Hl as [|x l Hl IH Hall]; constructor; [|done]. intros Hx.
    rewrite Forall_forall in Hall. by apply (above_irrefl x), Hall. }
  intros H1 H2 He. apply (StronglySorted_unique_strong above); [|done|done|].
  - intros x y _ _ Hxy Hyx. exfalso. eapply above_irrefl. by etransitivity.
  - apply NoDup_Permutation; auto.
Qed.

Lemma strict_filter (Q : string * V -> bool) l : StronglySorted above l -> StronglySorted above (filter (fun x => Q x = true) l).
Proof.
  induction 1 as [|x l Hl IH Hall]; [constructor|]. rewrite filter_cons. case_decide; [|done].
  constructor; [done|]. rewrite Forall_forall in *. intros y [_ Hy]%list_elem_of_filter. by apply Hall.
Qed.

Lemma listing_filter P Q t :
  listing key (fun x => P x && Q x) 0 t = filter (fun x => Q x = true) (listing key P 0 t).
Proof.
  apply strict_unique; [apply listing_strict|apply strict_filter, listing_strict|]. intros x.
  rewrite list_elem_of_filter, !listing_all, andb_true_iff. tauto.
Qed.

(** ** One page *)

Lemma page_rows_take P c limit t :
  page_rows P c limit t = take (Z.to_nat (clampLimit limit)) (filter (fun x => after c x = true) (listing key P 0 t)).
Proof.
  unfold page_rows. rewrite listing_limit, listing_filter; [done|]. pose proof (clampLimit_range limit) as [? _]. lia.
Qed.

Lemma page_rows_elem P c limit t x : x ∈ page_rows P c limit t ->
  t !! x.1 = Some x.2 /\ P x = true /\ after c x = true.
Proof. intros [Hx HP]%listing_elem. by apply andb_true_iff in HP as [HP Ha]. Qed.

Lemma page_rows_strict P c limit t : StronglySorted above (page_rows P c limit t).
Proof. apply listing_strict. Qed.

(** No next position: everything after the cursor is on the page. *)
Lemma last_page P c limit t x : (1 <= limit <= MaxLimit)%Z -> nextPosition limit (page_rows P c limit t) = None ->
  t !! x.1 = Some x.2 -> P x = true -> after c x = true -> x ∈ page_rows P c limit t.
Proof.
  intros Hl Hn Hx HP Ha. rewrite page_rows_take in *. destruct (clampLimit_range limit) as [_ Ec]. rewrite Ec in * by done.
  set (l := filter _ _) in *. assert (x ∈ l) as Hin by (apply list_elem_of_filter; split; [done|by apply listing_all]).
  rewrite take_ge; [done|]. unfold nextPosition in Hn. rewrite length_take in Hn. case_match eqn:E.
  - apply orb_true_iff in E as [E|E]; [apply Z.ltb_lt in E; lia|]. apply Z.eqb_eq in E. lia.
  - destruct (last _) eqn:El; [done|]. apply last_None in El. apply (f_equal length) in El.
    rewrite length_take in El. simpl in El. lia.
Qed.

(** A next position: the page is full, it is the position of the last row of the page,
    and a row is after it exactly when it is after the cursor and past the page. *)
Lemma next_page P c limit t c' : (1 <= limit <= MaxLimit)%Z -> nextPosition limit (page_rows P c limit t) = Some c' ->
  length (page_rows P c limit t) = Z.to_nat limit /\
  exists r, last (page_rows P c limit t) = Some r /\ c' = CursorPosition r /\
    (forall x, x ∈ page_rows P c limit t -> x = r \/ above x r) /\
    forall x, t !! x.1 = Some x.2 -> P x = true -> after c x = true -> x ∈ page_rows P c limit t \/ after (Some c') x = true.
Proof.
  intros Hl Hn. pose proof (page_rows_strict P c limit t) as Hs. pose proof (page_rows_take P c limit t) as Et.
  destruct (clampLimit_range limit) as [_ Ec]. rewrite Ec in Et by done. clear Ec.
  set (l := filter _ _) in Et. unfold nextPosition in Hn. case_match eqn:E; [done|]. bool_to_prop.
  destruct (last (page_rows P c limit t)) as [r|] eqn:Er; [|done]. injection Hn as <-.
  assert (length (page_rows P c limit t) = Nat.min (Z.to_nat limit) (length l)) as Hm by (rewrite Et; apply length_take).
  split; [lia|]. exists r. split_and!; [done|done| |].
  - intros x Hx. apply last_Some in Er as [l0 E0]. rewrite E0 in *. apply elem_of_app in Hx as [Hx|Hx]; [right|left].
    + eapply (StronglySorted_app_1_elem_of above); [exact Hs|done|by apply list_elem_of_singleton].
    + by apply list_elem_of_singleton in Hx.
  - intros x Hx HP Ha. assert (x ∈ l) as Hin by (apply list_elem_of_filter; split; [done|by apply listing_all]).
    assert (StronglySorted above l) as Hsl by apply strict_filter, listing_strict.
    rewrite <- (take_drop (Z.to_nat limit) l), <- Et in Hin, Hsl. apply elem_of_app in Hin as [Hin|Hin]; [by left|right].
    apply (StronglySorted_app_1_elem_of above (page_rows P c limit t) (drop (Z.to_nat limit) l) r x Hsl); [|done].
    apply last_Some in Er as [l0 E0]. rewrite E0. apply elem_of_app. right. by apply list_elem_of_singleton.
Qed.

(** ** Walks *)

Lemma walk_after limit ws c x : (1 <= limit <= MaxLimit)%Z -> x ∈ concat (walk limit ws c).1 -> after c x = true.
Proof.
  intros Hl. revert c. induction ws as [|w ws IH]; intros c; [by intros ?%elem_of_nil|]. cbn [walk]. cbv zeta.
  destruct (nextPosition _ _) as [c'|] eqn:En.
  - destruct (next_page w.1 c limit w.2 c' Hl En) as (_ & r & Er & -> & _ & _). specialize (IH (Some (CursorPosition r))).
    destruct (walk limit ws _) as [ps ended]. cbn [fst concat]. intros [Hx|Hx]%elem_of_app.
    + by apply page_rows_elem in Hx as (_ & _ & ?).
    + apply (after_above r); [|by apply IH]. apply last_Some in Er as [l0 E0].
      assert (r ∈ page_rows w.1 c limit w.2) as Hr by (rewrite E0; apply elem_of_app; right; by apply list_elem_of_singleton).
      by apply page_rows_elem in Hr as (_ & _ & ?).
  - cbn [fst concat]. rewrite app_nil_r. intros Hx. by apply page_rows_elem in Hx as (_ & _ & ?).
Qed.

Lemma StronglySorted_join l1 l2 : StronglySorted above l1 -> StronglySorted above l2 ->
  (forall x y, x ∈ l1 -> y ∈ l2 -> above x y) -> StronglySorted above (l1 ++ l2).
Proof. intros H1 H2 H. apply StronglySorted_app. split_and!; [|done|done]. intros x y Hx Hy. by apply H. Qed.

(** The pages in turn are one strictly descending list: no position is served twice. *)
Lemma walk_descends limit ws c : (1 <= limit <= MaxLimit)%Z -> StronglySorted above (concat (walk limit ws c).1).
Proof.
  intros Hl. revert c. induction ws as [|w ws IH]; intros c; [constructor|]. cbn [walk]. cbv zeta.
  destruct (nextPosition _ _) as [c'|] eqn:En.
  - destruct (next_page w.1 c limit w.2 c' Hl En) as (_ & r & Er & -> & Hlast & _).
    pose proof (IH (Some (CursorPosition r))) as IH'. pose proof (walk_after limit ws (Some (CursorPosition r))) as Ha.
    destruct (walk limit ws _) as [ps ended]. cbn [fst concat] in *. apply StronglySorted_join; [apply page_rows_strict|done|].
    intros x y Hx Hy. pose proof (Ha y Hl Hy) as Hry. destruct (Hlast x Hx) as [->|Hxr]; [done|].
    etransitivity; [exact Hxr|exact Hry].
  - cbn [fst concat]. rewrite app_nil_r. apply page_rows_strict.
Qed.

Lemma walk_sound limit ws c x : x ∈ concat (walk limit ws c).1 -> exists w, w ∈ ws /\ shown x w.
Proof.
  revert c. induction ws as [|w ws IH]; intros c; [by intros ?%elem_of_nil|]. cbn [walk]. cbv zeta.
  assert (x ∈ page_rows w.1 c limit w.2 -> exists w', w' ∈ w :: ws /\ shown x w') as Hp.
  { intros (Hx & HP & _)%page_rows_elem. exists w. split; [by left|done]. }
  destruct (nextPosition _ _) as [c'|].
  - specialize (IH (Some c')). destruct (walk limit ws _) as [ps ended]. cbn [fst concat]. intros [Hx|Hx]%elem_of_app; [by apply Hp|].
    destruct (IH Hx) as (w' & Hw' & H'). exists w'. split; [by right|done].
  - cbn [fst concat]. by rewrite app_nil_r.
Qed.

(** A row every request sees is served. *)
Lemma walk_complete limit ws c x : (1 <= limit <= MaxLimit)%Z -> (walk limit ws c).2 = true ->
  Forall (shown x) ws -> after c x = true -> x ∈ concat (walk limit ws c).1.
Proof.
  intros Hl. revert c. induction ws as [|w ws IH]; intros c; [done|]. cbn [walk]. cbv zeta. intros He Hx Ha.
  apply Forall_cons in Hx as [[Hx HP] Hxs]. destruct (nextPosition _ _) as [c'|] eqn:En.
  - destruct (next_page w.1 c limit w.2 c' Hl En) as (_ & r & _ & _ & _ & Hrest). specialize (IH (Some c')).
    destruct (walk limit ws (Some c')) as [ps ended]. cbn [fst snd concat] in *. apply elem_of_app.
    destruct (Hrest x Hx HP Ha) as [H|H]; [by left|right]. by apply IH.
  - cbn [fst concat]. rewrite app_nil_r. by apply last_page.
Qed.

(** A walk over a table of [n] rows past the cursor ends within [n / limit + 1] pages. *)
Lemma walk_ends P limit t c k : (1 <= limit <= MaxLimit)%Z ->
  (length (filter (fun x => after c x = true) (listing key P 0 t)) < k * Z.to_nat limit)%nat ->
  (walk limit (replicate k (P, t)) c).2 = true.
Proof.
  intros Hl. revert c. induction k as [|k IH]; intros c Hk; [lia|]. cbn [replicate walk fst snd]. cbv zeta.
  destruct (nextPosition _ _) as [c'|] eqn:En; [|done].
  destruct (next_page P c limit t c' Hl En) as (Hlen & r & Er & -> & _ & Hrest). specialize (IH (Some (CursorPosition r))).
  destruct (walk limit (replicate k (P, t)) _) as [ps ended]. cbn [fst snd] in *. apply IH.
  pose proof (page_rows_take P c limit t) as Et. destruct (clampLimit_range limit) as [_ Ec]. rewrite Ec in Et by done.
  set (l := filter (fun x => after c x = true) _) in *. set (l' := filter (fun x => after (Some _) x = true) _).
  assert (l' = drop (Z.to_nat limit) l) as ->; [|rewrite length_drop; rewrite Et, length_take in Hlen; lia].
  assert (StronglySorted above l) as Hsl by apply strict_filter, listing_strict.
  apply strict_unique; [apply strict_filter, listing_strict| |].
  { rewrite <- (take_drop (Z.to_nat limit) l) in Hsl. by eapply StronglySorted_app_1_r. }
  assert (r ∈ take (Z.to_nat limit) l) as Hr.
  { rewrite <- Et. apply last_Some in Er as [l0 E0]. rewrite E0. apply elem_of_app. right. by apply list_elem_of_singleton. }
  intros x. unfold l'. rewrite list_elem_of_filter. split.
  - intros [Ha Hx]. apply listing_all in Hx as [Hx HP].
    assert (after c x = true) as Hc.
    { apply (after_above r); [|done]. pose proof (elem_of_sublist _ _ _ Hr (sublist_take _ _)) as Hr'. by apply list_elem_of_filter in Hr' as [? _]. }
    assert (x ∈ l) as Hin by (apply list_elem_of_filter; split; [done|by apply listing_all]).
    rewrite <- (take_drop (Z.to_nat limit) l) in Hin. apply elem_of_app in Hin as [Hin|Hin]; [exfalso|done].
    rewrite <- Et in Hin. apply last_Some in Er as [l0 E0]. rewrite E0 in Hin. pose proof (page_rows_strict P c limit t) as Hs.
    rewrite E0 in Hs. apply elem_of_app in Hin as [Hin|Hin%list_elem_of_singleton].
    + eapply above_irrefl. etransitivity; [|exact Ha]. eapply (StronglySorted_app_1_elem_of above _ _ _ _ Hs); [exact Hin|by apply list_elem_of_singleton].
    + subst x. by eapply above_irrefl.
  - intros Hx. rewrite <- (take_drop (Z.to_nat limit) l) in Hsl. split.
    + exact (StronglySorted_app_1_elem_of above _ _ _ _ Hsl Hr Hx).
    + pose proof (elem_of_sublist _ _ _ Hx (sublist_drop _ _)) as Hx'. by apply list_elem_of_filter in Hx' as [_ ?].
Qed.

Lemma walk_whole P limit t k : (1 <= limit <= MaxLimit)%Z -> (length (listing key P 0 t) < k * Z.to_nat limit)%nat ->
  concat (walk limit (replicate k (P, t)) None).1 = listing key P 0 t.
Proof.
  intros Hl Hk. assert ((walk limit (replicate k (P, t)) None).2 = true) as He.
  { apply walk_ends; [done|]. eapply Nat.le_lt_trans; [|exact Hk]. apply length_filter. }
  apply strict_unique; [by apply walk_descends|apply listing_strict|]. intros x. rewrite listing_all. split.
  - intros (w & Hw & Hx)%walk_sound. by apply elem_of_replicate in Hw as [-> _].
  - intros [Hx HP]. apply walk_complete; [done..| |done]. by apply Forall_replicate.
Qed.
End Keyset.
