(* ===== verification/Listings.v ===== *)
(** * The filtered listings (internal/store/queries.go, internal/store/operations.go)

    Each query is a record of the caller's filters, and its WHERE clause a test on rows
    that may look at other tables; the statement's ORDER BY and LIMIT are those of
    [Pages.v].  A filter at its zero value is not applied.  Full-text search is SQLite's
    FTS5 and is not modelled. *)

From S2P Require Import Prelude Delivery Ids Operations Errors GoStrings Messages Capability Encoding Cursor Patterns Pages.

Definition EndpointConversations : string := "conversations.list".
Definition EndpointMessages : string := "messages.list".
Definition EndpointSearch : string := "search.messages".
Definition EndpointContacts : string := "contacts.list".
Definition EndpointOperations : string := "operations.list".
Definition EndpointAudit : string := "audit.list".

(** The status of an operation as a text column. *)
Definition OperationStatus_string (s : OperationStatus) : string :=
  match s with
  | OpRunning => "running" | OpSucceeded => "succeeded" | OpPending => "pending"
  | OpFailed => "failed" | OpUnknown => "unknown"
  end.

Inductive QueryError : Type := ErrNoAccountPredicate.

(** A text filter, applied when it is not empty; an optional filter, when given. *)
Definition if_given (v : string) (P : bool) : bool := bool_decide (v = EmptyString) || P.
Definition if_some {A} (v : option A) (P : A -> bool) : bool := match v with Some a => P a | None => true end.

Definition exists_row {V} (P : string -> V -> bool) (t : gmap string V) : bool :=
  existsb (fun x => P x.1 x.2) (map_to_list t).

(** ** Conversations *)

Record ConversationQuery := mkConversationQuery {
  cq_AccountID : string;
  cq_AllAccounts : bool;
  cq_Query : string;
  cq_ParticipantPhone : string;
  cq_ParticipantID : string;
  cq_Folder : string;
  cq_Type : string;
  cq_UnreadOnly : bool;
  cq_GroupOnly : option bool;
  cq_PinnedOnly : bool;
  cq_AfterMS : option Z;
  cq_BeforeMS : option Z;
  cq_IncludeDeleted : bool;
  cq_Cursor : option Cursor;
  cq_Limit : Z;
}.

Definition contains (pattern : string) (column : option string) : bool :=
  like_column (Some BACKSLASH) pattern column.

Definition conversation_text (db : DB) (query : string) (x : string * ConversationRow) : bool :=
  let pattern := likeContains query in
  contains pattern (cv_name x.2) ||
  exists_row (fun _ p => bool_decide (pt_conversation_id p = x.1) &&
    (contains pattern (pt_display_name p) || contains pattern (pt_phone_e164 p) ||
     contains pattern (pt_formatted_number p))) (db_participants db).

Definition conversation_participant (db : DB) (q : ConversationQuery) (x : string * ConversationRow) : bool :=
  if negb (bool_decide (cq_ParticipantID q = EmptyString)) then
    exists_row (fun id p => bool_decide (pt_conversation_id p = x.1) && bool_decide (id = cq_ParticipantID q))
      (db_participants db)
  else if negb (bool_decide (cq_ParticipantPhone q = EmptyString)) then
    exists_row (fun _ p =>
      (if bool_decide (cq_AccountID q = EmptyString) then true else bool_decide (pt_account_id p = cq_AccountID q)) &&
      bool_decide (pt_conversation_id p = x.1) && phone_matches (cq_ParticipantPhone q) (pt_phone_e164 p))
      (db_participants db)
  else true.

(** [ConversationQuery.sql], its WHERE clause but the cursor's. *)
Definition conversation_where (db : DB) (q : ConversationQuery) (x : string * ConversationRow) : bool :=
  let c := x.2 in
  if_given (cq_AccountID q) (bool_decide (cv_account_id c = cq_AccountID q)) &&
  (cq_IncludeDeleted q || bool_decide (cv_deleted_at_ms c = None)) &&
  if_given (cq_Folder q) (bool_decide (cv_folder c = cq_Folder q)) &&
  if_given (cq_Type q) (bool_decide (ConversationType_string (cv_conversation_type c) = cq_Type q)) &&
  (negb (cq_UnreadOnly q) || cv_unread c) &&
  if_some (cq_GroupOnly q) (fun g => eqb (cv_is_group c) g) &&
  (negb (cq_PinnedOnly q) || cv_pinned c) &&
  if_some (cq_AfterMS q) (fun ms => (ms <=? cv_last_activity_ms c)%Z) &&
  if_some (cq_BeforeMS q) (fun ms => (cv_last_activity_ms c <=? ms)%Z) &&
  if_given (cq_Query q) (conversation_text db (cq_Query q) x) &&
  conversation_participant db q x.

Definition ListConversations (q : ConversationQuery) (db : DB) : Result QueryError (list (string * ConversationRow)) :=
  if bool_decide (cq_AccountID q = EmptyString) && negb (cq_AllAccounts q) then Err ErrNoAccountPredicate
  else Ok (page_rows cv_last_activity_ms (conversation_where db q) (cq_Cursor q) (cq_Limit q) (db_conversations db)).

(** ** Messages *)

Record MessageQuery := mkMessageQuery {
  mq_AccountID : string;
  mq_AllAccounts : bool;
  mq_ConversationID : string;
  mq_Direction : string;
  mq_SenderMe : bool;
  mq_SenderParticipantID : string;
  mq_SenderPhone : string;
  mq_AfterMS : Z;
  mq_BeforeMS : Z;
  mq_HasAttachment : option bool;
  mq_DeliveryState : string;
  mq_IncludeSystem : bool;
  mq_Cursor : option Cursor;
  mq_Limit : Z;
}.

(** [m.sender_participant IN (SELECT p.id FROM participants p WHERE P)]; a NULL sender
    is in no set. *)
Definition sender_in (db : DB) (P : ParticipantRow -> bool) (m : MessageRow) : bool :=
  match ms_sender_participant m with
  | None => false
  | Some s => exists_row (fun id p => bool_decide (id = s) && P p) (db_participants db)
  end.

Definition message_sender (db : DB) (q : MessageQuery) (m : MessageRow) : bool :=
  let in_account p := if bool_decide (mq_AccountID q = EmptyString) then true
                      else bool_decide (pt_account_id p = mq_AccountID q) in
  if negb (bool_decide (mq_SenderParticipantID q = EmptyString)) then
    bool_decide (ms_sender_participant m = Some (mq_SenderParticipantID q))
  else if mq_SenderMe q then sender_in db (fun p => in_account p && pt_is_me p) m
  else if negb (bool_decide (mq_SenderPhone q = EmptyString)) then
    sender_in db (fun p => in_account p && phone_matches (mq_SenderPhone q) (pt_phone_e164 p)) m
  else true.

Definition has_attachment (db : DB) (id : string) : bool :=
  exists_row (fun _ a => bool_decide (at_message_id a = id)) (db_attachments db).

(** [MessageQuery.where]. *)
Definition message_where (db : DB) (q : MessageQuery) (x : string * MessageRow) : bool :=
  let m := x.2 in
  if_given (mq_AccountID q) (bool_decide (ms_account_id m = mq_AccountID q)) &&
  if_given (mq_ConversationID q) (bool_decide (ms_conversation_id m = mq_ConversationID q)) &&
  (mq_IncludeSystem q || negb (bool_decide (ms_kind m = MessageKindSystem))) &&
  if_given (mq_Direction q) (bool_decide (Direction_string (ms_direction m) = mq_Direction q)) &&
  if_given (mq_DeliveryState q) (bool_decide (DeliveryState_string (ms_delivery_state m) = mq_DeliveryState q)) &&
  message_sender db q m &&
  (negb (0 <? mq_AfterMS q)%Z || (mq_AfterMS q <=? ms_sent_at_ms m)%Z) &&
  (negb (0 <? mq_BeforeMS q)%Z || (ms_sent_at_ms m <=? mq_BeforeMS q)%Z) &&
  if_some (mq_HasAttachment q) (fun b => eqb (has_attachment db x.1) b).

Definition ListMessages (q : MessageQuery) (db : DB) : Result QueryError (list (string * MessageRow)) :=
  if bool_decide (mq_AccountID q = EmptyString) && bool_decide (mq_ConversationID q = EmptyString) &&
     negb (mq_AllAccounts q) then Err ErrNoAccountPredicate
  else Ok (page_rows ms_sent_at_ms (message_where db q) (mq_Cursor q) (mq_Limit q) (db_messages db)).

(** ** The neighbourhood of a message *)

Record MessageContext := mkMessageContext {
  mc_Before : list (string * MessageRow);
  mc_Message : string * MessageRow;
  mc_After : list (string * MessageRow);
}.

(** [sent_at_ms > ? OR (sent_at_ms = ? AND id > ?)]. *)
Definition newer (c : Cursor) (x : string * MessageRow) : bool :=
  (cu_SentAtMS c <? ms_sent_at_ms x.2)%Z || ((ms_sent_at_ms x.2 =? cu_SentAtMS c)%Z && text_lt (cu_ID c) x.1).

Definition in_context (conversationID : string) (includeSystem : bool) (x : string * MessageRow) : bool :=
  bool_decide (ms_conversation_id x.2 = conversationID) &&
  (includeSystem || negb (bool_decide (ms_kind x.2 = MessageKindSystem))).

Definition MessageContextAround (messageID : string) (before after_n : Z) (includeSystem : bool) (db : DB)
    : Result StoreError MessageContext :=
  match db_messages db !! messageID with
  | None => Err ErrNotFound
  | Some m =>
      let at_m := CursorPosition ms_sent_at_ms (messageID, m) in
      let here := in_context (ms_conversation_id m) includeSystem in
      Ok (mkMessageContext
        (listing ms_sent_at_ms (fun x => here x && after ms_sent_at_ms (Some at_m) x)
           (Z.to_nat (clampContext before)) (db_messages db))
        (messageID, m)
        (take (Z.to_nat (clampContext after_n))
           (reverse (listing ms_sent_at_ms (fun x => here x && newer at_m x) 0 (db_messages db)))))
  end.

(** ** Contacts *)

Record ContactQuery := mkContactQuery {
  ctq_AccountID : string;
  ctq_AllAccounts : bool;
  ctq_Query : string;
  ctq_Top : bool;
  ctq_Cursor : option Cursor;
  ctq_Limit : Z;
}.

Definition contact_where (q : ContactQuery) (x : string * ContactRow) : bool :=
  let c := x.2 in
  if_given (ctq_AccountID q) (bool_decide (ct_account_id c = ctq_AccountID q)) &&
  (negb (ctq_Top q) || ct_is_top c) &&
  if_given (ctq_Query q)
    (contains (likeContains (ctq_Query q)) (ct_display_name c) || contains (likeContains (ctq_Query q)) (ct_phone_e164 c)).

Definition ListContacts (q : ContactQuery) (db : DB) : Result QueryError (list (string * ContactRow)) :=
  if bool_decide (ctq_AccountID q = EmptyString) && negb (ctq_AllAccounts q) then Err ErrNoAccountPredicate
  else Ok (page_rows ct_updated_at_ms (contact_where q) (ctq_Cursor q) (ctq_Limit q) (db_contacts db)).

(** [Contact] and [ResolveParticipant]: a part_ ID, or a number.  [None] is the error. *)
Definition ResolveParticipant `{UUID} (raw : string) (db : DB) : Result StoreError (string * string) :=
  if HasPrefix raw PrefixParticipant then Ok (raw, EmptyString)
  else if HasPrefix raw PrefixContact then
    match db_contacts db !! raw with
    | None => Err ErrNotFound
    | Some c => Ok (EmptyString, scanString (ct_phone_e164 c))
    end
  else Ok (EmptyString, raw).

(** ** Operations *)

Record OperationQuery := mkOperationQuery {
  oq_AuthorizationID : string;
  oq_AllAccounts : bool;
  oq_AccountID : string;
  oq_Kind : string;
  oq_Status : string;
  oq_Terminal : option bool;
  oq_AfterMS : Z;
  oq_BeforeMS : Z;
  oq_Cursor : option Cursor;
  oq_Limit : Z;
}.

Definition operation_where (q : OperationQuery) (x : string * OperationRow) : bool :=
  let o := x.2 in
  if_given (oq_AuthorizationID q) (bool_decide (op_authorization_id o = oq_AuthorizationID q)) &&
  if_given (oq_AccountID q) (bool_decide (op_account_id o = oq_AccountID q)) &&
  if_given (oq_Kind q) (bool_decide (op_kind o = oq_Kind q)) &&
  if_given (oq_Status q) (bool_decide (OperationStatus_string (op_status o) = oq_Status q)) &&
  if_some (oq_Terminal q) (fun b => eqb (op_terminal o) b) &&
  (negb (0 <? oq_AfterMS q)%Z || (oq_AfterMS q <=? op_created_at_ms o)%Z) &&
  (negb (0 <? oq_BeforeMS q)%Z || (op_created_at_ms o <=? oq_BeforeMS q)%Z).

Definition ListOperations (q : OperationQuery) (t : ops_table) : Result QueryError (list (string * OperationRow)) :=
  if bool_decide (oq_AccountID q = EmptyString) && negb (oq_AllAccounts q) then Err ErrNoAccountPredicate
  else Ok (page_rows op_created_at_ms (operation_where q) (oq_Cursor q) (oq_Limit q) t).

(** ** The context of a message is a window of its thread *)

Lemma newer_above (x y : string * MessageRow) : newer (CursorPosition ms_sent_at_ms x) y = true <-> above ms_sent_at_ms y x.
Proof.
  unfold newer, above, after, CursorPosition. cbn [cu_SentAtMS cu_ID].
  rewrite !orb_true_iff, !andb_true_iff, !Z.ltb_lt, !Z.eqb_eq. naive_solver.
Qed.

Lemma in_split {A} (l1 l2 : list A) x y : y ∈ l1 ++ x :: l2 <-> y ∈ l1 \/ y = x \/ y ∈ l2.
Proof. by rewrite elem_of_app, elem_of_cons. Qed.

Lemma strict_around {V} (pos : V -> Z) l1 x l2 : StronglySorted (above pos) (l1 ++ x :: l2) ->
  (forall y, y ∈ l1 ++ x :: l2 -> (y ∈ l1 <-> above pos y x) /\ (y ∈ l2 <-> above pos x y)).
Proof.
  intros Hs y Hy. pose proof Hs as Hs'. apply StronglySorted_app in Hs as (Hc & H1 & H2).
  apply StronglySorted_inv in H2 as [H2 Hx]. rewrite Forall_forall in Hx.
  assert (forall z, z ∈ l1 -> above pos z x) as Ha by (intros z Hz; apply Hc; [done|by left]).
  apply in_split in Hy. split; (split; [by auto|intros Hyx]).
  - destruct Hy as [?|[->|Hy]]; [done|by apply above_irrefl in Hyx|]. exfalso. apply (above_irrefl pos x).
    etransitivity; [by apply Hx|done].
  - destruct Hy as [Hy|[->|?]]; [|by apply above_irrefl in Hyx|done]. exfalso. apply (above_irrefl pos x).
    etransitivity; [exact Hyx|by apply Ha].
Qed.

(** The context of a message is a window of its thread.
    On success the message is the one asked for, and the thread's listing (its messages,
    system events left out unless asked for, the message itself kept) is: some newer
    ones, the After part newest first, the message, the Before part, some older ones.
    Each part is as long as its clamped bound (between 1 and 100) or reaches the end of
    the thread.  Without such a message the answer is not found. *)
Theorem context_window id b a includeSystem db :
  match MessageContextAround id b a includeSystem db with
  | Err e => e = ErrNotFound /\ db_messages db !! id = None
  | Ok c => exists m pre post, mc_Message c = (id, m) /\ db_messages db !! id = Some m /\
      listing ms_sent_at_ms (fun x => in_context (ms_conversation_id m) includeSystem x || bool_decide (x.1 = id)) 0 (db_messages db) =
        pre ++ reverse (mc_After c) ++ (id, m) :: mc_Before c ++ post /\
      (length (mc_Before c) = Z.to_nat (clampContext b) \/ post = []) /\
      (length (mc_After c) = Z.to_nat (clampContext a) \/ pre = []) /\
      (length (mc_Before c) <= Z.to_nat (clampContext b))%nat /\ (length (mc_After c) <= Z.to_nat (clampContext a))%nat
  end.
Proof.
  unfold MessageContextAround. destruct (db_messages db !! id) as [m|] eqn:Em; [|done]. cbn [mc_Message mc_Before mc_After].
  set (P := fun x : string * MessageRow => in_context (ms_conversation_id m) includeSystem x || bool_decide (x.1 = id)).
  pose proof (clampContext_range b) as Hb. pose proof (clampContext_range a) as Ha.
  pose proof (listing_strict ms_sent_at_ms P 0 (db_messages db)) as Hs.
  assert ((id, m) ∈ listing ms_sent_at_ms P 0 (db_messages db)) as Hin.
  { apply listing_all. split; [done|]. unfold P. cbn [fst]. rewrite bool_decide_eq_true_2 by done. apply orb_true_r. }
  assert (forall x, x ∈ listing ms_sent_at_ms P 0 (db_messages db) -> x <> (id, m) ->
    db_messages db !! x.1 = Some x.2 /\ in_context (ms_conversation_id m) includeSystem x = true) as HP.
  { intros [i r] [Hx HPx]%listing_all Hne. split; [done|]. unfold P in HPx. apply orb_true_iff in HPx as [?|Hi]; [done|].
    bool_to_prop. cbn [fst snd] in *. subst i. rewrite Em in Hx. by injection Hx as <-. }
  apply list_elem_of_split in Hin as (l1 & l2 & El). rewrite El in *. pose proof (strict_around _ _ _ _ Hs) as Hpos.
  pose proof Hs as Hs0. apply StronglySorted_app in Hs0 as (_ & Hs1 & [Hs2 _]%StronglySorted_inv).
  assert (forall Q l, StronglySorted (above ms_sent_at_ms) l -> Q (id, m) = false ->
    (forall x, x ∈ l <-> (x ∈ l1 ++ (id, m) :: l2 /\ Q x = true)) ->
    listing ms_sent_at_ms (fun x => in_context (ms_conversation_id m) includeSystem x && Q x) 0 (db_messages db) = l) as Hpart.
  { intros Q l Hl HQm Hx. apply (strict_unique ms_sent_at_ms); [apply listing_strict|done|].
    intros x. rewrite Hx, listing_all, andb_true_iff. split.
    - intros (Hm & Hc & HQ). split; [|done]. rewrite <- El. apply listing_all. split; [done|]. unfold P. by rewrite Hc.
    - intros [Hi HQ]. destruct (HP x Hi) as [? ?]; [intros ->; congruence|done]. }
  assert (forall x, x ∈ l2 -> x ∈ l1 ++ (id, m) :: l2) as Hin2 by (intros x ?; apply in_split; auto).
  assert (forall x, x ∈ l1 -> x ∈ l1 ++ (id, m) :: l2) as Hin1 by (intros x ?; apply in_split; auto).
  assert (forall x, x ∈ l2 <-> (x ∈ l1 ++ (id, m) :: l2 /\ after ms_sent_at_ms (Some (CursorPosition ms_sent_at_ms (id, m))) x = true)) as Hafter.
  { intros x. split; [intros Hx; split; [by apply Hin2|]; by apply (Hpos x (Hin2 x Hx))|]. intros [Hx Hax]. by apply (Hpos x Hx). }
  assert (forall x, x ∈ l1 <-> (x ∈ l1 ++ (id, m) :: l2 /\ newer (CursorPosition ms_sent_at_ms (id, m)) x = true)) as Hnewer.
  { intros x. rewrite newer_above. split; [intros Hx; split; [by apply Hin1|]; by apply (Hpos x (Hin1 x Hx))|]. intros [Hx Hax]. by apply (Hpos x Hx). }
  rewrite (Hpart (newer (CursorPosition ms_sent_at_ms (id, m))) l1 Hs1); [|apply not_true_iff_false; rewrite newer_above; apply above_irrefl|exact Hnewer].
  rewrite listing_limit by lia.
  rewrite (Hpart (after ms_sent_at_ms (Some (CursorPosition ms_sent_at_ms (id, m)))) l2 Hs2);
    [|apply not_true_iff_false; apply above_irrefl|exact Hafter].
  exists m, (reverse (drop (Z.to_nat (clampContext a)) (reverse l1))), (drop (Z.to_nat (clampContext b)) l2).
  split_and!; [done|done| | | |rewrite length_take; lia..].
  - rewrite take_drop, app_assoc, <- reverse_app, take_drop, reverse_involutive. done.
  - rewrite length_take. destruct (decide (Z.to_nat (clampContext b) <= length l2)%nat); [left; lia|right; apply drop_ge; lia].
  - rewrite length_take. destruct (decide (Z.to_nat (clampContext a) <= length (reverse l1))%nat); [left; lia|right].
    rewrite drop_ge by lia. done.
Qed.
