(* ===== verification/Scoping.v ===== *)
(** * Accounts in the listings (internal/store/queries.go, internal/store/messages.go)

    The participants and sender filters look into the participants table, by account in
    one form of a listing and across accounts in the other.  The two forms agree on the
    databases the program writes: [scoped] is kept by every write of it. *)

From S2P Require Import Prelude Delivery Ids Operations GoStrings Messages Encoding Cursor Patterns Pages Listings.

(** ** The account form of a listing is a part of the all-accounts form *)

(** Participants carry the account of their conversation, and a message's sender is
    derived from the message's conversation. *)
Record scoped `{UUID} (db : DB) : Prop := {
  scoped_part id p c : db_participants db !! id = Some p -> db_conversations db !! pt_conversation_id p = Some c ->
    cv_account_id c = pt_account_id p;
  scoped_sender id m s : db_messages db !! id = Some m -> ms_sender_participant m = Some s ->
    exists src, s = ParticipantID (ms_conversation_id m) src;
}.

Definition cq_everywhere (q : ConversationQuery) : ConversationQuery :=
  mkConversationQuery EmptyString true (cq_Query q) (cq_ParticipantPhone q) (cq_ParticipantID q) (cq_Folder q)
    (cq_Type q) (cq_UnreadOnly q) (cq_GroupOnly q) (cq_PinnedOnly q) (cq_AfterMS q) (cq_BeforeMS q)
    (cq_IncludeDeleted q) (cq_Cursor q) (cq_Limit q).

Definition mq_everywhere (q : MessageQuery) : MessageQuery :=
  mkMessageQuery EmptyString true (mq_ConversationID q) (mq_Direction q) (mq_SenderMe q) (mq_SenderParticipantID q)
    (mq_SenderPhone q) (mq_AfterMS q) (mq_BeforeMS q) (mq_HasAttachment q) (mq_DeliveryState q) (mq_IncludeSystem q)
    (mq_Cursor q) (mq_Limit q).

Lemma exists_row_true {V} (P : string -> V -> bool) (t : gmap string V) :
  exists_row P t = true <-> exists id r, t !! id = Some r /\ P id r = true.
Proof.
  unfold exists_row. rewrite existsb_exists. split.
  - intros ([id r] & Hin%list_elem_of_In & HP). exists id, r. by apply elem_of_map_to_list in Hin.
  - intros (id & r & Hr & HP). exists (id, r). split; [|done]. by apply list_elem_of_In, elem_of_map_to_list.
Qed.

Lemma exists_row_ext {V} (P Q : string -> V -> bool) (t : gmap string V) :
  (forall id r, t !! id = Some r -> P id r = Q id r) -> exists_row P t = exists_row Q t.
Proof.
  intros HPQ. apply eq_true_iff_eq. rewrite !exists_row_true.
  split; intros (id & r & Hr & HP); exists id, r; (split; [done|]); [rewrite <- HPQ|rewrite HPQ]; done.
Qed.

Lemma if_given_self a (P : bool) : a <> EmptyString -> if_given a P = P.
Proof. intros Ha. unfold if_given. by rewrite bool_decide_eq_false_2. Qed.

Section Forms.
Context `{UUIDLaws}.

Lemma ParticipantID_conv c1 s1 c2 s2 : nul_free c1 = true -> nul_free c2 = true ->
  ParticipantID c1 s1 = ParticipantID c2 s2 -> c1 = c2.
Proof.
  intros H1 H2 E%append_inv_head%NewSHA1_inj. unfold v5_input in E. rewrite !concat_cons2 in E.
  by apply nul_split in E as [-> _].
Qed.

Lemma conv_id_nul_free db id c : db_ok db -> db_conversations db !! id = Some c -> nul_free id = true.
Proof. intros Hok Hc. destruct (ok_conv db Hok id c Hc) as (-> & _). apply ConversationID_nul_free. Qed.

(** ** Every write keeps the scoping *)

(** The rows of a step's result come from rows of the same account and thread, or are
    new senders derived from their thread. *)
Lemma scoped_keep db db' : db_ok db -> scoped db -> db_le db db' ->
  (forall id p', db_participants db' !! id = Some p' -> exists p, db_participants db !! id = Some p /\
     pt_account_id p' = pt_account_id p /\ pt_conversation_id p' = pt_conversation_id p) ->
  (forall id m' s, db_messages db' !! id = Some m' -> ms_sender_participant m' = Some s ->
     (exists m, db_messages db !! id = Some m /\ ms_sender_participant m = Some s /\
        ms_conversation_id m = ms_conversation_id m') \/
     exists src, s = ParticipantID (ms_conversation_id m') src) ->
  scoped db'.
Proof.
  intros Hok Hs Hle Hp Hm. split.
  - intros id p' c' Hp' Hc'. destruct (Hp id p' Hp') as (p & Hp0 & Ea & Ec).
    destruct (ok_part db Hok id p Hp0) as [_ [c Hc]]. destruct (le_conv _ _ Hle _ _ Hc) as (c1 & Hc1 & Eacc & _).
    rewrite Ec, Hc1 in Hc'. injection Hc' as <-. rewrite Ea, Eacc. by eapply scoped_part.
  - intros id m' s Hm' Hsm. destruct (Hm id m' s Hm' Hsm) as [(m & Hm0 & Es & Ec)|?]; [|done].
    rewrite <- Ec. by eapply scoped_sender.
Qed.

(** A step that leaves the two tables alone. *)
Lemma scoped_same db db' : db_ok db -> scoped db -> db_le db db' ->
  db_participants db' = db_participants db -> db_messages db' = db_messages db -> scoped db'.
Proof.
  intros Hok Hs Hle Ep Em. apply (scoped_keep db); [done..| |].
  - intros id p'. rewrite Ep. by exists p'.
  - intros id m' s. rewrite Em. intros Hm Hsm. left. by exists m'.
Qed.

Lemma UpsertParticipants_scoped a conv ps db db' : db_ok db -> scoped db ->
  (ps = [] \/ exists c, db_conversations db !! conv = Some c /\ cv_account_id c = a) ->
  UpsertParticipants a conv ps db = Ok db' -> scoped db'.
Proof.
  intros Hok Hs Hown (t & Ht & (? & Hf & [= <-])%bind_Ok_inv)%bind_Ok_inv. split; [|by apply Hs].
  unfold linkParticipantContacts. cbn [set_participants db_participants db_conversations].
  intros id p' c (p & Hp & ->)%lookup_update_where_Some Hc.
  assert (forall b x, pt_account_id (if b : bool then with_contact x p else p) = pt_account_id p /\
    pt_conversation_id (if b then with_contact x p else p) = pt_conversation_id p) as Hwc by (by intros []).
  rewrite (proj1 (Hwc _ _)). rewrite (proj2 (Hwc _ _)) in Hc.
  destruct (insert_participants_rows _ _ _ _ _ Ht id p Hp) as [[Hp0 _]%lookup_delete_where_Some|(g & Hg & -> & ->)].
  - by eapply scoped_part.
  - destruct Hown as [->|(c' & Hc' & <-)]; [by apply elem_of_nil in Hg|]. cbn [participant_row pt_conversation_id pt_account_id] in *.
    congruence.
Qed.

Lemma write_conversation_scoped now a c db db' : nul_free a = true -> nul_free (c_SourceID c) = true -> db_ok db -> scoped db ->
  write_conversation now a c db = Ok db' ->
  scoped db' /\ exists r, db_conversations db' !! ConversationID a (c_SourceID c) = Some r /\ cv_account_id r = a.
Proof.
  intros Ha Hcs Hok Hs Hw. destruct (write_conversation_good _ _ _ _ _ Ha Hcs Hok Hw) as [[Hok' Hle] [r Hr]]. split.
  - unfold write_conversation in Hw. destruct (db_conversations db !! _) as [old|] eqn:E.
    + injection Hw as <-. by apply (scoped_same db).
    + apply bind_Ok_inv in Hw as ([] & _ & (? & _ & [= <-])%bind_Ok_inv). by apply (scoped_same db).
  - exists r. split; [done|]. destruct (ok_conv db' Hok' _ r Hr) as (E & Hn1 & Hn2 & _). by apply ConversationID_inj in E as [-> _].
Qed.

Lemma UpsertConversation_scoped now a c db db' id : nul_free a = true -> nul_free (c_SourceID c) = true -> db_ok db -> scoped db ->
  UpsertConversation now a c db = Ok (db', id) -> scoped db'.
Proof.
  intros Ha Hcs Hok Hs (db1 & Hw & Hps)%bind_Ok_inv.
  destruct (write_conversation_scoped _ _ _ _ _ Ha Hcs Hok Hs Hw) as [Hs1 Hown].
  destruct (write_conversation_good _ _ _ _ _ Ha Hcs Hok Hw) as [[Hok1 _] _].
  destruct (c_Participants c) as [|p ps]; [by injection Hps as <- _|].
  apply bind_Ok_inv in Hps as (db2 & Hps & [= <- _]).
  eapply (UpsertParticipants_scoped _ _ _ db1); [done|done| |exact Hps]. by right.
Qed.

Lemma sender_of_derived a cs m s : nullString (sender_of a cs m) = Some s ->
  s = ParticipantID (ConversationID a cs) (m_ParticipantID m).
Proof. unfold sender_of, nullString. case_decide; case_decide; congruence. Qed.

Lemma UpsertMessage_scoped now a cs m db db' res :
  nul_free a = true -> nul_free cs = true -> nul_free (m_SourceID m) = true -> db_ok db -> scoped db ->
  UpsertMessage now a cs m db = Ok (db', res) -> scoped db'.
Proof.
  intros Ha Hcs Hms Hok Hs Hu. destruct (UpsertMessage_good _ _ _ _ _ _ _ Ha Hcs Hms Hok Hu) as [_ Hle].
  unfold UpsertMessage in Hu. destruct (db_messages db !! _) as [old|] eqn:E.
  - destruct (_ && _); [by injection Hu as <- _|]. rewrite update_message_ok in Hu. injection Hu as <- _.
    apply (scoped_keep db); [done..| |]; [intros id p' Hp'; by exists p'|]. intros id m' s. cbn [set_messages db_messages].
    intros [[<- <-]|[_ Hm]]%lookup_insert_Some Hsm; [|left; by exists m'].
    cbn [message_update ms_sender_participant ms_conversation_id] in *.
    destruct (nullString (sender_of a cs m)) as [s'|] eqn:En; cbn [coalesce] in Hsm.
    + injection Hsm as <-. right. destruct (ok_msg db Hok _ old E) as ((cs0 & Ec & Eid & Hn1 & Hn2 & Hn3) & _).
      apply MessageID_inj in Eid as (-> & -> & _); [|done..]. rewrite Ec. eexists. by apply sender_of_derived.
    + left. by exists old.
  - apply bind_Ok_inv in Hu as ([] & _ & (? & _ & [= <- _])%bind_Ok_inv).
    apply (scoped_keep db); [done..| |]; [intros id p' Hp'; by exists p'|]. intros id m' s. cbn [set_messages db_messages].
    intros [[<- <-]|[_ Hm]]%lookup_insert_Some Hsm; [|left; by exists m'].
    right. cbn [message_values ms_sender_participant ms_conversation_id] in *. eexists. by apply sender_of_derived.
Qed.

Lemma UpsertAttachment_scoped a msg att key state db db' id : db_ok db -> scoped db -> nul_free msg = true ->
  UpsertAttachment a msg att key state db = Ok (db', id) -> scoped db'.
Proof.
  intros Hok Hs Hmsg Hu. pose proof (UpsertAttachment_good _ _ _ _ _ _ _ _ Hmsg Hok Hu) as [_ Hle].
  unfold UpsertAttachment in Hu. destruct (db_attachments db !! _); [injection Hu as <- _; by apply (scoped_same db)|].
  apply bind_Ok_inv in Hu as ([] & _ & (? & _ & [= <- _])%bind_Ok_inv). by apply (scoped_same db).
Qed.

Lemma update_where_keep {V} (P : V -> bool) (f : V -> V) (t : gmap string V) k r' : update_where P f t !! k = Some r' ->
  exists r, t !! k = Some r /\ (r' = r \/ r' = f r).
Proof. intros (r & Hr & ->)%lookup_update_where_Some. exists r. split; [done|]. destruct (P r); auto. Qed.

(** A participant is its conversation's account's, and a sender is its thread's.
    Every write of the store keeps this, but a participant replacement addressed to a
    conversation of another account, a call only [UpsertConversation] makes, with the
    account the conversation is written under. *)
Theorem scoped_step db db' : db_ok db -> scoped db -> MsgStep db db' ->
  scoped db' \/ exists a conv ps, ps <> [] /\ UpsertParticipants a conv ps db = Ok db' /\
    forall c, db_conversations db !! conv = Some c -> cv_account_id c <> a.
Proof.
  intros Hok Hs Hstep. pose proof (msg_step_good _ _ Hok Hstep) as [Hok' Hle].
  destruct Hstep as [a _|now a c db' id Ha Hc Hu|now a c h db' id Ha Hc Hu|a conv ps db' Hu|a|now a cs m db' res Ha Hcs Hm Hu|msg op|
    now conv latest act|a msg att key state db' id Hmsg Hu|msg size|att state sha|now conv msg me rs db' _ Hu].
  - left. by apply (scoped_same db).
  - left. by eapply UpsertConversation_scoped; [..|exact Hu].
  - left. unfold UpsertContact in Hu. destruct (db_contacts db !! _); [injection Hu as <- _; by apply (scoped_same db)|].
    apply bind_Ok_inv in Hu as ([] & _ & (? & _ & [= <- _])%bind_Ok_inv). by apply (scoped_same db).
  - destruct ps as [|p ps]; [left; eapply UpsertParticipants_scoped; [..|exact Hu]; auto|].
    destruct (db_conversations db !! conv) as [c|] eqn:Ec.
    + destruct (decide (cv_account_id c = a)) as [Ea|Ea].
      * left. eapply UpsertParticipants_scoped; [..|exact Hu]; [done|done|]. right. by exists c.
      * right. exists a, conv, (p :: ps). split_and!; [done|done|]. intros c' Hc'. congruence.
    + right. exists a, conv, (p :: ps). split_and!; [done|done|]. congruence.
  - left. apply (scoped_keep db); [done..| |]; [|intros id m s Hm Hsm; left; by exists m].
    intros id p' (p & Hp & [-> | ->])%update_where_keep; by exists p.
  - left. by eapply UpsertMessage_scoped; [..|exact Hu].
  - left. apply (scoped_keep db); [done..| |]; unfold LinkMessageOperation.
    + intros id p' Hp'. exists p'. revert Hp'. by repeat case_match.
    + intros id m' s Hm Hsm. left. revert Hm. destruct (_ || _); [by exists m'|].
      destruct (db_messages db !! msg) as [r|] eqn:Er; [|by exists m']. destruct (ms_operation_id r); [by exists m'|].
      cbn [set_messages db_messages]. intros [[<- <-]|[_ Hm]]%lookup_insert_Some; [|by exists m']. by eexists.
  - left. apply (scoped_same db); [done..| |]; unfold BumpConversationActivity; by case_match.
  - left. by eapply UpsertAttachment_scoped; [..|exact Hu].
  - left. apply (scoped_same db); [done..| |]; unfold FillMissingAttachmentSize; by case_match.
  - left. apply (scoped_same db); [done..| |]; unfold SetAttachmentDownloadState; by case_match.
  - left. apply bind_Ok_inv in Hu as (t & _ & (? & _ & [= <-])%bind_Ok_inv). by apply (scoped_same db).
Qed.

(** ** The filters by account *)

(** The participants a conversation's filters look at are of its account. *)
Lemma conversation_participant_account db q x : scoped db -> db_conversations db !! x.1 = Some x.2 ->
  cv_account_id x.2 = cq_AccountID q -> conversation_participant db q x = conversation_participant db (cq_everywhere q) x.
Proof.
  intros Hs Hx Ha. unfold conversation_participant. cbn [cq_everywhere cq_ParticipantID cq_ParticipantPhone cq_AccountID].
  destruct (negb _); [done|]. destruct (negb _); [|done]. apply exists_row_ext. intros id p Hp.
  destruct (bool_decide (pt_conversation_id p = x.1)) eqn:Ec; [|by rewrite !andb_false_r]. bool_to_prop.
  rewrite (bool_decide_eq_true_2 (EmptyString = EmptyString)) by done. rewrite <- Ec in Hx.
  rewrite <- Ha, (scoped_part db Hs id p _ Hp Hx). rewrite (bool_decide_eq_true_2 (pt_account_id p = pt_account_id p)) by done.
  by destruct (bool_decide _).
Qed.

Lemma sender_in_account db (P Q : ParticipantRow -> bool) id m : db_ok db -> scoped db -> db_messages db !! id = Some m ->
  (forall p, pt_account_id p = ms_account_id m -> P p = Q p) -> sender_in db P m = sender_in db Q m.
Proof.
  intros Hok Hs Hm HPQ. unfold sender_in. destruct (ms_sender_participant m) as [s|] eqn:Es; [|done].
  apply exists_row_ext. intros i p Hp. case_bool_decide as Ei; [|done]. subst i. cbn [andb]. apply HPQ.
  destruct (scoped_sender db Hs id m s Hm Es) as [src ->]. destruct (ok_part db Hok _ p Hp) as [Eid [c Hc]].
  destruct (ok_msg db Hok id m Hm) as ((cs & Econv & _ & Hna & Hncs & _) & [c' Hc'] & _).
  apply ParticipantID_conv in Eid; [|by eapply conv_id_nul_free..]. rewrite Eid, Hc in Hc'. injection Hc' as <-.
  rewrite <- (scoped_part db Hs _ p c Hp Hc). destruct (ok_conv db Hok _ c Hc) as (Ec & Hn1 & Hn2 & _).
  rewrite <- Eid, Econv in Ec. symmetry. apply ConversationID_inj in Ec; [|done..]. by destruct Ec.
Qed.

Lemma conversation_where_account db q x : scoped db -> cq_AccountID q <> EmptyString -> db_conversations db !! x.1 = Some x.2 ->
  conversation_where db q x = conversation_where db (cq_everywhere q) x && bool_decide (cv_account_id x.2 = cq_AccountID q).
Proof.
  intros Hs Hne Hx. unfold conversation_where. cbn [cq_everywhere cq_AccountID]. rewrite (if_given_self _ _ Hne).
  case_bool_decide as Ha; [|by rewrite andb_false_r]. rewrite andb_true_r. cbn [andb].
  rewrite <- (conversation_participant_account db q x Hs Hx Ha). done.
Qed.

Lemma message_where_account db q x : db_ok db -> scoped db -> mq_AccountID q <> EmptyString -> db_messages db !! x.1 = Some x.2 ->
  message_where db q x = message_where db (mq_everywhere q) x && bool_decide (ms_account_id x.2 = mq_AccountID q).
Proof.
  intros Hok Hs Hne Hx. unfold message_where. cbn [mq_everywhere mq_AccountID]. rewrite (if_given_self _ _ Hne).
  case_bool_decide as Ha; [|by rewrite andb_false_r]. rewrite andb_true_r.
  assert (message_sender db q x.2 = message_sender db (mq_everywhere q) x.2) as Esnd.
  { unfold message_sender. cbn [mq_everywhere mq_AccountID mq_SenderParticipantID mq_SenderMe mq_SenderPhone].
    destruct (negb _); [done|]. rewrite (bool_decide_eq_false_2 (mq_AccountID q = _)) by done.
    rewrite (bool_decide_eq_true_2 (EmptyString = EmptyString)) by done.
    destruct (mq_SenderMe q); [|destruct (negb _); [|done]]; apply (sender_in_account db _ _ x.1); try done;
      intros p Hp; rewrite (bool_decide_eq_true_2 (pt_account_id p = _)) by congruence; done. }
  by rewrite Esnd.
Qed.

(** The two forms of a listing agree.
    Where participants carry their conversation's account, the listing of one account
    is the all-accounts listing with the same filters, cut down to that account's rows:
    the participant, sender and "me" filters, which look into the participants table by
    account in one form and across accounts in the other, mean the same in both. *)
Theorem account_forms_agree db (cq : ConversationQuery) (mq : MessageQuery) :
  db_ok db -> scoped db -> cq_AccountID cq <> EmptyString -> mq_AccountID mq <> EmptyString ->
  listing cv_last_activity_ms (conversation_where db cq) 0 (db_conversations db) =
    filter (fun x => bool_decide (cv_account_id x.2 = cq_AccountID cq) = true)
      (listing cv_last_activity_ms (conversation_where db (cq_everywhere cq)) 0 (db_conversations db)) /\
  listing ms_sent_at_ms (message_where db mq) 0 (db_messages db) =
    filter (fun x => bool_decide (ms_account_id x.2 = mq_AccountID mq) = true)
      (listing ms_sent_at_ms (message_where db (mq_everywhere mq)) 0 (db_messages db)).
Proof.
  intros Hok Hs Hc Hm. rewrite <- !listing_filter. split.
  - apply (strict_unique cv_last_activity_ms); [apply listing_strict..|]. intros x. rewrite !listing_all.
    split; intros [Hx HP]; (split; [done|]); [rewrite <- (conversation_where_account db cq x)|rewrite (conversation_where_account db cq x)]; done.
  - apply (strict_unique ms_sent_at_ms); [apply listing_strict..|]. intros x. rewrite !listing_all.
    split; intros [Hx HP]; (split; [done|]); [rewrite <- (message_where_account db mq x)|rewrite (message_where_account db mq x)]; done.
Qed.
End Forms.

(** ** A database the program writes *)

Lemma demo_scoped : db_ok demo_db3 /\ scoped demo_db3 /\ MsgStep demo_db3 demo_db4.
Proof.
  pose proof demo_steps as [Hsteps Hlast]. pose proof (reachable_ok _ Hsteps) as Hok.
  split_and!; [done| |done].
  destruct (db_of_ok (UpsertConversation 1 "acct_1" demo_conv demo_account)) as [id1 H1]; [vm_compute; reflexivity|].
  destruct (db_of_ok (UpsertMessage 2 "acct_1" "c1" (demo_msg 1) demo_db1)) as [res2 H2]; [vm_compute; reflexivity|].
  assert (db_ok demo_account) as Hok0.
  { apply reachable_ok, rtc_once. by apply (step_account empty_db "acct_1"). }
  assert (scoped demo_account) as Hs0 by (split; intros *; cbn; by rewrite lookup_empty).
  assert (nul_free "acct_1" = true /\ nul_free (c_SourceID demo_conv) = true) as [Hn1 Hn2] by (split; reflexivity).
  pose proof (UpsertConversation_scoped _ _ _ _ _ _ Hn1 Hn2 Hok0 Hs0 H1) as Hs1.
  destruct (UpsertConversation_good _ _ _ _ _ _ Hn1 Hn2 Hok0 H1) as [Hok1 _].
  assert (scoped demo_db2) as Hs2.
  { refine (UpsertMessage_scoped 2 "acct_1" "c1" (demo_msg 1) demo_db1 demo_db2 res2 _ _ _ Hok1 Hs1 H2); reflexivity. }
  destruct (UpsertMessage_good 2 "acct_1" "c1" (demo_msg 1) demo_db1 demo_db2 res2) as [Hok2 _]; [reflexivity..|exact Hok1|exact H2|].
  destruct (db_of_ok (UpsertAttachment "acct_1" demo_msg_id (demo_thumb "") "" "pending" demo_db2)) as [id3 H3]; [vm_compute; reflexivity|].
  refine (UpsertAttachment_scoped _ _ _ _ _ demo_db2 demo_db3 id3 Hok2 Hs2 _ H3). apply MessageID_nul_free.
Qed.

Lemma scoped_step_witness : scoped demo_db4 \/ exists a conv ps, ps <> [] /\ UpsertParticipants a conv ps demo_db3 = Ok demo_db4 /\
    forall c, db_conversations demo_db3 !! conv = Some c -> cv_account_id c <> a.
Proof. destruct demo_scoped as (Hok & Hs & Hstep). exact (scoped_step demo_db3 demo_db4 Hok Hs Hstep). Defined.

(** "me" in the account form and across accounts. *)
Definition demo_mq : MessageQuery := mkMessageQuery "acct_1" false "" "" false "" "+1" 0 0 None "" false None 50.
Definition demo_cq : ConversationQuery :=
  mkConversationQuery "acct_1" false "" "+1" "" "" "" false None false None None false None 50.

Lemma account_forms_agree_witness :
  listing cv_last_activity_ms (conversation_where demo_db3 demo_cq) 0 (db_conversations demo_db3) =
    filter (fun x => bool_decide (cv_account_id x.2 = cq_AccountID demo_cq) = true)
      (listing cv_last_activity_ms (conversation_where demo_db3 (cq_everywhere demo_cq)) 0 (db_conversations demo_db3)) /\
  listing ms_sent_at_ms (message_where demo_db3 demo_mq) 0 (db_messages demo_db3) =
    filter (fun x => bool_decide (ms_account_id x.2 = mq_AccountID demo_mq) = true)
      (listing ms_sent_at_ms (message_where demo_db3 (mq_everywhere demo_mq)) 0 (db_messages demo_db3)).
Proof.
  destruct demo_scoped as (Hok & Hs & _). refine (account_forms_agree demo_db3 demo_cq demo_mq Hok Hs _ _); discriminate.
Defined.
