(* ===== verification/Times.v ===== *)
(** * Instants (package time, internal/wire/instant.go)

    An instant is its count of milliseconds from the Unix epoch.  [Parse] is Go's
    [time.Parse(time.RFC3339, s)], with what it lets through beyond RFC 3339: an hour of
    one digit, a fraction after a comma, and zone offsets up to 24:60. *)

From S2P Require Import Prelude GoStrings Encoding Patterns.

Local Open Scope Z_scope.

(** ** The calendar *)

Definition is_leap (y : Z) : bool := (y mod 4 =? 0) && (negb (y mod 100 =? 0) || (y mod 400 =? 0)).

Definition days_in (m : Z) (leap : bool) : Z :=
  if m =? 2 then (if leap then 29 else 28)
  else if (m =? 4) || (m =? 6) || (m =? 9) || (m =? 11) then 30 else 31.

(** Days from 1970-01-01 to 1 January of a year, and to the first of a month. *)
Definition days_before_year (y : Z) : Z :=
  365 * (y - 1970) + ((y - 1) / 4 - 492) - ((y - 1) / 100 - 19) + ((y - 1) / 400 - 4).

Fixpoint days_before_month (n : nat) (leap : bool) : Z :=
  match n with
  | O => 0
  | S n' => days_before_month n' leap + days_in (Z.of_nat n) leap
  end.

Definition days_of (y m d : Z) : Z :=
  days_before_year y + days_before_month (Z.to_nat (m - 1)) (is_leap y) + (d - 1).

(** The year and the day of the year, by cycles of 400, 100, 4 and 1 years. *)
Definition year_of (days : Z) : Z * Z :=
  let n := days + 719162 in
  let r := n mod 146097 in
  let b := Z.min 3 (r / 36524) in
  let r := r - 36524 * b in
  let c := r / 1461 in
  let r := r mod 1461 in
  let d := Z.min 3 (r / 365) in
  (400 * (n / 146097) + 100 * b + 4 * c + d + 1, r - 365 * d).

(** The month and the day of the month of a day of the year. *)
Fixpoint month_of (months : nat) (m yday : Z) (leap : bool) : Z * Z :=
  match months with
  | O => (m, yday + 1)
  | S months' => if yday <? days_in m leap then (m, yday + 1) else month_of months' (m + 1) (yday - days_in m leap) leap
  end.

(** ** Parsing *)

Definition digit_at (s : string) : option Z :=
  match s with String c _ => Z.of_N <$> digit_value c | EmptyString => None end.

Definition tail (s : string) : string := match s with String _ s' => s' | EmptyString => EmptyString end.

(** [getnum]: one or two digits. *)
Definition getnum (s : string) (fixed : bool) : option (Z * string) :=
  match digit_at s with
  | None => None
  | Some a =>
      match digit_at (tail s) with
      | None => if fixed then None else Some (a, tail s)
      | Some b => Some (10 * a + b, tail (tail s))
      end
  end.

Definition literal (n : Z) (s : string) : option string :=
  match s with String c s' => if byte_of c =? n then Some s' else None | EmptyString => None end.

Definition year4 (s : string) : option (Z * string) :=
  p ← getnum s true; let '(a, s1) := (p : Z * string) in
  q ← getnum s1 true; let '(b, s2) := (q : Z * string) in Some (100 * a + b, s2).

(** The fraction of a second, in nanoseconds: at most nine digits count. *)
Fixpoint frac_digits (s : string) (scale : Z) : Z * string :=
  match s with
  | String c s' =>
      match digit_value c with
      | Some v => let '(n, rest) := frac_digits s' (scale / 10) in (Z.of_N v * scale + n, rest)
      | None => (0, s)
      end
  | EmptyString => (0, EmptyString)
  end.

Definition fraction (s : string) : Z * string :=
  match s with
  | String c s' =>
      if ((byte_of c =? 46) || (byte_of c =? 44)) && negb (bool_decide (digit_at s' = None))
      then frac_digits s' 100000000 else (0, s)
  | EmptyString => (0, EmptyString)
  end.

(** The zone: [Z], or a sign and [hh:mm]; its offset in seconds. *)
Definition zone (s : string) : option (Z * string) :=
  match s with
  | EmptyString => None
  | String c s' =>
      if byte_of c =? 90 then Some (0, s')
      else
        p ← getnum s' true; let '(hr, s1) := (p : Z * string) in
        s2 ← literal 58 s1;
        q ← getnum s2 true; let '(mm, s3) := (q : Z * string) in
        if (24 <? hr) || (60 <? mm) then None
        else if byte_of c =? 43 then Some ((hr * 60 + mm) * 60, s3)
        else if byte_of c =? 45 then Some (- ((hr * 60 + mm) * 60), s3)
        else None
  end.

Definition between (lo hi n : Z) : option unit := if (lo <=? n) && (n <=? hi) then Some tt else None.

(** The instant in milliseconds, [UTC().UnixMilli()]: nanoseconds are cut off. *)
Definition Parse (s : string) : option Z :=
  y ← year4 s; let '(year, s) := (y : Z * string) in
  s ← literal 45 s;
  p ← getnum s true; let '(month, s) := (p : Z * string) in
  _ ← between 1 12 month;
  s ← literal 45 s;
  p ← getnum s true; let '(day, s) := (p : Z * string) in
  s ← literal 84 s;
  p ← getnum s false; let '(hour, s) := (p : Z * string) in
  _ ← between 0 23 hour;
  s ← literal 58 s;
  p ← getnum s true; let '(minute, s) := (p : Z * string) in
  _ ← between 0 59 minute;
  s ← literal 58 s;
  p ← getnum s true; let '(sec, s) := (p : Z * string) in
  _ ← between 0 59 sec;
  let '(nsec, s) := fraction s in
  p ← zone s; let '(offset, s) := (p : Z * string) in
  _ ← between 1 (days_in month (is_leap year)) day;
  if bool_decide (s = EmptyString) then
    Some ((days_of year month day * 86400 + hour * 3600 + minute * 60 + sec - offset) * 1000 + nsec / 1000000)
  else None.

(** ** Printing (wire.Instant) *)

Definition digit_char (n : Z) : Ascii.ascii := char_of (48 + n).
Definition two (n : Z) (s : string) : string := String (digit_char (n / 10)) (String (digit_char (n mod 10)) s).
Definition lit (n : Z) (s : string) : string := String (char_of n) s.

(** [t.UTC().Format("2006-01-02T15:04:05.000Z")]. *)
Definition Format (ms : Z) : string :=
  let days := ms / 86400000 in
  let of_day := ms mod 86400000 in
  let '(year, yday) := year_of days in
  let '(month, day) := month_of 11 1 yday (is_leap year) in
  let sec := of_day / 1000 in
  let milli := of_day mod 1000 in
  two (year / 100) (two (year mod 100) (lit 45 (two month (lit 45 (two day (lit 84 (two (sec / 3600)
    (lit 58 (two (sec / 60 mod 60) (lit 58 (two (sec mod 60) (lit 46
    (String (digit_char (milli / 100)) (two (milli mod 100) (lit 90 EmptyString))))))))))))))).

(** The zero [time.Time] is 0001-01-01T00:00:00Z. *)
Definition zero_time : Z := -62135596800000.

Definition Instant (t : Z) : string := if t =? zero_time then EmptyString else Format t.
Definition InstantPtr (t : Z) : option string := if t =? zero_time then None else Some (Instant t).
Definition InstantMS (ms : Z) : option string := if ms =? 0 then None else InstantPtr ms.

Example parse_epoch : Parse "1970-01-01T00:00:00Z" = Some 0.
Proof. reflexivity. Qed.
Example parse_instant : Parse "2026-09-06T09:41:02Z" = Some 1788687662000.
Proof. reflexivity. Qed.
Example parse_zone : Parse "2024-02-29T23:59:59.9999+01:30" = Some 1709245799999.
Proof. reflexivity. Qed.
Example parse_no_day : Parse "2023-02-29T00:00:00Z" = None.
Proof. reflexivity. Qed.
Example parse_lenient : Parse "2026-09-06T9:41:02,5Z" = Some 1788687662500.
Proof. reflexivity. Qed.

(** ** Reading back what is printed *)

Lemma digit_back n : 0 <= n < 10 -> digit_value (digit_char n) = Some (Z.to_N n).
Proof.
  intros Hn. assert (forall k, (k < 10)%nat -> digit_value (digit_char (Z.of_nat k)) = Some (N.of_nat k)) as H.
  { intros k Hk. do 10 (destruct k as [|k]; [reflexivity|]). lia. }
  specialize (H (Z.to_nat n) ltac:(lia)). rewrite Z2Nat.id in H by lia. rewrite H. f_equal. lia.
Qed.

Lemma digit_at_back n s : 0 <= n < 10 -> digit_at (String (digit_char n) s) = Some n.
Proof. intros Hn. unfold digit_at. rewrite digit_back by done. simpl. f_equal. lia. Qed.

Lemma getnum_two n s fixed : 0 <= n < 100 -> getnum (two n s) fixed = Some (n, s).
Proof.
  intros Hn. unfold getnum, two. pose proof (Z.div_mod n 10). pose proof (Z.mod_pos_bound n 10). rewrite digit_at_back by (split; [apply Z.div_pos|apply Z.div_lt_upper_bound]; lia).
  cbn [tail]. rewrite digit_at_back by lia. do 2 f_equal. lia.
Qed.

Lemma literal_lit n s : 0 <= n < 256 -> literal n (lit n s) = Some s.
Proof. intros Hn. unfold literal, lit. rewrite byte_of_char by done. by rewrite Z.eqb_refl. Qed.

Lemma year4_two a b s : 0 <= a < 100 -> 0 <= b < 100 -> year4 (two a (two b s)) = Some (100 * a + b, s).
Proof. intros Ha Hb. unfold year4. rewrite getnum_two by done. cbn [mbind option_bind]. by rewrite getnum_two by done. Qed.

Lemma between_in lo hi n : lo <= n <= hi -> between lo hi n = Some tt.
Proof. intros H. unfold between. by rewrite (proj2 (Z.leb_le _ _)), (proj2 (Z.leb_le _ _)) by lia. Qed.

Lemma zone_z : zone (lit 90 EmptyString) = Some (0, EmptyString).
Proof. reflexivity. Qed.

Lemma digit_value_z : digit_value (char_of 90) = None.
Proof. reflexivity. Qed.

Lemma fraction_milli m : 0 <= m < 1000 ->
  fraction (lit 46 (String (digit_char (m / 100)) (two (m mod 100) (lit 90 EmptyString)))) =
    (m * 1000000, lit 90 EmptyString).
Proof.
  intros Hm. unfold fraction, lit. change (byte_of (char_of 46)) with 46. cbn [Z.eqb Pos.eqb orb].
  pose proof (Z.div_mod m 100). pose proof (Z.mod_pos_bound m 100). set (q := m / 100) in *. set (r := m mod 100) in *.
  rewrite digit_at_back by lia. rewrite bool_decide_eq_false_2 by done. cbn [negb andb]. unfold two.
  pose proof (Z.div_mod r 10). pose proof (Z.mod_pos_bound r 10).
  cbn [frac_digits]. rewrite !digit_back by lia. rewrite digit_value_z. cbv beta iota zeta.
  change (100000000 / 10 / 10) with 1000000. change (100000000 / 10) with 10000000. f_equal. lia.
Qed.

(** The calendar decomposition is exact. *)
Lemma year_of_spec days : let '(y, d) := year_of days in
  days = days_before_year y + d /\ 0 <= d < 365 + Z.b2z (is_leap y) /\ (-719528 <= days <= 2932896 -> 0 <= y <= 9999).
Proof.
  unfold year_of, days_before_year, is_leap. cbv zeta. set (n := days + 719162).
  set (a := n / 146097). set (r := n mod 146097). set (b := Z.min 3 (r / 36524)). set (r1 := r - 36524 * b).
  set (c := r1 / 1461). set (r2 := r1 mod 1461). set (d := Z.min 3 (r2 / 365)).
  pose proof (Z.div_mod n 146097 ltac:(lia)) as E0. pose proof (Z.mod_pos_bound n 146097 ltac:(lia)) as B0. fold a r in E0, B0.
  pose proof (Z.div_mod r 36524 ltac:(lia)) as E1. pose proof (Z.mod_pos_bound r 36524 ltac:(lia)) as B1.
  pose proof (Z.div_mod r1 1461 ltac:(lia)) as E2. pose proof (Z.mod_pos_bound r1 1461 ltac:(lia)) as B2. fold c r2 in E2, B2.
  pose proof (Z.div_mod r2 365 ltac:(lia)) as E3. pose proof (Z.mod_pos_bound r2 365 ltac:(lia)) as B3.
  set (q1 := r / 36524) in *. set (q3 := r2 / 365) in *. set (m1 := r mod 36524) in *. set (m3 := r2 mod 365) in *.
  assert (0 <= b <= 3 /\ 0 <= r1 /\ (b < 3 -> r1 < 36524) /\ r1 <= 36524) as (Hb & Hr1 & Hr1' & Hr1'') by (unfold b, r1; lia).
  assert (0 <= c <= 24) as Hc by lia.
  assert (0 <= d <= 3 /\ 0 <= r2 - 365 * d /\ (d < 3 -> r2 - 365 * d < 365) /\ r2 - 365 * d <= 365) as (Hd & Hy & Hy' & Hy'') by (unfold d; lia).
  assert (r = 36524 * b + r1) as Er by (unfold r1; lia).
  clearbody b r1 c r2 d a r q1 q3 m1 m3. replace (400 * a + 100 * b + 4 * c + d + 1 - 1) with (400 * a + 100 * b + 4 * c + d) by lia.
  assert ((400 * a + 100 * b + 4 * c + d) / 4 = 100 * a + 25 * b + c) as -> by (symmetry; apply (Z.div_unique _ 4 _ d); lia).
  assert ((400 * a + 100 * b + 4 * c + d) / 100 = 4 * a + b) as -> by (symmetry; apply (Z.div_unique _ 100 _ (4 * c + d)); lia).
  assert ((400 * a + 100 * b + 4 * c + d) / 400 = a) as -> by (symmetry; apply (Z.div_unique _ 400 _ (100 * b + 4 * c + d)); lia).
  split; [unfold n in E0; lia|]. split; [|unfold n in E0; lia]. split; [lia|].
  destruct (decide (d = 3)) as [->|Hd3]; [|destruct (_ && _); simpl; lia].
  replace (400 * a + 100 * b + 4 * c + 3 + 1) with ((100 * a + 25 * b + c + 1) * 4) by lia.
  rewrite Z.mod_mul by lia. cbn [Z.eqb andb].
  destruct (decide (c = 24)) as [->|Hc24].
  - replace ((100 * a + 25 * b + 24 + 1) * 4) with ((4 * a + b + 1) * 100) by lia. rewrite Z.mod_mul by lia. cbn [Z.eqb negb orb].
    destruct (decide (b = 3)) as [->|Hb3]; [|destruct (_ =? _); simpl; lia].
    replace ((4 * a + 3 + 1) * 100) with ((a + 1) * 400) by lia. rewrite Z.mod_mul by lia. simpl. lia.
  - assert (((100 * a + 25 * b + c + 1) * 4) mod 100 = 4 * c + 4) as ->
      by (symmetry; apply (Z.mod_unique _ 100 (4 * a + b)); lia).
    rewrite (proj2 (Z.eqb_neq (4 * c + 4) 0)) by lia. simpl. lia.
Qed.

Definition month_good (leap : bool) (yday : Z) : bool :=
  let '(m, d) := month_of 11 1 yday leap in
  (1 <=? m) && (m <=? 12) && (1 <=? d) && (d <=? days_in m leap) && (d <=? 31) &&
  (days_before_month (Z.to_nat (m - 1)) leap + (d - 1) =? yday).

Lemma month_of_spec leap yday : 0 <= yday < 365 + Z.b2z leap -> month_good leap yday = true.
Proof.
  intros Hy. assert (forallb (fun n => month_good leap (Z.of_nat n)) (seq 0 (365 + Z.to_nat (Z.b2z leap))) = true) as H
    by (destruct leap; vm_compute; reflexivity).
  rewrite forallb_forall in H. specialize (H (Z.to_nat yday)). rewrite Z2Nat.id in H by lia. apply H, in_seq.
  destruct leap; simpl in *; lia.
Qed.

Lemma clock_split sec : 0 <= sec < 86400 ->
  0 <= sec / 3600 <= 23 /\ 0 <= sec / 60 mod 60 <= 59 /\ 0 <= sec mod 60 <= 59 /\
  sec / 3600 * 3600 + sec / 60 mod 60 * 60 + sec mod 60 = sec.
Proof.
  intros Hs. pose proof (Z.div_mod sec 60 ltac:(lia)) as E1. pose proof (Z.mod_pos_bound sec 60 ltac:(lia)).
  pose proof (Z.div_mod (sec / 60) 60 ltac:(lia)) as E2. pose proof (Z.mod_pos_bound (sec / 60) 60 ltac:(lia)).
  rewrite Z.div_div in E2 by lia. change (60 * 60) with 3600 in E2. lia.
Qed.

(** An instant the API prints is the instant it reads back.
    For every instant of the years 0000 to 9999, [Parse] of the rendering [Instant]
    gives (RFC 3339, UTC, three fractional digits) is that instant, to the millisecond;
    the zero time alone has no rendering. *)
Theorem instant_roundtrip ms :
  -62167219200000 <= ms <= 253402300799999 -> ms <> zero_time -> Parse (Instant ms) = Some ms.
Proof.
  intros Hms Hz. unfold Instant. rewrite (proj2 (Z.eqb_neq _ _)) by done. unfold Format. cbv zeta.
  pose proof (Z.div_mod ms 86400000 ltac:(lia)) as Ed. pose proof (Z.mod_pos_bound ms 86400000 ltac:(lia)) as Bd.
  set (days := ms / 86400000) in *. set (of_day := ms mod 86400000) in *.
  pose proof (year_of_spec days) as Hy. destruct (year_of days) as [year yday] eqn:Ey. destruct Hy as (Edays & Hyday & Hyear).
  specialize (Hyear ltac:(lia)). pose proof (month_of_spec (is_leap year) yday Hyday) as Hm. unfold month_good in Hm.
  destruct (month_of 11 1 yday (is_leap year)) as [month day] eqn:Em. bool_to_prop.
  pose proof (Z.div_mod of_day 1000 ltac:(lia)) as Es. pose proof (Z.mod_pos_bound of_day 1000 ltac:(lia)) as Bs.
  set (sec := of_day / 1000) in *. set (milli := of_day mod 1000) in *.
  destruct (clock_split sec ltac:(lia)) as (Hh & Hmin & Hsec & Hclock).
  pose proof (Z.div_mod year 100 ltac:(lia)) as Eyr. pose proof (Z.mod_pos_bound year 100 ltac:(lia)) as Byr.
  clearbody sec milli of_day days.
  assert (forall A B (a : A) (f : A -> option B), (Some a ≫= f) = f a) as Hbind by done.
  unfold Parse.
  rewrite year4_two, Hbind, literal_lit, Hbind, getnum_two, Hbind, between_in, Hbind by lia.
  rewrite literal_lit, Hbind, getnum_two, Hbind, literal_lit, Hbind, getnum_two, Hbind, (between_in 0 23), Hbind by lia.
  rewrite literal_lit, Hbind, getnum_two, Hbind, (between_in 0 59), Hbind by lia.
  rewrite literal_lit, Hbind, getnum_two, Hbind, (between_in 0 59), Hbind by lia.
  rewrite fraction_milli by lia. rewrite zone_z, Hbind.
  replace (100 * (year / 100) + year mod 100) with year by lia. rewrite between_in, Hbind by lia.
  rewrite bool_decide_eq_true_2 by done. rewrite Z.div_mul by lia. unfold days_of. f_equal. lia.
Qed.

Lemma instant_roundtrip_witness :
  Instant 1788687662005 = "2026-09-06T09:41:02.005Z"%string /\ Parse (Instant 1788687662005) = Some 1788687662005.
Proof. split; [reflexivity|]. apply (instant_roundtrip 1788687662005); unfold zero_time; lia. Defined.
