(* ===== verification/Params.v ===== *)
(** * Request parameters and pagination (internal/api/params.go)

    A request's query is a map from names to texts.  These functions turn an allowed
    parameter's text into a value, and refuse a text that is not one; [paging] reads the
    cursor and the limit, and [nextCursor] mints the next page's cursor under the same
    binding. *)

From S2P Require Import Prelude GoStrings Errors Ids Capability Encoding Cursor Patterns Pages Times.

Abbreviation Query := (gmap string string).

(** [q[name]] of a Go map: the empty text when it is absent. *)
Definition get (q : Query) (name : string) : string := default EmptyString (q !! name).

Definition QUOTE : Ascii.ascii := char_of 34.
Definition quoted (s : string) : string := String QUOTE (s +:+ String QUOTE EmptyString).

Definition DefaultContext : Z := 5.
Definition MaxContext : Z := 100.

Section Params.
Context `{GoFmt}.

Definition WrongTypeForParameter (parameter want : string) : ApiFields :=
  withDetails CodeInvalidRequest ("query parameter " +:+ strconv_Quote parameter +:+ " must be " +:+ want)
    (details_of [("parameter", DString parameter)]).

(** ** Scalars *)

Definition boolParam (q : Query) (name : string) : Result ApiFields (option bool) :=
  let raw := get q name in
  if bool_decide (raw = EmptyString) then Ok None
  else if bool_decide (raw = "true"%string) then Ok (Some true)
  else if bool_decide (raw = "false"%string) then Ok (Some false)
  else Err (WrongTypeForField name ("either " +:+ quoted "true" +:+ " or " +:+ quoted "false")).

Definition boolFlag (q : Query) (name : string) : Result ApiFields bool :=
  v ← boolParam q name; Ok (default false v).

Definition timeParam (q : Query) (name : string) : Result ApiFields Z :=
  let raw := get q name in
  if bool_decide (raw = EmptyString) then Ok 0%Z
  else match Parse raw with
       | Some t => Ok t
       | None => Err (WrongTypeForField name ("an RFC 3339 timestamp such as " +:+ quoted "2026-09-06T09:41:02Z"))
       end.

Definition optionalTimeParam (q : Query) (name : string) : Result ApiFields (option Z) :=
  if bool_decide (get q name = EmptyString) then Ok None
  else v ← timeParam q name; Ok (Some v).

Definition intParam (q : Query) (name : string) (def max : Z) : Result ApiFields Z :=
  let raw := get q name in
  if bool_decide (raw = EmptyString) then Ok def
  else match ParseInt raw with
       | None => Err (WrongTypeForField name "a non-negative integer")
       | Some n =>
           if (n <? 0)%Z then Err (WrongTypeForField name "a non-negative integer")
           else if (n =? 0)%Z then Ok def
           else if (n >? max)%Z then Ok max
           else Ok n
       end.

Definition enumParam (q : Query) (name : string) (allowed : list string) : Result ApiFields string :=
  let raw := get q name in
  if bool_decide (raw = EmptyString) then Ok EmptyString
  else if bool_decide (raw ∈ allowed) then Ok raw
  else Err (WrongTypeForField name ("one of " +:+ String.concat ", " allowed)).

(** ** Identifiers *)

Definition pathID (path : Query) (name prefix : string) : Result ApiFields string :=
  match CheckIDPrefix (get path name) name prefix with
  | Some e => Err e
  | None => Ok (get path name)
  end.

Definition queryID (q : Query) (name prefix : string) : Result ApiFields string :=
  let value := get q name in
  if bool_decide (value = EmptyString) then Ok EmptyString
  else match CheckIDPrefix value name prefix with
       | Some e => Err e
       | None => Ok value
       end.

(** ** Pagination *)

Record Page := mkPage {
  pg_Limit : Z;
  pg_Cursor : option Cursor;
  pg_endpoint : string;
  pg_fingerprint : string;
}.

Context `{Crypto}.

Definition filterFingerprint (q : Query) : string :=
  FilterFingerprint ((fun v => [v]) <$> delete "cursor"%string (delete "limit"%string q)).

Definition paging (key : string) (q : Query) (endpoint : string) : Result ApiFields Page :=
  limit ← intParam q "limit" DefaultLimit MaxLimit;
  let fingerprint := filterFingerprint q in
  let raw := get q "cursor" in
  if bool_decide (raw = EmptyString) then Ok (mkPage limit None endpoint fingerprint)
  else match DecodeCursor key endpoint fingerprint raw with
       | Err ErrCursorFilterMismatch =>
           Err (WrongTypeForParameter "cursor"
             "a cursor issued for this endpoint with these same filters; send the same query string on every page")
       | Err ErrCursorInvalid => Err (WrongTypeForParameter "cursor" "a cursor this server issued")
       | Ok c => Ok (mkPage limit (Some c) endpoint fingerprint)
       end.

Definition nextCursor {V} (pos : V -> Z) (key : string) (p : Page) (rows : list (string * V)) : string :=
  match nextPosition pos (pg_Limit p) rows with
  | None => EmptyString
  | Some c => EncodeCursor key (pg_endpoint p) (pg_fingerprint p) c
  end.

(** ** Lemmas *)

Lemma intParam_range q name def max n : (1 <= def <= max)%Z -> intParam q name def max = Ok n -> (1 <= n <= max)%Z.
Proof.
  intros Hd. unfold intParam. cbv zeta. case_bool_decide; [intros [= <-]; lia|].
  destruct (ParseInt _) as [z|]; [|done]. destruct (z <? 0)%Z eqn:E1; [done|]. bool_to_prop.
  destruct (z =? 0)%Z eqn:E2; [intros [= <-]; lia|]. bool_to_prop.
  destruct (z >? max)%Z eqn:E3; intros [= <-]; [lia|]. rewrite Z.gtb_ltb in E3. bool_to_prop. lia.
Qed.

Lemma get_insert_ne (q : Query) k v name : k <> name -> get (<[k := v]> q) name = get q name.
Proof. intros Hk. unfold get. by rewrite lookup_insert_ne. Qed.

Lemma intParam_insert (q : Query) k v name def max : k <> name -> intParam (<[k := v]> q) name def max = intParam q name def max.
Proof. intros Hk. unfold intParam. by rewrite get_insert_ne. Qed.

Lemma fingerprint_cursor q v : filterFingerprint (<["cursor"%string := v]> q) = filterFingerprint q.
Proof.
  unfold filterFingerprint. do 2 f_equal. rewrite (delete_insert_ne q "limit" "cursor" v) by done.
  by rewrite delete_insert_eq.
Qed.

(** The cursor of a query is read under the binding it is issued for. *)
Lemma paging_next key q endpoint p c :
  has_byte NULc endpoint = false -> paging key q endpoint = Ok p ->
  has_byte NULc (cu_ID c) = false -> (min_int64 <= cu_SentAtMS c <= max_int64)%Z ->
  paging key (<["cursor"%string := EncodeCursor key (pg_endpoint p) (pg_fingerprint p) c]> q) endpoint =
    Ok (mkPage (pg_Limit p) (Some c) endpoint (filterFingerprint q)) /\
  EncodeCursor key (pg_endpoint p) (pg_fingerprint p) c <> EmptyString.
Proof.
  intros He Hp Hid Hms.
  assert (exists cur, p = mkPage (pg_Limit p) cur endpoint (filterFingerprint q) /\
    intParam q "limit" DefaultLimit MaxLimit = Ok (pg_Limit p)) as (cur & Ep & El).
  { unfold paging in Hp. destruct (intParam q "limit" DefaultLimit MaxLimit) as [l|e]; [|done].
    cbn [mbind Result_bind] in Hp. destruct (bool_decide (get q "cursor" = EmptyString)); [by injection Hp as <-; eexists|].
    destruct (DecodeCursor _ _ _ _) as [c0|[|]]; [|done|done]. injection Hp as <-. by eexists. }
  rewrite Ep. cbn [pg_endpoint pg_fingerprint pg_Limit].
  assert (EncodeCursor key endpoint (filterFingerprint q) c <> EmptyString) as Hne.
  { unfold EncodeCursor. cbv zeta. intros E%(f_equal String.length). rewrite length_append in E. simpl in E. lia. }
  split; [|done]. unfold paging. rewrite intParam_insert, El by done. cbn [mbind Result_bind]. rewrite fingerprint_cursor. unfold get. rewrite lookup_insert_eq. cbn [default from_option id].
  rewrite bool_decide_eq_false_2 by done. rewrite decode_honest; [by rewrite decide_True|done| |done|done].
  apply encoded_no_nul.
Qed.
End Params.
