(* ===== verification/Reads.v ===== *)
(** * The read routes (internal/api/reads.go, internal/api/refresh.go)

    A handler reads its parameters, refreshes what it is about to read from the phone,
    runs the listing and mints the next cursor.  Its answer here is the rows and the
    cursor; their JSON form is not modelled.  [Refresh] is what one account's engine does
    to the store for a scope (core.Freshener.Refresh), and is absent in a deployment
    without it.  The accounts a request resolves against are an argument. *)

From S2P Require Import Prelude Delivery Ids Operations GoStrings Errors Messages Capability Pipeline Accounts Encoding Cursor Patterns Pages Listings Times Params.

(** ** Handlers: a database, and an answer or an error *)

Inductive ReadError : Type :=
| RApi (e : ApiFields)
| RStore (e : StoreError)
| RQuery (e : QueryError).

Section Handlers.
Context {S : Type}.

Definition Handler (A : Type) : Type := S -> S * Result ReadError A.

#[export] Instance Handler_ret : MRet Handler := fun A a s => (s, Ok a).
#[export] Instance Handler_bind : MBind Handler := fun A B k h s =>
  let '(s', r) := h s in
  match r with Ok a => k a s' | Err e => (s', Err e) end.

Definition api {A} (r : Result ApiFields A) : Handler A := fun s =>
  (s, match r with Ok a => Ok a | Err e => Err (RApi e) end).
Definition query {A} (f : S -> Result QueryError A) : Handler A := fun s =>
  (s, match f s with Ok a => Ok a | Err e => Err (RQuery e) end).
Definition stored {A} (f : S -> Result StoreError A) : Handler A := fun s =>
  (s, match f s with Ok a => Ok a | Err e => Err (RStore e) end).
Definition reading {A} (f : S -> Result ApiFields A) : Handler A := fun s => api (f s) s.
End Handlers.
Arguments Handler : clear implicits.

(** A listing's answer. *)
Definition Listed (V : Type) : Type := list (string * V) * string.

Section Reads.
Context `{GoFmt} `{UUID} `{Crypto}.
Context (DataKey : string) (refs : list AccountRef) (Refresh : option (string -> string -> Handler DB unit)).

Definition resolveRead (q : Query) : Result ApiFields Resolution := ResolveAccount (get q "account_id") refs Read.

(** ** Refreshing (refresh.go) *)

Definition refreshable (accountID : string) (ref : AccountRef) : bool :=
  if_given accountID (bool_decide (ref_ID ref = accountID)) &&
  negb (bool_decide (ref_State ref = AccountState_string StateSignedOut)) &&
  negb (bool_decide (ref_State ref = AccountState_string StatePairing)).

Fixpoint refresh_each (refresh : string -> string -> Handler DB unit) (accountID scope : string)
    (l : list AccountRef) : Handler DB unit :=
  match l with
  | [] => mret tt
  | ref :: l' =>
      _ ← (if refreshable accountID ref then refresh (ref_ID ref) scope else mret tt);
      refresh_each refresh accountID scope l'
  end.

Definition refreshRead (accountID scope : string) : Handler DB unit :=
  match Refresh with
  | None => mret tt
  | Some refresh => refresh_each refresh accountID scope refs
  end.

Definition refreshMessages (accountID conversationID : string) : Handler DB unit :=
  match Refresh with
  | None => mret tt
  | Some _ =>
      if bool_decide (conversationID = EmptyString) then refreshRead accountID "conversations"
      else fun db =>
        match db_conversations db !! conversationID with
        | None => (db, Err (RStore ErrNotFound))
        | Some c =>
            match CheckObjectAccount "conversation_id" conversationID (cv_account_id c) accountID with
            | Some e => (db, Err (RApi e))
            | None => refreshRead (cv_account_id c) conversationID db
            end
        end
  end.

(** ** GET /v1/conversations *)

Definition participant_filter (q : Query) (db : DB) : Result ApiFields (string * string) :=
  let raw := get q "participant" in
  if bool_decide (raw = EmptyString) then Ok (EmptyString, EmptyString)
  else match ResolveParticipant raw db with
       | Ok x => Ok x
       | Err _ => Err (WrongTypeForField "participant" "an E.164 number, its bare digits, or a part_ or contact_ ID")
       end.

(** Older catalogues' folder names. *)
Definition folder_alias (folder : string) : string :=
  if bool_decide (folder = "inbox"%string) then "active"
  else if bool_decide (folder = "spam"%string) then "spam_blocked"
  else folder.

Definition conversationFilters (q : Query) (res : Resolution) (p : Page) (db : DB)
    : Result ApiFields ConversationQuery :=
  folder ← enumParam q "folder" ["active"; "archived"; "spam_blocked"; "inbox"; "spam"];
  convType ← enumParam q "type" ["sms_mms"; "rcs"; "unknown"];
  unreadOnly ← boolFlag q "unread_only";
  groupOnly ← boolParam q "group_only";
  includeDeleted ← boolFlag q "include_deleted";
  pinnedOnly ← boolFlag q "pinned_only";
  after ← optionalTimeParam q "after";
  before ← optionalTimeParam q "before";
  _ ← (match after, before with
       | Some a, Some b => if (b <? a)%Z then Err (WrongTypeForField "before" "a timestamp at or after after") else Ok tt
       | _, _ => Ok tt
       end);
  participant ← participant_filter q db;
  Ok {| cq_AccountID := res_AccountID res; cq_AllAccounts := res_AllAccounts res;
        cq_Query := get q "query";
        cq_ParticipantPhone := participant.2; cq_ParticipantID := participant.1;
        cq_Folder := folder_alias folder; cq_Type := convType;
        cq_UnreadOnly := unreadOnly; cq_GroupOnly := groupOnly; cq_PinnedOnly := pinnedOnly;
        cq_AfterMS := after; cq_BeforeMS := before; cq_IncludeDeleted := includeDeleted;
        cq_Cursor := pg_Cursor p; cq_Limit := pg_Limit p |}.

Definition conversationsList (q : Query) : Handler DB (Listed ConversationRow) :=
  res ← api (resolveRead q);
  p ← api (paging DataKey q EndpointConversations);
  cq ← reading (conversationFilters q res p);
  _ ← refreshRead (res_AccountID res) "conversations";
  rows ← query (ListConversations cq);
  mret (rows, nextCursor cv_last_activity_ms DataKey p rows).

(** ** GET /v1/messages and GET /v1/conversations/{id}/messages *)

Definition deliveryStates : list string :=
  DeliveryState_string <$> [DeliveryStateSending; DeliveryStateSent; DeliveryStateDelivered; DeliveryStateRead;
    DeliveryStateFailed; DeliveryStateCanceled; DeliveryStateDeleted; DeliveryStateReceived;
    DeliveryStateDownloading; DeliveryStateDownloadFailed; DeliveryStateUnknown].

(** [resolveSender]: whether it is [me], and the resolved part_ ID and number. *)
Definition resolveSender (q : Query) (db : DB) : Result ApiFields (bool * (string * string)) :=
  let raw := get q "sender" in
  if bool_decide (raw = EmptyString) then Ok (false, (EmptyString, EmptyString))
  else if bool_decide (raw = "me"%string) then Ok (true, (EmptyString, EmptyString))
  else match ResolveParticipant raw db with
       | Ok x => Ok (false, x)
       | Err _ => Err (WrongTypeForField "sender"
           ("the literal " +:+ quoted "me" +:+ ", an E.164 number, its bare digits, or a part_ or contact_ ID"))
       end.

Definition messageQueryFrom (q : Query) (res : Resolution) (p : Page) (conversationID : string) (db : DB)
    : Result ApiFields MessageQuery :=
  direction ← enumParam q "direction" ["incoming"; "outgoing"];
  after ← timeParam q "after";
  before ← timeParam q "before";
  hasAttachment ← boolParam q "has_attachment";
  includeSystem ← boolFlag q "include_system";
  deliveryState ← enumParam q "delivery_state" deliveryStates;
  sender ← resolveSender q db;
  Ok {| mq_AccountID := res_AccountID res; mq_AllAccounts := res_AllAccounts res;
        mq_ConversationID := conversationID; mq_Direction := direction;
        mq_SenderMe := sender.1; mq_SenderParticipantID := sender.2.1; mq_SenderPhone := sender.2.2;
        mq_AfterMS := after; mq_BeforeMS := before; mq_HasAttachment := hasAttachment;
        mq_DeliveryState := deliveryState; mq_IncludeSystem := includeSystem;
        mq_Cursor := pg_Cursor p; mq_Limit := pg_Limit p |}.

Definition serveMessages (p : Page) (mq : MessageQuery) : Handler DB (Listed MessageRow) :=
  _ ← refreshMessages (mq_AccountID mq) (mq_ConversationID mq);
  rows ← query (ListMessages mq);
  mret (rows, nextCursor ms_sent_at_ms DataKey p rows).

(** The conversation_id filter of a message listing: refused when it names no
    conversation, or one of another account than the request's. *)
Definition conversation_filter (q : Query) (res : Resolution) (db : DB) : Result ApiFields string :=
  convID ← queryID q "conversation_id" PrefixConversation;
  if bool_decide (convID = EmptyString) then Ok EmptyString
  else match db_conversations db !! convID with
       | None => Err (NotFound "conversation")
       | Some c =>
           match CheckObjectAccount "conversation_id" convID (cv_account_id c) (res_AccountID res) with
           | Some e => Err e
           | None => Ok convID
           end
       end.

Definition with_conversation (convID : string) (mq : MessageQuery) : MessageQuery :=
  mkMessageQuery (mq_AccountID mq) (mq_AllAccounts mq) convID (mq_Direction mq) (mq_SenderMe mq)
    (mq_SenderParticipantID mq) (mq_SenderPhone mq) (mq_AfterMS mq) (mq_BeforeMS mq) (mq_HasAttachment mq)
    (mq_DeliveryState mq) (mq_IncludeSystem mq) (mq_Cursor mq) (mq_Limit mq).

Definition messagesList (q : Query) : Handler DB (Listed MessageRow) :=
  res ← api (resolveRead q);
  p ← api (paging DataKey q EndpointMessages);
  mq ← reading (messageQueryFrom q res p EmptyString);
  convID ← reading (conversation_filter q res);
  serveMessages p (with_conversation convID mq).

(** [conversation]: a path's conversation. *)
Definition conversation (path : Query) (db : DB) : Result ApiFields (string * ConversationRow) :=
  id ← pathID path "conversation_id" PrefixConversation;
  match db_conversations db !! id with
  | None => Err (NotFound "conversation")
  | Some c => Ok (id, c)
  end.

Definition conversationMessagesList (path q : Query) : Handler DB (Listed MessageRow) :=
  c ← reading (conversation path);
  p ← api (paging DataKey q EndpointMessages);
  mq ← reading (messageQueryFrom q (mkResolution (cv_account_id c.2) false) p EmptyString);
  serveMessages p (with_conversation c.1 mq).

(** [message] and GET /v1/messages/{id}/context. *)
Definition message (path : Query) (db : DB) : Result ApiFields (string * MessageRow) :=
  id ← pathID path "message_id" PrefixMessage;
  match db_messages db !! id with
  | None => Err (NotFound "message")
  | Some m => Ok (id, m)
  end.

Definition messagesContext (path q : Query) : Handler DB MessageContext :=
  m ← reading (message path);
  before ← api (intParam q "before" DefaultContext MaxContext);
  after ← api (intParam q "after" DefaultContext MaxContext);
  stored (MessageContextAround m.1 before after false).

(** ** GET /v1/contacts *)

Definition contactsList (q : Query) : Handler DB (Listed ContactRow) :=
  res ← api (resolveRead q);
  p ← api (paging DataKey q EndpointContacts);
  top ← api (boolFlag q "top");
  _ ← refreshRead (res_AccountID res) "contacts";
  rows ← query (ListContacts {| ctq_AccountID := res_AccountID res; ctq_AllAccounts := res_AllAccounts res;
                                ctq_Query := get q "query"; ctq_Top := top;
                                ctq_Cursor := pg_Cursor p; ctq_Limit := pg_Limit p |});
  mret (rows, nextCursor ct_updated_at_ms DataKey p rows).

(** ** GET /v1/operations: the caller's own *)

Definition KindArchive : string := "archive".
Definition KindUnarchive : string := "unarchive".

Definition operationKinds : list string :=
  [KindSendText; KindSendMedia; KindStartConversation; KindMarkRead; KindAddReaction; KindRemoveReaction;
   KindDeleteMessage; KindDeleteConv; KindArchive; KindUnarchive].

Definition operationsList (authorizationID : string) (q : Query) : Handler ops_table (Listed OperationRow) :=
  res ← api (resolveRead q);
  p ← api (paging DataKey q EndpointOperations);
  kind ← api (enumParam q "kind" operationKinds);
  status ← api (enumParam q "status" ["running"; "succeeded"; "pending"; "failed"; "unknown"]);
  terminal ← api (boolParam q "terminal");
  after ← api (timeParam q "after");
  before ← api (timeParam q "before");
  rows ← query (ListOperations {| oq_AuthorizationID := authorizationID; oq_AllAccounts := res_AllAccounts res;
                                  oq_AccountID := res_AccountID res; oq_Kind := kind; oq_Status := status;
                                  oq_Terminal := terminal; oq_AfterMS := after; oq_BeforeMS := before;
                                  oq_Cursor := pg_Cursor p; oq_Limit := pg_Limit p |});
  mret (rows, nextCursor op_created_at_ms DataKey p rows).
End Reads.

(** A contact without a number, named as the participant or the sender, is no filter. *)
Lemma contact_without_number_unfiltered `{UUID} raw c db (cq : ConversationQuery) (mq : MessageQuery) :
  HasPrefix raw PrefixParticipant = false -> HasPrefix raw PrefixContact = true ->
  db_contacts db !! raw = Some c -> ct_phone_e164 c = None ->
  ResolveParticipant raw db = Ok (EmptyString, EmptyString) /\
  (cq_ParticipantID cq = EmptyString -> cq_ParticipantPhone cq = EmptyString -> forall x, conversation_participant db cq x = true) /\
  (mq_SenderMe mq = false -> mq_SenderParticipantID mq = EmptyString -> mq_SenderPhone mq = EmptyString ->
     forall m, message_sender db mq m = true).
Proof.
  intros H1 H2 Hc Hp. split_and!.
  - unfold ResolveParticipant. by rewrite H1, H2, Hc, Hp.
  - intros E1 E2 x. unfold conversation_participant. by rewrite E1, E2.
  - intros E0 E1 E2 m. unfold message_sender. by rewrite E0, E1, E2.
Qed.
