(* ===== verification/Walks.v ===== *)
(** * Walking a listing (internal/api/reads.go)

    What the pages of a listing promise a caller that follows [next_cursor].  A route
    that answers with pages of views is a [ListingRoute]; the promise is proved once
    against that interface, and every listing handler implements it. *)

From S2P Require Import Prelude Delivery Ids Operations GoStrings Errors Messages Capability Pipeline Encoding Cursor Patterns Pages Listings Times Params Reads.

(** The query of the next page: the same query, with the cursor. *)
Definition next_query (q : Query) (token : string) : Query := <["cursor"%string := token]> q.

(** A caller's walk.  Before each of its requests the store is whatever the others made
    it: [ss] are the states the requests find.  The answer: the pages, and whether the
    last of them said that it is the last. *)
Fixpoint client_walk {S V} (serve : Query -> Handler S (Listed V)) (q : Query) (ss : list S)
    : list (list (string * V)) * bool :=
  match ss with
  | [] => ([], false)
  | s :: ss' =>
      match (serve q s).2 with
      | Err _ => ([], false)
      | Ok (rows, token) =>
          if bool_decide (token = EmptyString) then ([rows], true)
          else let '(ps, ended) := client_walk serve (next_query q token) ss' in (rows :: ps, ended)
      end
  end.

(** The rows a request shows, whatever its cursor: [view_of q s]. *)
Class ListingRoute `{GoFmt} `{Crypto} {S V} (key : string) (pos : V -> Z) (endpoint : string)
    (serve : Query -> Handler S (Listed V)) (view_of : Query -> S -> view (V:=V)) : Prop := {
  route_clean : has_byte NULc endpoint = false;
  route_cursor q t s : view_of (next_query q t) s = view_of q s;
  route_serves q s rows token : (serve q s).2 = Ok (rows, token) ->
    exists p, paging key q endpoint = Ok p /\
      rows = page_rows pos (view_of q s).1 (pg_Cursor p) (pg_Limit p) (view_of q s).2 /\
      token = nextCursor pos key p rows;
  route_again q t s : is_ok (serve q s).2 = true -> is_ok (paging key (next_query q t) endpoint) = true ->
    is_ok (serve (next_query q t) s).2 = true;
}.

(** Rows whose position a cursor can carry. *)
Definition cursor_safe {V} (pos : V -> Z) (w : view (V:=V)) : Prop :=
  forall x, shown x w -> has_byte NULc x.1 = false /\ (min_int64 <= pos x.2 <= max_int64)%Z.

Section Walks.
Context `{GoFmt} `{Crypto} {S V : Type} {key : string} {pos : V -> Z} {endpoint : string}.
Context {serve : Query -> Handler S (Listed V)} {view_of : Query -> S -> view (V:=V)}.
Context `{!ListingRoute key pos endpoint serve view_of}.

Lemma paging_limit q p : paging key q endpoint = Ok p -> (1 <= pg_Limit p <= MaxLimit)%Z.
Proof.
  unfold paging. destruct (intParam q "limit" DefaultLimit MaxLimit) as [l|e] eqn:El; [|done].
  apply intParam_range in El; [|done]. cbn [mbind Result_bind]. cbv zeta.
  destruct (bool_decide _); [by intros [= <-]|]. destruct (DecodeCursor _ _ _ _) as [c|[ | ]]; [by intros [= <-]|done|done].
Qed.

Lemma paging_start q p : get q "cursor" = EmptyString -> paging key q endpoint = Ok p -> pg_Cursor p = None.
Proof.
  intros Hq. unfold paging. destruct (intParam q "limit" DefaultLimit MaxLimit) as [l|e]; [|done].
  cbn [mbind Result_bind]. cbv zeta. rewrite bool_decide_eq_true_2 by done. by intros [= <-].
Qed.

Lemma nextCursor_cases p (rows : list (string * V)) : nextCursor pos key p rows =
  match nextPosition pos (pg_Limit p) rows with
  | None => EmptyString
  | Some c => EncodeCursor key (pg_endpoint p) (pg_fingerprint p) c
  end.
Proof. done. Qed.

Lemma paging_token q s p rows c : paging key q endpoint = Ok p -> cursor_safe pos (view_of q s) ->
  rows = page_rows pos (view_of q s).1 (pg_Cursor p) (pg_Limit p) (view_of q s).2 ->
  nextPosition pos (pg_Limit p) rows = Some c ->
  nextCursor pos key p rows <> EmptyString /\
  exists p', paging key (next_query q (nextCursor pos key p rows)) endpoint = Ok p' /\
    pg_Limit p' = pg_Limit p /\ pg_Cursor p' = Some c.
Proof.
  intros Hp Hsafe -> En. rewrite nextCursor_cases, En.
  destruct (next_page pos _ _ _ _ _ (paging_limit q p Hp) En) as (_ & r & Er & -> & _ & _).
  apply last_Some in Er as [l0 E0]. assert (r ∈ page_rows pos (view_of q s).1 (pg_Cursor p) (pg_Limit p) (view_of q s).2) as Hr
    by (rewrite E0; apply elem_of_app; right; by apply list_elem_of_singleton).
  apply page_rows_elem in Hr as (Hr & HP & _). destruct (Hsafe r (conj Hr HP)) as [Hid Hms].
  destruct (paging_next key q endpoint p (CursorPosition pos r) route_clean Hp Hid Hms) as [E Hne].
  split; [exact Hne|]. eexists. split; [exact E|done].
Qed.

(** The caller's walk is a walk over the views of a first part of the states. *)
Lemma client_walk_walk q ss p : paging key q endpoint = Ok p -> Forall (fun s => cursor_safe pos (view_of q s)) ss ->
  exists n, walk pos (pg_Limit p) (view_of q <$> take n ss) (pg_Cursor p) = client_walk serve q ss /\
    ((client_walk serve q ss).2 = true \/ Forall (fun s => is_ok (serve q s).2 = true) ss -> n = length ss).
Proof.
  revert q p. induction ss as [|s ss IH]; intros q p Hp Hsafe; [by exists 0%nat|].
  apply Forall_cons in Hsafe as [Hs Hsafe]. cbn [client_walk].
  destruct ((serve q s).2) as [[rows token]|e] eqn:Es.
  2: { exists 0%nat. split; [done|]. intros [?|Ha]; [done|]. apply Forall_cons in Ha as [Ha _].
       by rewrite Es in Ha. }
  destruct (route_serves q s rows token Es) as (p0 & Hp0 & Er & Et). rewrite Hp in Hp0. injection Hp0 as <-.
  destruct (nextPosition pos (pg_Limit p) rows) as [c|] eqn:En.
  - destruct (paging_token q s p rows c Hp Hs Er En) as (Hne & p' & Hp' & El & Ec). rewrite <- Et in Hne, Hp'.
    rewrite bool_decide_eq_false_2 by done.
    assert (Forall (fun s => cursor_safe pos (view_of (next_query q token) s)) ss) as Hsafe'.
    { eapply Forall_impl; [exact Hsafe|]. intros s'. by rewrite route_cursor. }
    destruct (IH _ p' Hp' Hsafe') as (n & En' & Hn). exists (Datatypes.S n). rewrite El, Ec in En'.
    cbn [take fmap list_fmap walk]. cbv zeta. rewrite <- Er, En.
    assert (view_of (next_query q token) <$> take n ss = view_of q <$> take n ss) as Ev
      by (apply list_fmap_ext; intros ? s' _; apply route_cursor).
    rewrite Ev in En'. rewrite En'. destruct (client_walk serve (next_query q token) ss) as [ps ended]. cbn [fst snd] in *.
    split; [done|]. cbn [length]. intros [He|Ha]; f_equal; apply Hn; [by left|right].
    apply Forall_cons in Ha as [_ Ha]. eapply Forall_impl; [exact Ha|]. intros s' Hs'.
    apply route_again; [exact Hs'|]. by rewrite Hp'.
  - exists (length (s :: ss)). rewrite nextCursor_cases, En in Et. subst token. rewrite bool_decide_eq_true_2 by done.
    split; [|done]. rewrite firstn_all. cbn [fmap list_fmap walk]. cbv zeta. by rewrite <- Er, En.
Qed.

Lemma route_walk q ss : get q "cursor" = EmptyString -> Forall (fun s => cursor_safe pos (view_of q s)) ss ->
  StronglySorted (above pos) (concat (client_walk serve q ss).1) /\
  (forall x, x ∈ concat (client_walk serve q ss).1 -> exists s, s ∈ ss /\ shown x (view_of q s)) /\
  ((client_walk serve q ss).2 = true -> forall x, Forall (fun s => shown x (view_of q s)) ss ->
     x ∈ concat (client_walk serve q ss).1).
Proof.
  intros Hq Hsafe. destruct (paging key q endpoint) as [p|e] eqn:Hp.
  - destruct (client_walk_walk q ss p Hp Hsafe) as (n & E & Hn). rewrite <- E in *. pose proof (paging_limit q p Hp) as Hl.
    rewrite (paging_start q p Hq Hp) in *. split_and!; [by apply walk_descends| |].
    + intros x (w & Hw & Hx)%walk_sound. apply list_elem_of_fmap in Hw as (s & -> & Hs). exists s. split; [|done].
      by apply (elem_of_sublist _ _ _ Hs), sublist_take.
    + intros He x Hx. apply walk_complete; [done|done| |done]. rewrite Hn by (by left). rewrite firstn_all. by apply Forall_fmap.
  - assert (client_walk serve q ss = ([], false)) as ->.
    { destruct ss as [|s ss]; [done|]. cbn [client_walk]. destruct ((serve q s).2) as [[rows token]|e'] eqn:Es; [|done].
      destruct (route_serves q s rows token Es) as (p & Hp' & _). by rewrite Hp in Hp'. }
    split_and!; [constructor|by intros x ?%elem_of_nil|done].
Qed.

(** Over a view that stands still, a walk of enough requests ends and serves exactly the
    listing. *)
Lemma route_walk_ends q ss p w : get q "cursor" = EmptyString -> paging key q endpoint = Ok p ->
  (forall s, s ∈ ss -> view_of q s = w) -> cursor_safe pos w -> Forall (fun s => is_ok (serve q s).2 = true) ss ->
  (length (listing pos w.1 0 w.2) < length ss * Z.to_nat (pg_Limit p))%nat ->
  (client_walk serve q ss).2 = true /\ concat (client_walk serve q ss).1 = listing pos w.1 0 w.2.
Proof.
  intros Hq Hp Hw Hs Ha Hlen. assert (Forall (fun s => cursor_safe pos (view_of q s)) ss) as Hsafe.
  { apply Forall_forall. intros s Hin. by rewrite Hw. }
  destruct (client_walk_walk q ss p Hp Hsafe) as (n & E & Hn). rewrite Hn in E by (by right). rewrite firstn_all in E.
  rewrite (paging_start q p Hq Hp) in E. assert (view_of q <$> ss = replicate (length ss) (w.1, w.2)) as Ev.
  { apply list_eq_same_length with (length ss); rewrite ?length_fmap, ?length_replicate; [done..|].
    intros i x y Hi Hx Hy. apply lookup_replicate in Hy as [-> _]. rewrite list_lookup_fmap in Hx.
    destruct (ss !! i) as [s|] eqn:Ei; [|done]. injection Hx as <-. rewrite (Hw s) by by eapply list_elem_of_lookup_2. by destruct w. }
  rewrite Ev in E. rewrite <- E. pose proof (paging_limit q p Hp) as Hl. split.
  - apply walk_ends; [done|]. eapply Nat.le_lt_trans; [apply length_filter|done].
  - by apply walk_whole.
Qed.
End Walks.

(** ** Every listing handler is such a route *)

Definition no_view {V} : view (V:=V) := (fun _ => false, ∅).
Definition no_page : Page := mkPage DefaultLimit None EmptyString EmptyString.

(** A step of a handler that answered: what it read, and the rest from there. *)
Lemma api_bind {S A B} (r : Result ApiFields A) (k : A -> Handler S B) s b :
  ((api r ≫= k) s).2 = Ok b -> exists a, r = Ok a /\ (k a s).2 = Ok b.
Proof. unfold api, mbind, Handler_bind. destruct r as [a|e]; [by exists a|done]. Qed.
Lemma reading_bind {S A B} (f : S -> Result ApiFields A) (k : A -> Handler S B) s b :
  ((reading f ≫= k) s).2 = Ok b -> exists a, f s = Ok a /\ (k a s).2 = Ok b.
Proof. intros Hb. unfold reading, api, mbind, Handler_bind in Hb. destruct (f s) as [a|e]; [by exists a|done]. Qed.
Lemma query_bind {S A B} (f : S -> Result QueryError A) (k : A -> Handler S B) s b :
  ((query f ≫= k) s).2 = Ok b -> exists a, f s = Ok a /\ (k a s).2 = Ok b.
Proof. intros Hb. unfold query, mbind, Handler_bind in Hb. destruct (f s) as [a|e]; [by exists a|done]. Qed.
Lemma handler_bind {S A B} (h : Handler S A) (k : A -> Handler S B) s b :
  ((h ≫= k) s).2 = Ok b -> exists a, (h s).2 = Ok a /\ (k a (h s).1).2 = Ok b.
Proof. unfold mbind, Handler_bind. destruct (h s) as [s' [a|e]]; [by exists a|done]. Qed.

(** The same steps, run forward. *)
Lemma api_run {S A B} (r : Result ApiFields A) a (k : A -> Handler S B) s : r = Ok a -> (api r ≫= k) s = k a s.
Proof. by intros ->. Qed.
Lemma reading_run {S A B} (f : S -> Result ApiFields A) a (k : A -> Handler S B) s : f s = Ok a -> (reading f ≫= k) s = k a s.
Proof. intros E. unfold reading, api, mbind, Handler_bind. by rewrite E. Qed.
Lemma query_run {S A B} (f : S -> Result QueryError A) a (k : A -> Handler S B) s : f s = Ok a -> (query f ≫= k) s = k a s.
Proof. intros E. unfold query, mbind, Handler_bind. by rewrite E. Qed.
Lemma handler_run {S A B} (h : Handler S A) a (k : A -> Handler S B) s : (h s).2 = Ok a -> (h ≫= k) s = k a (h s).1.
Proof. unfold mbind, Handler_bind. destruct (h s) as [s' [a'|e]]; [|done]. by intros [= ->]. Qed.

Lemma is_ok_inv {E A} (r : Result E A) : is_ok r = true -> exists a, r = Ok a.
Proof. destruct r; [by eexists|done]. Qed.

Lemma get_next_query q t name : name <> "cursor"%string -> get (next_query q t) name = get q name.
Proof. intros Hn. by apply get_insert_ne. Qed.

(** Open a sequence of reads that succeeded, one after the other. *)
Ltac open_binds H :=
  repeat (let a := fresh "v" in let E := fresh "E" in apply bind_Ok_inv in H as (a & E & H);
          try rewrite E; cbn [mbind Result_bind] in H |- *).

Section Routes.
Context `{GoFmt} `{UUID} `{Crypto} (DataKey : string) (refs : list AccountRef).
Context (Refresh : option (string -> string -> Handler DB unit)).

Lemma resolveRead_next q t : resolveRead refs (next_query q t) = resolveRead refs q.
Proof. unfold resolveRead. by rewrite get_next_query. Qed.

Lemma boolParam_next q t name : name <> "cursor"%string -> boolParam (next_query q t) name = boolParam q name.
Proof. intros Hn. unfold boolParam. by rewrite get_next_query. Qed.
Lemma boolFlag_next q t name : name <> "cursor"%string -> boolFlag (next_query q t) name = boolFlag q name.
Proof. intros Hn. unfold boolFlag. by rewrite boolParam_next. Qed.
Lemma enumParam_next q t name l : name <> "cursor"%string -> enumParam (next_query q t) name l = enumParam q name l.
Proof. intros Hn. unfold enumParam. by rewrite get_next_query. Qed.
Lemma timeParam_next q t name : name <> "cursor"%string -> timeParam (next_query q t) name = timeParam q name.
Proof. intros Hn. unfold timeParam. by rewrite get_next_query. Qed.
Lemma optionalTimeParam_next q t name : name <> "cursor"%string -> optionalTimeParam (next_query q t) name = optionalTimeParam q name.
Proof. intros Hn. unfold optionalTimeParam. by rewrite get_next_query, timeParam_next. Qed.
Lemma queryID_next q t name l : name <> "cursor"%string -> queryID (next_query q t) name l = queryID q name l.
Proof. intros Hn. unfold queryID. by rewrite get_next_query. Qed.

Lemma conversationFilters_next q t res p db : conversationFilters (next_query q t) res p db = conversationFilters q res p db.
Proof.
  unfold conversationFilters, participant_filter.
  by rewrite !enumParam_next, !boolFlag_next, !boolParam_next, !optionalTimeParam_next, !get_next_query by done.
Qed.

Lemma messageQueryFrom_next q t res p c db : messageQueryFrom (next_query q t) res p c db = messageQueryFrom q res p c db.
Proof.
  unfold messageQueryFrom, resolveSender.
  by rewrite !enumParam_next, !timeParam_next, !boolParam_next, !boolFlag_next, !get_next_query by done.
Qed.

(** The filters do not depend on the page but for its cursor and limit. *)
Lemma conversationFilters_page p' q res p db cq : conversationFilters q res p db = Ok cq ->
  cq_Cursor cq = pg_Cursor p /\ cq_Limit cq = pg_Limit p /\ cq_AccountID cq = res_AccountID res /\
  cq_AllAccounts cq = res_AllAccounts res /\
  exists cq', conversationFilters q res p' db = Ok cq' /\ cq_AccountID cq' = res_AccountID res /\
    cq_AllAccounts cq' = res_AllAccounts res /\
    forall db', conversation_where db' cq = conversation_where db' cq'.
Proof.
  unfold conversationFilters. intros Hc. open_binds Hc.
  injection Hc as <-. split_and!; [done..|]. by eexists.
Qed.

Definition conversations_view (q : Query) (db : DB) : view (V:=ConversationRow) :=
  match resolveRead refs q with
  | Err _ => no_view
  | Ok res =>
      match conversationFilters q res no_page db with
      | Err _ => no_view
      | Ok cq => let db' := (refreshRead refs Refresh (res_AccountID res) "conversations" db).1 in
                 (conversation_where db' cq, db_conversations db')
      end
  end.

Ltac open_handler H :=
  repeat (let a := fresh "v" in let E := fresh "E" in
          first [apply api_bind in H as (a & E & H)|apply reading_bind in H as (a & E & H)|apply query_bind in H as (a & E & H)|
                 apply handler_bind in H as (a & E & H)]; cbv beta in H).

#[export] Instance conversations_route :
  ListingRoute DataKey cv_last_activity_ms EndpointConversations (conversationsList DataKey refs Refresh) conversations_view.
Proof.
  split.
  - reflexivity.
  - intros q t db. unfold conversations_view. rewrite resolveRead_next. destruct (resolveRead refs q) as [res|e]; [|done].
    by rewrite conversationFilters_next.
  - intros q db rows token Hs. unfold conversationsList in Hs. open_handler Hs. injection Hs as <- <-.
    destruct (conversationFilters_page no_page _ _ _ _ _ E1) as (Ec & El & _ & _ & cq0 & Ef & _ & _ & Hwhere).
    exists v0. split; [done|]. unfold conversations_view. rewrite E, Ef. cbv zeta. cbn [fst snd].
    unfold ListConversations in E3. destruct (_ && _) in E3; [done|]. injection E3 as <-. by rewrite Ec, El, Hwhere.
  - intros q t db [[rows token] Hs]%is_ok_inv [p' Hp']%is_ok_inv. unfold conversationsList in *. open_handler Hs. clear Hs.
    destruct (conversationFilters_page p' _ _ _ _ _ E1) as (_ & _ & Ea & Eall & cq' & Ef & Ea' & Eall' & _).
    rewrite (api_run _ v), (api_run _ p'), (reading_run _ cq'), (handler_run _ v2); [|done|by rewrite conversationFilters_next|done|by rewrite resolveRead_next].
    unfold ListConversations in E3. destruct (_ && _) eqn:Eg in E3; [done|].
    erewrite query_run; [done|]. unfold ListConversations. rewrite Ea', Eall', <- Ea, <- Eall, Eg. reflexivity.
Qed.

Lemma messageQueryFrom_page p' q res p c db mq : messageQueryFrom q res p c db = Ok mq ->
  mq_Cursor mq = pg_Cursor p /\ mq_Limit mq = pg_Limit p /\ mq_AccountID mq = res_AccountID res /\
  mq_AllAccounts mq = res_AllAccounts res /\
  exists mq0, messageQueryFrom q res p' c db = Ok mq0 /\ mq_AccountID mq0 = res_AccountID res /\
    mq_AllAccounts mq0 = res_AllAccounts res /\
    forall conv db', message_where db' (with_conversation conv mq) = message_where db' (with_conversation conv mq0).
Proof.
  unfold messageQueryFrom. intros Hc. open_binds Hc.
  injection Hc as <-. split_and!; [done..|]. by eexists.
Qed.

(** The view of a message listing over one conversation, or over all of them. *)
Definition message_rows (q : Query) (res : Resolution) (convID : string) (db : DB) : view (V:=MessageRow) :=
  match messageQueryFrom q res no_page EmptyString db with
  | Err _ => no_view
  | Ok mq => let db' := (refreshMessages refs Refresh (res_AccountID res) convID db).1 in
             (message_where db' (with_conversation convID mq), db_messages db')
  end.

Definition messages_view (q : Query) (db : DB) : view (V:=MessageRow) :=
  match resolveRead refs q with
  | Err _ => no_view
  | Ok res =>
      match conversation_filter q res db with
      | Err _ => no_view
      | Ok convID => message_rows q res convID db
      end
  end.

Definition conversation_messages_view (path q : Query) (db : DB) : view (V:=MessageRow) :=
  match conversation path db with
  | Err _ => no_view
  | Ok c => message_rows q (mkResolution (cv_account_id c.2) false) c.1 db
  end.

Lemma message_rows_next q t res convID db : message_rows (next_query q t) res convID db = message_rows q res convID db.
Proof. unfold message_rows. by rewrite messageQueryFrom_next. Qed.

Lemma serveMessages_rows q res p mq convID db rows token :
  messageQueryFrom q res p EmptyString db = Ok mq ->
  (serveMessages DataKey refs Refresh p (with_conversation convID mq) db).2 = Ok (rows, token) ->
  rows = page_rows ms_sent_at_ms (message_rows q res convID db).1 (pg_Cursor p) (pg_Limit p) (message_rows q res convID db).2 /\
  token = nextCursor ms_sent_at_ms DataKey p rows.
Proof.
  intros Hmq Hs. destruct (messageQueryFrom_page no_page _ _ _ _ _ _ Hmq) as (Ec & El & Ea & _ & mq0 & E0 & _ & _ & Hwhere).
  unfold serveMessages in Hs. open_handler Hs. injection Hs as <- <-. split; [|done].
  unfold message_rows. rewrite E0. cbv zeta. cbn [fst snd].
  unfold ListMessages in E1. destruct (_ && _ && _) in E1; [done|]. injection E1 as <-.
  cbn [with_conversation mq_AccountID mq_ConversationID mq_Cursor mq_Limit]. by rewrite Ec, El, Ea, Hwhere.
Qed.

Lemma serveMessages_again q t res p p' mq convID db :
  messageQueryFrom q res p EmptyString db = Ok mq ->
  is_ok (serveMessages DataKey refs Refresh p (with_conversation convID mq) db).2 = true ->
  exists mq', messageQueryFrom (next_query q t) res p' EmptyString db = Ok mq' /\
    is_ok (serveMessages DataKey refs Refresh p' (with_conversation convID mq') db).2 = true.
Proof.
  intros Hmq [[rows token] Hs]%is_ok_inv.
  destruct (messageQueryFrom_page p' _ _ _ _ _ _ Hmq) as (_ & _ & Ea & Eall & mq' & E' & Ea' & Eall' & _).
  exists mq'. rewrite messageQueryFrom_next. split; [done|]. unfold serveMessages in *. open_handler Hs.
  cbn [with_conversation mq_AccountID mq_ConversationID] in *. rewrite Ea', <- Ea.
  rewrite (handler_run _ v) by done. unfold ListMessages in E0. destruct (_ && _ && _) eqn:Eg in E0; [done|].
  cbn [with_conversation mq_AccountID mq_ConversationID mq_AllAccounts] in Eg.
  erewrite query_run; [done|]. unfold ListMessages. cbn [with_conversation mq_AccountID mq_ConversationID mq_AllAccounts].
  rewrite Ea', Eall', <- Ea, <- Eall, Eg. reflexivity.
Qed.

#[export] Instance messages_route :
  ListingRoute DataKey ms_sent_at_ms EndpointMessages (messagesList DataKey refs Refresh) messages_view.
Proof.
  split.
  - reflexivity.
  - intros q t db. unfold messages_view, conversation_filter. rewrite resolveRead_next, queryID_next by done.
    destruct (resolveRead refs q) as [res|e]; [|done]. destruct (_ ≫= _); [|done]. apply message_rows_next.
  - intros q db rows token Hs. unfold messagesList in Hs. apply api_bind in Hs as (res & Er & Hs).
    apply api_bind in Hs as (p & Ep & Hs). apply reading_bind in Hs as (mq & Em & Hs). apply reading_bind in Hs as (convID & Ecv & Hs).
    exists p. split; [done|]. unfold messages_view. rewrite Er, Ecv. by apply (serveMessages_rows q res p mq).
  - intros q t db [[rows token] Hs]%is_ok_inv [p' Hp']%is_ok_inv. unfold messagesList in *. apply api_bind in Hs as (res & Er & Hs).
    apply api_bind in Hs as (p & Ep & Hs). apply reading_bind in Hs as (mq & Em & Hs). apply reading_bind in Hs as (convID & Ecv & Hs).
    destruct (serveMessages_again q t res p p' mq convID db Em) as (mq' & Em' & Hs'); [by rewrite Hs|].
    rewrite (api_run _ res), (api_run _ p'), (reading_run _ mq'), (reading_run _ convID); [done| |done|done|by rewrite resolveRead_next].
    unfold conversation_filter in *. by rewrite queryID_next.
Qed.

#[export] Instance conversation_messages_route path :
  ListingRoute DataKey ms_sent_at_ms EndpointMessages (conversationMessagesList DataKey refs Refresh path) (conversation_messages_view path).
Proof.
  split.
  - reflexivity.
  - intros q t db. unfold conversation_messages_view. destruct (conversation path db) as [c|e]; [|done]. apply message_rows_next.
  - intros q db rows token Hs. unfold conversationMessagesList in Hs. apply reading_bind in Hs as (c & Ec & Hs).
    apply api_bind in Hs as (p & Ep & Hs). apply reading_bind in Hs as (mq & Em & Hs).
    exists p. split; [done|]. unfold conversation_messages_view. rewrite Ec. by apply (serveMessages_rows q _ p mq).
  - intros q t db [[rows token] Hs]%is_ok_inv [p' Hp']%is_ok_inv. unfold conversationMessagesList in *.
    apply reading_bind in Hs as (c & Ec & Hs). apply api_bind in Hs as (p & Ep & Hs). apply reading_bind in Hs as (mq & Em & Hs).
    destruct (serveMessages_again q t _ p p' mq c.1 db Em) as (mq' & Em' & Hs'); [by rewrite Hs|].
    by rewrite (reading_run _ c), (api_run _ p'), (reading_run _ mq').
Qed.

Definition contacts_view (q : Query) (db : DB) : view (V:=ContactRow) :=
  match resolveRead refs q, boolFlag q "top" with
  | Ok res, Ok top =>
      (contact_where (mkContactQuery (res_AccountID res) (res_AllAccounts res) (get q "query") top None DefaultLimit),
       db_contacts (refreshRead refs Refresh (res_AccountID res) "contacts" db).1)
  | _, _ => no_view
  end.

#[export] Instance contacts_route :
  ListingRoute DataKey ct_updated_at_ms EndpointContacts (contactsList DataKey refs Refresh) contacts_view.
Proof.
  split.
  - reflexivity.
  - intros q t db. unfold contacts_view. by rewrite resolveRead_next, boolFlag_next, get_next_query by done.
  - intros q db rows token Hs. unfold contactsList in Hs. open_handler Hs. injection Hs as <- <-. exists v0. split; [done|].
    unfold contacts_view. rewrite E, E1. unfold ListContacts in E3. destruct (_ && _) in E3; [done|]. by injection E3 as <-.
  - intros q t db [[rows token] Hs]%is_ok_inv [p' Hp']%is_ok_inv. unfold contactsList in *. open_handler Hs. clear Hs.
    rewrite (api_run _ v), (api_run _ p'), (api_run _ v1), (handler_run _ v2); [|done|by rewrite boolFlag_next|done|by rewrite resolveRead_next].
    unfold ListContacts in E3. destruct (_ && _) eqn:Eg in E3; [done|].
    erewrite query_run; [done|]. unfold ListContacts. cbn [ctq_AccountID ctq_AllAccounts] in *. by rewrite Eg.
Qed.

Definition operations_view (authorizationID : string) (q : Query) (t : ops_table) : view (V:=OperationRow) :=
  match resolveRead refs q, enumParam q "kind" operationKinds,
        enumParam q "status" ["running"; "succeeded"; "pending"; "failed"; "unknown"]%string,
        boolParam q "terminal", timeParam q "after", timeParam q "before" with
  | Ok res, Ok kind, Ok status, Ok terminal, Ok after, Ok before =>
      (operation_where (mkOperationQuery authorizationID (res_AllAccounts res) (res_AccountID res) kind status
         terminal after before None DefaultLimit), t)
  | _, _, _, _, _, _ => no_view
  end.

#[export] Instance operations_route authorizationID :
  ListingRoute DataKey op_created_at_ms EndpointOperations (operationsList DataKey refs authorizationID) (operations_view authorizationID).
Proof.
  split.
  - reflexivity.
  - intros q t db. unfold operations_view. by rewrite resolveRead_next, !enumParam_next, boolParam_next, !timeParam_next by done.
  - intros q t rows token Hs. unfold operationsList in Hs. open_handler Hs. injection Hs as <- <-. exists v0. split; [done|].
    unfold operations_view. rewrite E, E1, E2, E3, E4, E5. unfold ListOperations in E6.
    destruct (_ && _) in E6; [done|]. by injection E6 as <-.
  - intros q t s [[rows token] Hs]%is_ok_inv [p' Hp']%is_ok_inv. unfold operationsList in *. open_handler Hs. clear Hs.
    rewrite (api_run _ v), (api_run _ p'), (api_run _ v1), (api_run _ v2), (api_run _ v3), (api_run _ v4), (api_run _ v5);
      rewrite ?resolveRead_next, ?enumParam_next, ?boolParam_next, ?timeParam_next; try done.
    unfold ListOperations in E6. destruct (_ && _) eqn:Eg in E6; [done|].
    erewrite query_run; [done|]. unfold ListOperations. cbn [oq_AccountID oq_AllAccounts] in *. by rewrite Eg.
Qed.
End Routes.

(** ** What a walk promises *)

(** Every page comes strictly after the one before it, so no position is served twice;
    a row served is a row some request showed; and when the walk came to the end, a row
    that every request showed was served. *)
Definition walk_promise {S V} (pos : V -> Z) (serve : Query -> Handler S (Listed V)) (view_of : Query -> S -> view (V:=V))
    (q : Query) (ss : list S) : Prop :=
  Forall (fun s => cursor_safe pos (view_of q s)) ss ->
  StronglySorted (above pos) (concat (client_walk serve q ss).1) /\
  (forall x, x ∈ concat (client_walk serve q ss).1 -> exists s, s ∈ ss /\ shown x (view_of q s)) /\
  ((client_walk serve q ss).2 = true -> forall x, Forall (fun s => shown x (view_of q s)) ss ->
     x ∈ concat (client_walk serve q ss).1).

(** Over a store that stands still, more requests than pages come to the end, and the
    pages together are the whole listing in order. *)
Definition exact_promise `{GoFmt} `{Crypto} {S V} (key endpoint : string) (pos : V -> Z) (serve : Query -> Handler S (Listed V))
    (view_of : Query -> S -> view (V:=V)) (q : Query) (s : S) : Prop :=
  forall p k, paging key q endpoint = Ok p -> cursor_safe pos (view_of q s) -> is_ok (serve q s).2 = true ->
  (length (listing pos (view_of q s).1 0 (view_of q s).2) < k * Z.to_nat (pg_Limit p))%nat ->
  (client_walk serve q (replicate k s)).2 = true /\
  concat (client_walk serve q (replicate k s)).1 = listing pos (view_of q s).1 0 (view_of q s).2.

Section Promises.
Context `{GoFmt} `{UUID} `{Crypto}.

Lemma route_exact {S V} (key endpoint : string) (pos : V -> Z) (serve : Query -> Handler S (Listed V))
    (view_of : Query -> S -> view (V:=V)) `{!ListingRoute key pos endpoint serve view_of} q s :
  get q "cursor" = EmptyString -> exact_promise key endpoint pos serve view_of q s.
Proof.
  intros Hq p k Hp Hsafe Hok Hlen.
  apply (route_walk_ends q (replicate k s) p (view_of q s) Hq Hp); [|exact Hsafe| |by rewrite length_replicate].
  - intros s' Hs'. by apply elem_of_replicate in Hs' as [-> _].
  - by apply Forall_replicate.
Qed.

(** C16: what a caller that follows next_cursor is served, on every listing route.
    Whatever the store becomes between its requests, ingestion and other callers
    included, a walk from the first page serves strictly descending positions, so no
    row at one position is served twice; it serves only rows a request of it saw
    selected; and when it ends, every row that stood unchanged and selected through all
    its requests has been served.  The signed cursors lose nothing: each next page is
    the page after the last row of the one before. *)
Theorem listing_walks DataKey refs Refresh path authorizationID (q : Query) (dbs : list DB) (ts : list ops_table) :
  get q "cursor" = EmptyString ->
  walk_promise cv_last_activity_ms (conversationsList DataKey refs Refresh) (conversations_view refs Refresh) q dbs /\
  walk_promise ms_sent_at_ms (messagesList DataKey refs Refresh) (messages_view refs Refresh) q dbs /\
  walk_promise ms_sent_at_ms (conversationMessagesList DataKey refs Refresh path)
    (conversation_messages_view refs Refresh path) q dbs /\
  walk_promise ct_updated_at_ms (contactsList DataKey refs Refresh) (contacts_view refs Refresh) q dbs /\
  walk_promise op_created_at_ms (operationsList DataKey refs authorizationID) (operations_view refs authorizationID) q ts.
Proof. intros Hq. split_and!; intros Hsafe; by apply (route_walk q). Qed.

(** C17: a walk over a store that stands still ends, and is the listing.
    On every listing route: when the first page is answered, a walk of more requests
    than the listing has full pages comes to a page without a next cursor, and its pages
    joined are exactly the rows the filters select, each once, newest first. *)
Theorem listing_walk_exact DataKey refs Refresh path authorizationID (q : Query) (db : DB) (t : ops_table) :
  get q "cursor" = EmptyString ->
  exact_promise DataKey EndpointConversations cv_last_activity_ms (conversationsList DataKey refs Refresh)
    (conversations_view refs Refresh) q db /\
  exact_promise DataKey EndpointMessages ms_sent_at_ms (messagesList DataKey refs Refresh) (messages_view refs Refresh) q db /\
  exact_promise DataKey EndpointMessages ms_sent_at_ms (conversationMessagesList DataKey refs Refresh path)
    (conversation_messages_view refs Refresh path) q db /\
  exact_promise DataKey EndpointContacts ct_updated_at_ms (contactsList DataKey refs Refresh) (contacts_view refs Refresh) q db /\
  exact_promise DataKey EndpointOperations op_created_at_ms (operationsList DataKey refs authorizationID)
    (operations_view refs authorizationID) q t.
Proof. intros Hq. split_and!; by apply route_exact; [apply _|]. Qed.
End Promises.

(** ** Three contacts in pages of two *)

Definition demo_contact (name : string) (ms : Z) : ContactRow :=
  mkContactRow "acct_1" name (Some name) (Some "+12025550123"%string) None false ms.
Definition demo_contacts : gmap string ContactRow :=
  <["contact_a"%string := demo_contact "ann" 7]> (<["contact_b"%string := demo_contact "bob" 7]>
    (<["contact_c"%string := demo_contact "cat" 5]> ∅)).
Definition demo_store (t : gmap string ContactRow) : DB := mkDB {["acct_1"%string]} t ∅ ∅ ∅ ∅ ∅.
Definition demo_refs : list AccountRef := [mkAccountRef "acct_1" "owner" "connected"].
Definition demo_query : Query := {["limit"%string := "2"%string]}.
(** Meanwhile somebody new arrives at the top, and one already served is removed. *)
Definition demo_later : DB := demo_store (<["contact_d"%string := demo_contact "dan" 9]> (delete "contact_b"%string demo_contacts)).

Lemma demo_rows_safe (t : gmap string ContactRow) (P : string * ContactRow -> bool) :
  map_fold (fun i r b => b && negb (has_byte NULc i) && (min_int64 <=? ct_updated_at_ms r)%Z && (ct_updated_at_ms r <=? max_int64)%Z) true t = true ->
  cursor_safe ct_updated_at_ms (P, t).
Proof.
  intros Ht x [Hx _]. cbn [fst snd] in Hx. revert Ht Hx. apply (map_fold_weak_ind (fun b t => b = true -> t !! x.1 = Some x.2 ->
    has_byte NULc x.1 = false /\ (min_int64 <= ct_updated_at_ms x.2 <= max_int64)%Z)); [done|].
  intros i r t' b Hi IH Hb. bool_to_prop. rewrite lookup_insert_Some. intros [[<- <-]|[_ Hx]]; [done|]. by apply IH.
Qed.

Lemma listing_walks_witness :
  exists ps, client_walk (contactsList "key" demo_refs None) demo_query [demo_store demo_contacts; demo_later] = (ps, true) /\
    ("contact_a"%string, demo_contact "ann" 7) ∈ concat ps /\ ("contact_c"%string, demo_contact "cat" 5) ∈ concat ps.
Proof.
  destruct (listing_walks "key" demo_refs None ∅ "auth" demo_query [demo_store demo_contacts; demo_later] []
    ltac:(vm_compute; reflexivity)) as (_ & _ & _ & Hc & _).
  destruct (Hc ltac:(repeat apply Forall_cons_2; [..|apply Forall_nil_2]; refine (demo_rows_safe _ _ _); vm_compute; reflexivity)) as (_ & _ & Hall).
  exists (client_walk (contactsList "key" demo_refs None) demo_query [demo_store demo_contacts; demo_later]).1.
  split; [vm_compute; reflexivity|]. split; apply Hall; try (vm_compute; reflexivity);
    (repeat apply Forall_cons_2; [..|apply Forall_nil_2]; split; vm_compute; reflexivity).
Defined.

Lemma listing_walk_exact_witness :
  exists ps, client_walk (contactsList "key" demo_refs None) demo_query (replicate 3 (demo_store demo_contacts)) = (ps, true) /\
    (length <$> ps) = [2; 1]%nat /\ (fst <$> concat ps) = ["contact_b"; "contact_a"; "contact_c"]%string.
Proof.
  destruct (listing_walk_exact "key" demo_refs None ∅ "auth" demo_query (demo_store demo_contacts) ∅
    ltac:(vm_compute; reflexivity)) as (_ & _ & _ & Hc & _).
  unfold exact_promise in Hc. specialize (Hc (mkPage 2 None EndpointContacts (filterFingerprint demo_query)) 3%nat).
  specialize (Hc ltac:(vm_compute; reflexivity)).
  assert (cursor_safe ct_updated_at_ms (contacts_view demo_refs None demo_query (demo_store demo_contacts))) as Hsafe
    by (refine (demo_rows_safe _ _ _); vm_compute; reflexivity).
  specialize (Hc Hsafe ltac:(vm_compute; reflexivity)).
  destruct Hc as [He Hl]; [apply Nat.ltb_lt; vm_compute; reflexivity|].
  exists (client_walk (contactsList "key" demo_refs None) demo_query (replicate 3 (demo_store demo_contacts))).1.
  rewrite Hl. split; [vm_compute; reflexivity|]. split; vm_compute; reflexivity.
Defined.
