(* ===== verification/Rely.v ===== *)
(** * Rely and guarantee for programs of atomic actions

    [rg Rely Guar p Q s]: started at [s], with the others moving the state along [Rely]
    between its actions, every action of [p] moves it along [Guar], and what [p] returns
    satisfies [Q] at whatever state the others then make of it.  With [Rely] equality
    this is the ordinary precondition of [p]; with [Rely] everything and [Q] trivial it is
    a property every action of [p] has in any company. *)

From S2P Require Import Prelude Prog.

Section Rely.
Context {S : Type}.
Implicit Types (Rely Guar : relation S).

Fixpoint rg Rely Guar {A} (p : Prog S A) (Q : A -> S -> Prop) (s : S) : Prop :=
  match p with
  | Ret a => forall s', Rely s s' -> Q a s'
  | Act f k => forall s', Rely s s' -> Guar s' (f s').1 /\ rg Rely Guar (k (f s').2) Q (f s').1
  end.

Section Rules.
Context (Rely Guar : relation S) `{!PreOrder Rely}.

Lemma rg_stable {A} (p : Prog S A) Q s s1 : rg Rely Guar p Q s -> Rely s s1 -> rg Rely Guar p Q s1.
Proof. intros Hp H1. destruct p; simpl in *; intros s' H2; apply Hp; by etransitivity. Qed.

Lemma rg_mono {A} (p : Prog S A) (Q Q' : A -> S -> Prop) s :
  (forall a s', Q a s' -> Q' a s') -> rg Rely Guar p Q s -> rg Rely Guar p Q' s.
Proof.
  intros HQ. revert s. induction p as [a|B f k IH]; simpl; intros s Hp s' Hs'; [by apply HQ, Hp|].
  destruct (Hp s' Hs') as [HG Hk]. split; [done|]. by apply IH.
Qed.

Lemma rg_bind {A B} (p : Prog S A) (k : A -> Prog S B) Q s :
  rg Rely Guar p (fun a s' => rg Rely Guar (k a) Q s') s -> rg Rely Guar (p ≫= k) Q s.
Proof.
  unfold mbind, Prog_bind. revert s. induction p as [a|C f k' IH]; simpl; intros s Hp.
  - apply Hp. reflexivity.
  - intros s' Hs'. destruct (Hp s' Hs') as [HG Hk]. split; [done|]. by apply IH.
Qed.

Lemma rg_atomic {B} (f : S -> S * B) (Q : B -> S -> Prop) s :
  (forall s1, Rely s s1 -> Guar s1 (f s1).1 /\ forall s2, Rely (f s1).1 s2 -> Q (f s1).2 s2) ->
  rg Rely Guar (atomic f) Q s.
Proof. intros Hf s1 H1. destruct (Hf s1 H1). by split. Qed.

(** What a run with nothing in between does. *)
Lemma rg_run {A} (p : Prog S A) Q s : rg Rely Guar p Q s -> rtc Guar s (run p s).1 /\ Q (run p s).2 (run p s).1.
Proof.
  revert s. induction p as [a|B f k IH]; simpl; intros s Hp; [by split; [|apply Hp]|].
  destruct (Hp s ltac:(reflexivity)) as [HG Hk]. destruct (f s) as [s1 b]. simpl in *.
  destruct (IH b s1 Hk). split; [by eapply rtc_l|done].
Qed.
End Rules.

Lemma rg_weaken (R R' G G' : relation S) {A} (p : Prog S A) (Q : A -> S -> Prop) s :
  (forall a b, R' a b -> R a b) -> (forall a b, G a b -> G' a b) -> rg R G p Q s -> rg R' G' p Q s.
Proof.
  intros HR HG. revert s. induction p as [a|B f k IH]; simpl; intros s Hp s' Hs'; [by apply Hp, HR|].
  destruct (Hp s' (HR _ _ Hs')) as [H1 H2]. split; [by apply HG|]. by apply IH.
Qed.

Lemma rg_conj (R G G' : relation S) {A} (p : Prog S A) (Q Q' : A -> S -> Prop) s :
  rg R G p Q s -> rg R G' p Q' s -> rg R (fun a b => G a b /\ G' a b) p (fun a s' => Q a s' /\ Q' a s') s.
Proof.
  revert s. induction p as [a|B f k IH]; simpl; intros s Hp Hp' s' Hs'; [by auto|].
  destruct (Hp s' Hs'), (Hp' s' Hs'). split; [by split|]. by apply IH.
Qed.

(** The property of actions alone. *)
Definition ensures Guar {A} (p : Prog S A) : Prop := forall s, rg (fun _ _ => True) Guar p (fun _ _ => True) s.

Lemma guarantees_ensures Guar {A} (p : Prog S A) : guarantees Guar p -> ensures Guar p.
Proof.
  unfold ensures. induction p as [a|B f k IH]; simpl; [done|]. intros [Hf Hk] s s' _.
  split; [apply Hf|by apply IH].
Qed.

Lemma guarantees_rg R Guar {A} (p : Prog S A) s : guarantees Guar p -> rg R Guar p (fun _ _ => True) s.
Proof.
  revert s. induction p as [a|B f k IH]; simpl; [done|]. intros s [Hf Hk] s' _. split; [apply Hf|by apply IH].
Qed.

Lemma ensures_ret Guar {A} (a : A) : ensures Guar (mret a : Prog S A).
Proof. by intros s s'. Qed.

Lemma ensures_bind Guar {A B} (p : Prog S A) (k : A -> Prog S B) :
  ensures Guar p -> (forall a, ensures Guar (k a)) -> ensures Guar (p ≫= k).
Proof.
  intros Hp Hk s. apply rg_bind; [split; [by intros ?|by intros ?]|]. eapply rg_mono, Hp. intros a s' _. apply Hk.
Qed.

Lemma ensures_run Guar `{!PreOrder Guar} {A} (p : Prog S A) s : ensures Guar p -> Guar s (run p s).1.
Proof.
  intros Hp. assert (PreOrder (fun _ _ : S => True)) as HR by (split; by intros ?).
  destruct (@rg_run _ Guar HR _ p _ s (Hp s)) as [H _]. induction H; [reflexivity|by etransitivity].
Qed.

(** A pool whose programs all ensure [Guar]. *)
Lemma pool_ensures (Guar : relation S) `{!PreOrder Guar} (starts : Prog S () -> Prop) (env : relation S) c c' :
  (forall p, starts p -> ensures Guar p) -> (forall s s', env s s' -> Guar s s') ->
  rtc (PoolStep starts env) c c' -> Forall (ensures Guar) c.1 -> Forall (ensures Guar) c'.1 /\ Guar c.2 c'.2.
Proof.
  intros Hstarts Henv. induction 1 as [c|c c1 c' Hst _ IH]; intros Hall; [by split|].
  assert (Forall (ensures Guar) c1.1 /\ Guar c.2 c1.2) as [H1 HR].
  { destruct Hst as [i B f k pool s s' b Hi Hf|p pool s Hp|pool s s' He]; simpl in *.
    - pose proof (proj1 (Forall_lookup _ _) Hall i _ Hi) as Hp.
      destruct (Hp s s I) as [HG _]. rewrite Hf in HG. split; [|exact HG]. apply Forall_insert; [done|].
      intros s1. destruct (Hp s s I) as [_ Hk]. rewrite Hf in Hk. simpl in Hk.
      eapply rg_stable; [split; by intros ?|exact Hk|done].
    - split; [|reflexivity]. apply Forall_app. split; [done|]. constructor; [by apply Hstarts|done].
    - split; [done|]. by apply Henv. }
  destruct (IH H1) as [Hc' HR']. split; [done|]. by etransitivity.
Qed.

(** A pool whose programs rely on each other: what each relies on is what all guarantee,
    and a program that starts may use the invariant. *)
Lemma pool_rg (R : relation S) `{!PreOrder R} (Inv : S -> Prop) (starts : Prog S () -> Prop) (env : relation S) c c' :
  (forall s s', Inv s -> R s s' -> Inv s') -> (forall p s, starts p -> Inv s -> rg R R p (fun _ _ => True) s) ->
  (forall s s', env s s' -> R s s') -> rtc (PoolStep starts env) c c' -> Inv c.2 ->
  Forall (fun p => rg R R p (fun _ _ => True) c.2) c.1 -> R c.2 c'.2 /\ Forall (fun p => rg R R p (fun _ _ => True) c'.2) c'.1.
Proof.
  intros HInv Hstarts Henv. induction 1 as [c|c c1 c' Hst _ IH]; intros HI Hall; [by split|].
  assert (R c.2 c1.2 /\ Forall (fun p => rg R R p (fun _ _ => True) c1.2) c1.1) as [HR H1].
  { assert (forall (ps : list (Prog S ())) s s', R s s' -> Forall (fun p => rg R R p (fun _ _ => True) s) ps -> Forall (fun p => rg R R p (fun _ _ => True) s') ps) as Hmove.
    { intros ps s s' Hs Hps. apply Forall_impl with (1 := Hps). intros p Hp. by eapply rg_stable. }
    destruct Hst as [i B f k pool s s' b Hi Hf|p pool s Hp|pool s s' He]; simpl in *.
    - pose proof (proj1 (Forall_lookup _ _) Hall i _ Hi) as Hp. destruct (Hp s ltac:(reflexivity)) as [HG Hk]. rewrite Hf in HG, Hk.
      simpl in HG, Hk. split; [exact HG|]. apply Forall_insert; [by eapply Hmove|exact Hk].
    - split; [reflexivity|]. apply Forall_app. split; [done|]. constructor; [by apply Hstarts|done].
    - split; [by apply Henv|]. eapply Hmove; [by apply Henv|done]. }
  destruct (IH (HInv _ _ HI HR) H1) as [HR' Hall']. split; [by etransitivity|done].
Qed.

(** A program that may run beside others of its kind: what it relies on is what it
    guarantees. *)
Section Steady.
Context (R : relation S) `{!PreOrder R}.

Definition steady {A} (p : Prog S A) (s : S) : Prop := rg R R p (fun _ _ => True) s.

Lemma steady_ret {A} (a : A) s : steady (mret a) s.
Proof. by intros s' _. Qed.

Lemma steady_act {B C} (f : S -> S * B) (k : B -> Prog S C) s :
  (forall s1, R s s1 -> R s1 (f s1).1 /\ steady (k (f s1).2) (f s1).1) -> steady (atomic f ≫= k) s.
Proof. intros Hk s1 HR. by apply Hk. Qed.

Lemma steady_look {B C} (f : S -> B) (k : B -> Prog S C) s : (forall s1, R s s1 -> steady (k (f s1)) s1) -> steady (look f ≫= k) s.
Proof. intros Hk. apply steady_act. intros s1 HR. split; [reflexivity|]. by apply Hk. Qed.

Lemma steady_modify {C} (f : S -> S) (k : () -> Prog S C) s : (forall s1, R s s1 -> R s1 (f s1) /\ steady (k tt) (f s1)) -> steady (modify f ≫= k) s.
Proof. intros Hk. by apply steady_act. Qed.

Lemma steady_bind {A B} (p : Prog S A) (k : A -> Prog S B) s : steady p s -> (forall a s', R s s' -> steady (k a) s') -> steady (p ≫= k) s.
Proof.
  intros Hp Hk. apply rg_bind; [done|]. revert s Hp Hk. induction p as [a|C f k' IH]; intros s Hp Hk s' HR; [by apply Hk|].
  destruct (Hp s' HR) as [HG Hk']. split; [done|]. apply IH; [done|]. intros a s2 HR2. apply Hk. etransitivity; [exact HR|]. by etransitivity.
Qed.

(** A program of a component, each action of which keeps what the others rely on. *)
Lemma steady_lift {T A} (get : S -> T) (put : T -> S -> S) (p : Prog T A) s : (forall s t, R s (put t s)) -> steady (lift get put p) s.
Proof.
  intros Hput. revert s. induction p as [a|C f k IH]; intros s s' HR; [done|]. cbn [lift rg]. destruct (f (get s')) as [t b] eqn:E. cbn [fst snd].
  split; [apply Hput|]. apply IH.
Qed.
End Steady.
End Rely.
