(* ===== verification/Gather.v ===== *)
(** * A slice of tasks, a few at a time (internal/core/backfill.go, eachConversation)

    The spawner walks the slice; before each task it looks at the first error and the
    context, then takes a slot of a channel of capacity [n] and starts a goroutine.  A
    goroutine that ends with an error records it if it is the first, and gives its slot
    back.  The spawner waits for all of them and returns the first error.

    [gather] runs this under a schedule: each number picks one of the moves that are
    possible, the spawner's or one action of one goroutine.  The theorems: under every
    schedule it ends; never more than [n] goroutines run; what each task guarantees about
    its own part of the state holds at the end if no error is returned. *)

From S2P Require Import Prelude Prog Rely.

Section Gather.
Context {S H T : Type}.
Context (no_fuel : H).
Notation GP A := (Prog S (Result H A)).
(** [ctx.Err() != nil], the function the goroutines run, the capacity of [sem]. *)
Context (ctx_done : S -> S * bool) (fn : T -> GP unit) (n : nat).

Inductive Spawner : Type :=
| Checking (todo : list T)              (** at the head of the loop *)
| Acquiring (c : T) (todo : list T)     (** at [sem <- struct{}{}] *)
| Waiting.                              (** at [wg.Wait()] *)

Record Group := mkGroup {
  g_spawner : Spawner;
  g_running : list (T * GP unit);
  g_err : option H;
}.

Definition eachConversation_start (l : list T) : Group := mkGroup (Checking l) [] None.

Definition spawner_ready (g : Group) : bool :=
  match g_spawner g with
  | Checking _ => true
  | Acquiring _ _ => length (g_running g) <? n
  | Waiting => false
  end%nat.

Definition set_spawner (x : Spawner) (g : Group) : Group := mkGroup x (g_running g) (g_err g).

(** One move of the spawner. *)
Definition spawn (g : Group) : Prog S Group :=
  match g_spawner g with
  | Checking [] => Ret (set_spawner Waiting g)
  | Checking (c :: todo) =>
      match g_err g with
      | Some _ => Ret (set_spawner Waiting g)
      | None => Act ctx_done (fun b : bool => Ret (set_spawner (if b then Waiting else Acquiring c todo) g))
      end
  | Acquiring c todo => Ret (mkGroup (Checking todo) (g_running g ++ [(c, fn c)]) (g_err g))
  | Waiting => Ret g
  end.

Definition first_error (old : option H) (r : Result H unit) : option H :=
  match old, r with
  | Some e, _ => Some e
  | None, Err e => Some e
  | None, Ok _ => None
  end.

(** One move of a goroutine: an action, or its end. *)
Definition advance (i : nat) (g : Group) : Prog S Group :=
  match g_running g !! i with
  | Some (c, Act f k) => Act f (fun b => Ret (mkGroup (g_spawner g) (<[i := (c, k b)]> (g_running g)) (g_err g)))
  | Some (_, Ret r) => Ret (mkGroup (g_spawner g) (delete i (g_running g)) (first_error (g_err g) r))
  | None => Ret g
  end.

Definition moves (g : Group) : nat := length (g_running g) + (if spawner_ready g then 1 else 0).

Definition move (x : nat) (g : Group) : Prog S Group :=
  let i := x mod moves g in
  if (i <? length (g_running g))%nat then advance i g else spawn g.

Fixpoint play (schedule : list nat) (g : Group) : Prog S Group :=
  if (moves g =? 0)%nat then Ret g
  else match schedule with
       | [] => Ret g
       | x :: rest => move x g ≫= play rest
       end.

Definition outcome (g : Group) : Result H unit :=
  if (moves g =? 0)%nat then match g_err g with Some e => Err e | None => Ok tt end else Err no_fuel.

Definition eachConversation (schedule : list nat) (l : list T) : GP unit :=
  play schedule (eachConversation_start l) ≫= fun g => Ret (outcome g).

(** ** It ends *)

(** [q] is what is left of [p] after one of its actions. *)
Definition part (q p : GP unit) : Prop :=
  match p with Ret _ => False | Act f k => exists b, q = k b end.

Lemma part_wf : well_founded part.
Proof.
  intros p. induction p as [r|B f k IH]; constructor; intros q Hq; [done|].
  destruct Hq as [b ->]. apply IH.
Qed.

Inductive shrinks : list (T * GP unit) -> list (T * GP unit) -> Prop :=
| shrink_act i c p q l : l !! i = Some (c, p) -> part q p -> shrinks (<[i := (c, q)]> l) l
| shrink_end i l : (i < length l)%nat -> shrinks (delete i l) l.

Lemma shrinks_cons c p l : Acc part p -> Acc shrinks l -> Acc shrinks ((c, p) :: l).
Proof.
  intros Hp. revert l. induction Hp as [p Hp IHp]. intros l Hl. pose proof Hl as Hl0. induction Hl as [l Hl IHl].
  constructor. intros l' Hl'. remember ((c, p) :: l) as l0 eqn:E.
  destruct Hl' as [i c1 p1 q l0 Hi Hq|i l0 Hi]; subst l0; destruct i as [|i]; simpl in *.
  - injection Hi as -> ->. by apply IHp.
  - apply IHl; [by eapply shrink_act|]. apply Hl. by eapply shrink_act.
  - done.
  - apply IHl; [apply shrink_end; lia|]. apply Hl, shrink_end. lia.
Qed.

Lemma shrinks_wf : well_founded shrinks.
Proof.
  intros l. induction l as [|[c p] l IH]; [|by apply shrinks_cons; [apply part_wf|]].
  constructor. intros l' Hl'. remember [] as l0. destruct Hl'; subst; simpl in *; [done|lia].
Qed.

Definition spawner_size (x : Spawner) : nat :=
  match x with Checking todo => 2 * length todo + 1 | Acquiring _ todo => 2 * length todo + 2 | Waiting => 0 end.

(** Every move makes the group smaller: the spawner moves on, or a goroutine shrinks. *)
Definition smaller (g' g : Group) : Prop :=
  (spawner_size (g_spawner g') < spawner_size (g_spawner g))%nat \/
  g_spawner g' = g_spawner g /\ shrinks (g_running g') (g_running g).

Lemma smaller_wf : well_founded smaller.
Proof.
  intros g. remember (spawner_size (g_spawner g)) as m eqn:Em. revert g Em.
  induction (lt_wf m) as [m _ IHm]. intros g. remember (g_running g) as l eqn:El. revert g El.
  induction (shrinks_wf l) as [l _ IHl]. intros g -> ->. constructor. intros g' [Hlt|[Heq Hs]].
  - by eapply IHm.
  - eapply IHl; [exact Hs|done|congruence].
Qed.

Lemma spawn_smaller g s : spawner_ready g = true -> smaller (run (spawn g) s).2 g.
Proof.
  unfold spawner_ready, spawn, smaller. destruct (g_spawner g) as [[|c todo]|c todo|] eqn:E; simpl; [by left; lia| |by left; lia|done].
  destruct (g_err g); simpl; [left; lia|]. destruct (ctx_done s) as [s' []]; simpl; left; lia.
Qed.

Lemma advance_smaller i g s : (i < length (g_running g))%nat -> smaller (run (advance i g) s).2 g.
Proof.
  intros Hi. unfold advance, smaller. destruct (lookup_lt_is_Some_2 _ _ Hi) as [[c p] Hp]. rewrite Hp.
  destruct p as [r|B f k]; simpl; [right; split; [done|by apply shrink_end]|].
  destruct (f s) as [s' b]. simpl. right. split; [done|]. eapply shrink_act; [done|]. by exists b.
Qed.

Lemma move_smaller x g s : moves g <> 0%nat -> smaller (run (move x g) s).2 g.
Proof.
  intros Hm. unfold move. cbv zeta. pose proof (Nat.mod_upper_bound x (moves g) Hm) as Hx.
  destruct (_ <? _)%nat eqn:E; [by apply advance_smaller, Nat.ltb_lt|]. apply spawn_smaller.
  apply Nat.ltb_ge in E. unfold moves in *. destruct (spawner_ready g); [done|lia].
Qed.

(** Under every schedule that goes on for ever the group comes to rest. *)
Lemma play_ends (schedule : nat -> nat) g s k :
  exists fuel, moves (run (play (schedule <$> seq k fuel) g) s).2 = 0%nat.
Proof.
  revert s k. induction (smaller_wf g) as [g _ IH]. intros s k. destruct (moves g =? 0)%nat eqn:Em.
  { exists 0%nat. simpl. rewrite Em. by apply Nat.eqb_eq. }
  destruct (run (move (schedule k) g) s) as [s1 g1] eqn:E1.
  destruct (IH g1) with (s := s1) (k := Datatypes.S k) as [fuel Hf].
  { apply Nat.eqb_neq in Em. pose proof (move_smaller (schedule k) g s Em) as Hs. by rewrite E1 in Hs. }
  exists (Datatypes.S fuel). cbn [seq fmap list_fmap play]. rewrite Em, run_bind, E1. exact Hf.
Qed.

(** ** Never more than [n] at a time *)

Definition fits (g : Group) : Prop := (length (g_running g) <= n)%nat.

Lemma move_fits x g s : moves g <> 0%nat -> fits g -> fits (run (move x g) s).2.
Proof.
  intros Hm Hf. unfold move, fits in *. cbv zeta. pose proof (Nat.mod_upper_bound x (moves g) Hm) as Hx.
  destruct (_ <? _)%nat eqn:E.
  - unfold advance. apply Nat.ltb_lt in E. destruct (lookup_lt_is_Some_2 _ _ E) as [[c p] Hp]. rewrite Hp.
    destruct p as [r|B f k]; simpl.
    + rewrite length_delete; [lia|by rewrite Hp].
    + destruct (f s). simpl. by rewrite length_insert.
  - apply Nat.ltb_ge in E. unfold moves in *. destruct (spawner_ready g) eqn:Er; [|lia].
    unfold spawner_ready, spawn in *. destruct (g_spawner g) as [[|c todo]|c todo|]; simpl; [done| | |done].
    + destruct (g_err g); simpl; [done|]. destruct (ctx_done s). done.
    + apply Nat.ltb_lt in Er. rewrite length_app. simpl. lia.
Qed.

Lemma play_fits schedule g s : fits g -> fits (run (play schedule g) s).2.
Proof.
  revert g s. induction schedule as [|x rest IH]; intros g s Hf; simpl; destruct (moves g =? 0)%nat eqn:Em; try done.
  rewrite run_bind. pose proof (move_fits x g s (proj1 (Nat.eqb_neq _ _) Em) Hf) as H1.
  destruct (run (move x g) s) as [s1 g1]. by apply IH.
Qed.

(** A group at rest has nothing left to run: with a capacity, nobody waits for ever. *)
Lemma at_rest g : (0 < n)%nat -> moves g = 0%nat -> g_spawner g = Waiting /\ g_running g = [].
Proof.
  unfold moves, spawner_ready. intros Hn Hm. assert (g_running g = []) as Hr by (apply nil_length_inv; lia).
  rewrite Hr in *. destruct (g_spawner g); simpl in *; [lia| |done]. destruct (0 <? n)%nat eqn:E; [lia|].
  apply Nat.ltb_ge in E. lia.
Qed.

(** ** What the tasks achieve together *)

Section Together.
Context (R G : T -> relation S) (post : T -> S -> Prop) (stopped : S -> Prop) (Renv Gall : relation S) (all : list T).
Hypothesis HR : forall c, PreOrder (R c).
Hypothesis HRenv : PreOrder Renv.
Hypothesis Hapart : forall c c' s s', c <> c' -> c ∈ all -> c' ∈ all -> G c s s' -> R c' s s'.
Hypothesis Henv : forall c s s', c ∈ all -> Renv s s' -> R c s s'.
Hypothesis Hall : forall c s s', c ∈ all -> G c s s' -> Gall s s'.
Hypothesis Hctx : forall s, Gall s (ctx_done s).1 /\ (forall c, c ∈ all -> R c s (ctx_done s).1) /\
  ((ctx_done s).2 = true -> stopped (ctx_done s).1).
Hypothesis Hpost : forall c s s', c ∈ all -> R c s s' -> post c s -> post c s'.
Hypothesis Hstopped : forall s s', Gall s s' \/ Renv s s' -> stopped s -> stopped s'.

Definition task_ok (s : S) (cp : T * GP unit) : Prop :=
  rg (R cp.1) (G cp.1) cp.2 (fun r s => r = Ok tt -> post cp.1 s) s.

Hypothesis Hfn : forall c s, c ∈ all -> task_ok s (c, fn c).

Definition waiting_for (x : Spawner) : list T :=
  match x with Checking todo => todo | Acquiring c todo => c :: todo | Waiting => [] end.

(** Every task has finished, runs, is still to come, or was given up for a reason. *)
Definition group_ok (g : Group) (s : S) : Prop :=
  exists fin left, all ≡ₚ fin ++ (g_running g).*1 ++ waiting_for (g_spawner g) ++ left /\
    Forall (task_ok s) (g_running g) /\ (g_err g = None -> Forall (fun c => post c s) fin) /\
    (left <> [] -> g_err g <> None \/ stopped s).

Lemma group_ok_moved g s s' :
  (forall c, c ∈ all -> R c s s') -> (stopped s -> stopped s') -> group_ok g s -> group_ok g s'.
Proof.
  intros Hm Hst (fin & left & Hp & Ht & Hf & Hl).
  assert (forall c, c ∈ fin ++ (g_running g).*1 ++ waiting_for (g_spawner g) ++ left -> c ∈ all) as Hin
    by (intros c Hc; by rewrite Hp). exists fin, left. split_and!; [done| | |].
  - rewrite Forall_forall in *. intros [c p] Hc. unfold task_ok in *. eapply rg_stable; [exact _|by apply Ht|].
    apply Hm, Hin. rewrite !elem_of_app, list_elem_of_fmap. right; left. by exists (c, p).
  - intros He. specialize (Hf He). rewrite Forall_forall in *. intros c Hc. eapply Hpost; [|by apply Hm, Hin, elem_of_app; left|by apply Hf].
    apply Hin, elem_of_app. by left.
  - intros Hne. destruct (Hl Hne); auto.
Qed.

Lemma group_ok_env g s s' : Renv s s' -> group_ok g s -> group_ok g s'.
Proof. intros HE. apply group_ok_moved; [intros c Hc; by apply Henv|]. apply Hstopped. by right. Qed.

Lemma spawn_ok g s : group_ok g s -> spawner_ready g = true -> rg Renv Gall (spawn g) (fun g' s' => group_ok g' s') s.
Proof.
  intros Hg Hr. unfold spawn, spawner_ready in *. destruct g as [x l e]. simpl in *.
  destruct x as [[|c todo]|c todo|]; simpl in *; [| | |done].
  - intros s' Hs'. by apply (group_ok_env _ _ _ Hs') in Hg.
  - destruct e as [e|]; simpl.
    + intros s' Hs'. apply (group_ok_env _ _ _ Hs') in Hg. destruct Hg as (fin & left & Hp & Ht & _ & _).
      exists fin, (c :: todo ++ left). split_and!; [done|done|done|]. by left.
    + intros s' Hs'. apply (group_ok_env _ _ _ Hs') in Hg. destruct (Hctx s') as (HG & HRc & Hd). split; [done|].
      assert (stopped s' -> stopped (ctx_done s').1) as Hst by (apply Hstopped; by left).
      apply (group_ok_moved _ _ _ HRc Hst) in Hg. clear Hs' HRc Hst HG. destruct (ctx_done s') as [s1 b]. simpl in *. intros s2 Hs2.
      apply (group_ok_env _ _ _ Hs2) in Hg. destruct Hg as (fin & left & Hp & Ht & Hf & Hl).
      destruct b; simpl; [|by exists fin, left]. exists fin, (c :: todo ++ left). split_and!; [done..|].
      intros _. right. eapply Hstopped; [by right|by apply Hd].
  - intros s' Hs'. apply (group_ok_env _ _ _ Hs') in Hg. destruct Hg as (fin & left & Hp & Ht & Hf & Hl).
    exists fin, left. simpl in *. split_and!; [|apply Forall_app; split; [done|]|done|done].
    + rewrite Hp, fmap_app. simpl. by rewrite <- !app_assoc.
    + constructor; [|done]. apply Hfn. rewrite Hp, !elem_of_app. right. right. by constructor.
Qed.

Lemma running_apart g s fin left i c p :
  NoDup all -> all ≡ₚ fin ++ (g_running g).*1 ++ waiting_for (g_spawner g) ++ left -> g_running g !! i = Some (c, p) ->
  c ∈ all /\ c ∉ fin /\ (forall j c' q, j <> i -> g_running g !! j = Some (c', q) -> c' <> c) /\
  (forall s', G c s s' -> forall c', c' ∈ all -> c' <> c -> R c' s s').
Proof.
  intros Hnd Hp Hi. assert (c ∈ (g_running g).*1) as Hc by (apply list_elem_of_fmap; exists (c, p); split; [done|by eapply list_elem_of_lookup_2]).
  rewrite Hp in Hnd. apply NoDup_app in Hnd as (_ & Hfr & (Hrun & _)%NoDup_app).
  assert (c ∈ all) as Hca by (rewrite Hp, !elem_of_app; tauto). split_and!; [done| | |].
  - intros Hf. apply (Hfr c Hf), elem_of_app. by left.
  - intros j c' q Hj Hjq ->. apply Hj. apply (NoDup_lookup (g_running g).*1 j i c Hrun); rewrite list_lookup_fmap; [by rewrite Hjq|by rewrite Hi].
  - intros s' HGc c' Hc' Hne. eapply Hapart; [|exact Hca|exact Hc'|exact HGc]. congruence.
Qed.

Lemma goroutine_ok i g s : NoDup all -> group_ok g s -> (i < length (g_running g))%nat ->
  rg Renv Gall (advance i g) (fun g' s' => group_ok g' s') s.
Proof.
  intros Hnd Hg Hi. unfold advance. destruct (lookup_lt_is_Some_2 _ _ Hi) as [[c p] Hcp]. rewrite Hcp.
  destruct p as [r|B f k]; simpl; intros s' Hs'; apply (group_ok_env _ _ _ Hs') in Hg; clear Hs' s.
  - destruct Hg as (fin & left & Hp & Ht & Hf & Hl).
    exists (c :: fin), left. simpl. split_and!.
    + rewrite Hp. rewrite (delete_Permutation (g_running g) i (c, Ret r)) at 1 by done. simpl.
      by rewrite <- Permutation_middle.
    + by apply Forall_delete.
    + unfold first_error. destruct (g_err g); [done|]. destruct r as [[]|]; [|done]. intros _. constructor; [|by apply Hf].
      rewrite Forall_lookup in Ht. by apply (Ht i _ Hcp s').
    + intros Hne. destruct (Hl Hne) as [He|Hst]; [left|by right]. unfold first_error. by destruct (g_err g), r.
  - destruct Hg as (fin & left & Hp & Ht & Hf & Hl).
    destruct (running_apart g s' fin left i c _ Hnd Hp Hcp) as (Hca & Hfin & Hdiff & Hothers).
    pose proof (proj1 (Forall_lookup _ _) Ht i _ Hcp s' ltac:(simpl; reflexivity)) as [HG Hk]. simpl in HG, Hk.
    split; [by eapply Hall|]. intros s2 Hs2. eapply group_ok_env; [exact Hs2|]. clear Hs2 s2. specialize (Hothers _ HG).
    assert (forall c', c' ∈ fin ++ (g_running g).*1 ++ waiting_for (g_spawner g) ++ left -> c' ∈ all) as Hin
      by (intros c' Hc'; by rewrite Hp).
    exists fin, left. simpl. split_and!.
    + rewrite Hp, list_fmap_insert. simpl. rewrite (list_insert_id (g_running g).*1); [done|]. by rewrite list_lookup_fmap, Hcp.
    + rewrite Forall_lookup. intros j [c' q]. rewrite list_lookup_insert. case_decide as Ej; [|intros Hj].
      * intros [= <- <-]. exact Hk.
      * rewrite Forall_lookup in Ht. eapply rg_stable; [exact _|by apply (Ht j)|]. simpl.
        assert (j <> i) as Hji by (intros ->; apply Ej; split; [done|]; by apply lookup_lt_Some in Hj).
        apply Hothers; [|by eapply Hdiff]. apply Hin. rewrite !elem_of_app, list_elem_of_fmap. right; left. exists (c', q).
        split; [done|]. by eapply list_elem_of_lookup_2.
    + intros He. specialize (Hf He). rewrite Forall_forall in *. intros c' Hc'.
      assert (c' ∈ all) as Hc'a by (apply Hin, elem_of_app; by left).
      eapply Hpost; [done| |by apply Hf]. apply Hothers; [done|]. by intros ->.
    + intros Hne. destruct (Hl Hne); [by left|right]. eapply Hstopped; [|done]. left. by eapply Hall.
Qed.

Lemma play_ok schedule g s : NoDup all -> group_ok g s ->
  rg Renv Gall (play schedule g) (fun g' s' => group_ok g' s') s.
Proof.
  intros Hnd. revert g s. induction schedule as [|x rest IH]; intros g s Hg; simpl; destruct (moves g =? 0)%nat eqn:Em;
    try (intros s' Hs'; by eapply group_ok_env).
  apply rg_bind; [done|]. apply Nat.eqb_neq in Em. eapply (rg_mono _ _ _ (fun g' s' => group_ok g' s')); [intros g' s'; apply IH|].
  unfold move. cbv zeta. pose proof (Nat.mod_upper_bound x (moves g) Em) as Hx.
  destruct (_ <? _)%nat eqn:E; [by apply goroutine_ok; [..|apply Nat.ltb_lt]|]. apply spawn_ok; [done|].
  apply Nat.ltb_ge in E. unfold moves in *. destruct (spawner_ready g); [done|lia].
Qed.

(** No error and no cancellation: every task has ended well. *)
Lemma eachConversation_ok schedule s : (0 < n)%nat -> NoDup all ->
  rg Renv Gall (eachConversation schedule all) (fun r s' => r = Ok tt -> stopped s' \/ Forall (fun c => post c s') all) s.
Proof.
  intros Hn Hnd. unfold eachConversation. apply rg_bind; [done|].
  eapply (rg_mono _ _ _ (fun g' s' => group_ok g' s')); [|apply play_ok; [done|]].
  - intros g s1 Hg s2 Hs2 Ho. apply (group_ok_env _ _ _ Hs2) in Hg. unfold outcome in Ho.
    destruct (moves g =? 0)%nat eqn:Em; [|done]. apply Nat.eqb_eq in Em. destruct (at_rest g Hn Em) as [Hw Hr].
    destruct Hg as (fin & left & Hp & _ & Hf & Hl). rewrite Hw, Hr in Hp. simpl in Hp. destruct (g_err g); [done|].
    destruct left as [|c left]; [right|left; by destruct Hl].
    rewrite app_nil_r in Hp. rewrite Hp. by apply Hf.
  - exists [], []. simpl. by rewrite app_nil_r.
Qed.
End Together.
End Gather.
