(* ===== verification/Engine.v ===== *)
(** * One account's engine (internal/core/account.go, internal/store/backfill.go, refresh.go)

    [Engine] is what the goroutines of one account share: the stores, the progress of the
    backfill, the record of refreshes, the pause flag, the session seen last, the lock of
    the [Freshener].  A function that may fail, and that other goroutines may interleave
    with, is an [EP]: a program of atomic actions whose result is a value, an error, or
    "out of fuel".  The phone, the clock and the context are the class [Phone]: one answer
    per call, so that two calls with the same arguments may be answered differently.

    [IngestConversation] and [IngestMessage] are one action here; their inner steps are
    steps of the stores (Ingest.v), so an invariant of the stores survives any finer cut. *)

From S2P Require Import Prelude Ids Errors Limits Operations GoStrings Messages Pipeline Ingest Prog Accounts Rely.

(** ** The settings (account.go) *)

Record Config := mkConfig {
  BackfillConcurrency : Z;
  ConversationPageSize : Z;
  MessagePageSize : Z;
  MaxMessagesPerConversation : Z;
  Horizon : Z;                      (** nanoseconds, like every [time.Duration] *)
  IncludeArchive : bool;
  SweepInterval : Z;
  PendingTimeout : Z;
}.

Definition DefaultConfig : Config :=
  mkConfig 2 100 100 2000 (365 * 24 * Hour) true (15 * Minute) (24 * Hour).

(** [gm.Cursor]. *)
Record GmCursor := mkGmCursor { LastItemID : string; LastItemTimestampUS : Z }.

(** ** The rows *)

Record BackfillRow := mkBackfillRow {
  bf_account_id : string;
  bf_cursor_item_id : option string;
  bf_cursor_ts_us : option Z;
  bf_oldest_seen_ms : option Z;
  bf_messages_done : Z;
  bf_complete : bool;
  bf_updated_at_ms : Z;
}.

(** [store.BackfillState]; [UpdatedAtMS] is only ever read for display. *)
Record BackfillState := mkBackfillState {
  bs_ConversationID : string;
  bs_AccountID : string;
  bs_CursorItemID : string;
  bs_CursorTimestampUS : Z;
  bs_OldestSeenMS : Z;
  bs_MessagesDone : Z;
  bs_Complete : bool;
}.

Record RefreshRow := mkRefreshRow { rf_refreshed_at_ms : Z; rf_since_at_ms : Z }.

Notation backfill_table := (gmap string BackfillRow).
Notation refresh_table := (gmap (string * string) RefreshRow).

Definition backfill_values (now : Z) (b : BackfillState) : BackfillRow :=
  mkBackfillRow (bs_AccountID b) (nullString (bs_CursorItemID b)) (nullInt (bs_CursorTimestampUS b))
    (nullInt (bs_OldestSeenMS b)) (bs_MessagesDone b) (bs_Complete b) now.

Definition backfill_conflict (old excluded : BackfillRow) : BackfillRow :=
  mkBackfillRow (bf_account_id old) (bf_cursor_item_id excluded) (bf_cursor_ts_us excluded)
    (bf_oldest_seen_ms excluded) (bf_messages_done excluded) (bf_complete excluded) (bf_updated_at_ms excluded).

(** The two foreign keys are tested where a row is inserted: the update keeps both columns. *)
Definition SetBackfillState (now : Z) (b : BackfillState) (db : DB) (t : backfill_table)
    : Result StoreError backfill_table :=
  let v := backfill_values now b in
  match t !! bs_ConversationID b with
  | Some old => Ok (<[bs_ConversationID b := backfill_conflict old v]> t)
  | None =>
      _ ← require (bool_decide (is_Some (db_conversations db !! bs_ConversationID b)) &&
                   bool_decide (bs_AccountID b ∈ db_accounts db)) ErrForeignKey;
      Ok (<[bs_ConversationID b := v]> t)
  end.

Definition scanBackfill (id : string) (r : BackfillRow) : BackfillState :=
  mkBackfillState id (bf_account_id r) (scanString (bf_cursor_item_id r)) (scanInt (bf_cursor_ts_us r))
    (scanInt (bf_oldest_seen_ms r)) (bf_messages_done r) (bf_complete r).

(** [None] is [ErrBackfillStateNotFound]. *)
Definition ReadBackfillState (id : string) (t : backfill_table) : option BackfillState :=
  scanBackfill id <$> t !! id.

(** [SUM(complete)] and [COUNT( * )] over the rows of an account. *)
Definition BackfillProgress (accountID : string) (t : backfill_table) : Z * Z :=
  let mine := select_where (fun r => bool_decide (bf_account_id r = accountID)) t in
  (Z.of_nat (length (filter (fun r => bf_complete r = true) mine)), Z.of_nat (length mine)).

Definition LastRefresh (accountID scope : string) (t : refresh_table) : Z :=
  from_option rf_refreshed_at_ms 0%Z (t !! (accountID, scope)).

Definition RefreshSince (accountID scope : string) (t : refresh_table) : Z :=
  from_option rf_since_at_ms 0%Z (t !! (accountID, scope)).

Definition SetLastRefresh (accountID scope : string) (since at_ : Z) (db : DB) (t : refresh_table)
    : Result StoreError refresh_table :=
  match t !! (accountID, scope) with
  | Some old => Ok (<[(accountID, scope) := mkRefreshRow (Z.max (rf_refreshed_at_ms old) at_)
                                             (Z.max (rf_since_at_ms old) since)]> t)
  | None =>
      _ ← require (bool_decide (accountID ∈ db_accounts db)) ErrForeignKey;
      Ok (<[(accountID, scope) := mkRefreshRow at_ since]> t)
  end.

(** ** The shared state *)

Record Engine := mkEngine {
  en_ingest : IngestState;
  en_accounts : accounts_table;
  en_backfill : backfill_table;
  en_refresh : refresh_table;
  en_syncPaused : bool;        (** [resume] is a channel exactly while it is set *)
  en_lastSessionID : string;
  en_sweeps : Z;               (** [atomic.Uint64] *)
  en_gate : bool;              (** this account's gate of the [Freshener] is taken *)
  en_calls : nat;              (** calls of the phone so far *)
  en_reads : nat;              (** readings of the clock so far *)
}.

Definition en_db (s : Engine) : DB := w_db (is_world (en_ingest s)).

Definition set_ingest (i : IngestState) (s : Engine) : Engine :=
  mkEngine i (en_accounts s) (en_backfill s) (en_refresh s) (en_syncPaused s) (en_lastSessionID s) (en_sweeps s)
    (en_gate s) (en_calls s) (en_reads s).
Definition set_accounts (t : accounts_table) (s : Engine) : Engine :=
  mkEngine (en_ingest s) t (en_backfill s) (en_refresh s) (en_syncPaused s) (en_lastSessionID s) (en_sweeps s)
    (en_gate s) (en_calls s) (en_reads s).
Definition set_backfill (t : backfill_table) (s : Engine) : Engine :=
  mkEngine (en_ingest s) (en_accounts s) t (en_refresh s) (en_syncPaused s) (en_lastSessionID s) (en_sweeps s)
    (en_gate s) (en_calls s) (en_reads s).
Definition set_refresh (t : refresh_table) (s : Engine) : Engine :=
  mkEngine (en_ingest s) (en_accounts s) (en_backfill s) t (en_syncPaused s) (en_lastSessionID s) (en_sweeps s)
    (en_gate s) (en_calls s) (en_reads s).
Definition set_syncPaused (b : bool) (s : Engine) : Engine :=
  mkEngine (en_ingest s) (en_accounts s) (en_backfill s) (en_refresh s) b (en_lastSessionID s) (en_sweeps s)
    (en_gate s) (en_calls s) (en_reads s).
Definition set_lastSession (id : string) (s : Engine) : Engine :=
  mkEngine (en_ingest s) (en_accounts s) (en_backfill s) (en_refresh s) (en_syncPaused s) id (en_sweeps s)
    (en_gate s) (en_calls s) (en_reads s).
Definition set_sweeps (n : Z) (s : Engine) : Engine :=
  mkEngine (en_ingest s) (en_accounts s) (en_backfill s) (en_refresh s) (en_syncPaused s) (en_lastSessionID s) n
    (en_gate s) (en_calls s) (en_reads s).
Definition set_gate (b : bool) (s : Engine) : Engine :=
  mkEngine (en_ingest s) (en_accounts s) (en_backfill s) (en_refresh s) (en_syncPaused s) (en_lastSessionID s)
    (en_sweeps s) b (en_calls s) (en_reads s).
Definition set_calls (n : nat) (s : Engine) : Engine :=
  mkEngine (en_ingest s) (en_accounts s) (en_backfill s) (en_refresh s) (en_syncPaused s) (en_lastSessionID s)
    (en_sweeps s) (en_gate s) n (en_reads s).
Definition set_reads (n : nat) (s : Engine) : Engine :=
  mkEngine (en_ingest s) (en_accounts s) (en_backfill s) (en_refresh s) (en_syncPaused s) (en_lastSessionID s)
    (en_sweeps s) (en_gate s) (en_calls s) n.

(** ** Programs that may fail *)

Inductive Halt : Type := Fails (e : GoError) | OutOfFuel.

Notation EP A := (Prog Engine (Result Halt A)).

Definition done_with {A} (a : A) : EP A := Ret (Ok a).
Definition fails {A} (e : GoError) : EP A := Ret (Err (Fails e)).

Definition ep_bind {A B} (p : EP A) (k : A -> EP B) : EP B :=
  p ≫= fun r => match r with Ok a => k a | Err h => Ret (Err h) end.

Declare Scope engine_scope.
Delimit Scope engine_scope with engine.
Notation "'let!' x := p 'in' k" := (ep_bind p (fun x => k))
  (at level 200, x name, k at level 200, right associativity) : engine_scope.
Notation "'do!' p 'in' k" := (ep_bind p (fun _ => k))
  (at level 200, p at level 100, k at level 200, right associativity) : engine_scope.
Open Scope engine_scope.

(** [fmt.Errorf(context + ": %w", err)]. *)
Definition wrapping {A} (context : string) (p : EP A) : EP A :=
  p ≫= fun r => Ret match r with
    | Ok a => Ok a
    | Err (Fails e) => Err (Fails (EWrap context e))
    | Err OutOfFuel => Err OutOfFuel
    end.

(** A wait: [try] until it answers. *)
Fixpoint await (fuel : nat) {A} (try : Engine -> Engine * option (Result Halt A)) : EP A :=
  match fuel with
  | O => Ret (Err OutOfFuel)
  | S n => atomic try ≫= fun r => match r with Some a => Ret a | None => await n try end
  end.

(** The loop over a slice. *)
Fixpoint each {A} (f : A -> EP unit) (l : list A) : EP unit :=
  match l with
  | [] => done_with tt
  | x :: l' => do! f x in each f l'
  end.

(** ** The phone, the clock and the context *)

Class Phone := {
  ListConversations : nat -> Folder -> Z -> Result GoError (list GmConversation);
  ListMessages : nat -> string -> Z -> option GmCursor -> Result GoError (list GmMessage * option GmCursor);
  ListContacts : nat -> Result GoError (list GmContact);
  ListTopContacts : nat -> Result GoError (list GmContact);
  GetConversation : nat -> string -> Result GoError (option GmConversation);
  SessionID : nat -> string;
  (** [WithSession]: why no session can be opened, and what closing it reports. *)
  session_refused : nat -> option GoError;
  session_closed : nat -> option GoError;
  (** The microseconds of [LastActivity] below the millisecond. *)
  activity_us : GmConversation -> Z;
  (** [ctx.Err()] at a call, and whether the context ends while the call waits for its answer. *)
  ctx_Err : nat -> option GoError;
  ctx_ends : nat -> option GoError;
  (** The case [select] takes when a lock and [ctx.Done()] are both ready. *)
  select_done : nat -> bool;
  (** The clock in nanoseconds, one reading after the other. *)
  Clock : nat -> Z;
}.

(** What Google's identifiers and the clock are like; see Messages.v for the NUL byte. *)
Class PhoneLaws `{Phone} := {
  ctx_stays n m : (n <= m)%nat -> ctx_Err n <> None -> ctx_Err m <> None;
  clock_positive n : (0 < UnixMilli (Clock n))%Z;
  listed_nul_free n f k l c : ListConversations n f k = Ok l -> c ∈ l -> nul_free (c_SourceID c) = true;
  message_nul_free n id k cur l next m : ListMessages n id k cur = Ok (l, next) -> m ∈ l -> nul_free (m_SourceID m) = true;
  contact_nul_free n l c : ListContacts n = Ok l -> c ∈ l -> nul_free (ct_src_SourceID c) = true;
  top_nul_free n l c : ListTopContacts n = Ok l -> c ∈ l -> nul_free (ct_src_SourceID c) = true;
  got_nul_free n id c : GetConversation n id = Ok (Some c) -> nul_free (c_SourceID c) = true;
}.

Section Engine.
Context `{UUID} `{Digest} `{Phone}.
Context (ID : string) (seal : option (string -> string -> Result string string)).

(** One call of the phone. *)
Definition call {A} (f : nat -> A) : Prog Engine A :=
  atomic (fun s => (set_calls (S (en_calls s)) s, f (en_calls s))).

Definition phone {A} (context : string) (f : nat -> Result GoError A) : EP A :=
  call f ≫= fun r => Ret match r with Ok a => Ok a | Err e => Err (Fails (EWrap context e)) end.

(** [a.now()] and the store's clock, in nanoseconds. *)
Definition now : EP Z :=
  atomic (fun s => (set_reads (S (en_reads s)) s, Ok (Clock (en_reads s)))).

(** *** The store: [Write] and the reads

    A statement under a context that is done is refused, by [Write] or by the driver.  When
    the context ends while [Write] waits for the writer, the statement may have been
    carried out although the caller is told that it was not. *)
Definition writing {A} (f : Engine -> Engine * Result Halt A) : EP A :=
  atomic (fun s =>
    let n := en_calls s in
    let s0 := set_calls (S n) s in
    match ctx_Err n with
    | Some e => (s0, Err (Fails e))
    | None => let '(s1, r) := f s0 in
              (s1, match ctx_ends n with Some e => Err (Fails e) | None => r end)
    end).

Definition reading {A} (f : Engine -> Result Halt A) : EP A :=
  atomic (fun s =>
    let s0 := set_calls (S (en_calls s)) s in
    (s0, match ctx_Err (en_calls s) with None => f s0 | Some e => Err (Fails e) end)).

Definition stmt (f : Engine -> Engine) : EP unit := writing (fun s => (f s, Ok tt)).

(** A field of the account under its mutex. *)
Definition locally (f : Engine -> Engine) : EP unit := atomic (fun s => (f s, Ok tt)).

(** *** Ingestion *)

Definition ingester (n : nat) : Ingester :=
  mkIngester ID seal (UnixMilli (Clock n)) (UnixMilli (Clock (n + 1))) (UnixMilli (Clock (n + 2)))
    (UnixMilli (Clock (n + 3))).

Definition put_conversation (c : GmConversation) (s : Engine) : Engine * Result Halt unit :=
  let '(i, r) := IngestConversation (ingester (en_reads s)) c (en_ingest s) in
  (set_reads (en_reads s + 4) (set_ingest i s),
   match r with Ok _ => Ok tt | Err e => Err (Fails e) end).

Definition put_message (m : GmMessage) (isDM isOld : bool) (s : Engine) : Engine * Result Halt unit :=
  let '(i, (_, err)) := IngestMessage (ingester (en_reads s)) m isDM isOld (en_ingest s) in
  (set_reads (en_reads s + 4) (set_ingest i s),
   match err with None => Ok tt | Some e => Err (Fails e) end).

Definition ingestConversation (c : GmConversation) : EP unit := writing (put_conversation c).
Definition ingestMessage (m : GmMessage) (isDM isOld : bool) : EP unit := writing (put_message m isDM isOld).

Definition countUnknown : EP unit :=
  locally (fun s => set_ingest (on_count CountUnknown (en_ingest s)) s).

(** [m.ConversationID = c.SourceID]. *)
Definition in_conversation (convSourceID : string) (m : GmMessage) : GmMessage :=
  mkGmMessage (m_SourceID m) convSourceID (m_ParticipantID m) (m_Text m) (m_Subject m) (m_Timestamp m) (m_TmpID m)
    (m_StatusRaw m) (m_Kind m) (m_DeliveryState m) (m_ReplyToMessageID m) (m_Attachments m) (m_Reactions m).

(** *** The backfill pause *)

Definition PauseBackfill : EP unit := locally (set_syncPaused true).
Definition ResumeBackfill : EP unit := locally (set_syncPaused false).

(** A blocked wait looks again: when its channel is closed, and whenever it likes. *)
Definition waitForSync (fuel : nat) : EP unit :=
  await fuel (fun s =>
    (set_calls (S (en_calls s)) s,
     match ctx_Err (en_calls s) with
     | Some e => Some (Err (Fails e))
     | None => if en_syncPaused s then None else Some (Ok tt)
     end)).

(** *** The account's row *)

Definition Row : EP Account :=
  reading (fun s => match ReadAccount ID (en_accounts s) with
    | Ok a => Ok a
    | Err _ => Err (Fails (EOther "account not found"))
    end).

Definition LastEventAt : EP Z := let! row := Row in done_with (a_LastEventAtMS row).
Definition SweepSince : EP Z := let! row := Row in done_with (a_LastSweepAtMS row).

Definition TouchEvent (at_ : option Z) : EP unit :=
  let! ms := match at_ with
             | Some t => done_with t
             | None => let! n := now in done_with (UnixMilli n)
             end in
  stmt (fun s => set_accounts (TouchAccountEvent ms ID (en_accounts s)) s).

Definition setLastSweep (at_ : Z) : EP unit :=
  stmt (fun s => set_accounts (SetAccountLastSweep (UnixMilli at_) ID (en_accounts s)) s).

Definition setBackfillComplete (at_ : Z) : EP unit :=
  let! n := now in
  stmt (fun s => set_accounts (SetAccountBackfillComplete (UnixMilli n) ID (Some (UnixMilli at_)) (en_accounts s)) s).

Definition countSweep : EP unit := locally (fun s => set_sweeps (add_one (en_sweeps s)) s).

Definition setSessionID (id : string) : EP unit :=
  if decide (id = ""%string) then done_with tt else locally (set_lastSession id).

(** *** The two progress tables *)

Definition recordBackfill (b : BackfillState) : EP unit :=
  let! n := now in
  writing (fun s => match SetBackfillState (UnixMilli n) b (en_db s) (en_backfill s) with
    | Ok t => (set_backfill t s, Ok tt)
    | Err e => (s, Err (Fails (store_failure "recording backfill state" e)))
    end).

Definition recordRefresh (scope : string) (since at_ : Z) : EP unit :=
  writing (fun s => match SetLastRefresh ID scope since at_ (en_db s) (en_refresh s) with
    | Ok t => (set_refresh t s, Ok tt)
    | Err _ => (s, Err (Fails (EOther "FOREIGN KEY constraint failed")))
    end).
End Engine.

(** ** What no action ever undoes *)

Definition bf_le (r r' : BackfillRow) : Prop := bf_account_id r' = bf_account_id r.

Definition rf_le (r r' : RefreshRow) : Prop :=
  (rf_refreshed_at_ms r <= rf_refreshed_at_ms r')%Z /\ (rf_since_at_ms r <= rf_since_at_ms r')%Z.

#[export] Instance bf_le_po : PreOrder bf_le.
Proof. split; [by intros r|]. intros a b c ? ?. unfold bf_le in *. congruence. Qed.

#[export] Instance rf_le_po : PreOrder rf_le.
Proof. split; [intros r; unfold rf_le; lia|]. intros a b c ? ?. unfold rf_le in *. lia. Qed.

(** A history of the stores, of this account's row in the accounts table, and of the two
    progress tables. *)
Record en_le `{UUID} `{Digest} (s s' : Engine) : Prop := {
  enl_world : rtc WStep (is_world (en_ingest s)) (is_world (en_ingest s'));
  enl_accounts : rtc AcctStep (en_accounts s) (en_accounts s');
  enl_backfill : table_le bf_le (en_backfill s) (en_backfill s');
  enl_refresh : table_le rf_le (en_refresh s) (en_refresh s');
}.

Section Histories.
Context `{UUIDLaws} `{Digest}.

#[export] Instance en_le_po : PreOrder en_le.
Proof.
  split.
  - intros s. split; [done|done|apply table_le_refl; exact _|apply table_le_refl; exact _].
  - intros a b c [] []. split; [by etransitivity|by etransitivity|by eapply table_le_trans; [exact _|..]..].
Qed.

Lemma IngestConversation_steps ing c s : nul_free (in_AccountID ing) = true -> nul_free (c_SourceID c) = true ->
  rtc WStep (is_world s) (is_world (IngestConversation ing c s).1).
Proof.
  intros Ha Hc. unfold IngestConversation.
  destruct (UpsertConversation _ _ _ _) as [[db id]|e] eqn:E; [|done]. simpl.
  apply rtc_once, ws_db. by eapply step_conversation; [..|exact E].
Qed.

Lemma SetBackfillState_le now b db t t' : SetBackfillState now b db t = Ok t' -> table_le bf_le t t'.
Proof.
  unfold SetBackfillState. destruct (t !! bs_ConversationID b) as [old|] eqn:E.
  - intros [= <-]. apply table_le_insert; [exact _|]. intros r Hr. rewrite E in Hr. by injection Hr as <-.
  - intros ([] & _ & [= <-])%bind_Ok_inv. apply table_le_insert; [exact _|]. intros r Hr. by rewrite E in Hr.
Qed.

Lemma SetLastRefresh_le a scope since at_ db t t' : SetLastRefresh a scope since at_ db t = Ok t' -> table_le rf_le t t'.
Proof.
  unfold SetLastRefresh. destruct (t !! (a, scope)) as [old|] eqn:E.
  - intros [= <-]. apply table_le_insert; [exact _|]. intros r Hr. rewrite E in Hr. injection Hr as <-.
    unfold rf_le. simpl. lia.
  - intros ([] & _ & [= <-])%bind_Ok_inv. apply table_le_insert; [exact _|]. intros r Hr. by rewrite E in Hr.
Qed.
End Histories.

(** ** The interface: what every action of the engine guarantees

    [EngineGuar mine G]: the relation [G] holds of every action on the data, where [mine]
    are the conversations whose backfill rows may be written.  A property of all the
    programs of the engine is proved once, against this interface. *)

Definition same_data (s s' : Engine) : Prop :=
  is_world (en_ingest s') = is_world (en_ingest s) /\ en_accounts s' = en_accounts s /\
  en_backfill s' = en_backfill s /\ en_refresh s' = en_refresh s /\ (en_calls s <= en_calls s')%nat.

#[export] Hint Extern 0 (same_data _ _) => (split_and!; simpl; first [reflexivity | lia]) : core.

Class EngineGuar `{UUID} `{Digest} (ID : string) (mine : string -> Prop) (G : relation Engine) := {
  eg_po :: PreOrder G;
  eg_same s s' : same_data s s' -> G s s';
  eg_conversation t c s db id : nul_free (c_SourceID c) = true -> UpsertConversation t ID c (en_db s) = Ok (db, id) ->
    G s (set_ingest (on_world (set_db db) (en_ingest s)) s);
  eg_contact t c s db id : nul_free (ct_src_SourceID c) = true -> UpsertContact t ID c "" (en_db s) = Ok (db, id) ->
    G s (set_ingest (on_world (set_db db) (en_ingest s)) s);
  eg_relink s : G s (set_ingest (on_world (set_db (RelinkAccountContacts ID (en_db s))) (en_ingest s)) s);
  eg_message ing m isDM isOld s : in_AccountID ing = ID -> (0 < in_settle_ms ing)%Z ->
    nul_free (m_ConversationID m) = true -> nul_free (m_SourceID m) = true ->
    G s (set_ingest (IngestMessage ing m isDM isOld (en_ingest s)).1 s);
  eg_touch ms s : G s (set_accounts (TouchAccountEvent ms ID (en_accounts s)) s);
  eg_sweep ms s : G s (set_accounts (SetAccountLastSweep ms ID (en_accounts s)) s);
  eg_complete t at_ s : G s (set_accounts (SetAccountBackfillComplete t ID at_ (en_accounts s)) s);
  eg_backfill t b s tbl : mine (bs_ConversationID b) ->
    SetBackfillState t b (en_db s) (en_backfill s) = Ok tbl -> G s (set_backfill tbl s);
  eg_refresh scope since at_ s tbl : SetLastRefresh ID scope since at_ (en_db s) (en_refresh s) = Ok tbl ->
    G s (set_refresh tbl s);
}.

(** [p] guarantees [G] in any company, and a value it returns satisfies [P]. *)
Definition safe (G : relation Engine) {A} (P : A -> Prop) (p : EP A) : Prop :=
  forall s, rg (fun _ _ => True) G p (fun r _ => forall a, r = Ok a -> P a) s.

Create HintDb engine.

Section Safe.
Context (G : relation Engine).

Lemma any_po : PreOrder (fun _ _ : Engine => True).
Proof. split; by intros ?. Qed.

Lemma safe_ensures {A} (P : A -> Prop) p : safe G P p -> ensures G p.
Proof. intros Hp s. eapply (rg_mono _ _ _ _ _ s); [|apply Hp]. done. Qed.

Lemma safe_done {A} (P : A -> Prop) a : P a -> safe G P (done_with a).
Proof. intros HP s s' _ a' [= <-]. exact HP. Qed.

Lemma safe_halt {A} (P : A -> Prop) h : safe G P (Ret (Err h)).
Proof. by intros s s' _ a'. Qed.

Lemma safe_weaken {A} (P P' : A -> Prop) p : (forall a, P a -> P' a) -> safe G P p -> safe G P' p.
Proof. intros HP Hp s. eapply (rg_mono _ _ _ _ _ s); [|apply Hp]. simpl. auto. Qed.

Lemma safe_trivial {A} (P : A -> Prop) p : safe G P p -> safe G (fun _ => True) p.
Proof. by apply safe_weaken. Qed.

Lemma safe_bind {A B} (P : A -> Prop) (Q : B -> Prop) p (k : A -> EP B) :
  safe G P p -> (forall a, P a -> safe G Q (k a)) -> safe G Q (ep_bind p k).
Proof.
  intros Hp Hk s. unfold ep_bind. apply rg_bind; [apply any_po|]. eapply (rg_mono _ _ _ _ _ s); [|apply Hp].
  intros [a|h] s' HP; [by apply Hk, HP|]. by intros s'' _ a.
Qed.

(** Whatever a program makes of the result, errors included. *)
Lemma safe_after {A B} (P : A -> Prop) (Q : B -> Prop) p (k : Result Halt A -> EP B) :
  safe G P p -> (forall r, (forall a, r = Ok a -> P a) -> safe G Q (k r)) -> safe G Q (p ≫= k).
Proof.
  intros Hp Hk s. apply rg_bind; [apply any_po|]. eapply (rg_mono _ _ _ _ _ s); [|apply Hp].
  intros r s' HP. by apply Hk.
Qed.

Lemma safe_atomic {A} (P : A -> Prop) (f : Engine -> Engine * Result Halt A) :
  (forall s, G s (f s).1 /\ forall a, (f s).2 = Ok a -> P a) -> safe G P (atomic f).
Proof. intros Hf s s' _. destruct (Hf s') as [HG HP]. split; [done|]. intros s'' _. exact HP. Qed.

Lemma safe_each {A} (f : A -> EP unit) (P : A -> Prop) l :
  (forall x, P x -> safe G (fun _ => True) (f x)) -> Forall P l -> safe G (fun _ => True) (each f l).
Proof.
  intros Hf. induction 1 as [|x l Hx _ IH]; simpl; [by apply safe_done|]. by eapply safe_bind; [by apply Hf|].
Qed.

Lemma safe_wrapping {A} (P : A -> Prop) context p : safe G P p -> safe G P (wrapping context p).
Proof.
  intros Hp. eapply safe_after; [exact Hp|]. intros [a|[e|]] HP; [by apply safe_done, HP|apply safe_halt|apply safe_halt].
Qed.

Lemma safe_await {A} fuel (P : A -> Prop) (try : Engine -> Engine * option (Result Halt A)) :
  (forall s, G s (try s).1 /\ forall a, (try s).2 = Some (Ok a) -> P a) -> safe G P (await fuel try).
Proof.
  intros Ht. induction fuel as [|n IH]; simpl; [apply safe_halt|]. intros s s' _. destruct (Ht s') as [HG HP].
  split; [exact HG|]. simpl. destruct (try s') as [s1 [r|]]; simpl in *; [|by apply IH].
  intros s2 _ a ->. by apply HP.
Qed.
End Safe.

Ltac safe_step :=
  first
    [ apply safe_done; try done
    | apply safe_halt
    | apply safe_wrapping
    | match goal with
      | |- safe _ _ (if ?b then _ else _) => destruct b
      | |- safe _ _ (match ?x with _ => _ end) => destruct x eqn:?
      end ].

#[export] Hint Resolve safe_halt : engine.

Section Actions.
Context `{UUIDLaws} `{Digest} `{PhoneLaws}.
Context (ID : string) (seal : option (string -> string -> Result string string)) (mine : string -> Prop).
Context (G : relation Engine) `{!EngineGuar ID mine G}.

Lemma G_same s s' : same_data s s' -> G s s'.
Proof. apply eg_same. Qed.

Lemma G_step s s1 s2 : G s s1 -> same_data s1 s2 -> G s s2.
Proof. intros Hg Hd. etransitivity; [exact Hg|]. by apply eg_same. Qed.

Lemma G_calls s s' : G (set_calls (S (en_calls s)) s) s' -> G s s'.
Proof. intros Hg. etransitivity; [|exact Hg]. by apply eg_same. Qed.

Lemma safe_call {A} (f : nat -> Result Halt A) (P : A -> Prop) : (forall n a, f n = Ok a -> P a) -> safe G P (call f).
Proof. intros Hf. apply safe_atomic. intros s. split; [by apply eg_same|]. apply Hf. Qed.

Lemma safe_phone {A} context (f : nat -> Result GoError A) (P : A -> Prop) :
  (forall n a, f n = Ok a -> P a) -> safe G P (phone context f).
Proof.
  intros Hf s s' _. split; [by apply eg_same|]. simpl. intros s'' _ a. destruct (f (en_calls s')) eqn:E; [|done].
  intros [= <-]. by eapply Hf.
Qed.

Lemma safe_now : safe G (fun t => 0 < UnixMilli t)%Z now.
Proof. apply safe_atomic. intros s. split; [by apply eg_same|]. simpl. intros a [= <-]. apply clock_positive. Qed.

Lemma safe_writing {A} (P : A -> Prop) (f : Engine -> Engine * Result Halt A) :
  (forall s, G s (f s).1 /\ forall a, (f s).2 = Ok a -> P a) -> safe G P (writing f).
Proof.
  intros Hf. apply safe_atomic. intros s. cbv zeta. destruct (ctx_Err (en_calls s)); simpl; [split; [by apply eg_same|done]|].
  destruct (Hf (set_calls (S (en_calls s)) s)) as [HG HP]. destruct (f _) as [s1 r]. simpl in *.
  split; [by eapply G_calls|]. destruct (ctx_ends (en_calls s)); [done|exact HP].
Qed.

Lemma safe_reading {A} (P : A -> Prop) (f : Engine -> Result Halt A) :
  (forall s a, f s = Ok a -> P a) -> safe G P (reading f).
Proof.
  intros Hf. apply safe_atomic. intros s. split; [by apply eg_same|]. simpl. destruct (ctx_Err _); [done|]. intros a. apply Hf.
Qed.

Lemma safe_stmt (f : Engine -> Engine) : (forall s, G s (f s)) -> safe G (fun _ => True) (stmt f).
Proof. intros Hf. apply safe_writing. intros s. by split. Qed.

Lemma safe_locally (f : Engine -> Engine) : (forall s, same_data s (f s)) -> safe G (fun _ => True) (locally f).
Proof. intros Hf. apply safe_atomic. intros s. split; [by apply eg_same|done]. Qed.

Lemma safe_ingestConversation c : nul_free (c_SourceID c) = true -> safe G (fun _ => True) (ingestConversation ID seal c).
Proof.
  intros Hc. apply safe_writing. intros s. split; [|done]. unfold put_conversation, IngestConversation.
  destruct (UpsertConversation _ _ _ _) as [[db id]|e] eqn:E; simpl; [|by apply eg_same].
  eapply G_step; [by eapply (eg_conversation _ c s)|done].
Qed.

Lemma safe_ingestMessage m isDM isOld : nul_free (m_ConversationID m) = true -> nul_free (m_SourceID m) = true ->
  safe G (fun _ => True) (ingestMessage ID seal m isDM isOld).
Proof.
  intros Hc Hm. apply safe_writing. intros s. split; [|done]. unfold put_message.
  assert (G s (set_ingest (IngestMessage (ingester ID seal (en_reads s)) m isDM isOld (en_ingest s)).1 s)) as Hg
    by (apply eg_message; [done|apply clock_positive|done|done]).
  destruct (IngestMessage _ _ _ _ _) as [i [res err]]. simpl in *. by eapply G_step.
Qed.

Lemma safe_waitForSync fuel : safe G (fun _ => True) (waitForSync fuel).
Proof. apply safe_await. intros s. split; [by apply eg_same|done]. Qed.

Lemma safe_Row : safe G (fun _ => True) (Row ID).
Proof. by apply safe_reading. Qed.

Lemma safe_LastEventAt : safe G (fun _ => True) (LastEventAt ID).
Proof. eapply safe_bind; [apply safe_Row|]. intros. by apply safe_done. Qed.

Lemma safe_SweepSince : safe G (fun _ => True) (SweepSince ID).
Proof. eapply safe_bind; [apply safe_Row|]. intros. by apply safe_done. Qed.

Lemma safe_TouchEvent at_ : safe G (fun _ => True) (TouchEvent ID at_).
Proof.
  apply (safe_bind _ (fun _ => True)).
  - destruct at_; [by apply safe_done|]. eapply safe_bind; [apply safe_now|]. intros. by apply safe_done.
  - intros ms _. apply safe_stmt. intros s. apply eg_touch.
Qed.

Lemma safe_setLastSweep at_ : safe G (fun _ => True) (setLastSweep ID at_).
Proof. apply safe_stmt. intros s. apply eg_sweep. Qed.

Lemma safe_setBackfillComplete at_ : safe G (fun _ => True) (setBackfillComplete ID at_).
Proof. eapply safe_bind; [apply safe_now|]. intros n _. apply safe_stmt. intros s. apply eg_complete. Qed.

Lemma safe_setSessionID id : safe G (fun _ => True) (setSessionID id).
Proof. unfold setSessionID. destruct (decide _); [by apply safe_done|by apply safe_locally]. Qed.

Lemma safe_recordBackfill b : mine (bs_ConversationID b) -> safe G (fun _ => True) (recordBackfill b).
Proof.
  intros Hm. eapply safe_bind; [apply safe_now|]. intros n _. apply safe_writing. intros s.
  destruct (SetBackfillState _ _ _ _) as [t|e] eqn:E; (split; [|done]); [by eapply eg_backfill|by apply eg_same].
Qed.

Lemma safe_recordRefresh scope since at_ : safe G (fun _ => True) (recordRefresh ID scope since at_).
Proof.
  apply safe_writing. intros s.
  destruct (SetLastRefresh _ _ _ _ _ _) as [t|e] eqn:E; (split; [|done]); [by eapply eg_refresh|by apply eg_same].
Qed.
End Actions.

#[export] Hint Resolve safe_call safe_now safe_ingestConversation safe_ingestMessage safe_waitForSync safe_Row safe_LastEventAt safe_SweepSince
  safe_TouchEvent safe_setLastSweep safe_setBackfillComplete safe_setSessionID safe_recordBackfill safe_recordRefresh : engine.

(** *** The first instance: histories *)

#[export] Instance en_le_guar `{UUIDLaws} `{Digest} ID mine : nul_free ID = true -> EngineGuar ID mine en_le.
Proof.
  intros HID.
  assert (forall s db', MsgStep (en_db s) db' -> en_le s (set_ingest (on_world (set_db db') (en_ingest s)) s)) as Hdb.
  { intros s db' Hst. split; [|done|apply table_le_refl; exact _..]. by apply rtc_once, ws_db. }
  assert (forall s t, AcctStep (en_accounts s) t -> en_le s (set_accounts t s)) as Hac.
  { intros s t Hst. split; [done|by apply rtc_once|apply table_le_refl; exact _..]. }
  split.
  - exact _.
  - intros s s' (E1 & E2 & E3 & E4 & _). split; [by rewrite E1|by rewrite E2|rewrite E3|rewrite E4]; apply table_le_refl; exact _.
  - intros t c s db id Hc E. apply Hdb. by eapply step_conversation; [..|exact E].
  - intros t c s db id Hc E. apply Hdb. by eapply step_contact; [..|exact E].
  - intros s. apply Hdb. apply step_relink.
  - intros ing m isDM isOld s Ha Hn Hc Hm. split; [|done|apply table_le_refl; exact _..]. simpl.
    apply upsert_then_tail; [by rewrite Ha|done..].
  - intros ms s. apply Hac. constructor.
  - intros ms s. apply Hac. constructor.
  - intros t at_ s. apply Hac. constructor.
  - intros t b s tbl _ E. split; [done|done|by eapply SetBackfillState_le|apply table_le_refl; exact _].
  - intros scope since at_ s tbl E. split; [done|done|apply table_le_refl; exact _|by eapply SetLastRefresh_le].
Qed.

(** *** What a reachable engine holds *)

(** The stores are reachable ones. *)
Definition en_reach `{UUID} `{Digest} (s : Engine) : Prop :=
  rtc MsgStep empty_db (en_db s) /\ rtc OpStep ∅ (w_ops (is_world (en_ingest s))).

Section Reach.
Context `{UUIDLaws} `{Digest}.

Lemma en_le_reach s s' : en_le s s' -> en_reach s ->
  en_reach s' /\ db_ok (en_db s') /\ db_le (en_db s) (en_db s').
Proof.
  intros [Hw _ _ _] [Hd Ho]. destruct (wsteps_split _ _ Hw) as (Hd' & Ho' & _).
  destruct (msg_steps_good _ _ (reachable_ok _ Hd) Hd') as [Hok Hle].
  split; [|done]. split; by etransitivity.
Qed.

Lemma ensures_le {A} (p : EP A) s : ensures en_le p -> en_le s (run p s).1.
Proof. apply ensures_run. exact _. Qed.
End Reach.
