(* ===== verification/SweepRuns.v ===== *)
(** * What a sweep recovers (internal/core/reconcile.go)

    A sweep that nothing interrupts, against a phone whose answers stand still and under a
    context that is not cancelled.  [absorb] is the reference: the messages one after the
    other through the ingester.  A walk of a thread is [absorb] of the messages down to the
    first one older than the bound, whatever the size of the pages; so a sweep ends, and
    when it succeeds every message above the bound of every thread that is due is held. *)

From S2P Require Import Prelude Delivery Ids Errors Limits Operations GoStrings Messages Capability Pipeline Ingest Prog Accounts Rely Engine Sweep.

(** The messages down to the first older one. *)
Fixpoint recent (bound : Z) (l : list GmMessage) : list GmMessage :=
  match l with
  | [] => []
  | m :: l' => if older bound m then [] else m :: recent bound l'
  end.

Lemma recent_app bound l1 l2 :
  recent bound (l1 ++ l2) = if existsb (older bound) l1 then recent bound l1 else l1 ++ recent bound l2.
Proof.
  induction l1 as [|m l1 IH]; simpl; [done|]. destruct (older bound m); [done|]. rewrite IH. simpl.
  by destruct (existsb (older bound) l1).
Qed.

Lemma recent_all bound l : existsb (older bound) l = false -> recent bound l = l.
Proof. induction l as [|m l IH]; simpl; [done|]. destruct (older bound m); [done|]. intros E. by rewrite IH. Qed.

(** Newest first: a message that carries a time comes before the ones of an earlier time. *)
Definition newest_first (l : list GmMessage) : Prop :=
  StronglySorted (fun m1 m2 => forall b, older b m1 = true -> older b m2 = true) l.

(** In a thread listed newest first the walk misses nothing above the bound. *)
Lemma recent_exact bound l m : newest_first l -> m ∈ l -> older bound m = false -> m ∈ recent bound l.
Proof.
  induction 1 as [|m1 l _ IH Hm1]; intros Hm Ho; [by apply elem_of_nil in Hm|]. simpl.
  apply elem_of_cons in Hm as [->|Hm].
  - rewrite Ho. by left.
  - destruct (older bound m1) eqn:E1; [|right; by apply IH]. rewrite Forall_forall in Hm1.
    by rewrite (Hm1 m Hm bound E1) in Ho.
Qed.

Section Runs.
Context `{UUIDLaws} `{Digest} `{PhoneLaws}.
Context (ID : string) (seal : option (string -> string -> Result string string)) (cfg : Config).
Hypothesis HID : nul_free ID = true.

#[local] Instance histories : EngineGuar ID (fun _ => True) en_le := en_le_guar ID _ HID.

(** The context lives. *)
Definition calm : Prop := (forall n, ctx_Err n = None) /\ (forall n, ctx_ends n = None).
Hypothesis Hcalm : calm.

(** The reference. *)
Fixpoint absorb (conv : string) (isDM : bool) (l : list GmMessage) (s : Engine) : Engine * Result Halt unit :=
  match l with
  | [] => (s, Ok tt)
  | m :: l' =>
      match put_message ID seal (in_conversation conv m) isDM false s with
      | (s', Ok _) => absorb conv isDM l' s'
      | (s', Err h) => (s', Err h)
      end
  end.

(** The phone answers the pages of a thread in this order, whenever it is asked. *)
Inductive serves (conv : string) : option GmCursor -> list (list GmMessage) -> Prop :=
| serves_none cur next :
    (forall n, ListMessages n conv (MessagePageSize cfg) cur = Ok ([], next)) -> serves conv cur []
| serves_last cur page : page <> [] ->
    (forall n, ListMessages n conv (MessagePageSize cfg) cur = Ok (page, None)) -> serves conv cur [page]
| serves_more cur page next rest : page <> [] ->
    (forall n, ListMessages n conv (MessagePageSize cfg) cur = Ok (page, Some next)) ->
    serves conv (Some next) rest -> serves conv cur (page :: rest).

(** The phone lists these conversations. *)
Definition lists (convs : list GmConversation) : Prop :=
  exists inbox arch, convs = inbox ++ (if IncludeArchive cfg then arch else []) /\
    (forall n, ListConversations n FolderInbox (ConversationPageSize cfg) = Ok inbox) /\
    (forall n, ListConversations n FolderArchive (ConversationPageSize cfg) = Ok arch).

(** ** Runs under a living context *)

Lemma run_writing {A} (f : Engine -> Engine * Result Halt A) s : run (writing f) s = f (set_calls (S (en_calls s)) s).
Proof. unfold writing. simpl. rewrite (proj1 Hcalm). destruct (f _) as [s1 r]. by rewrite (proj2 Hcalm). Qed.

Lemma run_ep_bind {A B} (p : EP A) (k : A -> EP B) s :
  run (ep_bind p k) s = match run p s with (s', Ok a) => run (k a) s' | (s', Err h) => (s', Err h) end.
Proof. unfold ep_bind. rewrite run_bind. by destruct (run p s) as [s' [a|h]]. Qed.

Lemma run_phone {A} context (f : nat -> Result GoError A) s :
  run (phone context f) s = (set_calls (S (en_calls s)) s,
    match f (en_calls s) with Ok a => Ok a | Err e => Err (Fails (EWrap context e)) end).
Proof. done. Qed.

Lemma put_message_calls m isDM isOld n s :
  put_message ID seal m isDM isOld (set_calls n s) =
    (set_calls n (put_message ID seal m isDM isOld s).1, (put_message ID seal m isDM isOld s).2).
Proof. unfold put_message. simpl. by destruct (IngestMessage _ _ _ _ _) as [i [res err]]. Qed.

Lemma set_calls_idem n n' s : set_calls n (set_calls n' s) = set_calls n s.
Proof. done. Qed.

Lemma absorb_calls conv isDM l n s :
  absorb conv isDM l (set_calls n s) = (set_calls n (absorb conv isDM l s).1, (absorb conv isDM l s).2).
Proof.
  revert s. induction l as [|m l IH]; intros s; simpl; [done|]. rewrite put_message_calls.
  destruct (put_message _ _ _ _ _ s) as [s1 [[]|h]]; simpl; [apply IH|done].
Qed.

Lemma absorb_app conv isDM l1 l2 s :
  absorb conv isDM (l1 ++ l2) s =
    match absorb conv isDM l1 s with (s', Ok _) => absorb conv isDM l2 s' | (s', Err h) => (s', Err h) end.
Proof.
  revert s. induction l1 as [|m l1 IH]; intros s; simpl; [done|].
  destruct (put_message _ _ _ _ _ s) as [s1 [[]|h]]; [apply IH|done].
Qed.

Lemma run_sweep_page since conv isDM page s :
  exists n, run (sweep_page ID seal since conv isDM page) s =
    (set_calls n (absorb conv isDM (recent since page) s).1,
     match (absorb conv isDM (recent since page) s).2 with
     | Ok _ => Ok (existsb (older since) page)
     | Err h => Err h
     end).
Proof.
  revert s. induction page as [|m page IH]; intros s; cbn [sweep_page recent existsb absorb].
  { exists (en_calls s). by destruct s. }
  destruct (older since m); cbn [absorb]; [exists (en_calls s); by destruct s|].
  rewrite run_ep_bind. unfold ingestMessage. rewrite run_writing, put_message_calls.
  destruct (put_message _ _ _ _ _ s) as [s1 [[]|h]]; simpl; [|by eexists].
  destruct (IH (set_calls (S (en_calls s)) s1)) as [n ->]. exists n.
  by rewrite absorb_calls; cbn [fst snd]; rewrite ?set_calls_idem.
Qed.

(** A walk of a thread is [absorb] of what is recent, whatever the pages are. *)
Lemma run_sweep_pages since conv isDM cur pages fuel s :
  serves conv cur pages -> (length pages < fuel)%nat ->
  exists n, run (sweep_pages ID seal cfg fuel since conv isDM cur) s =
    (set_calls n (absorb conv isDM (recent since (concat pages)) s).1,
     (absorb conv isDM (recent since (concat pages)) s).2).
Proof.
  intros Hs. revert fuel s. induction Hs as [cur next Hl|cur page Hne Hl|cur page next rest Hne Hl _ IH];
    intros fuel s Hf; (destruct fuel as [|fuel]; [lia|]); cbn [sweep_pages]; rewrite run_ep_bind, run_phone, Hl;
    cbn [fst snd].
  - simpl. by eexists.
  - destruct page as [|m page]; [done|]. rewrite run_ep_bind. cbn [concat]. rewrite app_nil_r.
    destruct (run_sweep_page since conv isDM (m :: page) (set_calls (S (en_calls s)) s)) as [n ->].
    rewrite absorb_calls; cbn [fst snd]; rewrite ?set_calls_idem. cbn [fst snd]. exists n.
    destruct (absorb _ _ _ _) as [s1 [[]|h]]; cbn [fst snd]; [|done]. by destruct (existsb _ _).
  - destruct page as [|m page]; [done|]. rewrite run_ep_bind. cbn [concat]. rewrite recent_app.
    destruct (run_sweep_page since conv isDM (m :: page) (set_calls (S (en_calls s)) s)) as [n ->].
    rewrite absorb_calls; cbn [fst snd]; rewrite ?set_calls_idem. cbn [fst snd].
    destruct (existsb (older since) (m :: page)) eqn:Eo.
    + exists n. by destruct (absorb _ _ _ _) as [s1 [[]|h]].
    + rewrite (recent_all _ _ Eo), absorb_app. destruct (absorb _ _ (m :: page) s) as [s1 [[]|h]]; cbn [fst snd]; [|by eexists].
      destruct (IH fuel (set_calls n s1)) as [n' ->]; [simpl in Hf; lia|]. exists n'. by rewrite absorb_calls; cbn [fst snd]; rewrite ?set_calls_idem.
Qed.

(** ** What is held afterwards *)

(** The message is one the ingester ignores, or there is a row for it. *)
Definition held (conv : string) (isDM : bool) (m : GmMessage) (db : DB) : Prop :=
  ShouldIgnoreStatus (m_StatusRaw m) isDM = true \/ is_Some (db_messages db !! MessageID ID conv (m_SourceID m)).

Lemma held_le conv isDM m db db' : db_le db db' -> held conv isDM m db -> held conv isDM m db'.
Proof. intros Hle [Hi|Hr]; [by left|right]. eapply table_le_is_Some; [apply (le_msg _ _ Hle)|done]. Qed.

Lemma UpsertMessage_row t a cs m db db' res : UpsertMessage t a cs m db = Ok (db', res) ->
  is_Some (db_messages db' !! MessageID a cs (m_SourceID m)).
Proof.
  unfold UpsertMessage. destruct (db_messages db !! _) as [old|] eqn:E.
  - destruct (_ && _); [intros [= <- _]; by eexists|]. rewrite update_message_ok. intros [= <- _]. simpl.
    rewrite lookup_insert_eq. by eexists.
  - intros ([] & _ & ([] & _ & [= <- _])%bind_Ok_inv)%bind_Ok_inv. simpl. rewrite lookup_insert_eq. by eexists.
Qed.

Lemma put_message_le conv m isDM s : nul_free conv = true -> nul_free (m_SourceID m) = true ->
  en_le s (put_message ID seal (in_conversation conv m) isDM false s).1.
Proof.
  intros Hc Hm.
  assert (en_le s (set_ingest (IngestMessage (ingester ID seal (en_reads s)) (in_conversation conv m) isDM false (en_ingest s)).1 s)) as [Hw Ha Hb Hr]
    by (apply (@eg_message _ _ ID (fun _ => True) en_le (en_le_guar ID _ HID)); [done|apply clock_positive|done|done]).
  unfold put_message. by destruct (IngestMessage _ _ _ _ _) as [i [res err]].
Qed.

Lemma put_message_held conv m isDM s s' : en_reach s -> nul_free conv = true -> nul_free (m_SourceID m) = true ->
  put_message ID seal (in_conversation conv m) isDM false s = (s', Ok tt) -> held conv isDM m (en_db s').
Proof.
  intros [Hd _] Hc Hm. unfold put_message, held. set (ing := ingester ID seal (en_reads s)).
  destruct (ShouldIgnoreStatus (m_StatusRaw m) isDM) eqn:Hi; [by left|]. intros Hp. right.
  destruct (decide (conv = ""%string)) as [->|Hne].
  { revert Hp. unfold IngestMessage. cbn [m_StatusRaw in_conversation]. rewrite Hi, decide_True by done. done. }
  rewrite IngestMessage_eq in Hp by done. cbn [m_ConversationID in_conversation] in Hp.
  destruct (UpsertMessage _ _ _ _ _) as [[db1 res]|e] eqn:E; [|done].
  pose proof (UpsertMessage_row _ _ _ _ _ _ _ E) as Hrow. destruct (UpsertMessage_frame _ _ _ _ _ _ _ E) as (_ & _ & Eid).
  destruct (after_upsert_steps ing (in_conversation conv m) false res (on_world (set_db db1) (en_ingest s))) as [Hst _].
  { rewrite Eid. apply MessageID_nul_free. }
  { apply clock_positive. }
  destruct (after_upsert _ _ _ _ _) as [i err]. injection Hp as <- _. simpl in Hst. unfold en_db. simpl.
  destruct (wsteps_split _ _ Hst) as (Hd' & _).
  assert (db_ok db1) as Hok.
  { apply reachable_ok. eapply rtc_r; [exact Hd|]. by eapply step_message; [..|exact E]. }
  destruct (msg_steps_good _ _ Hok Hd') as [_ Hle]. by eapply table_le_is_Some; [apply (le_msg _ _ Hle)|].
Qed.

Lemma absorb_le conv isDM l s : nul_free conv = true -> Forall (fun m => nul_free (m_SourceID m) = true) l ->
  en_le s (absorb conv isDM l s).1.
Proof.
  intros Hc Hl. revert s. induction Hl as [|m l Hm _ IH]; intros s; simpl; [reflexivity|].
  pose proof (put_message_le conv m isDM s Hc Hm) as Hle.
  destruct (put_message _ _ _ _ _ s) as [s1 [[]|h]]; [|done]. etransitivity; [exact Hle|apply IH].
Qed.

Lemma absorb_held conv isDM l s s' : en_reach s -> nul_free conv = true ->
  Forall (fun m => nul_free (m_SourceID m) = true) l -> absorb conv isDM l s = (s', Ok tt) ->
  Forall (fun m => held conv isDM m (en_db s')) l.
Proof.
  intros Hr Hc Hl. revert s Hr. induction Hl as [|m l Hm Hl IH]; intros s Hr Ha; [by constructor|]. simpl in Ha.
  pose proof (put_message_le conv m isDM s Hc Hm) as Hle.
  destruct (put_message _ _ _ _ _ s) as [s1 [[]|h]] eqn:E; [|done]. destruct (en_le_reach _ _ Hle Hr) as [Hr1 _].
  constructor; [|by apply (IH s1)]. eapply held_le; [|by apply (put_message_held conv m isDM s s1)].
  pose proof (absorb_le conv isDM l s1 Hc Hl) as Hle'. rewrite Ha in Hle'. by destruct (en_le_reach _ _ Hle' Hr1) as (_ & _ & ?).
Qed.

Lemma served_nul_free conv cur pages : serves conv cur pages -> Forall (fun m => nul_free (m_SourceID m) = true) (concat pages).
Proof.
  induction 1 as [cur next Hl|cur page Hne Hl|cur page next rest Hne Hl _ IH]; simpl; [done| |].
  - rewrite app_nil_r. apply Forall_forall. intros m. by eapply message_nul_free, (Hl 0%nat).
  - apply Forall_app. split; [|done]. apply Forall_forall. intros m. by eapply message_nul_free, (Hl 0%nat).
Qed.

Lemma recent_incl since l : Forall (fun m => nul_free (m_SourceID m) = true) l -> Forall (fun m => nul_free (m_SourceID m) = true) (recent since l).
Proof. induction 1 as [|m l Hm _ IH]; simpl; [done|]. destruct (older since m); [done|by constructor]. Qed.

(** ** What is due *)

(** Nothing but its own messages and upserts writes the row of a conversation. *)
Lemma after_upsert_conversations ing m isOld res s id : (0 < in_settle_ms ing)%Z -> nul_free (res_ID res) = true ->
  id <> ConversationID (in_AccountID ing) (m_ConversationID m) ->
  db_conversations (w_db (is_world (after_upsert ing m isOld res s).1)) !! id = db_conversations (w_db (is_world s)) !! id.
Proof.
  intros Hnow Hn Hid. unfold after_upsert. rewrite !counted_world.
  match goal with |- context [if ?b then on_count count_new ?x else ?x] => set (s4 := if b then on_count count_new x else x) end.
  clearbody s4. set (parts := if res_Inserted res || res_Updated res then _ else _).
  assert (db_conversations parts.1 = db_conversations (w_db (is_world s))) as Hparts.
  { unfold parts. destruct (_ || _); [|done]. by apply applyParts_steps. }
  destruct parts as [db2 [e|]]; cbn [fst] in *; [by rewrite <- Hparts|].
  set (s6 := if negb isOld && _ then _ else _).
  assert (db_conversations (w_db (is_world s6)) = db_conversations (w_db (is_world s))) as E6.
  { unfold s6. destruct (negb isOld && _); [|done]. cbn [on_world is_world].
    destruct (correlateEcho_steps ing (res_ID res) m (set_db db2 (is_world s4)) Hnow) as (_ & -> & _). done. }
  clearbody s6. rewrite <- E6. cbn [on_world is_world set_db w_db]. unfold applyActivity.
  destruct isOld, (m_Timestamp m) as [t|]; try done. unfold BumpConversationActivity.
  destruct (db_conversations (w_db (is_world s6)) !! _) as [r|]; [|done].
  destruct (_ <=? _)%Z; [done|]. cbn [set_conversations db_conversations]. by rewrite lookup_insert_ne.
Qed.

Lemma IngestMessage_conversations ing m isDM isOld s id : (0 < in_settle_ms ing)%Z ->
  id <> ConversationID (in_AccountID ing) (m_ConversationID m) ->
  db_conversations (w_db (is_world (IngestMessage ing m isDM isOld s).1)) !! id = db_conversations (w_db (is_world s)) !! id.
Proof.
  intros Hnow Hid. destruct (ShouldIgnoreStatus (m_StatusRaw m) isDM) eqn:Hi; [unfold IngestMessage; by rewrite Hi|].
  destruct (decide (m_ConversationID m = ""%string)) as [He|Hne].
  { unfold IngestMessage. by rewrite Hi, decide_True. }
  rewrite IngestMessage_eq by done. destruct (UpsertMessage _ _ _ _ _) as [[db1 res]|e] eqn:E; [|done].
  destruct (UpsertMessage_frame _ _ _ _ _ _ _ E) as (<- & _ & Eid).
  pose proof (after_upsert_conversations ing m isOld res (on_world (set_db db1) s) id Hnow) as Ha.
  destruct (after_upsert _ _ _ _ _) as [s' err]. apply Ha; [|done]. rewrite Eid. apply MessageID_nul_free.
Qed.

Lemma put_message_conversations conv m isDM s id : id <> ConversationID ID conv ->
  db_conversations (en_db (put_message ID seal (in_conversation conv m) isDM false s).1) !! id = db_conversations (en_db s) !! id.
Proof.
  intros Hid. unfold put_message.
  pose proof (IngestMessage_conversations (ingester ID seal (en_reads s)) (in_conversation conv m) isDM false (en_ingest s) id (clock_positive _) Hid) as Hc.
  destruct (IngestMessage _ _ _ _ _) as [i [res err]]. exact Hc.
Qed.

Lemma absorb_conversations conv isDM l s id : id <> ConversationID ID conv ->
  db_conversations (en_db (absorb conv isDM l s).1) !! id = db_conversations (en_db s) !! id.
Proof.
  intros Hid. revert s. induction l as [|m l IH]; intros s; simpl; [done|].
  pose proof (put_message_conversations conv m isDM s id Hid) as Hp.
  destruct (put_message _ _ _ _ _ s) as [s1 [[]|h]]; [|done]. rewrite IH. exact Hp.
Qed.

Lemma write_conversation_elsewhere t a c db db' id : id <> ConversationID a (c_SourceID c) ->
  write_conversation t a c db = Ok db' -> db_conversations db' !! id = db_conversations db !! id.
Proof.
  intros Hid. unfold write_conversation. destruct (db_conversations db !! ConversationID a (c_SourceID c)).
  - intros [= <-]. simpl. by rewrite lookup_insert_ne.
  - intros ([] & _ & ([] & _ & [= <-])%bind_Ok_inv)%bind_Ok_inv. simpl. by rewrite lookup_insert_ne.
Qed.

Lemma UpsertConversation_messages t a c db db' id : UpsertConversation t a c db = Ok (db', id) -> db_messages db' = db_messages db.
Proof.
  intros (db1 & E1 & E)%bind_Ok_inv. assert (db_messages db1 = db_messages db) as <-.
  { unfold write_conversation in E1. destruct (db_conversations db !! _); [by injection E1 as <-|].
    apply bind_Ok_inv in E1 as ([] & _ & ([] & _ & [= <-])%bind_Ok_inv). done. }
  destruct (c_Participants c); [by injection E as <- _|]. apply bind_Ok_inv in E as (db2 & E2 & [= <- _]).
  unfold UpsertParticipants in E2. apply bind_Ok_inv in E2 as (ps & _ & ([] & _ & [= <-])%bind_Ok_inv). done.
Qed.

Lemma put_conversation_elsewhere c s id : id <> ConversationID ID (c_SourceID c) ->
  db_conversations (en_db (put_conversation ID seal c s).1) !! id = db_conversations (en_db s) !! id.
Proof.
  intros Hid. unfold put_conversation, IngestConversation.
  destruct (UpsertConversation _ _ _ _) as [[db i]|e] eqn:E; [|done]. simpl. unfold en_db. simpl.
  unfold UpsertConversation in E. apply bind_Ok_inv in E as (db1 & E1 & E).
  pose proof (write_conversation_elsewhere _ _ _ _ _ id Hid E1) as <-.
  destruct (c_Participants c); [by injection E as <- _|]. apply bind_Ok_inv in E as (db2 & E2 & [= <- _]).
  unfold UpsertParticipants in E2. apply bind_Ok_inv in E2 as (t & _ & ([] & _ & [= <-])%bind_Ok_inv). done.
Qed.

(** ** The whole sweep *)

Section Whole.
Context (fuel : nat) (since : Z) (pages : string -> list (list GmMessage)).

(** The phone answers the pages of the thread, and there is fuel for them. *)
Definition served (c : GmConversation) : Prop :=
  serves (c_SourceID c) None (pages (c_SourceID c)) /\ (length (pages (c_SourceID c)) < fuel)%nat /\ nul_free (c_SourceID c) = true.

Definition walked (c : GmConversation) (s : Engine) : Engine * Result Halt unit :=
  absorb (c_SourceID c) (negb (c_IsGroup c)) (recent since (concat (pages (c_SourceID c)))) s.

Lemma put_conversation_calls c n s :
  put_conversation ID seal c (set_calls n s) = (set_calls n (put_conversation ID seal c s).1, (put_conversation ID seal c s).2).
Proof. unfold put_conversation. simpl. by destruct (IngestConversation _ _ _) as [i r]. Qed.

Lemma run_sweep_one c s : served c ->
  exists n, run (sweep_one ID seal cfg fuel since c) s =
    match put_conversation ID seal c s with
    | (s1, Ok _) => if needs ID since c (en_db s) then (set_calls n (walked c s1).1, (walked c s1).2) else (set_calls n s1, Ok tt)
    | (s1, Err h) => (set_calls n s1, Err h)
    end.
Proof.
  intros (Hs & Hf & _). unfold sweep_one. rewrite run_ep_bind.
  assert (run (needsFetch ID c since) s = (set_calls (S (en_calls s)) s, Ok (needs ID since c (en_db s)))) as ->.
  { unfold needsFetch, reading. simpl. by rewrite (proj1 Hcalm). }
  rewrite run_ep_bind. unfold ingestConversation. rewrite run_writing, put_conversation_calls. simpl.
  rewrite put_conversation_calls. destruct (put_conversation ID seal c s) as [s1 [[]|h]]; simpl; [|by eexists].
  destruct (needs ID since c (en_db s)); [|by eexists]. unfold sweepConversation, walked.
  match goal with |- context [run _ ?st] => destruct (run_sweep_pages since _ (negb (c_IsGroup c)) None _ fuel st Hs Hf) as [n ->] end.
  exists n. by rewrite !absorb_calls.
Qed.

Lemma run_each_app {A} (f : A -> EP unit) l1 l2 s :
  run (each f (l1 ++ l2)) s = match run (each f l1) s with (s1, Ok _) => run (each f l2) s1 | (s1, Err h) => (s1, Err h) end.
Proof.
  revert s. induction l1 as [|x l1 IH]; intros s; cbn [each app]; [done|]. rewrite !run_ep_bind.
  destruct (run (f x) s) as [s1 [a|h]]; [apply IH|done].
Qed.

Lemma absorb_fails conv isDM l s : (absorb conv isDM l s).2 <> Err OutOfFuel.
Proof.
  revert s. induction l as [|m l IH]; intros s; simpl; [done|]. unfold put_message.
  destruct (IngestMessage _ _ _ _ _) as [i [res [e|]]]; [done|apply IH].
Qed.

Lemma sweep_one_facts c s : served c -> let '(s', r) := run (sweep_one ID seal cfg fuel since c) s in
  r <> Err OutOfFuel /\ en_le s s' /\
  (forall id, id <> ConversationID ID (c_SourceID c) -> db_conversations (en_db s') !! id = db_conversations (en_db s) !! id).
Proof.
  intros Hc. pose proof Hc as (Hs & _ & Hn).
  pose proof (ensures_le _ s (safe_ensures _ _ _ (safe_sweep_one ID seal cfg (fun _ => True) en_le fuel since c Hn))) as Hle.
  destruct (run_sweep_one c s Hc) as [n E]. rewrite E in *. clear E.
  assert ((put_conversation ID seal c s).2 <> Err OutOfFuel) as Hp
    by (unfold put_conversation; by destruct (IngestConversation _ _ _) as [i [?|?]]).
  assert (forall id, id <> ConversationID ID (c_SourceID c) ->
    db_conversations (en_db (put_conversation ID seal c s).1) !! id = db_conversations (en_db s) !! id) as Hfr
    by (intros id; apply put_conversation_elsewhere).
  destruct (put_conversation ID seal c s) as [s1 [[]|h]]; [|by split_and!].
  destruct (needs _ _ _ _); [|by split_and!]. split_and!; [apply absorb_fails|exact Hle|].
  intros id Hid. rewrite <- (Hfr id Hid). by apply absorb_conversations.
Qed.

Lemma each_facts l s : Forall served l -> let '(s', r) := run (each (sweep_one ID seal cfg fuel since) l) s in
  r <> Err OutOfFuel /\ en_le s s' /\
  (forall id, (forall c, c ∈ l -> id <> ConversationID ID (c_SourceID c)) ->
     db_conversations (en_db s') !! id = db_conversations (en_db s) !! id).
Proof.
  intros Hl. revert s. induction Hl as [|c l Hc Hl IH]; intros s; cbn [each]; [by split_and!|]. rewrite run_ep_bind.
  pose proof (sweep_one_facts c s Hc) as Hone. destruct (run (sweep_one _ _ _ _ _ _) s) as [s1 [[]|h]]; destruct Hone as (Ho & Hle & Hfr).
  - specialize (IH s1). destruct (run (each _ l) s1) as [s2 r]. destruct IH as (Ho2 & Hle2 & Hfr2).
    split_and!; [done|by etransitivity|]. intros id Hid. rewrite Hfr2 by (intros; apply Hid; by right). apply Hfr, Hid. by left.
  - split_and!; [done|done|]. intros id Hid. apply Hfr, Hid. by left.
Qed.

(** What makes a listed conversation due, as the stores were when the sweep began. *)
Definition due (before : list GmConversation) (c : GmConversation) (db : DB) : Prop :=
  (exists t, c_LastActivity c = Some t /\ (since < t)%Z) \/
  (exists r, db_conversations db !! ConversationID ID (c_SourceID c) = Some r /\ (since < cv_last_activity_ms r)%Z) \/
  (db_conversations db !! ConversationID ID (c_SourceID c) = None /\ forall c', c' ∈ before -> c_SourceID c' <> c_SourceID c).

Lemma due_needs before c db db' : db_le db db' ->
  (forall id, (forall c', c' ∈ before -> id <> ConversationID ID (c_SourceID c')) -> db_conversations db' !! id = db_conversations db !! id) ->
  nul_free (c_SourceID c) = true -> Forall served before -> due before c db -> needs ID since c db' = true.
Proof.
  intros Hle Hfr Hn Hb Hd. unfold needs. destruct (db_conversations db' !! _) as [r'|] eqn:E'; [|done].
  apply orb_true_iff. left. apply Z.ltb_lt. destruct Hd as [(t & -> & Ht)|[(r & Hr & Ht)|[HN Hd]]].
  - lia.
  - destruct (le_conv _ _ Hle _ _ Hr) as (r2 & Hr2 & (_ & _ & _ & Hac)). rewrite E' in Hr2. injection Hr2 as <-.
    destruct (c_LastActivity c); lia.
  - rewrite Hfr in E'; [by rewrite HN in E'|]. intros c' Hc' Heq. rewrite Forall_forall in Hb.
    destruct (Hb c' Hc') as (_ & _ & Hn'). apply ConversationID_inj in Heq as [_ Heq]; [|done..]. by apply (Hd c' Hc').
Qed.

Lemma each_recovers l1 c l2 s s' : en_reach s -> Forall served (l1 ++ c :: l2) -> due l1 c (en_db s) ->
  run (each (sweep_one ID seal cfg fuel since) (l1 ++ c :: l2)) s = (s', Ok tt) ->
  Forall (fun m => held (c_SourceID c) (negb (c_IsGroup c)) m (en_db s')) (recent since (concat (pages (c_SourceID c)))).
Proof.
  intros Hr [Hs1 Hs2]%Forall_app Hd Hrun. inversion_clear Hs2 as [|? ? Hc Hs2']. rewrite run_each_app in Hrun.
  pose proof (each_facts l1 s Hs1) as H1'. destruct (run (each _ l1) s) as [s1 [[]|h]]; [|done].
  destruct H1' as (_ & Hle1 & Hfr1). destruct (en_le_reach _ _ Hle1 Hr) as (Hr1 & _ & Hdle1).
  cbn [each] in Hrun. rewrite run_ep_bind in Hrun. pose proof (sweep_one_facts c s1 Hc) as Hone.
  pose proof Hc as (Hs & _ & Hn). destruct (run_sweep_one c s1 Hc) as [n E]. rewrite E in *. clear E.
  rewrite (due_needs l1 c _ _ Hdle1 Hfr1 Hn Hs1 Hd) in *.
  assert (en_le s1 (put_conversation ID seal c s1).1) as Hlec.
  { unfold put_conversation. pose proof (IngestConversation_steps (ingester ID seal (en_reads s1)) c (en_ingest s1) HID Hn) as Hst.
    destruct (IngestConversation _ _ _) as [i r]. split; [exact Hst|done|apply table_le_refl; exact _..]. }
  destruct (put_conversation ID seal c s1) as [s2 [[]|h]]; [|done]. simpl in Hlec.
  destruct (en_le_reach _ _ Hlec Hr1) as (Hr2 & _ & _).
  unfold walked in *. destruct (absorb _ _ _ s2) as [s3 [[]|h]] eqn:Ea; [|done]. simpl in Hrun.
  pose proof (recent_incl since _ (served_nul_free _ _ _ Hs)) as Hnm.
  pose proof (absorb_le (c_SourceID c) (negb (c_IsGroup c)) _ s2 Hn Hnm) as Hle3. rewrite Ea in Hle3. simpl in Hle3.
  destruct (en_le_reach _ _ Hle3 Hr2) as (Hr3 & _ & _).
  pose proof (absorb_held _ _ _ _ _ Hr2 Hn Hnm Ea) as Hheld.
  pose proof (each_facts l2 (set_calls n s3) Hs2') as H2'. rewrite Hrun in H2'. destruct H2' as (_ & Hle4 & _).
  destruct (en_le_reach _ _ Hle4 Hr3) as (_ & _ & Hdle4). eapply Forall_impl; [exact Hheld|]. intros m. by apply held_le.
Qed.
End Whole.

(** The thread whose newest message is missing: when its activity is not above the bound it
    is fetched for that reason alone, and the walk ends at its first message without
    recovering it. *)
Lemma latest_missing_unrecovered fuel since pages c s m rest row :
  served fuel pages c -> concat (pages (c_SourceID c)) = m :: rest -> older since m = true ->
  c_LatestMessageID c = m_SourceID m -> m_SourceID m <> ""%string ->
  db_conversations (en_db s) !! ConversationID ID (c_SourceID c) = Some row ->
  db_messages (en_db s) !! MessageID ID (c_SourceID c) (m_SourceID m) = None ->
  needs ID since c (en_db s) = true /\
  db_messages (en_db (run (sweep_one ID seal cfg fuel since c) s).1) = db_messages (en_db s).
Proof.
  intros Hc Ht Ho Hl Hne Hrow Hm.
  assert (needs ID since c (en_db s) = true) as Hn.
  { unfold needs. rewrite Hrow, Hl, Hm. apply orb_true_iff. right. by rewrite bool_decide_false. }
  split; [done|]. destruct (run_sweep_one fuel since pages c s Hc) as [n ->]. rewrite Hn. unfold walked. rewrite Ht.
  cbn [recent]. rewrite Ho. cbn [absorb fst].
  assert (db_messages (en_db (put_conversation ID seal c s).1) = db_messages (en_db s)) as Hp.
  { unfold put_conversation, IngestConversation. destruct (UpsertConversation _ _ _ _) as [[db i]|e] eqn:E; [|done].
    unfold en_db. simpl. by eapply UpsertConversation_messages. }
  by destruct (put_conversation ID seal c s) as [s1 [[]|h]].
Qed.

Lemma run_list convs inbox archive s : lists convs -> exists n, run (listConversations cfg inbox archive) s = (set_calls n s, Ok convs).
Proof.
  intros (ib & ar & -> & Hi & Ha). unfold listConversations. rewrite run_ep_bind, run_phone, Hi. cbn [fst snd].
  destruct (IncludeArchive cfg).
  - rewrite run_ep_bind, run_phone, Ha. by eexists.
  - rewrite app_nil_r. by eexists.
Qed.
End Runs.

(** ** The record of the sweep *)

(** Neither the accounts nor the count of sweeps has moved. *)
Definition unrecorded (s s' : Engine) : Prop := en_accounts s' = en_accounts s /\ en_sweeps s' = en_sweeps s.

#[export] Instance unrecorded_po : PreOrder unrecorded.
Proof. split; [by intros s|]. intros a b c [] []. split; congruence. Qed.

Section Record.
Context `{UUID} `{Digest} `{Phone}.
Context (ID : string) (seal : option (string -> string -> Result string string)) (cfg : Config).

Lemma unrecorded_bind {A B} (p : EP A) (k : A -> EP B) :
  guarantees unrecorded p -> (forall a, guarantees unrecorded (k a)) -> guarantees unrecorded (ep_bind p k).
Proof. intros Hp Hk. apply guarantees_bind; [done|]. intros [a|h]; [apply Hk|done]. Qed.

Lemma unrecorded_writing {A} (f : Engine -> Engine * Result Halt A) :
  (forall s, unrecorded s (f s).1) -> guarantees unrecorded (writing f).
Proof.
  intros Hf. apply guarantees_atomic. intros s. cbv zeta. destruct (ctx_Err _); [done|].
  specialize (Hf (set_calls (S (en_calls s)) s)). by destruct (f _) as [s1 r].
Qed.

Lemma unrecorded_phone {A} context (f : nat -> Result GoError A) : guarantees unrecorded (phone context f).
Proof. apply guarantees_bind; [by apply guarantees_atomic|done]. Qed.

Lemma unrecorded_sweep_page since conv isDM page : guarantees unrecorded (sweep_page ID seal since conv isDM page).
Proof.
  induction page as [|m page IH]; cbn [sweep_page]; [done|]. destruct (older since m); [done|]. apply unrecorded_bind; [|done].
  apply unrecorded_writing. intros s. unfold put_message. by destruct (IngestMessage _ _ _ _ _) as [i [res err]].
Qed.

Lemma unrecorded_sweep_pages fuel since conv isDM cur : guarantees unrecorded (sweep_pages ID seal cfg fuel since conv isDM cur).
Proof.
  revert cur. induction fuel as [|fuel IH]; intros cur; cbn [sweep_pages]; [done|].
  apply unrecorded_bind; [apply unrecorded_phone|]. intros [[|m page] next]; cbn [fst snd]; [done|].
  apply unrecorded_bind; [apply unrecorded_sweep_page|]. intros []; [done|]. by destruct next.
Qed.

Lemma unrecorded_sweep_one fuel since c : guarantees unrecorded (sweep_one ID seal cfg fuel since c).
Proof.
  apply unrecorded_bind; [by apply guarantees_atomic|]. intros need. apply unrecorded_bind.
  - apply unrecorded_writing. intros s. unfold put_conversation. by destruct (IngestConversation _ _ _) as [i r].
  - intros _. destruct need; [apply unrecorded_sweep_pages|done].
Qed.

Lemma unrecorded_each {A} (f : A -> EP unit) l : (forall x, guarantees unrecorded (f x)) -> guarantees unrecorded (each f l).
Proof. intros Hf. induction l as [|x l IH]; [done|]. by apply unrecorded_bind. Qed.

Lemma unrecorded_listing inbox archive : guarantees unrecorded (listConversations cfg inbox archive).
Proof.
  apply unrecorded_bind; [apply unrecorded_phone|]. intros convs. destruct (IncludeArchive cfg); [|done].
  apply unrecorded_bind; [apply unrecorded_phone|done].
Qed.
End Record.

Section Theorems.
Context `{UUIDLaws} `{Digest} `{PhoneLaws}.

(** C18: a sweep recovers what is missing.  Against a phone whose pages stand still the
    sweep comes to an end; and if it reports no error, then of every listed thread that is
    due - its activity, stored or reported, is above the bound, or it was never seen -
    every message down to the first older one is held, and in a thread listed newest
    first that is every message above the bound. *)
Theorem sweep_recovers ID seal cfg fuel since convs pages s :
  calm -> nul_free ID = true -> en_reach s -> lists cfg convs -> Forall (served cfg fuel pages) convs ->
  let bound := ms_or_zero since in
  let '(s', r) := run (reconcile ID seal cfg fuel since) s in
  r <> Err OutOfFuel /\
  (r = Ok tt -> forall l1 c l2, convs = l1 ++ c :: l2 -> due ID bound l1 c (en_db s) ->
     let thread := concat (pages (c_SourceID c)) in
     Forall (fun m => held ID (c_SourceID c) (negb (c_IsGroup c)) m (en_db s')) (recent bound thread) /\
     (newest_first thread -> forall m, m ∈ thread -> older bound m = false ->
        held ID (c_SourceID c) (negb (c_IsGroup c)) m (en_db s'))).
Proof.
  intros Hcalm HID Hr Hl Hs. cbv zeta. unfold reconcile. rewrite run_ep_bind.
  destruct (run_list cfg convs "sweep: listing inbox conversations" "sweep: listing archived conversations" s Hl) as [n ->].
  rewrite run_ep_bind.
  pose proof (each_facts ID seal cfg HID Hcalm fuel (ms_or_zero since) pages convs (set_calls n s) Hs) as Hfacts.
  destruct (run (each _ convs) _) as [s1 [[]|h]] eqn:E; destruct Hfacts as (Ho & Hle & _); [|by split].
  rewrite run_ep_bind. unfold now at 1. simpl. rewrite (proj1 Hcalm). simpl. rewrite (proj2 Hcalm). simpl. split; [done|].
  intros _ l1 c l2 -> Hd. pose proof (each_recovers ID seal cfg HID Hcalm fuel (ms_or_zero since) pages l1 c l2 (set_calls n s) _ Hr Hs Hd E) as Hheld.
  split; [exact Hheld|]. intros Hnf m Hm Hold. rewrite Forall_forall in Hheld. by apply Hheld, recent_exact.
Qed.

End Theorems.

(** ** Witnesses: one thread of two pages, of which the newest two messages were lost *)

Definition demo_at (id : string) (t : Z) : GmMessage :=
  mkGmMessage id "" "p1" "hello" "" (Some t) "" 1 MessageKindMessage (DeliveryStateFor 1).1 "" [] [].

Definition demo_listed : GmConversation :=
  mkGmConversation "c1" "Ann" false ConversationTypeRCS SendModeAuto FolderInbox false false false
    false "me" "m3" (Some 900%Z) "" "" [].

Definition demo_pages (conv : string) : list (list GmMessage) :=
  [[demo_at "m3" 900; demo_at "m2" 800]; [demo_at "m1" 400]].

#[export] Instance demo_phone : Phone := {
  ListConversations _ f _ := Ok match f with FolderInbox => [demo_listed] | _ => [] end;
  ListMessages _ _ _ cur := Ok match cur with
    | None => ([demo_at "m3" 900; demo_at "m2" 800], Some (mkGmCursor "m2" 800000))
    | Some _ => ([demo_at "m1" 400], None)
    end;
  ListContacts _ := Ok [mkGmContact "p1" "Ann" "+15550001111" false];
  ListTopContacts _ := Ok [];
  GetConversation _ id := Ok (if decide (id = "c1"%string) then Some demo_listed else None);
  SessionID _ := "s1"%string;
  session_refused _ := None;
  session_closed _ := None;
  activity_us _ := 0%Z;
  ctx_Err _ := None;
  ctx_ends _ := None;
  select_done _ := false;
  Clock n := (Z.of_nat n * Second + 1000 * Second)%Z;
}.

#[export] Instance demo_phone_laws : PhoneLaws.
Proof.
  split; simpl; try done.
  - intros n. unfold UnixMilli, Millisecond, Second. apply Z.div_str_pos. lia.
  - intros n [] k l c [= <-]; rewrite ?list_elem_of_singleton; intros Hc; by (subst || apply elem_of_nil in Hc).
  - intros n id k [cur|] l next m [= <- <-]; rewrite ?elem_of_cons; intros Hm; destruct_or?; subst; try done; by apply elem_of_nil in Hm.
  - intros n l c [= <-]. rewrite list_elem_of_singleton. by intros ->.
  - intros n l c [= <-] Hc. by apply elem_of_nil in Hc.
  - intros n id c. destruct (decide _); [by intros [= <-]|done].
Qed.

Definition demo_engine : Engine :=
  mkEngine (mkIngestState (mkWorld ∅ demo_db1 ∅) demo_counters) {["acct_1"%string := Accounts.demo_row]} ∅ ∅ false "" 0 false 0 0.

Lemma demo_engine_reach : en_reach demo_engine.
Proof. split; [exact demo_db1_reach|done]. Qed.

Lemma demo_calm : calm.
Proof. by split. Qed.

Lemma demo_served : Forall (served DefaultConfig 3 demo_pages) [demo_listed].
Proof.
  repeat constructor. by apply (serves_more _ _ _ _ (mkGmCursor "m2" 800000)); [..|apply serves_last].
Qed.

Lemma demo_lists : lists DefaultConfig [demo_listed].
Proof. by exists [demo_listed], []. Qed.

Example sweep_recovers_witness :
  Forall (fun m => held "acct_1" "c1" true m (en_db (run (reconcile "acct_1" None DefaultConfig 3 (Some 700%Z)) demo_engine).1))
    [demo_at "m3" 900; demo_at "m2" 800].
Proof.
  assert ((run (reconcile "acct_1" None DefaultConfig 3 (Some 700%Z)) demo_engine).2 = Ok tt) as Hok by (vm_compute; reflexivity).
  pose proof (sweep_recovers "acct_1" None DefaultConfig 3 (Some 700%Z) [demo_listed] demo_pages demo_engine
    demo_calm eq_refl demo_engine_reach demo_lists demo_served) as Hw. cbv zeta in Hw.
  destruct (run (reconcile "acct_1" None DefaultConfig 3 (Some 700%Z)) demo_engine) as [s' r]. cbn [fst snd] in *.
  destruct Hw as [_ Hw]. destruct (Hw Hok [] demo_listed [] eq_refl) as [Hh _].
  - left. exists 900%Z. split; [reflexivity|reflexivity].
  - exact Hh.
Defined.

