(* ===== verification/BackfillRuns.v ===== *)
(** * What a backfill leaves behind (internal/core/backfill.go)

    First the whole backfill in company: whatever schedule its goroutines run under, and
    whatever other goroutines do meanwhile, short of writing the progress rows of these
    threads.  Then one thread with nothing in between: [backfillConversation] from whatever
    progress is recorded is [absorb] of the pages that are left. *)

From S2P Require Import Prelude Ids Errors Limits Operations GoStrings Messages Pipeline Ingest Prog Accounts Rely Gather Engine Sweep SweepRuns Backfill.

Section Together.
Context `{UUIDLaws} `{Digest} `{PhoneLaws}.
Context (ID : string) (seal : option (string -> string -> Result string string)) (cfg : Config) (fuel : nat).
Hypothesis HID : nul_free ID = true.

Definition thread (c : GmConversation) : string := ConversationID ID (c_SourceID c).

(** The thread's progress row says that it is walked. *)
Definition walked_through (c : GmConversation) (s : Engine) : Prop :=
  exists r, en_backfill s !! thread c = Some r /\ bf_complete r = true.

(** What a thread's goroutine relies on, and what it does to the other rows. *)
Definition row_kept (c : GmConversation) (s s' : Engine) : Prop :=
  en_backfill s' !! thread c = en_backfill s !! thread c /\ (en_calls s <= en_calls s')%nat.

Definition other_rows_kept (c : GmConversation) (s s' : Engine) : Prop :=
  (forall id, id <> thread c -> en_backfill s' !! id = en_backfill s !! id) /\ (en_calls s <= en_calls s')%nat.

(** What everybody else may do. *)
Definition progress_kept (s s' : Engine) : Prop :=
  (forall conv, en_backfill s' !! ConversationID ID conv = en_backfill s !! ConversationID ID conv) /\
  (en_calls s <= en_calls s')%nat.

#[export] Instance row_kept_po c : PreOrder (row_kept c).
Proof. split; [by intros s|]. intros s1 s2 s3 [E1 ?] [E2 ?]. split; [congruence|lia]. Qed.

#[export] Instance other_rows_kept_po c : PreOrder (other_rows_kept c).
Proof. split; [by intros s|]. intros s1 s2 s3 [E1 ?] [E2 ?]. split; [|lia]. intros id Hid. by rewrite E2, E1. Qed.

#[export] Instance progress_kept_po : PreOrder progress_kept.
Proof. split; [by intros s|]. intros s1 s2 s3 [E1 ?] [E2 ?]. split; [|lia]. intros id. by rewrite E2, E1. Qed.

#[local] Instance other_rows_guar c : EngineGuar ID (eq (thread c)) (other_rows_kept c).
Proof.
  split; [exact _|..]; try (by intros); try (intros; split; simpl; [done|lia]).
  - intros s s' (_ & _ & E & _ & Hle). split; [|done]. intros id _. by rewrite E.
  - intros t b s tbl Hm E. split; [|done]. intros id Hid. simpl. unfold SetBackfillState in E. rewrite <- Hm in E.
    destruct (en_backfill s !! thread c).
    + injection E as <-. by rewrite lookup_insert_ne.
    + apply bind_Ok_inv in E as ([] & _ & [= <-]). by rewrite lookup_insert_ne.
Qed.

(** *** The accounts are not touched by a thread *)

Lemma unrecorded_now : guarantees unrecorded now.
Proof. by apply guarantees_atomic. Qed.

Lemma unrecorded_waitForSync n : guarantees unrecorded (waitForSync n).
Proof.
  unfold waitForSync. induction n as [|n IH]; simpl; [done|]. split; [done|]. intros [r|]; [done|exact IH].
Qed.

Lemma unrecorded_record b : guarantees unrecorded (recordBackfill b).
Proof.
  apply unrecorded_bind; [apply unrecorded_now|]. intros n. apply unrecorded_writing. intros s.
  by destruct (SetBackfillState _ _ _ _).
Qed.

Lemma unrecorded_message conv m isDM isOld : guarantees unrecorded (ingestMessage ID seal (in_conversation conv m) isDM isOld).
Proof. apply unrecorded_writing. intros s. unfold put_message. by destruct (IngestMessage _ _ _ _ _) as [i [res err]]. Qed.

Lemma unrecorded_conversation c : guarantees unrecorded (ingestConversation ID seal c).
Proof. apply unrecorded_writing. intros s. unfold put_conversation. by destruct (IngestConversation _ _ _) as [i r]. Qed.

Lemma unrecorded_backfill_page horizon conv isDM page b : guarantees unrecorded (backfill_page ID seal horizon conv isDM page b).
Proof.
  revert b. induction page as [|m page IH]; intros b; cbn [backfill_page]; [done|]. destruct (older horizon m); [done|].
  apply unrecorded_bind; [apply unrecorded_message|done].
Qed.

Lemma unrecorded_backfill_pages n horizon conv isDM b cur : guarantees unrecorded (backfill_pages ID seal cfg fuel n horizon conv isDM b cur).
Proof.
  revert b cur. induction n as [|n IH]; intros b cur; cbn [backfill_pages]; [done|].
  apply unrecorded_bind; [apply unrecorded_waitForSync|]. intros _. apply unrecorded_bind; [apply unrecorded_phone|].
  intros [[|m page] next]; cbn [fst snd]; [done|]. apply unrecorded_bind; [apply unrecorded_backfill_page|].
  intros [b1 reached]. apply unrecorded_bind; [apply unrecorded_record|]. intros _. destruct next; [|done]. by destruct (_ || _).
Qed.

Lemma unrecorded_thread c : guarantees unrecorded (backfillConversation ID seal cfg fuel c).
Proof.
  apply unrecorded_bind; [by apply guarantees_atomic|]. intros stored. cbv zeta. destruct (bs_Complete _); [done|].
  apply unrecorded_bind; [apply unrecorded_now|]. intros n. apply unrecorded_bind; [apply unrecorded_backfill_pages|].
  intros b. apply unrecorded_record.
Qed.

(** *** One thread: no error means that its row is complete *)

Lemma rg_of_safe {A} (R G : relation Engine) (P : A -> Prop) (p : EP A) s :
  safe G P p -> rg R G p (fun r _ => forall a, r = Ok a -> P a) s.
Proof. intros Hp. eapply rg_weaken; [..|apply Hp]; done. Qed.

Lemma record_complete c b s : bs_ConversationID b = thread c -> bs_Complete b = true ->
  rg (row_kept c) (other_rows_kept c) (recordBackfill b) (fun r s' => r = Ok tt -> walked_through c s') s.
Proof.
  intros Hb Hc s1 _. split; [by apply (eg_same (ID := ID) (mine := eq (thread c)))|]. simpl. intros s2 _.
  destruct (ctx_Err (en_calls s2)); simpl; [split; [by split; [|simpl; lia]|done]|].
  pose proof (eq_refl (SetBackfillState (UnixMilli (Clock (en_reads s1))) b (en_db (set_calls (S (en_calls s2)) s2))
    (en_backfill (set_calls (S (en_calls s2)) s2)))) as E. simpl in E.
  destruct (SetBackfillState _ b _ _) as [t|e] eqn:Et; simpl; [|split; [by split; [|simpl; lia]|]; intros s3 _; by destruct (ctx_ends _)].
  clear E. assert (exists r, t !! thread c = Some r /\ bf_complete r = true /\ forall id, id <> thread c -> t !! id = en_backfill s2 !! id)
    as (r & Hr & Hrc & Hothers).
  { unfold SetBackfillState in Et. rewrite Hb in Et. simpl in Et. destruct (en_backfill s2 !! thread c).
    - injection Et as <-. eexists. rewrite lookup_insert_eq. split_and!; [done|done|]. intros. by rewrite lookup_insert_ne.
    - apply bind_Ok_inv in Et as ([] & _ & [= <-]). eexists. rewrite lookup_insert_eq. split_and!; [done|done|]. intros. by rewrite lookup_insert_ne. }
  split; [split; [exact Hothers|simpl; lia]|]. intros s3 [E3 _] _. exists r. rewrite E3. by split.
Qed.

Lemma thread_ok c s : nul_free (c_SourceID c) = true ->
  rg (row_kept c) (fun a b => other_rows_kept c a b /\ unrecorded a b) (backfillConversation ID seal cfg fuel c)
    (fun r s' => r = Ok tt -> walked_through c s') s.
Proof.
  intros Hn. eapply (rg_mono _ _ _ (fun r s' => (r = Ok tt -> walked_through c s') /\ True)); [by intros r s' []|].
  apply rg_conj; [|apply guarantees_rg, unrecorded_thread]. unfold backfillConversation, ep_bind at 1.
  apply rg_bind; [exact _|]. intros s1 _. split; [by apply (eg_same (ID := ID) (mine := eq (thread c)))|]. simpl.
  intros s2 [Hrow _]. simpl in Hrow. destruct (ctx_Err (en_calls s1)); [by intros s3 _|].
  set (b := default _ _). destruct (bs_Complete b) eqn:Hcb.
  - intros s3 [Hrow3 _] _. unfold b, ReadBackfillState in Hcb. fold (thread c) in Hcb.
    destruct (en_backfill s1 !! thread c) as [r|] eqn:Er; [|done]. exists r. by rewrite Hrow3, Hrow.
  - assert (bs_ConversationID b = thread c) as Hb.
    { unfold b. destruct (ReadBackfillState _ _) as [b0|] eqn:E; [|done]. by eapply scanned_id. }
    unfold ep_bind at 1. apply rg_bind; [exact _|]. eapply rg_mono; [|apply rg_of_safe, (safe_now ID (eq (thread c)) (other_rows_kept c))].
    intros [n|h] s3 _; [|by intros s4 _]. unfold ep_bind. apply rg_bind; [exact _|].
    eapply rg_mono; [|apply rg_of_safe, (safe_backfill_pages ID seal cfg fuel (eq (thread c)) (other_rows_kept c)); [done|by symmetry]].
    intros [b'|h] s4 Hb'; [|by intros s5 _]. destruct (Hb' b' eq_refl) as [Hc' Hi']. apply record_complete; [by rewrite Hi'|done].
Qed.

(** *** All the threads *)

(** The context was done at some call before. *)
Definition ended (s : Engine) : Prop := exists n, (n < en_calls s)%nat /\ ctx_Err n <> None.

(** The accounts move only when every thread is walked. *)
Definition marks_when (P : Engine -> Prop) (s s' : Engine) : Prop :=
  (en_calls s <= en_calls s')%nat /\ (en_accounts s' = en_accounts s \/ P s).

Lemma concurrency_clamped : (1 <= concurrency cfg <= 8)%nat.
Proof. unfold concurrency. lia. Qed.

Lemma threads_ok schedule l s : NoDup (c_SourceID <$> l) -> Forall (fun c => nul_free (c_SourceID c) = true) l ->
  rg progress_kept (fun a b => (en_calls a <= en_calls b)%nat /\ en_accounts b = en_accounts a)
    (eachConversation ID seal cfg fuel schedule l)
    (fun r s' => r = Ok tt -> ended s' \/ Forall (fun c => walked_through c s') l) s.
Proof.
  intros Hnd Hn. rewrite Forall_forall in Hn.
  apply (eachConversation_ok OutOfFuel ctx_done _ _ row_kept (fun c a b => other_rows_kept c a b /\ unrecorded a b) walked_through ended).
  - exact _.
  - exact _.
  - intros c c' s1 s2 Hne Hc Hc' [[Ho Hle] _]. split; [|done]. apply Ho. intros E. apply Hne.
    unfold thread in E. apply ConversationID_inj in E as [_ E]; [|by auto..].
    apply list_elem_of_lookup in Hc as [i Hi], Hc' as [j Hj].
    assert (i = j) as -> by (eapply (NoDup_lookup _ i j _ Hnd); rewrite list_lookup_fmap; [by rewrite Hi|rewrite Hj; simpl; by rewrite E]).
    rewrite Hi in Hj. by injection Hj.
  - intros c s1 s2 _ [E Hle]. split; [apply E|done].
  - intros c s1 s2 _ [[_ Hle] [Ha _]]. by split.
  - intros s1. split; [by split; [simpl; lia|]|]. split; [intros c _; by split; [|simpl; lia]|]. simpl. intros Hd%bool_decide_eq_true.
    exists (en_calls s1). split; [simpl; lia|]. destruct Hd as [e ->]. done.
  - intros c s1 s2 _ [E _] (r & Hr & Hc). exists r. by rewrite E.
  - intros s1 s2 Hle (n & Hlt & Hx). exists n. split; [|done]. destruct Hle as [[Hle _]|[_ Hle]]; lia.
  - intros c s1 Hc. by apply thread_ok, Hn.
  - apply concurrency_clamped.
  - by apply NoDup_fmap_1 in Hnd.
Qed.

Lemma ended_le s s' : (en_calls s <= en_calls s')%nat -> ended s -> ended s'.
Proof. intros Hle (n & Hlt & Hx). exists n. split; [lia|done]. Qed.

Lemma walk_marks schedule l s : NoDup (c_SourceID <$> l) -> Forall (fun c => nul_free (c_SourceID c) = true) l ->
  rg progress_kept (marks_when (fun s => Forall (fun c => walked_through c s) l)) (backfill_walk ID seal cfg fuel schedule l)
    (fun r s' => r = Ok tt -> Forall (fun c => walked_through c s') l) s.
Proof.
  intros Hnd Hn. set (W := fun s => Forall (fun c => walked_through c s) l).
  assert (forall s1 s2, progress_kept s1 s2 -> W s1 -> W s2) as HW.
  { intros s1 s2 [E _] Hw. eapply Forall_impl; [exact Hw|]. intros c (r & Hr & Hc). exists r. split; [rewrite <- Hr; apply E|done]. }
  assert (forall s1 s2, progress_kept s1 s2 -> ended s1 \/ W s1 -> ended s2 \/ W s2) as HEW.
  { intros s1 s2 Hp [He|Hw]; [left; eapply ended_le; [apply Hp|done]|right; by eapply HW]. }
  unfold backfill_walk, ep_bind at 1. apply rg_bind; [exact _|].
  eapply rg_mono; [|eapply rg_weaken; [..|by apply threads_ok]; [done|intros a b [? ?]; split; [done|by left]]].
  intros [[]|h] s1 Hq; [|by intros s2 _]. specialize (Hq eq_refl). fold (W s1) in Hq.
  intros s2 Hp2. apply (HEW _ _ Hp2) in Hq. split; [split; [simpl; lia|by left]|]. cbn [fst snd atomic now]. simpl.
  intros s3 Hp3. assert (ended s3 \/ W s3) as Hq3.
  { eapply HEW; [exact Hp3|]. destruct Hq as [(n & Hlt & Hx)|Hw]; [left; by exists n|right; exact Hw]. }
  split; [split; [simpl; lia|by left]|]. simpl. intros s4 Hp4.
  assert (ended s4 \/ W s4) as Hq4.
  { eapply HEW; [exact Hp4|]. destruct Hq3 as [(n & Hlt & Hx)|Hw]; [left; by exists n|right; exact Hw]. }
  destruct (ctx_Err (en_calls s4)) eqn:Ec; simpl.
  - split; [split; [simpl; lia|by left]|]. by intros s5 _.
  - assert (W s4) as Hw4.
    { destruct Hq4 as [(n & Hlt & Hx)|Hw]; [|done]. by apply (ctx_stays n (en_calls s4)) in Hx; [|lia]. }
    split; [split; [simpl; lia|by right]|]. intros s5 Hp5 _. by apply (HW _ _ Hp5).
Qed.

(** *** What there is to walk *)

(** The phone lists the conversation in this folder whenever it answers. *)
Definition always_listed (f : Folder) (c : GmConversation) : Prop :=
  forall n l, ListConversations n f (ConversationPageSize cfg) = Ok l -> c ∈ l.

Definition expected (ready : list GmConversation) (c : GmConversation) : Prop :=
  c ∈ ready \/ always_listed FolderInbox c \/ IncludeArchive cfg = true /\ always_listed FolderArchive c.

#[local] Instance calls_guar : EngineGuar ID (fun _ => True) (fun s s' => en_calls s <= en_calls s')%nat.
Proof.
  split; try (by intros); try (intros; simpl; lia).
  - split; [by intros s|intros ? ? ?; lia].
  - by intros s s' (_ & _ & _ & _ & Hle).
Qed.

Notation calls_grow := (fun s s' : Engine => en_calls s <= en_calls s')%nat.

Lemma listing_complete inbox archive :
  safe calls_grow (fun l => Forall (fun c => nul_free (c_SourceID c) = true) l /\
      forall c, always_listed FolderInbox c \/ IncludeArchive cfg = true /\ always_listed FolderArchive c -> c ∈ l)
    (listConversations cfg inbox archive).
Proof.
  assert (forall context f, safe calls_grow (fun l => Forall (fun c => nul_free (c_SourceID c) = true) l /\ forall c, always_listed f c -> c ∈ l)
    (phone context (fun n => ListConversations n f (ConversationPageSize cfg)))) as Hl.
  { intros context f. apply (safe_phone ID (fun _ => True) calls_grow). intros n l E. split.
    - apply Forall_forall. intros c. by eapply listed_nul_free.
    - intros c Hc. by eapply Hc. }
  unfold listConversations. eapply safe_bind; [apply Hl|]. intros convs [Hcn Hc]. destruct (IncludeArchive cfg).
  - eapply safe_bind; [apply Hl|]. intros arch [Han Ha]. apply safe_done. split; [by apply Forall_app|].
    intros c Hx. apply elem_of_app. destruct Hx as [?|[_ ?]]; auto.
  - apply safe_done. split; [done|]. intros c [?|[? _]]; [auto|done].
Qed.

Lemma dedupe_spec seen l :
  NoDup (c_SourceID <$> dedupe seen l) /\ (forall c, c ∈ dedupe seen l -> c ∈ l /\ c_SourceID c ∉ seen) /\
  (forall c, c ∈ l -> c_SourceID c ∉ seen -> exists c', c' ∈ dedupe seen l /\ c_SourceID c' = c_SourceID c).
Proof.
  revert seen. induction l as [|x l IH]; intros seen; simpl.
  { split_and!; [constructor|by intros c Hc%elem_of_nil|by intros c Hc%elem_of_nil]. }
  destruct (decide (c_SourceID x ∈ seen)) as [Hx|Hx].
  - destruct (IH seen) as (Hnd & Hin & Hall). split_and!; [done|intros c Hc; destruct (Hin c Hc); split; [by right|done]|].
    intros c [->|Hc]%elem_of_cons Hs; [done|by apply Hall].
  - destruct (IH ({[c_SourceID x]} ∪ seen)) as (Hnd & Hin & Hall). simpl. split_and!.
    + constructor; [|done]. intros (c & E & Hc)%list_elem_of_fmap. destruct (Hin c Hc) as [_ Hs]. set_solver.
    + intros c [->|Hc]%elem_of_cons; [split; [by left|done]|]. destruct (Hin c Hc). split; [by right|set_solver].
    + intros c [->|Hc]%elem_of_cons Hs; [exists x; split; [by left|done]|].
      destruct (decide (c_SourceID c = c_SourceID x)) as [E|E]; [exists x; split; [by left|done]|].
      destruct (Hall c Hc) as (c' & Hc' & E'); [set_solver|]. exists c'. split; [by right|done].
Qed.

Lemma targets_spec convs ready :
  NoDup (c_SourceID <$> targets convs ready) /\
  (forall c, c ∈ convs ++ ready -> exists c', c' ∈ targets convs ready /\ c_SourceID c' = c_SourceID c).
Proof.
  unfold targets, dedupeConversations. destruct (dedupe_spec ∅ (convs ++ ready)) as (Hnd & _ & Hall). split.
  - by rewrite (merge_sort_Permutation oldest_first (dedupe ∅ (convs ++ ready))).
  - intros c Hc. destruct (Hall c Hc) as (c' & Hc' & E); [set_solver|]. exists c'. by rewrite (merge_sort_Permutation oldest_first).
Qed.

Lemma listing_targets ready : Forall (fun c => nul_free (c_SourceID c) = true) ready ->
  safe calls_grow (fun l => NoDup (c_SourceID <$> l) /\ Forall (fun c => nul_free (c_SourceID c) = true) l /\
      forall c, expected ready c -> exists c', c' ∈ l /\ c_SourceID c' = c_SourceID c)
    (backfill_listing ID seal cfg fuel ready).
Proof.
  intros Hr. assert (forall l, Forall (fun c => nul_free (c_SourceID c) = true) l ->
    safe calls_grow (fun _ => True) (each (ingestConversation ID seal) l)) as Heach.
  { intros l Hl. eapply safe_each; [apply (safe_ingestConversation ID seal (fun _ => True) calls_grow)|exact Hl]. }
  eapply safe_bind; [by apply Heach|]. intros _ _. eapply safe_bind; [apply (safe_waitForSync ID (fun _ => True) calls_grow)|]. intros _ _.
  eapply safe_bind; [apply listing_complete|]. intros convs [Hcn Hc]. eapply safe_bind; [by apply Heach|]. intros _ _.
  eapply safe_bind; [apply (safe_backfillContacts ID (fun _ => True) calls_grow)|]. intros _ _. apply safe_done.
  destruct (targets_spec convs ready) as [Hnd Hall]. split_and!; [done| |].
  - rewrite Forall_forall in *. intros c Hin%targets_in. apply elem_of_app in Hin as [?|?]; auto.
  - intros c [He|He]; apply Hall, elem_of_app; [by right|left; by apply Hc].
Qed.

Lemma unrecorded_contacts : guarantees unrecorded (backfillContacts ID).
Proof.
  apply unrecorded_bind; [apply unrecorded_phone|]. intros cs. apply unrecorded_bind; [apply unrecorded_phone|]. intros top.
  apply unrecorded_bind; [|intros _; by apply unrecorded_writing]. apply unrecorded_each. intros c.
  apply unrecorded_bind; [apply unrecorded_now|]. intros n. apply unrecorded_writing. intros s.
  by destruct (UpsertContact _ _ _ _ _) as [[db id]|e].
Qed.

Lemma unrecorded_backfill_listing ready : guarantees unrecorded (backfill_listing ID seal cfg fuel ready).
Proof.
  apply unrecorded_bind; [apply unrecorded_each, unrecorded_conversation|]. intros _.
  apply unrecorded_bind; [apply unrecorded_waitForSync|]. intros _. apply unrecorded_bind; [apply unrecorded_listing|]. intros convs.
  apply unrecorded_bind; [apply unrecorded_each, unrecorded_conversation|]. intros _.
  by apply unrecorded_bind; [apply unrecorded_contacts|].
Qed.
End Together.

(** ** One thread with nothing in between *)

Section Thread.
Context `{UUIDLaws} `{Digest} `{PhoneLaws}.
Context (ID : string) (seal : option (string -> string -> Result string string)) (cfg : Config) (fuel : nat).
Hypothesis HID : nul_free ID = true.
Hypothesis Hcalm : calm.

(** The cursor a restart would go on from. *)
Definition recorded_cursor (id : string) (s : Engine) : option GmCursor :=
  ReadBackfillState id (en_backfill s) ≫= cursor_of.

(** Every page but the last ends in a cursor that names an item. *)
Definition named_cursors (conv : string) : Prop :=
  forall n cur page next, ListMessages n conv (MessagePageSize cfg) cur = Ok (page, Some next) -> LastItemID next <> ""%string.

Lemma absorb_frame conv isDM l s :
  en_backfill (absorb ID seal conv isDM l s).1 = en_backfill s /\
  en_syncPaused (absorb ID seal conv isDM l s).1 = en_syncPaused s.
Proof.
  revert s. induction l as [|m l IH]; intros s; simpl; [done|]. unfold put_message.
  destruct (IngestMessage _ _ _ _ _) as [i [res [e|]]]; simpl; [done|]. apply (IH (set_reads _ (set_ingest i s))).
Qed.

Lemma run_backfill_page horizon conv isDM page b s :
  exists n, run (backfill_page ID seal horizon conv isDM page b) s =
    (set_calls n (absorb ID seal conv isDM (recent horizon page) s).1,
     match (absorb ID seal conv isDM (recent horizon page) s).2 with
     | Ok _ => Ok (foldl (fun b m => count_message m b) b (recent horizon page), existsb (older horizon) page)
     | Err h => Err h
     end).
Proof.
  revert b s. induction page as [|m page IH]; intros b s; cbn [backfill_page recent existsb absorb foldl].
  { exists (en_calls s). by destruct s. }
  destruct (older horizon m); cbn [absorb foldl]; [exists (en_calls s); by destruct s|].
  rewrite run_ep_bind. unfold ingestMessage. rewrite (run_writing Hcalm), put_message_calls.
  destruct (put_message _ _ _ _ _ s) as [s1 [[]|h]]; simpl; [|by eexists].
  destruct (IH (count_message m b) (set_calls (S (en_calls s)) s1)) as [n ->]. exists n. by rewrite absorb_calls.
Qed.

Lemma run_waitForSync n s : (0 < n)%nat -> en_syncPaused s = false -> run (waitForSync n) s = (set_calls (S (en_calls s)) s, Ok tt).
Proof. intros Hn Hp. destruct n; [lia|]. unfold waitForSync. simpl. by rewrite (proj1 Hcalm), Hp. Qed.

Lemma run_record b s : let '(s', r) := run (recordBackfill b) s in
  en_db s' = en_db s /\ en_syncPaused s' = en_syncPaused s /\ en_ingest s' = en_ingest s /\
  match r with
  | Ok _ => ReadBackfillState (bs_ConversationID b) (en_backfill s') =
              Some (mkBackfillState (bs_ConversationID b)
                (default (bs_AccountID b) (bf_account_id <$> en_backfill s !! bs_ConversationID b)) (bs_CursorItemID b)
                (bs_CursorTimestampUS b) (bs_OldestSeenMS b) (bs_MessagesDone b) (bs_Complete b))
  | Err h => h <> OutOfFuel /\ en_backfill s' = en_backfill s /\ en_backfill s !! bs_ConversationID b = None
  end.
Proof.
  unfold recordBackfill. rewrite run_ep_bind. unfold now. simpl. rewrite (proj1 Hcalm).
  destruct (SetBackfillState _ _ _ _) as [t|e] eqn:E; simpl; rewrite (proj2 Hcalm); simpl.
  2:{ split_and!; try done. unfold SetBackfillState in E. simpl in E. by destruct (en_backfill s !! _). }
  split_and!; [done..|]. unfold ReadBackfillState, SetBackfillState in *. simpl in E.
  destruct (en_backfill s !! bs_ConversationID b) as [old|] eqn:Eold.
  - injection E as <-. rewrite lookup_insert_eq. simpl. unfold scanBackfill. simpl. by rewrite scan_nullString, !scan_nullInt.
  - apply bind_Ok_inv in E as ([] & _ & [= <-]). rewrite lookup_insert_eq. simpl. unfold scanBackfill. simpl.
    by rewrite scan_nullString, !scan_nullInt.
Qed.

Lemma count_all_id l b : bs_ConversationID (foldl (fun b m => count_message m b) b l) = bs_ConversationID b /\
  bs_CursorItemID (foldl (fun b m => count_message m b) b l) = bs_CursorItemID b /\
  bs_CursorTimestampUS (foldl (fun b m => count_message m b) b l) = bs_CursorTimestampUS b /\
  bs_Complete (foldl (fun b m => count_message m b) b l) = bs_Complete b.
Proof. revert b. induction l as [|m l IH]; intros b; simpl; [done|]. destruct (IH (count_message m b)) as (-> & -> & -> & ->). done. Qed.

(** What stands after the loop, however it ended: the pages walked in full are held, and
    the recorded cursor is at the first page that is not. *)
Definition resumable (c : GmConversation) (pages : list (list GmMessage)) (s : Engine) : Prop :=
  exists k, serves cfg (c_SourceID c) (recorded_cursor (thread ID c) s) (drop k pages) /\
    Forall (fun m => held ID (c_SourceID c) (negb (c_IsGroup c)) m (en_db s)) (concat (take k pages)).

Definition all_held (c : GmConversation) (l : list GmMessage) (s : Engine) : Prop :=
  Forall (fun m => held ID (c_SourceID c) (negb (c_IsGroup c)) m (en_db s)) l.

Lemma held_grows c l s s' : en_le s s' -> en_reach s -> all_held c l s -> all_held c l s'.
Proof.
  intros Hle Hr. destruct (en_le_reach _ _ Hle Hr) as (_ & _ & Hdle). intros Hh. eapply Forall_impl; [exact Hh|].
  intros m. by apply held_le.
Qed.

Lemma resumable_step c page pages s s' : en_le s s' -> en_reach s ->
  all_held c page s -> resumable c pages s' -> resumable c (page :: pages) s'.
Proof.
  intros Hle Hr Hp (k & Hs & Hh). exists (S k). split; [done|]. simpl. apply Forall_app. split; [|done].
  by eapply held_grows.
Qed.

#[local] Instance thread_histories : EngineGuar ID (fun _ => True) en_le := en_le_guar ID _ HID.

Lemma en_le_calls k s s' : en_le s s' -> en_le s (set_calls k s').
Proof. by intros []. Qed.

Lemma record_le b s : en_le s (run (recordBackfill b) s).1.
Proof. eapply ensures_le, safe_ensures, (safe_recordBackfill ID (fun _ => True) en_le). done. Qed.

(** One turn of the loop after the phone has answered. *)
Definition one_page (horizon : Z) (c : GmConversation) (page : list GmMessage) (next : option GmCursor) (b : BackfillState)
    : EP (BackfillState * bool) :=
  let! walked := backfill_page ID seal horizon (c_SourceID c) (negb (c_IsGroup c)) page b in
  let b' := with_cursor next walked.1 in
  do! recordBackfill b' in done_with (b', walked.2).

(** The page [p] is in, and its progress recorded, or the run stopped on the way. *)
Lemma run_one_page horizon c page next b s :
  nul_free (c_SourceID c) = true -> Forall (fun m => nul_free (m_SourceID m) = true) page ->
  en_reach s -> en_syncPaused s = false -> bs_ConversationID b = thread ID c ->
  let '(s', r) := run (one_page horizon c page next b) s in
  en_le s s' /\ en_syncPaused s' = false /\
  match r with
  | Ok (b', reached) => is_Some (en_backfill s' !! thread ID c) /\ all_held c (recent horizon page) s' /\ reached = existsb (older horizon) page /\
      bs_ConversationID b' = thread ID c /\
      recorded_cursor (thread ID c) s' = match next with Some n => cursor_of (with_cursor next b) | None => cursor_of b end
  | Err h => h <> OutOfFuel /\ recorded_cursor (thread ID c) s' = recorded_cursor (thread ID c) s
  end.
Proof.
  intros Hn Hp Hr Hpause Hb. unfold one_page. rewrite run_ep_bind.
  destruct (run_backfill_page horizon (c_SourceID c) (negb (c_IsGroup c)) page b s) as [k ->].
  pose proof (recent_incl horizon _ Hp) as Hrp. pose proof (absorb_le ID seal HID (c_SourceID c) (negb (c_IsGroup c)) _ s Hn Hrp) as Hle.
  pose proof (absorb_frame (c_SourceID c) (negb (c_IsGroup c)) (recent horizon page) s) as [Ebf Epause].
  pose proof (absorb_fails ID seal (c_SourceID c) (negb (c_IsGroup c)) (recent horizon page) s) as Hfail.
  pose proof (absorb_held ID seal HID (c_SourceID c) (negb (c_IsGroup c)) (recent horizon page) s) as Hheld.
  destruct (absorb _ _ _ _ _ s) as [s1 [[]|h]]; cbn [fst snd] in *.
  2:{ split_and!; [by apply en_le_calls|by rewrite <- Hpause|congruence|]. unfold recorded_cursor. simpl. by rewrite Ebf. }
  specialize (Hheld s1 Hr Hn Hrp eq_refl). cbv zeta. rewrite run_ep_bind.
  set (b1 := foldl _ b _). destruct (count_all_id (recent horizon page) b) as (Hid & Hcu & Hts & _). fold b1 in Hid, Hcu, Hts.
  pose proof (run_record (with_cursor next b1) (set_calls k s1)) as Hrec.
  pose proof (record_le (with_cursor next b1) (set_calls k s1)) as Hle2.
  pose proof (en_le_calls k _ _ Hle) as Hle1.
  destruct (run (recordBackfill _) _) as [s2 [[]|h]]; destruct Hrec as (Edb & Ep2 & _ & Hrec); simpl in *.
  - assert (bs_ConversationID (with_cursor next b1) = thread ID c) as Hid' by (destruct next; simpl; by rewrite Hid).
    split_and!; [by etransitivity|by rewrite Ep2, Epause| |unfold all_held; rewrite Edb; exact Hheld|done|done|].
    { rewrite <- Hid'. unfold ReadBackfillState in Hrec. destruct (en_backfill s2 !! _); [by eexists|done]. }
    unfold recorded_cursor. rewrite <- Hid', Hrec. simpl. unfold cursor_of. by destruct next; simpl; rewrite ?Hcu, ?Hts.
  - destruct Hrec as (Hh & Ebf2 & _). split_and!; [by etransitivity|by rewrite Ep2, Epause|done|].
    unfold recorded_cursor. by rewrite Ebf2, <- Ebf.
Qed.

Definition turn (n : nat) (horizon : Z) (c : GmConversation) (next : option GmCursor) (r : BackfillState * bool) : EP BackfillState :=
  match next with
  | Some cur =>
      if r.2 || capped cfg r.1 then done_with (with_complete true r.1)
      else backfill_pages ID seal cfg fuel n horizon (c_SourceID c) (negb (c_IsGroup c)) r.1 (Some cur)
  | None => done_with (with_complete true r.1)
  end.

Lemma run_turn n horizon c cur page next b s : (0 < fuel)%nat -> en_syncPaused s = false -> page <> [] ->
  (forall k, ListMessages k (c_SourceID c) (MessagePageSize cfg) cur = Ok (page, next)) ->
  run (backfill_pages ID seal cfg fuel (S n) horizon (c_SourceID c) (negb (c_IsGroup c)) b cur) s =
  match run (one_page horizon c page next b) (set_calls (S (S (en_calls s))) s) with
  | (s', Ok r) => run (turn n horizon c next r) s'
  | (s', Err h) => (s', Err h)
  end.
Proof.
  intros Hf Hp Hne Hl. cbn [backfill_pages]. rewrite run_ep_bind, (run_waitForSync fuel s Hf Hp), run_ep_bind, run_phone, Hl. cbn [fst snd]. destruct page as [|m page]; [done|]. unfold one_page.
  rewrite !run_ep_bind. cbn [en_calls set_calls]. destruct (run (backfill_page _ _ _ _ _ _ _) _) as [s1 [[b1 reached]|h]]; [|done].
  cbv zeta. cbn [fst snd]. rewrite !run_ep_bind. destruct (run (recordBackfill _) s1) as [s2 [[]|h]]; [|done].
  unfold turn. simpl. by destruct next.
Qed.

Lemma run_backfill_pages horizon c cur pages n b s :
  serves cfg (c_SourceID c) cur pages -> (length pages < n)%nat -> (0 < fuel)%nat -> named_cursors (c_SourceID c) ->
  nul_free (c_SourceID c) = true -> en_reach s -> en_syncPaused s = false -> bs_ConversationID b = thread ID c ->
  recorded_cursor (thread ID c) s = cur ->
  let '(s', r) := run (backfill_pages ID seal cfg fuel n horizon (c_SourceID c) (negb (c_IsGroup c)) b cur) s in
  en_le s s' /\ match r with
  | Ok b' => bs_Complete b' = true /\ bs_ConversationID b' = thread ID c /\
      (is_Some (en_backfill s' !! thread ID c) \/ pages = [] /\ en_backfill s' = en_backfill s) /\
      ((MaxMessagesPerConversation cfg <= 0)%Z -> all_held c (recent horizon (concat pages)) s')
  | Err h => h <> OutOfFuel /\ resumable c pages s'
  end.
Proof.
  intros Hs. revert n b s. induction Hs as [cur next Hl|cur page Hne Hl|cur page next rest Hne Hl Hs' IH];
    intros n b s Hlen Hf Hnc Hn Hr Hp Hb Hcur; (destruct n as [|n]; [simpl in Hlen; lia|]).
  - cbn [backfill_pages]. rewrite run_ep_bind, (run_waitForSync fuel s Hf Hp), run_ep_bind, run_phone, Hl. cbn [fst snd]. split; [by apply en_le_calls, en_le_calls|]. split_and!; [done|done|by right|]. by constructor.
  - rewrite (run_turn n horizon c cur page None b s) by done.
    assert (Forall (fun m => nul_free (m_SourceID m) = true) page) as Hpn.
    { apply Forall_forall. intros m. by eapply message_nul_free, (Hl 0%nat). }
    pose proof (run_one_page horizon c page None b (set_calls (S (S (en_calls s))) s) Hn Hpn Hr Hp Hb) as Hone.
    destruct (run (one_page _ _ _ _ _) _) as [s1 [[b1 reached]|h]]; destruct Hone as (Hle & Hp1 & Hone).
    + destruct Hone as (Hrow & Hh & _ & Hid & _). simpl. split; [by destruct Hle|]. split_and!; [done|done|by left|].
      intros _. by rewrite app_nil_r.
    + destruct Hone as [Hh Hrc]. split; [by destruct Hle|]. split; [done|]. exists 0%nat. simpl. rewrite Hrc.
      split; [|done]. unfold recorded_cursor in *. simpl. rewrite Hcur. by apply serves_last.
  - rewrite (run_turn n horizon c cur page (Some next) b s) by done.
    assert (Forall (fun m => nul_free (m_SourceID m) = true) page) as Hpn.
    { apply Forall_forall. intros m. by eapply message_nul_free, (Hl 0%nat). }
    pose proof (run_one_page horizon c page (Some next) b (set_calls (S (S (en_calls s))) s) Hn Hpn Hr Hp Hb) as Hone.
    destruct (run (one_page _ _ _ _ _) _) as [s1 [[b1 reached]|h]]; destruct Hone as (Hle & Hp1 & Hone).
    2:{ destruct Hone as [Hh Hrc]. split; [by destruct Hle|]. split; [done|]. exists 0%nat. simpl. rewrite Hrc.
        split; [|done]. unfold recorded_cursor in *. simpl. rewrite Hcur. by eapply serves_more. }
    destruct Hone as (Hrow & Hh & -> & Hid & Hrc). assert (en_le s s1) as Hle1 by (by destruct Hle).
    destruct (en_le_reach _ _ Hle1 Hr) as (Hr1 & _ & _). unfold turn. cbn [fst snd concat]. rewrite recent_app.
    destruct (existsb (older horizon) page) eqn:Eo; simpl; [by split_and!; [..|left|]|]. rewrite (recent_all _ _ Eo) in *.
    destruct (capped cfg b1) eqn:Ecap; simpl.
    { split_and!; [done|done|done|by left|]. intros Hmax. unfold capped in Ecap. lia. }
    assert (recorded_cursor (thread ID c) s1 = Some next) as Hcur1.
    { rewrite Hrc. unfold cursor_of. simpl. rewrite decide_False by (by eapply Hnc, (Hl 0%nat)). by destruct next. }
    specialize (IH n b1 s1 ltac:(simpl in Hlen; lia) Hf Hnc Hn Hr1 Hp1 Hid Hcur1).
    destruct (run (backfill_pages _ _ _ _ _ _ _ _ _ _) s1) as [s2 [b2|h]]; destruct IH as [Hle2 IH].
    + split; [by etransitivity|]. destruct IH as (Hc2 & Hi2 & Hrow2 & Hh2). split_and!; [done|done| |].
      { destruct Hrow2 as [?|[_ E2]]; [by left|left; by rewrite E2]. }
      intros Hmax.
      apply Forall_app. split; [by eapply held_grows|by apply Hh2].
    + split; [by etransitivity|]. destruct IH as [Hh2 Hres]. split; [done|]. by eapply resumable_step.
Qed.
End Thread.

Section Theorems.
Context `{UUIDLaws} `{Digest} `{PhoneLaws}.

(** C20: an account is marked complete only when all of it is walked.  Under every schedule
    of the goroutines, and whatever others do meanwhile short of writing the progress rows
    of this account: an action of [Backfill] that changes the accounts table happens in a
    state where every thread - carried by the connection or listed by the phone - has a
    progress row that is complete, and so does every thread when no error is returned.  A
    cancelled context, which [eachConversation] itself does not report, is no exception. *)
Theorem backfill_complete_sound ID seal cfg fuel schedule ready s :
  nul_free ID = true -> Forall (fun c => nul_free (c_SourceID c) = true) ready ->
  let all_walked := fun s => forall c, expected cfg ready c -> walked_through ID c s in
  rg (progress_kept ID) (marks_when all_walked) (Backfill ID seal cfg fuel schedule ready)
    (fun r s' => r = Ok tt -> all_walked s') s.
Proof.
  intros HID Hr. cbv zeta. unfold Backfill, ep_bind at 1. apply rg_bind; [exact _|].
  pose proof (rg_conj (progress_kept ID) _ unrecorded _ _ _ s
    (rg_of_safe (progress_kept ID) _ _ _ s (listing_targets ID seal cfg fuel HID ready Hr))
    (guarantees_rg _ _ _ s (unrecorded_backfill_listing ID seal cfg fuel ready))) as Hfront.
  eapply rg_mono; [|eapply rg_weaken; [..|exact Hfront]; [done|]].
  - intros [l|h] s1 [Hl _]; [|by intros s2 _]. destruct (Hl l eq_refl) as (Hnd & Hn & Hall).
    assert (forall s2, Forall (fun c => walked_through ID c s2) l -> forall c, expected cfg ready c -> walked_through ID c s2) as HW.
    { intros s2 Hw c Hc. destruct (Hall c Hc) as (c' & Hc' & E). rewrite Forall_forall in Hw. specialize (Hw c' Hc').
      unfold walked_through, thread in *. by rewrite <- E. }
    eapply rg_mono; [|eapply rg_weaken; [..|by apply walk_marks]; [done|]].
    + intros r s2 Hq Ho. by apply HW, Hq.
    + intros a b [Hle [Ha|Hw]]; split; [done|by left|done|right; by apply HW].
  - intros a b [Hle [Ha _]]. split; [done|by left].
Qed.


(** C22: a backfill goes on where it stopped.  With nothing in between, from whatever
    progress is recorded for a thread, against a phone whose remaining pages stand still:
    the walk comes to an end; without an error the thread is recorded as complete and,
    when there is no cap, every remaining message down to the horizon is held; and where
    an error stops it, the pages recorded as done are held and the recorded cursor is at
    the first page that is not. *)
Theorem backfill_thread_resumes ID seal cfg fuel c pages s :
  calm -> nul_free ID = true -> nul_free (c_SourceID c) = true -> en_reach s -> en_syncPaused s = false ->
  ~ walked_through ID c s -> named_cursors cfg (c_SourceID c) ->
  serves cfg (c_SourceID c) (recorded_cursor (thread ID c) s) pages -> (length pages < fuel)%nat ->
  let '(s', r) := run (backfillConversation ID seal cfg fuel c) s in
  match r with
  | Ok _ => walked_through ID c s' /\
      ((MaxMessagesPerConversation cfg <= 0)%Z ->
       all_held ID c (recent (UnixMilli (Clock (en_reads s) - Horizon cfg)) (concat pages)) s')
  | Err h => h <> OutOfFuel /\ resumable ID cfg c pages s'
  end.
Proof.
  intros Hcalm HID Hn Hr Hp Hw Hnc Hs Hf. unfold backfillConversation. rewrite run_ep_bind.
  assert (forall id, run (reading (fun s => Ok (ReadBackfillState id (en_backfill s)))) s =
    (set_calls (S (en_calls s)) s, Ok (ReadBackfillState id (en_backfill s)))) as ->.
  { intros id. unfold reading. simpl. by rewrite (proj1 Hcalm). }
  cbv zeta. fold (thread ID c). set (b := default _ _).
  assert (bs_Complete b = false /\ bs_ConversationID b = thread ID c /\ cursor_of b = recorded_cursor (thread ID c) s) as (-> & Hb & Hcur).
  { unfold b, recorded_cursor, ReadBackfillState, walked_through in *. destruct (en_backfill s !! thread ID c) as [row|]; simpl; [|done].
    split_and!; [|done|done]. destruct (bf_complete row) eqn:E; [|done]. exfalso. apply Hw. by exists row. }
  rewrite run_ep_bind. cbn [run now atomic]. rewrite run_ep_bind. rewrite Hcur. cbn [en_reads set_calls set_reads].
  set (horizon := UnixMilli _). set (s0 := set_reads _ _).
  pose proof (run_backfill_pages ID seal cfg fuel HID Hcalm horizon c _ pages fuel b s0 Hs Hf ltac:(lia) Hnc Hn Hr Hp Hb eq_refl) as Hrun.
  destruct (run (backfill_pages _ _ _ _ _ _ _ _ _ _) s0) as [s1 [b1|h]]; destruct Hrun as [Hle Hrun]; [|exact Hrun].
  destruct Hrun as (Hc1 & Hi1 & Hrow & Hh). pose proof (run_record Hcalm b1 s1) as Hrec.
  destruct (run (recordBackfill b1) s1) as [s2 [[]|h]]; destruct Hrec as (Edb & _ & _ & Hrec).
  - rewrite Hi1 in Hrec. split.
    + unfold ReadBackfillState in Hrec. unfold walked_through. destruct (en_backfill s2 !! thread ID c) as [row|] eqn:E; [|done].
      exists row. split; [done|]. injection Hrec as _ _ _ _ _ E2. by rewrite E2.
    + intros Hmax. unfold all_held. rewrite Edb. by apply Hh.
  - destruct Hrec as (Hh2 & Ebf & HN). rewrite Hi1 in HN. destruct Hrow as [[row Hrow]|[-> Ebf1]]; [by rewrite Hrow in HN|].
    split; [done|]. exists 0%nat. split; [|by constructor]. unfold recorded_cursor in *. by rewrite Ebf, Ebf1.
Qed.
End Theorems.

(** ** Witnesses: the thread of SweepRuns.v, walked from the beginning *)

Definition demo_backfill : EP unit := Backfill "acct_1" None DefaultConfig 5 (replicate 60 0%nat) [].

Example backfill_complete_sound_witness :
  (run demo_backfill demo_engine).2 = Ok tt /\ walked_through "acct_1" demo_listed (run demo_backfill demo_engine).1.
Proof.
  assert ((run demo_backfill demo_engine).2 = Ok tt) as Hok by (vm_compute; reflexivity). split; [exact Hok|].
  pose proof (backfill_complete_sound "acct_1" None DefaultConfig 5 (replicate 60 0%nat) [] demo_engine eq_refl (Forall_nil_2 _)) as Hw.
  cbv zeta in Hw. apply (rg_run _ _ _ _ _) in Hw. destruct Hw as [_ Hw]. apply (Hw Hok). right. left.
  intros n l [= <-]. left.
Defined.

Example backfill_thread_resumes_witness :
  walked_through "acct_1" demo_listed (run (backfillConversation "acct_1" None DefaultConfig 5 demo_listed) demo_engine).1.
Proof.
  assert ((run (backfillConversation "acct_1" None DefaultConfig 5 demo_listed) demo_engine).2 = Ok tt) as Hok by (vm_compute; reflexivity).
  pose proof (backfill_thread_resumes "acct_1" None DefaultConfig 5 demo_listed (demo_pages "c1") demo_engine demo_calm eq_refl eq_refl
    demo_engine_reach eq_refl) as Hw.
  destruct (run (backfillConversation "acct_1" None DefaultConfig 5 demo_listed) demo_engine) as [s' r]. cbn [fst snd] in *.
  rewrite Hok in Hw. apply Hw.
  - intros (row & Hrow & _). discriminate Hrow.
  - intros n [cur|] page next E; [discriminate E|]. injection E as _ <-. discriminate.
  - apply (serves_more _ _ _ _ (mkGmCursor "m2" 800000)); [discriminate|reflexivity|]. apply serves_last; [discriminate|reflexivity].
  - vm_compute. lia.
Defined.
