(* ===== verification/Patch.v ===== *)
(** * Patching a conversation (internal/core/patch.go)

    [PatchConversation]: the checks of a mutation, the difference between what is asked for
    and what is stored, and, when there is one, an operation that sends it and then writes
    the row through the upsert of the live stream.  The theorems: nothing happens exactly
    when nothing would change; the row is afterwards the old one with the fields that were
    asked for; and asking again changes nothing. *)

From S2P Require Import Prelude Ids Operations Errors GoStrings Messages Capability Pipeline Ingest Emoji Mutations Reads.

Record ConversationPatch := mkConversationPatch {
  pa_Archived : option bool;
  pa_Pinned : option bool;
  pa_Unread : option bool;
}.

(** [gm.ConversationChange]. *)
Record ConversationChange := mkConversationChange {
  ch_Folder : option Folder;
  ch_Pinned : option bool;
  ch_Unread : option bool;
}.

Definition is_archived (conv : ConversationRow) : bool := bool_decide (cv_folder conv = Folder_string FolderArchive).

(** A field that is asked for and differs. *)
Definition moved (asked : option bool) (stored : bool) : option bool :=
  match asked with
  | Some v => if eqb v stored then None else Some v
  | None => None
  end.

Definition diffConversation (conv : ConversationRow) (p : ConversationPatch) : ConversationChange * string * bool :=
  let archive := moved (pa_Archived p) (is_archived conv) in
  let folder := (fun a : bool => if a then FolderArchive else FolderInbox) <$> archive in
  let kind := match archive with Some false => KindUnarchive | _ => KindArchive end in
  let change := mkConversationChange folder (moved (pa_Pinned p) (cv_pinned conv)) (moved (pa_Unread p) (cv_unread conv)) in
  (change, kind, bool_decide (is_Some (ch_Folder change)) || bool_decide (is_Some (ch_Pinned change)) ||
                 bool_decide (is_Some (ch_Unread change))).

(** [msToTime]: 0 is the zero time. *)
Definition msToTime (ms : Z) : option Z := if decide (ms = 0%Z) then None else Some ms.

Definition gm_folder (s : string) : Folder :=
  if decide (s = Folder_string FolderArchive) then FolderArchive
  else if decide (s = Folder_string FolderSpamBlocked) then FolderSpamBlocked
  else FolderInbox.

(** [next.Folder = *change.Folder] and the other two. *)
Definition apply_change (ch : ConversationChange) (c : GmConversation) : GmConversation :=
  mkGmConversation (c_SourceID c) (c_Name c) (c_IsGroup c) (c_Type c) (c_SendModeRaw c)
    (default (c_Folder c) (ch_Folder ch)) (default (c_Unread c) (ch_Unread ch)) (default (c_Pinned c) (ch_Pinned ch))
    (c_ReadOnly c) (c_Deleted c) (c_DefaultOutgoingID c) (c_LatestMessageID c) (c_LastActivity c)
    (c_GroupAvatarURL c) (c_SIMPayload c) (c_Participants c).

Section Patch.
Context `{GoFmt} `{UUID} `{Digest} `{JSONLib} `{Backend}.
(** [gm.Backend.UpdateConversation]. *)
Context (UpdateConversation : string -> ConversationChange -> Step (option GoError)).

Definition toGMConversation (c : ConversationRow) : GmConversation :=
  mkGmConversation (cv_source_id c) (scanString (cv_name c)) (cv_is_group c) (cv_conversation_type c) (cv_send_mode_raw c)
    (gm_folder (cv_folder c)) (cv_unread c) (cv_pinned c) (cv_read_only c)
    (negb (bool_decide (scanInt (cv_deleted_at_ms c) = 0%Z))) (scanString (cv_default_outgoing_id c))
    (scanString (cv_latest_message_id c)) (msToTime (cv_last_activity_ms c)) (scanString (cv_group_avatar_url c))
    (simPayload c) [].

Definition patch_call (a : Ingester) (conv : ConversationRow) (change : ConversationChange) : Call :=
  fun _ w =>
    match UpdateConversation (cv_source_id conv) change w with
    | (w1, Some e) => (w1, (no_outcome, Some e))
    | (w1, None) =>
        match ingest_conversation a (apply_change change (toGMConversation conv)) w1 with
        | (w2, Ok id) => (w2, (mkOutcome "" id 0, None))
        | (w2, Err e) => (w2, (no_outcome, Some e))
        end
    end.

Definition PatchConversation (a : Ingester) (env : RunEnv) (p : ConversationPatch) (req : Request) : Step MutationResult :=
  fun w => guarded (writableConversation a (rq_ConversationID req) "update" w) (fun conv w =>
    let '(change, kind, changed) := diffConversation conv p in
    if changed then runOperation env (in_AccountID a) kind req (patch_call a conv change) w
    else (w, mkMutationResult None false false None)) w.

(** ** What is asked for *)

Definition satisfies (p : ConversationPatch) (conv : ConversationRow) : Prop :=
  (forall v, pa_Archived p = Some v -> is_archived conv = v) /\
  (forall v, pa_Pinned p = Some v -> cv_pinned conv = v) /\
  (forall v, pa_Unread p = Some v -> cv_unread conv = v).

Lemma moved_None asked stored : moved asked stored = None <-> forall v, asked = Some v -> stored = v.
Proof. unfold moved. destruct asked as [v|]; [|naive_solver]. destruct v, stored; naive_solver. Qed.

Lemma diff_unchanged conv p : (diffConversation conv p).2 = false <-> satisfies p conv.
Proof.
  unfold diffConversation, satisfies. cbn [snd ch_Folder ch_Pinned ch_Unread]. rewrite !orb_false_iff, !bool_decide_eq_false.
  rewrite fmap_is_Some, <- !eq_None_not_Some, !moved_None. tauto.
Qed.

(** A row as the store writes it: text columns are never empty strings, the derived flag is
    derived, and the payload is one the server encoded. *)
Record canonical (c : ConversationRow) : Prop := {
  cn_name : cv_name c = nullString (scanString (cv_name c));
  cn_avatar : cv_group_avatar_url c = nullString (scanString (cv_group_avatar_url c));
  cn_outgoing : cv_default_outgoing_id c = nullString (scanString (cv_default_outgoing_id c));
  cn_latest : cv_latest_message_id c = nullString (scanString (cv_latest_message_id c));
  cn_rcs : cv_force_rcs_eligible c =
    bool_decide (cv_conversation_type c = ConversationTypeRCS) && bool_decide (cv_send_mode_raw c = SendModeAuto);
  cn_sim : exists payload, cv_sim_payload_json c = sim_json payload;
}.

(** The folder is one of the three a patch can write back. *)
Definition known_folder (c : ConversationRow) : Prop :=
  exists f, f <> FolderUnknown /\ cv_folder c = Folder_string f.

Lemma gm_folder_string f : f <> FolderUnknown -> gm_folder (Folder_string f) = f.
Proof. by destruct f. Qed.

(** The row with the fields that were asked for. *)
Definition patched (now : Z) (ch : ConversationChange) (c : ConversationRow) : ConversationRow := {|
  cv_account_id := cv_account_id c; cv_source_id := cv_source_id c; cv_name := cv_name c;
  cv_is_group := cv_is_group c; cv_conversation_type := cv_conversation_type c; cv_send_mode_raw := cv_send_mode_raw c;
  cv_folder := from_option Folder_string (cv_folder c) (ch_Folder ch);
  cv_unread := default (cv_unread c) (ch_Unread ch); cv_pinned := default (cv_pinned c) (ch_Pinned ch);
  cv_read_only := cv_read_only c; cv_force_rcs_eligible := cv_force_rcs_eligible c;
  cv_default_outgoing_id := cv_default_outgoing_id c; cv_latest_message_id := cv_latest_message_id c;
  cv_last_activity_ms := cv_last_activity_ms c; cv_group_avatar_url := cv_group_avatar_url c;
  cv_sim_payload_json := cv_sim_payload_json c;
  cv_deleted_at_ms := None;
  cv_created_at_ms := cv_created_at_ms c; cv_updated_at_ms := now;
|}.

Lemma ms_msToTime z : ms_or_zero (msToTime z) = z.
Proof. unfold msToTime. by destruct (decide _). Qed.

Lemma conflict_patched now ch c : (forall x, json_Unmarshal_bytes (json_Marshal_bytes x) = x) ->
  canonical c -> known_folder c -> scanInt (cv_deleted_at_ms c) = 0%Z ->
  conversation_conflict c (conversation_values now (cv_account_id c) (apply_change ch (toGMConversation c))) = patched now ch c.
Proof.
  intros Hjson Hc (f & Hf & Ef) Hd. unfold conversation_conflict, patched. cbn -[Z.max nullString simPayload].
  rewrite Hd. cbn. rewrite ms_msToTime, Z.max_id, <- (cn_name _ Hc), <- (cn_avatar _ Hc), <- (cn_outgoing _ Hc), <- (cn_latest _ Hc).
  f_equal.
  - destruct (ch_Folder ch); simpl; [done|]. by rewrite Ef, gm_folder_string.
  - unfold ForceRCSEligible. simpl. by rewrite (cn_rcs _ Hc).
  - by destruct (cv_default_outgoing_id c).
  - by destruct (cv_latest_message_id c).
  - destruct (cn_sim _ Hc) as [x Ex]. unfold simPayload. rewrite Ex. unfold sim_json.
    destruct (decide (x = ""%string)) as [->|Hx]; [by rewrite decide_True|].
    destruct (decide (json_Marshal_bytes x = ""%string)) as [E|E]; [by rewrite decide_True|].
    rewrite Hjson, decide_False by done. done.
Qed.

Lemma patched_settles now c p : satisfies p (patched now (diffConversation c p).1.1 c).
Proof.
  unfold satisfies, patched, diffConversation. cbn [fst ch_Folder ch_Pinned ch_Unread cv_pinned cv_unread].
  split_and!; intros v Hv; rewrite ?Hv.
  - unfold is_archived at 1. cbn [cv_folder]. unfold moved. destruct (eqb v (is_archived c)) eqn:E; simpl.
    + apply eqb_prop in E. by rewrite E.
    + by destruct v.
  - unfold moved. destruct (eqb v (cv_pinned c)) eqn:E; simpl; [by apply eqb_prop in E|done].
  - unfold moved. destruct (eqb v (cv_unread c)) eqn:E; simpl; [by apply eqb_prop in E|done].
Qed.

(** A conversation whose folder Google did not say is moved to the inbox by any patch. *)
Lemma unknown_folder_moved now ch c : cv_folder c = Folder_string FolderUnknown -> ch_Folder ch = None ->
  cv_folder (conversation_conflict c (conversation_values now (cv_account_id c) (apply_change ch (toGMConversation c)))) =
    Folder_string FolderInbox.
Proof. intros E Hn. simpl. rewrite Hn. simpl. by rewrite E. Qed.
End Patch.

(** ** Rows of a reachable database are canonical *)

Section Canonical.
Context `{UUIDLaws} `{Digest}.

Definition all_canonical (db : DB) : Prop := forall id r, db_conversations db !! id = Some r -> canonical r.

Lemma scanned_null x : nullString x = nullString (scanString (nullString x)).
Proof. by rewrite scan_nullString. Qed.

Lemma coalesce_canonical (a b : option string) : a = nullString (scanString a) -> b = nullString (scanString b) ->
  coalesce a b = nullString (scanString (coalesce a b)).
Proof. by destruct a. Qed.

Lemma values_canonical now a c : canonical (conversation_values now a c).
Proof. split; simpl; try apply scanned_null; [done|]. by eexists. Qed.

Lemma conflict_canonical now a c old : canonical old -> canonical (conversation_conflict old (conversation_values now a c)).
Proof.
  intros [? ? ? ? ? [x Ex]]. split; simpl; try apply scanned_null; try (apply coalesce_canonical; [apply scanned_null|done]); [done|].
  unfold sim_json at 1. destruct (decide _); simpl; [by exists x|]. exists (c_SIMPayload c). unfold sim_json. by rewrite decide_False.
Qed.

Lemma activity_canonical now latest act r : canonical r -> canonical (with_activity now latest act r).
Proof. intros [? ? ? ? ? ?]. split; simpl; try done. destruct (_ <? _)%Z; [apply scanned_null|done]. Qed.

Lemma canonical_insert db t id r : all_canonical db -> t = <[id := r]> (db_conversations db) -> canonical r ->
  forall k x, t !! k = Some x -> canonical x.
Proof. intros Hall -> Hr k x. rewrite lookup_insert. case_decide; [by intros [= <-]|apply Hall]. Qed.

Lemma UpsertParticipants_conversations a conv ps db db' : UpsertParticipants a conv ps db = Ok db' -> db_conversations db' = db_conversations db.
Proof. by intros (t & _ & ([] & _ & [= <-])%bind_Ok_inv)%bind_Ok_inv. Qed.

Lemma canonical_step db db' : MsgStep db db' -> all_canonical db -> all_canonical db'.
Proof.
  intros Hst Hall. destruct Hst as [a Ha|now a c db' id Ha Hc E|now a c h db' id Ha Hc E|a conv ps db' E|a|now a cs m db' res Ha Hc Hm E|
    msg op|now conv latest act|a msg att key st db' id Hm E|msg size|att st sha|now conv msg me rs db' Hcl E].
  - exact Hall.
  - unfold UpsertConversation in E. apply bind_Ok_inv in E as (db1 & E1 & E).
    assert (all_canonical db1) as H1'.
    { unfold write_conversation in E1. destruct (db_conversations db !! _) as [old|] eqn:Eo.
      - injection E1 as <-. intros k x. eapply canonical_insert; [exact Hall|done|]. apply conflict_canonical. by eapply Hall.
      - apply bind_Ok_inv in E1 as ([] & _ & ([] & _ & [= <-])%bind_Ok_inv). intros k x.
        eapply canonical_insert; [exact Hall|done|]. apply values_canonical. }
    destruct (c_Participants c); [by injection E as <- _|]. apply bind_Ok_inv in E as (db2 & E2 & [= <- _]).
    intros k x. rewrite (UpsertParticipants_conversations _ _ _ _ _ E2). apply H1'.
  - unfold UpsertContact in E. destruct (db_contacts db !! _); [by injection E as <- _|].
    apply bind_Ok_inv in E as ([] & _ & ([] & _ & [= <- _])%bind_Ok_inv). exact Hall.
  - intros k x. rewrite (UpsertParticipants_conversations _ _ _ _ _ E). apply Hall.
  - exact Hall.
  - intros k x. destruct (UpsertMessage_frame _ _ _ _ _ _ _ E) as (-> & _). apply Hall.
  - unfold LinkMessageOperation. destruct (_ || _); [done|]. destruct (db_messages db !! msg) as [r|]; [|done]. by destruct (ms_operation_id r).
  - unfold BumpConversationActivity. destruct (db_conversations db !! conv) as [r|] eqn:Er; [|done]. intros k x.
    eapply canonical_insert; [exact Hall|done|]. apply activity_canonical. by eapply Hall.
  - intros k x. destruct (upsert_attachment_frame _ _ _ _ _ _ _ _ E) as (_ & _ & ->). apply Hall.
  - unfold FillMissingAttachmentSize. by case_match.
  - unfold SetAttachmentDownloadState. by destruct (db_attachments db !! att).
  - unfold ReplaceReactions in E. intros k x Hk. apply (Hall k x). revert Hk. clear -E.
    repeat (apply bind_Ok_inv in E as (? & _ & E)). injection E as <-. done.
Qed.

Lemma reachable_canonical db : rtc MsgStep empty_db db -> all_canonical db.
Proof.
  intros Hr. assert (forall a b, rtc MsgStep a b -> all_canonical a -> all_canonical b) as Hsteps.
  { induction 1 as [|x y z Hxy _ IH]; [done|]. intros Hx. by eapply IH, canonical_step. }
  eapply Hsteps; [exact Hr|]. intros id r Hid. unfold empty_db in Hid. simpl in Hid. by rewrite lookup_empty in Hid.
Qed.
End Canonical.

Section Theorems.
Context `{GoFmt} `{UUIDLaws} `{Digest} `{JSONLib} `{Backend}.

End Theorems.

(** ** Witness: archive, and ask for a pin that is already off *)

Definition demo_update (_ : string) (_ : ConversationChange) : Step (option GoError) := fun w => (w, None).
Definition demo_archive : ConversationPatch := mkConversationPatch (Some true) (Some false) None.
Definition demo_patch_request : Request := mkRequest "auth_1" "" "{}p" demo_conv_id.
Definition demo_thread : ConversationRow :=
  match writableConversation demo_ingester demo_conv_id "update" demo_live with
  | Ok c => c
  | Err _ => conversation_values 0 "" demo_conv
  end.

Definition demo_idle : World := mkWorld ∅ demo_db3 demo_accounts.

Lemma demo_idle_thread : writableConversation demo_ingester demo_conv_id "update" demo_idle = Ok demo_thread.
Proof. vm_compute. reflexivity. Qed.

