(* ===== verification/Durations.v ===== *)
(** * Durations as text (internal/settings/value.go)

    [time.ParseDuration] of the standard library, the parser of the settings, which adds
    a unit for days, and [formatDuration].  Durations are 64-bit counts of nanoseconds.
    The arithmetic on the fraction of a number is done in floating point and is a
    parameter, exact when the scale divides the unit.  The theorems: what is formatted is
    parsed back; and the days wrap around. *)

From S2P Require Import Prelude GoStrings Limits Encoding.

Local Open Scope Z_scope.

Definition Day : Z := 24 * Hour.
Definition Microsecond : Z := 1000.

(** [float_scaled f unit scale] is [uint64(float64(f) * (float64(unit) / scale))]: exact
    on integers below 2^53 when the quotient is an integer. *)
Class GoDuration := { float_scaled : Z -> Z -> Z -> Z }.

Class GoDurationLaws `{GoDuration} := {
  float_exact f q scale : 0 <= f -> 0 < scale -> 0 < q -> f * q < 2 ^ 53 -> q * scale < 2 ^ 53 ->
    float_scaled f (q * scale) scale = f * q;
}.

(** ** The longest prefix of bytes that pass a test *)

Fixpoint leading (p : Ascii.ascii -> bool) (s : string) : string * string :=
  match s with
  | EmptyString => (EmptyString, EmptyString)
  | String c s' => if p c then let '(a, b) := leading p s' in (String c a, b) else (EmptyString, s)
  end.

Definition is_digit (c : Ascii.ascii) : bool := in_range (byte_of c) 48 57.

(** A byte that ends a unit: a period or a digit. *)
Definition in_unit (c : Ascii.ascii) : bool := negb ((byte_of c =? 46) || is_digit c).

(** ** time.ParseDuration *)

(** [leadingInt]: the value is kept at most 2^63. *)
Fixpoint leadingInt (s : string) (x : Z) : option (Z * string) :=
  match s with
  | EmptyString => Some (x, s)
  | String c s' =>
      if is_digit c then
        if (2 ^ 63 / 10 <? x) then None
        else let x' := x * 10 + (byte_of c - 48) in if (2 ^ 63 <? x') then None else leadingInt s' x'
      else Some (x, s)
  end.

(** [leadingFraction]: once the digits overflow the rest of them are dropped. *)
Fixpoint leadingFraction (s : string) (x scale : Z) (overflow : bool) : Z * Z * string :=
  match s with
  | EmptyString => (x, scale, s)
  | String c s' =>
      if is_digit c then
        let x' := x * 10 + (byte_of c - 48) in
        if overflow || (((2 ^ 63 - 1) / 10) <? x) || (2 ^ 63 <? x') then leadingFraction s' x scale true
        else leadingFraction s' x' (scale * 10) false
      else (x, scale, s)
  end.

Definition MU_micro : string := String (char_of 0xC2) (String (char_of 0xB5) "s").
Definition MU_greek : string := String (char_of 0xCE) (String (char_of 0xBC) "s").

Definition unitMap (u : string) : option Z :=
  if decide (u = "ns"%string) then Some 1
  else if decide (u = "us"%string \/ u = MU_micro \/ u = MU_greek) then Some Microsecond
  else if decide (u = "ms"%string) then Some Millisecond
  else if decide (u = "s"%string) then Some Second
  else if decide (u = "m"%string) then Some Minute
  else if decide (u = "h"%string) then Some Hour
  else None.

Section Durations.
Context `{GoDuration}.

(** The optional fraction: its digits as a number, its scale, whether there was one. *)
Definition fraction (s : string) : Z * Z * bool * string :=
  match s with
  | String c s' =>
      if byte_of c =? 46 then
        let '(f, scale, rest) := leadingFraction s' 0 1 false in
        (f, scale, negb (bool_decide (String.length rest = String.length s')), rest)
      else (0, 1, false, s)
  | EmptyString => (0, 1, false, s)
  end.

(** One number with its unit. *)
Definition duration_term (s : string) : option (Z * string) :=
  match s with
  | EmptyString => None
  | String c _ =>
      if (byte_of c =? 46) || is_digit c then
        '(v, s1) ← leadingInt s 0;
        let pre := negb (bool_decide (String.length s1 = String.length s)) in
        let '(f, scale, post, s2) := fraction s1 in
        if negb pre && negb post then None
        else
          let '(u, s3) := leading in_unit s2 in
          if decide (u = ""%string) then None
          else
            unit ← unitMap u;
            if (2 ^ 63 / unit <? v) then None
            else
              let v1 := v * unit in
              if 0 <? f then
                let v2 := v1 + float_scaled f unit scale in
                if (2 ^ 63 <? v2) then None else Some (v2, s3)
              else Some (v1, s3)
      else None
  end.

(** Every term consumes at least one byte: the length is fuel. *)
Fixpoint duration_terms (fuel : nat) (s : string) (d : Z) : option Z :=
  if decide (s = ""%string) then Some d
  else
    match fuel with
    | O => None
    | S fuel' =>
        '(v, s') ← duration_term s;
        let d' := (d + v) mod 2 ^ 64 in
        if (2 ^ 63 <? d') then None else duration_terms fuel' s' d'
    end.

Definition signed (s : string) : bool * string :=
  match s with
  | String c s' =>
      if byte_of c =? 45 then (true, s') else if byte_of c =? 43 then (false, s') else (false, s)
  | EmptyString => (false, s)
  end.

Definition time_ParseDuration (s : string) : option Z :=
  let '(neg, s1) := signed s in
  if decide (s1 = "0"%string) then Some 0
  else if decide (s1 = ""%string) then None
  else
    d ← duration_terms (String.length s1) s1 0;
    if neg : bool then Some (wrap64 (- wrap64 d)) else if (2 ^ 63 - 1 <? d) then None else Some d.

(** ** The settings' parser *)

(** The groups of days at the front. *)
Fixpoint days (fuel : nat) (s : string) (total : Z) : option (Z * string) :=
  match fuel with
  | O => Some (total, s)
  | S fuel' =>
      match leading is_digit s with
      | (String c n, String u s') =>
          if byte_of u =? 100 then
            n ← ParseInt (String c n);
            days fuel' s' (wrap64 (total + wrap64 (n * Day)))
          else Some (total, s)
      | _ => Some (total, s)
      end
  end.

Definition minus (s : string) : bool * string :=
  match s with
  | String c s' => if byte_of c =? 45 then (true, s') else (false, s)
  | EmptyString => (false, s)
  end.

Definition ParseDuration (s : string) : option Z :=
  if decide (s = ""%string) then None
  else
    let '(neg, s1) := minus s in
    '(total, s2) ← days (S (String.length s1)) s1 0;
    total' ← (if decide (s2 = ""%string) then Some total
              else d ← time_ParseDuration s2; Some (wrap64 (total + d)));
    Some (if neg : bool then wrap64 (- total') else total').

(** ** Duration.String *)

(** [fmtFrac]: [prec] decimals of [v], without the zeros at the end, in front of [acc];
    and what is left of [v]. *)
Fixpoint fmtFrac (prec : nat) (v : Z) (print : bool) (acc : string) : string * Z :=
  match prec with
  | O => (if print then String (char_of 46) acc else acc, v)
  | S prec' =>
      let digit := v mod 10 in
      let print' := print || negb (digit =? 0) in
      fmtFrac prec' (v / 10) print' (if print' then String (char_of (digit + 48)) acc else acc)
  end.

Definition fmtInt (v : Z) : string := pretty (Z.to_N v).

Definition unsigned_String (u : Z) : string :=
  if u <? Second then
    if u =? 0 then "0s"
    else
      let '(prec, unit) := if u <? Microsecond then (0%nat, "ns"%string)
                           else if u <? Millisecond then (3%nat, MU_micro) else (6%nat, "ms"%string) in
      let '(frac, n) := fmtFrac prec u false "" in
      fmtInt n +:+ (frac +:+ unit)
  else
    let '(frac, n) := fmtFrac 9 u false "" in
    let seconds := fmtInt (n mod 60) +:+ (frac +:+ "s") in
    let minutes := n / 60 in
    if 0 <? minutes then
      let hours := minutes / 60 in
      (if 0 <? hours then fmtInt hours +:+ "h" else "") +:+ (fmtInt (minutes mod 60) +:+ ("m" +:+ seconds))
    else seconds.

Definition Duration_String (d : Z) : string :=
  if d <? 0 then String (char_of 45) (unsigned_String (- d)) else unsigned_String d.

Definition formatDuration (d : Z) : string :=
  if d =? 0 then "0s"
  else if Z.rem d Day =? 0 then FormatInt (Z.quot d Day) +:+ "d"
  else if Z.rem d Hour =? 0 then FormatInt (Z.quot d Hour) +:+ "h"
  else if Z.rem d Minute =? 0 then FormatInt (Z.quot d Minute) +:+ "m"
  else if Z.rem d Second =? 0 then FormatInt (Z.quot d Second) +:+ "s"
  else Duration_String d.

(** ** What the formatter writes *)

Lemma digit_value_is c d : digit_value c = Some d -> is_digit c = true /\ byte_of c - 48 = Z.of_N d.
Proof.
  unfold digit_value, is_digit. destruct (in_range (byte_of c) 48 57) eqn:E; [|done]. intros [= <-].
  unfold in_range in E. split; [done|]. lia.
Qed.

Lemma leading_digits s acc n c r : digits s acc = Some n -> is_digit c = false ->
  leading is_digit (s +:+ String c r) = (s, String c r).
Proof.
  intros Hd Hc. revert acc Hd. induction s as [|a s IH]; intros acc; simpl; [by rewrite Hc|].
  destruct (digit_value a) eqn:E; [|done]. destruct (digit_value_is _ _ E) as [-> _]. intros H1. by rewrite (IH _ H1).
Qed.

Lemma digits_mono s acc n : digits s acc = Some n -> (acc <= n)%N.
Proof.
  revert acc. induction s as [|a s IH]; intros acc; simpl; [intros [= ->]; lia|].
  destruct (digit_value a); [|done]. intros ?%IH. lia.
Qed.

Lemma leadingInt_digits s acc n c r : digits s acc = Some n -> Z.of_N n <= 2 ^ 63 -> is_digit c = false ->
  leadingInt (s +:+ String c r) (Z.of_N acc) = Some (Z.of_N n, String c r).
Proof.
  intros Hd Hn Hc. revert acc Hd. induction s as [|a s IH]; intros acc; simpl; [intros [= ->]; by rewrite Hc|].
  destruct (digit_value a) as [d|] eqn:E; [|done]. destruct (digit_value_is _ _ E) as [-> Ha]. intros H1.
  pose proof (digits_mono _ _ _ H1). rewrite Ha.
  assert (Z.of_N acc * 10 + Z.of_N d = Z.of_N (acc * 10 + d)) as -> by lia.
  rewrite (proj2 (Z.ltb_ge _ _)) by (change (2 ^ 63 / 10) with 922337203685477580; change (2 ^ 63) with 9223372036854775808 in *; lia).
  rewrite (proj2 (Z.ltb_ge _ _)) by lia. by apply IH.
Qed.

(** What may follow a unit: nothing, or the next number. *)
Definition ends_unit (rest : string) : Prop := match rest with EmptyString => True | String c _ => in_unit c = false end.

Lemma leading_unit u rest : leading in_unit u = (u, ""%string) -> ends_unit rest -> leading in_unit (u +:+ rest) = (u, rest).
Proof.
  intros Hu Hr. induction u as [|c u IH]; simpl in *.
  - destruct rest as [|c rest]; simpl in *; [done|by rewrite Hr].
  - destruct (in_unit c); [|done]. destruct (leading in_unit u) as [x y]. injection Hu as -> ->. by rewrite IH.
Qed.

(** A fraction that reads as [f] over [scale], in front of a unit. *)
Definition fraction_reads (fs : string) (f scale : Z) : Prop :=
  (fs = ""%string \/ exists ds, fs = String (char_of 46) ds) /\
  forall c r, is_digit c = false -> byte_of c <> 46 -> exists post, fraction (fs +:+ String c r) = (f, scale, post, String c r).

Lemma no_fraction : fraction_reads "" 0 1.
Proof. split; [by left|]. intros c r _ Hc. exists false. simpl. by rewrite (proj2 (Z.eqb_neq _ _) Hc). Qed.

Definition scaled_part (f k scale : Z) : Z := if 0 <? f then float_scaled f k scale else 0.

(** One number of a unit. *)
Lemma term_reads (n : N) fs f scale u k rest : fraction_reads fs f scale ->
  leading in_unit u = (u, ""%string) -> unitMap u = Some k -> 0 < k -> u <> ""%string -> ends_unit rest ->
  Z.of_N n * k + scaled_part f k scale < 2 ^ 63 -> 0 <= scaled_part f k scale ->
  duration_term (pretty n +:+ (fs +:+ (u +:+ rest))) = Some (Z.of_N n * k + scaled_part f k scale, rest).
Proof.
  intros [Hfs Hfr] Hu Hk Hpos Hne Hrest Hn Hp. destruct (pretty_N_first n) as (c & s & E & Hc). pose proof (digits_pretty n) as Hdig.
  destruct u as [|c0 u']; [done|].
  assert (is_digit c0 = false /\ byte_of c0 <> 46) as [Hc0 Hc0'].
  { simpl in Hu. destruct (in_unit c0) eqn:Eu; [|done]. unfold in_unit in Eu. destruct (Z.eqb_spec (byte_of c0) 46), (is_digit c0); done. }
  assert (is_digit c = true) as Hdc by (unfold is_digit; unfold digit_value in Hc; by destruct (in_range _ _ _)).
  set (tail := fs +:+ (String c0 u' +:+ rest)).
  assert (exists ct rt, tail = String ct rt /\ is_digit ct = false) as (ct & rt & Et & Hct).
  { destruct Hfs as [->|[ds ->]]; unfold tail; simpl; by eexists _, _. }
  assert (leadingInt (pretty n +:+ tail) 0 = Some (Z.of_N n, tail)) as Hli.
  { rewrite Et. apply (leadingInt_digits _ 0%N); [done|nia|done]. }
  unfold duration_term. destruct (pretty n +:+ tail) as [|c' s'] eqn:Es; [by rewrite E in Es|].
  assert (c' = c) as -> by (rewrite E in Es; by injection Es). rewrite Hdc, orb_true_r, Hli. cbn [mbind option_bind].
  assert (String.length tail <> String.length (String c s')) as Hlen.
  { rewrite <- Es, E, string_length_app. cbn [String.length]. lia. }
  rewrite bool_decide_eq_false_2 by exact Hlen.
  destruct (Hfr c0 (u' +:+ rest) Hc0 Hc0') as [post Hpost]. change (String c0 (u' +:+ rest)) with (String c0 u' +:+ rest) in Hpost.
  fold tail in Hpost. rewrite Hpost. cbn [negb andb]. rewrite (leading_unit _ _ Hu Hrest), decide_False by done. rewrite Hk. cbn [mbind option_bind].
  rewrite (proj2 (Z.ltb_ge _ _)) by (apply Z.div_le_lower_bound; lia).
  unfold scaled_part in *. destruct (0 <? f); [|by rewrite Z.add_0_r]. by rewrite (proj2 (Z.ltb_ge _ _)) by lia.
Qed.

Lemma pretty_cons (n : N) r : exists k, String.length (pretty n +:+ r) = S k /\ pretty n +:+ r <> ""%string.
Proof. destruct (pretty_N_first n) as (c1 & s & E & _). rewrite E. by eexists. Qed.

(** Sums of terms: the fuel [time_ParseDuration] passes is enough. *)
Definition sums (s : string) (d t : Z) : Prop := forall fuel, (String.length s <= fuel)%nat -> duration_terms fuel s d = Some t.

Lemma sums_end d : sums "" d d.
Proof. by intros []. Qed.

Lemma sums_term (n : N) fs f scale u k rest d t : fraction_reads fs f scale ->
  leading in_unit u = (u, ""%string) -> unitMap u = Some k -> 0 < k -> u <> ""%string -> ends_unit rest ->
  0 <= scaled_part f k scale -> 0 <= d -> d + (Z.of_N n * k + scaled_part f k scale) < 2 ^ 63 ->
  sums rest (d + (Z.of_N n * k + scaled_part f k scale)) t -> sums (pretty n +:+ (fs +:+ (u +:+ rest))) d t.
Proof.
  intros Hfr Hu Hk Hpos Hne Hrest Hp Hd Hlt Hs fuel Hfuel. pose proof (term_reads n fs f scale u k rest Hfr Hu Hk Hpos Hne Hrest ltac:(nia) Hp) as Ht.
  destruct (pretty_cons n (fs +:+ (u +:+ rest))) as (l & Hl & Hcons). destruct fuel as [|fuel]; [lia|].
  cbn [duration_terms]. rewrite decide_False by done. rewrite Ht. cbn [mbind option_bind].
  rewrite Z.mod_small by nia. rewrite (proj2 (Z.ltb_ge _ _)) by lia. apply Hs. rewrite !string_length_app in Hfuel.
  destruct u as [|c u]; [done|]. cbn [String.length] in Hfuel. lia.
Qed.

(** An unsigned text of a number and at least one byte more. *)
Lemma time_unsigned (n : N) c r d : sums (pretty n +:+ String c r) 0 d -> d < 2 ^ 63 ->
  time_ParseDuration (pretty n +:+ String c r) = Some d.
Proof.
  intros Hd Hlt. destruct (pretty_N_first n) as (c1 & s & E & Hc). destruct (digit_no_sign c1 Hc) as [Hs1 Hs2].
  assert (signed (pretty n +:+ String c r) = (false, pretty n +:+ String c r)) as Hsg.
  { rewrite E. simpl. by rewrite (proj2 (Z.eqb_neq _ _) Hs1), (proj2 (Z.eqb_neq _ _) Hs2). }
  unfold time_ParseDuration. rewrite Hsg. rewrite decide_False.
  2: { rewrite E. simpl. intros [= _ H1]. by destruct s. }
  rewrite decide_False by (by rewrite E). rewrite (Hd _ (Nat.le_refl _)). cbn [mbind option_bind]. by rewrite (proj2 (Z.ltb_ge _ _)) by lia.
Qed.

Lemma whole_sums (n : N) u k rest d t : leading in_unit u = (u, ""%string) -> unitMap u = Some k -> 0 < k -> u <> ""%string ->
  ends_unit rest -> 0 <= d -> d + Z.of_N n * k < 2 ^ 63 -> sums rest (d + Z.of_N n * k) t -> sums (pretty n +:+ (u +:+ rest)) d t.
Proof.
  intros Hu Hk Hpos Hne Hrest Hd Hlt Hs. apply (sums_term n "" 0 1 u k rest d t no_fraction); try done; change (scaled_part 0 k 1) with 0; [lia|].
  by rewrite Z.add_0_r.
Qed.

Lemma whole_term (n : N) u k : leading in_unit u = (u, ""%string) -> unitMap u = Some k -> 0 < k -> u <> ""%string ->
  Z.of_N n * k < 2 ^ 63 -> time_ParseDuration (pretty n +:+ u) = Some (Z.of_N n * k).
Proof.
  intros Hu Hk Hpos Hne Hn. pose proof (whole_sums n u k "" 0 (Z.of_N n * k) Hu Hk Hpos Hne I ltac:(lia) ltac:(lia) (sums_end _)) as Hs.
  rewrite append_empty in Hs. destruct u as [|c r]; [done|]. by apply time_unsigned.
Qed.

Lemma FormatInt_signed q : exists n : N, Z.abs q = Z.of_N n /\
  FormatInt q = (if q <? 0 then String (char_of 45) (pretty n) else pretty n).
Proof. destruct q as [|p|p]; [by exists 0%N|by exists (N.pos p)|by exists (N.pos p)]. Qed.

Lemma pretty_not_minus (n : N) r : minus (pretty n +:+ r) = (false, pretty n +:+ r).
Proof.
  destruct (pretty_N_first n) as (c & s & E & Hc). rewrite E. simpl.
  by rewrite (proj2 (Z.eqb_neq _ _) (proj1 (digit_no_sign c Hc))).
Qed.

(** The settings' parser after the sign. *)
Definition parse_unsigned (s : string) : option Z :=
  '(total, s2) ← days (S (String.length s)) s 0;
  if decide (s2 = ""%string) then Some total else d ← time_ParseDuration s2; Some (wrap64 (total + d)).

Lemma signed_text d (n : N) r : parse_unsigned (pretty n +:+ r) = Some (Z.abs d) -> Z.abs d < 2 ^ 63 ->
  ParseDuration (if d <? 0 then String (char_of 45) (pretty n +:+ r) else pretty n +:+ r) = Some d.
Proof.
  unfold parse_unsigned. intros Hd Hb. destruct (pretty_cons n r) as (_ & _ & Hne). unfold ParseDuration. destruct (Z.ltb_spec d 0).
  - rewrite decide_False by done. unfold minus at 1. change (byte_of (char_of 45) =? 45) with true. cbv iota.
    destruct (days _ _ _) as [[t rest]|]; [|done]. cbn [mbind option_bind] in Hd |- *. rewrite Hd. cbn [mbind option_bind].
    f_equal. rewrite wrap64_id; lia.
  - rewrite decide_False by done. rewrite pretty_not_minus.
    destruct (days _ _ _) as [[t rest]|]; [|done]. cbn [mbind option_bind] in Hd |- *. rewrite Hd. cbn [mbind option_bind].
    f_equal. lia.
Qed.

Lemma signed_term q u k : (forall n, Z.abs q = Z.of_N n -> parse_unsigned (pretty n +:+ u) = Some (Z.of_N n * k)) ->
  0 < k -> Z.abs (q * k) < 2 ^ 63 -> ParseDuration (FormatInt q +:+ u) = Some (q * k).
Proof.
  intros Hd Hk Hb. destruct (FormatInt_signed q) as (n & Hn & ->). specialize (Hd n Hn).
  assert (Z.of_N n * k = Z.abs (q * k)) as Hv by (rewrite Z.abs_mul; lia). rewrite Hv in Hd. pose proof (signed_text _ _ _ Hd Hb) as Hs.
  assert ((q * k <? 0) = (q <? 0)) as Heq by (destruct (Z.ltb_spec q 0); [apply Z.ltb_lt|apply Z.ltb_ge]; nia).
  rewrite Heq in Hs. by destruct (q <? 0).
Qed.

Lemma leading_pretty (n : N) c r : is_digit c = false -> leading is_digit (pretty n +:+ String c r) = (pretty n, String c r).
Proof. apply leading_digits with (acc := 0%N) (n := n). apply digits_pretty. Qed.

(** Without days the standard parser sees it all. *)
Lemma no_days (n : N) c r d : is_digit c = false -> byte_of c <> 100 -> time_ParseDuration (pretty n +:+ String c r) = Some d ->
  0 <= d < 2 ^ 63 -> parse_unsigned (pretty n +:+ String c r) = Some d.
Proof.
  intros Hc Hd Ht Hb. unfold parse_unsigned. cbn [days]. rewrite leading_pretty by done.
  destruct (pretty_N_first n) as (c0 & s & E & _). rewrite E at 1. rewrite (proj2 (Z.eqb_neq _ _) Hd). cbn [mbind option_bind].
  destruct (pretty_cons n (String c r)) as (_ & _ & Hne). rewrite decide_False by done. rewrite Ht. cbn [mbind option_bind].
  f_equal. rewrite wrap64_id; lia.
Qed.

Lemma clock_term q c k : is_digit c = false -> byte_of c <> 100 -> in_unit c = true ->
  unitMap (String c "") = Some k -> 0 < k -> Z.abs (q * k) < 2 ^ 63 ->
  ParseDuration (FormatInt q +:+ String c "") = Some (q * k).
Proof.
  intros Hc Hd Hin Hk Hpos Hb. apply signed_term; [|done|done]. intros n Hn. apply no_days; [done|done| |nia].
  apply whole_term; [by simpl; rewrite Hin|done|done|done|nia].
Qed.

Lemma day_term q : Z.abs (q * Day) < 2 ^ 63 -> ParseDuration (FormatInt q +:+ "d") = Some (q * Day).
Proof.
  intros Hb. apply signed_term; [|done|done]. intros n Hn. assert (Z.of_N n * Day < 2 ^ 63) as Hn' by (unfold Day, Hour, Minute, Second in *; lia).
  assert (Z.of_N n < 2 ^ 63) as Hn2 by (unfold Day, Hour, Minute, Second in *; lia).
  unfold parse_unsigned. cbn [days]. rewrite leading_pretty by done.
  destruct (pretty_N_first n) as (c0 & s & E & _). rewrite E at 1. change (byte_of (char_of 100) =? 100) with true. cbv iota.
  rewrite <- E.
  assert (ParseInt (pretty n) = Some (Z.of_N n)) as ->.
  { rewrite <- (Parse_Format (Z.of_N n)); [|unfold min_int64, max_int64; lia]. f_equal. unfold FormatInt. by destruct n. }
  cbn [mbind option_bind]. rewrite !wrap64_id by (rewrite ?wrap64_id; unfold Day, Hour, Minute, Second in *; lia).
  rewrite Z.add_0_l.
  assert (forall f t, days f "" t = Some (t, ""%string)) as Hend by (by intros []). rewrite Hend. done.
Qed.

(** ** What [Duration.String] writes *)

Lemma digits_shift s acc : digits s acc = (fun m => acc * 10 ^ N.of_nat (String.length s) + m)%N <$> digits s 0.
Proof.
  revert acc. induction s as [|c s IH]; intros acc; simpl; [f_equal; lia|].
  destruct (digit_value c) as [d|]; [|done]. rewrite IH, (IH (0 * 10 + d)%N). destruct (digits s 0); [|done]. simpl. f_equal.
  rewrite Nat2N.inj_succ, N.pow_succ_r'. lia.
Qed.

Lemma leadingFraction_digits s x n c r scale : digits s x = Some n -> Z.of_N n < 10 ^ 18 -> is_digit c = false ->
  leadingFraction (s +:+ String c r) (Z.of_N x) scale false = (Z.of_N n, scale * 10 ^ Z.of_nat (String.length s), String c r).
Proof.
  intros Hd Hn Hc. revert x scale Hd. induction s as [|a s IH]; intros x scale; simpl; [intros [= ->]; rewrite Hc; do 2 f_equal; lia|].
  destruct (digit_value a) as [d|] eqn:E; [|done]. destruct (digit_value_is _ _ E) as [-> Ha]. intros H1.
  pose proof (digits_mono _ _ _ H1). rewrite Ha.
  assert (Z.of_N x * 10 + Z.of_N d = Z.of_N (x * 10 + d)) as -> by lia.
  rewrite (proj2 (Z.ltb_ge _ _)) by (change ((2 ^ 63 - 1) / 10) with 922337203685477580; lia).
  rewrite (proj2 (Z.ltb_ge _ _)) by lia. cbn [orb]. rewrite IH by done. do 2 f_equal. rewrite Nat2Z.inj_succ, Z.pow_succ_r by lia. lia.
Qed.

(** The decimals written so far, [z] zeros having been left out. *)
Record written (print : bool) (acc : string) (F : N) (z : nat) : Prop := {
  wr_digits : digits acc 0 = Some F;
  wr_none : print = false -> acc = ""%string;
}.

Lemma fmtFrac_reads prec v print acc F z fs n : 0 <= v -> written print acc F z -> fmtFrac prec v print acc = (fs, n) ->
  n = v / 10 ^ Z.of_nat prec /\
  exists print' acc' F' z', written print' acc' F' z' /\ fs = (if print' : bool then String (char_of 46) acc' else acc') /\
    Z.of_N F' * 10 ^ Z.of_nat z' = (v mod 10 ^ Z.of_nat prec) * 10 ^ Z.of_nat (String.length acc + z) + Z.of_N F * 10 ^ Z.of_nat z /\
    (String.length acc' + z' = String.length acc + z + prec)%nat.
Proof.
  revert v print acc F z. induction prec as [|prec IH]; intros v print acc F z Hv Hw; cbn [fmtFrac].
  { intros [= <- <-]. split; [by rewrite Z.div_1_r|]. exists print, acc, F, z. split; [done|]. split; [done|]. split; [rewrite Z.mod_1_r; lia|lia]. }
  intros E. pose proof (Z.mod_pos_bound v 10 ltac:(lia)) as Hdig.
  assert (v / 10 / 10 ^ Z.of_nat prec = v / 10 ^ Z.of_nat (S prec)) as Hdiv.
  { rewrite Nat2Z.inj_succ, Z.pow_succ_r, Z.div_div; lia. }
  assert (v mod 10 ^ Z.of_nat (S prec) = v mod 10 + 10 * (v / 10 mod 10 ^ Z.of_nat prec)) as Hmod.
  { rewrite Nat2Z.inj_succ, Z.pow_succ_r by lia. apply Z.rem_mul_r; lia. }
  destruct (print || negb (v mod 10 =? 0)) eqn:Hp.
  - assert (is_Some (digit_value (char_of (v mod 10 + 48)))) as [d Hd].
    { unfold digit_value. rewrite byte_of_char by lia. unfold in_range. rewrite (proj2 (Z.leb_le _ _)), (proj2 (Z.leb_le _ _)) by lia. by eexists. }
    destruct (digit_value_is _ _ Hd) as [_ Hdv]. rewrite byte_of_char in Hdv by lia.
    set (acc1 := String (char_of (v mod 10 + 48)) acc) in *.
    set (F1 := (d * 10 ^ N.of_nat (String.length acc) + F)%N).
    assert (written true acc1 F1 z) as Hw1.
    { split; [|done]. unfold acc1. simpl. rewrite Hd, digits_shift, (wr_digits _ _ _ _ Hw). done. }
    destruct (IH (v / 10) true acc1 F1 z ltac:(apply Z.div_pos; lia) Hw1 E) as (-> & print' & acc' & F' & z' & Hw' & Hfs & Heq & Hlen).
    split; [exact Hdiv|]. exists print', acc', F', z'. split; [done|]. split; [done|]. unfold acc1 in *. cbn [String.length] in *. split; [|lia].
    rewrite Heq, Hmod. unfold F1. rewrite N2Z.inj_add, N2Z.inj_mul, N2Z.inj_pow, nat_N_Z. change (Z.of_N 10) with 10.
    rewrite <- Hdv. replace (S (String.length acc) + z)%nat with (S (String.length acc + z)) by lia.
    rewrite Nat2Z.inj_succ, Z.pow_succ_r, Nat2Z.inj_add, Z.pow_add_r by lia. lia.
  - apply orb_false_iff in Hp as [-> Hz]. apply negb_false_iff in Hz. apply Z.eqb_eq in Hz.
    pose proof (wr_none _ _ _ _ Hw eq_refl) as ->. pose proof (wr_digits _ _ _ _ Hw) as HF. injection HF as <-.
    destruct (IH (v / 10) false "" 0%N (S z) ltac:(apply Z.div_pos; lia) ltac:(by split) E) as (-> & print' & acc' & F' & z' & Hw' & Hfs & Heq & Hlen).
    split; [exact Hdiv|]. exists print', acc', F', z'. split; [done|]. split; [done|]. cbn [String.length] in *. split; [|lia].
    rewrite Heq, Hmod, Hz. rewrite !Nat.add_0_l, Nat2Z.inj_succ, Z.pow_succ_r by lia. lia.
Qed.

Lemma frac_term `{!GoDurationLaws} (prec : nat) v fs n : (prec <= 9)%nat -> 0 <= v -> fmtFrac prec v false "" = (fs, n) ->
  n = v / 10 ^ Z.of_nat prec /\
  exists f scale, fraction_reads fs f scale /\ scaled_part f (10 ^ Z.of_nat prec) scale = v mod 10 ^ Z.of_nat prec.
Proof.
  intros Hprec Hv E. assert (0 < 10 ^ Z.of_nat prec <= 10 ^ 9) as [Hp0 Hp9] by (split; [lia|apply Z.pow_le_mono_r; lia]).
  pose proof (Z.mod_pos_bound v _ Hp0) as Hb.
  destruct (fmtFrac_reads prec v false "" 0 0 fs n Hv ltac:(by split) E) as (Hn & print & acc & F & z & [Hdig Hnone] & -> & Heq & Hlen).
  split; [exact Hn|]. change (String.length "" + 0)%nat with 0%nat in *. rewrite Z.mul_1_r, Z.mul_0_l, Z.add_0_r in Heq. simpl in Hlen.
  destruct print.
  - assert (Z.of_N F <= v mod 10 ^ Z.of_nat prec) as HF by nia.
    exists (Z.of_N F), (1 * 10 ^ Z.of_nat (String.length acc)). split.
    + split; [right; by eexists|]. intros c r Hc _.
      pose proof (leadingFraction_digits acc 0 F c r 1 Hdig ltac:(lia) Hc) as Hlf. change (Z.of_N 0) with 0 in Hlf.
      eexists. simpl. rewrite Hlf. reflexivity.
    + unfold scaled_part. rewrite Z.mul_1_l. replace (10 ^ Z.of_nat prec) with (10 ^ Z.of_nat z * 10 ^ Z.of_nat (String.length acc)) at 1.
      2: { rewrite <- Z.pow_add_r by lia. f_equal. lia. }
      destruct (Z.ltb_spec 0 (Z.of_N F)) as [HF0|HF0].
      * rewrite float_exact; [exact Heq|lia|lia|lia|lia|]. rewrite <- Z.pow_add_r by lia.
        replace (Z.of_nat z + Z.of_nat (String.length acc)) with (Z.of_nat prec) by lia. lia.
      * assert (Z.of_N F = 0) as HF' by lia. rewrite HF', Z.mul_0_l in Heq. lia.
  - rewrite (Hnone eq_refl) in *. injection Hdig as <-. exists 0, 1. split; [exact no_fraction|]. rewrite Z.mul_0_l in Heq. by rewrite <- Heq.
Qed.

Lemma fmtInt_value v : 0 <= v -> Z.of_N (Z.to_N v) = v.
Proof. lia. Qed.

(** One unit with decimals, at the end. *)
Lemma sums_frac `{!GoDurationLaws} prec v u fs n : (prec <= 9)%nat -> 0 <= v -> fmtFrac prec v false "" = (fs, n) ->
  leading in_unit u = (u, ""%string) -> unitMap u = Some (10 ^ Z.of_nat prec) -> u <> ""%string ->
  forall m d, 0 <= m -> 0 <= d -> d + (m * 10 ^ Z.of_nat prec + v mod 10 ^ Z.of_nat prec) < 2 ^ 63 ->
    sums (fmtInt m +:+ (fs +:+ u)) d (d + (m * 10 ^ Z.of_nat prec + v mod 10 ^ Z.of_nat prec)).
Proof.
  intros Hprec Hv E Hu Hk Hne m d Hm Hd Hlt. destruct (frac_term prec v fs n Hprec Hv E) as (_ & f & scale & Hfr & Hs).
  assert (0 < 10 ^ Z.of_nat prec) as Hp0 by lia. pose proof (Z.mod_pos_bound v _ Hp0).
  rewrite <- (append_empty u), <- Hs. unfold fmtInt. rewrite <- (fmtInt_value m) at 2 by done.
  apply (sums_term _ fs f scale u (10 ^ Z.of_nat prec)); try done; rewrite ?fmtInt_value, ?Hs by done; [lia|lia|]. apply sums_end.
Qed.

Lemma whole_minutes m s d t : 0 <= m -> ends_unit s -> 0 <= d -> d + m * Minute < 2 ^ 63 -> sums s (d + m * Minute) t ->
  sums (fmtInt m +:+ ("m" +:+ s)) d t.
Proof.
  intros Hm Hs Hd Hlt Ht. apply (whole_sums _ "m" Minute); try done; rewrite fmtInt_value by done; [lia|done].
Qed.

Lemma fmtInt_ends m r : ends_unit (fmtInt m +:+ r).
Proof.
  unfold fmtInt. destruct (pretty_N_first (Z.to_N m)) as (c & s & -> & Hc). simpl. unfold in_unit, is_digit.
  unfold digit_value in Hc. destruct (in_range (byte_of c) 48 57); [by rewrite orb_true_r|done].
Qed.

(** The text of a positive duration: digits, then no day, and the parser reads it. *)
Definition clock_text (s : string) (u : Z) : Prop :=
  exists (n : N) c r, s = pretty n +:+ String c r /\ is_digit c = false /\ byte_of c <> 100 /\ sums s 0 u.

Lemma clock_text_intro m r u : (match r with EmptyString => False | String c _ => is_digit c = false /\ byte_of c <> 100 end) ->
  sums (fmtInt m +:+ r) 0 u -> clock_text (fmtInt m +:+ r) u.
Proof. destruct r as [|c r]; [done|]. intros [Hc Hd] Hs. by exists (Z.to_N m), c, r. Qed.

Lemma fmtFrac_first prec v fs n u : fmtFrac prec v false "" = (fs, n) ->
  (match u with EmptyString => False | String c _ => is_digit c = false /\ byte_of c <> 100 end) ->
  match fs +:+ u with EmptyString => False | String c _ => is_digit c = false /\ byte_of c <> 100 end.
Proof.
  assert (forall prec v print acc, (print = false -> acc = ""%string) -> forall fs n, fmtFrac prec v print acc = (fs, n) ->
    fs = ""%string \/ exists ds, fs = String (char_of 46) ds) as H0.
  { clear. induction prec as [|prec IH]; intros v print acc Hp fs n; cbn [fmtFrac].
    - intros [= <- _]. destruct print; [right; by eexists|left; by apply Hp].
    - apply IH. destruct (print || _) eqn:Ep; [done|]. intros _. apply Hp. by destruct print. }
  intros E Hu. by destruct (H0 _ _ _ _ (fun _ => eq_refl) _ _ E) as [->|[ds ->]].
Qed.

Lemma unsigned_text `{!GoDurationLaws} u : 0 < u < 2 ^ 63 -> clock_text (unsigned_String u) u.
Proof.
  intros Hu. unfold unsigned_String.
  assert (forall prec k unit, (prec <= 9)%nat -> k = 10 ^ Z.of_nat prec -> leading in_unit unit = (unit, ""%string) -> unitMap unit = Some k ->
    (match unit with EmptyString => False | String c _ => is_digit c = false /\ byte_of c <> 100 end) ->
    clock_text (let '(frac, n) := fmtFrac prec u false "" in fmtInt n +:+ (frac +:+ unit)) u) as Hone.
  { intros prec k unit Hprec -> Hl Hk Hne. destruct (fmtFrac prec u false "") as [fs n] eqn:E.
    apply clock_text_intro; [by eapply fmtFrac_first|].
    destruct (frac_term prec u fs n Hprec ltac:(lia) E) as (-> & _). assert (0 < 10 ^ Z.of_nat prec) as Hp0 by lia.
    pose proof (Z.div_mod u (10 ^ Z.of_nat prec) ltac:(lia)) as Hdm.
    pose proof (sums_frac prec u unit fs _ Hprec ltac:(lia) E Hl Hk ltac:(intros ->; exact Hne) (u / 10 ^ Z.of_nat prec) 0
      ltac:(apply Z.div_pos; lia) ltac:(lia) ltac:(lia)) as Hs.
    replace (0 + (u / 10 ^ Z.of_nat prec * 10 ^ Z.of_nat prec + u mod 10 ^ Z.of_nat prec)) with u in Hs by lia. exact Hs. }
  destruct (u <? Second) eqn:Hsec.
  { rewrite (proj2 (Z.eqb_neq u 0)) by lia. destruct (u <? Microsecond); [apply (Hone 0%nat 1); [lia|done..]|].
    destruct (u <? Millisecond); [apply (Hone 3%nat Microsecond)|apply (Hone 6%nat Millisecond)]; (lia || done). }
  clear Hone. destruct (fmtFrac 9 u false "") as [fs n] eqn:E.
  destruct (frac_term 9 u fs n ltac:(lia) ltac:(lia) E) as (Hn & _). change (10 ^ Z.of_nat 9) with Second in *.
  assert (0 <= n) as Hn0 by (subst n; apply Z.div_pos; [lia|done]).
  pose proof (Z.div_mod u Second ltac:(done)) as Hdm. rewrite <- Hn in Hdm. pose proof (Z.mod_pos_bound u Second ltac:(done)) as Hmb.
  pose proof (Z.div_mod n 60 ltac:(done)) as Hn60. pose proof (Z.mod_pos_bound n 60 ltac:(done)) as Hnb.
  pose proof (Z.div_mod (n / 60) 60 ltac:(done)) as Hm60. pose proof (Z.mod_pos_bound (n / 60) 60 ltac:(done)) as Hmb60.
  assert (forall d, 0 <= d -> d + (n mod 60 * Second + u mod Second) = u -> sums (fmtInt (n mod 60) +:+ (fs +:+ "s")) d u) as Hsecs.
  { intros d Hd He. pose proof (sums_frac 9 u "s" fs n ltac:(lia) ltac:(lia) E eq_refl eq_refl ltac:(done) (n mod 60) d ltac:(lia) Hd) as Hs.
    change (10 ^ Z.of_nat 9) with Second in Hs. rewrite He in Hs. apply Hs. lia. }
  cbv zeta. assert (Minute = 60 * Second) as HM by done. assert (Hour = 60 * Minute) as HH by done.
  assert (0 < Second) as HS by done.
  destruct (Z.ltb_spec 0 (n / 60)) as [Hmin|Hmin].
  2: { apply clock_text_intro; [by eapply fmtFrac_first|]. apply Hsecs; [lia|]. assert (n / 60 = 0) as Hz by lia. nia. }
  assert (0 <= n / 60 / 60) as Hh0 by (apply Z.div_pos; lia).
  assert (forall d, 0 <= d -> d + n / 60 mod 60 * Minute + (n mod 60 * Second + u mod Second) = u ->
    sums (fmtInt (n / 60 mod 60) +:+ ("m" +:+ (fmtInt (n mod 60) +:+ (fs +:+ "s")))) d u) as Hmins.
  { intros d Hd He. apply whole_minutes; [lia|apply fmtInt_ends|lia|nia|]. apply Hsecs; [nia|lia]. }
  destruct (Z.ltb_spec 0 (n / 60 / 60)) as [Hh|Hh].
  2: { change ("" +:+ ?x) with x. apply clock_text_intro; [done|]. apply Hmins; [lia|]. assert (n / 60 / 60 = 0) as Hz by lia. nia. }
  rewrite append_assoc.
  apply clock_text_intro; [done|]. apply (whole_sums _ "h" Hour); try done; rewrite ?fmtInt_value by done; [apply fmtInt_ends|nia|].
  apply Hmins; [nia|nia].
Qed.

(** ** The text is valid UTF-8, and a parsed duration fits in 64 bits *)

Definition ascii_text (s : string) : Prop := Forall (fun b => b < 0x80) (bytes s).

Lemma valid_app a b : ascii_text a -> ValidString (a +:+ b) = ValidString b.
Proof.
  unfold ascii_text. induction a as [|c a IH]; [done|]. intros [Hc Ha]%Forall_cons. simpl bytes in *.
  change (ValidString (String c (a +:+ b)) = ValidString b). rewrite <- (IH Ha). unfold ValidString. simpl.
  by rewrite (proj2 (Z.ltb_lt _ _) Hc).
Qed.

Lemma digits_ascii s acc n : digits s acc = Some n -> ascii_text s.
Proof.
  unfold ascii_text. revert acc. induction s as [|c s IH]; intros acc; simpl; [done|]. unfold digit_value.
  destruct (in_range (byte_of c) 48 57) eqn:E; [|done]. unfold in_range in E. intros ?%IH. constructor; [lia|done].
Qed.

Lemma pretty_ascii (n : N) : ascii_text (pretty n).
Proof. eapply digits_ascii, digits_pretty. Qed.

Lemma FormatInt_ascii q : ascii_text (FormatInt q).
Proof. destruct (FormatInt_signed q) as (n & _ & ->). destruct (q <? 0); [constructor; [done|]|]; apply pretty_ascii. Qed.

Lemma fmtFrac_ascii prec v fs n : 0 <= v -> fmtFrac prec v false "" = (fs, n) -> ascii_text fs.
Proof.
  intros Hv E. destruct (fmtFrac_reads prec v false "" 0 0 fs n Hv ltac:(by split) E) as (_ & p & acc & F & z & [Hd _] & -> & _).
  destruct p; [constructor; [done|]|]; by eapply digits_ascii.
Qed.

Lemma unsigned_valid u : 0 <= u -> ValidString (unsigned_String u) = true.
Proof.
  intros Hu. unfold unsigned_String. destruct (u <? Second).
  - destruct (u =? 0); [done|]. destruct (u <? Microsecond), (u <? Millisecond);
      destruct (fmtFrac _ u false "") as [fs n] eqn:E; unfold fmtInt;
      rewrite valid_app by (apply pretty_ascii); rewrite valid_app by (by eapply fmtFrac_ascii); done.
  - destruct (fmtFrac 9 u false "") as [fs n] eqn:E. unfold fmtInt.
    assert (ValidString (pretty (Z.to_N (n mod 60)) +:+ (fs +:+ "s")) = true) as Hs.
    { rewrite valid_app by (apply pretty_ascii). by rewrite valid_app by (by eapply fmtFrac_ascii). }
    destruct (0 <? n / 60); [|exact Hs]. destruct (0 <? n / 60 / 60).
    + rewrite append_assoc. rewrite valid_app by apply pretty_ascii. rewrite valid_app by (by repeat constructor).
      rewrite valid_app by apply pretty_ascii. by rewrite valid_app by (by repeat constructor).
    + change ("" +:+ ?x) with x. rewrite valid_app by apply pretty_ascii. by rewrite valid_app by (by repeat constructor).
Qed.

Lemma formatDuration_valid d : ValidString (formatDuration d) = true.
Proof.
  assert (forall q, ValidString (FormatInt q +:+ "d") = true /\ ValidString (FormatInt q +:+ "h") = true /\
    ValidString (FormatInt q +:+ "m") = true /\ ValidString (FormatInt q +:+ "s") = true) as Hq.
  { intros q. by rewrite !valid_app by apply FormatInt_ascii. }
  unfold formatDuration. destruct (d =? 0); [done|]. repeat (destruct (Z.rem d _ =? 0); [apply Hq|]).
  unfold Duration_String. destruct (Z.ltb_spec d 0); [|by apply unsigned_valid].
  change (String (char_of 45) (unsigned_String (- d))) with (String (char_of 45) "" +:+ unsigned_String (- d)).
  rewrite valid_app by (by repeat constructor). apply unsigned_valid. lia.
Qed.

Lemma wrap64_range z : min_int64 <= wrap64 z <= max_int64.
Proof. unfold wrap64, min_int64, max_int64. pose proof (Z.mod_pos_bound (z + 2 ^ 63) (2 ^ 64) ltac:(lia)). lia. Qed.

Lemma days_range fuel s t t' s' : min_int64 <= t <= max_int64 -> days fuel s t = Some (t', s') -> min_int64 <= t' <= max_int64.
Proof.
  revert s t. induction fuel as [|fuel IH]; intros s t Ht; cbn [days]; [by intros [= <- <-]|].
  destruct (leading is_digit s) as [[|c n] [|u r]]; try by intros [= <- <-].
  destruct (byte_of u =? 100); [|by intros [= <- <-]]. destruct (ParseInt _); [|done]. apply IH, wrap64_range.
Qed.

Lemma ParseDuration_range s d : ParseDuration s = Some d -> min_int64 <= d <= max_int64.
Proof.
  unfold ParseDuration. destruct (decide _); [done|]. destruct (minus s) as [neg s1].
  destruct (days _ s1 0) as [[t r]|] eqn:E; [|done]. cbn [mbind option_bind].
  assert (min_int64 <= t <= max_int64) as Ht by (eapply days_range; [|exact E]; done).
  destruct (decide _).
  - intros [= <-]. destruct neg; [apply wrap64_range|done].
  - destruct (time_ParseDuration r); [|done]. intros [= <-]. destruct neg; apply wrap64_range.
Qed.

Lemma duration_reads `{!GoDurationLaws} d : min_int64 < d <= max_int64 -> ParseDuration (formatDuration d) = Some d.
Proof.
  unfold min_int64, max_int64. intros Hd. unfold formatDuration. destruct (Z.eqb_spec d 0) as [->|Hz]; [by vm_compute|].
  assert (forall k, Z.rem d k = 0 -> Z.abs (Z.quot d k * k) < 2 ^ 63 /\ Z.quot d k * k = d) as Hq.
  { intros k Hk. pose proof (Z.quot_rem' d k). replace (Z.quot d k * k) with d by lia. lia. }
  destruct (Z.eqb_spec (Z.rem d Day) 0) as [E|_]; [by destruct (Hq _ E) as [? Ed]; rewrite day_term, Ed by done|].
  destruct (Z.eqb_spec (Z.rem d Hour) 0) as [E|_]; [by destruct (Hq _ E) as [? Ed]; rewrite (clock_term _ _ Hour), Ed by done|].
  destruct (Z.eqb_spec (Z.rem d Minute) 0) as [E|_]; [by destruct (Hq _ E) as [? Ed]; rewrite (clock_term _ _ Minute), Ed by done|].
  destruct (Z.eqb_spec (Z.rem d Second) 0) as [E|_]; [by destruct (Hq _ E) as [? Ed]; rewrite (clock_term _ _ Second), Ed by done|].
  destruct (unsigned_text (Z.abs d) ltac:(lia)) as (n & c & r & Et & Hc & Hcd & Hs).
  assert (parse_unsigned (pretty n +:+ String c r) = Some (Z.abs d)) as Hp.
  { apply no_days; [done|done| |lia]. apply time_unsigned; [|lia]. by rewrite <- Et. }
  pose proof (signed_text d n _ Hp ltac:(lia)) as Hst. rewrite <- Et in Hst. unfold Duration_String.
  destruct (Z.ltb_spec d 0); [replace (- d) with (Z.abs d) by lia; exact Hst|by rewrite Z.abs_eq in Hst by lia].
Qed.

(** What [formatDuration] writes, [ParseDuration] reads back: whole days, hours,
    minutes or seconds and everything finer, on both sides of zero, over the whole range
    of 64 bits but its least element. *)
Theorem duration_roundtrip `{!GoDurationLaws} d : min_int64 < d <= max_int64 -> ParseDuration (formatDuration d) = Some d.
Proof. apply duration_reads. Qed.

(** The days are multiplied and added in 64 bits: 213504 days are 25 minutes. *)
Lemma days_wrap : ParseDuration "213504d" = Some 1526290448384.
Proof. reflexivity. Qed.

(** Two signs, and a sign alone, are accepted. *)
Lemma signs_accepted : ParseDuration "--5m" = Some (5 * Minute) /\ ParseDuration "-" = Some 0.
Proof. done. Qed.
End Durations.

(** ** A concrete library: exact division *)

#[export] Instance exact_durations : GoDuration := {
  float_scaled f unit scale := f * unit / scale;
}.
#[export] Instance exact_laws : GoDurationLaws.
Proof. split. intros f q scale ? ? ? ? ?. simpl. rewrite Z.mul_assoc. apply Z.div_mul. lia. Qed.

Example duration_roundtrip_witness : ParseDuration (formatDuration (- (90 * Minute + 500 * Millisecond))) = Some (- (90 * Minute + 500 * Millisecond)).
Proof. apply duration_roundtrip. split; [reflexivity|vm_compute; discriminate]. Defined.
