(* ===== verification/Settings.v ===== *)
(** * Runtime settings (internal/settings)

    The registry of declared settings, the resolution of an effective value (a row of the
    database over an environment variable over the default), and the patch, which checks
    the whole body before it writes any of it.  A patch is a program (Prog.v): each read
    and each write of the table is one action.  The table holds JSON text; what the
    library for JSON makes of a scalar is a parameter.  A refusal carries the data its
    message prints, not the message. *)

From S2P Require Import Prelude GoStrings Limits Encoding Prog Durations.

Local Open Scope Z_scope.

Inductive Kind : Type := KindInt | KindDuration | KindBool | KindEnum.
#[export] Instance Kind_eq_dec : EqDecision Kind.
Proof. solve_decision. Defined.

Record Value := mkValue { v_Kind : Kind; v_Int : Z; v_Dur : Z; v_Bool : bool; v_Str : string }.
#[export] Instance Value_eq_dec : EqDecision Value.
Proof. solve_decision. Defined.

Definition Int64 (v : Z) : Value := mkValue KindInt v 0 false "".
Definition Duration (d : Z) : Value := mkValue KindDuration 0 d false "".
Definition Bool (b : bool) : Value := mkValue KindBool 0 0 b "".
Definition Enum (s : string) : Value := mkValue KindEnum 0 0 false s.

Definition FormatBool (b : bool) : string := if b then "true" else "false".

Definition Value_String (v : Value) : string :=
  match v_Kind v with
  | KindInt => FormatInt (v_Int v)
  | KindDuration => formatDuration (v_Dur v)
  | KindBool => FormatBool (v_Bool v)
  | KindEnum => v_Str v
  end.

Definition Value_Equal (v o : Value) : bool :=
  bool_decide (v_Kind v = v_Kind o) && (v_Int v =? v_Int o) && (v_Dur v =? v_Dur o) && eqb (v_Bool v) (v_Bool o) &&
  bool_decide (v_Str v = v_Str o).

(** [compare]: a bool and an enum are equal to everything. *)
Definition compare (v o : Value) : comparison :=
  match v_Kind v with
  | KindInt => (v_Int v ?= v_Int o)
  | KindDuration => (v_Dur v ?= v_Dur o)
  | _ => Eq
  end.

(** encoding/json on scalars: the bytes of a string and back, and what [Unmarshal] and a
    [Decoder] that keeps numbers as text make of some bytes. *)
Class JSONScalars := {
  json_Marshal_string : string -> string;
  json_Unmarshal_string : string -> option string;
  json_Unmarshal_bool : string -> option bool;
  json_Decode_Number : string -> option string;
}.

Class JSONScalarLaws `{JSONScalars} := {
  json_string_roundtrip s : ValidString s = true -> json_Unmarshal_string (json_Marshal_string s) = Some s;
  json_bool_roundtrip b : json_Unmarshal_bool (FormatBool b) = Some b;
  json_number_roundtrip z : json_Decode_Number (FormatInt z) = Some (FormatInt z);
}.

(** ** Declarations *)

Inductive Scope : Type := ScopeServer | ScopePerAccount.

Record Def := mkDef {
  d_Key : string;
  d_Kind : Kind;
  d_Default : Value;
  d_Min : option Value;
  d_Max : option Value;
  d_EnumValues : list string;
  d_Scope : Scope;
  d_Mutable : bool;
  d_DownwardOnly : bool;
  d_RequiresRestart : bool;
  d_Env : string;
  d_Note : string;
}.

Fixpoint quoteList (l : list string) : string :=
  match l with
  | [] => ""
  | [s] => String (char_of 34) (s +:+ String (char_of 34) "")
  | s :: l' => String (char_of 34) (s +:+ String (char_of 34) (", " +:+ quoteList l'))
  end.

Definition EN_DASH : string := String (char_of 0xE2) (String (char_of 0x80) (String (char_of 0x93) "")).

Definition BoundsString (d : Def) : string :=
  if d_DownwardOnly d then "mutable downward only"
  else if bool_decide (d_Kind d = KindEnum) && negb (bool_decide (d_EnumValues d = [])) then "one of " +:+ quoteList (d_EnumValues d)
  else
    match d_Min d, d_Max d with
    | Some lo, Some hi => Value_String lo +:+ (EN_DASH +:+ Value_String hi)
    | Some lo, None => "at least " +:+ Value_String lo
    | None, Some hi => "at most " +:+ Value_String hi
    | None, None => "unbounded"
    end.

Record Registry := mkRegistry {
  r_defs : gmap string Def;
  r_order : list string;
  r_retired : gmap string string;
}.

(** A key declared twice panics. *)
Definition add (r : option Registry) (d : Def) : option Registry :=
  r ← r;
  match r_defs r !! d_Key d with
  | Some _ => None
  | None => Some (mkRegistry (<[d_Key d := d]> (r_defs r)) (r_order r ++ [d_Key d]) (r_retired r))
  end.

Definition Retired : gmap string string := ∅.

(** Every declaration but one leaves [Kind] to its default, is mutable and needs a
    restart. *)
Definition setting (key : string) (dflt : Value) (lo hi : option Value) (scope : Scope) (note : string) : Def :=
  mkDef key (v_Kind dflt) dflt lo hi [] scope true false true "" note.

Definition ttl (key : string) (dflt lo hi : Z) : Def :=
  setting key (Duration dflt) (Some (Duration lo)) (Some (Duration hi)) ScopeServer "".
Definition declared : list Def := [
  setting "backfill.concurrency" (Int64 2) (Some (Int64 1)) (Some (Int64 8)) ScopePerAccount
    "worst case is this multiplied by accounts.max_concurrent";
  setting "backfill.conversation_page_size" (Int64 100) (Some (Int64 10)) (Some (Int64 500)) ScopePerAccount "";
  setting "backfill.message_page_size" (Int64 100) (Some (Int64 10)) (Some (Int64 500)) ScopePerAccount "";
  setting "backfill.max_messages_per_conversation" (Int64 2000) (Some (Int64 100)) (Some (Int64 100000)) ScopePerAccount "";
  setting "backfill.horizon" (Duration (365 * Day)) (Some (Duration (7 * Day))) (Some (Duration (3650 * Day))) ScopePerAccount
    "cost multiplies by account count";
  setting "backfill.include_archive" (Bool true) None None ScopePerAccount "";
  setting "ingest.sweep_interval" (Duration (15 * Minute)) (Some (Duration Minute)) (Some (Duration (6 * Hour))) ScopePerAccount "";
  setting "accounts.max_concurrent" (Int64 8) (Some (Int64 1)) (Some (Int64 32)) ScopeServer "section 4.7";
  ttl "operations.send_deadline" (300 * Second) (60 * Second) (600 * Second);
  ttl "operations.idempotency_ttl" (30 * Day) (1 * Day) (365 * Day);
  ttl "operations.pending_timeout" (24 * Hour) Hour (7 * Day);
  ttl "operations.wait_timeout" (60 * Second) (5 * Second) (10 * Minute);
  mkDef "media.upload_max_bytes" KindInt (Int64 104857600) None None [] ScopeServer true true true "" "mutable downward only";
  setting "media.cache_max_bytes" (Int64 (2 * 1024 * 1024 * 1024)) None None ScopeServer
    "the LRU is cross-account (section 10.3)";
  setting "media.inline_mcp_image_max_bytes" (Int64 (1024 * 1024)) None None ScopeServer "";
  ttl "admin.access_token_ttl" (15 * Minute) (5 * Minute) Hour;
  ttl "admin.refresh_token_idle_ttl" (30 * Day) (1 * Day) (90 * Day);
  ttl "admin.refresh_token_absolute_ttl" (90 * Day) (7 * Day) (365 * Day);
  ttl "oauth.access_token_ttl" (15 * Minute) (5 * Minute) Hour;
  ttl "oauth.refresh_token_idle_ttl" (30 * Day) (1 * Day) (90 * Day);
  ttl "oauth.refresh_token_absolute_ttl" (90 * Day) (7 * Day) (365 * Day);
  ttl "oauth.authorization_code_ttl" (2 * Minute) (30 * Second) (5 * Minute);
  ttl "oauth.authorization_request_ttl" (15 * Minute) Minute Hour;
  ttl "oauth.enrollment_default_ttl" (15 * Minute) Minute (24 * Hour);
  setting "backup.keep" (Int64 7) (Some (Int64 1)) (Some (Int64 100)) ScopeServer "";
  mkDef "logging.level" KindEnum (Enum "info") None None ["debug"; "info"; "warn"; "error"] ScopeServer true false false
    "AGENT_GM_LOG_LEVEL" "reloadable without restart" ]%string.

Definition empty_registry : Registry := mkRegistry ∅ [] Retired.

Definition NewRegistry : option Registry :=
  r ← fold_left add declared (Some empty_registry);
  Some (mkRegistry (r_defs r) (merge_sort String.le (r_order r)) (r_retired r)).

(** [Retire]: a live key panics. *)
Definition Retire (key replacement : string) (r : Registry) : option Registry :=
  match r_defs r !! key with
  | Some _ => None
  | None => Some (mkRegistry (r_defs r) (r_order r) (<[key := replacement]> (r_retired r)))
  end.

(** ** Refusals *)

Inductive SettingsError : Type :=
| EUnknown (key : string)
| ERetired (key : string) (replacement : string)
| ENotMutable (key : string)
| EMalformed (key : string) (raw : string)
| EWrongKind (key : string) (got : Kind)
| ENotOneOf (key : string) (allowed : list string) (got : string)
| EOutOfBounds (key : string) (bounds : string) (got : string)
| EUpward (key : string) (effective got : string).
#[export] Instance SettingsError_eq_dec : EqDecision SettingsError.
Proof. solve_decision. Defined.

Record Effective := mkEffective {
  ef_Def : Def;
  ef_Value : Value;
  ef_Source : string;
}.

Definition SourceDefault : string := "default".
Definition SourceEnvironment : string := "environment".
Definition SourceDatabase : string := "database".

Record Change := mkChange { cg_Key : string; cg_From : Value; cg_To : Value; cg_RequiresRestart : bool }.

(** The table: the JSON text of each key. *)
Definition rows : Type := gmap string string.

Section Settings.
Context `{GoDuration} `{JSONScalars}.

Definition Value_JSON (v : Value) : string :=
  match v_Kind v with
  | KindInt => FormatInt (v_Int v)
  | KindDuration => json_Marshal_string (formatDuration (v_Dur v))
  | KindBool => FormatBool (v_Bool v)
  | KindEnum => json_Marshal_string (v_Str v)
  end.

(** The shape of a number: a minus or a digit first. *)
Definition number_shape (raw : string) : bool :=
  match TrimSpace raw with
  | EmptyString => false
  | String c _ => (byte_of c =? 45) || is_digit c
  end.

Definition parseValue (kind : Kind) (raw : string) : option Value :=
  match kind with
  | KindInt => if number_shape raw then n ← json_Decode_Number raw; i ← ParseInt n; Some (Int64 i) else None
  | KindDuration => s ← json_Unmarshal_string raw; d ← ParseDuration s; Some (Duration d)
  | KindBool => b ← json_Unmarshal_bool raw; Some (Bool b)
  | KindEnum => s ← json_Unmarshal_string raw; Some (Enum s)
  end.

Definition parseEnv (d : Def) (raw : string) : option Value :=
  match d_Kind d with
  | KindEnum => Some (Enum raw)
  | KindBool | KindInt => parseValue (d_Kind d) raw
  | KindDuration => dur ← ParseDuration raw; Some (Duration dur)
  end.

Definition below (v : Value) (lo : option Value) : bool :=
  match lo with Some m => bool_decide (compare v m = Lt) | None => false end.
Definition above (v : Value) (hi : option Value) : bool :=
  match hi with Some m => bool_decide (compare v m = Gt) | None => false end.

Definition validateAgainstBounds (d : Def) (v : Value) : option SettingsError :=
  if negb (bool_decide (v_Kind v = d_Kind d)) then Some (EWrongKind (d_Key d) (v_Kind v))
  else if bool_decide (d_Kind d = KindEnum) then
    if existsb (fun allowed => bool_decide (v_Str v = allowed)) (d_EnumValues d) then None
    else Some (ENotOneOf (d_Key d) (d_EnumValues d) (v_Str v))
  else if below v (d_Min d) || above v (d_Max d) then Some (EOutOfBounds (d_Key d) (BoundsString d) (Value_String v))
  else None.

Definition checked (d : Def) (v : option Value) (raw : string) : Result SettingsError Value :=
  match v with
  | None => Err (EMalformed (d_Key d) raw)
  | Some v => match validateAgainstBounds d v with Some e => Err e | None => Ok v end
  end.

Context (reg : Registry) (env : string -> string).

Definition from_env (d : Def) : Result SettingsError Effective :=
  if decide (d_Env d = ""%string \/ env (d_Env d) = ""%string) then Ok (mkEffective d (d_Default d) SourceDefault)
  else v ← checked d (parseEnv d (env (d_Env d))) (env (d_Env d)); Ok (mkEffective d v SourceEnvironment).

Definition resolve (d : Def) (db : option string) : Result SettingsError Effective :=
  eff ← from_env d;
  match db with
  | None => Ok eff
  | Some json => v ← checked d (parseValue (d_Kind d) json) json; Ok (mkEffective d v SourceDatabase)
  end.

Definition unknown (key : string) : SettingsError :=
  match r_retired reg !! key with Some replacement => ERetired key replacement | None => EUnknown key end.

Definition Get (key : string) (t : rows) : Result SettingsError Effective :=
  match r_defs reg !! key with
  | None => Err (unknown key)
  | Some d => resolve d (t !! key)
  end.

(** [All]: the first key that does not resolve fails the listing. *)
Fixpoint all_of (keys : list string) (t : rows) : Result SettingsError (list Effective) :=
  match keys with
  | [] => Ok []
  | k :: keys' =>
      match r_defs reg !! k with
      | None => all_of keys' t
      | Some d => eff ← resolve d (t !! k); l ← all_of keys' t; Ok (eff :: l)
      end
  end.
Definition All (t : rows) : Result SettingsError (list Effective) := all_of (r_order reg) t.

(** ** The patch *)

(** What one key of the body asks for, against what is in force. *)
Definition change_of (key raw : string) (t : rows) : Result SettingsError Change :=
  match r_defs reg !! key with
  | None => Err (unknown key)
  | Some d =>
      if negb (d_Mutable d) then Err (ENotMutable key)
      else
        v ← checked d (parseValue (d_Kind d) raw) raw;
        cur ← Get key t;
        if d_DownwardOnly d && bool_decide (compare v (ef_Value cur) = Gt)
        then Err (EUpward key (Value_String (ef_Value cur)) (Value_String v))
        else Ok (mkChange key (ef_Value cur) v (d_RequiresRestart d))
  end.

Fixpoint validate (body : list (string * string)) : Prog rows (Result SettingsError (list Change)) :=
  match body with
  | [] => mret (Ok [])
  | (key, raw) :: body' =>
      look (change_of key raw) ≫= fun r =>
      match r with
      | Err e => mret (Err e)
      | Ok c => validate body' ≫= fun l => mret (l ← l; Ok (c :: l))
      end
  end.

Fixpoint put_all (changes : list Change) : Prog rows () :=
  match changes with
  | [] => mret tt
  | c :: changes' => modify (<[cg_Key c := Value_JSON (cg_To c)]>) ≫= fun _ => put_all changes'
  end.

Definition by_key (x y : string * string) : Prop := String.le x.1 y.1.
#[export] Instance by_key_dec : RelDecision by_key.
Proof. intros x y. unfold by_key. apply _. Defined.

(** The keys of the body, sorted. *)
Definition Patch (body : gmap string string) : Prog rows (Result SettingsError (list Change)) :=
  validate (merge_sort by_key (map_to_list body)) ≫= fun r =>
  match r with
  | Err e => mret (Err e)
  | Ok changes => put_all changes ≫= fun _ => mret (Ok changes)
  end.

(** [settingInt] (internal/api/deps.go): anything unusual is the fallback. *)
Definition settingInt (key : string) (fallback : Z) (t : rows) : Z :=
  match Get key t with
  | Ok eff => if bool_decide (v_Kind (ef_Value eff) = KindInt) && negb (v_Int (ef_Value eff) =? 0) then v_Int (ef_Value eff) else fallback
  | Err _ => fallback
  end.
End Settings.

(** ** Well-typed values *)

Definition bounded (proj : Value -> Z) (d : Def) (v : Value) : Prop :=
  (forall m, d_Min d = Some m -> proj m <= proj v) /\ (forall m, d_Max d = Some m -> proj v <= proj m).

Definition typed (d : Def) (v : Value) : Prop :=
  v_Kind v = d_Kind d /\
  match d_Kind d with
  | KindInt => bounded v_Int d v
  | KindDuration => bounded v_Dur d v
  | KindBool => True
  | KindEnum => v_Str v ∈ d_EnumValues d
  end.

Lemma below_false (proj : Value -> Z) v lo : (forall m, compare v m = (proj v ?= proj m)) ->
  below v lo = false <-> forall m, lo = Some m -> proj m <= proj v.
Proof.
  intros Hc. unfold below. destruct lo as [m|]; [|naive_solver]. rewrite bool_decide_eq_false, Hc, Z.compare_lt_iff.
  split; [intros ? ? [= <-]; lia|intros Hm ?; specialize (Hm m eq_refl); lia].
Qed.

Lemma above_false (proj : Value -> Z) v hi : (forall m, compare v m = (proj v ?= proj m)) ->
  above v hi = false <-> forall m, hi = Some m -> proj v <= proj m.
Proof.
  intros Hc. unfold above. destruct hi as [m|]; [|naive_solver]. rewrite bool_decide_eq_false, Hc, Z.compare_gt_iff.
  split; [intros ? ? [= <-]; lia|intros Hm ?; specialize (Hm m eq_refl); lia].
Qed.

Lemma validate_typed d v : validateAgainstBounds d v = None <-> typed d v.
Proof.
  unfold validateAgainstBounds, typed. destruct (decide (v_Kind v = d_Kind d)) as [Hk|Hk].
  2: { rewrite (bool_decide_eq_false_2 _ Hk). naive_solver. }
  rewrite (bool_decide_eq_true_2 _ Hk). cbn [negb]. destruct (d_Kind d) eqn:Ed.
  - rewrite bool_decide_eq_false_2 by done. unfold bounded. rewrite <- (below_false v_Int), <- (above_false v_Int) by (intros m; unfold compare; by rewrite Hk).
    destruct (below _ _), (above _ _); naive_solver.
  - rewrite bool_decide_eq_false_2 by done. unfold bounded. rewrite <- (below_false v_Dur), <- (above_false v_Dur) by (intros m; unfold compare; by rewrite Hk).
    destruct (below _ _), (above _ _); naive_solver.
  - rewrite bool_decide_eq_false_2 by done.
    assert (forall m, compare v m = Eq) as Hc by (intros m; unfold compare; by rewrite Hk).
    assert (below v (d_Min d) = false) as -> by (unfold below; destruct (d_Min d); [by rewrite Hc|done]).
    assert (above v (d_Max d) = false) as -> by (unfold above; destruct (d_Max d); [by rewrite Hc|done]). done.
  - rewrite bool_decide_eq_true_2 by done. destruct (existsb _ _) eqn:E.
    + apply existsb_exists in E as (x & Hx & Hv%bool_decide_eq_true). subst x. split; [|done]. intros _. split; [done|]. by apply list_elem_of_In.
    + split; [done|]. intros [_ Hin]. exfalso. apply not_true_iff_false in E. apply E, existsb_exists. exists (v_Str v).
      split; [by apply list_elem_of_In|by apply bool_decide_eq_true].
Qed.

Lemma checked_Ok d v raw x : checked d v raw = Ok x -> v = Some x /\ typed d x.
Proof.
  unfold checked. destruct v as [v|]; [|done]. destruct (validateAgainstBounds d v) eqn:E; [done|]. intros [= <-].
  split; [done|]. by apply validate_typed.
Qed.

(** ** The declarations are consistent *)

Definition kinds_agree (d : Def) (m : option Value) : bool := match m with Some v => bool_decide (v_Kind v = d_Kind d) | None => true end.

Definition def_ok (d : Def) : bool :=
  bool_decide (validateAgainstBounds d (d_Default d) = None) && kinds_agree d (d_Min d) && kinds_agree d (d_Max d) &&
  forallb ValidString (d_EnumValues d) &&
  match d_Kind d, d_Min d with KindDuration, Some m => min_int64 <? v_Dur m | KindDuration, None => false | _, _ => true end.

Lemma declared_ok : forallb def_ok declared = true.
Proof. vm_compute. reflexivity. Qed.

Lemma add_all l r r' : fold_left add l r = Some r' -> exists r0, r = Some r0 /\
  forall k d, r_defs r' !! k = Some d -> r_defs r0 !! k = Some d \/ (d ∈ l /\ d_Key d = k).
Proof.
  revert r. induction l as [|x l IH]; intros r; simpl.
  { intros ->. exists r'. split; [done|]. by left. }
  intros (r1 & Hadd & Hin)%IH. unfold add in Hadd. destruct r as [r0|]; [|done]. cbn [mbind option_bind] in Hadd.
  destruct (r_defs r0 !! d_Key x) eqn:E; [done|]. injection Hadd as <-. exists r0. split; [done|]. intros k d [Hk|[Hd Hk]]%Hin.
  - simpl in Hk. rewrite lookup_insert in Hk. case_decide; [|by left]. injection Hk as <-. right. split; [by left|done].
  - right. split; [by right|done].
Qed.

Lemma registry_declared reg k d : NewRegistry = Some reg -> r_defs reg !! k = Some d -> d_Key d = k /\ def_ok d = true.
Proof.
  unfold NewRegistry. destruct (fold_left add declared (Some empty_registry)) as [r|] eqn:E; [|done]. intros [= <-]. simpl. intros Hk.
  destruct (add_all _ _ _ E) as (r0 & [= <-] & Hin). destruct (Hin k d Hk) as [H0|[Hd Hkey]]; [exfalso; exact (lookup_empty_Some _ _ H0)|].
  split; [done|]. by eapply (proj1 (forallb_forall _ _) declared_ok), list_elem_of_In.
Qed.

Lemma registry_built : is_Some NewRegistry.
Proof. assert (bool_decide (is_Some NewRegistry) = true) as H by (vm_compute; reflexivity). by apply bool_decide_eq_true in H. Qed.

(** ** Resolution *)

Section Resolution.
Context `{GoDuration} `{JSONScalars}.

Lemma from_env_Ok env d eff : def_ok d = true -> from_env env d = Ok eff -> ef_Def eff = d /\ typed d (ef_Value eff) /\
  ((d_Env d = ""%string \/ env (d_Env d) = ""%string) /\ ef_Value eff = d_Default d /\ ef_Source eff = SourceDefault \/
   parseEnv d (env (d_Env d)) = Some (ef_Value eff) /\ ef_Source eff = SourceEnvironment).
Proof.
  intros Hok. unfold from_env. destruct (decide _) as [He|He].
  - intros [= <-]. split; [done|]. split; [|by left]. simpl. apply validate_typed. unfold def_ok in Hok.
    rewrite !andb_true_iff, bool_decide_eq_true in Hok. apply Hok.
  - intros (v & (Hv & Ht)%checked_Ok & [= <-])%bind_Ok_inv. split; [done|]. split; [done|]. by right.
Qed.

(** Which source an effective value comes from, and that it was validated there. *)
Lemma effective_source reg env key t eff : NewRegistry = Some reg -> Get reg env key t = Ok eff ->
  r_defs reg !! key = Some (ef_Def eff) /\ typed (ef_Def eff) (ef_Value eff) /\
  match t !! key with
  | Some json => ef_Source eff = SourceDatabase /\ parseValue (d_Kind (ef_Def eff)) json = Some (ef_Value eff)
  | None =>
      if decide (d_Env (ef_Def eff) = ""%string \/ env (d_Env (ef_Def eff)) = ""%string)
      then ef_Source eff = SourceDefault /\ ef_Value eff = d_Default (ef_Def eff)
      else ef_Source eff = SourceEnvironment /\ parseEnv (ef_Def eff) (env (d_Env (ef_Def eff))) = Some (ef_Value eff)
  end.
Proof.
  intros Hreg. unfold Get. destruct (r_defs reg !! key) as [d|] eqn:Ed; [|done].
  destruct (registry_declared _ _ _ Hreg Ed) as [_ Hok]. intros (e0 & He0 & Heff)%bind_Ok_inv.
  pose proof (from_env_Ok _ _ _ Hok He0) as (Hd & Ht & Hsrc). destruct (t !! key) as [json|].
  - apply bind_Ok_inv in Heff as (v & [Hv Hty]%checked_Ok & [= <-]). by split_and!.
  - injection Heff as <-. rewrite Hd. split; [done|]. split; [done|]. unfold from_env in He0. case_decide.
    + by injection He0 as <-.
    + apply bind_Ok_inv in He0 as (v & [Hv _]%checked_Ok & [= <-]). done.
Qed.
(** C27: whatever the database and the environment hold, a setting that resolves is a value
    of its declared type, within its declared bounds or among its declared words, and it is
    the database's value if there is a row, else the environment's if the declaration names
    a variable that is set, else the default. *)
Theorem effective_typed reg env key t eff : NewRegistry = Some reg -> Get reg env key t = Ok eff ->
  r_defs reg !! key = Some (ef_Def eff) /\ typed (ef_Def eff) (ef_Value eff) /\
  match t !! key with
  | Some json => ef_Source eff = SourceDatabase /\ parseValue (d_Kind (ef_Def eff)) json = Some (ef_Value eff)
  | None =>
      if decide (d_Env (ef_Def eff) = ""%string \/ env (d_Env (ef_Def eff)) = ""%string)
      then ef_Source eff = SourceDefault /\ ef_Value eff = d_Default (ef_Def eff)
      else ef_Source eff = SourceEnvironment /\ parseEnv (ef_Def eff) (env (d_Env (ef_Def eff))) = Some (ef_Value eff)
  end.
Proof. apply effective_source. Qed.
End Resolution.

(** ** What is written is read back *)

Lemma pieces_ascii s : ascii_text s -> pieces s = (fun c => (byte_of c, String c "")) <$> String.list_ascii_of_string s.
Proof.
  unfold pieces. intros Hs. rewrite (decode_ascii _ Hs). induction s as [|c s IH]; [done|].
  apply Forall_cons in Hs as [Hc Hs]. cbn [bytes fmap list_fmap cut String.list_ascii_of_string].
  assert (rune_width (byte_of c, true) = 1%nat) as -> by (unfold rune_width; cbn [negb snd fst]; by rewrite (proj2 (Z.ltb_lt _ _) Hc)).
  rewrite <- (IH Hs). cbn [fst]. f_equal; [by destruct s|]. f_equal. simpl. rewrite Nat.sub_0_r. apply substring_whole.
Qed.

(** A text without white space is not trimmed. *)
Lemma TrimSpace_plain s : Forall (fun b => b < 0x80 /\ IsSpace b = false) (bytes s) -> TrimSpace s = s.
Proof.
  intros Hs. assert (ascii_text s) as Ha by (eapply Forall_impl; [exact Hs|]; by intros ? []).
  assert (forall l, Forall (fun p : Z * string => IsSpace p.1 = false) l -> drop_space l = l) as Hdrop.
  { intros l Hl. destruct Hl as [|p l Hp _]; [done|]. simpl. by rewrite Hp. }
  assert (Forall (fun p : Z * string => IsSpace p.1 = false) (pieces s)) as Hp.
  { rewrite pieces_ascii by done. clear Ha Hdrop. induction s as [|c s IH]; simpl in *; [done|]. apply Forall_cons in Hs as [[_ Hc] Hs].
    constructor; [done|by apply IH]. }
  unfold TrimSpace. rewrite (Hdrop _ Hp), (Hdrop (reverse _)) by (by apply Forall_reverse). rewrite reverse_involutive.
  rewrite pieces_ascii by done. unfold join. clear. induction s as [|c s IH]; [done|]. simpl in *.
  destruct (String.list_ascii_of_string s) as [|c' l] eqn:E; simpl in *; [by rewrite <- IH|]. by rewrite <- IH.
Qed.

Lemma digits_plain s acc n : digits s acc = Some n -> Forall (fun b => b < 0x80 /\ IsSpace b = false) (bytes s).
Proof.
  revert acc. induction s as [|c s IH]; intros acc; simpl; [done|]. destruct (digit_value c) as [d|] eqn:E; [|done].
  destruct (digit_value_is _ _ E) as [Hc _]. unfold is_digit, in_range in Hc. intros ?%IH. constructor; [|done].
  split; [lia|]. unfold IsSpace, in_range. repeat (apply orb_false_iff; split); lia.
Qed.

Lemma number_shape_Format z : number_shape (FormatInt z) = true.
Proof.
  unfold number_shape. destruct (FormatInt_signed z) as (n & _ & ->). pose proof (digits_plain _ _ _ (digits_pretty n)) as Hp.
  destruct (pretty_N_first n) as (c & s & E & Hc). destruct (z <? 0).
  - rewrite TrimSpace_plain; [done|]. constructor; [done|exact Hp].
  - rewrite TrimSpace_plain by exact Hp. rewrite E. unfold digit_value in Hc. unfold is_digit.
    destruct (in_range (byte_of c) 48 57); [apply orb_true_r|done].
Qed.

Lemma ParseInt_range s z : ParseInt s = Some z -> min_int64 <= z <= max_int64.
Proof.
  assert (forall n y, in_int64 y = Some n -> min_int64 <= n <= max_int64) as Hin.
  { unfold in_int64. intros n y. destruct (_ && _) eqn:E; [|done]. intros [= <-]. lia. }
  unfold ParseInt. destruct s as [|c s]; [done|]. destruct (byte_of c =? 45); [|destruct (byte_of c =? 43)];
    destruct (ParseUint _); try done; apply Hin.
Qed.

Section Roundtrip.
Context `{GoDurationLaws} `{JSONScalarLaws}.

Lemma value_roundtrip d raw v : def_ok d = true -> parseValue (d_Kind d) raw = Some v -> typed d v ->
  parseValue (d_Kind d) (Value_JSON v) = Some v.
Proof.
  unfold def_ok. intros Hok Hp [_ Ht]. rewrite !andb_true_iff in Hok. destruct Hok as [[[_ _] Henum] Hdur].
  destruct (d_Kind d) eqn:Ek; simpl in Hp.
  - destruct (number_shape raw); [|done]. apply bind_Some in Hp as (n & _ & (i & Hi & [= <-])%bind_Some).
    change (Value_JSON (Int64 i)) with (FormatInt i). unfold parseValue. rewrite number_shape_Format, json_number_roundtrip. cbn [mbind option_bind]. rewrite Parse_Format; [done|by eapply ParseInt_range].
  - apply bind_Some in Hp as (s & _ & (x & Hx & [= <-])%bind_Some).
    change (Value_JSON (Duration x)) with (json_Marshal_string (formatDuration x)). unfold parseValue. rewrite json_string_roundtrip by apply formatDuration_valid. cbn [mbind option_bind].
    rewrite duration_reads; [done|]. apply ParseDuration_range in Hx. destruct (d_Min d) as [m|] eqn:Em; [|done].
    destruct Ht as [Hlo _]. specialize (Hlo m Em). simpl in Hlo. lia.
  - apply bind_Some in Hp as (b & _ & [= <-]). change (Value_JSON (Bool b)) with (FormatBool b).
    unfold parseValue. by rewrite json_bool_roundtrip.
  - apply bind_Some in Hp as (s & _ & [= <-]). change (Value_JSON (Enum s)) with (json_Marshal_string s). unfold parseValue. rewrite json_string_roundtrip; [done|].
    eapply (proj1 (forallb_forall _ _) Henum), list_elem_of_In, Ht.
Qed.
End Roundtrip.

(** ** What a patch does *)

Section Patches.
Context `{GoDurationLaws} `{JSONScalarLaws} (reg : Registry) (env : string -> string) (Hreg : NewRegistry = Some reg).

Fixpoint changes_of (body : list (string * string)) (t : rows) : Result SettingsError (list Change) :=
  match body with
  | [] => Ok []
  | (key, raw) :: body' => c ← change_of reg env key raw t; l ← changes_of body' t; Ok (c :: l)
  end.

Lemma run_validate body t : run (validate reg env body) t = (t, changes_of body t).
Proof.
  induction body as [|[key raw] body IH]; [done|]. cbn [validate changes_of]. rewrite run_bind. unfold look, atomic. cbn [run].
  destruct (change_of reg env key raw t) as [c|e]; cbn [mbind Result_bind]; [|done]. rewrite run_bind, IH. by destruct (changes_of body t).
Qed.

Lemma run_put_all cs t : run (put_all cs) t = (fold_left (fun t c => <[cg_Key c := Value_JSON (cg_To c)]> t) cs t, tt).
Proof. revert t. induction cs as [|c cs IH]; intros t; [done|]. cbn [put_all fold_left]. rewrite run_bind. apply IH. Qed.

Lemma run_Patch body t :
  run (Patch reg env body) t =
    match changes_of (merge_sort by_key (map_to_list body)) t with
    | Err e => (t, Err e)
    | Ok cs => (fold_left (fun t c => <[cg_Key c := Value_JSON (cg_To c)]> t) cs t, Ok cs)
    end.
Proof.
  unfold Patch. rewrite run_bind, run_validate. destruct (changes_of _ t) as [cs|e]; [|done]. by rewrite run_bind, run_put_all.
Qed.

Lemma changes_of_Ok body t cs : changes_of body t = Ok cs ->
  Forall2 (fun p c => change_of reg env p.1 p.2 t = Ok c) body cs.
Proof.
  revert cs. induction body as [|[k raw] body IH]; intros cs; cbn [changes_of]; [by intros [= <-]|].
  intros (c & Hc & (l & Hl & [= <-])%bind_Ok_inv)%bind_Ok_inv. constructor; [done|by apply IH].
Qed.

Lemma changes_of_Err body t e : changes_of body t = Err e -> exists k raw, (k, raw) ∈ body /\ change_of reg env k raw t = Err e.
Proof.
  induction body as [|[k raw] body IH]; cbn [changes_of]; [done|]. destruct (change_of reg env k raw t) as [c|e'] eqn:Ec; cbn [mbind Result_bind].
  - destruct (changes_of body t) as [l|e']; cbn [mbind Result_bind]; [done|]. intros Heq. injection Heq as ->.
    destruct (IH eq_refl) as (k' & raw' & Hin & Hc). exists k', raw'. split; [by right|done].
  - intros [= ->]. exists k, raw. split; [by left|done].
Qed.

(** The keys of the body, once each, whatever their order. *)
Lemma body_sorted (body : gmap string string) : merge_sort by_key (map_to_list body) ≡ₚ map_to_list body.
Proof. apply merge_sort_Permutation. Qed.

Lemma body_elem (body : gmap string string) k raw : (k, raw) ∈ merge_sort by_key (map_to_list body) <-> body !! k = Some raw.
Proof. by rewrite (body_sorted body), elem_of_map_to_list. Qed.

Lemma body_keys (body : gmap string string) : NoDup (merge_sort by_key (map_to_list body)).*1.
Proof. rewrite (body_sorted body). apply NoDup_fst_map_to_list. Qed.

Lemma written_keys (cs : list Change) (t : rows) k : NoDup (cg_Key <$> cs) ->
  fold_left (fun t c => <[cg_Key c := Value_JSON (cg_To c)]> t) cs t !! k =
    match List.find (fun c => bool_decide (cg_Key c = k)) cs with Some c => Some (Value_JSON (cg_To c)) | None => t !! k end.
Proof.
  revert t. induction cs as [|c cs IH]; intros t; [done|]. intros [Hc Hnd]%NoDup_cons. cbn [fold_left List.find].
  rewrite IH by done. destruct (decide (cg_Key c = k)) as [<-|Hk].
  - rewrite bool_decide_eq_true_2 by done. destruct (List.find _ cs) as [c'|] eqn:Ef.
    + apply find_some in Ef as [Hin Hk%bool_decide_eq_true]. destruct Hc. rewrite <- Hk. apply list_elem_of_fmap_2. by apply list_elem_of_In.
    + apply (lookup_insert_eq (M := gmap string)).
  - rewrite bool_decide_eq_false_2 by done. destruct (List.find _ cs); [done|]. by apply (lookup_insert_ne (M := gmap string)).
Qed.

(** One accepted key. *)
Definition accepted (key raw : string) (t : rows) (c : Change) (d : Def) (v : Value) (cur : Effective) : Prop :=
  r_defs reg !! key = Some d /\ d_Mutable d = true /\ parseValue (d_Kind d) raw = Some v /\ typed d v /\
  Get reg env key t = Ok cur /\ (d_DownwardOnly d = true -> compare v (ef_Value cur) <> Gt) /\
  c = mkChange key (ef_Value cur) v (d_RequiresRestart d).

Lemma change_of_Ok key raw t c : change_of reg env key raw t = Ok c -> exists d v cur, accepted key raw t c d v cur.
Proof.
  unfold change_of, accepted. destruct (r_defs reg !! key) as [d|]; [|done]. destruct (d_Mutable d) eqn:Em; [|done]. cbn [negb].
  intros (v & [Hp Ht]%checked_Ok & (cur & Hcur & Hc)%bind_Ok_inv)%bind_Ok_inv. exists d, v, cur.
  destruct (d_DownwardOnly d && bool_decide (compare v (ef_Value cur) = Gt)) eqn:Ed; [done|]. injection Hc as <-.
  split_and!; try done. intros Hdown. rewrite Hdown in Ed. by apply bool_decide_eq_false in Ed.
Qed.

(** The value in force once a row says so. *)
Lemma Get_written key raw t t' c d v cur : accepted key raw t c d v cur -> t' !! key = Some (Value_JSON v) ->
  Get reg env key t' = Ok (mkEffective d v SourceDatabase).
Proof.
  intros (Hd & _ & Hp & Ht & Hcur & _) Hrow. unfold Get in *. rewrite Hd in *. destruct (registry_declared _ _ _ Hreg Hd) as [_ Hok].
  apply bind_Ok_inv in Hcur as (e0 & He0 & _). unfold resolve. rewrite He0, Hrow. cbn [mbind Result_bind].
  rewrite (value_roundtrip _ _ _ Hok Hp Ht). unfold checked. by rewrite (proj2 (validate_typed d v) Ht).
Qed.

Lemma Get_same key t t' : t !! key = t' !! key -> Get reg env key t' = Get reg env key t.
Proof. intros E. unfold Get. by rewrite E. Qed.

(** What a patch leaves of a key: what it was, or what the body asked for. *)
Lemma patched_key body t cs : changes_of (merge_sort by_key (map_to_list body)) t = Ok cs ->
  forall key, match body !! key with
    | None => (run (Patch reg env body) t).1 !! key = t !! key
    | Some raw => exists c d v cur, c ∈ cs /\ accepted key raw t c d v cur /\
        (run (Patch reg env body) t).1 !! key = Some (Value_JSON v)
    end.
Proof.
  intros Hcs key. rewrite run_Patch, Hcs. cbn [fst]. pose proof (changes_of_Ok _ _ _ Hcs) as Hall.
  assert (cg_Key <$> cs = (merge_sort by_key (map_to_list body)).*1) as Hkeys.
  { clear Hcs. induction Hall as [|[k raw] c body' cs' Hc _ IH]; [done|].
    apply change_of_Ok in Hc as (? & ? & ? & _ & _ & _ & _ & _ & _ & ->). csimpl. by rewrite IH. }
  rewrite written_keys by (rewrite Hkeys; apply body_keys). destruct (body !! key) as [raw|] eqn:Eb.
  - apply body_elem in Eb. apply list_elem_of_lookup in Eb as [i Hi]. destruct (Forall2_lookup_l _ _ _ _ _ Hall Hi) as (c & Hci & Hc).
    simpl in Hc. apply change_of_Ok in Hc as (d & v & cur & Hacc). exists c, d, v, cur.
    assert (c ∈ cs) as Hin by (apply list_elem_of_lookup; by exists i). split; [done|]. split; [done|].
    assert (List.find (fun c0 => bool_decide (cg_Key c0 = key)) cs = Some c) as ->.
    2: { destruct Hacc as (_ & _ & _ & _ & _ & _ & ->). done. }
    destruct (List.find _ cs) as [c'|] eqn:Ef.
    + f_equal. apply find_some in Ef as [Hin' Hk%bool_decide_eq_true]. apply list_elem_of_In, list_elem_of_lookup in Hin' as [j Hj].
      assert (cg_Key c = key) as Hkc by (destruct Hacc as (_ & _ & _ & _ & _ & _ & ->); done).
      assert (NoDup (cg_Key <$> cs)) as Hnd by (rewrite Hkeys; apply body_keys).
      assert (j = i) as ->; [|by rewrite Hci in Hj; injection Hj as ->].
      eapply NoDup_lookup; [exact Hnd|..]; rewrite list_lookup_fmap; [rewrite Hj|rewrite Hci]; simpl; by rewrite ?Hk, ?Hkc.
    + apply list_elem_of_In in Hin. pose proof (find_none _ _ Ef _ Hin) as Hn. destruct Hacc as (_ & _ & _ & _ & _ & _ & ->).
      by apply bool_decide_eq_false in Hn.
  - destruct (List.find _ cs) as [c|] eqn:Ef; [|done]. apply find_some in Ef as [Hin Hk%bool_decide_eq_true].
    exfalso. apply list_elem_of_In in Hin. assert (key ∈ cg_Key <$> cs) as Hm by (rewrite <- Hk; by apply list_elem_of_fmap_2).
    rewrite Hkeys in Hm. apply list_elem_of_fmap in Hm as ([k' raw] & -> & Hm%body_elem). simpl in Eb. congruence.
Qed.
End Patches.

Section Theorems.
Context `{GoDurationLaws} `{JSONScalarLaws} (reg : Registry) (env : string -> string).


(** One patch that nothing interrupts. *)
Definition PatchStep (t t' : rows) : Prop := exists body, t' = (run (Patch reg env body) t).1.

(** Values of one declaration, in order. *)
Lemma compare_trans d u v w : typed d u -> typed d v -> typed d w -> compare u v <> Gt -> compare v w <> Gt -> compare u w <> Gt.
Proof.
  intros [Hu _] [Hv _] [Hw _]. unfold compare. rewrite Hu, Hv. destruct (d_Kind d); try done; apply Z.le_trans.
Qed.

Lemma compare_refl u : compare u u <> Gt.
Proof. unfold compare. destruct (v_Kind u); by rewrite ?Z.compare_refl. Qed.

(** A ceiling only comes down.  Over any number of patches, one after the other, the
    effective value of a setting that is mutable downward only never rises. *)
Theorem ceiling_never_rises key t t' eff : NewRegistry = Some reg -> Get reg env key t = Ok eff ->
  d_DownwardOnly (ef_Def eff) = true -> rtc PatchStep t t' ->
  exists eff', Get reg env key t' = Ok eff' /\ ef_Def eff' = ef_Def eff /\ compare (ef_Value eff') (ef_Value eff) <> Gt.
Proof.
  intros Hreg Hget Hdown Hsteps. revert eff Hget Hdown. induction Hsteps as [t|t t1 t2 [body ->] _ IH]; intros eff Hget Hdown.
  { exists eff. split; [done|]. split; [done|apply compare_refl]. }
  assert (exists e1, Get reg env key (run (Patch reg env body) t).1 = Ok e1 /\ ef_Def e1 = ef_Def eff /\
    compare (ef_Value e1) (ef_Value eff) <> Gt) as (e1 & Hg1 & Hd1 & Hc1).
  { pose proof (patched_key reg env body t) as Hkey. destruct (changes_of reg env (merge_sort by_key (map_to_list body)) t) as [cs|e] eqn:Ecs.
    - specialize (Hkey cs eq_refl key). destruct (body !! key) as [raw|].
      + destruct Hkey as (c & d & v & cur & _ & Hacc & Hrow). pose proof (Get_written _ _ Hreg _ _ _ _ _ _ _ _ Hacc Hrow) as Hg.
        destruct Hacc as (Hd & _ & _ & _ & Hcur & Hle & _). rewrite Hget in Hcur. injection Hcur as <-.
        destruct (effective_source reg env key t eff Hreg Hget) as (Hde & _). rewrite Hd in Hde. injection Hde as ->.
        eexists. split; [exact Hg|]. split; [done|]. by apply Hle.
      + exists eff. rewrite (Get_same reg env key t _ (eq_sym Hkey)). split; [done|]. split; [done|apply compare_refl].
    - exists eff. rewrite run_Patch, Ecs. split; [done|]. split; [done|apply compare_refl]. }
  destruct (IH e1 Hg1) as (e2 & Hg2 & Hd2 & Hc2); [by rewrite Hd1|]. exists e2. split; [done|]. split; [by rewrite Hd2|].
  destruct (effective_source _ _ _ _ _ Hreg Hget) as (_ & Ht0 & _). destruct (effective_source _ _ _ _ _ Hreg Hg1) as (_ & Ht1 & _).
  destruct (effective_source _ _ _ _ _ Hreg Hg2) as (_ & Ht2 & _). rewrite Hd2, Hd1 in Ht2. rewrite Hd1 in Ht1. exact (compare_trans _ _ _ _ Ht2 Ht1 Ht0 Hc2 Hc1).
Qed.
End Theorems.

(** A row that no longer validates fails the listing of every setting, and cannot be
    replaced through a patch: the patch resolves the value in force first. *)
Lemma bad_row_stuck `{GoDuration} `{JSONScalars} reg env key t d e : r_defs reg !! key = Some d -> resolve env d (t !! key) = Err e ->
  key ∈ r_order reg -> (exists e', All reg env t = Err e') /\ forall raw, exists e', change_of reg env key raw t = Err e'.
Proof.
  intros Hd He Hin. split.
  - unfold All. induction (r_order reg) as [|k keys IH]; [by apply elem_of_nil in Hin|]. cbn [all_of].
    apply elem_of_cons in Hin as [<-|Hin].
    + rewrite Hd, He. by exists e.
    + destruct (IH Hin) as [e' He']. destruct (r_defs reg !! k) as [d'|]; [|by exists e'].
      destruct (resolve env d' (t !! k)) as [x|e2]; [|by exists e2]. cbn [mbind Result_bind]. rewrite He'. by exists e'.
  - intros raw. unfold change_of, Get. rewrite Hd. destruct (negb _); [by eexists|].
    destruct (checked d _ raw) as [v|e']; [|by eexists]. cbn [mbind Result_bind]. rewrite He. by eexists.
Qed.

(** ** A concrete library, and two patches that run at the same time *)

Definition QUOTE : Ascii.ascii := char_of 34.
Fixpoint unquote (s : string) : option string :=
  match s with
  | String c EmptyString => if decide (c = QUOTE) then Some EmptyString else None
  | String c s' => t ← unquote s'; Some (String c t)
  | EmptyString => None
  end.

Lemma unquote_quoted s : unquote (s +:+ String QUOTE "") = Some s.
Proof. induction s as [|c s IH]; [done|]. simpl. destruct (s +:+ String QUOTE "") eqn:E; [by destruct s|]. by rewrite IH. Qed.

#[export] Instance plain_scalars : JSONScalars := {
  json_Marshal_string s := String QUOTE (s +:+ String QUOTE "");
  json_Unmarshal_string s := match s with String c s' => if decide (c = QUOTE) then unquote s' else None | EmptyString => None end;
  json_Unmarshal_bool s := if decide (s = "true"%string) then Some true else if decide (s = "false"%string) then Some false else None;
  json_Decode_Number s := Some s;
}.
#[export] Instance plain_scalar_laws : JSONScalarLaws.
Proof.
  split; [|by intros []|done]. intros s _. simpl. apply unquote_quoted.
Qed.

Definition the_registry : Registry := default empty_registry NewRegistry.
Definition no_env (_ : string) : string := "".
Definition CEILING : string := "media.upload_max_bytes".
Definition lower_to (n : Z) : Prog rows () := Patch the_registry no_env {[CEILING := FormatInt n]} ≫= fun _ => mret tt.

Lemma the_registry_built : NewRegistry = Some the_registry.
Proof. unfold the_registry. destruct registry_built as [r ->]. done. Qed.

Definition in_force (t : rows) : Z := settingInt the_registry no_env CEILING 0 t.
Definition lowering (n : Z) : Change := mkChange CEILING (Int64 104857600) (Int64 n) true.

Lemma lowering_accepted : change_of the_registry no_env CEILING (FormatInt 90) ∅ = Ok (lowering 90) /\
  change_of the_registry no_env CEILING (FormatInt 80) ∅ = Ok (lowering 80).
Proof. by vm_compute. Qed.

(** Two patches that both read before either writes: the ceiling comes down to 80 and then
    goes up to 90. *)
Lemma racing_patches_raise : exists c1 c2,
  rtc (PoolStep (fun _ => False) (fun _ _ => False)) ([lower_to 90; lower_to 80], ∅) c1 /\
  PoolStep (fun _ => False) (fun _ _ => False) c1 c2 /\ in_force c1.2 = 80 /\ in_force c2.2 = 90.
Proof.
  destruct lowering_accepted as [H90 H80]. eexists _, _. split; [|split; [|split]].
  - eapply rtc_l; [eapply (pool_act _ _ 0%nat); [reflexivity|apply (f_equal (pair _) H90)]|].
    eapply rtc_l; [eapply (pool_act _ _ 1%nat); [reflexivity|apply (f_equal (pair _) H80)]|].
    apply rtc_once. eapply (pool_act _ _ 1%nat); reflexivity.
  - eapply (pool_act _ _ 0%nat); reflexivity.
  - vm_compute. reflexivity.
  - vm_compute. reflexivity.
Qed.

(** ** Witnesses *)

Definition demo_body : gmap string string :=
  {["ingest.sweep_interval"%string := json_Marshal_string "90m"; CEILING := FormatInt 1000]}.

Definition demo_rows : rows := {["logging.level"%string := json_Marshal_string "warn"]}.

Example effective_typed_witness : exists e,
  Get the_registry no_env "logging.level" demo_rows = Ok e /\ ef_Source e = SourceDatabase /\ typed (ef_Def e) (ef_Value e).
Proof.
  destruct (Get the_registry no_env "logging.level" demo_rows) as [e|] eqn:E; [|vm_compute in E; discriminate].
  destruct (effective_typed the_registry no_env "logging.level" demo_rows e the_registry_built E) as (_ & Ht & Hs & _).
  exists e. by split_and!.
Defined.


Example ceiling_never_rises_witness : exists eff',
  Get the_registry no_env CEILING (run (Patch the_registry no_env demo_body) ∅).1 = Ok eff' /\
  compare (ef_Value eff') (Int64 104857600) <> Gt.
Proof.
  destruct (Get the_registry no_env CEILING ∅) as [eff|] eqn:E; [|vm_compute in E; discriminate].
  destruct (ceiling_never_rises the_registry no_env CEILING ∅ (run (Patch the_registry no_env demo_body) ∅).1 eff the_registry_built E)
    as (eff' & Hget & _ & Hle).
  - vm_compute in E. injection E as <-. reflexivity.
  - apply rtc_once. by exists demo_body.
  - exists eff'. split; [exact Hget|]. assert (ef_Value eff = Int64 104857600) as <- by (vm_compute in E; injection E as <-; reflexivity). exact Hle.
Defined.
