(* ===== verification/Tickets.v ===== *)
(** * Tickets (internal/media/ticket.go, internal/store/media.go)

    A ticket is a random nonce with a MAC over its audience, "upload:" or "download:" and
    one ID; the database holds its hash.  The tables of upload reservations and download
    tickets, with every method that reads or writes them.  The theorems: a ticket verifies
    for the audience it was minted for and for no other; a reservation moves along its
    states and never back; a download ticket is redeemed at most as often as it allows. *)

From S2P Require Import Prelude GoStrings Encoding Cursor.

Local Open Scope Z_scope.

(** ** The signer *)

Definition UploadPrefix : string := "agm_ut_".
Definition DownloadPrefix : string := "agm_dt_".
Definition InfoTicket : string := "agent-gm/ticket/v1".

Inductive TicketKind : Type := KindUpload | KindDownload.
#[export] Instance TicketKind_eq_dec : EqDecision TicketKind.
Proof. solve_decision. Defined.

Definition TicketKind_string (k : TicketKind) : string := match k with KindUpload => "upload" | KindDownload => "download" end.

Definition Audience (kind : TicketKind) (targetID : string) : string := TicketKind_string kind +:+ String COLON targetID.

Definition prefixFor (k : TicketKind) : string := match k with KindUpload => UploadPrefix | KindDownload => DownloadPrefix end.

(** [fmt.Fprintf(w, "%d:", len(s))] and the bytes. *)
Definition writeField (s : string) : string := FormatInt (Z.of_nat (String.length s)) +:+ String COLON s.

(** [strings.HasPrefix] with [strings.TrimPrefix]: the rest after a prefix. *)
Fixpoint strip_prefix (p s : string) : option string :=
  match p, s with
  | EmptyString, _ => Some s
  | String a p', String b s' => if decide (a = b) then strip_prefix p' s' else None
  | String _ _, EmptyString => None
  end.

(** Around the last occurrence of a byte. *)
Fixpoint cut_last (c : Ascii.ascii) (s : string) : option (string * string) :=
  match s with
  | EmptyString => None
  | String a s' =>
      match cut_last c s' with
      | Some (x, y) => Some (String a x, y)
      | None => if decide (a = c) then Some (EmptyString, s') else None
      end
  end.

Section Signer.
Context `{Crypto} `{SHA256}.

(** The error of every refusal is the same: [None]. *)
Definition NewSigner (dataKey : string) : string := hkdf_sha256 dataKey InfoTicket.
Definition HashToken (value : string) : string := sha256_hex value.

Definition ticket_mac (key : string) (kind : TicketKind) (targetID nonce : string) : string :=
  EncodeToString (hmac_sha256 key (writeField (Audience kind targetID) +:+ writeField nonce)).

(** [nonce] is the 32 random bytes. *)
Definition MintTicket (key : string) (kind : TicketKind) (targetID nonce : string) : string * string :=
  let enc := EncodeToString nonce in
  let value := prefixFor kind +:+ (enc +:+ String DOT (ticket_mac key kind targetID enc)) in
  (value, HashToken value).

Definition VerifyTicket (key value : string) (kind : TicketKind) (targetID : string) : option string :=
  body ← strip_prefix (prefixFor kind) value;
  '(nonce, presented) ← cut_last DOT body;
  if decide (nonce = ""%string \/ presented = ""%string) then None
  else if decide (presented = ticket_mac key kind targetID nonce) then Some (HashToken value) else None.

Definition KindOf (value : string) : option TicketKind :=
  match strip_prefix UploadPrefix value with
  | Some _ => Some KindUpload
  | None => match strip_prefix DownloadPrefix value with Some _ => Some KindDownload | None => None end
  end.
End Signer.

(** ** uploads *)

Inductive UploadState : Type := UploadReserved | UploadComplete | UploadConsumed | UploadExpired.
#[export] Instance UploadState_eq_dec : EqDecision UploadState.
Proof. solve_decision. Defined.

Record UploadRow := mkUploadRow {
  ul_authorization_id : string;
  ul_idempotency_key : option string;
  ul_filename : string;
  ul_mime_type : string;
  ul_size_bytes : Z;
  ul_sha256_declared : option string;
  ul_state : UploadState;
  ul_token_hash : string;
  ul_redemptions : Z;
  ul_staged_path : option string;
  ul_expires_at_ms : Z;
  ul_created_at_ms : Z;
}.

Record Upload := mkUpload {
  up_ID : string;
  up_AuthorizationID : string;
  up_IdempotencyKey : string;
  up_Filename : string;
  up_MimeType : string;
  up_SizeBytes : Z;
  up_SHA256Declared : string;
  up_State : UploadState;
  up_TokenHash : string;
  up_Redemptions : Z;
  up_StagedPath : string;
  up_ExpiresAtMS : Z;
  up_CreatedAtMS : Z;
}.

Definition scanUpload (id : string) (r : UploadRow) : Upload :=
  mkUpload id (ul_authorization_id r) (scanString (ul_idempotency_key r)) (ul_filename r) (ul_mime_type r) (ul_size_bytes r)
    (scanString (ul_sha256_declared r)) (ul_state r) (ul_token_hash r) (ul_redemptions r) (scanString (ul_staged_path r))
    (ul_expires_at_ms r) (ul_created_at_ms r).

Inductive MediaError : Type := ErrUploadNotFound | ErrUploadState | ErrTicketNotFound | ErrTicketSpent | ErrConstraint.
#[export] Instance MediaError_eq_dec : EqDecision MediaError.
Proof. solve_decision. Defined.

Notation uploads_table := (gmap string UploadRow).

(** Another row with the same token hash, or the same key of the same authorization. *)
Definition token_taken (id hash : string) (t : uploads_table) : bool :=
  bool_decide (map_Exists (fun k r => k <> id /\ ul_token_hash r = hash) t).
Definition key_taken (auth : string) (key : option string) (t : uploads_table) : bool :=
  match key with
  | None => false
  | Some _ => bool_decide (map_Exists (fun _ r => ul_authorization_id r = auth /\ ul_idempotency_key r = key) t)
  end.

(** [id] is the caller's, or random when that is empty. *)
Definition ReserveUpload (now : Z) (random : string) (u : Upload) (t : uploads_table) : Result MediaError (uploads_table * Upload) :=
  let id := if decide (up_ID u = ""%string) then random else up_ID u in
  let row := mkUploadRow (up_AuthorizationID u) (nullString (up_IdempotencyKey u)) (up_Filename u) (up_MimeType u) (up_SizeBytes u)
    (nullString (up_SHA256Declared u)) UploadReserved (up_TokenHash u) 0 None (up_ExpiresAtMS u) now in
  if bool_decide (is_Some (t !! id)) || token_taken id (up_TokenHash u) t || key_taken (up_AuthorizationID u) (nullString (up_IdempotencyKey u)) t
  then Err ErrConstraint
  else Ok (<[id := row]> t,
    mkUpload id (up_AuthorizationID u) (up_IdempotencyKey u) (up_Filename u) (up_MimeType u) (up_SizeBytes u) (up_SHA256Declared u)
      UploadReserved (up_TokenHash u) (up_Redemptions u) (up_StagedPath u) (up_ExpiresAtMS u) now).

Definition ReadUpload (id : string) (t : uploads_table) : Result MediaError Upload :=
  match t !! id with Some r => Ok (scanUpload id r) | None => Err ErrUploadNotFound end.

(** The one row a test selects: the first in the order of the map. *)
Definition first_where (p : UploadRow -> bool) (t : uploads_table) : option (string * UploadRow) :=
  List.find (fun x => p x.2) (map_to_list t).

Definition UploadByTokenHash (hash : string) (t : uploads_table) : Result MediaError Upload :=
  match first_where (fun r => bool_decide (ul_token_hash r = hash)) t with
  | Some (id, r) => Ok (scanUpload id r)
  | None => Err ErrUploadNotFound
  end.

Definition UploadByIdempotencyKey (authorizationID key : string) (t : uploads_table) : Result MediaError Upload :=
  if decide (key = ""%string) then Err ErrUploadNotFound
  else
    match first_where (fun r => bool_decide (ul_authorization_id r = authorizationID) && bool_decide (ul_idempotency_key r = Some key)) t with
    | Some (id, r) => Ok (scanUpload id r)
    | None => Err ErrUploadNotFound
    end.

Definition with_token (hash : string) (r : UploadRow) : UploadRow :=
  mkUploadRow (ul_authorization_id r) (ul_idempotency_key r) (ul_filename r) (ul_mime_type r) (ul_size_bytes r) (ul_sha256_declared r)
    (ul_state r) hash (ul_redemptions r) (ul_staged_path r) (ul_expires_at_ms r) (ul_created_at_ms r).
Definition with_upload_state (s : UploadState) (redemptions : Z) (path : option string) (r : UploadRow) : UploadRow :=
  mkUploadRow (ul_authorization_id r) (ul_idempotency_key r) (ul_filename r) (ul_mime_type r) (ul_size_bytes r) (ul_sha256_declared r)
    s (ul_token_hash r) redemptions path (ul_expires_at_ms r) (ul_created_at_ms r).

Definition SetUploadToken (id hash : string) (t : uploads_table) : Result MediaError uploads_table :=
  match t !! id with
  | None => Ok t
  | Some r => if token_taken id hash t then Err ErrConstraint else Ok (<[id := with_token hash r]> t)
  end.

Definition CompleteUpload (id stagedPath : string) (ok : bool) (t : uploads_table) : Result MediaError uploads_table :=
  match t !! id with
  | None => Err ErrUploadNotFound
  | Some r =>
      if negb (bool_decide (ul_state r = UploadReserved)) || (1 <=? ul_redemptions r) then Err ErrUploadState
      else Ok (<[id := if ok then with_upload_state UploadComplete (ul_redemptions r + 1) (Some stagedPath) r
                       else with_upload_state UploadExpired (ul_redemptions r + 1) None r]> t)
  end.

Definition ConsumeUpload (id : string) (t : uploads_table) : Result MediaError uploads_table :=
  match t !! id with
  | Some r =>
      if bool_decide (ul_state r = UploadComplete)
      then Ok (<[id := with_upload_state UploadConsumed (ul_redemptions r) (ul_staged_path r) r]> t)
      else Err ErrUploadState
  | None => Err ErrUploadState
  end.

Definition expirable (now : Z) (r : UploadRow) : bool :=
  (ul_expires_at_ms r <=? now) && (bool_decide (ul_state r = UploadReserved) || bool_decide (ul_state r = UploadComplete)).

Definition ExpireUploads (now : Z) (t : uploads_table) : uploads_table * list string :=
  ((fun r => if expirable now r then with_upload_state UploadExpired (ul_redemptions r) None r else r) <$> t,
   omap (fun x : string * UploadRow => if expirable now x.2 then ul_staged_path x.2 else None) (map_to_list t)).

(** The handler's own statement (internal/api/media.go). *)
Definition DeleteUpload (id authorizationID : string) (t : uploads_table) : uploads_table :=
  match t !! id with
  | Some r => if bool_decide (ul_authorization_id r = authorizationID) then delete id t else t
  | None => t
  end.

(** ** download_tickets *)

Record TicketRow := mkTicketRow {
  dt_attachment_id : string;
  dt_authorization_id : string;
  dt_redemptions : Z;
  dt_max_redemptions : Z;
  dt_expires_at_ms : Z;
  dt_created_at_ms : Z;
}.
Notation tickets_table := (gmap string TicketRow).

(** A ticket of 0 redemptions is a ticket of 5; the attachment must exist. *)
Definition MintDownloadTicket (now : Z) (attachments : gset string) (hash attachmentID authorizationID : string)
    (maxRedemptions expiresAtMS : Z) (t : tickets_table) : Result MediaError tickets_table :=
  let max := if maxRedemptions =? 0 then 5 else maxRedemptions in
  if bool_decide (is_Some (t !! hash)) || negb (bool_decide (attachmentID ∈ attachments)) then Err ErrConstraint
  else Ok (<[hash := mkTicketRow attachmentID authorizationID 0 max expiresAtMS now]> t).

Definition with_redemptions (n : Z) (r : TicketRow) : TicketRow :=
  mkTicketRow (dt_attachment_id r) (dt_authorization_id r) n (dt_max_redemptions r) (dt_expires_at_ms r) (dt_created_at_ms r).

Definition RedeemDownloadTicket (now : Z) (hash : string) (t : tickets_table) : Result MediaError (tickets_table * TicketRow) :=
  match t !! hash with
  | None => Err ErrTicketNotFound
  | Some r =>
      if (dt_expires_at_ms r <=? now) || (dt_max_redemptions r <=? dt_redemptions r) then Err ErrTicketSpent
      else let r' := with_redemptions (dt_redemptions r + 1) r in Ok (<[hash := r']> t, r')
  end.

Definition DownloadTicketByHash (hash : string) (t : tickets_table) : Result MediaError TicketRow :=
  match t !! hash with Some r => Ok r | None => Err ErrTicketNotFound end.

Definition SweepExpiredTickets (now : Z) (t : tickets_table) : tickets_table * Z :=
  (filter (fun p => ~ dt_expires_at_ms p.2 <= now) t,
   Z.of_nat (size (filter (fun p => dt_expires_at_ms p.2 <= now) t))).

(** ** A ticket and its audience *)

(** HMAC as the code relies on it: distinct messages have distinct, non-empty MACs. *)
Class MacLaws `{Crypto} := {
  mac_inj key :: Inj (=) (=) (hmac_sha256 key);
  mac_nonempty key m : hmac_sha256 key m <> ""%string;
}.

Lemma encode_nonempty s : s <> ""%string -> EncodeToString s <> ""%string.
Proof. intros Hs E. apply Hs. pose proof (decode_encode s) as Hd. rewrite E in Hd. by injection Hd. Qed.

Lemma encode_inj s t : EncodeToString s = EncodeToString t -> s = t.
Proof. intros E. pose proof (decode_encode s) as Hd. rewrite E, decode_encode in Hd. by injection Hd. Qed.

Lemma field_app s x : writeField s +:+ x = FormatInt (Z.of_nat (String.length s)) +:+ String COLON (s +:+ x).
Proof. unfold writeField. by rewrite append_assoc. Qed.

Lemma field_inj a b x y : writeField a +:+ x = writeField b +:+ y -> a = b /\ x = y.
Proof.
  rewrite !field_app. intros E. destruct (line_inj COLON _ _ _ _ (or_introl eq_refl) E) as [Hl E'].
  exact (append_length_inj _ _ _ _ Hl E').
Qed.

Lemma Audience_inj k i k' i' : Audience k i = Audience k' i' -> k = k' /\ i = i'.
Proof. destruct k, k'; cbv [Audience TicketKind_string]; intros E; simplify_eq/=; done. Qed.

Lemma strip_prefix_app p s : strip_prefix p (p +:+ s) = Some s.
Proof. induction p as [|c p IH]; [done|]. simpl. rewrite decide_True by done. exact IH. Qed.

Lemma cut_last_app c a b : has_byte c b = false -> cut_last c (a +:+ String c b) = Some (a, b).
Proof.
  assert (forall s, has_byte c s = false -> cut_last c s = None) as Hnone.
  { induction s as [|d s IH]; [done|]. simpl. intros H. bool_to_prop. rewrite IH by done. by rewrite decide_False. }
  intros Hb. induction a as [|d a IH]; simpl.
  - rewrite (Hnone b Hb). by rewrite decide_True.
  - change (a +:+ String c b) with (a +:+ String c b) in IH. rewrite IH. done.
Qed.

Section Audiences.
Context `{Crypto} `{SHA256}.

(** A ticket that was minted verifies, if at all, for what it was minted for. *)
Lemma verify_minted `{!MacLaws} key kind targetID nonce kind' targetID' hash :
  VerifyTicket key (MintTicket key kind targetID nonce).1 kind' targetID' = Some hash ->
  kind' = kind /\ targetID' = targetID /\ hash = (MintTicket key kind targetID nonce).2.
Proof.
  unfold MintTicket, VerifyTicket. cbv zeta. cbn [fst snd]. destruct (decide (kind' = kind)) as [->|Hk]; [|by destruct kind, kind'].
  rewrite strip_prefix_app. cbn [mbind option_bind]. rewrite cut_last_app by apply encoded_no_dot. cbn [mbind option_bind].
  destruct (decide (_ \/ _)); [done|]. destruct (decide _) as [E|]; [|done]. intros [= <-]. split; [done|]. split; [|done].
  unfold ticket_mac in E. apply encode_inj, (inj _), field_inj in E as [E _]. by apply Audience_inj in E as [_ ?].
Qed.

(** C31: a ticket is for one audience.  Whatever key signs, a ticket verifies for the kind
    and the ID it was minted for, and then yields the hash that was stored; presented for
    any other kind or any other ID it is refused. *)
Theorem ticket_audience_exact `{!MacLaws} key kind targetID nonce kind' targetID' : nonce <> ""%string ->
  let '(value, hash) := MintTicket key kind targetID nonce in
  VerifyTicket key value kind' targetID' = (if decide (kind' = kind /\ targetID' = targetID) then Some hash else None).
Proof.
  intros Hn. destruct (MintTicket key kind targetID nonce) as [value hash] eqn:Em. case_decide as Hd.
  - destruct Hd as [-> ->]. unfold MintTicket, VerifyTicket in *. injection Em as <- <-. rewrite strip_prefix_app. cbn [mbind option_bind].
    rewrite cut_last_app by apply encoded_no_dot. cbn [mbind option_bind]. rewrite decide_False; [by rewrite decide_True|].
    intros [E|E]; [by eapply encode_nonempty|]. by eapply encode_nonempty; [apply mac_nonempty|exact E].
  - destruct (VerifyTicket key value kind' targetID') as [h|] eqn:Ev; [|done]. destruct Hd. replace value with (MintTicket key kind targetID nonce).1 in Ev by by rewrite Em.
    by apply verify_minted in Ev as (? & ? & _).
Qed.
End Audiences.

(** ** The life of a reservation *)

(** What a state implies of the other columns. *)
Definition upload_ok (r : UploadRow) : Prop :=
  match ul_state r with
  | UploadReserved => ul_redemptions r = 0 /\ ul_staged_path r = None
  | UploadComplete | UploadConsumed => ul_redemptions r = 1 /\ is_Some (ul_staged_path r)
  | UploadExpired => 0 <= ul_redemptions r <= 1 /\ ul_staged_path r = None
  end.

(** One table-changing call.  The second component is every ID that was ever drawn. *)
Inductive UploadStep : uploads_table * gset string -> uploads_table * gset string -> Prop :=
| up_reserve t used now random u t' u' : (if decide (up_ID u = ""%string) then random else up_ID u) ∉ used ->
    ReserveUpload now random u t = Ok (t', u') -> UploadStep (t, used) (t', {[up_ID u']} ∪ used)
| up_token t used id hash t' : SetUploadToken id hash t = Ok t' -> UploadStep (t, used) (t', used)
| up_complete t used id path ok t' : CompleteUpload id path ok t = Ok t' -> UploadStep (t, used) (t', used)
| up_consume t used id t' : ConsumeUpload id t = Ok t' -> UploadStep (t, used) (t', used)
| up_expire t used now : UploadStep (t, used) ((ExpireUploads now t).1, used)
| up_delete t used id auth : UploadStep (t, used) (DeleteUpload id auth t, used).

Inductive upload_next : UploadState -> UploadState -> Prop :=
| next_complete : upload_next UploadReserved UploadComplete
| next_spent : upload_next UploadReserved UploadExpired
| next_consumed : upload_next UploadComplete UploadConsumed
| next_expired : upload_next UploadComplete UploadExpired.

(** The columns of the reservation itself. *)
Definition reserved_as (r r' : UploadRow) : Prop :=
  ul_authorization_id r = ul_authorization_id r' /\ ul_idempotency_key r = ul_idempotency_key r' /\ ul_filename r = ul_filename r' /\
  ul_mime_type r = ul_mime_type r' /\ ul_size_bytes r = ul_size_bytes r' /\ ul_sha256_declared r = ul_sha256_declared r' /\
  ul_expires_at_ms r = ul_expires_at_ms r' /\ ul_created_at_ms r = ul_created_at_ms r'.

Record upload_le (r r' : UploadRow) : Prop := {
  ule_reserved : reserved_as r r';
  ule_state : rtc upload_next (ul_state r) (ul_state r');
  ule_redemptions : ul_redemptions r <= ul_redemptions r';
}.

#[export] Instance upload_le_po : PreOrder upload_le.
Proof.
  split.
  - intros r. split; [by repeat split|reflexivity|reflexivity].
  - intros r1 r2 r3 [H1 S1 N1] [H2 S2 N2]. split; [|by etransitivity|lia]. unfold reserved_as in *.
    destruct_and!. split_and!; congruence.
Qed.

Lemma with_state_le s n path r : rtc upload_next (ul_state r) s -> ul_redemptions r <= n -> upload_le r (with_upload_state s n path r).
Proof. intros Hs Hn. split; [by repeat split|done|done]. Qed.

Definition uploads_ok (c : uploads_table * gset string) : Prop := forall id r, c.1 !! id = Some r -> upload_ok r /\ id ∈ c.2.

(** What one step makes of a row that was there. *)
Definition upload_moved (c c' : uploads_table * gset string) : Prop :=
  c.2 ⊆ c'.2 /\ forall id, match c.1 !! id, c'.1 !! id with
    | Some r, Some r' => upload_le r r'
    | None, Some _ => id ∉ c.2
    | _, None => True
    end.

Lemma moved_insert t used id r r' : t !! id = Some r -> upload_le r r' -> upload_moved (t, used) (<[id := r']> t, used).
Proof.
  intros Hr Hle. split; [done|]. intros k. simpl. destruct (decide (k = id)) as [->|Hk].
  - by rewrite Hr, lookup_insert_eq.
  - rewrite lookup_insert_ne by done. by destruct (t !! k).
Qed.

Lemma moved_refl c : upload_moved c c.
Proof. split; [done|]. intros id. by destruct (c.1 !! id). Qed.

Lemma ok_insert t used id r r' : uploads_ok (t, used) -> t !! id = Some r -> upload_ok r' -> uploads_ok (<[id := r']> t, used).
Proof.
  intros Hok Hr Hr' k x. simpl. rewrite lookup_insert. case_decide; [subst; intros [= <-]|apply Hok]. split; [done|]. by eapply Hok.
Qed.

Lemma expire_row now r : upload_ok r -> let r' := if expirable now r then with_upload_state UploadExpired (ul_redemptions r) None r else r in
  upload_le r r' /\ upload_ok r'.
Proof.
  intros Hok. unfold expirable. destruct (_ && _) eqn:E; cbv zeta; [|done].
  assert (ul_state r = UploadReserved \/ ul_state r = UploadComplete) as Hs.
  { apply andb_true_iff in E as [_ [Hs|Hs]%orb_true_iff]; bool_to_prop; tauto. }
  split; [apply with_state_le; [|lia]; destruct Hs as [-> | ->]; apply rtc_once; constructor|].
  unfold upload_ok in *. simpl. destruct Hs as [Hs|Hs]; rewrite Hs in Hok; destruct Hok as [-> _]; split; [lia|done|lia|done].
Qed.

Lemma upload_step_ok c c' : UploadStep c c' -> uploads_ok c -> uploads_ok c' /\ upload_moved c c'.
Proof.
  intros Hst Hok. destruct Hst as [t used now random u t' u' Hid E|t used id hash t' E|t used id path ok t' E|t used id t' E|t used now|t used id auth].
  - unfold ReserveUpload in E. destruct (_ || _) eqn:Eg; [done|]. injection E as <- <-. cbn [up_ID scanUpload].
    set (id := if decide _ then random else up_ID u) in *. split.
    + intros k r. simpl. rewrite lookup_insert. case_decide; [subst; intros [= <-]; split; [done|set_solver]|].
      intros Hr. destruct (Hok k r Hr). split; [done|]. set_solver.
    + split; [set_solver|]. intros k. simpl. destruct (decide (k = id)) as [->|Hk].
      * rewrite lookup_insert_eq. destruct (t !! id) as [r|] eqn:Er; [|done]. destruct Hid. by eapply Hok.
      * rewrite lookup_insert_ne by done. by destruct (t !! k).
  - unfold SetUploadToken in E. destruct (t !! id) as [r|] eqn:Er; [|injection E as <-; split; [done|apply moved_refl]].
    destruct (token_taken id hash t); [done|]. injection E as <-. split.
    + eapply ok_insert; [done|done|]. exact (proj1 (Hok id r Er)).
    + eapply moved_insert; [exact Er|]. split; [by repeat split|reflexivity|cbn; lia].
  - unfold CompleteUpload in E. destruct (t !! id) as [r|] eqn:Er; [|done]. destruct (_ || _) eqn:Eg; [done|]. bool_to_prop.
    destruct (Hok id r Er) as [Hr _]. unfold upload_ok in Hr. simpl in Er.
    assert (ul_state r = UploadReserved) as Hs by tauto. rewrite Hs in Hr. destruct Hr as [Hn _]. injection E as <-. split.
    + eapply ok_insert; [done|done|]. destruct ok; unfold upload_ok; simpl; rewrite Hn; split; [done|by eexists|lia|done].
    + eapply moved_insert; [done|]. destruct ok; apply with_state_le; try lia; rewrite Hs; apply rtc_once; constructor.
  - unfold ConsumeUpload in E. destruct (t !! id) as [r|] eqn:Er; [|done]. destruct (bool_decide _) eqn:Eg; [|done]. bool_to_prop.
    injection E as <-. destruct (Hok id r Er) as [Hr _]. unfold upload_ok in Hr. rewrite Eg in Hr. split.
    + by eapply ok_insert.
    + eapply moved_insert; [done|]. apply with_state_le; [rewrite Eg; apply rtc_once; constructor|lia].
  - unfold ExpireUploads. cbn [fst]. split.
    + intros k r'. simpl. rewrite lookup_fmap. intros (r & Hr & ->)%fmap_Some. destruct (Hok k r Hr). split; [by apply expire_row|done].
    + split; [done|]. intros k. simpl. rewrite lookup_fmap. destruct (t !! k) as [r|] eqn:Er; simpl; [|done].
      apply expire_row. by eapply Hok.
  - unfold DeleteUpload. destruct (t !! id) as [r|] eqn:Er; [|split; [done|apply moved_refl]]. destruct (bool_decide _); [|split; [done|apply moved_refl]].
    split.
    + intros k r'. simpl. intros [_ Hr']%lookup_delete_Some. by apply Hok.
    + split; [done|]. intros k. simpl. destruct (delete id t !! k) as [r'|] eqn:Ed; [|by destruct (t !! k)].
      apply lookup_delete_Some in Ed as [_ ->]. reflexivity.
Qed.

Lemma upload_steps_ok c c' : rtc UploadStep c c' -> uploads_ok c -> uploads_ok c' /\ upload_moved c c'.
Proof.
  induction 1 as [c|c c1 c' Hst _ IH]; intros Hok; [split; [done|apply moved_refl]|].
  destruct (upload_step_ok _ _ Hst Hok) as [Hok1 [Hu1 Hm1]]. destruct (IH Hok1) as [Hok' [Hu2 Hm2]]. split; [done|]. split; [set_solver|].
  intros id. specialize (Hm1 id). specialize (Hm2 id).
  destruct (c.1 !! id) as [r|] eqn:E0, (c1.1 !! id) as [r1|] eqn:E1, (c'.1 !! id) as [r2|] eqn:E2; try done.
  - by etransitivity.
  - destruct Hm2. apply Hu1. by eapply Hok.
  - set_solver.
Qed.

(** A reservation is one use of its bytes.  In every history of the table, with IDs
    that are never drawn twice, a row keeps what it was reserved as and moves only along
    reserved, complete, consumed, or to expired; its columns fit its state, so a complete
    one has been redeemed once and has its bytes staged; and one that is consumed or
    expired stays so, and is never consumed (again). *)
Theorem upload_history c c' id r : rtc UploadStep (∅, ∅) c -> rtc UploadStep c c' -> c.1 !! id = Some r ->
  upload_ok r /\
  match c'.1 !! id with
  | Some r' => reserved_as r r' /\ rtc upload_next (ul_state r) (ul_state r') /\
      (ul_state r = UploadConsumed \/ ul_state r = UploadExpired -> ul_state r' = ul_state r /\ ConsumeUpload id c'.1 = Err ErrUploadState)
  | None => ConsumeUpload id c'.1 = Err ErrUploadState
  end.
Proof.
  intros H0 H1 Hr. destruct (upload_steps_ok _ _ H0) as [Hok _]; [by intros k x Hx; destruct (lookup_empty_Some k x Hx)|].
  destruct (upload_steps_ok _ _ H1 Hok) as [_ [_ Hm]]. split; [by eapply Hok|]. specialize (Hm id). rewrite Hr in Hm.
  unfold ConsumeUpload. destruct (c'.1 !! id) as [r'|]; [|done]. destruct Hm as [Hres Hst _]. split; [done|]. split; [done|].
  intros Hfin. assert (ul_state r' = ul_state r) as Heq.
  { destruct Hst as [|x y z Hxy _]; [done|]. destruct Hfin as [-> | ->]; inversion Hxy. }
  split; [done|]. rewrite bool_decide_eq_false_2; [done|]. rewrite Heq. by destruct Hfin as [-> | ->].
Qed.

(** ** The uses of a download ticket *)

(** One call on the table; the counters are the hashes redeemed and the hashes minted. *)
Inductive TicketStep : tickets_table * list string * gset string -> tickets_table * list string * gset string -> Prop :=
| dt_mint t uses used now attachments hash att auth max expires t' : hash ∉ used -> 0 <= max ->
    MintDownloadTicket now attachments hash att auth max expires t = Ok t' -> TicketStep (t, uses, used) (t', uses, {[hash]} ∪ used)
| dt_redeem t uses used now hash t' r : RedeemDownloadTicket now hash t = Ok (t', r) -> TicketStep (t, uses, used) (t', hash :: uses, used)
| dt_sweep t uses used now : TicketStep (t, uses, used) ((SweepExpiredTickets now t).1, uses, used).

Definition uses_of (hash : string) (uses : list string) : Z := Z.of_nat (length (filter (fun h => h = hash) uses)).

(** The counter of a row is the number of its redemptions, which never exceeds its cap. *)
Definition tickets_ok (c : tickets_table * list string * gset string) : Prop :=
  (forall hash r, c.1.1 !! hash = Some r -> dt_redemptions r = uses_of hash c.1.2 /\ dt_redemptions r <= dt_max_redemptions r /\ hash ∈ c.2) /\
  (forall hash, hash ∉ c.2 -> uses_of hash c.1.2 = 0).

Lemma uses_cons hash h uses : uses_of hash (h :: uses) = (if decide (h = hash) then 1 else 0) + uses_of hash uses.
Proof. unfold uses_of. rewrite filter_cons. case_decide; simpl; lia. Qed.

Lemma ticket_step_ok c c' : TicketStep c c' -> tickets_ok c -> tickets_ok c'.
Proof.
  intros Hst [Hrows Hnew]. destruct Hst as [t uses used now atts hash att auth max expires t' Hid Hmax E|t uses used now hash t' r E|t uses used now]; cbn [fst snd] in *.
  - unfold MintDownloadTicket in E. destruct (_ || _); [done|]. injection E as <-. split; cbn [fst snd].
    + intros k x. rewrite lookup_insert. case_decide as Hk.
      * subst. intros [= <-]. simpl. rewrite (Hnew k Hid). split; [done|]. split; [destruct (max =? 0); lia|set_solver].
      * intros Hx. destruct (Hrows k x Hx) as (? & ? & ?). split_and!; [done|done|set_solver].
    + intros k Hk. apply Hnew. set_solver.
  - unfold RedeemDownloadTicket in E. destruct (t !! hash) as [x|] eqn:Ex; [|done]. destruct (_ || _) eqn:Eg; [done|]. bool_to_prop.
    injection E as <- <-. destruct (Hrows hash x Ex) as (Hn & Hle & Hused). split; cbn [fst snd] in *.
    + intros k y. rewrite lookup_insert, uses_cons. case_decide as Hk.
      * subst k. intros [= <-]. simpl. split_and!; [lia|lia|done].
      * intros Hy. destruct (Hrows k y Hy) as (? & ? & ?). split_and!; [lia|done|done].
    + intros k Hk. rewrite uses_cons, decide_False by set_solver. by apply Hnew.
  - split; [|exact Hnew]. intros k x. cbn [fst snd SweepExpiredTickets]. intros [Hx _]%map_lookup_filter_Some. by apply Hrows.
Qed.

Lemma tickets_counted c : rtc TicketStep (∅, [], ∅) c -> tickets_ok c.
Proof.
  assert (forall a b, rtc TicketStep a b -> tickets_ok a -> tickets_ok b) as Hall.
  { induction 1 as [|x y z Hxy _ IH]; [done|]. intros Hx. by eapply IH, ticket_step_ok. }
  intros Hr. eapply Hall; [exact Hr|]. split; [by intros k x Hx; destruct (lookup_empty_Some k x Hx)|done].
Qed.

(** A download ticket is good for as many reads as it was minted for.  In every history
    of the table, with hashes that are never minted twice, the number of redemptions a hash
    ever had is the counter of its row and at most the row's cap; a hash that was never
    minted has none; and past the cap or at its expiry it is refused. *)
Theorem ticket_uses_bounded c hash r : rtc TicketStep (∅, [], ∅) c -> c.1.1 !! hash = Some r ->
  uses_of hash c.1.2 = dt_redemptions r /\ uses_of hash c.1.2 <= dt_max_redemptions r /\
  forall now, RedeemDownloadTicket now hash c.1.1 = Err ErrTicketSpent <->
    dt_expires_at_ms r <= now \/ uses_of hash c.1.2 = dt_max_redemptions r.
Proof.
  intros Hr Hrow. destruct (tickets_counted c Hr) as [Hrows _].
  destruct (Hrows _ _ Hrow) as (Hn & Hle & _). rewrite <- Hn. split; [done|]. split; [done|]. intros now.
  unfold RedeemDownloadTicket. rewrite Hrow. destruct (_ || _) eqn:E.
  - split; [|done]. intros _. apply orb_true_iff in E as [E|E]; bool_to_prop; [by left|right; lia].
  - split; [done|]. bool_to_prop. lia.
Qed.

(** ** Witnesses *)

Definition tagged_crypto : Crypto := {|
  sha256_sum s := s;
  hmac_sha256 key m := String DOT (key +:+ m);
  hkdf_sha256 key info := key +:+ info;
|}.

Lemma tagged_mac : @MacLaws tagged_crypto.
Proof. split; [|done]. intros key s t. simpl. induction key as [|c key IH]; simpl; intros E; [by injection E|]. injection E as E. apply IH. by rewrite E. Qed.

Example ticket_audience_exact_witness :
  let '(value, hash) := @MintTicket tagged_crypto _ "key" KindUpload "upl_1" "nonce" in
  @VerifyTicket tagged_crypto _ "key" value KindUpload "upl_2" = None.
Proof.
  pose proof (@ticket_audience_exact tagged_crypto _ tagged_mac "key" KindUpload "upl_1" "nonce" KindUpload "upl_2" ltac:(discriminate)) as Ht.
  unfold MintTicket in *. cbv zeta in *. rewrite Ht. reflexivity.
Defined.

Definition demo_reservation (id : string) : Upload :=
  mkUpload id "auth_1" "" "a.png" "image/png" 3 "" UploadReserved ("hash " +:+ id) 0 "" 9000 0.
Definition staged_table (t : uploads_table) : uploads_table :=
  match CompleteUpload "upl_1" "/data/uploads/upl_1" true t with Ok t' => t' | Err _ => t end.
Definition reserved_table : uploads_table :=
  match ReserveUpload 1000 "" (demo_reservation "upl_1") ∅ with Ok (t, _) => t | Err _ => ∅ end.
Definition sent_table : uploads_table :=
  match ConsumeUpload "upl_1" (staged_table reserved_table) with Ok t => t | Err _ => ∅ end.

Example upload_history_witness : ConsumeUpload "upl_1" (ExpireUploads 9000 sent_table).1 = Err ErrUploadState.
Proof.
  assert (rtc UploadStep (∅, ∅) (sent_table, {["upl_1"%string]} ∪ ∅)) as H0.
  { eapply rtc_l; [eapply (up_reserve ∅ ∅ 1000 "" (demo_reservation "upl_1")); [set_solver|vm_compute; reflexivity]|].
    eapply rtc_l; [apply (up_complete _ _ "upl_1" "/data/uploads/upl_1" true); vm_compute; reflexivity|].
    apply rtc_once, (up_consume _ _ "upl_1"). vm_compute. reflexivity. }
  destruct (sent_table !! "upl_1"%string) as [r|] eqn:Er; [|vm_compute in Er; discriminate].
  pose proof (upload_history (sent_table, {["upl_1"%string]} ∪ ∅) ((ExpireUploads 9000 sent_table).1, {["upl_1"%string]} ∪ ∅) "upl_1" r H0
    (rtc_once _ _ (up_expire _ _ 9000)) Er) as [_ Hh].
  cbn [fst] in Hh. destruct ((ExpireUploads 9000 sent_table).1 !! "upl_1"%string) as [r'|]; [|exact Hh].
  apply Hh. left. vm_compute in Er. injection Er as <-. reflexivity.
Defined.

Definition minted_tickets : tickets_table :=
  match MintDownloadTicket 1000 {["att_1"%string]} "h" "att_1" "auth_1" 0 9000 ∅ with Ok t => t | Err _ => ∅ end.
Definition used_tickets : tickets_table :=
  match RedeemDownloadTicket 2000 "h" minted_tickets with Ok (t, _) => t | Err _ => ∅ end.

Example ticket_uses_bounded_witness : uses_of "h" ["h"%string] <= 5 /\ RedeemDownloadTicket 9000 "h" used_tickets = Err ErrTicketSpent.
Proof.
  destruct (used_tickets !! "h"%string) as [r|] eqn:Er; [|vm_compute in Er; discriminate].
  destruct (ticket_uses_bounded (used_tickets, ["h"%string], {["h"%string]} ∪ ∅) "h" r) as (_ & Hle & Hspent).
  - eapply rtc_l; [eapply (dt_mint ∅ [] ∅ 1000 {["att_1"%string]} "h" "att_1" "auth_1" 0 9000); [set_solver|lia|vm_compute; reflexivity]|].
    apply rtc_once. eapply (dt_redeem _ _ _ 2000 "h"). vm_compute. reflexivity.
  - exact Er.
  - assert (dt_max_redemptions r = 5 /\ dt_expires_at_ms r = 9000) as [Hm He] by (vm_compute in Er; injection Er as <-; split; reflexivity).
    rewrite Hm in Hle. split; [exact Hle|]. apply Hspent. left. rewrite He. reflexivity.
Defined.
