(* ===== verification/MediaCache.v ===== *)
(** * The media cache and what it serves (internal/media, internal/store/media.go)

    The content types a response may name, the paths of cached files, and the cache: one
    row per cached file and the files themselves.  The operations on disk and in the
    table are programs of actions in the order of the code.  The theorems: a resolved path
    stays inside the directory; an eviction frees the least recently used files and no more
    than it must, and the store's own eviction agrees with the cache's. *)

From S2P Require Import Prelude GoStrings Prog Rely Encoding Supervisor.

Local Open Scope Z_scope.

(** ** Content types (serve.go) *)

Definition ContentDisposition : string := "attachment".
Definition ContentSecurityPolicy : string := "default-src 'none'; sandbox; frame-ancestors 'none'; base-uri 'none'".
Definition OctetStream : string := "application/octet-stream".

Definition servedTypes : list string := [
  "image/jpeg"; "image/png"; "image/gif"; "image/webp"; "image/bmp"; "image/heic"; "image/heif"; "image/avif";
  "audio/mpeg"; "audio/aac"; "audio/ogg"; "audio/wav"; "audio/amr"; "audio/mp4"; "audio/3gpp"; "audio/basic";
  "video/mp4"; "video/3gpp"; "video/webm"; "video/quicktime"; "video/mpeg";
  "text/plain"; "text/vcard" ]%string.

Definition SEMICOLON : Ascii.ascii := char_of 59.
Definition SLASH : Ascii.ascii := char_of 47.

Section Types.
Context `{Lower}.

Definition normaliseMIME (mime : string) : string :=
  let m := ToLower (TrimSpace mime) in
  match Cut SEMICOLON m with Some (a, _) => TrimSpace a | None => m end.

Definition ServedContentType (mime : string) : string :=
  if bool_decide (normaliseMIME mime ∈ servedTypes) then normaliseMIME mime else OctetStream.

Definition top_level (m : string) : string := match Cut SLASH m with Some (a, _) => a | None => m end.

Definition ContentTypeContradicted (declared sniffed : string) : bool :=
  let d := normaliseMIME declared in
  let s := normaliseMIME sniffed in
  if bool_decide (d = ""%string) || bool_decide (s = ""%string) || bool_decide (s = OctetStream) then false
  else if bool_decide (d = s) then false
  else negb (bool_decide (top_level d = top_level s)).
End Types.

(** ** Paths (path/filepath on Unix) *)

Definition IsAbs (p : string) : bool := match p with String c _ => bool_decide (c = SLASH) | EmptyString => false end.

(** [Clean], on the components: [done_] is what is kept so far, last first. *)
Fixpoint clean_components (rooted : bool) (done_ todo : list string) : list string :=
  match todo with
  | [] => reverse done_
  | p :: todo' =>
      if bool_decide (p = ""%string) || bool_decide (p = "."%string) then clean_components rooted done_ todo'
      else if bool_decide (p = ".."%string) then
        match done_ with
        | q :: done' => if bool_decide (q = ".."%string) then clean_components rooted (p :: done_) todo' else clean_components rooted done' todo'
        | [] => if rooted then clean_components rooted [] todo' else clean_components rooted [p] todo'
        end
      else clean_components rooted (p :: done_) todo'
  end.

Definition components (p : string) : list string := clean_components (IsAbs p) [] (Split SLASH p).

Definition render (rooted : bool) (l : list string) : string :=
  if rooted then String SLASH (Join SLASH l) else if bool_decide (l = []) then "." else Join SLASH l.

Definition Clean (p : string) : string := render (IsAbs p) (components p).

(** [Join] of two elements. *)
Definition JoinPath (a b : string) : string :=
  if decide (a = ""%string) then (if decide (b = ""%string) then ""%string else Clean b)
  else if decide (b = ""%string) then Clean a
  else Clean (a +:+ String SLASH b).

Fixpoint HasPrefix (p s : string) : bool :=
  match p, s with
  | EmptyString, _ => true
  | String a p', String b s' => bool_decide (a = b) && HasPrefix p' s'
  | String _ _, EmptyString => false
  end.

(** [Cache.Resolve]: [None] is [ErrOutsideCache]. *)
Definition Resolve (dir relative : string) : option string :=
  if bool_decide (relative = ""%string) || IsAbs relative then None
  else
    let abs := JoinPath dir (Clean relative) in
    if HasPrefix (Clean dir +:+ String SLASH "") (abs +:+ String SLASH "") then Some abs else None.

(** [relativePathFor]: two levels of fan-out over the digest of the ID. *)
Definition relativePathFor `{SHA256} (attachmentID : string) : string :=
  let h := sha256_hex attachmentID in
  JoinPath (JoinPath (String.substring 0 2 h) (String.substring 2 2 h)) h.

(** ** The rows (internal/store/media.go) *)

Record CacheRow := mkCacheRow { cr_relative_path : string; cr_size_bytes : Z; cr_pinned : bool; cr_last_used_ms : Z }.
#[export] Instance CacheRow_eq_dec : EqDecision CacheRow.
Proof. solve_decision. Defined.
Notation cache_table := (gmap string CacheRow).

(** The upsert; the attachment must exist. *)
Definition PutMediaCacheEntry (now : Z) (attachments : gset string) (id path : string) (size : Z) (pinned : bool) (t : cache_table)
    : option cache_table :=
  if bool_decide (id ∈ attachments) then Some (<[id := mkCacheRow path size pinned now]> t) else None.

Definition TouchMediaCacheEntry (now : Z) (id : string) (t : cache_table) : cache_table :=
  alter (fun r => mkCacheRow (cr_relative_path r) (cr_size_bytes r) (cr_pinned r) now) id t.

Definition SetMediaCachePinned (id : string) (pinned : bool) (t : cache_table) : cache_table :=
  alter (fun r => mkCacheRow (cr_relative_path r) (cr_size_bytes r) pinned (cr_last_used_ms r)) id t.

Definition MediaCacheBytes (t : cache_table) : Z := map_fold (fun _ r n => cr_size_bytes r + n) 0 t.

Definition Entry : Type := string * CacheRow.

(** ORDER BY last_used_ms, attachment_id. *)
Definition lru (x y : Entry) : Prop :=
  cr_last_used_ms x.2 < cr_last_used_ms y.2 \/ (cr_last_used_ms x.2 = cr_last_used_ms y.2 /\ String.le x.1 y.1).
#[export] Instance lru_dec : RelDecision lru.
Proof. intros x y. unfold lru. apply _. Defined.
#[export] Instance lru_total : Total lru.
Proof.
  intros x y. unfold lru. destruct (Z.lt_total (cr_last_used_ms x.2) (cr_last_used_ms y.2)) as [|[E|]]; [tauto| |tauto].
  rewrite E. destruct (total String.le x.1 y.1); tauto.
Qed.

Definition Unpinned (t : cache_table) : list Entry := merge_sort lru (map_to_list (filter (fun p => cr_pinned p.2 = false) t)).

(** [StoreIndex.Delete]: the path is read before the row goes; without a row it is empty. *)
Definition DeleteEntry (id : string) (t : cache_table) : cache_table * string :=
  (delete id t, match t !! id with Some r => cr_relative_path r | None => "" end).

Fixpoint evict_rows (max remaining : Z) (victims : list Entry) (t : cache_table) : cache_table * list string :=
  match victims with
  | [] => (t, [])
  | v :: victims' =>
      if remaining <=? max then (t, [])
      else
        let '(t', paths) := evict_rows max (remaining - cr_size_bytes v.2) victims' (delete v.1 t) in
        (t', cr_relative_path v.2 :: paths)
  end.

Definition EvictMediaCacheLRU (max : Z) (t : cache_table) : cache_table * list string :=
  let total := MediaCacheBytes t in
  if total <=? max then (t, []) else evict_rows max total (Unpinned t) t.

(** The paths of an account, or of all of them when that is empty; [account_of] is the
    account of an attachment. *)
Definition CollectMediaPaths (account_of : string -> option string) (accountID : string) (t : cache_table) : list string :=
  merge_sort String.le (omap (fun x : Entry =>
    a ← account_of x.1; if bool_decide (accountID = ""%string) || bool_decide (a = accountID) then Some (cr_relative_path x.2) else None)
    (map_to_list t)).

(** ** The cache (cache.go, storeindex.go) *)

Record CacheState := mkCacheState { cs_rows : cache_table; cs_files : gmap string string }.
Definition set_rows (f : cache_table -> cache_table) (s : CacheState) : CacheState := mkCacheState (f (cs_rows s)) (cs_files s).
Definition set_files (f : gmap string string -> gmap string string) (s : CacheState) : CacheState := mkCacheState (cs_rows s) (f (cs_files s)).

Inductive CacheError : Type := ErrOutsideCache | CacheIO (text : string) | CacheIndex.

Section Cache.
Context `{SHA256} (Dir : string) (MaxBytes : Z).

(** [now] and the attachments that exist are read by the statement.  [staged] is whether
    the temporary file was written, [renamed] whether it could be put in place; the
    temporary file itself is nobody else's and goes away with the call. *)
Definition cache_Put (now : Z) (attachments : gset string) (staged renamed : bool) (attachmentID data : string)
    : Prog CacheState (Result CacheError CacheRow) :=
  let rel := relativePathFor attachmentID in
  match Resolve Dir rel with
  | None => mret (Err ErrOutsideCache)
  | Some abs =>
      if negb staged then mret (Err (CacheIO "staging a cached file"))
      else if negb renamed then mret (Err (CacheIO "publishing a cached file"))
      else
        modify (set_files <[abs := data]>) ≫= fun _ =>
        atomic (fun s => match PutMediaCacheEntry now attachments attachmentID rel (Z.of_nat (String.length data)) false (cs_rows s) with
                         | Some t => (set_rows (fun _ => t) s, true)
                         | None => (s, false)
                         end) ≫= fun ok : bool =>
        if ok then mret (Ok (mkCacheRow rel (Z.of_nat (String.length data)) false now))
        else modify (set_files (delete abs)) ≫= fun _ => mret (Err CacheIndex)
  end.

(** The bytes, or a miss. *)
Definition cache_Get (now : Z) (attachmentID : string) : Prog CacheState (Result CacheError (option string)) :=
  look (fun s => cs_rows s !! attachmentID) ≫= fun row =>
  match row with
  | None => mret (Ok None)
  | Some e =>
      match Resolve Dir (cr_relative_path e) with
      | None => mret (Err ErrOutsideCache)
      | Some abs =>
          look (fun s => cs_files s !! abs) ≫= fun file =>
          match file with
          | None => modify (set_rows (delete attachmentID)) ≫= fun _ => mret (Ok None)
          | Some data => modify (set_rows (TouchMediaCacheEntry now attachmentID)) ≫= fun _ => mret (Ok (Some data))
          end
      end
  end.

Definition cache_Pin (id : string) : Prog CacheState () := modify (set_rows (SetMediaCachePinned id true)).
Definition cache_Unpin (id : string) : Prog CacheState () := modify (set_rows (SetMediaCachePinned id false)).

Fixpoint evict_entries (total freed removed : Z) (entries : list Entry) : Prog CacheState (Z * Z * option CacheError) :=
  match entries with
  | [] => mret (freed, removed, None)
  | e :: entries' =>
      if (total - freed) <=? MaxBytes then mret (freed, removed, None)
      else
        atomic (fun s => let '(t, rel) := DeleteEntry e.1 (cs_rows s) in (set_rows (fun _ => t) s, rel)) ≫= fun rel =>
        match Resolve Dir rel with
        | None => mret (freed, removed, Some ErrOutsideCache)
        | Some abs =>
            modify (set_files (delete abs)) ≫= fun _ =>
            evict_entries total (freed + cr_size_bytes e.2) (removed + 1) entries'
        end
  end.

Definition cache_Evict : Prog CacheState (Z * Z * option CacheError) :=
  look (fun s => MediaCacheBytes (cs_rows s)) ≫= fun total =>
  look (fun s => Unpinned (cs_rows s)) ≫= fun entries =>
  if (MaxBytes <=? 0) || (total <=? MaxBytes) then mret (0, 0, None)
  else evict_entries total 0 0 (merge_sort lru entries).

(** [UnlinkAll]: the paths that did not resolve. *)
Fixpoint cache_UnlinkAll (paths : list string) : Prog CacheState (list string) :=
  match paths with
  | [] => mret []
  | rel :: paths' =>
      match Resolve Dir rel with
      | None => cache_UnlinkAll paths' ≫= fun l => mret (rel :: l)
      | Some abs => modify (set_files (delete abs)) ≫= fun _ => cache_UnlinkAll paths'
      end
  end.
End Cache.

(** ** Eviction *)

Lemma bytes_delete id r t : t !! id = Some r -> MediaCacheBytes t = cr_size_bytes r + MediaCacheBytes (delete id t).
Proof. intros Hr. unfold MediaCacheBytes. apply (map_fold_delete_L (fun _ r n => cr_size_bytes r + n)); [intros; lia|done]. Qed.

#[export] Instance lru_trans : Transitive lru.
Proof.
  intros x y z. unfold lru. intros [H1|[H1 L1]] [H2|[H2 L2]]; [left; lia|left; lia|left; lia|right]. split; [lia|by etransitivity].
Qed.

Lemma Unpinned_elem id r t : (id, r) ∈ Unpinned t <-> t !! id = Some r /\ cr_pinned r = false.
Proof. unfold Unpinned. rewrite (merge_sort_Permutation lru), elem_of_map_to_list. apply map_lookup_filter_Some. Qed.

Lemma Unpinned_keys t : NoDup (Unpinned t).*1.
Proof. unfold Unpinned. rewrite (merge_sort_Permutation lru). apply NoDup_fst_map_to_list. Qed.

Lemma Unpinned_sorted t : merge_sort lru (Unpinned t) = Unpinned t.
Proof.
  apply (Sorted_unique_strong lru); [|apply Sorted_merge_sort, _|apply Sorted_merge_sort, _|apply merge_sort_Permutation].
  intros [i r] [j q]. rewrite (merge_sort_Permutation lru (Unpinned t)), !Unpinned_elem. intros [Hi _] [Hj _] [H1|[H1 L1]] [H2|[H2 L2]]; simpl in *; [lia..|].
  assert (i = j) as -> by (by apply (anti_symm String.le)). congruence.
Qed.

(** The table without some entries. *)
Definition without (l : list Entry) (t : cache_table) : cache_table := filter (fun p => p ∉ l) t.

Lemma without_nil t : without [] t = t.
Proof. apply map_filter_id. intros i x _ Hx. by apply elem_of_nil in Hx. Qed.

Lemma without_cons v l t : t !! v.1 = Some v.2 -> without (v :: l) t = without l (delete v.1 t).
Proof.
  intros Hv. unfold without. apply map_eq. intros i. apply option_eq. intros x. rewrite !map_lookup_filter_Some, lookup_delete_Some, not_elem_of_cons.
  split; [intros (Hx & Hne & Hnin)|intros ((Hne & Hx) & Hnin)]; split_and!; try done.
  - intros <-. rewrite Hv in Hx. injection Hx as <-. by destruct v.
  - intros <-. by apply Hne.
Qed.

(** The shortest prefix of the victims that makes the rest fit. *)
Definition enough (max : Z) (victims : list Entry) (t : cache_table) (k : nat) : Prop :=
  (k <= length victims)%nat /\ (MediaCacheBytes (without (take k victims) t) <= max \/ k = length victims) /\
  forall j, (j < k)%nat -> max < MediaCacheBytes (without (take j victims) t).

Definition stored_in (t : cache_table) (l : list Entry) : Prop := NoDup l.*1 /\ Forall (fun v => t !! v.1 = Some v.2) l.

Lemma stored_in_tail t v l : stored_in t (v :: l) -> t !! v.1 = Some v.2 /\ stored_in (delete v.1 t) l.
Proof.
  intros [[Hv Hnd]%NoDup_cons [Hx Hl]%Forall_cons]. split; [done|]. split; [done|]. rewrite Forall_forall in Hl |- *.
  intros w Hw. rewrite lookup_delete_ne; [by apply Hl|]. intros E. apply Hv. rewrite E. by apply list_elem_of_fmap_2.
Qed.

Lemma enough_cons max v l t k : t !! v.1 = Some v.2 -> max < MediaCacheBytes t -> enough max l (delete v.1 t) k -> enough max (v :: l) t (S k).
Proof.
  intros Hv Hbig (Hk & Hfit & Hleast). split; [simpl; lia|]. split.
  - simpl. rewrite without_cons by done. destruct Hfit as [|Hfit]; [by left|]. right. by rewrite Hfit.
  - intros [|j] Hj; [by rewrite without_nil|]. simpl. rewrite without_cons by done. apply Hleast. lia.
Qed.

Lemma evict_rows_enough max l t : stored_in t l -> exists k, enough max l t k /\
  evict_rows max (MediaCacheBytes t) l t = (without (take k l) t, (fun v : Entry => cr_relative_path v.2) <$> take k l).
Proof.
  revert t. induction l as [|v l IH]; intros t Hin; cbn [evict_rows].
  - exists 0%nat. split; [|by rewrite without_nil]. split; [simpl; lia|]. split; [by right|]. lia.
  - destruct (Z.leb_spec (MediaCacheBytes t) max) as [Hfit|Hbig].
    + exists 0%nat. split; [|by rewrite without_nil]. split; [simpl; lia|]. split; [left; by rewrite without_nil|]. lia.
    + destruct (stored_in_tail _ _ _ Hin) as [Hv Hin']. destruct (IH _ Hin') as (k & Hk & E). exists (S k).
      split; [by apply enough_cons|]. rewrite (bytes_delete _ _ _ Hv), Z.add_simpl_l, E. simpl. by rewrite without_cons.
Qed.

Lemma Unpinned_stored t : stored_in t (Unpinned t).
Proof. split; [apply Unpinned_keys|]. apply Forall_forall. intros [i r] Hv. simpl. by apply Unpinned_elem. Qed.

Section Evicting.
Context `{SHA256} (Dir : string) (MaxBytes : Z).

(** The cache's loop does to the rows what the store's does, and unlinks the files. *)
Lemma evict_entries_rows total freed removed l s : stored_in (cs_rows s) l ->
  Forall (fun v => is_Some (Resolve Dir (cr_relative_path v.2))) l -> total - freed = MediaCacheBytes (cs_rows s) ->
  let '(t', paths) := evict_rows MaxBytes (total - freed) l (cs_rows s) in
  let '(s', (freed', removed', e)) := run (evict_entries Dir MaxBytes total freed removed l) s in
  cs_rows s' = t' /\ e = None /\ total - freed' = MediaCacheBytes t' /\ removed' = removed + Z.of_nat (length paths) /\
  cs_files s' = fold_left (fun f rel => match Resolve Dir rel with Some abs => delete abs f | None => f end) paths (cs_files s).
Proof.
  revert freed removed s. induction l as [|v l IH]; intros freed removed s Hin Hres Ht; cbn [evict_rows evict_entries].
  { cbn [run mret Prog_ret]. split_and!; [done..|simpl; lia|done]. }
  destruct (Z.leb_spec (total - freed) MaxBytes); [cbn [run mret Prog_ret]; split_and!; [done..|simpl; lia|done]|].
  destruct (stored_in_tail _ _ _ Hin) as [Hv Hin']. apply Forall_cons in Hres as [[abs Habs] Hres].
  rewrite run_bind. unfold atomic, DeleteEntry. cbn [run]. rewrite Hv, Habs. rewrite run_bind. unfold modify, atomic. cbn [run].
  set (s1 := set_files (delete abs) (set_rows (fun _ => delete v.1 (cs_rows s)) s)).
  assert (total - (freed + cr_size_bytes v.2) = MediaCacheBytes (cs_rows s1)) as Ht1.
  { pose proof (bytes_delete _ _ _ Hv). simpl. lia. }
  specialize (IH (freed + cr_size_bytes v.2) (removed + 1) s1 Hin' Hres Ht1).
  replace (total - freed - cr_size_bytes v.2) with (total - (freed + cr_size_bytes v.2)) by lia. change (delete v.1 (cs_rows s)) with (cs_rows s1).
  destruct (evict_rows _ _ l (cs_rows s1)) as [t' paths]. destruct (run _ s1) as [s' [[freed' removed'] e]].
  destruct IH as (-> & -> & ? & -> & ->). split_and!; [done|done|done|simpl length; lia|]. simpl. by rewrite Habs.
Qed.

(** C35: eviction frees the least recently used files and no more of them than it must, and
    the two implementations of it agree.  What goes is the shortest prefix of the unpinned
    entries, in the order of their last use and then of their ID, that brings the total
    under the budget, or all of them when none is enough; pinned entries stay; and with a
    positive budget and paths inside the directory the cache's own eviction leaves the same
    rows, reports the bytes it freed, and unlinks exactly the files of those rows. *)
Theorem eviction_exact s : 0 < MaxBytes -> (forall id r, cs_rows s !! id = Some r -> is_Some (Resolve Dir (cr_relative_path r))) ->
  exists k, enough MaxBytes (Unpinned (cs_rows s)) (cs_rows s) k /\
    let victims := take k (Unpinned (cs_rows s)) in
    let paths := (fun v : Entry => cr_relative_path v.2) <$> victims in
    EvictMediaCacheLRU MaxBytes (cs_rows s) = (without victims (cs_rows s), paths) /\
    exists files, run (cache_Evict Dir MaxBytes) s =
      (mkCacheState (without victims (cs_rows s)) files,
       (MediaCacheBytes (cs_rows s) - MediaCacheBytes (without victims (cs_rows s)), Z.of_nat k, None)) /\
      files = fold_left (fun f rel => match Resolve Dir rel with Some abs => delete abs f | None => f end) paths (cs_files s).
Proof.
  intros Hpos Hres. set (t := cs_rows s) in *. destruct (evict_rows_enough MaxBytes (Unpinned t) t (Unpinned_stored t)) as (k & Hk & E).
  assert (run (cache_Evict Dir MaxBytes) s = if MediaCacheBytes t <=? MaxBytes then (s, (0, 0, None))
    else run (evict_entries Dir MaxBytes (MediaCacheBytes t) 0 0 (Unpinned t)) s) as Hrun.
  { unfold cache_Evict. rewrite run_bind. unfold look, atomic. cbn [run]. rewrite run_bind. cbn [run]. fold t.
    rewrite (proj2 (Z.leb_gt _ _) Hpos). cbn [orb]. rewrite Unpinned_sorted. by destruct (_ <=? _). }
  unfold EvictMediaCacheLRU. fold t. rewrite Hrun. destruct (Z.leb_spec (MediaCacheBytes t) MaxBytes) as [Hfit|Hbig].
  - exists 0%nat. split; [split; [lia|]; split; [left; by rewrite without_nil|lia]|]. cbn [take fmap list_fmap]. rewrite without_nil. split; [done|].
    exists (cs_files s). split; [|done]. rewrite Z.sub_diag. by destruct s.
  - exists k. split; [done|]. split; [exact E|].
    assert (Forall (fun v => is_Some (Resolve Dir (cr_relative_path v.2))) (Unpinned t)) as Hall.
    { apply Forall_forall. intros [i r] [Hi _]%Unpinned_elem. by eapply Hres. }
    pose proof (evict_entries_rows (MediaCacheBytes t) 0 0 (Unpinned t) s (Unpinned_stored t) Hall ltac:(fold t; lia)) as Hev.
    rewrite Z.sub_0_r in Hev. fold t in Hev. rewrite E in Hev.
    destruct (run (evict_entries Dir MaxBytes (MediaCacheBytes t) 0 0 (Unpinned t)) s) as [s' [[freed removed] e]].
    destruct Hev as (Hrows & -> & Hfreed & -> & Hfiles). exists (cs_files s'). split; [|exact Hfiles].
    rewrite <- Hrows. f_equal; [by destruct s'|]. rewrite Hrows. f_equal. f_equal; [lia|]. rewrite length_fmap, length_take.
    destruct Hk as [Hk _]. lia.
Qed.
End Evicting.

(** Without a budget the cache evicts nothing, and the store everything. *)
Lemma evictions_differ `{SHA256} dir s : run (cache_Evict dir 0) s = (s, (0, 0, None)) /\
  (0 < MediaCacheBytes (cs_rows s) -> exists k, enough 0 (Unpinned (cs_rows s)) (cs_rows s) k /\
     (EvictMediaCacheLRU 0 (cs_rows s)).1 = without (take k (Unpinned (cs_rows s))) (cs_rows s)).
Proof.
  split; [done|]. intros Hpos. unfold EvictMediaCacheLRU. rewrite (proj2 (Z.leb_gt _ _) Hpos).
  destruct (evict_rows_enough 0 _ _ (Unpinned_stored (cs_rows s))) as (k & Hk & E). exists k. split; [done|]. by rewrite E.
Qed.

(** ** Resolved paths *)

Definition plain_name (p : string) : Prop := p <> ""%string /\ p <> "."%string /\ p <> ".."%string.

(** Cleaned components: parent elements first, none when rooted, then names. *)
Definition cleaned (rooted : bool) (l : list string) : Prop :=
  exists n names, l = replicate n ".."%string ++ names /\ Forall plain_name names /\ (rooted = true -> n = 0%nat).

Lemma cleaned_snoc rooted l p : cleaned rooted l -> plain_name p -> cleaned rooted (l ++ [p]).
Proof.
  intros (n & names & -> & Hn & Hr) Hp. exists n, (names ++ [p]). split; [by rewrite <- (assoc (++))|]. split; [|done].
  apply Forall_app. by split; [|constructor].
Qed.

Lemma cleaned_up rooted l : cleaned rooted (l ++ [".."%string]) -> rooted = false /\ exists n, l = replicate n ".."%string.
Proof.
  intros (n & names & E & Hn & Hr). destruct names as [|p names _] using rev_ind.
  - rewrite app_nil_r in E. destruct n as [|n]; [by destruct l|]. split; [destruct rooted; [by specialize (Hr eq_refl)|done]|].
    rewrite replicate_S_end in E. apply app_inj_tail in E as [-> _]. by exists n.
  - rewrite (assoc (++)) in E. apply app_inj_tail in E as [_ E]. apply Forall_app in Hn as [_ [Hp _]%Forall_cons]. subst p. by destruct Hp as (_ & _ & []).
Qed.

Lemma cleaned_init rooted l q : cleaned rooted (l ++ [q]) -> q <> ".."%string -> cleaned rooted l.
Proof.
  intros (n & names & E & Hn & Hr) Hq. destruct names as [|p names _] using rev_ind.
  - rewrite app_nil_r in E. destruct n as [|n]; [by destruct l|]. rewrite replicate_S_end in E. apply app_inj_tail in E as [_ E]. by symmetry in E.
  - rewrite (assoc (++)) in E. apply app_inj_tail in E as [-> ->]. apply Forall_app in Hn as [Hn _]. by exists n, names.
Qed.

Lemma clean_components_cleaned rooted todo done_ : cleaned rooted (reverse done_) -> cleaned rooted (clean_components rooted done_ todo).
Proof.
  revert done_. induction todo as [|p todo IH]; intros done_ Hd; cbn [clean_components]; [done|].
  destruct (bool_decide (p = ""%string)) eqn:E1; cbn [orb]; [by apply IH|]. destruct (bool_decide (p = "."%string)) eqn:E2; [by apply IH|].
  destruct (bool_decide (p = ".."%string)) eqn:E3; bool_to_prop.
  - subst p. destruct done_ as [|q done'].
    + destruct rooted; apply IH; [done|]. exists 1%nat, []. by split.
    + rewrite reverse_cons in Hd. destruct (bool_decide (q = ".."%string)) eqn:E4; bool_to_prop; apply IH.
      * subst q. apply cleaned_up in Hd as [-> [n Hn]]. rewrite !reverse_cons, Hn, <- !replicate_S_end. exists (S (S n)), [].
        rewrite app_nil_r. by split.
      * by eapply cleaned_init.
  - apply IH. rewrite reverse_cons. by apply cleaned_snoc.
Qed.

Lemma components_cleaned p : cleaned (IsAbs p) (components p).
Proof. apply clean_components_cleaned. by exists 0%nat, []. Qed.

Lemma Split_app_slash a b : Split SLASH (a +:+ String SLASH b) = Split SLASH a ++ Split SLASH b.
Proof.
  induction a as [|c a IH]; [done|]. change (String c a +:+ String SLASH b) with (String c (a +:+ String SLASH b)).
  cbn [Split]. rewrite IH. case_decide; [done|]. pose proof (Split_nonempty SLASH a). by destruct (Split SLASH a).
Qed.

(** A component of a split holds no slash. *)
Lemma Split_no_byte c s : Forall (fun p => has_byte c p = false) (Split c s).
Proof.
  induction s as [|d s IH]; cbn [Split]; [by repeat constructor|]. case_decide as Hd; [by constructor|].
  destruct (Split c s) as [|p l]; [by repeat constructor; simpl; rewrite bool_decide_eq_false_2|]. apply Forall_cons in IH as [Hp Hl].
  constructor; [|done]. simpl. by rewrite bool_decide_eq_false_2.
Qed.

Lemma clean_components_from rooted done_ todo p : p ∈ clean_components rooted done_ todo -> p ∈ done_ \/ p ∈ todo.
Proof.
  revert done_. induction todo as [|q todo IH]; intros done_; cbn [clean_components]; [rewrite elem_of_reverse; by left|].
  assert (forall d, (p ∈ d -> p ∈ done_ \/ p ∈ q :: todo) -> p ∈ clean_components rooted d todo -> p ∈ done_ \/ p ∈ q :: todo) as H0.
  { intros d Hd [Hp|Hp]%IH; [by apply Hd|]. right. by right. }
  destruct (_ || _); [apply H0; by left|]. destruct (bool_decide (q = _)).
  - destruct done_ as [|x done']; [destruct rooted; apply H0; set_solver|]. destruct (bool_decide _); apply H0; set_solver.
  - apply H0. set_solver.
Qed.

Lemma components_no_slash p : forallb (fun a => negb (has_byte SLASH a)) (components p) = true.
Proof.
  apply forallb_forall. intros q [Hq%elem_of_nil|Hq]%list_elem_of_In%clean_components_from; [done|].
  pose proof (Split_no_byte SLASH p) as Hall. rewrite Forall_forall in Hall. by rewrite (Hall q Hq).
Qed.

(** The split of a cleaned path. *)
Lemma Split_Clean p : Split SLASH (Clean p) =
  if IsAbs p then ""%string :: (if bool_decide (components p = []) then [""%string] else components p)
  else if bool_decide (components p = []) then ["."%string] else components p.
Proof.
  unfold Clean, render. pose proof (components_no_slash p) as Hs. destruct (IsAbs p).
  - change (String SLASH (Join SLASH (components p))) with (EmptyString +:+ String SLASH (Join SLASH (components p))).
    rewrite Split_app_slash. destruct (bool_decide (components p = [])) eqn:E; bool_to_prop; [by rewrite E|]. simpl. f_equal. by apply Split_Join.
  - destruct (bool_decide (components p = [])) eqn:E; bool_to_prop; [done|]. by apply Split_Join.
Qed.

Lemma HasPrefix_split p s : HasPrefix p s = true -> exists x, s = p +:+ x.
Proof.
  revert s. induction p as [|c p IH]; intros [|d s]; simpl; [by eexists|by eexists|done|]. intros H. bool_to_prop. subst d.
  destruct (IH s) as [x ->]; [done|]. by exists x.
Qed.

Lemma JoinPath_clean a b : b <> ""%string -> exists p, JoinPath a b = Clean p.
Proof. intros Hb. unfold JoinPath. destruct (decide _); rewrite decide_False by done; by eexists. Qed.

Lemma Clean_nonempty p : Clean p <> ""%string.
Proof.
  unfold Clean, render. destruct (IsAbs p); [done|]. destruct (components_cleaned p) as (n & names & -> & Hn & _).
  destruct (bool_decide _) eqn:E; [done|]. bool_to_prop. destruct n as [|n]; simpl in *.
  - destruct names as [|q names]; [done|]. apply Forall_cons in Hn as [(Hq & _) _]. destruct q; [done|]. by destruct names.
  - by destruct (replicate n _ ++ names).
Qed.

(** A path from the database stays inside the cache directory.  When the directory's
    own cleaned path has no parent element, whatever relative path is stored, what it
    resolves to is the directory's elements followed by plain names: no parent element, no
    empty one. *)
Theorem resolve_contained dir rel abs : ".."%string ∉ Split SLASH (Clean dir) -> Resolve dir rel = Some abs ->
  exists rest, Split SLASH abs = Split SLASH (Clean dir) ++ rest /\ Forall plain_name rest.
Proof.
  unfold Resolve. intros Hdir. destruct (_ || _); [done|].
  destruct (JoinPath_clean dir (Clean rel) (Clean_nonempty rel)) as [p Ep]. rewrite Ep.
  destruct (HasPrefix _ _) eqn:Hp; [|done]. intros [= <-]. apply HasPrefix_split in Hp as [x Hx].
  assert (Clean p +:+ String SLASH "" = Clean dir +:+ String SLASH x) as Hx'.
  { rewrite Hx. clear. induction (Clean dir) as [|c d IH]; [done|]. exact (f_equal (String c) IH). }
  pose proof (f_equal (Split SLASH) Hx') as Hs. rewrite !Split_app_slash in Hs. change (Split SLASH "") with [""%string] in Hs.
  destruct (Split SLASH x) as [|q rest _] eqn:Ex using rev_ind; [by destruct (Split_nonempty SLASH x)|].
  rewrite (assoc (++)) in Hs. apply app_inj_tail in Hs as [Hs _]. exists rest. split; [done|].
  pose proof (Split_nonempty SLASH (Clean dir)) as Hne. pose proof (Split_Clean dir) as Hd.
  set (D := Split SLASH (Clean dir)) in *. clearbody D.
  destruct (components_cleaned p) as (n & names & Hc & Hn & Hr). rewrite Split_Clean, Hc in Hs.
  destruct D as [|d0 D']; [done|]. destruct (IsAbs p).
  - rewrite (Hr eq_refl) in *. simpl in Hs. injection Hs as <- Hs. destruct names as [|nm names].
    + rewrite bool_decide_eq_true_2 in Hs by done. destruct D' as [|d1 D'].
      * exfalso. destruct (IsAbs dir).
        { destruct (bool_decide (components dir = [])) eqn:E; [done|]. bool_to_prop. injection Hd as Hd. by symmetry in Hd. }
        destruct (bool_decide (components dir = [])) eqn:E; [done|]. destruct (components_cleaned dir) as (k & ns & Hcd & Hns & _). rewrite Hcd in Hd.
        destruct k as [|k]; [|done]. destruct ns as [|x0 ns]; [done|]. injection Hd as <- _. apply Forall_cons in Hns as [(Hx0 & _) _]. done.
      * simpl in Hs. injection Hs as _ Hs. symmetry in Hs. apply app_eq_nil in Hs as [_ ->]. constructor.
    + rewrite bool_decide_eq_false_2 in Hs by done. rewrite Hs in Hn. by apply Forall_app in Hn as [_ Hn].
  - destruct n as [|n].
    + simpl in Hs. destruct names as [|nm names].
      * rewrite bool_decide_eq_true_2 in Hs by done. injection Hs as _ Hs. symmetry in Hs. apply app_eq_nil in Hs as [_ ->]. constructor.
      * rewrite bool_decide_eq_false_2 in Hs by done. rewrite Hs in Hn. by apply (Forall_app _ (d0 :: D')) in Hn as [_ Hn].
    + exfalso. rewrite bool_decide_eq_false_2 in Hs by done. simpl in Hs. injection Hs as <- _. apply Hdir. by left.
Qed.

(** The directory itself is not refused. *)
Lemma resolve_dot : Resolve "/data/media-cache" "a/.." = Some "/data/media-cache"%string.
Proof. reflexivity. Qed.

(** ** Witnesses *)

Example resolve_contained_witness : exists rest, Split SLASH "/data/media-cache/b/c" = Split SLASH (Clean "/data/media-cache") ++ rest /\ Forall plain_name rest.
Proof. apply (resolve_contained "/data/media-cache" "a/../b//c"); [|reflexivity]. cbv. intros Hin. repeat (apply elem_of_cons in Hin as [Hin|Hin]; [discriminate|]). by apply elem_of_nil in Hin. Defined.

Definition demo_cache : CacheState :=
  mkCacheState {["att_1"%string := mkCacheRow "aa/bb/1" 10 false 5; "att_2"%string := mkCacheRow "aa/bb/2" 20 true 1; "att_3"%string := mkCacheRow "aa/cc/3" 30 false 2]}
    {["/c/aa/bb/1"%string := "x"%string; "/c/aa/cc/3"%string := "y"%string]}.

Example eviction_exact_witness : exists k files, run (cache_Evict "/c" 40) demo_cache =
  (mkCacheState (without (take k (Unpinned (cs_rows demo_cache))) (cs_rows demo_cache)) files,
   (MediaCacheBytes (cs_rows demo_cache) - MediaCacheBytes (without (take k (Unpinned (cs_rows demo_cache))) (cs_rows demo_cache)), Z.of_nat k, None)).
Proof.
  destruct (eviction_exact "/c" 40 demo_cache) as (k & _ & _ & files & E & _).
  - reflexivity.
  - intros id r Hr. unfold demo_cache in Hr. simpl in Hr.
    repeat (apply lookup_insert_Some in Hr as [[_ <-]|[_ Hr]]; [by eexists|]). apply lookup_singleton_Some in Hr as [_ <-]. by eexists.
  - exists k, files. exact E.
Defined.
