(* ===== verification/Names.v ===== *)
(** * Cleaning of names (internal/apierr/normalize.go)

    A file name or a reason that a caller supplies is cleaned, shortened and reported.
    The code works on runes; the lemmas first say that a string is the concatenation of
    the pieces its runes were decoded from, and that well-formed pieces in any order
    decode to their runes.  The theorem: what comes out is always a safe name, what was
    safe already is left alone, and nothing is changed without a warning. *)

From S2P Require Import Prelude GoStrings.

Local Notation join := GoStrings.join.

(** ** The code *)

Definition WarnReasonNormalized : string := "reason_normalized".
Definition WarnReasonTruncated : string := "reason_truncated".
Definition WarnFilenameNormalized : string := "filename_normalized".
Definition WarnFilenameTruncated : string := "filename_truncated".
Definition MaxReasonRunes : nat := 500.
Definition MaxFilenameRunes : nat := 255.

(** [unicode.IsControl]: the C0 block, DEL and the C1 block. *)
Definition IsControl (r : Z) : bool := in_range r 0 0x1F || in_range r 0x7F 0x9F.

Definition isClean (s : string) : bool := ValidString s && negb (ContainsFunc IsControl s).

(** The pieces of a string with whether each was well formed.  Writing a well-formed rune
    writes the bytes it was decoded from. *)
Definition keeps (p : (Z * bool) * (Z * string)) : bool := p.1.2 && negb (IsControl p.1.1).

Definition removeControl (s : string) : string :=
  if isClean s then s else join ((filter keeps (zip (decode s) (pieces s))).*2).

Definition truncateRunes (s : string) (n : nat) : string :=
  if (length (runes s) <=? n)%nat then s else join (take n (pieces s)).

Definition NormalizeReason (reason : string) : string * list string :=
  let cleaned := TrimSpace (removeControl reason) in
  let truncated := truncateRunes cleaned MaxReasonRunes in
  (truncated,
   (if decide (cleaned <> reason) then [WarnReasonNormalized] else []) ++
   (if decide (truncated <> cleaned) then [WarnReasonTruncated] else [])).

Definition is_separator (c : Ascii.ascii) : bool := (byte_of c =? 47)%Z || (byte_of c =? 92)%Z.

(** What follows the last separator, if there is one. *)
Fixpoint after_separator (s : string) : option string :=
  match s with
  | EmptyString => None
  | String c s' =>
      match after_separator s' with
      | Some t => Some t
      | None => if is_separator c then Some s' else None
      end
  end.

Definition base_name (s : string) : string := default s (after_separator s).

Definition NormalizeFilename (filename : string) : string * list string :=
  let cleaned := TrimSpace (base_name (removeControl filename)) in
  let cleaned := if decide (cleaned = ""%string \/ cleaned = "."%string \/ cleaned = ".."%string) then "file"%string else cleaned in
  let truncated := truncateRunes cleaned MaxFilenameRunes in
  (truncated,
   (if decide (cleaned <> filename) then [WarnFilenameNormalized] else []) ++
   (if decide (truncated <> cleaned) then [WarnFilenameTruncated] else [])).

(** ** Pieces *)

(** A piece that decodes to one rune wherever it stands. *)
Definition good (p : Z * string) : Prop :=
  (forall u, decode (p.2 +:+ u) = (p.1, true) :: decode u) /\ String.length p.2 = rune_width (p.1, true) /\
  (after_separator p.2 = None \/ after_separator p.2 = Some ""%string).

Lemma substring_split a b : String.substring 0 (String.length a) (a +:+ b) = a /\
  String.substring (String.length a) (String.length (a +:+ b) - String.length a) (a +:+ b) = b.
Proof.
  induction a as [|c a [IH1 IH2]]; simpl.
  - rewrite Nat.sub_0_r. split; [by destruct b|]. apply substring_whole.
  - split; [by rewrite IH1|exact IH2].
Qed.

Lemma high_no_separator s : Forall (fun b => (0x80 <= b)%Z) (bytes s) -> after_separator s = None.
Proof.
  induction s as [|c s IH]; [done|]. simpl. intros [Hc Hs]%Forall_cons. rewrite IH by done. unfold is_separator.
  by rewrite !(proj2 (Z.eqb_neq _ _)) by lia.
Qed.

Lemma high_piece (s t u : string) r : s = t +:+ u -> (forall v, decode (t +:+ v) = (r, true) :: decode v) ->
  String.length t = rune_width (r, true) -> Forall (fun b => (0x80 <= b)%Z) (bytes t) ->
  s = t +:+ u /\ decode s = (r, true) :: decode u /\ String.length t = rune_width (r, true) /\ (true = true -> good (r, t)).
Proof.
  intros -> Hd Hw Hb. split; [done|]. split; [apply Hd|]. split; [done|]. intros _. split; [done|]. split; [done|].
  left. by apply high_no_separator.
Qed.

Lemma three_bounds b0 b1 b2 : in_range b0 0xE0 0xEF = true ->
  in_range b1 (second_lo b0) (second_hi b0) && in_range b2 0x80 0xBF = true ->
  (0x80 <= b0 /\ 0x80 <= b1 /\ 0x80 <= b2 /\ 0x800 <= (b0 - 0xE0) * 4096 + (b1 - 0x80) * 64 + (b2 - 0x80) < 0x10000)%Z.
Proof.
  unfold in_range, second_lo, second_hi. destruct (b0 =? 0xE0)%Z eqn:E1, (b0 =? 0xF0)%Z eqn:E2, (b0 =? 0xED)%Z eqn:E3, (b0 =? 0xF4)%Z eqn:E4;
    intros; bool_to_prop; lia.
Qed.

Lemma four_bounds b0 b1 b2 b3 :
  in_range b0 0xF0 0xF4 && in_range b1 (second_lo b0) (second_hi b0) && in_range b2 0x80 0xBF && in_range b3 0x80 0xBF = true ->
  (0x80 <= b0 /\ 0x80 <= b1 /\ 0x80 <= b2 /\ 0x80 <= b3 /\
   0x10000 <= (b0 - 0xF0) * 262144 + (b1 - 0x80) * 4096 + (b2 - 0x80) * 64 + (b3 - 0x80))%Z.
Proof.
  unfold in_range, second_lo, second_hi. destruct (b0 =? 0xE0)%Z eqn:E1, (b0 =? 0xF0)%Z eqn:E2, (b0 =? 0xED)%Z eqn:E3, (b0 =? 0xF4)%Z eqn:E4;
    intros; bool_to_prop; lia.
Qed.

(** One step of the decoder, with the bytes it read. *)
Lemma decode_step s : s <> ""%string -> exists r b t u, s = t +:+ u /\ decode s = (r, b) :: decode u /\
  String.length t = rune_width (r, b) /\ (b = true -> good (r, t)).
Proof.
  destruct s as [|c0 s1]; [done|]. intros _. destruct (byte_of c0 <? 0x80)%Z eqn:E0.
  { exists (byte_of c0), true, (String c0 ""), s1. split; [done|]. assert (forall u, decode (String c0 u) = (byte_of c0, true) :: decode u) as H.
    { intros u. simpl. by rewrite E0. }
    assert (String.length (String c0 "") = rune_width (byte_of c0, true)) as Hw by (unfold rune_width; simpl; by rewrite E0).
    split; [apply H|]. split; [exact Hw|]. intros _. split; [intros u; apply H|]. split; [exact Hw|].
    simpl. destruct (is_separator c0); [by right|by left]. }
  assert (decode (String c0 s1) = (RuneError, false) :: decode s1 -> exists r b t u, String c0 s1 = t +:+ u /\
    decode (String c0 s1) = (r, b) :: decode u /\ String.length t = rune_width (r, b) /\ (b = true -> good (r, t))) as Hbad.
  { intros H. by exists RuneError, false, (String c0 ""), s1. }
  destruct s1 as [|c1 s2]; [apply Hbad; simpl; by rewrite E0|].
  destruct (in_range (byte_of c0) 0xC2 0xDF) eqn:R2.
  { destruct (in_range (byte_of c1) 0x80 0xBF) eqn:C1; [|apply Hbad; simpl; by rewrite E0, R2, C1].
    exists ((byte_of c0 - 0xC0) * 64 + (byte_of c1 - 0x80))%Z, true, (String c0 (String c1 "")), s2.
    assert (forall u, decode (String c0 (String c1 u)) = (((byte_of c0 - 0xC0) * 64 + (byte_of c1 - 0x80))%Z, true) :: decode u) as H.
    { intros u. simpl. by rewrite E0, R2, C1. }
    unfold in_range in *. bool_to_prop. apply high_piece; [done|exact H| |by repeat constructor].
    unfold rune_width. cbn [negb fst snd String.length]. by rewrite (proj2 (Z.ltb_ge _ 0x80)), (proj2 (Z.ltb_lt _ 0x800)) by lia. }
  destruct s2 as [|c2 s3]; [apply Hbad; simpl; by rewrite E0, R2|].
  destruct (in_range (byte_of c0) 0xE0 0xEF) eqn:R3.
  { destruct (in_range (byte_of c1) (second_lo (byte_of c0)) (second_hi (byte_of c0)) && in_range (byte_of c2) 0x80 0xBF) eqn:C;
      [|apply Hbad; simpl; by rewrite E0, R2, R3, C].
    eexists _, true, (String c0 (String c1 (String c2 ""))), s3.
    assert (forall u, decode (String c0 (String c1 (String c2 u))) =
      (((byte_of c0 - 0xE0) * 4096 + (byte_of c1 - 0x80) * 64 + (byte_of c2 - 0x80))%Z, true) :: decode u) as H.
    { intros u. simpl. by rewrite E0, R2, R3, C. }
    destruct (three_bounds _ _ _ R3 C) as (? & ? & ? & ?). apply high_piece; [done|exact H| |by repeat constructor].
    unfold rune_width. cbn [negb fst snd String.length].
    by rewrite (proj2 (Z.ltb_ge _ 0x80)), (proj2 (Z.ltb_ge _ 0x800)), (proj2 (Z.ltb_lt _ 0x10000)) by lia. }
  destruct s3 as [|c3 s4]; [apply Hbad; simpl; by rewrite E0, R2, R3|].
  destruct (in_range (byte_of c0) 0xF0 0xF4 && in_range (byte_of c1) (second_lo (byte_of c0)) (second_hi (byte_of c0)) &&
    in_range (byte_of c2) 0x80 0xBF && in_range (byte_of c3) 0x80 0xBF) eqn:C; [|apply Hbad; simpl; by rewrite E0, R2, R3, C].
  eexists _, true, (String c0 (String c1 (String c2 (String c3 "")))), s4.
  assert (forall u, decode (String c0 (String c1 (String c2 (String c3 u)))) = (((byte_of c0 - 0xF0) * 262144 +
    (byte_of c1 - 0x80) * 4096 + (byte_of c2 - 0x80) * 64 + (byte_of c3 - 0x80))%Z, true) :: decode u) as H.
  { intros u. simpl. by rewrite E0, R2, R3, C. }
  destruct (four_bounds _ _ _ _ C) as (? & ? & ? & ? & ?). apply high_piece; [done|exact H| |by repeat constructor].
  unfold rune_width. cbn [negb fst snd String.length].
  by rewrite (proj2 (Z.ltb_ge _ 0x80)), (proj2 (Z.ltb_ge _ 0x800)), (proj2 (Z.ltb_ge _ 0x10000)) by lia.
Qed.

Lemma width_pos r b : (0 < rune_width (r, b))%nat.
Proof. unfold rune_width. repeat case_match; lia. Qed.

(** Induction along the pieces of a string. *)
Lemma pieces_ind (P : string -> Prop) : P ""%string ->
  (forall r b t u, decode (t +:+ u) = (r, b) :: decode u -> pieces (t +:+ u) = (r, t) :: pieces u ->
     (b = true -> good (r, t)) -> P u -> P (t +:+ u)) -> forall s, P s.
Proof.
  intros H0 Hs s. remember (String.length s) as n eqn:Hn. revert s Hn. induction n as [n IH] using lt_wf_ind. intros s ->.
  destruct (decide (s = ""%string)) as [->|Hne]; [exact H0|]. destruct (decode_step s Hne) as (r & b & t & u & -> & Hd & Hw & Hg).
  apply (Hs r b); [done| |done|].
  - unfold pieces. rewrite Hd. cbn [cut]. rewrite <- Hw. by destruct (substring_split t u) as [-> ->].
  - pose proof (width_pos r b). eapply IH; [|reflexivity]. rewrite string_length_app. lia.
Qed.

Lemma join_cons p l : join (p :: l) = p.2 +:+ join l.
Proof. unfold join. destruct l as [|q l]; simpl; [by rewrite append_empty|done]. Qed.

Lemma join_pieces s : join (pieces s) = s.
Proof. revert s. apply pieces_ind; [done|]. intros r b t u _ Hp _ IH. by rewrite Hp, join_cons, IH. Qed.

Lemma length_pieces s : length (pieces s) = length (runes s).
Proof. revert s. apply pieces_ind; [done|]. intros r b t u Hd Hp _ IH. unfold runes in *. by rewrite Hp, Hd, !fmap_cons, !length_cons, IH. Qed.

Lemma good_nonempty p : good p -> p.2 <> ""%string.
Proof. intros (_ & Hw & _) E. rewrite E in Hw. pose proof (width_pos p.1 true). simpl in Hw. lia. Qed.

(** Well-formed pieces in a row decode to their runes. *)
Lemma decode_join l : Forall good l -> decode (join l) = (fun p => (p.1, true)) <$> l.
Proof.
  induction 1 as [|p l [Hd _] _ IH]; [done|]. rewrite join_cons, Hd, IH. done.
Qed.

Lemma pieces_join l : Forall good l -> pieces (join l) = l.
Proof.
  intros Hl. unfold pieces. rewrite (decode_join l Hl). induction Hl as [|p l (Hd & Hw & _) Hl IH]; [done|].
  rewrite fmap_cons, join_cons. cbn [cut fst]. rewrite <- Hw. destruct (substring_split p.2 (join l)) as [-> ->].
  rewrite IH. by destruct p.
Qed.

Lemma runes_join l : Forall good l -> runes (join l) = l.*1.
Proof. intros Hl. unfold runes. rewrite decode_join by done. rewrite <- list_fmap_compose. done. Qed.

(** ** What every step keeps *)

(** A string of well-formed, printable runes. *)
Definition printable (p : Z * string) : Prop := good p /\ IsControl p.1 = false.
(** One that is no separator either. *)
Definition named (p : Z * string) : Prop := printable p /\ after_separator p.2 = None.

Lemma removeControl_printable s : exists l, removeControl s = join l /\ Forall printable l.
Proof.
  unfold removeControl. destruct (isClean s) eqn:E.
  - exists (pieces s). split; [by rewrite join_pieces|]. unfold isClean, ContainsFunc, runes in E. revert E. revert s.
    apply (pieces_ind (fun s => ValidString s && negb (existsb IsControl (decode s).*1) = true -> Forall printable (pieces s))).
    + intros _. change (Forall printable []). constructor.
    + intros r b t u Hd Hp Hg IH. unfold ValidString in *. rewrite Hp, Hd. cbn [forallb existsb fmap list_fmap fst snd].
      rewrite negb_orb, !andb_true_iff, !negb_true_iff. intros [[Hb Hv] [Hc Hr]]. constructor; [|by apply IH; rewrite Hv, Hr].
      split; [by apply Hg|done].
  - exists ((filter keeps (zip (decode s) (pieces s))).*2). split; [done|]. clear E. revert s. apply pieces_ind; [change (Forall printable []); constructor|].
    intros r b t u Hd Hp Hg IH. rewrite Hd, Hp. cbn [zip_with]. rewrite filter_cons. destruct (decide _) as [Hk|]; [|exact IH].
    rewrite fmap_cons. constructor; [|exact IH]. apply Is_true_true, andb_true_iff in Hk as [Hb Hc%negb_true_iff]. split; [by apply Hg|done].
Qed.

Lemma after_separator_app a b : after_separator (a +:+ b) =
  match after_separator b with Some t => Some t | None => (fun t => t +:+ b) <$> after_separator a end.
Proof.
  induction a as [|c a IH]; [change (after_separator b = match after_separator b with Some t => Some t | None => None end); by destruct (after_separator b)|].
  change (String c a +:+ b) with (String c (a +:+ b)). simpl. rewrite IH. destruct (after_separator b); [done|].
  destruct (after_separator a); [done|]. by destruct (is_separator c).
Qed.

Lemma after_separator_join l : after_separator (join l) = None <-> Forall (fun p => after_separator p.2 = None) l.
Proof.
  induction l as [|p l IH]; [by split|]. rewrite join_cons, after_separator_app, Forall_cons, <- IH.
  destruct (after_separator (join l)); [by split; [|intros [_ ?]]|]. destruct (after_separator p.2); simpl; [by split; [|intros [? _]]|by split].
Qed.

Lemma base_name_named l : Forall printable l -> exists l', base_name (join l) = join l' /\ Forall named l'.
Proof.
  unfold base_name. induction 1 as [|p l Hp Hl (l' & E & Hl')]; [exists []; by split|]. rewrite join_cons, after_separator_app.
  destruct (after_separator (join l)) as [t|] eqn:Et; [by exists l'|]. cbn [default] in E. cbn [from_option id] in E.
  assert (l' = l) as ->.
  { rewrite <- (pieces_join l'), <- E; [by apply pieces_join, Forall_impl with (1 := Hl); intros ? []|]. apply Forall_impl with (1 := Hl'). by intros ? [[? _] _]. }
  destruct Hp as [(Hd & Hw & [Hsep|Hsep]) Hc]; rewrite Hsep; cbn [fmap option_fmap option_map from_option id].
  - exists (p :: l). split; [by rewrite join_cons|]. constructor; [|done]. split; [|exact Hsep]. split; [|exact Hc]. split; [exact Hd|]. split; [exact Hw|by left].
  - exists l. by split.
Qed.

Lemma drop_space_Forall (P : Z * string -> Prop) l : Forall P l -> Forall P (drop_space l).
Proof. induction 1; simpl; [done|]. destruct (IsSpace _); [done|by constructor]. Qed.

Lemma named_good l : Forall named l -> Forall good l.
Proof. intros H. apply Forall_impl with (1 := H). by intros ? [[? _] _]. Qed.

Lemma TrimSpace_named l : Forall named l -> exists l', TrimSpace (join l) = join l' /\ Forall named l'.
Proof.
  intros Hl. eexists. split; [done|]. rewrite pieces_join by by apply named_good.
  apply Forall_reverse, drop_space_Forall, Forall_reverse, drop_space_Forall, Hl.
Qed.

Lemma truncate_join l n : Forall good l -> truncateRunes (join l) n = join (take n l).
Proof.
  intros Hl. unfold truncateRunes. rewrite runes_join, length_fmap, pieces_join by done.
  destruct (Nat.leb_spec (length l) n); [by rewrite take_ge|done].
Qed.

(** ** What comes out *)

(** A name that can be a file's: valid text, no control rune, no separator, not empty, not
    a directory, and not too long. *)
Definition safe_name (s : string) : Prop :=
  isClean s = true /\ after_separator s = None /\ (length (runes s) <= MaxFilenameRunes)%nat /\
  s <> ""%string /\ s <> "."%string /\ s <> ".."%string.

Lemma printable_clean l : Forall printable l -> isClean (join l) = true.
Proof.
  intros Hl. assert (Forall good l) as Hg by (apply Forall_impl with (1 := Hl); by intros ? []).
  unfold isClean, ValidString, ContainsFunc. rewrite runes_join, decode_join by done. apply andb_true_iff. split.
  - clear. induction l; [done|]. by rewrite fmap_cons.
  - apply negb_true_iff. clear Hg. induction Hl as [|p l [_ Hc] _ IH]; [done|]. rewrite fmap_cons. cbn [existsb]. by rewrite Hc, IH.
Qed.

Lemma short_runes l n : Forall good l -> (n < length l)%nat -> length (runes (join (take n l))) = n.
Proof.
  intros Hl Hn. rewrite runes_join by by apply Forall_take. rewrite length_fmap, length_take. lia.
Qed.

(** What [NormalizeFilename] works on before it shortens it. *)
Lemma cleaned_named s : let c := TrimSpace (base_name (removeControl s)) in
  exists l, (if decide (c = ""%string \/ c = "."%string \/ c = ".."%string) then "file"%string else c) = join l /\ Forall named l /\
    join l <> ""%string /\ join l <> "."%string /\ join l <> ".."%string.
Proof.
  intros c. destruct (removeControl_printable s) as (l0 & E0 & H0). destruct (base_name_named l0 H0) as (l1 & E1 & H1).
  destruct (TrimSpace_named l1 H1) as (l2 & E2 & H2). assert (c = join l2) as Ec by (unfold c; by rewrite E0, E1).
  destruct (decide _) as [|Hn].
  - destruct (removeControl_printable "file") as (k0 & F0 & G0). destruct (base_name_named k0 G0) as (k1 & F1 & G1).
    rewrite <- F0 in F1. change ("file"%string = join k1) in F1. exists k1. split; [exact F1|]. split; [exact G1|]. by rewrite <- F1.
  - exists l2. rewrite Ec in Hn. split; [done|]. split; [done|]. tauto.
Qed.

(** A file name that a caller supplies becomes a safe one, whatever its bytes: valid
    UTF-8 without control characters or path separators, at most 255 runes, never empty
    and never a directory.  A change is never silent, and a name that was safe already and
    has no white space at its ends is left exactly as it is. *)
Theorem filename_safe s :
  let '(name, warnings) := NormalizeFilename s in
  safe_name name /\ (warnings = [] -> name = s) /\ (safe_name s -> TrimSpace s = s -> name = s /\ warnings = []).
Proof.
  unfold NormalizeFilename. destruct (cleaned_named s) as (l & E & Hl & Hne). cbv zeta in E |- *. rewrite E.
  pose proof (named_good l Hl) as Hg. split; [|split].
  - rewrite truncate_join by done. assert (Forall named (take MaxFilenameRunes l)) as Ht by by apply Forall_take.
    split; [apply printable_clean; apply Forall_impl with (1 := Ht); by intros ? []|].
    split; [apply after_separator_join; apply Forall_impl with (1 := Ht); by intros ? []|].
    rewrite runes_join, length_fmap, length_take by by apply named_good. split; [lia|].
    destruct (decide (length l <= MaxFilenameRunes)%nat) as [Hs|Hs]; [by rewrite take_ge|].
    pose proof (short_runes l MaxFilenameRunes Hg ltac:(lia)) as Hr.
    split_and!; intros Ex; rewrite Ex in Hr; vm_compute in Hr; discriminate.
  - destruct (decide (join l <> s)) as [|Hs]; [done|]. destruct (decide (truncateRunes _ _ <> _)) as [|Ht]; [done|]. intros _.
    destruct (decide (truncateRunes (join l) MaxFilenameRunes = join l)) as [->|]; [|done]. by destruct (decide (join l = s)).
  - intros (Hc & Hsep & Hlen & H0 & H1 & H2) Htrim. revert E. unfold removeControl. rewrite Hc. unfold base_name. rewrite Hsep.
    cbn [default from_option id]. rewrite Htrim. rewrite decide_False by tauto. intros <-.
    assert (truncateRunes s MaxFilenameRunes = s) as ->; [|by rewrite !decide_False by tauto].
    unfold truncateRunes. by rewrite (proj2 (Nat.leb_le _ _)).
Qed.

(** An account's label is cleaned as a file name: an empty one becomes "file", and one with
    a slash loses what precedes it. *)
Lemma labels_as_names : NormalizeFilename "" = ("file", [WarnFilenameNormalized])%string /\
  NormalizeFilename "Home/Work" = ("Work", [WarnFilenameNormalized])%string.
Proof. by vm_compute. Qed.

(** Shortening may leave white space at the end, so cleaning twice is not cleaning once. *)
Lemma cleaned_twice : exists s, let t := (NormalizeFilename s).1 in (NormalizeFilename t).1 <> t.
Proof. exists (String.concat "" (replicate 254 "a"%string) +:+ " bc"). by vm_compute. Qed.

Example filename_safe_witness : safe_name (NormalizeFilename "../../etc/passwd").1 /\ (NormalizeFilename "../../etc/passwd").2 <> [] /\
  (NormalizeFilename "a.png").1 = "a.png"%string.
Proof.
  split; [|split].
  - exact (proj1 (filename_safe "../../etc/passwd")).
  - by vm_compute.
  - apply (filename_safe "a.png"); [|by vm_compute]. split; [reflexivity|]. split; [reflexivity|]. split; [apply Nat.leb_le; reflexivity|]. split_and!; discriminate.
Defined.
