(* ===== verification/UploadRuns.v ===== *)
(** * What a PUT of an upload's bytes does

    The streaming loop reads a body chunk by chunk and stops at the first byte too many;
    [body_of] is the body as a whole.  The theorem: whatever the chunks, with a disk that
    works a PUT succeeds exactly when the ticket is this upload's, the reservation is open
    and its authorization still stands, and the whole body is what was reserved; a bad
    body spends the reservation, and any other refusal leaves everything as it was. *)

From S2P Require Import Prelude GoStrings Limits Encoding Prog Rely Errors Capability Scopes AuthzStore Ids Pipeline Cursor Supervisor Durations Settings Tickets MediaCache Names Uploads.

Local Open Scope Z_scope.

(** ** Prefixes *)

Notation prefix_of n s := (String.substring 0 n s).

Lemma prefix_length n s : String.length (prefix_of n s) = Nat.min n (String.length s).
Proof. revert n. induction s as [|c s IH]; intros [|n]; simpl; [done..|]. by rewrite IH. Qed.

Lemma prefix_all n s : (String.length s <= n)%nat -> prefix_of n s = s.
Proof. revert n. induction s as [|c s IH]; intros [|n] Hn; simpl in *; [done|done|lia|]. f_equal. apply IH. lia. Qed.

Lemma prefix_app n a b : prefix_of n (a +:+ b) = prefix_of n a +:+ prefix_of (n - String.length a) b.
Proof.
  revert n. induction a as [|c a IH]; intros n.
  - change (prefix_of n b = prefix_of n "" +:+ prefix_of (n - 0) b). rewrite Nat.sub_0_r. by destruct n.
  - change (String c a +:+ b) with (String c (a +:+ b)). destruct n as [|n]; [by destruct b|]. cbn [String.substring String.length Nat.sub].
    rewrite IH. done.
Qed.

(** ** The body *)

Fixpoint body_of (stream : list (string * ReadEnd)) : string * bool :=
  match stream with
  | [] => (""%string, true)
  | (chunk, EOF) :: _ => (chunk, true)
  | (chunk, Broken) :: _ => (chunk, false)
  | (chunk, More) :: stream' => let '(rest, clean) := body_of stream' in (chunk +:+ rest, clean)
  end.

Definition healthy (disk : Disk) : Prop :=
  dsk_temp disk = true /\ (forall n, dsk_write disk n = true) /\ dsk_close disk = true /\ dsk_rename disk = true.

(** The body, so far and to come, judged as a whole. *)
Definition judged (size : Z) (all : string) (clean : bool) : Received :=
  if size <? Z.of_nat (String.length all) then RecvTooLong
  else if clean then RecvDone all (prefix_of contentSniffPrefixBytes all) else RecvBroken.

(** The loop does not see how the body was cut. *)
Lemma receive_judged size disk stream n data : (forall n, dsk_write disk n = true) -> Z.of_nat (String.length data) <= size ->
  receive size disk n data (prefix_of contentSniffPrefixBytes data) stream =
  let '(rest, clean) := body_of stream in judged size (data +:+ rest) clean.
Proof.
  intros Hw. revert n data. induction stream as [|[chunk e] stream IH]; intros n data Hlen.
  { simpl. unfold judged. by rewrite append_empty, (proj2 (Z.ltb_ge _ _)). }
  cbn [receive body_of]. rewrite (proj2 (Z.leb_gt _ _)) by lia.
  set (left := Z.to_nat (size + 1 - Z.of_nat (String.length data))). assert (1 <= left)%nat by lia.
  assert (forall rest clean, size < Z.of_nat (String.length data + String.length chunk) -> judged size (data +:+ (chunk +:+ rest)) clean = RecvTooLong) as Hbig.
  { intros rest clean Hbig. unfold judged. rewrite !string_length_app. by rewrite (proj2 (Z.ltb_lt _ _)) by lia. }
  destruct (decide (prefix_of left chunk = ""%string)) as [E|E].
  { assert (chunk = ""%string) as -> by (destruct chunk; [done|]; by destruct left; [lia|]). destruct e; cbn [judged].
    - rewrite IH by done. by destruct (body_of stream).
    - unfold judged. by rewrite append_empty, (proj2 (Z.ltb_ge _ _)).
    - unfold judged. by rewrite append_empty, (proj2 (Z.ltb_ge _ _)). }
  rewrite prefix_length. destruct (Z.ltb_spec size (Z.of_nat (String.length data + Nat.min left (String.length chunk)))) as [Hb|Hs].
  { assert (size < Z.of_nat (String.length data + String.length chunk)) as Hb' by lia. destruct e.
    - destruct (body_of stream) as [rest clean]. by rewrite Hbig.
    - rewrite <- (append_empty chunk). by rewrite Hbig.
    - rewrite <- (append_empty chunk). by rewrite Hbig. }
  rewrite Hw. cbn [negb]. rewrite (prefix_all left) by lia. rewrite prefix_length.
  assert (prefix_of contentSniffPrefixBytes data +:+ prefix_of (contentSniffPrefixBytes - Nat.min contentSniffPrefixBytes (String.length data)) chunk =
    prefix_of contentSniffPrefixBytes (data +:+ chunk)) as Esniff.
  { rewrite prefix_app. f_equal. f_equal. lia. }
  rewrite Esniff. assert (Z.of_nat (String.length (data +:+ chunk)) <= size) as Hfit by (rewrite string_length_app; lia). destruct e.
  - rewrite IH by exact Hfit. destruct (body_of stream). by rewrite append_assoc.
  - unfold judged. by rewrite (proj2 (Z.ltb_ge _ _)).
  - unfold judged. by rewrite (proj2 (Z.ltb_ge _ _)).
Qed.

(** ** What a PUT must satisfy *)

Section Put.
Context `{GoFmt} `{Lower} `{SHA256} `{Crypto} `{Sniffer} (signer stagingDir : string).

(** The body is what was reserved. *)
Definition acceptable (u : Upload) (data : string) : Prop :=
  Z.of_nat (String.length data) = up_SizeBytes u /\ (up_SHA256Declared u = ""%string \/ up_SHA256Declared u = sha256_hex data) /\
  ContentTypeContradicted (up_MimeType u) (DetectContentType (prefix_of contentSniffPrefixBytes data)) = false.

#[export] Instance acceptable_dec u data : Decision (acceptable u data).
Proof. unfold acceptable. apply _. Defined.

(** The authorization that reserved still stands and still has the scope. *)
Definition issued (s : Media) (authorizationID scope : string) : Prop :=
  exists a, ReadAuthorization authorizationID (md_auth s) = Ok a /\ au_Revoked a = false /\
    (au_ExpiresAtMS a = 0 \/ UnixMilli (md_now s) < au_ExpiresAtMS a) /\ scope ∈ Fields (au_Scopes a).

(** The ticket opens this reservation now. *)
Definition admissible (s : Media) (uploadID token : string) (u : Upload) : Prop :=
  VerifyTicket signer token KindUpload uploadID = Some (up_TokenHash u) /\ ReadUpload uploadID (md_uploads s) = Ok u /\
  up_State u = UploadReserved /\ up_Redemptions u < 1 /\ UnixMilli (md_now s) < up_ExpiresAtMS u /\
  issued s (up_AuthorizationID u) ScopeMessagesWrite.

Lemma verify_None u data : verify u data (prefix_of contentSniffPrefixBytes data) = None <-> acceptable u data.
Proof.
  unfold verify, acceptable. cbv zeta. destruct (Z.eqb_spec (Z.of_nat (String.length data)) (up_SizeBytes u)) as [E|E]; cbn [negb]; [|by split; [|intros [? _]]].
  destruct (decide (up_SHA256Declared u = ""%string)) as [E1|E1], (decide (up_SHA256Declared u = sha256_hex data)) as [E2|E2];
    rewrite ?(bool_decide_eq_true_2 _ E1), ?(bool_decide_eq_false_2 _ E1), ?(bool_decide_eq_true_2 _ E2), ?(bool_decide_eq_false_2 _ E2);
    cbn [negb andb]; (destruct (ContentTypeContradicted _ _); split; [done|intros (_ & ? & ?); done|intros _; tauto|done]) ||
    (split; [done|intros (_ & [?|?] & _); done]).
Qed.

Lemma check_issuing_run s authorizationID scope :
  run (checkIssuingAuthorization authorizationID scope) s = (s, true) /\ issued s authorizationID scope \/
  run (checkIssuingAuthorization authorizationID scope) s = (s, false) /\ ~ issued s authorizationID scope.
Proof.
  unfold checkIssuingAuthorization, issued. rewrite run_bind. unfold look, atomic. cbn [run].
  destruct (ReadAuthorization authorizationID (md_auth s)) as [a|e]; [|by right; split; [|intros (? & ? & _)]].
  destruct (au_Revoked a) eqn:Er; [right; split; [done|]; intros (? & [= <-] & ? & _); congruence|].
  rewrite run_bind. cbn [run]. destruct (Z.eqb_spec (au_ExpiresAtMS a) 0) as [E0|E0]; cbn [negb andb].
  2: destruct (Z.leb_spec (au_ExpiresAtMS a) (UnixMilli (md_now s))) as [El|El];
     [right; split; [done|]; intros (? & [= <-] & _ & [?|?] & _); [done|lia]|].
  all: destruct (existsb _ _) eqn:Ex; cbn [run mret Prog_ret]; [left|right]; (split; [done|]).
  1,3: apply existsb_exists in Ex as (x & Hx & ->%bool_decide_eq_true); exists a; (split; [done|]); (split; [done|]); (split; [auto|]);
    by apply list_elem_of_In.
  all: intros (? & [= <-] & _ & _ & Hin); apply not_true_iff_false in Ex; apply Ex, existsb_exists; exists scope;
    (split; [by apply list_elem_of_In|]); by apply bool_decide_eq_true.
Qed.

Lemma issued_dec s a scope : Decision (issued s a scope).
Proof.
  destruct (run (checkIssuingAuthorization a scope) s) as [s' []] eqn:E; [left|right];
    destruct (check_issuing_run s a scope) as [[E' ?]|[E' ?]]; rewrite E in E'; congruence.
Defined.

Lemma complete_run id path ok row s : md_uploads s !! id = Some row -> ul_state row = UploadReserved -> ul_redemptions row < 1 ->
  run (on_uploads (fun t => unit_result (CompleteUpload id path ok t))) s =
  (set_uploads (<[id := if ok then with_upload_state UploadComplete (ul_redemptions row + 1) (Some path) row
                        else with_upload_state UploadExpired (ul_redemptions row + 1) None row]> (md_uploads s)) s, Ok tt).
Proof.
  intros Hrow Hst Hred. unfold on_uploads, atomic. cbn [run]. unfold CompleteUpload. rewrite Hrow, bool_decide_eq_true_2 by done.
  by rewrite (proj2 (Z.leb_gt _ _)) by done.
Qed.

Lemma spend_run id e row s : md_uploads s !! id = Some row -> ul_state row = UploadReserved -> ul_redemptions row < 1 ->
  run (spend id e) s = (set_uploads (<[id := with_upload_state UploadExpired (ul_redemptions row + 1) None row]> (md_uploads s)) s, Err e).
Proof. intros Hrow Hst Hred. unfold spend. rewrite run_bind. by rewrite (complete_run id "" false row). Qed.

(** What a PUT that is let in does. *)
Definition filled (id : string) (row : UploadRow) (data : string) (s : Media) : Media :=
  set_uploads (<[id := with_upload_state UploadComplete (ul_redemptions row + 1) (Some (staged_path stagingDir id)) row]> (md_uploads s))
    (set_files <[staged_path stagingDir id := data]> s).
Definition spent (id : string) (row : UploadRow) (s : Media) : Media :=
  set_uploads (<[id := with_upload_state UploadExpired (ul_redemptions row + 1) None row]> (md_uploads s)) s.

Lemma fill_run id row disk stream s : healthy disk -> md_uploads s !! id = Some row -> ul_state row = UploadReserved -> ul_redemptions row < 1 ->
  0 <= ul_size_bytes row ->
  let '(data, clean) := body_of stream in
  let '(s', r) := run (fill stagingDir (scanUpload id row) disk stream) s in
  if decide (clean = true /\ acceptable (scanUpload id row) data)
  then s' = filled id row data s /\ r = Ok (mkUploadFilledDTO id UploadComplete (Z.of_nat (String.length data)) (sha256_hex data))
  else s' = spent id row s /\ exists e, r = Err e.
Proof.
  intros (Ht & Hw & Hc & Hr) Hrow Hst Hred Hsize. unfold fill. rewrite Ht, Hc, Hr. cbn [negb].
  assert (receive (up_SizeBytes (scanUpload id row)) disk 0 "" "" stream =
    let '(rest, clean) := body_of stream in judged (up_SizeBytes (scanUpload id row)) rest clean) as ->.
  { exact (receive_judged (ul_size_bytes row) disk stream 0 "" Hw Hsize). }
  destruct (body_of stream) as [data clean]. unfold judged.
  destruct (Z.ltb_spec (up_SizeBytes (scanUpload id row)) (Z.of_nat (String.length data))) as [Hbig|Hfit].
  { rewrite (spend_run id _ row) by done. rewrite decide_False by (intros (_ & Hlen & _); lia). split; [done|by eexists]. }
  destruct clean.
  2: { rewrite (spend_run id _ row) by done. rewrite decide_False by (by intros [? _]). split; [done|by eexists]. }
  destruct (verify (scanUpload id row) data _) as [e|] eqn:Ev.
  - rewrite (spend_run id _ row) by done. rewrite decide_False by (intros [_ Ha]; apply verify_None in Ha; congruence). split; [done|by eexists].
  - apply verify_None in Ev. unfold modify. rewrite run_bind. unfold atomic at 1. cbn [run]. rewrite run_bind.
    change (up_ID (scanUpload id row)) with id. rewrite (complete_run id (staged_path stagingDir id) true row) by done. cbn [run mret Prog_ret].
    by rewrite decide_True by done.
Qed.

Lemma acquire_run key s :
  run (acquire_slot key) s = match Acquire ConcurrencyUploads key (fresh (dom (cl_held (md_slots s)))) (md_slots s) with
                             | Ok c => (set_slots c s, Ok (fresh (dom (cl_held (md_slots s)))))
                             | Err e => (s, Err e) end.
Proof. unfold acquire_slot, atomic. cbn [run]. by destruct (Acquire _ _ _ _). Qed.

(** A slot that was just taken is given back. *)
Lemma release_acquired spec key h c c' : cl_held c !! h = None -> Acquire spec key h c = Ok c' -> cl_held (Release h c') = cl_held c.
Proof.
  intros Hh. unfold Acquire. destruct (_ || _); [done|]. intros [= <-]. unfold Release. cbn [cl_held]. rewrite lookup_insert_eq. cbn [cl_held].
  apply map_eq. intros k. destruct (decide (k = h)) as [->|Hk]; [by rewrite lookup_delete_eq|]. by rewrite lookup_delete_ne, lookup_insert_ne by done.
Qed.

(** There is room for one more upload of the authorization. *)
Definition room (s : Media) (authorizationID : string) : Prop := is_ok (Acquire ConcurrencyUploads authorizationID 0 (md_slots s)) = true.

Lemma room_acquire s a h : room s a <-> exists c, Acquire ConcurrencyUploads a h (md_slots s) = Ok c.
Proof. unfold room, Acquire. destruct (_ || _); simpl; split; [done|by intros [? ?]|by eexists|done]. Qed.

(** Everything but the counters of the limiter, whose slots are all given back. *)
Definition same_desk (s s' : Media) : Prop :=
  md_uploads s' = md_uploads s /\ md_files s' = md_files s /\ md_sent s' = md_sent s /\ md_used s' = md_used s /\
  cl_held (md_slots s') = cl_held (md_slots s).

(** The part of a PUT behind the ticket. *)
Lemma put_admitted disk stream uploadID token u row s : healthy disk -> CheckIDPrefix uploadID "upload_id" PrefixUpload = None -> token <> ""%string ->
  admissible s uploadID token u -> md_uploads s !! uploadID = Some row -> 0 <= ul_size_bytes row ->
  run (uploadContent signer stagingDir disk stream uploadID token) s =
  run (acquire_slot (up_AuthorizationID u) ≫= fun slot =>
       match slot with
       | Err e => mret (Err (translateAuthzError e))
       | Ok h => fill stagingDir u disk stream ≫= fun r => modify (fun s => set_slots (Release h (md_slots s)) s) ≫= fun _ => mret r
       end) s.
Proof.
  intros Hdisk Hpre Htok (Hv & Hread & Hst & Hred & Hexp & Hiss) Hrow Hsize. unfold uploadContent. rewrite Hpre, Hv, decide_False by done.
  rewrite run_bind. unfold look at 1, atomic at 1. cbn [run]. rewrite Hread, bool_decide_eq_true_2 by done. cbn [negb].
  rewrite run_bind. unfold look at 1, atomic at 1. cbn [run]. rewrite bool_decide_eq_true_2 by done.
  rewrite (proj2 (Z.leb_gt 1 _)), (proj2 (Z.leb_gt (up_ExpiresAtMS u) _)) by done. cbn [negb orb]. rewrite run_bind.
  destruct (check_issuing_run s (up_AuthorizationID u) ScopeMessagesWrite) as [[-> _]|[_ []]]; [|done]. done.
Qed.

(** Everything else is the one refusal. *)
Lemma put_refused disk stream uploadID token s : CheckIDPrefix uploadID "upload_id" PrefixUpload = None ->
  (token = ""%string \/ forall u, ~ admissible s uploadID token u) ->
  run (uploadContent signer stagingDir disk stream uploadID token) s = (s, Err ticketRefused).
Proof.
  intros Hpre Hno. unfold uploadContent. rewrite Hpre. destruct (decide (token = ""%string)) as [|Htok]; [done|]. destruct Hno as [|Hno]; [done|].
  destruct (VerifyTicket signer token KindUpload uploadID) as [hash|] eqn:Ev; [|done].
  rewrite run_bind. unfold look at 1, atomic at 1. cbn [run]. destruct (ReadUpload uploadID (md_uploads s)) as [u|] eqn:Er; [|done].
  destruct (bool_decide (up_TokenHash u = hash)) eqn:Eh; [|done]. bool_to_prop. cbn [negb]. rewrite run_bind. unfold look at 1, atomic at 1. cbn [run].
  destruct (bool_decide (up_State u = UploadReserved)) eqn:Es; [|done]. cbn [negb orb]. destruct (Z.leb_spec 1 (up_Redemptions u)); [done|].
  destruct (Z.leb_spec (up_ExpiresAtMS u) (UnixMilli (md_now s))); [done|]. cbn [orb]. rewrite run_bind.
  destruct (check_issuing_run s (up_AuthorizationID u) ScopeMessagesWrite) as [[-> Hi]|[-> _]]; [|done].
  bool_to_prop. exfalso. apply (Hno u). by rewrite <- Eh in Ev.
Qed.

(** C33: a PUT of an upload's bytes, exactly.  With a disk that works and whatever the
    chunks the body comes in, a PUT is let in exactly when its ticket verifies for this
    upload and is the one last minted, the reservation is open and unexpired, and the
    authorization that reserved still stands with its scope.  Then, if a slot is free, the
    body is staged and the reservation complete when the whole body is what was reserved,
    and the reservation spent with nothing staged when it is not.  In every other case
    the state is as it was, and but for the limiter there is one refusal. *)
Theorem put_exact disk stream uploadID token s : healthy disk -> CheckIDPrefix uploadID "upload_id" PrefixUpload = None ->
  (forall row, md_uploads s !! uploadID = Some row -> 0 <= ul_size_bytes row) ->
  let '(data, clean) := body_of stream in
  let '(s', r) := run (uploadContent signer stagingDir disk stream uploadID token) s in
  (forall u, token <> ""%string -> admissible s uploadID token u ->
     (room s (up_AuthorizationID u) -> exists row, md_uploads s !! uploadID = Some row /\
        if decide (clean = true /\ acceptable u data)
        then same_desk (filled uploadID row data s) s' /\
             r = Ok (mkUploadFilledDTO uploadID UploadComplete (Z.of_nat (String.length data)) (sha256_hex data))
        else same_desk (spent uploadID row s) s' /\ exists e, r = Err e) /\
     (~ room s (up_AuthorizationID u) -> s' = s /\ exists e, r = Err (translateAuthzError e))) /\
  (token = ""%string \/ (forall u, ~ admissible s uploadID token u) -> s' = s /\ r = Err ticketRefused).
Proof.
  intros Hdisk Hpre Hsize. destruct (body_of stream) as [data clean] eqn:Eb.
  destruct (run (uploadContent signer stagingDir disk stream uploadID token) s) as [s' r] eqn:Erun. split.
  2: { intros Hno. rewrite put_refused in Erun by done. by injection Erun as <- <-. }
  intros u Htok Hadm. pose proof Hadm as (_ & Hread & Hst & Hred & _). unfold ReadUpload in Hread.
  destruct (md_uploads s !! uploadID) as [row|] eqn:Erow; [|done]. injection Hread as <-.
  rewrite (put_admitted disk stream uploadID token (scanUpload uploadID row) row s) in Erun by auto. rewrite run_bind, acquire_run in Erun.
  set (h := fresh (dom (cl_held (md_slots s)))) in *.
  destruct (Acquire ConcurrencyUploads (up_AuthorizationID (scanUpload uploadID row)) h (md_slots s)) as [c|e] eqn:Ea.
  - split. 2: { intros Hno. exfalso. apply Hno, (room_acquire _ _ h). by eexists. }
    intros _. exists row. split; [done|]. cbn [run mret Prog_ret] in Erun. rewrite run_bind in Erun.
    pose proof (fill_run uploadID row disk stream (set_slots c s) Hdisk Erow Hst Hred (Hsize row eq_refl)) as Hf. rewrite Eb in Hf.
    destruct (run (fill stagingDir (scanUpload uploadID row) disk stream) (set_slots c s)) as [s1 r1]. unfold modify, atomic in Erun. cbn in Erun.
    injection Erun as <- <-. assert (cl_held (Release h c) = cl_held (md_slots s)) as Hheld.
    { eapply release_acquired; [|exact Ea]. apply not_elem_of_dom, is_fresh. }
    destruct (decide (clean = true /\ acceptable (scanUpload uploadID row) data)); destruct Hf as [-> Hr]; (split; [by split_and!|done]).
  - split. { intros (c & Hc)%(room_acquire _ _ h). congruence. }
    intros _. injection Erun as <- <-. split; [done|by eexists].
Qed.
End Put.

(** ** Witness: a body in two chunks *)

Definition demo_disk : Disk := mkDisk true (fun _ => true) true true.
Definition demo_authorizations : AuthDB :=
  mkAuthDB {["auth_1"%string := mkAuthorizationRow "admin" None "messages:read messages:write" "" None None None None 0 0]} ∅ ∅ ∅ ∅ ∅ ∅ [].
Definition demo_ticket : string * string := @MintTicket tagged_crypto _ "key" KindUpload "upl_1" "nonce".
Definition demo_upload_row : UploadRow := mkUploadRow "auth_1" None "a.png" "image/png" 4 (Some "abcd"%string) UploadReserved demo_ticket.2 0 None 9000 0.
Definition demo_desk : Media := mkMedia {["upl_1"%string := demo_upload_row]} ∅ NewConcurrencyLimiter demo_authorizations ∅ 0 {["upl_1"%string]} [].

Lemma demo_admissible : @admissible _ tagged_crypto "key" demo_desk "upl_1" demo_ticket.1 (scanUpload "upl_1" demo_upload_row).
Proof.
  split_and!; try (vm_compute; reflexivity). exists (scanAuthorization "auth_1" (mkAuthorizationRow "admin" None "messages:read messages:write" "" None None None None 0 0)).
  split_and!; [vm_compute; reflexivity..|left; reflexivity|]. apply (bool_decide_eq_true_1 _). vm_compute. reflexivity.
Qed.

Example put_exact_witness :
  (run (@uploadContent _ _ _ tagged_crypto _ "key" "/data/uploads" demo_disk [("ab", More); ("cd", EOF)]%string "upl_1" demo_ticket.1) demo_desk).2 =
  Ok (mkUploadFilledDTO "upl_1" UploadComplete 4 "abcd").
Proof.
  pose proof (@put_exact _ _ _ tagged_crypto _ "key" "/data/uploads" demo_disk [("ab", More); ("cd", EOF)]%string "upl_1" demo_ticket.1 demo_desk) as Hput.
  cbn [body_of] in Hput. destruct (run _ demo_desk) as [s' r]. cbn [snd].
  destruct Hput as [Hok _].
  - by split_and!.
  - by vm_compute.
  - intros row Hrow. assert (md_uploads demo_desk !! "upl_1"%string = Some demo_upload_row) as Hd by (vm_compute; reflexivity). rewrite Hd in Hrow. injection Hrow as <-. by vm_compute.
  - destruct (Hok _ ltac:(vm_compute; discriminate) demo_admissible) as [Hroom _]. destruct Hroom as (row & Hrow & Hd); [by vm_compute|].
    rewrite decide_True in Hd; [exact (proj2 Hd)|]. split; [done|]. split_and!; [by vm_compute|right; by vm_compute|by vm_compute].
Defined.

(** A type that a reservation accepts and the phone is not told. *)
Lemma supported_but_untyped : SupportedMIME "IMAGE/JPEG" = true /\ UploadMedia_type "IMAGE/JPEG" = 0.
Proof. by vm_compute. Qed.
