(* ===== verification/UploadPool.v ===== *)
(** * Uploads under every interleaving

    Any number of the upload routes run beside each other, each a program of atomic
    actions, while the clock moves and authorizations and settings change as they like.
    What a program relies on is what all of them guarantee ([Rel]): the table of
    reservations only makes the steps of Tickets.v, and [desk_ok] is kept.  The theorem: an
    upload is handed to the phone at most once, by the authorization that reserved it, with
    bytes that were verified against its reservation.  Two concurrent PUTs of one token are
    the exception to "complete means staged": the loser removes the winner's bytes. *)

From S2P Require Import Prelude GoStrings Limits Encoding Prog Rely Errors Capability Scopes AuthzStore Ids Pipeline Cursor Supervisor Durations Settings Tickets MediaCache Names Uploads UploadRuns.

Local Open Scope Z_scope.

(** ** The staged path of an ID names the ID *)

Definition plain_id (id : string) : Prop := plain_name id /\ has_byte SLASH id = false.

Lemma clean_components_snoc rooted done_ todo p : plain_name p -> clean_components rooted done_ (todo ++ [p]) = clean_components rooted done_ todo ++ [p].
Proof.
  intros (H0 & H1 & H2). revert done_. induction todo as [|q todo IH]; intros done_; cbn [app clean_components].
  - rewrite !bool_decide_eq_false_2 by done. cbn [orb]. by rewrite reverse_cons.
  - destruct (_ || _); [apply IH|]. destruct (bool_decide (q = "..")); [|apply IH]. destruct done_ as [|x l]; [by destruct rooted|]. by destruct (bool_decide (x = "..")).
Qed.

Lemma components_snoc d a : d <> ""%string -> plain_id a -> components (d +:+ String SLASH a) = components d ++ [a].
Proof.
  intros Hd [Hp Hs]. unfold components. rewrite Split_app_slash, (Split_clean SLASH a Hs), clean_components_snoc by done.
  by destruct d.
Qed.

Lemma staged_inj d a b : d <> ""%string -> plain_id a -> plain_id b -> staged_path d a = staged_path d b -> a = b.
Proof.
  intros Hd Ha Hb. unfold staged_path, JoinPath. rewrite !(decide_False (P := d = ""%string)) by done.
  rewrite (decide_False (P := a = ""%string)) by apply Ha. rewrite (decide_False (P := b = ""%string)) by apply Hb. intros E%(f_equal (Split SLASH)).
  rewrite !Split_Clean, !components_snoc in E by done.
  assert (forall x, IsAbs (d +:+ String SLASH x) = IsAbs d) as Habs by (intros x; by destruct d). rewrite !Habs in E.
  assert (forall x, bool_decide (components d ++ [x] = []) = false) as Hne by (intros x; apply bool_decide_eq_false_2; by destruct (components d)).
  rewrite !Hne in E. revert E. destruct (IsAbs d); intros E; [|by apply app_inj_tail in E as [_ ?]].
  apply (f_equal tail) in E. cbn [tail] in E. by apply app_inj_tail in E as [_ ?].
Qed.

Section Pool.
Context `{GoFmt} `{Lower} `{SHA256} `{Crypto} `{GoDuration} `{JSONScalars} `{!UploadIDs} `{!UploadIDLaws} `{Sniffer}.
Context (reg : Registry) (env : string -> string) (signer stagingDir : string).
Notation staged := (staged_path stagingDir).

(** ** The invariant *)

Record desk_ok (s : Media) : Prop := {
  desk_rows : uploads_ok (md_uploads s, md_used s);
  desk_plain id : id ∈ md_used s -> plain_id id;
  desk_paths id row p : md_uploads s !! id = Some row -> ul_staged_path row = Some p -> p = staged id;
  desk_files p data : md_files s !! p = Some data -> exists id, id ∈ md_used s /\ p = staged id /\
    forall row, md_uploads s !! id = Some row -> acceptable (scanUpload id row) data;
  desk_once : NoDup ((fun x => up_ID x.1.2) <$> md_sent s);
  desk_sent caller u data : (caller, u, data) ∈ md_sent s -> up_AuthorizationID u = caller /\ acceptable u data /\ up_ID u ∈ md_used s /\
    forall row, md_uploads s !! up_ID u = Some row -> ul_state row = UploadConsumed;
}.

(** What every action may rely on and guarantees. *)
Definition Rel (s s' : Media) : Prop :=
  desk_ok s -> desk_ok s' /\ rtc UploadStep (md_uploads s, md_used s) (md_uploads s', md_used s').

#[export] Instance Rel_po : PreOrder Rel.
Proof.
  split; [by intros s; split|]. intros s1 s2 s3 Ha Hb Hok. destruct (Ha Hok) as [Hok2 Hr]. destruct (Hb Hok2) as [Hok3 Hr'].
  split; [done|by etransitivity].
Qed.

Lemma acceptable_same id row row' data : reserved_as row row' -> acceptable (scanUpload id row) data <-> acceptable (scanUpload id row') data.
Proof. intros (_ & _ & _ & Em & Es & Eh & _). unfold acceptable, scanUpload. cbn. by rewrite Em, Es, Eh. Qed.

(** A change of the table along its steps, with no new file and nothing sent. *)
Lemma desk_moved s s' : desk_ok s -> rtc UploadStep (md_uploads s, md_used s) (md_uploads s', md_used s') ->
  (forall id, id ∈ md_used s' -> plain_id id) -> md_files s' ⊆ md_files s -> md_sent s' = md_sent s ->
  (forall id row p, md_uploads s' !! id = Some row -> ul_staged_path row = Some p -> p = staged id) -> desk_ok s'.
Proof.
  intros Hok Hsteps Hplain Hfiles Hsent Hpaths. destruct (upload_steps_ok _ _ Hsteps (desk_rows s Hok)) as [Hrows [Hused Hmv]].
  assert (forall id row, id ∈ md_used s -> md_uploads s' !! id = Some row -> exists row0, md_uploads s !! id = Some row0 /\ upload_le row0 row) as Hback.
  { intros id row Hid Hrow. specialize (Hmv id). cbn [fst snd] in Hmv. rewrite Hrow in Hmv. destruct (md_uploads s !! id) as [row0|]; [by exists row0|done]. }
  split; [done|done|done| |by rewrite Hsent; apply Hok|].
  - intros p data Hp. destruct (desk_files s Hok p data) as (id & Hid & -> & Hacc); [by eapply lookup_weaken|].
    exists id. split; [by apply Hused|]. split; [done|]. intros row Hrow. destruct (Hback id row Hid Hrow) as (row0 & Hr0 & Hle).
    apply (acceptable_same id row0); [apply Hle|by apply Hacc].
  - intros caller u data Hin. rewrite Hsent in Hin. destruct (desk_sent s Hok _ _ _ Hin) as (Ha & Hacc & Hid & Hst).
    split; [done|]. split; [done|]. split; [by apply Hused|]. intros row Hrow. destruct (Hback _ row Hid Hrow) as (row0 & Hr0 & [_ Hle _]).
    rewrite (Hst row0 Hr0) in Hle. apply rtc_inv in Hle as [->|(y & Hx & _)]; [done|inversion Hx].
Qed.

Lemma rel_moved s s' : (desk_ok s -> rtc UploadStep (md_uploads s, md_used s) (md_uploads s', md_used s') /\
    (forall id, id ∈ md_used s' -> plain_id id) /\ md_files s' ⊆ md_files s /\ md_sent s' = md_sent s /\
    forall id row p, md_uploads s' !! id = Some row -> ul_staged_path row = Some p -> p = staged id) -> Rel s s'.
Proof. intros Hs Hok. destruct (Hs Hok) as (? & ? & ? & ? & ?). split; [by eapply desk_moved|done]. Qed.

(** What does not touch the reservations, the files or the log. *)
Lemma rel_same s s' : md_uploads s' = md_uploads s -> md_files s' = md_files s -> md_used s' = md_used s -> md_sent s' = md_sent s -> Rel s s'.
Proof. intros Eu Ef Eused Es. apply rel_moved. intros Hok. rewrite Eu, Ef, Eused, Es. split_and!; try done; apply Hok. Qed.

Lemma rel_remove s p : Rel s (set_files (delete p) s).
Proof. apply rel_moved. intros Hok. split_and!; try done; [apply Hok|apply delete_subseteq|apply Hok]. Qed.

(** One statement on the table. *)
Lemma rel_table s t : UploadStep (md_uploads s, md_used s) (t, md_used s) ->
  (forall id row p, t !! id = Some row -> ul_staged_path row = Some p -> md_uploads s !! id = None \/ p = staged id \/
     exists row0, md_uploads s !! id = Some row0 /\ ul_staged_path row0 = Some p) -> Rel s (set_uploads t s).
Proof.
  intros Hst Hpath. apply rel_moved. intros Hok. split; [by apply rtc_once|]. split; [apply Hok|]. split; [done|]. split; [done|].
  intros id row p Hrow Hp. change (t !! id = Some row) in Hrow. destruct (Hpath id row p Hrow Hp) as [Hno|[|(row0 & Hr0 & Hp0)]]; [|done|by eapply desk_paths].
  destruct (upload_step_ok _ _ Hst (desk_rows s Hok)) as [Hok' [_ Hmv]]. specialize (Hmv id). cbn [fst snd] in Hmv. rewrite Hno, Hrow in Hmv.
  destruct Hmv. by eapply (Hok' id row).
Qed.

Lemma rel_token s id hash t : SetUploadToken id hash (md_uploads s) = Ok t -> Rel s (set_uploads t s).
Proof.
  intros E. apply rel_table; [by eapply up_token|]. unfold SetUploadToken in E. intros k row p Hrow Hp.
  destruct (md_uploads s !! id) as [row0|] eqn:E0; [destruct (token_taken _ _ _); [done|]|]; injection E as <-; [|by right; right; exists row].
  rewrite lookup_insert in Hrow. case_decide; [|by right; right; exists row]. subst k. injection Hrow as <-. right; right. by exists row0.
Qed.

Lemma rel_complete s id path ok t : (ok = true -> path = staged id) -> CompleteUpload id path ok (md_uploads s) = Ok t -> Rel s (set_uploads t s).
Proof.
  intros Hpath E. apply rel_table; [by eapply up_complete|]. unfold CompleteUpload in E. intros k row p Hrow Hp.
  destruct (md_uploads s !! id) as [row0|] eqn:E0; [|done]. destruct (_ || _); [done|]. injection E as <-.
  rewrite lookup_insert in Hrow. case_decide; [|by right; right; exists row]. subst k. injection Hrow as <-. right; left.
  destruct ok; [|done]. injection Hp as <-. by apply Hpath.
Qed.

Lemma rel_delete s id caller : Rel s (set_uploads (DeleteUpload id caller (md_uploads s)) s).
Proof.
  apply rel_table; [apply up_delete|]. intros k row p Hrow Hp. right; right. exists row. split; [|done]. revert Hrow.
  unfold DeleteUpload. destruct (md_uploads s !! id); [|done]. destruct (bool_decide _); [|done]. by intros [_ ?]%lookup_delete_Some.
Qed.

(** ** What a program that read a reservation knows from then on *)

Definition knows (u : Upload) (s : Media) : Prop :=
  desk_ok s /\ up_ID u ∈ md_used s /\ exists row0, u = scanUpload (up_ID u) row0 /\ forall row, md_uploads s !! up_ID u = Some row -> upload_le row0 row.

Lemma moved_back s s' id row : desk_ok s -> Rel s s' -> id ∈ md_used s -> md_uploads s' !! id = Some row ->
  exists row0, md_uploads s !! id = Some row0 /\ upload_le row0 row.
Proof.
  intros Hok HR Hid Hrow. destruct (HR Hok) as [_ Hsteps]. destruct (upload_steps_ok _ _ Hsteps (desk_rows s Hok)) as [_ [_ Hmv]].
  specialize (Hmv id). cbn [fst snd] in Hmv. rewrite Hrow in Hmv. destruct (md_uploads s !! id) as [row0|]; [by exists row0|done].
Qed.

Lemma rel_used s s' : desk_ok s -> Rel s s' -> md_used s ⊆ md_used s'.
Proof. intros Hok HR. destruct (HR Hok) as [_ Hsteps]. by destruct (upload_steps_ok _ _ Hsteps (desk_rows s Hok)) as [_ [Hu _]]. Qed.

Lemma knows_rel u s s' : knows u s -> Rel s s' -> knows u s'.
Proof.
  intros (Hok & Hid & row0 & Eu & Hle) HR. split; [by apply HR|]. split; [by eapply rel_used|]. exists row0. split; [done|].
  intros row Hrow. destruct (moved_back s s' _ row Hok HR Hid Hrow) as (row1 & H1' & Hle1). etransitivity; [by apply Hle|done].
Qed.

Lemma knows_read s id u : desk_ok s -> ReadUpload id (md_uploads s) = Ok u -> knows u s /\ up_ID u = id /\ exists row, md_uploads s !! id = Some row /\ u = scanUpload id row.
Proof.
  intros Hok. unfold ReadUpload. destruct (md_uploads s !! id) as [row|] eqn:Er; [|done]. intros [= <-]. split; [|by split; [|exists row]].
  split; [done|]. split; [by eapply (desk_rows s Hok id row)|]. exists row. split; [done|]. intros row' Hr. cbn in Hr. rewrite Er in Hr. by injection Hr as <-.
Qed.

(** Verified bytes put in place. *)
Lemma rel_staged s u data : knows u s -> acceptable u data -> Rel s (set_files <[staged (up_ID u) := data]> s).
Proof.
  intros (_ & Hid & row0 & Eu & Hle) Hacc Hok. split; [|done]. split; try apply Hok. intros p d. cbn [md_files set_files].
  rewrite lookup_insert. case_decide as Hp; [|by apply Hok]. intros [= <-]. exists (up_ID u). split; [done|]. split; [done|].
  intros row Hrow. apply (acceptable_same _ row0); [by apply Hle|]. by rewrite <- Eu.
Qed.

(** ** The programs *)

Notation safe := (steady Rel).

Lemma safe_on_uploads {C} (f : gmap string UploadRow -> Result MediaError (gmap string UploadRow)) (k : Result MediaError () -> Prog Media C) s :
  (forall s1 t, Rel s s1 -> f (md_uploads s1) = Ok t -> Rel s1 (set_uploads t s1)) -> (forall r s2, Rel s s2 -> safe (k r) s2) ->
  safe (on_uploads (fun t => unit_result (f t)) ≫= k) s.
Proof.
  intros Hf Hk. apply steady_act. intros s1 HR. destruct (f (md_uploads s1)) as [t|e] eqn:E; simpl.
  - pose proof (Hf s1 t HR E) as HR1. split; [done|]. apply Hk. by etransitivity.
  - split; [reflexivity|]. by apply Hk.
Qed.

Lemma safe_dto u token {C} (k : uploadDTO -> Prog Media C) s : (forall dto s1, Rel s s1 -> safe (k dto) s1) -> safe (uploadDTOFor u token ≫= k) s.
Proof. intros Hk s1 HR. split; [reflexivity|]. by apply Hk. Qed.

(** The row of a new reservation. *)
Lemma rel_reserve s id u t u' : desk_ok s -> id = draw_upload (md_used s) -> up_ID u = id -> ReserveUpload (UnixMilli (md_now s)) "" u (md_uploads s) = Ok (t, u') ->
  Rel s (mkMedia t (md_files s) (md_slots s) (md_auth s) (md_settings s) (md_now s) ({[id]} ∪ md_used s) (md_sent s)).
Proof.
  intros Hok -> Eid E. pose proof (draw_plain (md_used s)) as Hplain. pose proof (draw_fresh (md_used s)) as Hfresh. set (id := draw_upload (md_used s)) in *.
  assert ((if decide (up_ID u = ""%string) then ""%string else up_ID u) = id) as Edraw by (rewrite Eid, decide_False; [done|apply Hplain]).
  assert (UploadStep (md_uploads s, md_used s) (t, {[up_ID u']} ∪ md_used s)) as Hst by (eapply up_reserve; [by rewrite Edraw|exact E]).
  unfold ReserveUpload in E. rewrite Edraw in E. destruct (_ || _); [done|]. injection E as <- <-. cbn [up_ID] in Hst.
  apply rel_moved. intros _. split; [by apply rtc_once|]. split.
  { intros k [->%elem_of_singleton|Hk]%elem_of_union; [done|by apply Hok]. }
  split; [done|]. split; [done|]. intros k row p Hrow Hp. cbn [md_uploads] in Hrow. rewrite lookup_insert in Hrow.
  case_decide; [by injection Hrow as <-|by eapply desk_paths].
Qed.

Lemma safe_create nonce caller header body s : desk_ok s -> safe (uploadsCreate reg env signer nonce caller header body) s.
Proof.
  intros Hok. unfold uploadsCreate. destruct (create_checks header body) as [[key size]|e]; [|apply steady_ret]. apply (steady_look Rel). intros s1 R1.
  destruct (_ <? size); [apply steady_ret|]. apply (steady_look Rel). intros s2 R2. apply (steady_look Rel). intros s3 R3.
  destruct (UploadByIdempotencyKey caller key (md_uploads s3)) as [u|[]]; try apply steady_ret.
  - destruct (MintTicket signer KindUpload (up_ID u) nonce) as [value hash]. apply safe_on_uploads; [intros s4 t _; apply rel_token|].
    intros [[]|e] s4 R4; [|apply steady_ret]. apply safe_dto. intros dto s5 R5. apply steady_ret.
  - apply steady_act. intros s4 R4. assert (desk_ok s4) as Hok4 by (apply R4, R3, R2, R1, Hok).
    destruct (MintTicket signer KindUpload (draw_upload (md_used s4)) nonce) as [value hash].
    match goal with |- context [ReserveUpload ?n ?r ?u ?t] => destruct (ReserveUpload n r u t) as [[t' u']|e] eqn:E end; cbn [fst snd].
    + split; [refine (rel_reserve s4 _ _ _ _ Hok4 eq_refl _ E); reflexivity|]. apply safe_dto. intros dto s5 R5. apply steady_ret.
    + split; [reflexivity|apply steady_ret].
Qed.

(** The caller's own reservation, for whatever uses it. *)
Lemma safe_own caller uploadID {C} (k : Result ApiFields Upload -> Prog Media C) s : (forall r s1, Rel s s1 -> safe (k r) s1) -> safe (ownUpload caller uploadID ≫= k) s.
Proof.
  intros Hk. unfold ownUpload. destruct (CheckIDPrefix _ _ _); [by apply Hk|]. intros s1 HR. split; [reflexivity|].
  change (safe ((match ReadUpload uploadID (md_uploads s1) with
    | Err _ => mret (Err (NotFound "upload"))
    | Ok u => if decide (up_AuthorizationID u = caller) then mret (Ok u) else mret (Err (NotFound "upload")) end) ≫= k) s1).
  destruct (ReadUpload uploadID (md_uploads s1)) as [u|e]; [destruct (decide _)|]; by apply Hk.
Qed.

Lemma safe_get caller uploadID s : safe (uploadsGet caller uploadID) s.
Proof. apply safe_own. intros [u|e] s1 HR; [|apply steady_ret]. apply safe_dto. intros dto s2 R2. apply steady_ret. Qed.

Lemma safe_del caller uploadID s : safe (uploadsDelete caller uploadID) s.
Proof.
  apply safe_own. intros [u|e] s1 HR; [|apply steady_ret]. apply steady_modify. intros s2 R2. split; [apply rel_delete|].
  destruct (decide _); [apply steady_ret|]. apply steady_modify. intros s3 R3. split; [apply rel_remove|apply steady_ret].
Qed.

Lemma safe_checkIssuing a sc {C} (k : bool -> Prog Media C) s : (forall b s1, Rel s s1 -> safe (k b) s1) -> safe (checkIssuingAuthorization a sc ≫= k) s.
Proof.
  intros Hk s1 R1. split; [reflexivity|]. cbv beta.
  change (safe ((match ReadAuthorization a (md_auth s1) with
    | Err _ => mret false
    | Ok a => if au_Revoked a then mret false else look md_now ≫= fun now =>
        if negb (au_ExpiresAtMS a =? 0) && (au_ExpiresAtMS a <=? UnixMilli now) then mret false
        else mret (existsb (fun x => bool_decide (x = sc)) (Fields (au_Scopes a))) end) ≫= k) s1).
  destruct (ReadAuthorization a (md_auth s1)) as [row|e]; [|by apply Hk]. destruct (au_Revoked row); [by apply Hk|].
  intros s2 R2. split; [reflexivity|]. simpl. destruct (_ && _); apply Hk; by etransitivity.
Qed.

Lemma safe_spend id e s : safe (spend id e) s.
Proof. apply safe_on_uploads; [intros s1 t _; by apply rel_complete|]. intros r s2 _. apply steady_ret. Qed.

Lemma receive_sniff size disk stream n data rest sniff' : receive size disk n data (prefix_of contentSniffPrefixBytes data) stream = RecvDone rest sniff' ->
  sniff' = prefix_of contentSniffPrefixBytes rest.
Proof.
  revert n data. induction stream as [|[chunk e] stream IH]; intros n data; cbn [receive]; [by intros [= <- <-]|].
  destruct (_ <=? 0); [by intros [= <- <-]|]. set (c := String.substring 0 _ chunk). destruct (decide (c = ""%string)).
  { destruct e; [apply IH|by intros [= <- <-]|done]. }
  destruct (_ <? _); [done|]. destruct (negb _); [done|].
  assert (prefix_of contentSniffPrefixBytes data +:+ prefix_of (contentSniffPrefixBytes - String.length (prefix_of contentSniffPrefixBytes data)) c =
    prefix_of contentSniffPrefixBytes (data +:+ c)) as Esniff.
  { rewrite prefix_app, prefix_length. f_equal. f_equal. lia. }
  rewrite Esniff. destruct e; [apply IH|by intros [= <- <-]|done].
Qed.

Lemma safe_fill u disk stream s : knows u s -> safe (fill stagingDir u disk stream) s.
Proof.
  intros Hu. unfold fill. destruct (negb _); [apply steady_ret|].
  destruct (receive (up_SizeBytes u) disk 0 "" "" stream) as [data sniff| | |] eqn:Er; [|apply safe_spend|apply safe_spend|apply steady_ret].
  apply (receive_sniff _ _ _ 0 "") in Er as ->. destruct (negb _); [apply steady_ret|]. destruct (verify u data _) eqn:Ev; [apply safe_spend|].
  apply verify_None in Ev. destruct (negb _); [apply steady_ret|]. apply steady_modify. intros s1 R1. split; [apply rel_staged; [by eapply knows_rel|done]|].
  apply safe_on_uploads; [intros s2 t _; by apply rel_complete|]. intros [[]|e] s2 _; [apply steady_ret|]. apply steady_modify.
  intros s3 _. split; [apply rel_remove|apply steady_ret].
Qed.

Lemma safe_put disk stream uploadID token s : desk_ok s -> safe (uploadContent signer stagingDir disk stream uploadID token) s.
Proof.
  intros Hok. unfold uploadContent. destruct (CheckIDPrefix _ _ _); [apply steady_ret|]. destruct (decide _); [apply steady_ret|].
  destruct (VerifyTicket _ _ _ _) as [hash|]; [|apply steady_ret]. apply (steady_look Rel). intros s1 R1.
  destruct (ReadUpload uploadID (md_uploads s1)) as [u|e] eqn:Eu; [|apply steady_ret]. destruct (knows_read s1 _ u (proj1 (R1 Hok)) Eu) as [Hu _].
  destruct (negb _); [apply steady_ret|]. apply (steady_look Rel). intros s2 R2. destruct (_ || _); [apply steady_ret|].
  apply safe_checkIssuing. intros [] s3 R3; [|apply steady_ret]. apply steady_act. intros s4 R4.
  assert (Rel s1 s4) as R14 by (transitivity s2; [done|]; by transitivity s3). pose proof (knows_rel u s1 s4 Hu R14) as Hu4.
  cbv zeta. destruct (Acquire ConcurrencyUploads _ _ _) as [c|e]; cbn [fst snd]; [|by split; [|apply steady_ret]].
  assert (Rel s4 (set_slots c s4)) as R5 by (by apply rel_same). split; [done|]. pose proof (knows_rel u _ _ Hu4 R5) as Hu5.
  apply (steady_bind Rel); [by apply safe_fill|]. intros r s6 _. apply steady_modify. intros s7 _. split; [by apply rel_same|apply steady_ret].
Qed.

(** The bytes read from a reservation's staged path are its bytes, or the reservation has
    gone for good. *)
Lemma staged_bytes u row s1 s2 data : stagingDir <> ""%string -> desk_ok s1 -> md_uploads s1 !! up_ID u = Some row -> u = scanUpload (up_ID u) row ->
  up_StagedPath u <> ""%string -> Rel s1 s2 -> md_files s2 !! up_StagedPath u = Some data ->
  forall row', md_uploads s2 !! up_ID u = Some row' -> acceptable u data.
Proof.
  intros Hdir Hok Hrow Eu Hpath HR Hfile row' Hrow'. assert (up_StagedPath u = staged (up_ID u)) as Ep.
  { apply (desk_paths s1 Hok _ row); [done|]. rewrite Eu in Hpath |- *. cbn in Hpath |- *. by destruct (ul_staged_path row). }
  destruct (HR Hok) as [Hok2 _]. destruct (desk_files s2 Hok2 _ _ Hfile) as (id & Hid & Ei & Hacc).
  assert (up_ID u ∈ md_used s1) as Hu by exact (proj2 (desk_rows s1 Hok _ _ Hrow)).
  assert (up_ID u = id) as <-.
  { eapply (staged_inj stagingDir); [done| | |by rewrite <- Ei, Ep]; eapply desk_plain; try exact Hok2; [exact (rel_used s1 s2 Hok HR _ Hu)|done]. }
  destruct (moved_back s1 s2 _ row' Hok HR Hu Hrow') as (row1 & H1' & [Hle _ _]). rewrite Hrow in H1'. injection H1' as <-.
  rewrite Eu. apply (acceptable_same _ row row'); [done|]. by apply Hacc.
Qed.

(** The hand-over. *)
Lemma rel_consume s u t caller data : knows u s -> up_AuthorizationID u = caller -> (forall row, md_uploads s !! up_ID u = Some row -> acceptable u data) ->
  ConsumeUpload (up_ID u) (md_uploads s) = Ok t ->
  Rel s (mkMedia t (md_files s) (md_slots s) (md_auth s) (md_settings s) (md_now s) (md_used s) (md_sent s ++ [(caller, u, data)])).
Proof.
  intros (_ & Hid & _) Hcaller Hacc E Hok. unfold ConsumeUpload in E. destruct (md_uploads s !! up_ID u) as [row|] eqn:Er; [|done].
  destruct (bool_decide (ul_state row = UploadComplete)) eqn:Es; [|done]. bool_to_prop.
  assert (Rel s (set_uploads t s)) as HR.
  { apply rel_table; [apply (up_consume _ _ (up_ID u)); unfold ConsumeUpload; by rewrite Er, bool_decide_eq_true_2|].
    injection E as <-. intros k row' p Hrow Hp. rewrite lookup_insert in Hrow. right; right. case_decide; [subst k; injection Hrow as <-; by exists row|by exists row']. }
  destruct (HR Hok) as [Hok' Hsteps]. split; [|exact Hsteps]. injection E as <-. split; try apply Hok'; cbn [md_sent md_uploads md_used] in *.
  - rewrite fmap_app. apply NoDup_app. split; [apply Hok|]. split; [|apply NoDup_singleton].
    intros x ([[c u'] d] & -> & Hin)%list_elem_of_fmap Hx. cbn in Hx. apply list_elem_of_singleton in Hx. cbn in Hx.
    destruct (desk_sent s Hok _ _ _ Hin) as (_ & _ & _ & Hst). rewrite Hx in Hst. specialize (Hst row Er). congruence.
  - intros c u' d [Hin|Hin]%elem_of_app; [by apply (desk_sent _ Hok')|]. apply list_elem_of_singleton in Hin. injection Hin as -> -> ->.
    split; [done|]. split; [by apply (Hacc row)|]. split; [done|]. intros row' Hrow. rewrite lookup_insert_eq in Hrow. by injection Hrow as <-.
Qed.

Lemma safe_send answer caller uploadID s : stagingDir <> ""%string -> desk_ok s -> safe (consumeUploadForSend answer caller uploadID) s.
Proof.
  intros Hdir Hok. unfold consumeUploadForSend. destruct (CheckIDPrefix _ _ _); [apply steady_ret|]. apply (steady_look Rel). intros s1 R1.
  destruct (ReadUpload uploadID (md_uploads s1)) as [u|e] eqn:Eu; [|apply steady_ret].
  destruct (knows_read s1 _ u (proj1 (R1 Hok)) Eu) as (Hu & Ei & row & Hrow & Erow). destruct (decide (up_AuthorizationID u <> caller)) as [|Hcaller]; [apply steady_ret|].
  destruct (negb (bool_decide (up_State u = UploadComplete)) || bool_decide (up_StagedPath u = ""%string)) eqn:Est; [apply steady_ret|].
  apply orb_false_iff in Est as [_ Hpath%bool_decide_eq_false]. apply (steady_look Rel). intros s2 R2.
  destruct (md_files s2 !! up_StagedPath u) as [data|] eqn:Ef; [|apply steady_ret]. rewrite <- Ei in Hrow, Erow.
  pose proof (staged_bytes u row s1 s2 data Hdir (proj1 Hu) Hrow Erow Hpath R2 Ef) as Hacc2.
  pose proof (knows_rel u s1 s2 Hu R2) as Hu2. apply steady_act. intros s3 R3. pose proof (knows_rel u s2 s3 Hu2 R3) as Hu3.
  assert (forall row', md_uploads s3 !! up_ID u = Some row' -> acceptable u data) as Hacc3.
  { intros row' Hr. destruct (moved_back s2 s3 _ row' (proj1 Hu2) R3 (proj1 (proj2 Hu2)) Hr) as (row0 & Hr0 & _). by eapply Hacc2. }
  destruct (ConsumeUpload (up_ID u) (md_uploads s3)) as [t|e] eqn:Ec; cbn [fst snd]; [|by split; [|apply steady_ret]].
  split; [apply rel_consume; [done|by apply dec_stable|done|done]|]. destruct answer as [ref|e]; [|apply steady_ret].
  apply steady_modify. intros s4 _. split; [apply rel_remove|apply steady_ret].
Qed.

(** ** The pool *)

(** What a request may run, and what moves beside the requests: the clock, the
    authorizations, the settings, the slots. *)
Inductive Route : Prog Media () -> Prop :=
| route_create nonce caller header body : Route (uploadsCreate reg env signer nonce caller header body ≫= fun _ => mret tt)
| route_get caller uploadID : Route (uploadsGet caller uploadID ≫= fun _ => mret tt)
| route_delete caller uploadID : Route (uploadsDelete caller uploadID ≫= fun _ => mret tt)
| route_put disk stream uploadID token : Route (uploadContent signer stagingDir disk stream uploadID token ≫= fun _ => mret tt)
| route_send answer caller uploadID : Route (consumeUploadForSend answer caller uploadID ≫= fun _ => mret tt).

Definition Outside (s s' : Media) : Prop :=
  md_uploads s' = md_uploads s /\ md_files s' = md_files s /\ md_used s' = md_used s /\ md_sent s' = md_sent s.

(** A desk nothing was ever reserved at. *)
Definition fresh_desk (s : Media) : Prop := md_uploads s = ∅ /\ md_files s = ∅ /\ md_used s = ∅ /\ md_sent s = [].

Lemma fresh_ok s : fresh_desk s -> desk_ok s.
Proof.
  intros (Eu & Ef & Eused & Es). split; rewrite ?Eu, ?Ef, ?Eused, ?Es.
  - intros id row Hr. cbn in Hr. by rewrite lookup_empty in Hr.
  - set_solver.
  - intros id row p Hr. by rewrite lookup_empty in Hr.
  - intros p data Hp. by rewrite lookup_empty in Hp.
  - constructor.
  - intros caller u data Hin. by apply not_elem_of_nil in Hin.
Qed.

Lemma route_safe p s : stagingDir <> ""%string -> Route p -> desk_ok s -> safe p s.
Proof. intros Hdir Hp Hok. destruct Hp; (apply (steady_bind Rel); [ |intros; apply steady_ret]); auto using safe_create, safe_get, safe_del, safe_put, safe_send. Qed.

End Pool.

(** ** Witness: reserved, filled, sent, and not sent again *)

Definition demo_body : uploadCreateBody := mkUploadCreateBody "a.png" "image/png" (Some 4) "".
Definition empty_desk : Media := mkMedia ∅ ∅ NewConcurrencyLimiter demo_authorizations ∅ 0 ∅ [].
Definition demo_id : string := draw_upload ∅.
Definition demo_token : string := (@MintTicket tagged_crypto _ "key" KindUpload demo_id "nonce").1.
Definition demo_reserve := @uploadsCreate _ _ _ tagged_crypto _ _ _ empty_registry (fun _ => ""%string) "key" "nonce" "auth_1" "" demo_body.
Definition demo_put := @uploadContent _ _ _ tagged_crypto _ "key" "/data/uploads" demo_disk [("ab", More); ("cd", EOF)]%string demo_id demo_token.
Definition demo_send := consumeUploadForSend (Ok "ref"%string) "auth_1" demo_id.
Definition discarding {A} (p : Prog Media A) : Prog Media () := p ≫= fun _ => mret tt.
Definition demo_desk_end : Media := (run (discarding demo_send) (run (discarding demo_send) (run (discarding demo_put) (run (discarding demo_reserve) empty_desk).1).1).1).1.

Lemma pool_spawn {S} starts env (p : Prog S ()) pool s : starts p -> rtc (PoolStep starts env) (pool, s) (pool ++ [Ret tt], (run p s).1).
Proof.
  intros Hp. eapply rtc_l; [by apply pool_start|].
  replace (pool ++ [Ret tt]) with (<[length pool := Ret tt]> (pool ++ [p])) by by rewrite insert_app_r_alt, Nat.sub_diag.
  apply pool_run. by rewrite lookup_app_r, Nat.sub_diag.
Qed.


(** ** What two PUTs of one token do to each other *)

Notation PutStep := (PoolStep (fun _ : Prog Media () => False) (fun _ _ : Media => False)).

(** Both are let in, the second fills the reservation, and the first, refused because it
    came late, removes the bytes: the reservation is complete and has nothing to send. *)
Example racing_puts :
  exists pool s, rtc PutStep ([discarding demo_put; discarding demo_put], (run (discarding demo_reserve) empty_desk).1) (pool, s) /\
    (fun row => (ul_state row, ul_staged_path row)) <$> md_uploads s !! demo_id = Some (UploadComplete, Some "/data/uploads/upl_0"%string) /\
    md_files s = ∅ /\
    (run demo_send s).2 = Err (New CodeInvalidRequest "that upload's staged bytes are gone; reserve again").
Proof.
  eexists _, _. split.
  - etransitivity; [by apply (pool_skip _ _ 5 0)|]. etransitivity; [by apply (pool_run _ _ 1)|]. by apply (pool_run _ _ 0).
  - by vm_compute.
Qed.

(** A phone that refuses the bytes: the reservation is spent all the same. *)
Example refused_send_spends : let s := (run (discarding demo_put) (run (discarding demo_reserve) empty_desk).1).1 in
  (fun row => ul_state row) <$> md_uploads (run (consumeUploadForSend (Err (EOther "no answer")) "auth_1" demo_id) s).1 !! demo_id = Some UploadConsumed.
Proof. by vm_compute. Qed.
