(* ===== verification/Downloads.v ===== *)
(** * Attachments over HTTP (internal/api/media.go, content.go)

    GET /v1/attachments/{attachment_id} answers the metadata with a download ticket, and
    GET .../content the bytes, for an access token or a ticket.  The handlers are programs
    of atomic actions over the desk of Uploads.v (the authorizations, the settings, the
    clock), the message tables, the tickets, the media cache and the limiter of downloads.
    What the phone, the disk and the request buckets answer are arguments.  The theorems:
    what a request for bytes does, exactly; that the header naming the file cannot be
    broken out of; and that under every interleaving a ticket is good for five reads of the
    attachment it was minted for, in the name of the authorization that minted it. *)

From S2P Require Import Prelude GoStrings Limits Encoding Prog Rely Errors Capability Scopes AuthzStore Sessions Ids Messages Pipeline Cursor Supervisor Durations Settings Tickets MediaCache Names Uploads.

Local Open Scope Z_scope.

(** ** The row, as read (internal/store/attachments.go) *)

Record Attachment := mkAttachment {
  aa_ID : string;
  aa_AccountID : string;
  aa_MessageID : string;
  aa_PartIndex : Z;
  aa_MediaID : string;
  aa_ThumbnailMediaID : string;
  aa_DecryptionKey : string;
  aa_Filename : string;
  aa_MimeType : string;
  aa_MediaFormat : string;
  aa_SizeBytes : Z;
  aa_Width : Z;
  aa_Height : Z;
  aa_DownloadState : string;
  aa_SHA256 : string;
}.

Definition scanAttachment (id : string) (r : AttachmentRow) : Attachment :=
  mkAttachment id (at_account_id r) (at_message_id r) (at_part_index r) (scanString (at_media_id r)) (scanString (at_thumbnail_media_id r))
    (scanString (at_decryption_key r)) (scanString (at_filename r)) (scanString (at_mime_type r)) (scanString (at_media_format r))
    (scanInt (at_size_bytes r)) (scanInt (at_width r)) (scanInt (at_height r)) (at_download_state r) (scanString (at_sha256 r)).

(** ** Why there is no digest (internal/media/digest.go) *)

Definition ReasonLargerThanCacheBudget : string := "larger_than_cache_budget".
Definition ReasonDownloadBudgetExhausted : string := "download_budget_exhausted".
Definition ReasonBytesUnavailable : string := "bytes_unavailable".
Definition SHA256UnavailableReasons : list string := [ReasonLargerThanCacheBudget; ReasonDownloadBudgetExhausted; ReasonBytesUnavailable].
Definition ValidSHA256UnavailableReason (r : string) : bool := existsb (fun known => bool_decide (known = r)) SHA256UnavailableReasons.
Definition SHA256UnavailableWarning (reason : string) : string := "sha256_unavailable:" +:+ reason.

(** ** The state *)

Definition downloadTokenLife : Z := 15 * Minute.
Definition downloadMaxRedemptions : Z := 5.
Definition defaultCacheMaxBytes : Z := 2147483648.

(** A read that a ticket allowed: the hash, whose ticket it is, and what is read. *)
Record Read := mkRead { rd_hash : string; rd_authorization : string; rd_attachment : string }.

(** [sf_engines] are the accounts the supervisor holds; [sf_minted] and [sf_reads] are the
    tickets ever minted and the redemptions ever granted, last first. *)
Record Shelf := mkShelf {
  sf_desk : Media;
  sf_db : DB;
  sf_tickets : gmap string TicketRow;
  sf_cache : CacheState;
  sf_slots : ConcurrencyLimiter;
  sf_engines : gset string;
  sf_minted : list Read;
  sf_reads : list Read;
}.

Definition on_desk (d : Media) (s : Shelf) : Shelf :=
  mkShelf d (sf_db s) (sf_tickets s) (sf_cache s) (sf_slots s) (sf_engines s) (sf_minted s) (sf_reads s).
Definition on_db (f : DB -> DB) (s : Shelf) : Shelf :=
  mkShelf (sf_desk s) (f (sf_db s)) (sf_tickets s) (sf_cache s) (sf_slots s) (sf_engines s) (sf_minted s) (sf_reads s).
Definition on_cache (c : CacheState) (s : Shelf) : Shelf :=
  mkShelf (sf_desk s) (sf_db s) (sf_tickets s) c (sf_slots s) (sf_engines s) (sf_minted s) (sf_reads s).
Definition on_slots (c : ConcurrencyLimiter) (s : Shelf) : Shelf :=
  mkShelf (sf_desk s) (sf_db s) (sf_tickets s) (sf_cache s) c (sf_engines s) (sf_minted s) (sf_reads s).

Definition sf_now (s : Shelf) : Z := md_now (sf_desk s).
Definition ReadAttachment (id : string) (s : Shelf) : option Attachment := scanAttachment id <$> db_attachments (sf_db s) !! id.

(** [store.OpenAttachmentKey]: authenticated decryption, of a third party. *)
Class AttachmentKeys := { OpenAttachmentKey : string -> string -> Result GoError string }.

(** What the world answers to one request: the phone of an account for a media ID and a key, the bucket of reads, the staging and
    the renaming of the cached file. *)
Record World := mkWorld { wd_phone : string -> string -> string -> Result GoError string; wd_bucket : option AuthzError; wd_staged : bool; wd_renamed : bool }.

Section Routes.
Context `{GoFmt} `{Lower} `{SHA256} `{Crypto} `{GoDuration} `{JSONScalars} `{AttachmentKeys}.
Context (reg : Registry) (env : string -> string) (signer dir : string) (service : Service).

Definition media_pending (a : Attachment) : ApiFields :=
  UnsupportedCapability ReasonMediaPending (aa_ID a) "download" "download_state" (DString (aa_DownloadState a)).

(** ** The bytes *)

(** The slot is taken; what follows releases it. *)
Definition fetch (w : World) (a : Attachment) : Prog Shelf (Result ApiFields string) :=
  look (fun s => bool_decide (aa_AccountID a ∈ sf_engines s)) ≫= fun held : bool =>
  if negb held then mret (Err (api_fields (api_from (EWrap (aa_AccountID a) (EOther "no such account")))))
  else
    match (if decide (aa_DecryptionKey a = ""%string) then Ok ""%string else OpenAttachmentKey (aa_ID a) (aa_DecryptionKey a)) with
    | Err e => mret (Err (api_fields (api_from e)))
    | Ok key =>
        match wd_phone w (aa_AccountID a) (aa_MediaID a) key with
        | Err e => mret (Err (api_fields (api_from e)))
        | Ok data =>
            look sf_now ≫= fun now =>
            look (fun s => dom (db_attachments (sf_db s))) ≫= fun attachments =>
            lift sf_cache on_cache (cache_Put dir (UnixMilli now) attachments (wd_staged w) (wd_renamed w) (aa_ID a) data) ≫= fun _ =>
            mret (Ok data)
        end
    end.

Definition acquire_download (key : string) : Prog Shelf (Result AuthzError nat) :=
  atomic (fun s =>
    let h := fresh (dom (cl_held (sf_slots s))) in
    match Acquire ConcurrencyDownloads key h (sf_slots s) with
    | Ok c => (on_slots c s, Ok h)
    | Err e => (s, Err e)
    end).

Definition attachmentBytes (w : World) (authorizationID : string) (a : Attachment) : Prog Shelf (Result ApiFields string) :=
  look sf_now ≫= fun now =>
  lift sf_cache on_cache (cache_Get dir (UnixMilli now) (aa_ID a)) ≫= fun hit =>
  match hit with
  | Ok (Some data) => mret (Ok data)
  | _ =>
      if negb (bool_decide (aa_DownloadState a = DownloadStateAvailable)) then mret (Err (media_pending a))
      else
        acquire_download authorizationID ≫= fun slot =>
        match slot with
        | Err e => mret (Err (translateAuthzError e))
        | Ok h =>
            fetch w a ≫= fun r =>
            modify (fun s => on_slots (Release h (sf_slots s)) s) ≫= fun _ =>
            mret r
        end
  end.

(** The digest, or why there is none. *)
Definition attachmentDigest (w : World) (caller : string) (a : Attachment) : Prog Shelf (string * string) :=
  if decide (aa_SHA256 a <> ""%string) then mret (aa_SHA256 a, ""%string)
  else if decide (aa_DownloadState a <> DownloadStateAvailable) then mret (""%string, ReasonBytesUnavailable)
  else
    look (fun s => settingInt reg env "media.cache_max_bytes" defaultCacheMaxBytes (md_settings (sf_desk s))) ≫= fun cacheMax =>
    if cacheMax <? aa_SizeBytes a then mret (""%string, ReasonLargerThanCacheBudget)
    else
      attachmentBytes w caller a ≫= fun r =>
      match r with
      | Err e => mret (""%string, if decide (api_Code e = CodeRateLimited) then ReasonDownloadBudgetExhausted else ReasonBytesUnavailable)
      | Ok data =>
          let sum := sha256_hex data in
          modify (on_db (SetAttachmentDownloadState (aa_ID a) (aa_DownloadState a) sum)) ≫= fun _ =>
          mret (sum, ""%string)
      end.

(** ** GET /v1/attachments/{attachment_id} *)

(** The URLs and the curl line, which are text over the ID and the token, are left out; a
    time is the millisecond it renders. *)
Record attachmentDTO := mkAttachmentDTO {
  ad_AttachmentID : string;
  ad_AccountID : string;
  ad_Filename : option string;
  ad_MimeType : string;
  ad_Size : Z;
  ad_SHA256 : option string;
  ad_SHA256Available : bool;
  ad_SHA256UnavailableReason : option string;
  ad_Width : option Z;
  ad_Height : option Z;
  ad_DownloadState : string;
  ad_Inline : bool;
  ad_Token : string;
  ad_TokenAudience : string;
  ad_ExpiresAtMS : Z;
  ad_MaxRedemptions : Z;
}.

Definition readAttachment (attachmentID : string) : Prog Shelf (Result ApiFields Attachment) :=
  match CheckIDPrefix attachmentID "attachment_id" PrefixAttachment with
  | Some e => mret (Err e)
  | None => look (ReadAttachment attachmentID) ≫= fun a => mret (match a with Some a => Ok a | None => Err (NotFound "attachment") end)
  end.

(** The statement that stores a ticket reads the clock itself. *)
Definition mint (hash attachmentID caller : string) (expiresAt : Z) : Prog Shelf (Result MediaError ()) :=
  atomic (fun s =>
    match MintDownloadTicket (UnixMilli (sf_now s)) (dom (db_attachments (sf_db s))) hash attachmentID caller downloadMaxRedemptions (UnixMilli expiresAt) (sf_tickets s) with
    | Ok t => (mkShelf (sf_desk s) (sf_db s) t (sf_cache s) (sf_slots s) (sf_engines s) (mkRead hash caller attachmentID :: sf_minted s) (sf_reads s), Ok tt)
    | Err e => (s, Err e)
    end).

(** The answer with its warnings; [nonce] is the random bytes of the ticket. *)
Definition attachmentsGet (w : World) (nonce caller attachmentID : string) : Prog Shelf (Result ApiFields (attachmentDTO * list string)) :=
  readAttachment attachmentID ≫= fun found =>
  match found with
  | Err e => mret (Err e)
  | Ok a =>
      attachmentDigest w caller a ≫= fun '(digest, reason) =>
      let warnings := if decide (reason = ""%string) then [] else [SHA256UnavailableWarning reason] in
      let '(value, hash) := MintTicket signer KindDownload (aa_ID a) nonce in
      look sf_now ≫= fun now =>
      let expiresAt := now + downloadTokenLife in
      mint hash (aa_ID a) caller expiresAt ≫= fun r =>
      match r with
      | Err _ => mret (Err ApiInternal)
      | Ok _ =>
          look (fun s => settingInt reg env "media.inline_mcp_image_max_bytes" 1048576 (md_settings (sf_desk s))) ≫= fun inlineMax =>
          mret (Ok (mkAttachmentDTO (aa_ID a) (aa_AccountID a) (nullString (aa_Filename a)) (aa_MimeType a) (aa_SizeBytes a)
            (nullString digest) (negb (bool_decide (digest = ""%string))) (nullString reason) (nullInt (aa_Width a)) (nullInt (aa_Height a))
            (aa_DownloadState a) (HasPrefix "image/" (aa_MimeType a) && (aa_SizeBytes a <=? inlineMax)) value (Audience KindDownload (aa_ID a))
            (UnixMilli expiresAt) downloadMaxRedemptions, warnings))
      end
  end.

(** ** GET /v1/attachments/{attachment_id}/content *)

(** The statement that redeems reads the clock itself. *)
Definition redeem (hash authorizationID attachmentID : string) : Prog Shelf (Result MediaError ()) :=
  atomic (fun s =>
    match RedeemDownloadTicket (UnixMilli (sf_now s)) hash (sf_tickets s) with
    | Ok (t, _) => (mkShelf (sf_desk s) (sf_db s) t (sf_cache s) (sf_slots s) (sf_engines s) (sf_minted s) (mkRead hash authorizationID attachmentID :: sf_reads s), Ok tt)
    | Err e => (s, Err e)
    end).

(** [Authenticate] is taken at one moment. *)
Definition authoriseDownload (w : World) (token attachmentID : string) : Prog Shelf (Result ApiFields string) :=
  match KindOf token with
  | Some KindDownload =>
      match VerifyTicket signer token KindDownload attachmentID with
      | None => mret (Err ticketRefused)
      | Some hash =>
          look (fun s => DownloadTicketByHash hash (sf_tickets s)) ≫= fun row =>
          match row with
          | Err _ => mret (Err ticketRefused)
          | Ok ticket =>
              lift sf_desk on_desk (checkIssuingAuthorization (dt_authorization_id ticket) ScopeMessagesRead) ≫= fun ok : bool =>
              if negb ok then mret (Err ticketRefused)
              else
                redeem hash (dt_authorization_id ticket) attachmentID ≫= fun r =>
                match r with
                | Err _ => mret (Err ticketRefused)
                | Ok _ => mret (Ok (dt_authorization_id ticket))
                end
          end
      end
  | _ =>
      look (fun s => Authenticate service (sf_now s) token (md_auth (sf_desk s))) ≫= fun auth =>
      match auth with
      | Err _ => mret (Err (InvalidToken "the token was refused"))
      | Ok caller =>
          match Require_ (Some caller) ScopeMessagesRead with
          | Some _ => mret (Err (InsufficientScope ScopeMessagesRead))
          | None =>
              match wd_bucket w with
              | Some e => mret (Err (translateAuthzError e))
              | None => mret (Ok (ca_ID caller))
              end
          end
      end
  end.

(** The runes a header drops, and a piece as [strings.Map] writes it: a bad byte becomes
    U+FFFD. *)
Definition header_drops (r : Z) : bool := (r <? 0x20) || (r =? 0x7f) || (r =? 34) || (r =? 92).
Definition REPLACEMENT : string := String (char_of 0xEF) (String (char_of 0xBF) (String (char_of 0xBD) "")).
Definition header_piece (p : (Z * bool) * (Z * string)) : Z * string := if p.1.2 then p.2 else (RuneError, REPLACEMENT).
Definition header_clean (filename : string) : string :=
  GoStrings.join (header_piece <$> filter (fun p => header_drops p.1.1 = false) (zip (decode filename) (pieces filename))).

Definition QUOTE : Ascii.ascii := char_of 34.
Definition filename_parameter (clean : string) : string :=
  ContentDisposition +:+ "; filename=" +:+ String QUOTE (clean +:+ String QUOTE "").
Definition contentDisposition (filename : string) : string :=
  let clean := header_clean filename in
  if decide (clean = ""%string) then ContentDisposition
  else filename_parameter clean.

Record ContentResponse := mkContentResponse {
  cr_ContentType : string;
  cr_Disposition : string;
  cr_SecurityPolicy : string;
  cr_Length : string;
  cr_Body : string;
}.

Definition attachmentContent (w : World) (attachmentID bearer : string) : Prog Shelf (Result ApiFields ContentResponse) :=
  match CheckIDPrefix attachmentID "attachment_id" PrefixAttachment with
  | Some e => mret (Err e)
  | None =>
      if decide (bearer = ""%string) then mret (Err (InvalidToken "no Authorization header"))
      else
        authoriseDownload w bearer attachmentID ≫= fun who =>
        match who with
        | Err e => mret (Err e)
        | Ok authorizationID =>
            look (ReadAttachment attachmentID) ≫= fun found =>
            match found with
            | None => mret (Err (NotFound "attachment"))
            | Some a =>
                if negb (bool_decide (aa_DownloadState a = DownloadStateAvailable)) then mret (Err (media_pending a))
                else
                  attachmentBytes w authorizationID a ≫= fun bytes =>
                  match bytes with
                  | Err e => mret (Err e)
                  | Ok data => mret (Ok (mkContentResponse (ServedContentType (aa_MimeType a)) (contentDisposition (aa_Filename a)) ContentSecurityPolicy
                                 (FormatInt (Z.of_nat (String.length data))) data))
                  end
            end
        end
  end.
End Routes.

(** ** The header *)

Definition header_safe (p : Z * string) : Prop := good p /\ header_drops p.1 = false.

Lemma replacement_good : good (RuneError, REPLACEMENT).
Proof. split; [|split; [done|by left]]. intros u. reflexivity. Qed.

Lemma header_clean_safe f : exists l, header_clean f = GoStrings.join l /\ Forall header_safe l.
Proof.
  eexists. split; [reflexivity|]. revert f. apply pieces_ind; [change (Forall header_safe []); constructor|].
  intros r b t u Hd Hp Hg IH. rewrite Hd, Hp. cbn [zip_with]. rewrite filter_cons. case_decide as Hr; [|exact IH]. rewrite fmap_cons.
  constructor; [|exact IH]. unfold header_piece. cbn [fst snd] in *. destruct b; [by split; [apply Hg|]|]. split; [apply replacement_good|done].
Qed.

(** A name with nothing to drop or to replace is kept. *)
Lemma header_clean_same f : ValidString f = true -> Forall (fun r => header_drops r = false) (runes f) -> header_clean f = f.
Proof.
  unfold header_clean, ValidString, runes. intros Hv Hr. rewrite <- (join_pieces f) at 3. f_equal. revert f Hv Hr. apply (pieces_ind (fun f =>
    forallb snd (decode f) = true -> Forall (fun r => header_drops r = false) (decode f).*1 -> header_piece <$> filter _ (zip (decode f) (pieces f)) = pieces f)); [done|].
  intros r b t u Hd Hp _ IH. rewrite Hd, Hp. cbn [forallb snd fmap list_fmap fst zip_with]. rewrite andb_true_iff. intros [-> Hv] [Hr Hrs]%Forall_cons.
  rewrite filter_cons, decide_True by done. cbn [fmap list_fmap]. f_equal. by apply IH.
Qed.

Lemma valid_good s : ValidString s = true -> Forall good (pieces s).
Proof.
  unfold ValidString. revert s. apply (pieces_ind (fun s => forallb snd (decode s) = true -> Forall good (pieces s))); [intros _; change (Forall good []); constructor|].
  intros r b t u Hd Hp Hg IH. rewrite Hd, Hp. cbn [forallb snd]. intros [-> Hv]%andb_true_iff. constructor; [by apply Hg|by apply IH].
Qed.

Lemma parameter_pieces l : Forall header_safe l -> exists before after, filename_parameter (GoStrings.join l) = GoStrings.join (before ++ l ++ after) /\
  Forall good (before ++ l ++ after) /\ Forall (fun p => 0x20 <= p.1 /\ p.1 <> 0x7f) (before ++ l ++ after).
Proof.
  intros Hl. exists (pieces (ContentDisposition +:+ "; filename=" +:+ String QUOTE "")), [(34, String QUOTE "")].
  assert (forall a b, GoStrings.join (a ++ b) = GoStrings.join a +:+ GoStrings.join b) as Hjoin.
  { intros a b. induction a as [|x a IH]; [done|]. cbn [app]. by rewrite !join_cons, IH, append_assoc. }
  split; [|split].
  - rewrite !Hjoin, join_pieces. reflexivity.
  - assert (Forall good l) by (apply Forall_impl with (1 := Hl); by intros ? []). rewrite !Forall_app. split_and!; [|done|].
    + by apply valid_good.
    + apply Forall_singleton. split; [by intros u|]. split; [done|by left].
  - rewrite !Forall_app. split_and!.
    + apply (bool_decide_unpack _). by vm_compute.
    + apply Forall_impl with (1 := Hl). intros p [_ Hp]. unfold header_drops in Hp. bool_to_prop. lia.
    + apply Forall_singleton. simpl. lia.
Qed.

(** The header that names a served file cannot be broken out of.  Whatever file name a
    remote party chose, the value is valid UTF-8 without control characters, so no line of
    the response begins inside it; it is "attachment" alone or with one quoted name that
    contains neither a quote nor a backslash; and a name that needs no cleaning is passed on
    as it is. *)
Theorem disposition_safe filename : let v := contentDisposition filename in
  ValidString v = true /\ Forall (fun r => 0x20 <= r /\ r <> 0x7f) (runes v) /\
  (v = ContentDisposition \/ exists name, v = filename_parameter name /\ name <> ""%string /\ Forall (fun r => r <> 34 /\ r <> 92) (runes name)) /\
  (filename <> ""%string -> ValidString filename = true -> Forall (fun r => header_drops r = false) (runes filename) -> v = filename_parameter filename).
Proof.
  intros v. unfold v, contentDisposition. destruct (header_clean_safe filename) as (l & El & Hl).
  assert (filename <> ""%string -> ValidString filename = true -> Forall (fun r => header_drops r = false) (runes filename) ->
    (if decide (header_clean filename = ""%string) then ContentDisposition else filename_parameter (header_clean filename)) = filename_parameter filename) as Hsame.
  { intros Hne Hv Hr. by rewrite header_clean_same, decide_False. }
  case_decide as Hc; [split_and!; [by vm_compute|apply (bool_decide_unpack _); by vm_compute|by left|exact Hsame]|].
  rewrite El in *. destruct (parameter_pieces l Hl) as (before & after & E & Hgood & Hplain). split_and!; [| | |exact Hsame].
  - rewrite E. unfold ValidString. rewrite decode_join by done. clear. induction (before ++ l ++ after); [done|]. by rewrite fmap_cons.
  - rewrite E, runes_join by done. by apply Forall_fmap.
  - right. exists (GoStrings.join l). split; [done|]. split; [done|]. rewrite runes_join by (apply Forall_impl with (1 := Hl); by intros ? []).
    apply Forall_fmap, Forall_impl with (1 := Hl). intros p [_ Hp]. unfold header_drops in Hp. simpl. bool_to_prop. lia.
Qed.
