(* ===== verification/DownloadRuns.v ===== *)
(** * What a request for bytes does, exactly

    A GET of .../content with nothing in between: it is let in by a ticket that verifies
    for this attachment, is not spent or expired, and whose authorization still stands and
    still may read, or by an access token with that scope; a ticket then pays one
    redemption; and the response carries the cached bytes, or what the phone answers when
    a slot, a client and the key are there. *)

From S2P Require Import Prelude GoStrings Limits Encoding Prog Rely Errors Capability Scopes AuthzStore Sessions Ids Messages Pipeline Cursor Supervisor Durations Settings Tickets MediaCache Names Uploads UploadRuns Downloads.

Local Open Scope Z_scope.

Section Runs.
Context `{GoFmt} `{Lower} `{SHA256} `{Crypto} `{GoDuration} `{AttachmentKeys}.
Context (signer dir : string) (service : Service) (w : World).

(** ** Who is let in *)

Inductive LetIn (s : Shelf) (attachmentID bearer : string) : string -> option string -> Prop :=
| admitted_ticket hash r : KindOf bearer = Some KindDownload -> VerifyTicket signer bearer KindDownload attachmentID = Some hash ->
    sf_tickets s !! hash = Some r -> issued (sf_desk s) (dt_authorization_id r) ScopeMessagesRead ->
    UnixMilli (sf_now s) < dt_expires_at_ms r -> dt_redemptions r < dt_max_redemptions r ->
    LetIn s attachmentID bearer (dt_authorization_id r) (Some hash)
| admitted_token caller : KindOf bearer <> Some KindDownload -> Authenticate service (sf_now s) bearer (md_auth (sf_desk s)) = Ok caller ->
    Require_ (Some caller) ScopeMessagesRead = None -> wd_bucket w = None -> LetIn s attachmentID bearer (ca_ID caller) None.

(** The redemption a ticket pays. *)
Definition paid (how : option string) (who attachmentID : string) (s : Shelf) : Shelf :=
  match how with
  | None => s
  | Some hash =>
      mkShelf (sf_desk s) (sf_db s) (alter (fun r => with_redemptions (dt_redemptions r + 1) r) hash (sf_tickets s)) (sf_cache s) (sf_slots s) (sf_engines s)
        (sf_minted s) (mkRead hash who attachmentID :: sf_reads s)
  end.

Lemma authorise_run s bearer attachmentID : let '(s', r) := run (authoriseDownload signer service w bearer attachmentID) s in
  (exists who how, LetIn s attachmentID bearer who how /\ s' = paid how who attachmentID s /\ r = Ok who) \/
  ((forall who how, ~ LetIn s attachmentID bearer who how) /\ s' = s /\ exists e, r = Err e).
Proof.
  unfold authoriseDownload. destruct (KindOf bearer) as [[]|] eqn:Ek.
  1,3: rewrite run_bind; unfold look, atomic; cbn [run]; destruct (Authenticate service (sf_now s) bearer (md_auth (sf_desk s))) as [caller|e] eqn:Ea;
    [destruct (Require_ (Some caller) ScopeMessagesRead) eqn:Er; [|destruct (wd_bucket w) eqn:Eb]|]; cbn [run mret Prog_ret];
    try (right; split; [intros who how Hadm; destruct Hadm; congruence|by split; [|eexists]]);
    left; exists (ca_ID caller), None; (split; [by apply admitted_token; rewrite ?Ek|done]).
  destruct (VerifyTicket signer bearer KindDownload attachmentID) as [hash|] eqn:Ev.
  2: right; split; [intros who how Hadm; destruct Hadm; congruence|by split; [|eexists]].
  rewrite run_bind. unfold look, atomic at 1, DownloadTicketByHash. cbn [run]. destruct (sf_tickets s !! hash) as [r|] eqn:Er.
  2: right; split; [intros who how Hadm; destruct Hadm; congruence|by split; [|eexists]].
  rewrite run_bind, run_lift by (by intros []). destruct (check_issuing_run (sf_desk s) (dt_authorization_id r) ScopeMessagesRead) as [[-> Hi]|[-> Hi]]; cbn [fst snd negb].
  2: right; split; [intros who how Hadm; destruct Hadm; congruence|by split; [destruct s|eexists]].
  replace (on_desk (sf_desk s) s) with s by by destruct s. rewrite run_bind. unfold redeem, atomic, RedeemDownloadTicket. cbn [run]. rewrite Er.
  destruct (Z.leb_spec (dt_expires_at_ms r) (UnixMilli (sf_now s))) as [Hx|Hx]; cbn [orb].
  { right. split; [intros who how Hadm; destruct Hadm; [|congruence]; simplify_eq; lia|by split; [|eexists]]. }
  destruct (Z.leb_spec (dt_max_redemptions r) (dt_redemptions r)) as [Hm|Hm].
  { right. split; [intros who how Hadm; destruct Hadm; [|congruence]; simplify_eq; lia|by split; [|eexists]]. }
  left. exists (dt_authorization_id r), (Some hash). split; [by apply admitted_ticket|]. split; [|done]. unfold paid. cbn [run mret Prog_ret]. f_equal.
  apply map_eq. intros i. rewrite lookup_insert. case_decide; [subst; by rewrite lookup_alter_eq, Er|by rewrite lookup_alter_ne].
Qed.

(** ** Where the bytes come from *)

Definition cached (c : CacheState) (id : string) : option string :=
  match cs_rows c !! id with
  | Some row => match Resolve dir (cr_relative_path row) with Some abs => cs_files c !! abs | None => None end
  | None => None
  end.

(** What differs is at most the cache, and no slot is held that was not. *)
Definition same_shelf (s s' : Shelf) : Prop :=
  sf_desk s' = sf_desk s /\ sf_db s' = sf_db s /\ sf_tickets s' = sf_tickets s /\ cl_held (sf_slots s') = cl_held (sf_slots s) /\
  sf_engines s' = sf_engines s /\ sf_minted s' = sf_minted s /\ sf_reads s' = sf_reads s.

Definition download_room (s : Shelf) (who : string) : bool := is_ok (Acquire ConcurrencyDownloads who 0 (sf_slots s)).

Definition fetched (s : Shelf) (a : Attachment) : option string :=
  if negb (bool_decide (aa_AccountID a ∈ sf_engines s)) then None
  else
    match (if decide (aa_DecryptionKey a = ""%string) then Ok ""%string else OpenAttachmentKey (aa_ID a) (aa_DecryptionKey a)) with
    | Ok key => match wd_phone w (aa_AccountID a) (aa_MediaID a) key with Ok data => Some data | Err _ => None end
    | Err _ => None
    end.

Definition bytes_of (s : Shelf) (who : string) (a : Attachment) : option string :=
  match cached (sf_cache s) (aa_ID a) with
  | Some data => Some data
  | None => if download_room s who then fetched s a else None
  end.

Definition answers {A} (r : Result ApiFields A) (o : option A) : Prop := match o with Some a => r = Ok a | None => exists e, r = Err e end.

Lemma get_run now id c : let '(_, r) := run (cache_Get dir now id) c in
  match r with Ok (Some data) => cached c id = Some data | _ => cached c id = None end.
Proof.
  unfold cache_Get, cached. rewrite run_bind. unfold look, atomic. cbn [run]. destruct (cs_rows c !! id) as [row|]; [|done].
  destruct (Resolve dir (cr_relative_path row)) as [abs|]; [|done]. rewrite run_bind. cbn [run].
  by destruct (cs_files c !! abs).
Qed.

Lemma on_cache_run {A} (p : Prog CacheState A) s : run (lift sf_cache on_cache p) s = (on_cache (run p (sf_cache s)).1 s, (run p (sf_cache s)).2).
Proof. apply run_lift; by intros []. Qed.

Lemma fetch_run a s : let '(s', r) := run (fetch dir w a) s in answers r (fetched s a) /\ exists c, s' = on_cache c s.
Proof.
  assert (exists c, s = on_cache c s) as Hid by (exists (sf_cache s); by destruct s).
  unfold fetch, fetched. rewrite run_bind. unfold look, atomic. cbn [run]. destruct (negb _); [by split; [eexists|]|].
  destruct (if decide _ then _ else _) as [key|e]; [|by split; [eexists|]]. destruct (wd_phone w _ _ key) as [data|e]; [|by split; [eexists|]].
  rewrite run_bind. cbn [run]. rewrite run_bind. cbn [run]. rewrite run_bind, on_cache_run. cbn [run mret Prog_ret]. split; [done|by eexists].
Qed.

Lemma bytes_run who a s : aa_DownloadState a = DownloadStateAvailable ->
  let '(s', r) := run (attachmentBytes dir w who a) s in answers r (bytes_of s who a) /\ same_shelf s s'.
Proof.
  intros Ha. unfold attachmentBytes, bytes_of, download_room. rewrite run_bind. unfold look, atomic. cbn [run]. rewrite run_bind, on_cache_run.
  pose proof (get_run (UnixMilli (sf_now s)) (aa_ID a) (sf_cache s)) as Hget. destruct (run (cache_Get _ _ _) _) as [c hit]. cbn [fst snd].
  set (s1 := on_cache c s). rewrite bool_decide_eq_true_2 by done. cbn [negb].
  assert (cached (sf_cache s) (aa_ID a) = None -> let '(s', r) := run (acquire_download who ≫= fun slot =>
      match slot with
      | Err e => mret (Err (translateAuthzError e))
      | Ok h => fetch dir w a ≫= fun r => modify (fun s => on_slots (Release h (sf_slots s)) s) ≫= fun _ => mret r
      end) s1 in answers r (match cached (sf_cache s) (aa_ID a) with Some data => Some data | None => if is_ok (Acquire ConcurrencyDownloads who 0 (sf_slots s)) then fetched s a else None end) /\ same_shelf s s') as Hmiss.
  { intros ->. rewrite run_bind. unfold acquire_download, atomic. cbn [run]. cbv zeta. change (sf_slots s1) with (sf_slots s).
    assert (fresh (dom (cl_held (sf_slots s))) ∉ dom (cl_held (sf_slots s))) as Hfresh by apply is_fresh. set (h := fresh _) in *.
    assert (is_ok (Acquire ConcurrencyDownloads who 0 (sf_slots s)) = is_ok (Acquire ConcurrencyDownloads who h (sf_slots s))) as -> by by (unfold Acquire; destruct (_ || _)).
    destruct (Acquire ConcurrencyDownloads who h (sf_slots s)) as [c'|e] eqn:Eacq; cbn [is_ok run mret Prog_ret]; [|by split; [eexists|]].
    rewrite run_bind. pose proof (fetch_run a (on_slots c' s1)) as Hf. destruct (run (fetch _ _ _) _) as [s2 r]. destruct Hf as [Hr [c2 ->]].
    rewrite run_bind. unfold modify, atomic. cbn [run mret Prog_ret]. split; [exact Hr|]. split_and!; try done. cbn.
    by apply (release_acquired ConcurrencyDownloads who); [apply not_elem_of_dom|]. }
  destruct hit as [[data|]|e]; [rewrite Hget; by cbn [run mret Prog_ret]|by apply Hmiss|by apply Hmiss].
Qed.

(** ** The request *)

Definition response (a : Attachment) (data : string) : ContentResponse :=
  mkContentResponse (ServedContentType (aa_MimeType a)) (contentDisposition (aa_Filename a)) ContentSecurityPolicy
    (FormatInt (Z.of_nat (String.length data))) data.

(** What the request is answered with. *)
Definition served (s : Shelf) (who attachmentID : string) : option ContentResponse :=
  match ReadAttachment attachmentID s with
  | Some a => if decide (aa_DownloadState a = DownloadStateAvailable) then response a <$> bytes_of s who a else None
  | None => None
  end.

Lemma LetIn_same s attachmentID bearer who how who' how' : LetIn s attachmentID bearer who how -> LetIn s attachmentID bearer who' how' -> who = who' /\ how = how'.
Proof. intros Ha Hb. destruct Ha, Hb; split; congruence. Qed.

(** The request once it is let in. *)
Definition after_admission (attachmentID who : string) : Prog Shelf (Result ApiFields ContentResponse) :=
  look (ReadAttachment attachmentID) ≫= fun found =>
  match found with
  | None => mret (Err (NotFound "attachment"))
  | Some a =>
      if negb (bool_decide (aa_DownloadState a = DownloadStateAvailable)) then mret (Err (media_pending a))
      else
        attachmentBytes dir w who a ≫= fun bytes =>
        match bytes with
        | Err e => mret (Err e)
        | Ok data => mret (Ok (response a data))
        end
  end.

Lemma admission_run attachmentID who s : let '(s', r) := run (after_admission attachmentID who) s in
  same_shelf s s' /\ answers r (served s who attachmentID).
Proof.
  unfold after_admission, served. rewrite run_bind. unfold look, atomic. cbn [run].
  destruct (ReadAttachment attachmentID s) as [a|] eqn:Ea; [|by split; [|eexists]].
  destruct (decide (aa_DownloadState a = DownloadStateAvailable)) as [Hs|Hs].
  2: by rewrite bool_decide_eq_false_2 by done; split; [|eexists].
  rewrite bool_decide_eq_true_2 by done. cbn [negb]. rewrite run_bind. pose proof (bytes_run who a s Hs) as Hb.
  destruct (run (attachmentBytes _ _ _ _) _) as [s' [data|e]]; destruct Hb as [Hb Hsame]; unfold answers in *; cbn [run mret Prog_ret]; (split; [done|]);
    destruct (bytes_of s who a); naive_solver.
Qed.

(** C36: what a request for an attachment's bytes does.  Nobody is let in but by an access
    token that may read, or by a ticket that verifies for this attachment, is neither spent
    nor expired, and whose authorization still stands and still may read; otherwise nothing
    changes at all.  Who is let in by a ticket pays one redemption, whatever comes of it;
    and is answered with the cached bytes, or with what the phone returned when a slot, a
    client and the attachment's key were there, under a content type of the allowlist;
    beside that redemption only the cache changes, and no slot stays taken. *)
Theorem content_exact attachmentID bearer s : CheckIDPrefix attachmentID "attachment_id" PrefixAttachment = None -> bearer <> ""%string ->
  let '(s', r) := run (attachmentContent signer dir service w attachmentID bearer) s in
  (forall who how, LetIn s attachmentID bearer who how ->
     same_shelf (paid how who attachmentID s) s' /\ answers r (served s who attachmentID)) /\
  ((forall who how, ~ LetIn s attachmentID bearer who how) -> s' = s /\ exists e, r = Err e).
Proof.
  intros Hpre Hb. unfold attachmentContent. rewrite Hpre, decide_False by done. rewrite run_bind. pose proof (authorise_run s bearer attachmentID) as Ha.
  destruct (run (authoriseDownload _ _ _ _ _) _) as [s1 r1]. destruct Ha as [(who & how & Hadm & -> & ->)|(Hno & -> & e & ->)].
  2: { cbn [run mret Prog_ret]. split; [intros who how Hadm; by destruct (Hno who how)|]. intros _. split; [done|by eexists]. }
  pose proof (admission_run attachmentID who (paid how who attachmentID s)) as Hrun. unfold after_admission in Hrun.
  destruct (run _ (paid how who attachmentID s)) as [s' r]. destruct Hrun as [Hsame Hr]. split.
  - intros who' how' Hadm'. destruct (LetIn_same _ _ _ _ _ _ _ Hadm Hadm') as [<- <-]. split; [done|]. by destruct how.
  - intros Hno. by destruct (Hno who how).
Qed.
End Runs.

(** ** Witness: a ticket, a picture, a phone that answers *)

#[export] Instance plain_keys : AttachmentKeys := { OpenAttachmentKey _ sealed := Ok sealed }.

Definition demo_attachment_row : AttachmentRow :=
  mkAttachmentRow "acct_1" "msg_1" 0 (Some "media"%string) None None (Some "a.png"%string) (Some "image/png"%string) None (Some 4) None None DownloadStateAvailable None.
Definition demo_messages : DB := mkDB {["acct_1"%string]} ∅ ∅ ∅ ∅ {["att_1"%string := demo_attachment_row]} ∅.
Definition demo_world : World := mkWorld (fun _ _ _ => Ok "data"%string) None true true.
Definition demo_service : Service := mkService "" "" "".
Definition demo_download : string * string := @MintTicket tagged_crypto _ "key" KindDownload "att_1" "nonce".
Definition demo_ticket_row : TicketRow := mkTicketRow "att_1" "auth_1" 0 5 9000 0.
Definition demo_shelf : Shelf :=
  mkShelf demo_desk demo_messages {[demo_download.2 := demo_ticket_row]} (mkCacheState ∅ ∅) NewConcurrencyLimiter {["acct_1"%string]}
    [mkRead demo_download.2 "auth_1" "att_1"] [].

Example content_exact_witness :
  (run (@attachmentContent _ _ _ tagged_crypto _ "key" "/data/media" demo_service demo_world "att_1" demo_download.1) demo_shelf).2 =
  Ok (mkContentResponse "image/png" (filename_parameter "a.png") ContentSecurityPolicy "4" "data").
Proof.
  pose proof (@content_exact _ _ _ tagged_crypto _ "key" "/data/media" demo_service demo_world "att_1" demo_download.1 demo_shelf) as Hc.
  destruct (run _ demo_shelf) as [s' r]. cbn [snd]. destruct Hc as [Hin _]; [by vm_compute|by vm_compute|].
  destruct (Hin "auth_1"%string (Some demo_download.2)) as [_ Hr]; [|exact Hr].
  refine (admitted_ticket _ _ _ _ _ _ _ demo_ticket_row _ _ _ _ _ _); try (vm_compute; reflexivity).
  exists (scanAuthorization "auth_1" (mkAuthorizationRow "admin" None "messages:read messages:write" "" None None None None 0 0)).
  split_and!; [vm_compute; reflexivity..|left; reflexivity|]. apply (bool_decide_eq_true_1 _). vm_compute. reflexivity.
Defined.
