(* ===== verification/DownloadPool.v ===== *)
(** * Downloads under every interleaving

    Any number of the attachment routes run beside each other while the clock,
    authorizations, settings, messages and accounts move as they like.  What each relies
    on is that the table of tickets only makes the steps of Tickets.v and that no ticket
    is ever attributed to anything but what it was minted for ([shelf_ok]).  The theorem: a
    ticket is good for five reads, of the attachment it was minted for, in the name of the
    authorization that minted it. *)

From S2P Require Import Prelude GoStrings Limits Encoding Prog Rely Errors Capability Scopes AuthzStore Sessions Ids Messages Pipeline Cursor Supervisor Durations Settings Tickets MediaCache Names Uploads UploadRuns UploadPool Downloads DownloadRuns.

Local Open Scope Z_scope.

Section Pool.
Context `{GoFmt} `{Lower} `{SHA256} `{!CollisionFree} `{Crypto} `{!MacLaws} `{GoDuration} `{JSONScalars} `{AttachmentKeys}.
Context (reg : Registry) (env : string -> string) (signer dir : string) (service : Service).

(** ** The invariant *)

Definition hashes (s : Shelf) : gset string := list_to_set (rd_hash <$> sf_minted s).
Definition counted (s : Shelf) : gmap string TicketRow * list string * gset string := (sf_tickets s, rd_hash <$> sf_reads s, hashes s).

Record shelf_ok (s : Shelf) : Prop := {
  shelf_counted : rtc TicketStep (∅, [], ∅) (counted s);
  shelf_rows h r : sf_tickets s !! h = Some r -> mkRead h (dt_authorization_id r) (dt_attachment_id r) ∈ sf_minted s /\ dt_max_redemptions r = downloadMaxRedemptions;
  shelf_kept m : m ∈ sf_minted s -> exists r, sf_tickets s !! rd_hash m = Some r;
  shelf_minted m : m ∈ sf_minted s -> exists nonce, rd_hash m = (MintTicket signer KindDownload (rd_attachment m) nonce).2;
  shelf_once : NoDup (rd_hash <$> sf_minted s);
  shelf_reads rd : rd ∈ sf_reads s -> rd ∈ sf_minted s;
}.

Definition Rel (s s' : Shelf) : Prop := shelf_ok s -> shelf_ok s' /\ sf_minted s ⊆ sf_minted s'.

#[export] Instance Rel_po : PreOrder Rel.
Proof.
  split; [by intros s; split|]. intros s1 s2 s3 Ha Hb Hok. destruct (Ha Hok) as [Hok2 Hm]. destruct (Hb Hok2) as [Hok3 Hm'].
  split; [done|]. by etransitivity.
Qed.

(** What touches neither the tickets nor the logs. *)
Lemma rel_untouched s s' : sf_tickets s' = sf_tickets s -> sf_minted s' = sf_minted s -> sf_reads s' = sf_reads s -> Rel s s'.
Proof. intros Et Em Er Hok. destruct Hok as [Hc Hr Hk Hm Ho Hrd]. split; [|by rewrite Em]. unfold counted, hashes in *. split; unfold counted, hashes; rewrite ?Et, ?Em, ?Er; done. Qed.

(** A row is the only one minted with its hash. *)
Lemma minted_row s h r m : shelf_ok s -> sf_tickets s !! h = Some r -> m ∈ sf_minted s -> rd_hash m = h -> m = mkRead h (dt_authorization_id r) (dt_attachment_id r).
Proof.
  intros Hok Hr Hm Eh. destruct (shelf_rows s Hok h r Hr) as [Hin _]. pose proof (shelf_once s Hok) as Hnd.
  apply list_elem_of_lookup in Hm as [i Hi]. apply list_elem_of_lookup in Hin as [j Hj].
  assert (i = j) as ->; [|congruence]. eapply (NoDup_lookup (rd_hash <$> sf_minted s)); [done|by rewrite list_lookup_fmap, Hi; simpl; rewrite Eh|by rewrite list_lookup_fmap, Hj].
Qed.

(** ** The two statements *)

Lemma rel_mint hash attachmentID caller expiresAt nonce s : hash = (MintTicket signer KindDownload attachmentID nonce).2 ->
  Rel s ((fun s => match MintDownloadTicket (UnixMilli (sf_now s)) (dom (db_attachments (sf_db s))) hash attachmentID caller downloadMaxRedemptions (UnixMilli expiresAt) (sf_tickets s) with
    | Ok t => (mkShelf (sf_desk s) (sf_db s) t (sf_cache s) (sf_slots s) (sf_engines s) (mkRead hash caller attachmentID :: sf_minted s) (sf_reads s), Ok tt)
    | Err e => (s, Err e)
    end) s : Shelf * Result MediaError ()).1.
Proof.
  intros Eh. cbv beta. destruct (MintDownloadTicket _ _ _ _ _ _ _ _) as [t|e] eqn:E; cbn [fst]; [|reflexivity]. intros Hok. split; [|set_solver].
  pose proof E as E'. unfold MintDownloadTicket in E'. destruct (_ || _) eqn:Eg; [done|]. injection E' as <-. apply orb_false_iff in Eg as [Eg _].
  apply bool_decide_eq_false, eq_None_not_Some in Eg. assert (hash ∉ rd_hash <$> sf_minted s) as Hnew.
  { intros (m & -> & Hm)%list_elem_of_fmap. destruct (shelf_kept s Hok m Hm) as [r Hr]. congruence. }
  split; cbn [sf_tickets sf_minted sf_reads].
  - eapply rtc_r; [exact (shelf_counted s Hok)|]. unfold counted, hashes. cbn [sf_tickets sf_minted sf_reads]. rewrite fmap_cons. cbn [list_to_set rd_hash].
    refine (dt_mint _ _ _ _ _ _ _ _ _ _ _ _ _ E); [by rewrite elem_of_list_to_set|done].
  - intros h r. rewrite lookup_insert. case_decide as Hh; [|intros Hr; destruct (shelf_rows s Hok h r Hr) as [Hin ?]; split; [by right|done]].
    subst h. intros [= <-]. split; [left|done].
  - intros m [->|Hm]%elem_of_cons; [rewrite lookup_insert_eq; by eexists|]. destruct (shelf_kept s Hok m Hm) as [r Hr].
    exists r. rewrite lookup_insert_ne; [done|]. congruence.
  - intros m [->|Hm]%elem_of_cons; [by exists nonce|exact (shelf_minted s Hok m Hm)].
  - rewrite fmap_cons. constructor; [done|apply Hok].
  - intros rd Hrd. right. by apply Hok.
Qed.

Lemma rel_redeem hash authorizationID attachmentID s : (shelf_ok s -> mkRead hash authorizationID attachmentID ∈ sf_minted s) ->
  Rel s ((fun s => match RedeemDownloadTicket (UnixMilli (sf_now s)) hash (sf_tickets s) with
    | Ok (t, _) => (mkShelf (sf_desk s) (sf_db s) t (sf_cache s) (sf_slots s) (sf_engines s) (sf_minted s) (mkRead hash authorizationID attachmentID :: sf_reads s), Ok tt)
    | Err e => (s, Err e)
    end) s : Shelf * Result MediaError ()).1.
Proof.
  intros Hm. cbv beta. destruct (RedeemDownloadTicket _ _ _) as [[t r]|e] eqn:E; cbn [fst]; [|reflexivity]. intros Hok. split; [|done].
  pose proof E as E'. unfold RedeemDownloadTicket in E'. destruct (sf_tickets s !! hash) as [r0|] eqn:Er; [|done]. destruct (_ || _); [done|]. injection E' as <- <-.
  split; cbn [sf_tickets sf_minted sf_reads]; try apply Hok.
  - eapply rtc_r; [exact (shelf_counted s Hok)|]. by eapply dt_redeem.
  - intros h r. rewrite lookup_insert. case_decide as Hh; [|apply Hok]. subst h. intros [= <-]. exact (shelf_rows s Hok hash r0 Er).
  - intros m Hin. destruct (shelf_kept s Hok m Hin) as [x Hx]. rewrite lookup_insert. case_decide; [by eexists|by exists x].
  - intros rd [->|Hrd]%elem_of_cons; [by apply Hm|by apply Hok].
Qed.

(** ** The programs *)

Notation safe := (steady Rel).
Notation on_cache_safe := (steady_lift Rel sf_cache on_cache).

Lemma cache_same s c : Rel s (on_cache c s).
Proof. by apply rel_untouched. Qed.

Lemma safe_fetch w a s : safe (fetch dir w a) s.
Proof.
  unfold fetch. apply (steady_look Rel). intros s1 _. destruct (negb _); [apply steady_ret|]. destruct (if decide _ then _ else _) as [key|e]; [|apply steady_ret].
  destruct (wd_phone w _ _ key) as [data|e]; [|apply steady_ret]. apply (steady_look Rel). intros s2 _. apply (steady_look Rel). intros s3 _.
  apply (steady_bind Rel); [apply on_cache_safe, cache_same|]. intros r s4 _. apply steady_ret.
Qed.

Lemma safe_bytes w caller a s : safe (attachmentBytes dir w caller a) s.
Proof.
  unfold attachmentBytes. apply (steady_look Rel). intros s1 _. apply (steady_bind Rel); [apply on_cache_safe, cache_same|]. intros hit s2 _.
  assert (safe (if negb (bool_decide (aa_DownloadState a = DownloadStateAvailable)) then mret (Err (media_pending a))
    else acquire_download caller ≫= fun slot =>
      match slot with
      | Err e => mret (Err (translateAuthzError e))
      | Ok h => fetch dir w a ≫= fun r => modify (fun s => on_slots (Release h (sf_slots s)) s) ≫= fun _ => mret r
      end) s2) as Hmiss.
  { destruct (negb _); [apply steady_ret|]. apply steady_act. intros s3 _. cbv zeta. destruct (Acquire ConcurrencyDownloads _ _ _) as [c|e]; cbn [fst snd].
    - split; [by apply rel_untouched|]. apply (steady_bind Rel); [apply safe_fetch|]. intros r s4 _. apply steady_modify. intros s5 _. split; [by apply rel_untouched|apply steady_ret].
    - split; [reflexivity|apply steady_ret]. }
  destruct hit as [[data|]|e]; [apply steady_ret|exact Hmiss|exact Hmiss].
Qed.

Lemma safe_digest w caller a s : safe (attachmentDigest reg env dir w caller a) s.
Proof.
  unfold attachmentDigest. destruct (decide _); [apply steady_ret|]. destruct (decide _); [apply steady_ret|]. apply (steady_look Rel). intros s1 _.
  destruct (_ <? _); [apply steady_ret|]. apply (steady_bind Rel); [apply safe_bytes|]. intros [data|e] s2 _; [|apply steady_ret].
  apply steady_modify. intros s3 _. split; [by apply rel_untouched|apply steady_ret].
Qed.

Lemma safe_metadata w nonce caller attachmentID s : safe (attachmentsGet reg env signer dir w nonce caller attachmentID) s.
Proof.
  unfold attachmentsGet. apply (steady_bind Rel).
  { unfold readAttachment. destruct (CheckIDPrefix _ _ _); [apply steady_ret|]. apply (steady_look Rel). intros s1 _. apply steady_ret. }
  intros [a|e] s1 _; [|apply steady_ret]. apply (steady_bind Rel); [apply safe_digest|]. intros [digest reason] s2 _. cbv zeta.
  destruct (MintTicket signer KindDownload (aa_ID a) nonce) as [value hash] eqn:Em. apply (steady_look Rel). intros s3 _. apply steady_act. intros s4 _.
  split; [apply (rel_mint _ _ _ _ nonce); by rewrite Em|]. destruct (MintDownloadTicket _ _ _ _ _ _ _ _); cbn [fst snd]; [|apply steady_ret].
  apply (steady_look Rel). intros s5 _. apply steady_ret.
Qed.

(** A ticket that verifies for an attachment is the row of that attachment. *)
Lemma verified_row token attachmentID hash s r : shelf_ok s -> VerifyTicket signer token KindDownload attachmentID = Some hash ->
  sf_tickets s !! hash = Some r -> mkRead hash (dt_authorization_id r) attachmentID ∈ sf_minted s.
Proof.
  intros Hok Hv Hr. destruct (shelf_rows s Hok hash r Hr) as [Hin _]. destruct (shelf_minted s Hok _ Hin) as [nonce Hn]. cbn [rd_hash rd_attachment] in Hn.
  assert (hash = HashToken token) as Eh.
  { unfold VerifyTicket in Hv. destruct (strip_prefix _ _) as [body|]; [|done]. cbn [mbind option_bind] in Hv. destruct (cut_last DOT body) as [[n pr]|]; [|done].
    cbn [mbind option_bind] in Hv. destruct (decide _); [done|]. destruct (decide _); [|done]. by injection Hv. }
  assert (token = (MintTicket signer KindDownload (dt_attachment_id r) nonce).1) as ->.
  { rewrite Eh in Hn. unfold MintTicket, HashToken in Hn. cbv zeta in Hn. cbn [snd] in Hn. by apply (inj sha256_hex) in Hn. }
  apply verify_minted in Hv as (_ & -> & _). exact Hin.
Qed.

Lemma safe_authorise w token attachmentID s : shelf_ok s -> safe (authoriseDownload signer service w token attachmentID) s.
Proof.
  intros Hok. unfold authoriseDownload.
  assert (safe (look (fun s => Authenticate service (sf_now s) token (md_auth (sf_desk s))) ≫= fun auth =>
      match auth with
      | Err _ => mret (Err (InvalidToken "the token was refused"))
      | Ok caller =>
          match Require_ (Some caller) ScopeMessagesRead with
          | Some _ => mret (Err (InsufficientScope ScopeMessagesRead))
          | None => match wd_bucket w with Some e => mret (Err (translateAuthzError e)) | None => mret (Ok (ca_ID caller)) end
          end
      end) s) as Htoken.
  { apply (steady_look Rel). intros s1 _. destruct (Authenticate _ _ _ _) as [caller|e]; [|apply steady_ret].
    destruct (Require_ _ _); [apply steady_ret|]. destruct (wd_bucket w); apply steady_ret. }
  destruct (KindOf token) as [[]|]; [exact Htoken| |exact Htoken]. clear Htoken. destruct (VerifyTicket _ _ _ _) as [hash|] eqn:Ev; [|apply steady_ret].
  apply (steady_look Rel). intros s1 R1. unfold DownloadTicketByHash. destruct (sf_tickets s1 !! hash) as [r|] eqn:Er; [|apply steady_ret].
  apply (steady_bind Rel); [apply steady_lift; intros; by apply rel_untouched|]. intros [] s2 R2; [|apply steady_ret]. apply steady_act. intros s3 R3. split.
  - apply rel_redeem. intros _. apply R3; [by apply R2, R1|]. apply R2; [by apply R1|]. eapply verified_row; [by apply R1|done|done].
  - destruct (RedeemDownloadTicket _ _ _) as [[t r']|e]; apply steady_ret.
Qed.

Lemma safe_content w attachmentID bearer s : shelf_ok s -> safe (attachmentContent signer dir service w attachmentID bearer) s.
Proof.
  intros Hok. unfold attachmentContent. destruct (CheckIDPrefix _ _ _); [apply steady_ret|]. destruct (decide _); [apply steady_ret|].
  apply (steady_bind Rel); [by apply safe_authorise|]. intros [who|e] s1 _; [|apply steady_ret]. apply (steady_look Rel). intros s2 _.
  destruct (ReadAttachment attachmentID s2) as [a|]; [|apply steady_ret]. destruct (negb _); [apply steady_ret|].
  apply (steady_bind Rel); [apply safe_bytes|]. intros [data|e] s3 _; apply steady_ret.
Qed.

(** ** The pool *)

Inductive DownloadRoute : Prog Shelf () -> Prop :=
| route_metadata w nonce caller attachmentID : DownloadRoute (attachmentsGet reg env signer dir w nonce caller attachmentID ≫= fun _ => mret tt)
| route_content w attachmentID bearer : DownloadRoute (attachmentContent signer dir service w attachmentID bearer ≫= fun _ => mret tt).

(** Everything beside the tickets may change: uploads, authorizations, settings, the
    clock, messages, the cache, the accounts. *)
Definition Elsewhere (s s' : Shelf) : Prop := sf_tickets s' = sf_tickets s /\ sf_minted s' = sf_minted s /\ sf_reads s' = sf_reads s.

Definition empty_shelf (s : Shelf) : Prop := sf_tickets s = ∅ /\ sf_minted s = [] /\ sf_reads s = [].

Lemma empty_ok s : empty_shelf s -> shelf_ok s.
Proof.
  intros (Et & Em & Er). split; unfold counted, hashes; rewrite ?Et, ?Em, ?Er; [reflexivity| | | |constructor|].
  - intros h r Hr. by rewrite lookup_empty in Hr.
  - intros m Hm. by apply not_elem_of_nil in Hm.
  - intros m Hm. by apply not_elem_of_nil in Hm.
  - intros rd Hrd. by apply not_elem_of_nil in Hrd.
Qed.

End Pool.

(** ** Witness: five reads and no more *)

Definition quiet {A} (p : Prog Shelf A) : Prog Shelf () := p ≫= fun _ => mret tt.
Definition bare_shelf : Shelf :=
  mkShelf demo_desk demo_messages ∅ (mkCacheState ∅ ∅) NewConcurrencyLimiter {["acct_1"%string]} [] [].
Definition demo_metadata := @attachmentsGet _ _ tagged_crypto _ _ _ empty_registry (fun _ => ""%string) "key" "/data/media" demo_world "nonce" "auth_1" "att_1".
Definition demo_bytes := @attachmentContent _ _ _ tagged_crypto _ "key" "/data/media" demo_service demo_world "att_1" demo_download.1.
Fixpoint times (n : nat) (s : Shelf) : Shelf := match n with O => s | S n' => times n' (run (quiet demo_bytes) s).1 end.
Definition read_out : Shelf := times 6 (run (quiet demo_metadata) bare_shelf).1.

Lemma pool_times starts env n pool s : starts (quiet demo_bytes) -> exists pool', rtc (PoolStep starts env) (pool, s) (pool', times n s).
Proof.
  intros Hp. revert pool s. induction n as [|n IH]; intros pool s; [by exists pool|]. cbn [times].
  destruct (IH (pool ++ [Ret tt]) (run (quiet demo_bytes) s).1) as [pool' Hr]. exists pool'. etransitivity; [by apply pool_spawn|exact Hr].
Qed.

