(* ===== verification/Sources.v ===== *)
(** * Who a request comes from (internal/authz/source.go)

    The value every per-source limit keys on.  Addresses are numbers of 32 or 128 bits, a
    prefix is compared on its top bits, and the texts are parsed as net/netip and net of
    the standard library do.  The theorems: which entry of X-Forwarded-For becomes the
    source, exactly, and that nothing a client writes to its left has a say; that a prefix
    contains the addresses that share its top bits; that an IPv4 address is read back from
    what is printed, so two clients are never one source. *)

From S2P Require Import Prelude GoStrings Encoding Cursor Durations Sessions Tickets MediaCache.

Local Open Scope Z_scope.

(** ** net/netip *)

Inductive Addr : Type := V4 (n : Z) | V6 (n : Z) (zone : string).
#[export] Instance Addr_eq_dec : EqDecision Addr.
Proof. solve_decision. Defined.

Definition BitLen (a : Addr) : Z := match a with V4 _ => 32 | V6 _ _ => 128 end.
Definition withoutZone (a : Addr) : Addr := match a with V4 n => V4 n | V6 n _ => V6 n "" end.

(** An IPv4-mapped IPv6 address is the IPv4 address. *)
Definition Unmap (a : Addr) : Addr :=
  match a with V6 n z => if n / 2 ^ 32 =? 0xffff then V4 (n mod 2 ^ 32) else V6 n z | V4 n => V4 n end.

(** The four fields: [dot] says that the last byte was a dot or that there is none yet. *)
Fixpoint v4_fields (s : string) (dot : bool) (val : Z) (digLen pos : nat) (ip : Z) : option Z :=
  match s with
  | EmptyString => if (pos =? 3)%nat then Some (ip * 256 + val) else None
  | String c s' =>
      match digit_value c with
      | Some d =>
          if (digLen =? 1)%nat && (val =? 0) then None
          else
            let val := val * 10 + Z.of_N d in
            if 255 <? val then None else v4_fields s' false val (S digLen) pos ip
      | None =>
          if decide (c = DOT) then
            if dot || bool_decide (s' = ""%string) then None
            else if (pos =? 3)%nat then None
            else v4_fields s' true 0 0 (S pos) (ip * 256 + val)
          else None
      end
  end.

Definition parseIPv4Fields (s : string) : option Z := v4_fields s true 0 0 0 0.

Definition hex_value (c : Ascii.ascii) : option Z :=
  let b := byte_of c in
  if in_range b 48 57 then Some (b - 48) else if in_range b 97 102 then Some (b - 87) else if in_range b 65 70 then Some (b - 55) else None.

(** At most four hexadecimal digits: their value, how many, and the rest. *)
Fixpoint hex_group (left : nat) (s : string) (acc : Z) (off : nat) : option (Z * nat * string) :=
  match s with
  | EmptyString => Some (acc, off, s)
  | String c s' =>
      match hex_value c with
      | None => Some (acc, off, s)
      | Some d => match left with O => None | S n => hex_group n s' (acc * 16 + d) (S off) end
      end
  end.

(** The loop over the groups of 16 bits; [n] are the groups that are left. *)
Fixpoint v6_groups (n : nat) (s : string) (groups : list Z) (ellipsis : option nat) : option (list Z * option nat * string) :=
  match n with
  | O => Some (groups, ellipsis, s)
  | S n' =>
      match hex_group 4 s 0 0 with
      | None | Some (_, O, _) => None
      | Some (_, _, String c _ as rest) =>
          if decide (c = DOT) then
            if bool_decide (ellipsis = None) && negb (length groups =? 6)%nat then None
            else if (6 <? length groups)%nat then None
            else match parseIPv4Fields s with Some v => Some (groups ++ [v / 65536; v mod 65536], ellipsis, ""%string) | None => None end
          else
            match hex_group 4 s 0 0 with
            | Some (acc, _, _) =>
                let groups := groups ++ [acc] in
                match rest with
                | String c (String d s' as s1) =>
                    if decide (c <> COLON) then None
                    else if decide (d = COLON) then
                      if bool_decide (ellipsis = None) then
                        if decide (s' = ""%string) then Some (groups, Some (length groups), ""%string)
                        else v6_groups n' s' groups (Some (length groups))
                      else None
                    else v6_groups n' s1 groups ellipsis
                | _ => None
                end
            | None => None
            end
      | Some (acc, _, EmptyString) => Some (groups ++ [acc], ellipsis, ""%string)
      end
  end.

Definition join_groups (l : list Z) : Z := fold_left (fun n g => n * 65536 + g) l 0.

Definition v6_of (groups : list Z) (ellipsis : option nat) (rest zone : string) : option Addr :=
  if negb (bool_decide (rest = ""%string)) then None
  else if (length groups <? 8)%nat then
    match ellipsis with
    | None => None
    | Some e => Some (V6 (join_groups (take e groups ++ replicate (8 - length groups) 0 ++ drop e groups)) zone)
    end
  else if bool_decide (ellipsis = None) then Some (V6 (join_groups groups) zone) else None.

Definition PERCENT : Ascii.ascii := char_of 37.

Definition parseIPv6 (s : string) : option Addr :=
  let '(s, zone) := match Cut PERCENT s with Some (a, z) => (a, Some z) | None => (s, None) end in
  if bool_decide (zone = Some ""%string) then None
  else
    let zone := default ""%string zone in
    match s with
    | String c1 (String c2 s' as s1) =>
        if decide (c1 = COLON /\ c2 = COLON) then
          if decide (s' = ""%string) then Some (V6 0 zone)
          else '(groups, e, rest) ← v6_groups 8 s' [] (Some O); v6_of groups e rest zone
        else '(groups, e, rest) ← v6_groups 8 s [] None; v6_of groups e rest zone
    | _ => '(groups, e, rest) ← v6_groups 8 s [] None; v6_of groups e rest zone
    end.

(** The first of a dot, a colon and a percent sign says what the text is. *)
Fixpoint addr_kind (s : string) : option Ascii.ascii :=
  match s with
  | EmptyString => None
  | String c s' => if decide (c = DOT \/ c = COLON \/ c = PERCENT) then Some c else addr_kind s'
  end.

Definition ParseAddr (s : string) : option Addr :=
  match addr_kind s with
  | Some c => if decide (c = DOT) then V4 <$> parseIPv4Fields s else if decide (c = COLON) then parseIPv6 s else None
  | None => None
  end.

(** [Addr.String]. *)
Definition v4_string (n : Z) : string :=
  FormatInt (n / 2 ^ 24 mod 256) +:+ String DOT (FormatInt (n / 2 ^ 16 mod 256) +:+ String DOT
    (FormatInt (n / 2 ^ 8 mod 256) +:+ String DOT (FormatInt (n mod 256)))).

Definition hex_char (d : Z) : Ascii.ascii := if d <? 10 then char_of (48 + d) else char_of (87 + d).
Definition hex_string (g : Z) : string :=
  let d3 := g / 4096 mod 16 in let d2 := g / 256 mod 16 in let d1 := g / 16 mod 16 in let d0 := g mod 16 in
  if negb (d3 =? 0) then String (hex_char d3) (String (hex_char d2) (String (hex_char d1) (String (hex_char d0) "")))
  else if negb (d2 =? 0) then String (hex_char d2) (String (hex_char d1) (String (hex_char d0) ""))
  else if negb (d1 =? 0) then String (hex_char d1) (String (hex_char d0) "")
  else String (hex_char d0) "".

Definition group_of (n : Z) (i : nat) : Z := n / 2 ^ (16 * (7 - Z.of_nat i)) mod 65536.
Definition groups_of (n : Z) : list Z := group_of n <$> seq 0 8.

Fixpoint zero_run (l : list Z) : nat := match l with 0 :: l' => S (zero_run l') | _ => O end.

(** The first longest run of at least two zero groups: where it starts and ends. *)
Definition longest_run (l : list Z) : option (nat * nat) :=
  fold_left (fun best i =>
    let len := zero_run (drop i l) in
    if (2 <=? len)%nat && (match best with Some (s, e) => e - s | None => 0 end <? len)%nat then Some (i, (i + len)%nat) else best) (seq 0 (length l)) None.

Definition COLON2 : string := String COLON (String COLON "").

Definition v6_string (n : Z) (zone : string) : string :=
  let l := groups_of n in
  let text l := Join COLON (hex_string <$> l) in
  match longest_run l with
  | Some (s, e) => text (take s l) +:+ COLON2 +:+ text (drop e l)
  | None => text l
  end +:+ (if decide (zone = ""%string) then ""%string else String PERCENT zone).

Definition Addr_string (a : Addr) : string := match a with V4 n => v4_string n | V6 n z => v6_string n z end.

(** *** Prefixes; one with bits out of range is invalid *)

Inductive Prefix : Type := mkPrefix (ip : Addr) (bits : Z) | NoPrefix.

Definition PrefixFrom (ip : Addr) (bits : Z) : Prefix :=
  if (bits <? 0) || (BitLen ip <? bits) then NoPrefix else mkPrefix (withoutZone ip) bits.

Definition clear_low (n k : Z) : Z := Z.shiftl (Z.shiftr n k) k.

Definition Masked (p : Prefix) : Prefix :=
  match p with
  | mkPrefix (V4 n) b => mkPrefix (V4 (clear_low n (32 - b))) b
  | mkPrefix (V6 n z) b => mkPrefix (V6 (clear_low n (128 - b)) z) b
  | NoPrefix => NoPrefix
  end.

Definition Contains (p : Prefix) (ip : Addr) : bool :=
  match p, ip with
  | mkPrefix (V4 n) b, V4 m => Z.shiftr (Z.lxor m n) (32 - b) =? 0
  | mkPrefix (V6 n _) b, V6 m z => bool_decide (z = ""%string) && (Z.shiftr (Z.lxor m n) (128 - b) =? 0)
  | _, _ => false
  end.

Definition parse_bits (s : string) : option Z :=
  match s with
  | String c (String _ _) => if in_range (byte_of c) 49 57 then Z.of_N <$> ParseUint s else None
  | _ => Z.of_N <$> ParseUint s
  end.

Definition ParsePrefix (s : string) : option (Addr * Z) :=
  '(a, b) ← cut_last SLASH s;
  ip ← ParseAddr a;
  if bool_decide (withoutZone ip = ip) then
    bits ← parse_bits b;
    if BitLen ip <? bits then None else Some (ip, bits)
  else None.

(** [net.SplitHostPort], the host. *)
Definition LBRACKET : Ascii.ascii := char_of 91.
Definition RBRACKET : Ascii.ascii := char_of 93.

Definition SplitHost (s : string) : option string :=
  match cut_last COLON s with
  | None => None
  | Some (host, _) =>
      match s with
      | String c s1 =>
          if decide (c = LBRACKET) then
            match Cut RBRACKET s1 with
            | Some (inner, String d rest) =>
                if decide (d = COLON) then
                  if has_byte COLON rest || has_byte LBRACKET s1 || has_byte RBRACKET rest then None else Some inner
                else None
            | _ => None
            end
          else if has_byte COLON host || has_byte LBRACKET s || has_byte RBRACKET s then None else Some host
      | EmptyString => None
      end
  end.

(** ** The resolver *)

Definition SourceModeSocketPeer : string := "socket_peer".
Definition SourceModeTrustedProxy : string := "trusted_proxy".

Record Source := mkSource { src_Value : string; src_Mode : string; src_ForwardedProto : string; src_ForwardedHost : string }.

(** [http.Header]: the values of a name; the absent map has none. *)
Definition Header : Type := string -> list string.
Definition header_Get (h : Header) (name : string) : string := default ""%string (head (h name)).

Notation SourceResolver := (list Prefix).

Definition COMMA : Ascii.ascii := char_of 44.

Definition parsePrefix (entry : string) : option Prefix :=
  if has_byte SLASH entry then
    '(ip, bits) ← ParsePrefix entry;
    Some (Masked (PrefixFrom (Unmap ip) bits))
  else
    a ← ParseAddr entry;
    Some (PrefixFrom (Unmap a) (BitLen (Unmap a))).

Fixpoint parse_list (entries : list string) : option SourceResolver :=
  match entries with
  | [] => Some []
  | raw :: entries' =>
      let entry := TrimSpace raw in
      if decide (entry = ""%string) then parse_list entries'
      else p ← parsePrefix entry; l ← parse_list entries'; Some (p :: l)
  end.

Definition NewSourceResolver (cidrList : string) : option SourceResolver := parse_list (Split COMMA cidrList).

Definition Trusts (r : SourceResolver) : bool := (0 <? length r)%nat.
Definition Mode (r : SourceResolver) : string := if Trusts r then SourceModeTrustedProxy else SourceModeSocketPeer.
Definition contains (r : SourceResolver) (addr : Addr) : bool := existsb (fun p => Contains p (Unmap addr)) r.

(** [strings.TrimPrefix(strings.TrimSuffix(s, "]"), "[")]. *)
Definition trim_brackets (s : string) : string :=
  let s := match cut_last RBRACKET s with Some (a, EmptyString) => a | _ => s end in
  match s with String c s' => if decide (c = LBRACKET) then s' else s | EmptyString => s end.

Definition parsePeer (remoteAddr : string) : option Addr :=
  let s := TrimSpace remoteAddr in
  if decide (s = ""%string) then None
  else
    let s := trim_brackets (default s (SplitHost s)) in
    let s := match Cut PERCENT s with Some (a, _) => a | None => s end in
    Unmap <$> ParseAddr s.

Definition forwardedFor (h : Header) : list string :=
  concat ((fun v => TrimSpace <$> Split COMMA v) <$> h "X-Forwarded-For"%string).

(** [strings.Trim(s, "[]")]. *)
Definition is_bracket (c : Ascii.ascii) : bool := bool_decide (c = LBRACKET) || bool_decide (c = RBRACKET).
Fixpoint trim_left (s : string) : string := match s with String c s' => if is_bracket c then trim_left s' else s | EmptyString => s end.
Fixpoint trim_right (s : string) : string :=
  match s with
  | EmptyString => EmptyString
  | String c s' => match trim_right s' with EmptyString => if is_bracket c then EmptyString else String c EmptyString | t => String c t end
  end.

Definition parseForwardedEntry (entry : string) : option Addr :=
  let s := TrimSpace entry in
  if decide (s = ""%string) then None
  else
    match ParseAddr (trim_right (trim_left s)) with
    | Some a => Some (Unmap a)
    | None => host ← SplitHost s; Unmap <$> ParseAddr host
    end.

(** The walk over the entries, the last one first. *)
Fixpoint walk_hops (r : SourceResolver) (peer : string) (hops : list string) : string :=
  match hops with
  | [] => peer
  | e :: hops' =>
      match parseForwardedEntry e with
      | None => peer
      | Some hop => if contains r hop then walk_hops r peer hops' else Addr_string hop
      end
  end.

Definition Resolve (r : SourceResolver) (remoteAddr : string) (h : Header) : Source :=
  let peer := parsePeer remoteAddr in
  let value := match peer with Some a => Addr_string a | None => SourceUnknown end in
  let trusted := match peer with Some a => Trusts r && contains r a | None => false end in
  mkSource (if trusted then walk_hops r value (reverse (forwardedFor h)) else value) (Mode r)
    (header_Get h "X-Forwarded-Proto") (header_Get h "X-Forwarded-Host").

Example parse_texts :
  ParseAddr "10.1.2.3" = Some (V4 0x0a010203) /\ ParseAddr "10.01.2.3" = None /\ ParseAddr "1.2.3" = None /\ ParseAddr "1.2.3.256" = None /\
  ParseAddr "::" = Some (V6 0 "") /\ ParseAddr "2001:db8::1" = Some (V6 0x20010db8000000000000000000000001 "") /\
  ParseAddr "::ffff:1.2.3.4" = Some (V6 0xffff01020304 "") /\ ParseAddr "fe80::1%eth0" = Some (V6 0xfe800000000000000000000000000001 "eth0") /\
  ParseAddr "1:2:3:4:5:6:7:8" = Some (V6 0x00010002000300040005000600070008 "") /\ ParseAddr "1:2:3:4:5:6:7::8" = None /\ ParseAddr "1::2::3" = None /\
  ParseAddr "12345::" = None /\ ParseAddr "1:" = None /\ ParseAddr "%" = None /\ ParseAddr "1:2:3:4:5:6:1.2.3.4" = Some (V6 0x00010002000300040005000601020304 "").
Proof. by vm_compute. Qed.

Example print_texts :
  Addr_string (V6 0x20010db8000000000000000000000001 "") = "2001:db8::1"%string /\ Addr_string (V6 0 "") = "::"%string /\ Addr_string (V4 0x0a010203) = "10.1.2.3"%string /\
  Addr_string (V6 0x00010000000200000000000300000000 "eth0") = "1:0:2::3:0:0%eth0"%string.
Proof. by vm_compute. Qed.

Example hosts : SplitHost "[::1]:80" = Some "::1"%string /\ SplitHost "1.2.3.4:80" = Some "1.2.3.4"%string /\ SplitHost "::1" = None /\ SplitHost "[::1]" = None.
Proof. by vm_compute. Qed.

(** ** A prefix holds what shares its top bits *)

Lemma shifted_equal m n k : 0 <= k -> (Z.shiftr (Z.lxor m (clear_low n k)) k =? 0) = true <-> m / 2 ^ k = n / 2 ^ k.
Proof.
  intros Hk. unfold clear_low. rewrite Z.eqb_eq, Z.shiftr_lxor, Z.shiftr_shiftl_l, Z.sub_diag, Z.shiftl_0_r by lia.
  rewrite Z.lxor_eq_0_iff, !Z.shiftr_div_pow2 by lia. done.
Qed.

Lemma Contains_exact ip b a : 0 <= b <= BitLen ip -> withoutZone ip = ip ->
  Contains (Masked (PrefixFrom ip b)) a = true <->
  withoutZone a = a /\ match ip, a with
    | V4 n, V4 m => m / 2 ^ (32 - b) = n / 2 ^ (32 - b)
    | V6 n _, V6 m _ => m / 2 ^ (128 - b) = n / 2 ^ (128 - b)
    | _, _ => False
    end.
Proof.
  intros Hb Hip. unfold PrefixFrom. replace ((b <? 0) || (BitLen ip <? b)) with false by (symmetry; apply orb_false_iff; rewrite !Z.ltb_ge; lia).
  rewrite Hip. destruct ip as [n|n zn], a as [m|m z]; cbn [Masked Contains BitLen withoutZone] in *; try (split; [done|by intros [_ []]]).
  - rewrite shifted_equal by lia. naive_solver.
  - rewrite andb_true_iff, bool_decide_eq_true, shifted_equal by lia. naive_solver.
Qed.

(** ** An IPv4 address is read back *)

Fixpoint octet (t : string) (val : Z) (digLen : nat) : option (Z * nat) :=
  match t with
  | EmptyString => Some (val, digLen)
  | String c t' =>
      match digit_value c with
      | Some d => if (digLen =? 1)%nat && (val =? 0) then None
                  else if 255 <? val * 10 + Z.of_N d then None else octet t' (val * 10 + Z.of_N d) (S digLen)
      | None => None
      end
  end.

Lemma octet_fields t val digLen val' digLen' rest dot pos ip : octet t val digLen = Some (val', digLen') -> t <> ""%string ->
  v4_fields (t +:+ rest) dot val digLen pos ip = v4_fields rest false val' digLen' pos ip.
Proof.
  revert val digLen dot. induction t as [|c t IH]; intros val digLen dot E Hne; [done|]. simpl in E |- *. destruct (digit_value c) as [d|]; [|done].
  destruct (_ && _); [done|]. destruct (255 <? _); [done|]. destruct (decide (t = ""%string)) as [->|Ht]; [by injection E as <- <-|]. by apply IH.
Qed.

Definition octet_good (o : Z) : bool :=
  match octet (FormatInt o) 0 0 with Some (v, _) => (v =? o) | None => false end && negb (bool_decide (FormatInt o = ""%string)) && bool_decide (addr_kind (FormatInt o) = None).

Lemma octets_good o : 0 <= o < 256 -> octet_good o = true.
Proof.
  intros Ho. assert (forallb octet_good (seqZ 0 256) = true) as Hall by by vm_compute. rewrite forallb_forall in Hall. apply Hall, list_elem_of_In, elem_of_seqZ. lia.
Qed.

Lemma octet_step o rest dot pos ip : 0 <= o < 256 -> exists k, v4_fields (FormatInt o +:+ rest) dot 0 0 pos ip = v4_fields rest false o k pos ip.
Proof.
  intros Ho. pose proof (octets_good o Ho) as Hg. unfold octet_good in Hg. destruct (octet (FormatInt o) 0 0) as [[v k]|] eqn:E; [|done].
  bool_to_prop. assert (v = o) as -> by lia. exists k. apply octet_fields; [done|tauto].
Qed.

Lemma kind_app t c rest : addr_kind t = None -> c = DOT \/ c = COLON \/ c = PERCENT -> addr_kind (t +:+ String c rest) = Some c.
Proof. intros Ht Hc. induction t as [|d t IH]; simpl in *; [by rewrite decide_True|]. destruct (decide _); [done|]. by apply IH. Qed.

Lemma octet_dot o rest dot pos ip : 0 <= o < 256 -> (pos < 3)%nat -> rest <> ""%string ->
  v4_fields (FormatInt o +:+ String DOT rest) dot 0 0 pos ip = v4_fields rest true 0 0 (S pos) (ip * 256 + o).
Proof.
  intros Ho Hp Hr. destruct (octet_step o (String DOT rest) dot pos ip Ho) as [k ->]. cbn [v4_fields]. change (digit_value DOT) with (@None N). cbv iota.
  rewrite decide_True, bool_decide_eq_false_2 by done. cbn [orb]. by rewrite (proj2 (Nat.eqb_neq pos 3)) by lia.
Qed.

Lemma octet_nonempty o : 0 <= o < 256 -> FormatInt o <> ""%string.
Proof. intros Ho. pose proof (octets_good o Ho) as Hg. unfold octet_good in Hg. bool_to_prop. tauto. Qed.

Lemma app_nonempty (a b : string) : a <> ""%string \/ b <> ""%string -> a +:+ b <> ""%string.
Proof. intros [Ha|Hb]; [by destruct a|]. by destruct a. Qed.

Lemma v4_roundtrip n : 0 <= n < 2 ^ 32 -> ParseAddr (Addr_string (V4 n)) = Some (V4 n).
Proof.
  intros Hn. unfold ParseAddr, Addr_string, v4_string. set (a := n / 2 ^ 24 mod 256). set (b := n / 2 ^ 16 mod 256). set (c := n / 2 ^ 8 mod 256). set (d := n mod 256).
  assert (0 <= a < 256 /\ 0 <= b < 256 /\ 0 <= c < 256 /\ 0 <= d < 256) as (Ha & Hb & Hc & Hd) by (unfold a, b, c, d; split_and!; apply Z.mod_pos_bound; lia).
  rewrite kind_app; [|pose proof (octets_good a Ha) as Hg; unfold octet_good in Hg; by bool_to_prop|by left]. rewrite decide_True by done.
  unfold parseIPv4Fields. rewrite !octet_dot by (lia || done || (by apply app_nonempty; right) || by apply octet_nonempty).
  destruct (octet_step d "" true 3 (((0 * 256 + a) * 256 + b) * 256 + c) Hd) as [k Hk]. rewrite append_empty in Hk. rewrite Hk. cbn [v4_fields fmap option_fmap option_map Nat.eqb].
  f_equal. f_equal. unfold a, b, c, d. clear -Hn.
  rewrite (Z.mod_small (n / 2 ^ 24)) by (split; [apply Z.div_pos; lia|apply Z.div_lt_upper_bound; lia]).
  rewrite !Z.mod_eq by lia. rewrite !Z.div_div by lia. change (2 ^ 8 * 256) with (2 ^ 16). change (2 ^ 16 * 256) with (2 ^ 24). change (2 ^ 8) with 256. lia.
Qed.

(** ** Nothing is nobody *)

Lemma v4_nonempty n : v4_string n <> ""%string.
Proof. unfold v4_string. apply app_nonempty. by right. Qed.

Lemma hex_nonempty g : hex_string g <> ""%string.
Proof. unfold hex_string. by repeat destruct (negb _). Qed.

Lemma v6_nonempty n z : v6_string n z <> ""%string.
Proof.
  unfold v6_string. apply app_nonempty. left. destruct (longest_run _) as [[s e]|]; [apply app_nonempty; by right|].
  cbn [groups_of fmap list_fmap seq]. unfold Join. cbn [String.concat]. apply app_nonempty. left. apply hex_nonempty.
Qed.

Lemma Addr_nonempty a : Addr_string a <> ""%string.
Proof. destruct a; [apply v4_nonempty|apply v6_nonempty]. Qed.

(** ** Which hop *)

Definition trusted_hop (r : SourceResolver) (e : string) : Prop := exists a, parseForwardedEntry e = Some a /\ contains r a = true.

Lemma walk_skips r peer after e hops : Forall (trusted_hop r) after -> walk_hops r peer (after ++ e :: hops) = walk_hops r peer (e :: hops).
Proof. induction 1 as [|x after (a & Ha & Hc) _ IH]; [done|]. cbn [app walk_hops] in *. by rewrite Ha, Hc. Qed.

Lemma walk_all r peer hops : Forall (trusted_hop r) hops -> walk_hops r peer hops = peer.
Proof. induction 1 as [|x hops (a & Ha & Hc) _ IH]; [done|]. cbn [walk_hops]. by rewrite Ha, Hc. Qed.

(** The first hop that is not a trusted proxy, if there is one. *)
Lemma hops_split r hops : Forall (trusted_hop r) hops \/ exists after e before, hops = after ++ e :: before /\ Forall (trusted_hop r) after /\ ~ trusted_hop r e.
Proof.
  induction hops as [|e hops IH]; [by left|]. assert (trusted_hop r e \/ ~ trusted_hop r e) as [He|He].
  { unfold trusted_hop. destruct (parseForwardedEntry e) as [a|]; [|by right; intros (? & ? & _)].
    destruct (contains r a) eqn:Ec; [left; by exists a|right; intros (? & [= <-] & ?); congruence]. }
  - destruct IH as [IH|(after & x & before & -> & Hr & Hx)]; [left; by constructor|]. right. exists (e :: after), x, before. split; [done|]. split; [by constructor|done].
  - right. by exists [], e, hops.
Qed.

(** C29: the source of a request is the connection's own address, or the rightmost entry of
    X-Forwarded-For that is not a trusted proxy when the connection is one.  It is never
    empty; without a trusted connection no header has any say; with one, the entries to the
    right of the deciding entry are all trusted proxies, an entry that does not parse
    decides for the connection's own address, and nothing to the left of the deciding entry,
    which is all that a client can write, changes anything. *)
Theorem source_exact r remoteAddr h :
  let direct := match parsePeer remoteAddr with Some a => Addr_string a | None => SourceUnknown end in
  let trusted := exists peer, parsePeer remoteAddr = Some peer /\ contains r peer = true in
  src_Value (Resolve r remoteAddr h) <> ""%string /\
  (~ trusted -> src_Value (Resolve r remoteAddr h) = direct) /\
  (trusted -> Forall (trusted_hop r) (forwardedFor h) /\ src_Value (Resolve r remoteAddr h) = direct \/
     exists before e after, forwardedFor h = before ++ e :: after /\ Forall (trusted_hop r) after /\ ~ trusted_hop r e /\
       src_Value (Resolve r remoteAddr h) = match parseForwardedEntry e with Some hop => Addr_string hop | None => direct end /\
       forall h' before', forwardedFor h' = before' ++ e :: after -> src_Value (Resolve r remoteAddr h') = src_Value (Resolve r remoteAddr h)).
Proof.
  intros direct trusted. assert (direct <> ""%string) as Hd by (unfold direct; destruct (parsePeer remoteAddr); [apply Addr_nonempty|done]).
  assert (forall h, ~ trusted -> src_Value (Resolve r remoteAddr h) = direct) as Hno.
  { intros h0 Ht. unfold Resolve, direct. cbn [src_Value]. destruct (parsePeer remoteAddr) as [a|] eqn:Ep; [|done].
    destruct (Trusts r && contains r a) eqn:Ec; [|done]. apply andb_true_iff in Ec as [_ Ec]. destruct Ht. by exists a. }
  assert (forall h, trusted -> src_Value (Resolve r remoteAddr h) = walk_hops r direct (reverse (forwardedFor h))) as Hyes.
  { intros h0 (a & Ep & Ec). unfold Resolve, direct. cbn [src_Value]. rewrite Ep, Ec. unfold Trusts. by destruct r. }
  assert (forall h before e after, trusted -> forwardedFor h = before ++ e :: after -> Forall (trusted_hop r) after -> ~ trusted_hop r e ->
    src_Value (Resolve r remoteAddr h) = match parseForwardedEntry e with Some hop => Addr_string hop | None => direct end) as Hdec.
  { intros h0 before e after Ht Hf Hr He. rewrite Hyes, Hf, reverse_app, reverse_cons, <- app_assoc by done. cbn [app].
    rewrite walk_skips by by apply Forall_reverse. cbn [walk_hops]. destruct (parseForwardedEntry e) as [hop|] eqn:Ee; [|done].
    destruct (contains r hop) eqn:Ec; [|done]. destruct He. by exists hop. }
  assert (trusted -> Forall (trusted_hop r) (forwardedFor h) /\ src_Value (Resolve r remoteAddr h) = direct \/
     exists before e after, forwardedFor h = before ++ e :: after /\ Forall (trusted_hop r) after /\ ~ trusted_hop r e) as Hcases.
  { intros Ht. destruct (hops_split r (reverse (forwardedFor h))) as [Hall|(after & e & before & Hf & Hr & He)].
    - left. split; [apply Forall_reverse in Hall; by rewrite reverse_involutive in Hall|]. rewrite Hyes by done. by apply walk_all.
    - right. exists (reverse before), e, (reverse after). split; [|split; [by apply Forall_reverse|done]].
      rewrite <- (reverse_involutive (forwardedFor h)), Hf, reverse_app, reverse_cons, <- app_assoc. done. }
  assert (trusted \/ ~ trusted) as Hdt.
  { unfold trusted. destruct (parsePeer remoteAddr) as [a|]; [|by right; intros (? & ? & _)]. destruct (contains r a) eqn:Ec; [left; by exists a|right; intros (? & [= <-] & ?); congruence]. }
  split; [|split; [by apply Hno|]].
  - destruct Hdt as [Ht|Ht]; [|by rewrite Hno]. destruct (Hcases Ht) as [[_ ->]|(before & e & after & Hf & Hr & He)]; [done|].
    rewrite (Hdec h before e after) by done. destruct (parseForwardedEntry e); [apply Addr_nonempty|done].
  - intros Ht. destruct (Hcases Ht) as [Hall|(before & e & after & Hf & Hr & He)]; [by left|]. right. exists before, e, after.
    split_and!; [done..| |]; [by eapply Hdec|]. intros h' before' Hf'. by rewrite (Hdec h before e after), (Hdec h' before' e after).
Qed.

(** A mapped prefix is accepted, turns the mode on, and contains nothing. *)
Lemma mapped_prefix_inert : exists r, NewSourceResolver "::ffff:10.0.0.0/104" = Some r /\ Mode r = SourceModeTrustedProxy /\ forall a, contains r a = false.
Proof. eexists. split; [by vm_compute|]. split; [done|]. intros a. by destruct (Unmap a). Qed.

(** Brackets that do not match are accepted, and a zone makes an address another one. *)
Lemma brackets_and_zones : parseForwardedEntry "]]1.2.3.4[" = Some (V4 0x01020304) /\
  exists r, NewSourceResolver "fe80::/10" = Some r /\ contains r (V6 (0xfe80 * 2 ^ 112 + 1) "") = true /\ contains r (V6 (0xfe80 * 2 ^ 112 + 1) "eth0") = false.
Proof. split; [by vm_compute|]. eexists. split; [by vm_compute|]. by vm_compute. Qed.

(** ** Witness: a client behind two proxies that forges an entry *)

Definition two_proxies : SourceResolver := default [] (NewSourceResolver "10.0.0.0/8, 127.0.0.1").
Definition forged : Header := fun name => if decide (name = "X-Forwarded-For"%string) then ["8.8.8.8, 203.0.113.7"; "10.0.0.2"]%string else [].

Example source_exact_witness : src_Value (Resolve two_proxies "127.0.0.1:4711" forged) = "203.0.113.7"%string.
Proof.
  pose proof (source_exact two_proxies "127.0.0.1:4711" forged) as (_ & _ & Hs).
  destruct Hs as [[Hall _]|(before & e & after & Hf & Ha & He & Hv & _)]; [by eexists (V4 0x7f000001)|exfalso|].
  - apply Forall_cons in Hall as [(a & Ha & Hc) _]. vm_compute in Ha. injection Ha as <-. by vm_compute in Hc.
  - by vm_compute.
Defined.
