(* ===== verification/Redirects.v ===== *)
(** * Redirect URIs (internal/oauth/redirect.go)

    What a client may register, and what an authorization request may name.  net/url of
    the standard library is written out as far as the rules look at it: [url_Parse] with
    the scheme, the authority, the escapes and the brackets of IPv6 literals, as of the
    version go.mod names; case folding is over the tables of the [unicode] package.  The
    theorem is about the text, not about the parser: an accepted URI spells its scheme
    and host literally, whatever a browser would make of the rest, and an accepted
    loopback URI differs from the registered one only in its port. *)

From S2P Require Import Prelude GoStrings Encoding Capability Supervisor Cursor Durations Sessions Tickets MediaCache Sources.

Local Open Scope Z_scope.

(** ** Case folding (strings.EqualFold) *)

(** A representative of the orbit of a rune under [unicode.SimpleFold]. *)
Class Folding := { simple_fold : Z -> Z }.

Definition EqualFold `{Folding} (s t : string) : bool := bool_decide (simple_fold <$> runes s = simple_fold <$> runes t).

(** The orbit of an ASCII rune: the other case, the long s, the Kelvin sign. *)
Definition ascii_orbit (a r : Z) : Prop :=
  let low r := if in_range r 65 90 then r + 32 else if r =? 0x17F then 115 else if r =? 0x212A then 107 else r in
  low r = low a.

Definition ascii_only (s : string) : Prop := Forall (fun b => b < 128) (bytes s).

(** ** net/url *)

Inductive encoding : Type := encodePath | encodeHost | encodeZone | encodeUserPassword | encodeFragment.

Definition HASH : Ascii.ascii := char_of 35.
Definition QUESTION : Ascii.ascii := char_of 63.
Definition AT : Ascii.ascii := char_of 64.

Definition alnum (b : Z) : bool := in_range b 97 122 || in_range b 65 90 || in_range b 48 57.
Definition one_of (l : list Z) (b : Z) : bool := existsb (Z.eqb b) l.
Definition hosted (m : encoding) : bool := match m with encodeHost | encodeZone => true | _ => false end.

(** [shouldEscape]: of the bytes that are not letters or digits, the ones a mode allows. *)
Definition shouldEscape (b : Z) (m : encoding) : bool :=
  if alnum b then false
  else if hosted m && one_of [33; 36; 38; 39; 40; 41; 42; 43; 44; 59; 61; 58; 91; 93; 60; 62; 34] b then false
  else if one_of [45; 95; 46; 126] b then false
  else if one_of [36; 38; 43; 44; 47; 58; 59; 61; 63; 64] b then
    match m with
    | encodePath => b =? 63
    | encodeUserPassword => one_of [64; 47; 63; 58] b
    | encodeFragment => false
    | _ => true
    end
  else match m with encodeFragment => negb (one_of [33; 40; 41; 42] b) | _ => true end.

(** An escape that stands for the byte [a * 16 + b]. *)
Definition escape_allowed (m : encoding) (a b : Z) : bool :=
  let percent := (a =? 2) && (b =? 5) in
  match m with
  | encodeHost => (8 <=? a) || percent
  | encodeZone => percent || (a * 16 + b =? 32) || negb (shouldEscape (a * 16 + b) encodeHost)
  | _ => true
  end.

Fixpoint unescape (m : encoding) (s : string) : option string :=
  match s with
  | EmptyString => Some EmptyString
  | String c s' =>
      if decide (c = PERCENT) then
        match s' with
        | String c1 (String c2 s2) =>
            match hex_value c1, hex_value c2 with
            | Some a, Some b => if escape_allowed m a b then String (char_of (a * 16 + b)) <$> unescape m s2 else None
            | _, _ => None
            end
        | _ => None
        end
      else if hosted m && (byte_of c <? 128) && shouldEscape (byte_of c) m then None
      else String c <$> unescape m s'
  end.

Definition upper_hex (d : Z) : Ascii.ascii := if d <? 10 then char_of (48 + d) else char_of (55 + d).

Fixpoint escape (m : encoding) (s : string) : string :=
  match s with
  | EmptyString => EmptyString
  | String c s' =>
      let b := byte_of c in
      if shouldEscape b m then String PERCENT (String (upper_hex (b / 16)) (String (upper_hex (b mod 16)) (escape m s')))
      else String c (escape m s')
  end.

Definition validEncoded (m : encoding) (s : string) : bool :=
  forallb (fun b => one_of [33; 36; 38; 39; 40; 41; 42; 43; 44; 59; 61; 58; 64; 91; 93; 37] b || negb (shouldEscape b m)) (bytes s).

Record URL := mkURL {
  u_Scheme : string;
  u_Opaque : string;
  u_User : option string;
  u_Host : string;
  u_Path : string;
  u_RawPath : string;
  u_RawQuery : string;
  u_Fragment : string;
}.

(** [None] is an error, [Some None] a text without a scheme. *)
Fixpoint getScheme (first : bool) (s : string) : option (option (string * string)) :=
  match s with
  | EmptyString => Some None
  | String c s' =>
      let b := byte_of c in
      let longer := match getScheme false s' with Some (Some (a, rest)) => Some (Some (String c a, rest)) | r => r end in
      if in_range b 97 122 || in_range b 65 90 then longer
      else if in_range b 48 57 || one_of [43; 45; 46] b then if first then Some None else longer
      else if b =? 58 then if first then None else Some (Some (EmptyString, s'))
      else Some None
  end.

Definition all_digits (s : string) : bool := forallb (fun b => in_range b 48 57) (bytes s).

Definition validOptionalPort (s : string) : bool :=
  match s with EmptyString => true | String c s' => bool_decide (c = COLON) && all_digits s' end.

(** Around the first "%25": what is before it, and from it on. *)
Fixpoint cut_zone (s : string) : option (string * string) :=
  match s with
  | EmptyString => None
  | String c s' =>
      if HasPrefix "%25" s then Some (EmptyString, s)
      else match cut_zone s' with Some (a, z) => Some (String c a, z) | None => None end
  end.

Definition unescape_literal (s : string) : option string :=
  match cut_zone s with
  | Some (a, z) => h ← unescape encodeHost a; z ← unescape encodeZone z; Some (h +:+ z)
  | None => unescape encodeHost s
  end.

Definition parseHost (scheme host : string) : option string :=
  match cut_last LBRACKET host with
  | Some (EmptyString, inner) =>
      '(name, port) ← cut_last RBRACKET inner;
      if validOptionalPort port then
        name ← unescape_literal name;
        match ParseAddr name with
        | Some (V6 _ _) => Some (String LBRACKET (name +:+ String RBRACKET port))
        | _ => None
        end
      else None
  | Some _ => None
  | None =>
      match Cut COLON host with
      | Some (_, port) =>
          let several := has_byte COLON port in
          if several && bool_decide (scheme = "http" \/ scheme = "https")%string then None
          else if all_digits (match cut_last COLON host with Some (_, p) => p | None => EmptyString end) then unescape encodeHost host
          else None
      | None => unescape encodeHost host
      end
  end.

Definition validUserinfo (s : string) : bool :=
  forallb (fun b => alnum b || one_of [45; 46; 95; 58; 126; 33; 36; 38; 39; 40; 41; 42; 43; 44; 59; 61; 37; 64] b) (bytes s).

(** [User] or [UserPassword], unescaped. *)
Definition parseUserinfo (s : string) : option string :=
  match Cut COLON s with
  | None => unescape encodeUserPassword s
  | Some (name, password) =>
      name ← unescape encodeUserPassword name; password ← unescape encodeUserPassword password; Some (name +:+ String COLON password)
  end.

Definition parseAuthority (scheme authority : string) : option (option string * string) :=
  match cut_last AT authority with
  | None => host ← parseHost scheme authority; Some (None, host)
  | Some (userinfo, host) =>
      host ← parseHost scheme host;
      if validUserinfo userinfo then user ← parseUserinfo userinfo; Some (Some user, host) else None
  end.

(** [setPath]: the path and the raw path. *)
Definition setPath (p : string) : option (string * string) :=
  path ← unescape encodePath p;
  Some (path, if decide (p = escape encodePath path) then ""%string else p).

Definition before (c : Ascii.ascii) (s : string) : string * option string :=
  match Cut c s with Some (a, b) => (a, Some b) | None => (s, None) end.

Definition is_ctl (b : Z) : bool := (b <? 32) || (b =? 127).

Definition SLASHES : string := String SLASH (String SLASH "").

Definition parse_path (scheme rest query : string) (user : option string) (host : string) : option URL :=
  '(path, raw) ← setPath rest;
  Some (mkURL scheme "" user host path raw query "").

Definition parse_rest (scheme rest query : string) : option URL :=
  if negb (HasPrefix (String SLASH "") rest) && negb (bool_decide (scheme = ""%string))
  then Some (mkURL scheme rest None "" "" "" query "")
  else if negb (HasPrefix (String SLASH "") rest) && has_byte COLON (before SLASH rest).1 then None
  else
    match strip_prefix SLASHES rest with
    | Some t =>
        if negb (bool_decide (scheme = ""%string)) || negb (HasPrefix (String SLASH "") t) then
          let '(authority, path) := before SLASH t in
          '(user, host) ← parseAuthority scheme authority;
          parse_path scheme (match path with Some p => String SLASH p | None => ""%string end) query user host
        else parse_path scheme rest query None ""
    | None => parse_path scheme rest query None ""
    end.

Definition parse (raw : string) : option URL :=
  if existsb is_ctl (bytes raw) then None
  else if decide (raw = "*"%string) then Some (mkURL "" "" None "" "*" "" "" "")
  else
    r ← getScheme true raw;
    let '(scheme, rest) := match r with Some (a, rest) => (lower_ascii a, rest) | None => (""%string, raw) end in
    let '(rest, query) := before QUESTION rest in
    parse_rest scheme rest (default ""%string query).

Definition with_fragment (f : string) (u : URL) : URL :=
  mkURL (u_Scheme u) (u_Opaque u) (u_User u) (u_Host u) (u_Path u) (u_RawPath u) (u_RawQuery u) f.

Definition url_Parse (raw : string) : option URL :=
  let '(text, fragment) := before HASH raw in
  u ← parse text;
  match fragment with
  | None | Some EmptyString => Some u
  | Some f => f ← unescape encodeFragment f; Some (with_fragment f u)
  end.

(** [splitHostPort]: the host, without the port and the brackets. *)
Definition stripPort (hostPort : string) : string :=
  let host := match cut_last COLON hostPort with Some (h, p) => if all_digits p then h else hostPort | None => hostPort end in
  match host with
  | String c inner =>
      if decide (c = LBRACKET) then match cut_last RBRACKET inner with Some (name, EmptyString) => name | _ => host end else host
  | EmptyString => host
  end.

Definition Hostname (u : URL) : string := stripPort (u_Host u).

Definition EscapedPath (u : URL) : string :=
  let escaped := if decide (u_Path u = "*"%string) then "*"%string else escape encodePath (u_Path u) in
  if negb (bool_decide (u_RawPath u = ""%string)) && validEncoded encodePath (u_RawPath u) &&
     bool_decide (unescape encodePath (u_RawPath u) = Some (u_Path u))
  then u_RawPath u else escaped.

(** [net.ParseIP]: whether the text is an address; one with a zone is not. *)
Definition ParseIP (s : string) : bool :=
  match ParseAddr s with Some (V4 _) => true | Some (V6 _ zone) => bool_decide (zone = ""%string) | None => false end.

(** ** The rules *)

Definition MaxRedirectURIs : nat := 10.
Definition MaxRedirectURILength : nat := 500.
Definition loopbackHosts : list string := ["127.0.0.1"; "::1"; "localhost"]%string.

Section Redirects.
Context `{GoFmt} `{Lower} `{Folding}.

Definition loopback (host : string) : bool := bool_decide (host ∈ loopbackHosts).

(** The text of the refusal, or nothing. *)
Definition ValidateRedirectURI (raw : string) : option string :=
  if (String.length raw =? 0)%nat then Some "a redirect URI may not be empty"%string
  else if (MaxRedirectURILength <? String.length raw)%nat then Some "a redirect URI may be at most 500 characters"%string
  else
    match url_Parse raw with
    | None => Some (strconv_Quote raw +:+ " is not a URI")
    | Some u =>
        if negb (bool_decide (u_Fragment u = ""%string)) || has_byte HASH raw then Some "a redirect URI may not carry a fragment"%string
        else if negb (bool_decide (u_User u = None)) || has_byte AT (u_Host u) then Some "a redirect URI may not carry embedded credentials"%string
        else
          let scheme := ToLower (u_Scheme u) in
          let host := ToLower (Hostname u) in
          if decide (scheme = "https"%string) then
            if decide (host = ""%string) then Some "an https redirect URI needs a host"%string
            else if ParseIP host then Some "an https redirect URI may not use an IP literal"%string
            else if negb (has_byte DOT host) then Some "an https redirect URI needs a fully qualified host"%string
            else None
          else if decide (scheme = "http"%string) then
            if negb (loopback host) then Some "plain http is accepted only on 127.0.0.1, [::1] and localhost"%string else None
          else if decide (scheme = ""%string) then Some "a redirect URI needs a scheme"%string
          else if negb (has_byte DOT scheme) then Some "a private-use scheme must contain a dot"%string
          else None
    end.

Definition IsLoopbackRedirect (raw : string) : bool :=
  match url_Parse raw with
  | None => false
  | Some u => bool_decide (ToLower (u_Scheme u) = "http"%string) && loopback (ToLower (Hostname u))
  end.

Definition RedirectMatches (registered offered : string) : bool :=
  if decide (registered = offered) then true
  else if negb (IsLoopbackRedirect registered) then false
  else
    match url_Parse registered, url_Parse offered with
    | Some reg, Some pres =>
        if negb (bool_decide (u_User pres = None)) || negb (bool_decide (u_Fragment pres = ""%string)) then false
        else if negb (EqualFold (u_Scheme pres) (u_Scheme reg)) then false
        else if negb (EqualFold (Hostname pres) (Hostname reg)) then false
        else if negb (bool_decide (EscapedPath pres = EscapedPath reg)) then false
        else bool_decide (u_RawQuery pres = u_RawQuery reg)
    | _, _ => false
    end.

Definition MatchRegisteredRedirect (registered : list string) (presented : string) : option string :=
  if existsb (fun candidate => RedirectMatches candidate presented) registered then Some presented else None.
End Redirects.

(** The foldings of the ASCII letters only. *)
#[export] Instance ascii_fold : Folding := {|
  simple_fold r := if in_range r 65 90 then r + 32 else if r =? 0x17F then 115 else if r =? 0x212A then 107 else r
|}.

#[local] Instance quote_demo : GoFmt := {| strconv_Quote s := String.append (String (char_of 34) s) (String (char_of 34) "") |}.
Definition accepted (s : string) : bool := bool_decide (ValidateRedirectURI s = None).

Example registrations :
  forallb accepted ["https://app.example/cb"; "http://127.0.0.1/cb"; "http://[::1]:80/"; "HTTP://LocalHost:8080/cb?x=1"; "com.example.app:/cb"; "com.example:x"; "https://app.example"]%string = true /\
  existsb accepted ["http://localhost.evil.example/"; "http://notlocalhost/"; "http://localhost@evil.example/"; "http://localhos%74/"; "https://1.2.3.4/"; "https://[::1]/"; "https://host/";
    "myapp:/cb"; "/cb"; "https://app.example/#"; "https://u:p@app.example/"; "http://[localhost]/"; "http://::1/"; "http://127.0.0.1:x/"; "https:app.example"; "http://127.1/"; "*"; ":a"; "http://127.0.0.1/%zz"]%string = false.
Proof. by vm_compute. Qed.

Example offers :
  forallb (RedirectMatches "http://127.0.0.1/cb") ["http://127.0.0.1:53211/cb"; "http://127.0.0.1/cb"; "HTTP://127.0.0.1:/cb"]%string = true /\
  existsb (RedirectMatches "http://127.0.0.1/cb") ["http://127.0.0.1:53211/cb2"; "http://127.0.0.2/cb"; "http://u@127.0.0.1/cb"; "http://127.0.0.1/cb?x=1"; "http://localhost/cb"; "http://127.0.0.1/cb#x"]%string = false.
Proof. by vm_compute. Qed.

(** ** What a parsed URL says about its text *)

Lemma Cut_Some c s a b : Cut c s = Some (a, b) -> s = a +:+ String c b /\ has_byte c a = false.
Proof.
  revert a. induction s as [|d s IH]; intros a; [done|]. simpl. case_decide as Hd; [intros [= <- <-]; by subst|].
  destruct (Cut c s) as [[x y]|]; [|done]. intros [= <- ->]. destruct (IH x eq_refl) as [-> Hx]. split; [done|].
  simpl. by rewrite bool_decide_eq_false_2.
Qed.

Lemma Cut_None c s : Cut c s = None <-> has_byte c s = false.
Proof.
  induction s as [|d s IH]; [done|]. simpl. case_decide as Hd; [by rewrite bool_decide_eq_true_2|]. rewrite bool_decide_eq_false_2 by done. cbn [orb].
  rewrite <- IH. by destruct (Cut c s) as [[x y]|].
Qed.

Lemma cut_last_Some c s a b : cut_last c s = Some (a, b) -> s = a +:+ String c b /\ has_byte c b = false.
Proof.
  revert a b. induction s as [|d s IH]; intros a b; [done|]. simpl. destruct (cut_last c s) as [[x y]|] eqn:E.
  - intros [= <- <-]. destruct (IH x y eq_refl) as [-> Hy]. done.
  - case_decide as Hd; [|done]. intros [= <- <-]. subst d. split; [done|]. clear IH. induction s as [|d s IH]; [done|]. simpl in E |- *.
    destruct (cut_last c s) as [[x y]|]; [done|]. case_decide; [done|]. rewrite bool_decide_eq_false_2 by done. by apply IH.
Qed.

Lemma cut_last_None c s : cut_last c s = None <-> has_byte c s = false.
Proof.
  split.
  - induction s as [|d s IH]; [done|]. simpl. destruct (cut_last c s) as [[x y]|]; [done|]. case_decide; [done|].
    intros _. rewrite bool_decide_eq_false_2 by done. by apply IH.
  - induction s as [|d s IH]; [done|]. simpl. intros H. bool_to_prop. rewrite IH by done. by rewrite decide_False.
Qed.

Lemma before_text c s a r : before c s = (a, r) -> has_byte c a = false /\
  s = a +:+ match r with Some b => String c b | None => ""%string end.
Proof.
  unfold before. destruct (Cut c s) as [[x y]|] eqn:E; intros [= <- <-].
  - by apply Cut_Some in E as [-> ?].
  - split; [by apply Cut_None|]. by rewrite append_empty.
Qed.

Lemma getScheme_text first s a rest : getScheme first s = Some (Some (a, rest)) -> s = a +:+ String COLON rest /\ ascii_only a.
Proof.
  revert first a. induction s as [|c s IH]; intros first a; [done|]. cbn [getScheme]. cbv zeta.
  assert (forall r, match getScheme false s with Some (Some (x, y)) => Some (Some (String c x, y)) | r' => r' end = Some (Some r) ->
    byte_of c < 128 -> (a, rest) = r -> String c s = a +:+ String COLON rest /\ ascii_only a) as Hlong.
  { intros r. destruct (getScheme false s) as [[[x y]|]|] eqn:E; [|done..]. intros [= <-] Hc [= -> ->]. destruct (IH false x E) as [-> ?].
    split; [done|]. by constructor. }
  destruct (in_range _ 97 122 || _) eqn:E1; [intros E; apply (Hlong (a, rest)); [done| |done]; unfold in_range in E1; bool_to_prop; lia|].
  destruct (in_range _ 48 57 || _) eqn:E2.
  { destruct first; [done|]; intros E; apply (Hlong (a, rest)); [done| |done]. unfold in_range in E2. simpl in E2. bool_to_prop; lia. }
  destruct (byte_of c =? 58) eqn:E; [|done]. destruct first; [done|]. intros [= <- <-]. bool_to_prop.
  split; [|constructor]. simpl. f_equal. unfold COLON. by rewrite <- E, char_of_byte.
Qed.

Lemma strip_prefix_text p s t : strip_prefix p s = Some t -> s = p +:+ t.
Proof.
  revert s. induction p as [|c p IH]; intros s; simpl; [by intros [= ->]|]. destruct s as [|d s]; [done|]. case_decide; [|done].
  intros E. subst. by rewrite (IH s E).
Qed.

(** Where an authority ends. *)
Definition tail_ok (t : string) : Prop :=
  match t with EmptyString => True | String c _ => c = SLASH \/ c = QUESTION \/ c = HASH end.

Record authority_at (raw scheme authority tail : string) : Prop := {
  at_text : raw = scheme +:+ String COLON (SLASHES +:+ authority +:+ tail);
  at_tail : tail_ok tail;
}.

Lemma parse_path_host scheme rest query user host u : parse_path scheme rest query user host = Some u ->
  u_Scheme u = scheme /\ u_User u = user /\ u_Host u = host.
Proof. unfold parse_path. destruct (setPath rest) as [[p r]|]; [|done]. by intros [= <-]. Qed.

Lemma parse_rest_text scheme rest query u : parse_rest scheme rest query = Some u -> u_Scheme u = scheme /\
  (scheme <> ""%string -> u_Host u <> ""%string -> exists authority path, rest = SLASHES +:+ authority +:+ path /\
     (path = ""%string \/ exists p, path = String SLASH p) /\ parseAuthority scheme authority = Some (u_User u, u_Host u)).
Proof.
  unfold parse_rest. destruct (_ && negb (bool_decide _)); [by intros [= <-]|]. destruct (_ && has_byte _ _); [done|].
  destruct (strip_prefix SLASHES rest) as [t|] eqn:E; [|intros (-> & _ & ->)%parse_path_host; by split].
  destruct (_ || _) eqn:Eo; [|intros (-> & _ & ->)%parse_path_host; by split].
  apply strip_prefix_text in E as ->. destruct (before SLASH t) as [authority path] eqn:Eb. apply before_text in Eb as [_ ->].
  destruct (parseAuthority scheme authority) as [[user host]|] eqn:Ea; [|done]. cbn [mbind option_bind].
  intros (-> & -> & ->)%parse_path_host. split; [done|]. intros _ _. eexists authority, _. split; [reflexivity|]. split; [|done].
  destruct path as [p|]; [right; by eexists|by left].
Qed.

Lemma lower_nonempty s : lower_ascii s = ""%string -> s = ""%string.
Proof. by destruct s. Qed.

Lemma lower_app a b : lower_ascii (a +:+ b) = lower_ascii a +:+ lower_ascii b.
Proof. induction a as [|c a IH]; [done|]. simpl. by rewrite IH. Qed.

Lemma parse_text raw u : parse raw = Some u -> u_Scheme u <> ""%string -> exists scheme rest query,
  raw = scheme +:+ String COLON (rest +:+ match query with Some q => String QUESTION q | None => ""%string end) /\
  ascii_only scheme /\ u_Scheme u = lower_ascii scheme /\ parse_rest (lower_ascii scheme) rest (default ""%string query) = Some u.
Proof.
  unfold parse. destruct (existsb _ _); [done|]. case_decide; [by intros [= <-]|].
  destruct (getScheme true raw) as [r|] eqn:E; [|done]. cbn [mbind option_bind]. destruct r as [[scheme rest]|].
  - apply getScheme_text in E as [E Ha]. destruct (before QUESTION rest) as [rest' query] eqn:Eb. apply before_text in Eb as [_ Eb].
    intros Hp Hne. exists scheme, rest', query. rewrite E. split; [by rewrite Eb|]. split; [done|]. split; [|done]. by apply parse_rest_text in Hp as [-> _].
  - destruct (before QUESTION raw) as [rest' query]. by intros [-> _]%parse_rest_text.
Qed.

Lemma append_cons c (a b : string) : String c a +:+ b = String c (a +:+ b).
Proof. done. Qed.

(** The text of a URL with a scheme, and with a host. *)
Lemma url_text raw u : url_Parse raw = Some u -> u_Scheme u <> ""%string ->
  exists scheme, ascii_only scheme /\ u_Scheme u = lower_ascii scheme /\ (exists rest, raw = scheme +:+ String COLON rest) /\
    (u_Host u <> ""%string -> exists authority tail, authority_at raw scheme authority tail /\
       parseAuthority (u_Scheme u) authority = Some (u_User u, u_Host u)).
Proof.
  unfold url_Parse. destruct (before HASH raw) as [text fragment] eqn:Eb. apply before_text in Eb as [_ ->].
  destruct (parse text) as [v|] eqn:Ep; [|done]. cbn [mbind option_bind]. intros Hf Hne.
  assert (u_Scheme u = u_Scheme v /\ u_User u = u_User v /\ u_Host u = u_Host v) as (Es & Eu & Eh).
  { destruct fragment as [[|c f]|]; [by injection Hf as <-| |by injection Hf as <-].
    destruct (unescape encodeFragment _) as [f'|]; [|done]. by injection Hf as <-. }
  rewrite Es in Hne. rewrite Es, Eu, Eh. apply parse_text in Ep as (scheme & rest & query & -> & Hascii & E & Hr); [|done].
  exists scheme. split; [done|]. split; [done|]. split; [eexists; rewrite append_assoc; reflexivity|]. intros Hh.
  apply parse_rest_text in Hr as [_ Hr]; rewrite E in Hne. destruct (Hr Hne Hh) as (authority & path & -> & Hp & Ha).
  exists authority, (path +:+ (match query with Some q => String QUESTION q | None => ""%string end +:+
    match fragment with Some f => String HASH f | None => ""%string end)). split; [|by rewrite E]. split.
  - by rewrite append_assoc, append_cons, !append_assoc.
  - destruct Hp as [->|[p ->]]; [|by left]. destruct query as [q|]; [simpl; tauto|]. destruct fragment; simpl; tauto.
Qed.

(** *** Escapes in a host *)

Lemma hex_value_range c a : hex_value c = Some a -> 0 <= a < 16.
Proof. unfold hex_value, in_range. repeat case_match; intros [= <-]; bool_to_prop; lia. Qed.

Lemma unescape_ind m (P : string -> string -> Prop) :
  P ""%string ""%string ->
  (forall c s t, c <> PERCENT -> hosted m && (byte_of c <? 128) && shouldEscape (byte_of c) m = false -> P s t -> P (String c s) (String c t)) ->
  (forall c1 c2 a b s t, hex_value c1 = Some a -> hex_value c2 = Some b -> escape_allowed m a b = true -> P s t ->
     P (String PERCENT (String c1 (String c2 s))) (String (char_of (a * 16 + b)) t)) ->
  forall s t, unescape m s = Some t -> P s t.
Proof.
  intros H0 Hc He s. remember (String.length s) as n eqn:Hn. revert s Hn. induction n as [n IH] using lt_wf_ind. intros s -> t.
  destruct s as [|c s]; [by intros [= <-]|]. cbn [unescape]. case_decide as Hp.
  - subst c. destruct s as [|c1 [|c2 s]]; [done..|]. destruct (hex_value c1) as [a|] eqn:E1; [|done]. destruct (hex_value c2) as [b|] eqn:E2; [|done].
    destruct (escape_allowed m a b) eqn:Ea; [|done]. destruct (unescape m s) as [t'|] eqn:E; [|done]. intros [= <-].
    apply (He c1 c2 a b s t'); [done..|]. eapply IH; [|done|done]. simpl. lia.
  - destruct (_ && _) eqn:Eb; [done|]. destruct (unescape m s) as [t'|] eqn:E; [|done]. intros [= <-]. apply Hc; [done..|].
    eapply IH; [|done|done]. simpl. lia.
Qed.

Lemma unescape_app m c a b t : c <> PERCENT -> hex_value c = None -> unescape m (a +:+ String c b) = Some t ->
  exists ta tb, unescape m a = Some ta /\ unescape m (String c b) = Some tb /\ t = ta +:+ tb.
Proof.
  intros Hc Hx. remember (String.length a) as n eqn:Hn. revert a Hn t. induction n as [n IH] using lt_wf_ind. intros a -> t.
  destruct a as [|d a]; [intros E; by exists ""%string, t|]. rewrite append_cons. cbn [unescape]. case_decide as Hp.
  - destruct a as [|c1 a].
    + rewrite (eq_refl : ""%string +:+ String c b = String c b). destruct b as [|c2 b]; [done|]. by rewrite Hx.
    + rewrite append_cons. destruct a as [|c2 a].
      * rewrite (eq_refl : ""%string +:+ String c b = String c b). rewrite Hx. by destruct (hex_value c1).
      * rewrite append_cons. destruct (hex_value c1) as [x|]; [|done]. destruct (hex_value c2) as [y|]; [|done].
        destruct (escape_allowed m x y); [|done]. destruct (unescape m (a +:+ _)) as [t'|] eqn:E; [|done]. intros [= <-].
        destruct (IH (String.length a) ltac:(simpl; lia) a eq_refl t' E) as (ta & tb & -> & Eb & ->). by eexists _, tb.
  - destruct (_ && _); [done|]. destruct (unescape m (a +:+ _)) as [t'|] eqn:E; [|done]. intros [= <-].
    destruct (IH (String.length a) ltac:(simpl; lia) a eq_refl t' E) as (ta & tb & -> & Eb & ->). by eexists _, tb.
Qed.

Lemma unescape_plain m s t : has_byte PERCENT s = false -> unescape m s = Some t -> t = s.
Proof.
  intros Hp E. revert Hp. pattern s, t. revert s t E. apply unescape_ind; [done| |done].
  intros c s t _ _ IH H. simpl in H. bool_to_prop. by rewrite IH.
Qed.

(** What an escape in a host can stand for. *)
Lemma host_escape a b : 0 <= a < 16 -> 0 <= b < 16 -> escape_allowed encodeHost a b = true ->
  128 <= byte_of (char_of (a * 16 + b)) \/ char_of (a * 16 + b) = PERCENT.
Proof.
  intros Ha Hb. unfold escape_allowed. intros [H|H]%orb_true_iff; [left; rewrite byte_of_char by lia; bool_to_prop; lia|right].
  bool_to_prop. by assert (a = 2 /\ b = 5) as [-> ->] by lia.
Qed.

Lemma unescape_host_has c s t : unescape encodeHost s = Some t -> byte_of c < 128 -> c <> PERCENT -> has_byte c s = false -> has_byte c t = false.
Proof.
  intros E Hc Hp. pattern s, t. revert s t E. apply unescape_ind; [done| |].
  - intros d s t _ _ IH. simpl. intros H. bool_to_prop. rewrite bool_decide_eq_false_2 by done. by apply IH.
  - intros c1 c2 a b s t E1%hex_value_range E2%hex_value_range Ea IH H. simpl in H |- *. bool_to_prop.
    destruct (host_escape a b E1 E2 Ea) as [Hge|Heq]; rewrite bool_decide_eq_false_2; try (by apply IH; tauto); [intros <-; lia|congruence].
Qed.

(** A decoded host that is plain ASCII is what is written. *)
Lemma unescape_literal_text s t : unescape encodeHost s = Some t -> ascii_only t -> has_byte PERCENT t = false -> s = t.
Proof.
  intros E. pattern s, t. revert s t E. apply unescape_ind; [done| |].
  - intros d s t _ _ IH [_ Ht]%Forall_cons. simpl. intros H. bool_to_prop. by rewrite IH.
  - intros c1 c2 a b s t E1%hex_value_range E2%hex_value_range Ea IH [Hd _]%Forall_cons H. exfalso. simpl in H. bool_to_prop.
    destruct (host_escape a b E1 E2 Ea); [lia|tauto].
Qed.

Definition host_byte (b : Z) : Prop := b = 37 \/ 128 <= b \/ shouldEscape b encodeHost = false.

Lemma alnum_host_byte b : alnum b = true -> host_byte b.
Proof. intros H. right; right. unfold shouldEscape. by rewrite H. Qed.

Lemma hex_alnum c a : hex_value c = Some a -> alnum (byte_of c) = true.
Proof. unfold hex_value, alnum, in_range. repeat case_match; try done; intros _; bool_to_prop; rewrite !orb_true_iff, !andb_true_iff, !Z.leb_le; lia. Qed.

Lemma unescape_host_bytes s t : unescape encodeHost s = Some t -> Forall host_byte (bytes s).
Proof.
  intros E. pattern s, t. revert s t E. apply unescape_ind; [constructor| |].
  - intros c s t _ H IH. constructor; [|done]. right. cbn [hosted andb] in H. destruct (byte_of c <? 128) eqn:E; [right; exact H|left; bool_to_prop; lia].
  - intros c1 c2 a b s t E1 E2 _ IH. constructor; [by left|]. constructor; [by eapply alnum_host_byte, hex_alnum|].
    constructor; [by eapply alnum_host_byte, hex_alnum|done].
Qed.

Lemma cut_zone_text s a z : cut_zone s = Some (a, z) -> s = a +:+ z /\ exists x, z = "%25"%string +:+ x.
Proof.
  revert a. induction s as [|c s IH]; intros a; [done|]. cbn [cut_zone]. destruct (HasPrefix "%25" (String c s)) eqn:E.
  - intros [= <- <-]. split; [done|]. by apply HasPrefix_split.
  - destruct (cut_zone s) as [[x y]|]; [|done]. intros [= <- ->]. destruct (IH x eq_refl) as [-> ?]. done.
Qed.

Lemma unescape_brackets_text s t : unescape_literal s = Some t -> ascii_only t -> has_byte PERCENT t = false -> s = t.
Proof.
  unfold unescape_literal. destruct (cut_zone s) as [[a z]|] eqn:E; [|apply unescape_literal_text].
  apply cut_zone_text in E as (-> & x & ->). destruct (unescape encodeHost a) as [ta|]; [|done].
  change (unescape encodeZone ("%25"%string +:+ x)) with (String PERCENT <$> unescape encodeZone x).
  destruct (unescape encodeZone x) as [tx|]; [|done]. intros [= <-] _. by rewrite has_byte_app, orb_true_r.
Qed.

(** *** A host and its name *)

Definition web (scheme : string) : Prop := scheme = "http"%string \/ scheme = "https"%string.

(** How a name is written: between brackets, or plainly. *)
Definition bracketed (host name : string) : Prop :=
  exists inner n zone, host = String LBRACKET (inner +:+ String RBRACKET "") /\ unescape_literal inner = Some name /\ ParseAddr name = Some (V6 n zone).

Definition plain (host name : string) : Prop :=
  unescape encodeHost host = Some name /\ has_byte LBRACKET host = false /\ has_byte COLON host = false.

Lemma stripPort_plain name : has_byte LBRACKET name = false -> has_byte COLON name = false -> stripPort name = name.
Proof.
  intros Hb Hc. unfold stripPort. rewrite (proj2 (cut_last_None COLON name) Hc). destruct name as [|c s]; [done|].
  simpl in Hb. bool_to_prop. by rewrite decide_False.
Qed.

Lemma digits_no_byte c p : all_digits p = true -> in_range (byte_of c) 48 57 = false -> has_byte c p = false.
Proof.
  unfold all_digits. intros Hp Hc. induction p as [|d p IH]; [done|]. simpl in *. bool_to_prop. rewrite bool_decide_eq_false_2; [by apply IH|].
  intros ->. bool_to_prop. congruence.
Qed.

Lemma stripPort_port name p : has_byte LBRACKET name = false -> all_digits p = true ->
  stripPort (name +:+ String COLON p) = name.
Proof.
  intros Hb Hp. unfold stripPort. rewrite cut_last_app by (by apply digits_no_byte). rewrite Hp. destruct name as [|c s]; [done|].
  simpl in Hb. bool_to_prop. by rewrite decide_False.
Qed.

Lemma stripPort_brackets name port : validOptionalPort port = true -> stripPort (String LBRACKET (name +:+ String RBRACKET port)) = name.
Proof.
  intros Hp. unfold stripPort.
  assert (match cut_last COLON (String LBRACKET (name +:+ String RBRACKET port)) with
    | Some (h, p) => if all_digits p then h else String LBRACKET (name +:+ String RBRACKET port)
    | None => String LBRACKET (name +:+ String RBRACKET port) end = String LBRACKET (name +:+ String RBRACKET "")) as ->.
  { destruct port as [|c p]; simpl in Hp.
    - destruct (cut_last COLON _) as [[h p]|] eqn:E; [|done]. destruct (all_digits p) eqn:Ep; [|done]. exfalso.
      apply cut_last_Some in E as [E _]. assert (has_byte RBRACKET p = true) as Hr; [|by rewrite digits_no_byte in Hr].
      revert E. generalize (String LBRACKET name). clear. intros s E.
      assert (forall (h : string) s, s +:+ String RBRACKET "" = h +:+ String COLON p -> has_byte RBRACKET p = true) as Hend; [|by eapply (Hend h (String LBRACKET name))].
      clear. induction h as [|c h IH]; intros s E.
      + destruct s as [|d s]; [done|]. injection E as _ <-. by rewrite has_byte_app, orb_true_r.
      + destruct s as [|d s]; [injection E as _ E; by destruct h|]. injection E as _ E. by eapply IH.
    - apply andb_true_iff in Hp as [->%bool_decide_eq_true Hp]. replace (String LBRACKET (name +:+ String RBRACKET (String COLON p)))
        with (String LBRACKET (name +:+ String RBRACKET "") +:+ String COLON p) by by rewrite append_cons, append_assoc.
      rewrite cut_last_app by (by apply digits_no_byte). by rewrite Hp. }
  cbv iota. rewrite decide_True by done. by rewrite cut_last_app.
Qed.

(** The text of a host: its name, and a port. *)
Lemma parseHost_text scheme text host : web scheme -> parseHost scheme text = Some host ->
  exists h port, text = h +:+ port /\ validOptionalPort port = true /\ (bracketed h (stripPort host) \/ plain h (stripPort host)).
Proof.
  intros Hw. unfold parseHost. destruct (cut_last LBRACKET text) as [[[|? ?] inner]|] eqn:El; [|done|].
  - apply cut_last_Some in El as [-> Hl]. destruct (cut_last RBRACKET inner) as [[name port]|] eqn:Er; [|done]. cbn [mbind option_bind].
    apply cut_last_Some in Er as [-> _]. destruct (validOptionalPort port) eqn:Ep; [|done]. destruct (unescape_literal name) as [t|] eqn:Eu; [|done].
    cbn [mbind option_bind]. destruct (ParseAddr t) as [[|n zone]|] eqn:Ea; [done| |done]. intros [= <-].
    exists (String LBRACKET (name +:+ String RBRACKET "")), port. split; [by rewrite append_cons, append_assoc|]. split; [done|].
    left. exists name, n, zone. by rewrite stripPort_brackets.
  - apply cut_last_None in El. destruct (Cut COLON text) as [[h p]|] eqn:Ec.
    + apply Cut_Some in Ec as [-> Hh]. destruct (has_byte COLON p) eqn:Es; [rewrite bool_decide_eq_true_2 by exact Hw; done|]. cbn [andb].
      rewrite cut_last_app by done. destruct (all_digits p) eqn:Ep; [|done]. intros Eu.
      rewrite has_byte_app in El. apply orb_false_iff in El as [Elh _].
      apply unescape_app in Eu as (th & tp & Eh & Etp & ->); [|done..]. apply unescape_plain in Etp as ->; [|simpl; by apply digits_no_byte].
      exists h, (String COLON p). split; [done|]. split; [by simpl; rewrite Ep|]. right.
      rewrite stripPort_port; [by split_and!| |done]. by eapply (unescape_host_has LBRACKET).
    + apply Cut_None in Ec. intros Eu. exists text, ""%string. split; [by rewrite append_empty|]. split; [done|]. right.
      rewrite stripPort_plain; [by split_and!| |]; by eapply unescape_host_has.
Qed.

(** ** Lower case *)

Definition low (b : Z) : Z := if in_range b 65 90 then b + 32 else b.

Lemma bytes_lower s : bytes (lower_ascii s) = low <$> bytes s.
Proof.
  induction s as [|c s IH]; [done|]. simpl. rewrite IH. f_equal. by destruct c as [[] [] [] [] [] [] [] []].
Qed.

Lemma bytes_inj s t : bytes s = bytes t -> s = t.
Proof.
  revert t. induction s as [|c s IH]; intros [|d t]; try done. simpl. intros [= E1 E2]. f_equal; [|by apply IH].
  by rewrite <- (char_of_byte c), <- (char_of_byte d), E1.
Qed.

Lemma low_ascii b : low b < 128 <-> b < 128.
Proof. unfold low, in_range. destruct (_ && _) eqn:E; bool_to_prop; lia. Qed.

Lemma lower_ascii_only s : ascii_only (lower_ascii s) <-> ascii_only s.
Proof. unfold ascii_only. rewrite bytes_lower, Forall_fmap. apply Forall_iff. intros b. apply low_ascii. Qed.

Lemma low_low b : low (low b) = low b.
Proof. unfold low, in_range. repeat case_match; bool_to_prop; lia. Qed.

Lemma lower_lower s : lower_ascii (lower_ascii s) = lower_ascii s.
Proof. apply bytes_inj. rewrite !bytes_lower, <- list_fmap_compose. apply list_fmap_ext. intros i b _. apply low_low. Qed.

Definition no_letter (t : string) : Prop := Forall (fun b => in_range b 97 122 = false) (bytes t).

(** A text without letters is its own lower case only. *)
Lemma lower_fixed s t : no_letter t -> lower_ascii s = t -> s = t.
Proof.
  intros Ht E. apply bytes_inj. apply (f_equal bytes) in E. rewrite bytes_lower in E. revert E Ht. unfold no_letter.
  generalize (bytes s) as l, (bytes t) as l'. clear. intros l. induction l as [|b l IH]; intros [|b' l']; try done.
  cbn. intros [= E1 E2] [H1 H2]%Forall_cons. f_equal; [|by apply IH]. unfold low, in_range in *. destruct (_ && _) eqn:E; bool_to_prop; lia.
Qed.

Lemma has_byte_bytes c s : has_byte c s = existsb (Z.eqb (byte_of c)) (bytes s).
Proof.
  induction s as [|d s IH]; [done|]. simpl. rewrite IH. f_equal. apply eq_true_iff_eq. rewrite bool_decide_eq_true, Z.eqb_eq. split; [by intros ->|].
  intros E. by rewrite <- (char_of_byte c), <- (char_of_byte d), E.
Qed.

Lemma has_byte_lower c s : in_range (byte_of c) 97 122 = false -> in_range (byte_of c) 65 90 = false -> has_byte c (lower_ascii s) = has_byte c s.
Proof.
  intros H1 H2. rewrite !has_byte_bytes, bytes_lower. generalize (bytes s). intros l. induction l as [|b l IH]; [done|]. cbn. f_equal; [|done].
  apply eq_true_iff_eq. rewrite !Z.eqb_eq. unfold low, in_range in *. destruct ((65 <=? b) && _) eqn:E; bool_to_prop; lia.
Qed.

Lemma addr_kind_none s : has_byte DOT s = false -> has_byte COLON s = false -> has_byte PERCENT s = false -> ParseAddr s = None.
Proof.
  intros H1 H2 H3. unfold ParseAddr. assert (addr_kind s = None) as ->; [|done]. induction s as [|c s IH]; [done|]. simpl in *. bool_to_prop.
  rewrite decide_False by tauto. by apply IH.
Qed.

(** ** The text of what is accepted *)

(** What the tables of [unicode] say about the names of the loopback. *)
Class LowerLaws `{Lower} := {
  lower_known s : ascii_only s -> ToLower s = lower_ascii s;
  lower_literal s t : t ∈ loopbackHosts -> ToLower s = t -> ascii_only s;
}.

Class FoldingLaws `{Folding} := {
  fold_ascii a r : 0 <= a < 128 -> simple_fold r = simple_fold a -> ascii_orbit a r;
}.

(** A URI of a scheme, with a host, a port and what follows. *)
Record located (raw scheme host port tail : string) : Prop := {
  loc_text : raw = scheme +:+ String COLON (SLASHES +:+ (host +:+ port) +:+ tail);
  loc_port : validOptionalPort port = true;
  loc_tail : tail_ok tail;
}.

Definition loopbackTexts : list string := ["127.0.0.1"; "[::1]"; "localhost"]%string.

Lemma loopback_name name : lower_ascii name ∈ loopbackHosts ->
  name = "127.0.0.1"%string \/ name = "::1"%string \/ lower_ascii name = "localhost"%string.
Proof.
  unfold loopbackHosts. rewrite !elem_of_cons, elem_of_nil. intros [E|[E|[E|[]]]]; [left|right; left|by right; right].
  - apply lower_fixed; [by repeat constructor|done].
  - apply lower_fixed; [by repeat constructor|done].
Qed.

(** How a host of the loopback is written. *)
Definition written (name : string) : string := if decide (name = "::1"%string) then "[::1]"%string else name.

Lemma written_loopback name : name ∈ loopbackHosts -> written name ∈ loopbackTexts.
Proof. unfold loopbackHosts, loopbackTexts. rewrite !elem_of_cons. intros [->|[->|[->|[]%elem_of_nil]]]; vm_compute; tauto. Qed.

Lemma loopback_ascii name : lower_ascii name ∈ loopbackHosts -> ascii_only name /\ has_byte PERCENT name = false.
Proof.
  intros Hn. rewrite <- lower_ascii_only, <- (has_byte_lower PERCENT name) by done. unfold loopbackHosts in Hn. rewrite !elem_of_cons, elem_of_nil in Hn.
  destruct Hn as [->|[->|[->|[]]]]; (split; [by repeat constructor|done]).
Qed.

Lemma loopback_host host name : bracketed host name \/ plain host name -> lower_ascii name ∈ loopbackHosts ->
  lower_ascii host = written (lower_ascii name).
Proof.
  intros Hh Hn. destruct (loopback_ascii name Hn) as [Ha Hp].
  apply loopback_name in Hn. destruct Hh as [(inner & n & zone & -> & Hu & Hv)|(Hu & _ & Hc)].
  - apply unescape_brackets_text in Hu as ->; [|done..]. destruct Hn as [->|[->|E]]; [by vm_compute in Hv|done|].
    exfalso. rewrite addr_kind_none in Hv; [done|..|done]; [rewrite <- (has_byte_lower DOT name) by done|rewrite <- (has_byte_lower COLON name) by done]; by rewrite E.
  - apply unescape_literal_text in Hu as ->; [|done..]. destruct Hn as [->|[->|E]]; [done|done|]. by rewrite E.
Qed.

Section Text.
Context {GF : GoFmt} {LO : Lower} {FO : Folding} {LL : LowerLaws} {FL : FoldingLaws}.

Lemma ToLower_scheme s : ascii_only s -> ToLower (lower_ascii s) = lower_ascii s.
Proof. intros Hs. rewrite lower_known by (by apply lower_ascii_only). apply lower_lower. Qed.

Lemma loopback_spec name : loopback (ToLower name) = true -> lower_ascii name ∈ loopbackHosts.
Proof.
  unfold loopback. intros Hl%bool_decide_eq_true. pose proof (lower_literal name _ Hl eq_refl) as Ha. by rewrite <- lower_known.
Qed.

(** The text of a URL over http or https without credentials. *)
Lemma web_text raw u : url_Parse raw = Some u -> web (u_Scheme u) -> u_User u = None -> Hostname u <> ""%string ->
  exists scheme host port tail, located raw scheme host port tail /\ lower_ascii scheme = u_Scheme u /\
    (bracketed host (Hostname u) \/ plain host (Hostname u)).
Proof.
  intros Hp Hw Hu Hn. destruct (url_text raw u Hp) as (scheme & _ & Es & _ & Hh); [by destruct Hw as [->| ->]|].
  destruct Hh as (authority & tail & [-> Ht] & Ha); [by intros E; unfold Hostname in Hn; rewrite E in Hn|].
  unfold parseAuthority in Ha. destruct (cut_last AT authority) as [[x y]|].
  - destruct (parseHost _ y); [|done]. cbn [mbind option_bind] in Ha. destruct (validUserinfo x); [|done]. destruct (parseUserinfo x); [|done]. cbn [mbind option_bind] in Ha. congruence.
  - destruct (parseHost (u_Scheme u) authority) as [host|] eqn:Eh; [|done]. injection Ha as _ ->.
    apply parseHost_text in Eh as (h & port & -> & Hport & Hform); [|done]. by exists scheme, h, port, tail.
Qed.

Lemma http_text raw u : url_Parse raw = Some u -> u_Scheme u = "http"%string -> u_User u = None -> lower_ascii (Hostname u) ∈ loopbackHosts ->
  exists scheme host port tail, located raw scheme host port tail /\ lower_ascii scheme = "http"%string /\
    lower_ascii host = written (lower_ascii (Hostname u)).
Proof.
  intros Hp Hs Hu Hl. destruct (web_text raw u Hp) as (scheme & host & port & tail & Hloc & Es & Hform); [by left|done| |].
  { intros E. rewrite E in Hl. revert Hl. unfold loopbackHosts. simpl. by rewrite !elem_of_cons, elem_of_nil; intros [?|[?|[?|[]]]]. }
  exists scheme, host, port, tail. rewrite <- Hs. split; [done|]. split; [done|]. by apply loopback_host.
Qed.

Definition accepted_text (raw : string) : Prop :=
  (0 < String.length raw <= 500)%nat /\ has_byte HASH raw = false /\
  ((exists scheme host port tail, located raw scheme host port tail /\ lower_ascii scheme = "http"%string /\ lower_ascii host ∈ loopbackTexts) \/
   (exists scheme host port tail name, located raw scheme host port tail /\ lower_ascii scheme = "https"%string /\
      (bracketed host name \/ plain host name /\ Forall host_byte (bytes host)) /\ ParseIP (ToLower name) = false /\ has_byte DOT (ToLower name) = true) \/
   (exists scheme rest, raw = scheme +:+ String COLON rest /\ ~ web (lower_ascii scheme) /\ has_byte DOT scheme = true)).

Lemma scheme_text raw u : url_Parse raw = Some u -> u_Scheme u <> ""%string ->
  exists scheme rest, raw = scheme +:+ String COLON rest /\ u_Scheme u = lower_ascii scheme /\ ToLower (u_Scheme u) = u_Scheme u.
Proof.
  intros Hp Hne. destruct (url_text raw u Hp Hne) as (scheme & Ha & E & (rest & ->) & _). exists scheme, rest. rewrite E. by rewrite ToLower_scheme.
Qed.

Lemma ToLower_empty : ToLower "" = ""%string.
Proof. rewrite lower_known; [done|constructor]. Qed.

Lemma validated_text raw : ValidateRedirectURI raw = None -> accepted_text raw.
Proof.
  unfold ValidateRedirectURI. destruct (String.length raw =? 0)%nat eqn:E0; [done|]. destruct (_ <? String.length raw)%nat eqn:E1; [done|].
  destruct (url_Parse raw) as [u|] eqn:Ep; [|done]. destruct (_ || has_byte HASH raw) eqn:Eh; [done|]. destruct (_ || has_byte AT _) eqn:Eu; [done|].
  apply orb_false_iff in Eh as [_ Eh]. apply orb_false_iff in Eu as [Eu%negb_false_iff%bool_decide_eq_true _].
  destruct (decide (u_Scheme u = ""%string)) as [Es|Hne]; [rewrite Es, ToLower_empty; done|].
  destruct (scheme_text raw u Ep Hne) as (scheme & rest & Er & Es & Et). rewrite Et. cbv zeta. intros Hv.
  split; [apply Nat.eqb_neq in E0; apply Nat.ltb_ge in E1; unfold MaxRedirectURILength in E1; lia|]. split; [done|].
  destruct (decide (u_Scheme u = "https"%string)) as [Hs|Hs].
  - right; left. destruct (decide (ToLower (Hostname u) = ""%string)) as [|Hn]; [done|]. destruct (ParseIP _) eqn:Eip; [done|].
    destruct (has_byte DOT _) eqn:Ed; [|done]. destruct (web_text raw u Ep) as (sc & host & port & tail & Hloc & Esc & Hform); [by right|done| |].
    { intros E. apply Hn. by rewrite E, ToLower_empty. }
    exists sc, host, port, tail, (Hostname u). rewrite Esc. split_and!; [done|done| |done|done]. destruct Hform as [Hb|Hb]; [by left|right].
    split; [done|]. by eapply unescape_host_bytes, (proj1 Hb).
  - destruct (decide (u_Scheme u = "http"%string)) as [Hs'|Hs'].
    + left. destruct (loopback (ToLower (Hostname u))) eqn:El; [|done]. apply loopback_spec in El.
      destruct (http_text raw u Ep Hs' Eu El) as (sc & host & port & tail & ? & ? & E). exists sc, host, port, tail. rewrite E. split_and!; [done..|by apply written_loopback].
    + right; right. rewrite decide_False in Hv by done. destruct (has_byte DOT (u_Scheme u)) eqn:Ed; [|done]. exists scheme, rest.
      split; [done|]. rewrite <- Es. split; [by intros [?|?]|]. by rewrite <- (has_byte_lower DOT scheme), <- Es.
Qed.

(** *** What an authorization request may name *)

(** A rune under case folding, to the letters of "localhost". *)
Definition folded (r : Z) : Z := if in_range r 65 90 then r + 32 else if r =? 0x17F then 115 else if r =? 0x212A then 107 else r.

Lemma runes_ascii s : ascii_only s -> runes s = bytes s.
Proof. intros Hs. unfold runes. rewrite decode_ascii by done. rewrite <- list_fmap_compose. apply list_fmap_id. Qed.

Lemma ascii_runes s : Forall (fun r => r < 128) (runes s) -> ascii_only s.
Proof.
  unfold runes, ascii_only. apply (decode_ind (fun s l => Forall (fun r => r < 128) l.*1 -> Forall (fun b => b < 128) (bytes s))); csimpl.
  - constructor.
  - intros c t l Hc IH [_ Hl]%Forall_cons. constructor; [exact Hc|by apply IH].
  - intros c t l _ _ [Hc _]%Forall_cons. unfold RuneError in Hc. lia.
  - intros c t s' r l _ _ Hr _ [Hc _]%Forall_cons. lia.
Qed.

Lemma fold_folded s t : ascii_only t -> EqualFold s t = true -> folded <$> runes s = folded <$> bytes t.
Proof.
  intros Ht E%bool_decide_eq_true. rewrite (runes_ascii t Ht) in E. unfold ascii_only in Ht.
  assert (Forall (fun b => 0 <= b) (bytes t)) as Hpos.
  { clear. induction t as [|c t IH]; constructor; [pose proof (byte_of_range c); lia|done]. }
  revert E Ht Hpos. generalize (runes s) as l, (bytes t) as l'. intros l. induction l as [|r l IH]; intros [|a l']; try done.
  cbn. intros [= E1 E2] [H1 H2]%Forall_cons [H3 H4]%Forall_cons. f_equal; [|by apply IH]. by apply (fold_ascii a r) in E1.
Qed.

Lemma folded_low t : ascii_only t -> folded <$> bytes t = bytes (lower_ascii t).
Proof.
  intros Ht. rewrite bytes_lower. unfold ascii_only in Ht. revert Ht. generalize (bytes t). intros l.
  induction l as [|b l IH]; [done|]. cbn. intros [Hb Hl]%Forall_cons. f_equal; [|by apply IH]. unfold folded, low, in_range. repeat case_match; bool_to_prop; lia.
Qed.

(** Without letters nothing else folds to a text. *)
Lemma folded_fixed s t : no_letter t -> ascii_only t -> folded <$> runes s = bytes t -> s = t.
Proof.
  unfold no_letter, ascii_only. intros Hn Ha E. assert (runes s = bytes t) as Er.
  { revert E Hn Ha. generalize (runes s) as l, (bytes t) as l'. clear. intros l. induction l as [|r l IH]; intros [|b l']; try done. cbn.
    intros [= E1 E2] [H1 H2]%Forall_cons [H3 H4]%Forall_cons. f_equal; [|by apply IH].
    unfold folded, in_range in *. repeat case_match; bool_to_prop; try lia. }
  apply bytes_inj. rewrite <- Er. symmetry. apply runes_ascii, ascii_runes. rewrite Er. done.
Qed.

Lemma runes_has_byte c s : byte_of c < 128 -> has_byte c s = existsb (Z.eqb (byte_of c)) (runes s).
Proof.
  intros Hc. rewrite has_byte_bytes. symmetry. apply (ContainsFunc_ascii (Z.eqb (byte_of c)) s). intros r Hr. bool_to_prop. lia.
Qed.

Lemma folded_no_byte c s t : byte_of c < 128 -> no_letter (String c "") -> in_range (byte_of c) 65 90 = false ->
  folded <$> runes s = bytes t -> has_byte c t = false -> has_byte c s = false.
Proof.
  intros Hc [Hn _]%Forall_cons Hu E Ht. rewrite runes_has_byte by done. rewrite has_byte_bytes in Ht. revert E Ht. generalize (runes s) as l, (bytes t) as l'.
  intros l. induction l as [|r l IH]; intros [|b l']; try done. cbn. intros [= E1 E2] [H1 H2]%orb_false_iff. rewrite (IH l') by done.
  rewrite orb_false_r. apply Z.eqb_neq. intros <-. apply Z.eqb_neq in H1. apply H1. rewrite <- E1. unfold folded. rewrite Hu.
  unfold in_range in Hn. repeat case_match; bool_to_prop; lia.
Qed.

(** The host of an offered loopback URI: the registered one but for case, or a spelling of
    localhost that folds to it. *)
Definition same_loopback (registered host : string) : Prop :=
  lower_ascii host = lower_ascii registered \/
  (lower_ascii registered = "localhost"%string /\ exists name, plain host name /\ folded <$> runes name = bytes "localhost").

Definition another_port (registered offered : string) : Prop :=
  exists s1 s2 h1 h2 p1 p2 t1 t2, located registered s1 h1 p1 t1 /\ located offered s2 h2 p2 t2 /\
    lower_ascii s1 = "http"%string /\ lower_ascii s2 = "http"%string /\ lower_ascii h1 ∈ loopbackTexts /\ same_loopback h1 h2 /\
    exists reg pres, url_Parse registered = Some reg /\ url_Parse offered = Some pres /\ u_User pres = None /\ u_Fragment pres = ""%string /\
      EscapedPath pres = EscapedPath reg /\ u_RawQuery pres = u_RawQuery reg.

Lemma scheme_fold raw u : url_Parse raw = Some u -> EqualFold (u_Scheme u) "http" = true -> u_Scheme u = "http"%string.
Proof.
  intros Hp Hf%fold_folded; [|by repeat constructor]. destruct (decide (u_Scheme u = ""%string)) as [E|Hne]; [by rewrite E in Hf|].
  destruct (url_text raw u Hp Hne) as (scheme & Ha & E & _). rewrite E in Hf |- *. rewrite runes_ascii, folded_low, lower_lower in Hf by (by apply lower_ascii_only).
  apply bytes_inj. by rewrite Hf.
Qed.

Lemma matched_text registered offered : ValidateRedirectURI registered = None -> RedirectMatches registered offered = true ->
  offered = registered \/ another_port registered offered.
Proof.
  intros Hv. unfold RedirectMatches. case_decide as Hd; [by left|]. intros Hm. right. unfold IsLoopbackRedirect in Hm.
  destruct (url_Parse registered) as [reg|] eqn:Er; [|done]. destruct (_ && loopback _) eqn:El; [|done]. cbn [negb] in Hm.
  destruct (url_Parse offered) as [pres|] eqn:Eo; [|done]. apply andb_true_iff in El as [Es%bool_decide_eq_true El%loopback_spec].
  assert (u_User reg = None) as Hur.
  { unfold ValidateRedirectURI in Hv. rewrite Er in Hv. destruct (_ =? 0)%nat; [done|]. destruct (_ <? _)%nat; [done|]. destruct (_ || has_byte HASH _); [done|].
    destruct (_ || has_byte AT _) eqn:E; [done|]. by apply orb_false_iff in E as [E%negb_false_iff%bool_decide_eq_true _]. }
  assert (u_Scheme reg = "http"%string) as Hsr.
  { destruct (decide (u_Scheme reg = ""%string)) as [E|Hne]; [by rewrite E, ToLower_empty in Es|].
    destruct (scheme_text registered reg Er Hne) as (? & ? & _ & _ & E). by rewrite <- E. }
  destruct (_ || negb _) eqn:E1; [done|]. apply orb_false_iff in E1 as [E1%negb_false_iff%bool_decide_eq_true E1'%negb_false_iff%bool_decide_eq_true].
  destruct (EqualFold (u_Scheme pres) _) eqn:E2; [|done]. rewrite Hsr in E2. apply (scheme_fold offered) in E2; [|done].
  destruct (EqualFold (Hostname pres) _) eqn:E3; [|done]. cbn [negb] in Hm. destruct (bool_decide (EscapedPath pres = _)) eqn:E4; [|done].
  apply bool_decide_eq_true in E4. apply bool_decide_eq_true in Hm.
  destruct (http_text registered reg Er Hsr Hur El) as (s1 & h1 & p1 & t1 & L1 & S1 & H1).
  destruct (loopback_ascii _ El) as [Har _]. apply fold_folded in E3; [|done]. rewrite folded_low in E3 by done.
  enough (exists s2 h2 p2 t2, located offered s2 h2 p2 t2 /\ lower_ascii s2 = "http"%string /\ same_loopback h1 h2) as (s2 & h2 & p2 & t2 & L2 & S2 & Hsame).
  { exists s1, s2, h1, h2, p1, p2, t1, t2. do 4 (split; [done|]). split; [rewrite H1; by apply written_loopback|]. split; [done|]. by exists reg, pres. }
  assert (Hostname pres = Hostname reg -> exists s2 h2 p2 t2, located offered s2 h2 p2 t2 /\ lower_ascii s2 = "http"%string /\ same_loopback h1 h2) as Hequal.
  { intros Eh. destruct (http_text offered pres Eo E2 E1) as (s2 & h2 & p2 & t2 & L2 & S2 & H2); [by rewrite Eh|].
    exists s2, h2, p2, t2. split; [done|]. split; [done|]. left. by rewrite H1, H2, Eh. }
  destruct (loopback_name _ El) as [Hn|[Hn|Hn]].
  1, 2: apply Hequal; rewrite Hn in E3 |- *; by apply folded_fixed in E3; [|by repeat constructor..].
  clear Hequal. destruct (web_text offered pres Eo) as (s2 & h2 & p2 & t2 & L2 & S2 & Hform); [by left|done|intros E; by rewrite E, Hn in E3|].
  rewrite Hn in E3. exists s2, h2, p2, t2. split; [done|]. split; [congruence|]. right. split; [by rewrite H1, Hn|]. exists (Hostname pres).
  split; [|done]. destruct Hform as [(inner & n & zone & _ & _ & Hb)|Hb]; [exfalso|done].
  rewrite addr_kind_none in Hb; [done|by eapply (folded_no_byte _ _ "localhost"); [..|exact E3|]; [done|by repeat constructor|..]..].
Qed.
End Text.

(** ** Any port of a registered loopback URI is accepted *)

Definition http_url (authority rest : string) : string := "http://"%string +:+ (authority +:+ String SLASH rest).

Definition fragment_of (fragment : option string) (u : URL) : option URL :=
  match fragment with
  | None | Some EmptyString => Some u
  | Some f => f ← unescape encodeFragment f; Some (with_fragment f u)
  end.

(** What is parsed after the authority. *)
Definition after_host (rest host : string) : option URL :=
  let '(text, fragment) := before HASH rest in
  if existsb is_ctl (bytes text) then None
  else
    let '(path, query) := before QUESTION text in
    u ← parse_path "http" (String SLASH path) (default ""%string query) None host;
    fragment_of fragment u.

Lemma before_app c a s : has_byte c a = false -> before c (a +:+ s) = (a +:+ (before c s).1, (before c s).2).
Proof.
  unfold before. intros Ha. assert (Cut c (a +:+ s) = match Cut c s with Some (x, y) => Some (a +:+ x, y) | None => None end) as ->.
  { induction a as [|d a IH]; [by destruct (Cut c s) as [[? ?]|] eqn:E|]. simpl in Ha |- *. bool_to_prop. rewrite decide_False by done. rewrite IH by done.
    by destruct (Cut c s) as [[? ?]|]. }
  by destruct (Cut c s) as [[? ?]|].
Qed.

Definition quiet_authority (a : string) : Prop :=
  has_byte HASH a = false /\ has_byte QUESTION a = false /\ has_byte SLASH a = false /\ existsb is_ctl (bytes a) = false.

Lemma http_url_parse a rest host : quiet_authority a -> parseAuthority "http" a = Some (None, host) -> url_Parse (http_url a rest) = after_host rest host.
Proof.
  intros (Hh & Hq & Hs & Hc) Ha. unfold url_Parse, after_host, http_url.
  rewrite (before_app HASH "http://" _), (before_app HASH a) by done. cbn [fst snd].
  assert (before HASH (String SLASH rest) = (String SLASH (before HASH rest).1, (before HASH rest).2)) as E.
  { change (String SLASH rest) with (String SLASH "" +:+ rest). by rewrite before_app. }
  rewrite E. cbn [fst snd]. destruct (before HASH rest) as [text fragment]. cbn [fst snd]. clear E. fold (fragment_of fragment).
  unfold parse. rewrite !bytes_app, !existsb_app. change (existsb is_ctl (bytes "http://")) with false. rewrite Hc. cbn [orb].
  change (existsb is_ctl (bytes (String SLASH text))) with (existsb is_ctl (bytes text)). destruct (existsb is_ctl (bytes text)); [done|].
  rewrite decide_False by done.
  change (getScheme true ("http://"%string +:+ (a +:+ String SLASH text))) with (Some (Some ("http"%string, SLASHES +:+ (a +:+ String SLASH text)))).
  cbn [mbind option_bind]. change (lower_ascii "http") with "http"%string. rewrite (before_app QUESTION SLASHES), (before_app QUESTION a) by done. cbn [fst snd].
  assert (before QUESTION (String SLASH text) = (String SLASH (before QUESTION text).1, (before QUESTION text).2)) as E.
  { change (String SLASH text) with (String SLASH "" +:+ text). by rewrite before_app. }
  rewrite E. cbn [fst snd]. destruct (before QUESTION text) as [path query]. cbn [fst snd]. clear E.
  unfold parse_rest. change (HasPrefix (String SLASH "") (SLASHES +:+ (a +:+ String SLASH path))) with true. cbn [negb andb].
  rewrite strip_prefix_app. change (bool_decide ("http"%string = ""%string)) with false. cbn [negb orb].
  assert (before SLASH (a +:+ String SLASH path) = (a, Some path)) as -> by by unfold before; rewrite Cut_app.
  rewrite Ha. done.
Qed.

Lemma unescape_same s : Forall (fun b => b <> 37 /\ shouldEscape b encodeHost = false) (bytes s) -> unescape encodeHost s = Some s.
Proof.
  induction s as [|c s IH]; [done|]. cbn [bytes]. intros [[Hp Hs] Hr]%Forall_cons. cbn [unescape]. rewrite decide_False by (by intros ->).
  rewrite Hs, andb_false_r, IH by done. done.
Qed.

Lemma digits_all (P : Z -> Prop) p : all_digits p = true -> (forall b, 48 <= b <= 57 -> P b) -> Forall P (bytes p).
Proof.
  unfold all_digits. intros Hp HP. rewrite forallb_forall in Hp. apply Forall_forall. intros b Hb. apply HP.
  apply list_elem_of_In, Hp in Hb. unfold in_range in Hb. bool_to_prop. lia.
Qed.

Lemma digit_unescaped b : 48 <= b <= 57 -> b <> 37 /\ shouldEscape b encodeHost = false.
Proof.
  intros Hb. split; [lia|]. unfold shouldEscape, alnum. assert (in_range b 48 57 = true) as -> by (unfold in_range; apply andb_true_iff; lia).
  by rewrite orb_true_r.
Qed.

Lemma port_bytes (P : Z -> Prop) port : validOptionalPort port = true -> P 58 -> (forall b, 48 <= b <= 57 -> P b) -> Forall P (bytes port).
Proof.
  destruct port as [|c p]; [constructor|]. simpl. intros [->%bool_decide_eq_true Hp]%andb_true_iff H1 H2. constructor; [exact H1|by apply digits_all].
Qed.

Lemma port_no_byte c port : validOptionalPort port = true -> byte_of c <> 58 -> ~ (48 <= byte_of c <= 57) -> has_byte c port = false.
Proof.
  intros Hp H1 H2. rewrite has_byte_bytes. apply not_true_is_false. intros (b & Hb & E%Z.eqb_eq)%existsb_exists. subst b.
  pose proof (port_bytes (fun b => b <> byte_of c) port Hp) as Hall. rewrite Forall_forall in Hall.
  apply (Hall ltac:(done) ltac:(lia) (byte_of c)); [by apply list_elem_of_In|done].
Qed.

Lemma loopback_authority h port : h ∈ loopbackTexts -> validOptionalPort port = true ->
  quiet_authority (h +:+ port) /\ parseAuthority "http" (h +:+ port) = Some (None, h +:+ port) /\ stripPort (h +:+ port) = stripPort h.
Proof.
  intros Hh Hp. assert (quiet_authority h /\ has_byte AT h = false) as [(A1 & A2 & A3 & A4) A5].
  { unfold loopbackTexts in Hh. rewrite !elem_of_cons, elem_of_nil in Hh. by destruct Hh as [->|[->|[->|[]]]]. }
  assert (forall c, byte_of c = 35 \/ byte_of c = 63 \/ byte_of c = 64 \/ byte_of c = 47 \/ byte_of c = 91 \/ byte_of c = 93 -> has_byte c port = false) as Hno.
  { intros c Hc. apply port_no_byte; [done|lia|lia]. }
  split; [|split].
  - split_and!; try (rewrite has_byte_app; apply orb_false_iff; split; [done|apply Hno; vm_compute; tauto]).
    rewrite bytes_app, existsb_app, A4. cbn [orb]. apply not_true_is_false. intros (b & Hb & E)%existsb_exists.
    pose proof (port_bytes (fun b => is_ctl b = false) port Hp) as Hall. rewrite Forall_forall in Hall. rewrite (Hall ltac:(done)) in E; [done| |by apply list_elem_of_In].
    clear. intros b Hb. unfold is_ctl. apply orb_false_iff. rewrite Z.ltb_ge, Z.eqb_neq. lia.
  - unfold parseAuthority. assert (cut_last AT (h +:+ port) = None) as -> by (apply cut_last_None; rewrite has_byte_app, A5; apply Hno; vm_compute; tauto).
    assert (parseHost "http" (h +:+ port) = Some (h +:+ port)) as ->; [|done].
    assert (h = "[::1]"%string \/ (has_byte LBRACKET h = false /\ has_byte COLON h = false /\ Forall (fun b => b <> 37 /\ shouldEscape b encodeHost = false) (bytes h))) as Hform.
    { unfold loopbackTexts in Hh. rewrite !elem_of_cons, elem_of_nil in Hh. destruct Hh as [->|[->|[->|[]]]]; [right|by left|right]; (split_and!; [done..|by repeat constructor]). }
    unfold parseHost. destruct Hform as [->|(B1 & B2 & B3)].
    + change ("[::1]"%string +:+ port) with (""%string +:+ String LBRACKET ("::1]"%string +:+ port)). rewrite cut_last_app.
      2: { rewrite has_byte_app. apply orb_false_iff. split; [done|apply Hno; vm_compute; tauto]. }
      change ("::1]"%string +:+ port) with ("::1"%string +:+ String RBRACKET port). rewrite cut_last_app by (apply Hno; vm_compute; tauto).
      cbn [mbind option_bind]. rewrite Hp. done.
    + assert (cut_last LBRACKET (h +:+ port) = None) as -> by (apply cut_last_None; rewrite has_byte_app, B1; apply Hno; vm_compute; tauto).
      assert (unescape encodeHost (h +:+ port) = Some (h +:+ port)) as Eu.
      { apply unescape_same. rewrite bytes_app. apply Forall_app. split; [done|]. apply port_bytes; [done|done|apply digit_unescaped]. }
      destruct port as [|c p]; [rewrite append_empty in *; by rewrite (proj2 (Cut_None COLON h) B2)|].
      simpl in Hp. apply andb_true_iff in Hp as [->%bool_decide_eq_true Hp]. rewrite Cut_app by done. rewrite (digits_no_byte COLON p Hp) by done. cbn [andb].
      rewrite cut_last_app by (by apply digits_no_byte). by rewrite Hp.
  - destruct port as [|c p]; [by rewrite append_empty|]. pose proof Hp as Hp'. simpl in Hp. apply andb_true_iff in Hp as [->%bool_decide_eq_true Hp].
    unfold loopbackTexts in Hh. rewrite !elem_of_cons, elem_of_nil in Hh. destruct Hh as [->|[->|[->|[]]]]; [by rewrite stripPort_port| |by rewrite stripPort_port].
    change ("[::1]"%string +:+ String COLON p) with (String LBRACKET ("::1"%string +:+ String RBRACKET (String COLON p))). by rewrite stripPort_brackets.
Qed.

Definition with_host (host : string) (u : URL) : URL :=
  mkURL (u_Scheme u) (u_Opaque u) (u_User u) host (u_Path u) (u_RawPath u) (u_RawQuery u) (u_Fragment u).

Lemma after_host_same rest host u : after_host rest host = Some u -> u_Scheme u = "http"%string /\ u_User u = None /\ u_Host u = host /\
  forall host', after_host rest host' = Some (with_host host' u).
Proof.
  unfold after_host. destruct (before HASH rest) as [text fragment]. destruct (existsb _ _); [done|]. destruct (before QUESTION text) as [path query].
  unfold parse_path. destruct (setPath _) as [[p raw]|]; [|done]. cbn [mbind option_bind]. unfold fragment_of.
  destruct fragment as [[|c f]|]; [by intros [= <-]| |by intros [= <-]]. destruct (unescape encodeFragment _) as [f'|]; [|done]. by intros [= <-].
Qed.

Section Exact.
Context {GF : GoFmt} {LO : Lower} {FO : Folding} {LL : LowerLaws} {FL : FoldingLaws}.

Lemma EqualFold_refl s : EqualFold s s = true.
Proof. by apply bool_decide_eq_true. Qed.

Lemma any_port h port rest : h ∈ loopbackTexts -> validOptionalPort port = true -> ValidateRedirectURI (http_url h rest) = None ->
  RedirectMatches (http_url h rest) (http_url (h +:+ port) rest) = true.
Proof.
  intros Hh Hp Hv. destruct (loopback_authority h "" Hh eq_refl) as (Q1 & P1 & _). rewrite append_empty in Q1, P1.
  destruct (loopback_authority h port Hh Hp) as (Q2 & P2 & Hstrip).
  unfold ValidateRedirectURI in Hv. destruct (_ =? 0)%nat; [done|]. destruct (_ <? _)%nat; [done|]. rewrite (http_url_parse h rest h) in Hv by done.
  destruct (after_host rest h) as [u|] eqn:E; [|done]. destruct (_ || has_byte HASH _) eqn:Ef; [done|].
  apply orb_false_iff in Ef as [Ef%negb_false_iff%bool_decide_eq_true _]. clear Hv. destruct (after_host_same rest h u E) as (Es & Eu & Eh & Hother).
  unfold RedirectMatches. case_decide; [done|]. unfold IsLoopbackRedirect. rewrite (http_url_parse h rest h), (http_url_parse (h +:+ port) rest (h +:+ port)), E, (Hother (h +:+ port)) by done.
  assert (Hostname (with_host (h +:+ port) u) = Hostname u) as Ehost by (unfold Hostname; simpl; by rewrite Eh, Hstrip).
  rewrite Ehost, Es. assert (loopback (ToLower (Hostname u)) = true) as ->.
  { unfold Hostname, loopback. rewrite Eh. apply bool_decide_eq_true. unfold loopbackTexts in Hh. rewrite !elem_of_cons, elem_of_nil in Hh.
    destruct Hh as [->|[->|[->|[]]]]; (rewrite lower_known; [by vm_compute; repeat constructor|by repeat constructor]). }
  rewrite lower_known by (by repeat constructor). set (pres := with_host (h +:+ port) u) in *.
  change (u_User pres) with (u_User u). change (u_Fragment pres) with (u_Fragment u). change (u_Scheme pres) with (u_Scheme u).
  change (EscapedPath pres) with (EscapedPath u). change (u_RawQuery pres) with (u_RawQuery u).
  rewrite Eu, Ef, Es, !EqualFold_refl, !bool_decide_eq_true_2 by done. done.
Qed.

Lemma match_some registered offered uri : MatchRegisteredRedirect registered offered = Some uri <->
  uri = offered /\ exists r, r ∈ registered /\ RedirectMatches r offered = true.
Proof.
  unfold MatchRegisteredRedirect. destruct (existsb _ registered) eqn:E.
  - apply existsb_exists in E as (r & Hr%list_elem_of_In & E). split; [intros [= <-]; eauto|by intros [-> _]].
  - split; [done|]. intros (_ & r & Hr%list_elem_of_In & Er). rewrite <- not_true_iff_false, existsb_exists in E. exfalso. apply E. eauto.
Qed.

End Exact.

#[export] Instance ascii_lower_laws : LowerLaws.
Proof.
  split; [done|]. intros s t Ht E. cbn in E. apply lower_ascii_only. rewrite E. unfold loopbackHosts in Ht. rewrite !elem_of_cons, elem_of_nil in Ht.
  destruct Ht as [->|[->|[->|[]]]]; by repeat constructor.
Qed.

#[export] Instance ascii_fold_laws : FoldingLaws.
Proof. split. done. Qed.

(** The folding knows the long s: a name that is not localhost passes for it.  A hash sign
    at the end passes, although a fragment may not.  An address in brackets passes as a
    name of https when it has a zone and a dot. *)
Lemma redirect_oddities :
  RedirectMatches "http://localhost/cb" "http://localho%C5%BFt:1/cb" = true /\
  RedirectMatches "http://localhost/cb" "http://localhost:1/cb#" = true /\
  ValidateRedirectURI "https://[::ffff:10.0.0.1%25x]/cb" = None.
Proof. by vm_compute. Qed.

Definition demo_registered : list string := ["https://app.example/cb"; "http://[::1]/cb?x=1"]%string.

