(* ===== verification/Rows.v ===== *)
(** * What the grant pipeline keeps of its rows

    A client's redirect URIs, and the columns of an authorization request that come from
    the page, are written once: every statement and every handler of Sessions.v and
    Grants.v keeps a property of them.  The interface is [Rows], the property of each
    table; a development that instantiates it has it of every row of every reachable
    state (Clients.v for the redirect URIs, Browser.v for the pages). *)

From S2P Require Import Prelude GoStrings Scopes Limits AuthzStore Sessions Grants Credentials Authority Provenance.

(** ** The columns that never change *)

Record View := mkView {
  vw_client : string;
  vw_redirect : string;
  vw_state : string;
  vw_challenge : string;
  vw_method : string;
  vw_resource : string;
  vw_scopes : string;
  vw_handle : string;
}.

Definition view_row (q : RequestRow) : View :=
  mkView (rq_client_id q) (rq_redirect_uri q) (rq_state q) (rq_code_challenge q) (rq_code_challenge_method q) (rq_resource q)
    (rq_requested_scopes q) (rq_handle_hash q).

Definition view_request (a : AuthorizationRequest) : View :=
  mkView (re_ClientID a) (re_RedirectURI a) (re_State a) (re_CodeChallenge a) (re_CodeChallengeMethod a) (re_Resource a)
    (re_RequestedScopes a) (re_HandleHash a).

Definition view_context (ctx : contextPayload) : View :=
  mkView (cx_ClientID ctx) (cx_RedirectURI ctx) (cx_State ctx) (cx_Challenge ctx) (cx_Method ctx) (cx_Resource ctx)
    (String.concat " " (cx_Scopes ctx)) (cx_HandleHash ctx).

(** What a code takes over from its request. *)
Record CodeView := mkCodeView { vc_client : string; vc_redirect : string; vc_challenge : string; vc_resource : string }.

Definition code_of (v : View) : CodeView := mkCodeView (vw_client v) (vw_redirect v) (vw_challenge v) (vw_resource v).
Definition code_row (c : CodeRow) : CodeView := mkCodeView (cd_client_id c) (cd_redirect_uri c) (cd_code_challenge c) (cd_resource c).
Definition code_new (c : AuthorizationCode) : CodeView := mkCodeView (co_ClientID c) (co_RedirectURI c) (co_CodeChallenge c) (co_Resource c).

Record Rows := mkRows {
  rw_client : string -> list string -> Prop;
  rw_request : View -> Prop;
  rw_code : CodeView -> Prop;
}.

(** A code stands on its request. *)
Class RowLaws (R : Rows) : Prop := code_from_request v : rw_request R v -> rw_code R (code_of v).

Record rows (R : Rows) (d : AuthDB) : Prop := {
  ro_client id c : tb_clients d !! id = Some c -> rw_client R id (cl_redirect_uris c);
  ro_request id q : tb_requests d !! id = Some q -> rw_request R (view_row q);
  ro_code h c : tb_codes d !! h = Some c -> rw_code R (code_row c);
}.

(** A decision that is still to be carried out. *)
Definition pending_rows (R : Rows) (p : Pending) : Prop :=
  match p with
  | PSubmit ctx _ (SubmitCreate _ _ _) => rw_request R (view_context ctx)
  | PComplete (CompleteMint req _) | PComplete (CompleteDenied req) => rw_request R (view_request req)
  | _ => True
  end.

Lemma rows_weaken R R' d : (forall id uris, rw_client R id uris -> rw_client R' id uris) -> (forall v, rw_request R v -> rw_request R' v) ->
  (forall c, rw_code R c -> rw_code R' c) -> rows R d -> rows R' d.
Proof. intros H1 H2 H3 []. split; eauto. Qed.

Lemma pending_weaken R R' p : (forall v, rw_request R v -> rw_request R' v) -> pending_rows R p -> pending_rows R' p.
Proof. intros Hv. destruct p as [| | |ctx source sr| | |cr]; simpl; try done; [destruct sr|destruct cr]; try done; apply Hv. Qed.

Lemma rows_same R d d' : tb_clients d' = tb_clients d -> tb_requests d' = tb_requests d -> tb_codes d' = tb_codes d -> rows R d -> rows R d'.
Proof. intros E1 E2 E3 []. split; rewrite ?E1, ?E2, ?E3; done. Qed.

Lemma rows_empty R : rows R empty_db.
Proof. split; intros k x E; vm_compute in E; destruct k; discriminate. Qed.

(** ** Statements and transactions *)

(** A transaction after which the rows are as before. *)
Definition stays {A} (R : Rows) (m : Tx A) : Prop := forall now d d' a, rows R d -> m now d = Ok (d', a) -> rows R d'.

Lemma stays_ret {A} R (a : A) : stays R (mret a).
Proof. by intros now d d' b Hh [= <- <-]. Qed.

Lemma stays_bind {A B} R (m : Tx A) (k : A -> Tx B) : stays R m -> (forall a, stays R (k a)) -> stays R (m ≫= k).
Proof. intros Hm Hk now d d' b Hh (d1 & a & H1 & H2)%bind_inv. eapply Hk; [|exact H2]. by eapply Hm. Qed.

Lemma stays_if {A} R (b : bool) (m1 m2 : Tx A) : stays R m1 -> stays R m2 -> stays R (if b then m1 else m2).
Proof. by destruct b. Qed.

Lemma stays_read {A} R (f : AuthDB -> Result AuthzError A) : stays R (tx_read f).
Proof. intros now d d' a Hh. unfold tx_read. destruct (f d); [|done]. by intros [= <- _]. Qed.

Lemma stays_run {A} R now (m : Tx A) d : stays R m -> rows R d -> rows R (AuthzTx now m d).1.
Proof. intros Hm Hh. unfold AuthzTx. destruct (m now d) as [[d' a]|e] eqn:E; [by eapply Hm|done]. Qed.

Lemma rows_deleted R d id : rows R d -> forall now d' u, DeleteOAuthClient id now d = Ok (d', u) -> rows R d'.
Proof.
  intros [Hc Hq Hk] now d' u [= <- _]. split; simpl.
  - intros k c. rewrite lookup_delete_Some. intros [_ E]. by apply Hc.
  - intros k q. unfold delete_where. rewrite map_lookup_filter_Some. intros [E _]. by apply Hq in E.
  - intros k c. unfold delete_where. rewrite map_lookup_filter_Some. intros [E _]. by apply Hk in E.
Qed.

(** The statements that touch neither clients, requests nor codes. *)
Ltac stay_op := let Htx := fresh in intros ? ? ? ? ? Htx;
  cbv beta delta [CreateAuthorization SetAuthorizationScopes RevokeAuthorization InsertToken SpendToken RevokeTokenFamily
    RevokeTokensForAuthorization revoke_tokens_where AppendAudit CreateEnrollmentCode ConsumeEnrollmentCode RevokeEnrollmentCode
    ExpiredUnreferencedClients] in Htx;
  repeat case_hyp Htx; simplify_eq/=; match goal with Hh : rows _ ?d |- _ => by apply (rows_same _ d) end.

Lemma stays_CreateAuthorization R a : stays R (CreateAuthorization a). Proof. stay_op. Qed.
Lemma stays_SetScopes R i sc : stays R (SetAuthorizationScopes i sc). Proof. stay_op. Qed.
Lemma stays_RevokeAuthorization R i : stays R (RevokeAuthorization i). Proof. stay_op. Qed.
Lemma stays_InsertToken R t : stays R (InsertToken t). Proof. stay_op. Qed.
Lemma stays_SpendToken R h : stays R (SpendToken h). Proof. stay_op. Qed.
Lemma stays_RevokeFamily R f : stays R (RevokeTokenFamily f). Proof. stay_op. Qed.
Lemma stays_RevokeTokens R i : stays R (RevokeTokensForAuthorization i). Proof. stay_op. Qed.
Lemma stays_AppendAudit R k rs ac au so pl : stays R (AppendAudit k rs ac au so pl). Proof. stay_op. Qed.
Lemma stays_CreateEnrollment R e : stays R (CreateEnrollmentCode e). Proof. stay_op. Qed.
Lemma stays_ConsumeEnrollment R i q : stays R (ConsumeEnrollmentCode i q). Proof. stay_op. Qed.
Lemma stays_RevokeEnrollment R i q : stays R (RevokeEnrollmentCode i q). Proof. stay_op. Qed.
Lemma stays_Expired R : stays R ExpiredUnreferencedClients. Proof. stay_op. Qed.
Lemma stays_Delete R id : stays R (DeleteOAuthClient id). Proof. intros now d d' u Hh. by apply rows_deleted. Qed.

Lemma stays_Activate R id : stays R (ActivateOAuthClient id).
Proof.
  intros now d d' u [Hc Hq Hk] [= <- _]. split; simpl; [|done..]. intros k c. rewrite lookup_alter. case_decide as E; [subst k|by apply Hc].
  destruct (tb_clients d !! id) as [c0|] eqn:E; [|done]. intros [= <-]. by apply Hc in E.
Qed.

(** A row that is written over with the same columns. *)
Lemma rows_request R d id q q' : rows R d -> tb_requests d !! id = Some q -> view_row q' = view_row q -> rows R (set_requests (<[id := q']> (tb_requests d)) d).
Proof.
  intros [Hc Hq Hk] E E1. split; simpl; [done| |done]. intros k q0. rewrite lookup_insert. case_decide; [|by apply Hq].
  intros [= <-]. rewrite E1. by apply (Hq id).
Qed.

Lemma stays_Decide R id st g rs : stays R (DecideAuthorizationRequest id st g rs).
Proof.
  intros now d d' u Hh Htx. unfold DecideAuthorizationRequest in Htx. destruct (tb_requests d !! id) as [q|] eqn:E; [|by injection Htx as <- _].
  destruct (bool_decide _); injection Htx as <- _; [|done]. by eapply rows_request.
Qed.

Lemma stays_Complete R id : stays R (CompleteAuthorizationRequest id).
Proof.
  intros now d d' u Hh Htx. unfold CompleteAuthorizationRequest in Htx. destruct (tb_requests d !! id) as [q|] eqn:E; [|by injection Htx as <- _].
  destruct (bool_decide _); injection Htx as <- _; [|done]. by eapply rows_request.
Qed.

Lemma stays_ConsumeCode R h a : stays R (ConsumeAuthorizationCode h a).
Proof.
  intros now d d' u Hh Htx. unfold ConsumeAuthorizationCode in Htx. destruct (tb_codes d !! h) as [c|] eqn:E; [|by injection Htx as <- _].
  destruct (bool_decide _); injection Htx as <- _; [|done]. destruct Hh as [Hc Hq Hk]. split; simpl; [done|done|].
  intros k c0. rewrite lookup_insert. case_decide; [|by apply Hk]. intros [= <-]. exact (Hk h c E).
Qed.

Lemma stays_CreateRequest R a : rw_request R (view_request a) -> stays R (CreateAuthorizationRequest a).
Proof.
  intros Ha now d d' u [Hc Hq Hk] Htx. unfold CreateAuthorizationRequest in Htx. repeat case_hyp Htx; simplify_eq/=;
    (split; simpl; [done| |done]; intros k q; rewrite lookup_insert; case_decide; [by intros [= <-]|by apply Hq]).
Qed.

Lemma stays_CreateCode R c : rw_code R (code_new c) -> stays R (CreateAuthorizationCode c).
Proof.
  intros Ha now d d' u [Hc Hq Hk] Htx. unfold CreateAuthorizationCode in Htx. repeat case_hyp Htx; simplify_eq/=;
    (split; simpl; [done|done|]; intros k q; rewrite lookup_insert; case_decide; [by intros [= <-]|by apply Hk]).
Qed.

Lemma stays_CreateClient R id c : rw_client R id (cl_redirect_uris c) -> stays R (CreateOAuthClient id c).
Proof.
  intros Ha now d d' u [Hc Hq Hk] Htx. unfold CreateOAuthClient in Htx. repeat case_hyp Htx; simplify_eq/=;
    (split; simpl; [|done..]; intros k q; rewrite lookup_insert; case_decide; [subst k; by intros [= <-]|by apply Hc]).
Qed.

Lemma rows_failure R r spec source d : rows R d -> rows R (record_failure r spec source d).1.
Proof. destruct (record_failure_frame d r spec source) as (_ & _ & ? & _ & ? & ?). by apply rows_same. Qed.

Lemma rows_standalone R r k rs ac so f d : rows R d -> rows R (appendStandalone r k rs ac so f d).
Proof. intros Hh. apply stays_run; [apply stays_AppendAudit|done]. Qed.

Create HintDb stays.
#[local] Hint Resolve stays_ret stays_read stays_CreateAuthorization stays_SetScopes stays_RevokeAuthorization stays_InsertToken stays_SpendToken
  stays_RevokeFamily stays_RevokeTokens stays_AppendAudit stays_CreateEnrollment stays_ConsumeEnrollment stays_RevokeEnrollment stays_Expired
  stays_Delete stays_Activate stays_Decide stays_Complete stays_ConsumeCode stays_CreateRequest stays_CreateCode stays_CreateClient : stays.

Ltac stay := repeat first [solve [auto with stays] | apply stays_if | apply stays_bind; [|intros ?] | progress cbv zeta].

Section Handlers.
Context `{SHA256} (R : Rows) {RL : RowLaws R}.

Lemma stays_pair s f id fam ae re : stays R (token_pair s f id fam ae re).
Proof. unfold token_pair. stay. Qed.

Lemma stays_revokeFamily id fam source : stays R (revokeFamilyTx id fam source).
Proof. unfold revokeFamilyTx. stay. Qed.

#[local] Hint Resolve stays_pair stays_revokeFamily : stays.

Lemma stays_each ids : stays R (revoke_each ids).
Proof. induction ids as [|id ids IH]; simpl; stay. Qed.

Lemma stays_sweep ids : stays R (sweep_each ids).
Proof. induction ids as [|id ids IH]; simpl; stay. Qed.

#[local] Hint Resolve stays_each stays_sweep : stays.

Lemma stays_mint s f now ae re deadline granted narrowed source : stays R (mint_tx s f now ae re deadline granted narrowed source).
Proof. unfold mint_tx. stay. Qed.

Lemma stays_rotate s p f dec : stays R (rotate_tx s p f dec).
Proof. unfold rotate_tx. stay. Qed.

Lemma stays_exchange s f code scopes ae re deadline now source : stays R (exchange_tx s f code scopes ae re deadline now source).
Proof. unfold exchange_tx. stay. Qed.

Lemma stays_decide id st g rs kind source payload : stays R (decide_tx id st g rs kind source payload).
Proof. unfold decide_tx. stay. Qed.

Lemma stays_pending id ctx selected e token source now ttl : rw_request R (view_context ctx) ->
  stays R (pending_tx id ctx selected e token source now ttl).
Proof. intros Hh. unfold pending_tx. stay. Qed.

Lemma stays_completing req scopes hash now ttl : rw_request R (view_request req) -> stays R (complete_tx req scopes hash now ttl).
Proof. intros Hh. pose proof (code_from_request _ Hh) as Hcode. unfold complete_tx. stay. Qed.

(** A handler is transactions, failures and audit rows. *)
Ltac all_rows := repeat first
  [ done | apply rows_failure | apply rows_standalone
  | match goal with |- context [AuthzTx ?n ?m ?d] =>
      let Hh := fresh "Hh" in assert (rows R (AuthzTx n m d).1) as Hh by (apply stays_run; [stay|done]);
      destruct (AuthzTx n m d) as [? [?|?]]; cbn [fst snd] in Hh |- * end
  | match goal with |- context [record_failure ?r ?sp ?so ?d] =>
      let Hh := fresh "Hh" in assert (rows R (record_failure r sp so d).1) as Hh by (by apply rows_failure);
      destruct (record_failure r sp so d) as [? ?]; cbn [fst snd] in Hh |- * end
  | case_match; cbn [fst snd] in * | progress cbv zeta ].

(** A handler that ends in one transaction. *)
Ltac handled_run :=
  match goal with |- context [AuthzTx ?n ?m ?d] =>
    let Hh := fresh "Hh" in assert (rows R (AuthzTx n m d).1) as Hh by (apply stays_run; [stay|assumption]);
    revert Hh; generalize (AuthzTx n m d); intros [? [?|?]] Hh; cbn [fst snd] in Hh |- * end.

Lemma handled_mint s r f ttls secret requested source d : rows R d -> rows R (MintAdminSession s r f ttls secret requested source d).1.
Proof. intros Hh. unfold MintAdminSession, recordAdminSecretFailure. pose proof stays_mint as Hk. all_rows. Qed.

Lemma handled_refresh s p f r rr d : rows R d -> rows R (refresh_finish s p f r rr d).1.
Proof.
  intros Hh. unfold refresh_finish. cbv zeta. destruct rr as [e|reason refusal|row|dec]; [done|unfold recordRefreshFailure; all_rows| |pose proof stays_rotate as Hk; all_rows].
  unfold detectReuse. set (m := revokeFamilyTx _ _ _). assert (rows R (AuthzTx (UnixMilli (rd_tx r)) m d).1) as Ht by (apply stays_run; [apply stays_revokeFamily|done]).
  destruct (AuthzTx _ m d) as [d1 [u|e]]; [by apply rows_failure|done].
Qed.

Lemma handled_replay r source code d : rows R d -> rows R (revokeAfterReplay r source code d).1.
Proof.
  intros Hh. unfold revokeAfterReplay. case_decide; [by apply rows_failure|]. set (m := replay_tx _ _).
  assert (rows R (AuthzTx (UnixMilli (rd_tx r)) m d).1) as Ht by (apply stays_run; [unfold m, replay_tx; stay|done]).
  destruct (AuthzTx _ m d) as [d1 [u|e]]; [by apply rows_failure|done].
Qed.

Lemma handled_exchange s i f r er d : rows R d -> rows R (exchange_finish s i f r er d).1.
Proof.
  intros Hh. pose proof stays_exchange as Hk. assert (forall reason refusal source d0, rows R d0 -> rows R (recordOAuthFailure r source reason refusal d0).1) as Hfail.
  { intros reason refusal source d0 Hd0. unfold recordOAuthFailure. pose proof (rows_failure R r LimitOAuthToken source d0 Hd0) as Hf.
    destruct (record_failure _ _ _ d0) as [d1 a]. by apply rows_standalone. }
  unfold exchange_finish. cbv zeta. destruct er as [e|reason refusal|code|code refusal|code scopes ae re deadline now0]; [done|by apply Hfail|by apply handled_replay| |].
  { set (m := unbound_tx _ _). assert (rows R (AuthzTx (UnixMilli (rd_tx r)) m d).1) as Ht by (apply stays_run; [unfold m, unbound_tx; stay|done]).
    destruct (AuthzTx _ m d) as [d1 [u|e]]; [by apply rows_failure|done]. }
  assert (rows R (AuthzTx (UnixMilli (rd_tx r)) (exchange_tx s f code scopes ae re deadline now0 (normalizeSource (ce_Source i))) d).1) as Ht by by apply stays_run.
  destruct (AuthzTx _ _ d) as [d1 [[]|e]]; cbn [fst] in Ht; [|done..]. destruct (AuthorizationCodeByHash _ d1); [by apply handled_replay|by apply Hfail].
Qed.

Lemma handled_revoke r source rr d : rows R d -> rows R (revoke_finish r source rr d).1.
Proof.
  intros Hh. unfold revoke_finish, revokeAuthorization. destruct rr; [done|by apply rows_failure|done|]. apply stays_run; [stay|done].
Qed.

Lemma handled_owner r id reason source d : rows R d -> rows R (OwnerRevoke r id reason source d).1.
Proof. intros Hh. unfold OwnerRevoke, revokeAuthorization. destruct (ReadAuthorization id d); [|done]. apply stays_run; [stay|done]. Qed.

Lemma handled_logout r id d : rows R d -> rows R (authLogout r id d).1.
Proof. intros Hh. unfold authLogout. apply stays_run; [stay|done]. Qed.

Lemma handled_superseded s r d : rows R d -> rows R (RevokeSupersededAdminSessions s r d).1.
Proof. intros Hh. pose proof stays_each as Hk. unfold RevokeSupersededAdminSessions, RevokeAdminAuthorizationsFromOtherSecrets. apply stays_run; [stay|done]. Qed.

Lemma handled_issue label scopes allowed ttl id hash source r d : rows R d -> rows R (IssueEnrollmentCode label scopes allowed ttl id hash source r d).1.
Proof.
  intros Hh. unfold IssueEnrollmentCode. cbv zeta. case_decide; [exact Hh|].
  destruct scopes as [|x xs], allowed as [|z zs]; try exact Hh; (destruct (enrollmentCeiling _ _); [|exact Hh]); (destruct ttl; [|exact Hh]); handled_run; exact Hh0.
Qed.

Lemma handled_unissue r id reason source d : rows R d -> rows R (OwnerRevokeEnrollment r id reason source d).1.
Proof. intros Hh. unfold OwnerRevokeEnrollment. destruct (tb_enrollments d !! id); [|exact Hh]. handled_run; exact Hh0. Qed.

Lemma handled_submit ctx id token source ttl r sr d : rows R d -> pending_rows R (PSubmit ctx source sr) ->
  rows R (submit_finish ctx id token source ttl r sr d).1.
Proof.
  intros Hh Hp. unfold submit_finish. destruct sr as [e| |ceiling|cid selected e]; [done| |done|].
  - cbv zeta. cbn [fst]. by apply rows_failure, rows_failure.
  - cbv zeta. pose proof (stays_pending id ctx selected e token source) as Hk. handled_run; [|exact Hh0]. case_match; exact Hh0.
Qed.

Lemma handled_decided id st g rs kind source payload now text d : rows R d ->
  rows R (decided (AuthzTx now (decide_tx id st g rs kind source payload) d) text).1.
Proof. intros Hh. pose proof stays_decide as Hk. unfold decided. handled_run; [case_match|]; exact Hh0. Qed.

Lemma handled_complete hash ttl r cr d : rows R d -> pending_rows R (PComplete cr) -> rows R (complete_finish hash ttl r cr d).1.
Proof. intros Hh Hp. unfold complete_finish. destruct cr as [|req|e|req scopes]; [done..|]. cbv zeta. pose proof (stays_completing req scopes hash) as Hk. handled_run; [case_match|]; exact Hh0. Qed.

Lemma handled_delete r id reason source n d : rows R d -> rows R (AuthzTx (UnixMilli (rd_tx r)) (delete_client_tx id reason source n) d).1.
Proof. intros Hh. apply stays_run; [|done]. unfold delete_client_tx. stay. Qed.

Lemma handled_sweep r d : rows R d -> rows R (SweepExpiredRegistrations r d).1.
Proof. intros Hh. pose proof stays_sweep as Hk. unfold SweepExpiredRegistrations. apply stays_run; [stay|done]. Qed.

Lemma complete_read_rows id r d : rows R d -> pending_rows R (PComplete (complete_read id r d)).
Proof.
  intros [_ Hq _]. unfold complete_read, AuthorizationRequestByID. destruct (tb_requests d !! id) as [q|] eqn:E; [|done]. cbn [fmap option_fmap option_map].
  cbv zeta. repeat case_match; try done; by apply (Hq id q).
Qed.

(** ** Every step of the system *)

Definition all_rows_ok (y : Sys) : Prop := rows R (sy_db y) /\ Forall (pending_rows R) (sy_pool y).

(** What a step has to answer for: the clients it registers, the submissions it reads. *)
Lemma rows_step m y y' : Step m y y' -> all_rows_ok y ->
  (forall id c, tb_clients (sy_db y') !! id = Some c -> is_Some (tb_clients (sy_db y) !! id) \/ rw_client R id (cl_redirect_uris c)) ->
  (forall ctx source sr, PSubmit ctx source sr ∈ sy_pool y' -> pending_rows R (PSubmit ctx source sr)) -> all_rows_ok y'.
Proof.
  intros Hst [Hh Hp] Hcl Hsub. assert (forall d', rows R d' -> all_rows_ok (ran y d')) as Hran by by intros d'.
  assert (forall p, pending_rows R p -> all_rows_ok (chose y p)) as Hch by (intros p Hpp; split; [done|by constructor]).
  assert (forall d' name, rows R d' -> all_rows_ok (drew (ran y d') name)) as Hdrew by by intros d'.
  pose proof Hp as Hpool. rewrite Forall_forall in Hpool.
  destruct Hst as [| | | | | | | | | | | | |? ? ? ? ? ? ? Hin| | | | | |? ? ? ? Hin|r id c Hr| |].
  - by apply Hran, handled_mint.
  - by apply Hch.
  - by apply Hran, handled_refresh.
  - by apply Hch.
  - by apply Hran, handled_exchange.
  - by apply Hch.
  - by apply Hran, handled_revoke.
  - by apply Hran, handled_owner.
  - by apply Hran, handled_logout.
  - by apply Hran, handled_superseded.
  - by apply Hran, handled_issue.
  - by apply Hran, handled_unissue.
  - apply Hch, Hsub. by left.
  - apply Hdrew, handled_submit; [done|]. by apply (Hpool (PSubmit ctx source sr)).
  - by apply Hch.
  - apply Hran. unfold approve_finish. destruct ar as [[[row selected] granted]|e]; [by apply handled_decided|done].
  - by apply Hch.
  - apply Hran. unfold deny_finish. destruct dr as [row|e]; [by apply handled_decided|done].
  - by apply Hch, complete_read_rows.
  - apply Hdrew, handled_complete; [done|]. by apply (Hpool (PComplete cr)).
  - apply Hran. unfold AuthzTx. destruct (CreateOAuthClient id c _ _) as [[d' u]|e] eqn:E; [|done]. eapply stays_CreateClient; [|exact Hh|exact E].
    unfold ran, AuthzTx in Hcl. rewrite E in Hcl. cbn [sy_db fst] in Hcl. unfold CreateOAuthClient in E. destruct (tb_clients (sy_db y) !! id) eqn:Ec; [done|].
    injection E as <- _. destruct (Hcl id _ (lookup_insert_eq _ _ _)) as [[x Hx]|Hw]; [congruence|exact Hw].
  - by apply Hran, handled_delete.
  - by apply Hran, handled_sweep.
Qed.
End Handlers.
