(* ===== verification/Clients.v ===== *)
(** * Clients and the authorization request (internal/oauth/register.go, admin.go,
      authorize.go; internal/store/oauth.go)

    How a client comes to be registered, dynamically or by the owner, and the first leg of
    the grant: GET /oauth/authorize, which checks the client, the redirect URI and the
    parameters and answers with a refusal, a redirect that carries an error, or the
    approval page with the signed context.  The pipeline of Grants.v goes on from there.
    The theorem is about the two together, under every interleaving: whatever the browser
    is sent to, with an error or with a code, was registered for the client. *)

From S2P Require Import Prelude Ids GoStrings Capability Supervisor MediaCache Redirects Scopes Limits AuthzStore Sessions Grants Credentials Authority Provenance Rows.

Local Open Scope Z_scope.

(** ** Registration (register.go) *)

Definition RegistrationTTL : Z := 24 * Hour.
Definition RegistrationsPerSourcePerHour : Z := 20.

Record registrationRequest := mkRegistration {
  rg_ClientID : string;
  rg_ClientName : string;
  rg_RedirectURIs : list string;
  rg_GrantTypes : list string;
  rg_ResponseTypes : list string;
  rg_TokenEndpointAuthMethod : string;
}.

Definition allowedGrants : list string := ["authorization_code"; "refresh_token"]%string.

Definition joinList (v : list string) : string := String.concat " " v.

(** [CountRegistrationsSince]: a source that is NULL is equal to nothing. *)
Definition CountRegistrationsSince (source : string) (sinceMS : Z) (d : AuthDB) : Z :=
  Z.of_nat (length (filter (fun kr : string * ClientRow =>
    cl_source kr.2 = Some source /\ sinceMS <= cl_created_at_ms kr.2 /\ cl_static kr.2 = false) (map_to_list (tb_clients d)))).

Section Clients.
Context {GF : GoFmt} {LO : Lower} {FO : Folding}.

Definition first_refused (uris : list string) : option string := head (omap ValidateRedirectURI uris).

Definition invalid_redirect (description : string) : oauthError := badRequest "invalid_redirect_uri" description.

(** The refusals of [Register] in their order, and the request with its defaults. *)
Definition register_check (req : registrationRequest) : Result oauthError registrationRequest :=
  let metadata m := Err (badRequest "invalid_client_metadata" m) in
  if negb (bool_decide (TrimSpace (rg_ClientID req) = ""%string))
  then metadata "client_id is chosen by this server and may not be supplied"%string
  else
    let auth := if decide (rg_TokenEndpointAuthMethod req = ""%string) then "none"%string else rg_TokenEndpointAuthMethod req in
    if negb (bool_decide (auth = "none"%string))
    then metadata "token_endpoint_auth_method must be `none`; this server registers public clients only"%string
    else
      let grants := match rg_GrantTypes req with [] => allowedGrants | l => l end in
      match List.find (fun g => negb (bool_decide (g ∈ allowedGrants))) grants with
      | Some g => metadata ("grant_types must be a subset of authorization_code and refresh_token, not " +:+ g)
      | None =>
          let responses := match rg_ResponseTypes req with [] => ["code"%string] | l => l end in
          match List.find (fun rt => negb (bool_decide (rt = "code"%string))) responses with
          | Some rt => metadata ("the only response type is `code`, not " +:+ rt)
          | None =>
              if (length (rg_RedirectURIs req) =? 0)%nat then Err (invalid_redirect "at least one redirect URI is required")
              else if (MaxRedirectURIs <? length (rg_RedirectURIs req))%nat then Err (invalid_redirect "at most 10 redirect URIs may be registered")
              else
                match first_refused (rg_RedirectURIs req) with
                | Some text => Err (invalid_redirect text)
                | None => Ok (mkRegistration (rg_ClientID req) (rg_ClientName req) (rg_RedirectURIs req) grants responses auth)
                end
          end
      end.

(** The reads of [Register]. *)
Definition register_read (req : registrationRequest) (source : string) (r : Readings) (d : AuthDB) : Result oauthError registrationRequest :=
  match register_check req with
  | Err e => Err e
  | Ok req =>
      if RegistrationsPerSourcePerHour <=? CountRegistrationsSince source (UnixMilli (rd_now r - Hour)) d
      then Err (mkOauthError 429 "temporarily_unavailable" "too many registrations from this source; retry later" 3600)
      else Ok req
  end.

Record registrationResponse := mkResponse {
  rs_ClientID : string;
  rs_ClientIDIssuedAt : Z;
  rs_ClientName : string;
  rs_RedirectURIs : list string;
  rs_GrantTypes : list string;
  rs_ResponseTypes : list string;
  rs_TokenEndpointAuthMethod : string;
}.

(** [id] is the fresh ID without its prefix, [metadata] the JSON of the request. *)
Definition registered_row (req : registrationRequest) (metadata source : string) (r : Readings) : ClientRow :=
  mkClientRow (nullString (rg_ClientName req)) (rg_RedirectURIs req) (joinList (rg_GrantTypes req)) (joinList (rg_ResponseTypes req))
    "none" metadata (nullString source) None (nullInt (UnixMilli (rd_now r + RegistrationTTL))) (UnixMilli (rd_now r)) false false.

Definition register_finish (id metadata source : string) (r : Readings) (rr : Result oauthError registrationRequest) (d : AuthDB)
    : AuthDB * Result oauthError registrationResponse :=
  match rr with
  | Err e => (d, Err e)
  | Ok req =>
      let id := PrefixClient +:+ id in
      match AuthzTx (UnixMilli (rd_tx r)) (CreateOAuthClient id (registered_row req metadata source r)) d with
      | (d', Err _) => (d', Err (statusError 500 "server_error" "the registration could not be recorded"))
      | (d', Ok _) => (d', Ok (mkResponse id (rd_now r / Second) (rg_ClientName req) (rg_RedirectURIs req) (rg_GrantTypes req) (rg_ResponseTypes req) "none"))
      end
  end.

(** ** Owner-declared clients (admin.go) *)

Definition MaxStaticClientIDLength : nat := 128.

Record StaticClientRequest := mkStaticClient {
  sc_ClientID : string;
  sc_Name : string;
  sc_RedirectURIs : list string;
  sc_DefaultResource : bool;
}.

Definition validStaticClientID (id : string) : bool := forallb (fun r => alnum r || one_of [45; 95; 46] r) (runes id).

Definition static_check (req : StaticClientRequest) : Result AdminError string :=
  let id := TrimSpace (sc_ClientID req) in
  let bad m := Err (AdminInvalid "client_id" m) in
  let bad_uris m := Err (AdminInvalid "redirect_uris" m) in
  if decide (id = ""%string) then bad "an owner-declared client needs a client_id"%string
  else if (MaxStaticClientIDLength <? String.length id)%nat then bad "a client_id may be at most 128 characters"%string
  else if negb (validStaticClientID id) then bad "a client_id may use only letters, digits, and - _ ."%string
  else if HasPrefix PrefixClient id then bad "the client_ prefix is reserved for registrations this server mints"%string
  else if (length (sc_RedirectURIs req) =? 0)%nat then bad_uris "at least one redirect URI is required"%string
  else if (MaxRedirectURIs <? length (sc_RedirectURIs req))%nat then bad_uris "at most 10 redirect URIs may be registered"%string
  else match first_refused (sc_RedirectURIs req) with Some text => bad_uris text | None => Ok id end.

Definition static_read (req : StaticClientRequest) (d : AuthDB) : Result AdminError string :=
  match static_check req with
  | Err e => Err e
  | Ok id =>
      match tb_clients d !! id with
      | Some _ => Err (AdminInvalid "client_id" "a client with this id already exists")
      | None => Ok id
      end
  end.

Definition static_row (req : StaticClientRequest) (metadata source : string) (r : Readings) : ClientRow :=
  mkClientRow (nullString (sc_Name req)) (sc_RedirectURIs req) (joinList allowedGrants) (joinList ["code"%string]) "none" metadata
    (nullString source) (nullInt (UnixMilli (rd_now r))) None (UnixMilli (rd_now r)) true (sc_DefaultResource req).

Definition static_finish (req : StaticClientRequest) (metadata source : string) (r : Readings) (sr : Result AdminError string) (d : AuthDB)
    : AuthDB * Result AdminError (string * ClientRow) :=
  match sr with
  | Err e => (d, Err e)
  | Ok id =>
      let row := static_row req metadata source r in
      match AuthzTx (UnixMilli (rd_tx r))
              (CreateOAuthClient id row ≫= fun _ =>
               AppendAudit "client.created" "ok" "" "" source
                 [("client_id", VStr id); ("static", VBool true); ("default_resource", VBool (sc_DefaultResource req));
                  ("redirect_uris", VList (sc_RedirectURIs req))]) d with
      | (d', Err _) => (d', Err (AdminInternal "the client could not be recorded"))
      | (d', Ok _) => (d', Ok (id, row))
      end
  end.

(** ** The authorization request (authorize.go) *)

Record authorizeParams := mkAuthorizeParams {
  ap_ResponseType : string;
  ap_ClientID : string;
  ap_RedirectURI : string;
  ap_State : string;
  ap_CodeChallenge : string;
  ap_CodeChallengeMethod : string;
  ap_Resource : string;
  ap_Scopes : list string;
}.

Definition DefaultScopes : list string := [ScopeMessagesRead; ScopeMessagesWrite].

Definition validChallenge (v : string) : bool :=
  (String.length v =? 43)%nat && forallb (fun r => alnum r || one_of [45; 95] r) (runes v).

Definition registrationExpired (now : Z) (c : ClientRow) : bool :=
  if negb (scanInt (cl_activated_at_ms c) =? 0) || (scanInt (cl_expires_at_ms c) =? 0) then false
  else scanInt (cl_expires_at_ms c) <=? UnixMilli now.

(** The error code and its description, or the parameters as they go on; [resource] is this
    server's. *)
Definition validateAuthorize (resource : string) (client : ClientRow) (p : authorizeParams) : Result (string * string) authorizeParams :=
  if negb (bool_decide (ap_ResponseType p = "code"%string)) then Err ("unsupported_response_type", "the only response_type is `code`")%string
  else if decide (TrimSpace (ap_State p) = ""%string) then Err ("invalid_request", "state is required")%string
  else if decide (ap_CodeChallengeMethod p = ""%string) then Err ("invalid_request", "code_challenge_method is required and must be S256")%string
  else if negb (bool_decide (ap_CodeChallengeMethod p = "S256"%string)) then Err ("invalid_request", "the only code_challenge_method is S256")%string
  else if negb (validChallenge (ap_CodeChallenge p)) then Err ("invalid_request", "code_challenge must be a base64url S256 challenge")%string
  else
    let asked := if bool_decide (ap_Resource p = ""%string) && cl_default_resource client then resource else ap_Resource p in
    if negb (bool_decide (asked = resource)) then Err ("invalid_target"%string, "resource must be " +:+ resource)
    else
      match ParseScopes (match ap_Scopes p with [] => DefaultScopes | l => l end) with
      | Err _ => Err ("invalid_scope", "the requested scope is not one this server issues")%string
      | Ok set =>
          if Empty set then Err ("invalid_scope", "the requested scope is not one this server issues")%string
          else if Has set ScopeAdmin then Err ("invalid_scope", "admin is never issued through OAuth")%string
          else Ok (mkAuthorizeParams (ap_ResponseType p) (ap_ClientID p) (ap_RedirectURI p) (ap_State p) (ap_CodeChallenge p)
                     (ap_CodeChallengeMethod p) asked (List set))
      end.

(** A refusal in place, a redirect to [uri] with parameters set in its query, or the
    approval page with its signed context and the time the context expires. *)
Inductive AuthorizeAnswer : Type :=
| AuthorizeRefused (e : oauthError)
| AuthorizeRedirect (uri : string) (params : list (string * string))
| AuthorizePage (ctx : contextPayload) (expiresAtMS : Z) (clientName : string).

(** Parameters that are set unless they are empty. *)
Definition set_param (name value : string) : list (string * string) := if decide (value = ""%string) then [] else [(name, value)].

Definition error_params (issuer state code description : string) : list (string * string) :=
  ("error"%string, code) :: set_param "error_description" description ++ set_param "state" state ++ [("iss"%string, issuer)].

Definition redirectError (issuer : string) (p : authorizeParams) (code description : string) : AuthorizeAnswer :=
  match url_Parse (ap_RedirectURI p) with
  | None => AuthorizeRefused (invalid_redirect "the redirect URI could not be used")
  | Some _ => AuthorizeRedirect (ap_RedirectURI p) (error_params issuer (ap_State p) code description)
  end.

(** [Server.Issuer] is the public URL. *)
Definition Resource (issuer : string) : string := issuer +:+ "/mcp".

(** [handle]: the digest of the fresh handle, if one could be drawn. *)
Definition authorizeGet (issuer : string) (p : authorizeParams) (handle : option string) (ttl : Result AuthzError Z) (r : Readings) (d : AuthDB)
    : AuthorizeAnswer :=
  match tb_clients d !! ap_ClientID p with
  | None => AuthorizeRefused (badRequest "invalid_client" "unknown client_id")
  | Some client =>
      if registrationExpired (rd_now r) client then AuthorizeRefused (badRequest "invalid_client" "this registration has expired")
      else
        match MatchRegisteredRedirect (cl_redirect_uris client) (ap_RedirectURI p) with
        | None => AuthorizeRefused (invalid_redirect "redirect_uri is not registered for this client")
        | Some verified =>
            let p := mkAuthorizeParams (ap_ResponseType p) (ap_ClientID p) verified (ap_State p) (ap_CodeChallenge p)
                       (ap_CodeChallengeMethod p) (ap_Resource p) (ap_Scopes p) in
            match validateAuthorize (Resource issuer) client p with
            | Err (code, description) => redirectError issuer p code description
            | Ok p =>
                match handle with
                | None => redirectError issuer p "server_error" "the screen could not be prepared"
                | Some hash =>
                    let ttl := match ttl with Ok t => t | Err _ => 15 * Minute end in
                    AuthorizePage (mkContextPayload hash (ap_ClientID p) (ap_RedirectURI p) (ap_State p) (ap_CodeChallenge p)
                      (ap_CodeChallengeMethod p) (ap_Resource p) (ap_Scopes p)) (UnixMilli (rd_now r + ttl)) (scanString (cl_client_name client))
                end
            end
        end
  end.

(** ** Where the browser goes

    The system of Authority.v with these two ways of registering a client, and the log of
    what was ever registered.  A registration may be written long after the request was
    checked and the earlier ones were counted. *)

(** The match as the submission of the page uses it. *)
Definition redirect_registered (uris : list string) (uri : string) : bool := bool_decide (is_Some (MatchRegisteredRedirect uris uri)).

Definition Log : Type := list (string * list string).

(** A step of the grant pipeline that registers nobody. *)
Definition registers_nobody (y y' : Sys) : Prop :=
  forall id c, tb_clients (sy_db y') !! id = Some c -> is_Some (tb_clients (sy_db y) !! id).

Inductive Serve `{SHA256} (s : Sys * Log) : Sys * Log -> Prop :=
| sv_step y' : Step redirect_registered s.1 y' -> registers_nobody s.1 y' -> Serve s (y', s.2)
| sv_register req source r0 d0 id metadata r d' response :
    ticking r -> register_finish id metadata source r (register_read req source r0 d0) (sy_db s.1) = (d', Ok response) ->
    Serve s (ran s.1 d', (rs_ClientID response, rs_RedirectURIs response) :: s.2)
| sv_static req d0 metadata source r d' id row :
    ticking r -> static_finish req metadata source r (static_read req d0) (sy_db s.1) = (d', Ok (id, row)) ->
    Serve s (ran s.1 d', (id, cl_redirect_uris row) :: s.2).

(** The redirect URI was registered, or is that of a registered loopback URI at another
    port. *)
Definition home (log : Log) (clientID uri : string) : Prop :=
  exists uris, (clientID, uris) ∈ log /\ redirect_registered uris uri = true.

Definition log_rows (log : Log) : Rows :=
  mkRows (fun id uris => (id, uris) ∈ log) (fun v => home log (vw_client v) (vw_redirect v)) (fun c => home log (vc_client c) (vc_redirect c)).

#[local] Instance log_laws log : RowLaws (log_rows log).
Proof. by intros v. Qed.

Definition served (s : Sys * Log) : Prop :=
  Forall (fun e => Forall (fun uri => ValidateRedirectURI uri = None) e.2) s.2 /\ all_rows_ok (log_rows s.2) s.1.

Lemma home_more log e clientID uri : home log clientID uri -> home (e :: log) clientID uri.
Proof. intros (uris & Hin & Hm). exists uris. split; [by right|done]. Qed.

Lemma rows_more log e d : rows (log_rows log) d -> rows (log_rows (e :: log)) d.
Proof. apply rows_weaken; simpl; [by right|intros v; apply home_more|intros c; apply home_more]. Qed.

Lemma submit_read_home log ctx source browser selected hash r d : rows (log_rows log) d ->
  pending_rows (log_rows log) (PSubmit ctx source (submit_read redirect_registered browser ctx selected hash source r d)).
Proof.
  intros [Hc _ _]. unfold submit_read. destruct (Check _ _ _ _); [done|]. destruct browser; [done|].
  destruct (tb_clients d !! _) as [client|] eqn:E; [|done]. destruct (redirect_registered _ _) eqn:Em; cbn [negb]; [|done]. repeat case_match; try done.
  exists (cl_redirect_uris client). split; [by apply (Hc _ _ E)|done].
Qed.

(** *** Every step *)

Lemma first_refused_none uris : first_refused uris = None -> Forall (fun uri => ValidateRedirectURI uri = None) uris.
Proof.
  unfold first_refused. induction uris as [|u l IH]; [constructor|]. cbn [omap list_omap]. destruct (ValidateRedirectURI u) eqn:E; [done|]. by constructor; [|apply IH].
Qed.

Lemma register_read_valid req source r d req' : register_read req source r d = Ok req' ->
  rg_RedirectURIs req' = rg_RedirectURIs req /\ Forall (fun uri => ValidateRedirectURI uri = None) (rg_RedirectURIs req).
Proof.
  unfold register_read. destruct (register_check req) as [req1|e] eqn:E; [|done]. destruct (_ <=? _); [done|]. intros [= <-].
  unfold register_check in E. cbv zeta in E. repeat (destruct (negb _) in E; [done|]). destruct (List.find _ _) in E; [done|]. destruct (List.find _ _) in E; [done|].
  repeat (destruct (_ : bool) in E; [done|]). destruct (first_refused _) eqn:Ef in E; [done|]. injection E as <-. split; [done|by apply first_refused_none].
Qed.

Lemma static_read_valid req d id : static_read req d = Ok id -> Forall (fun uri => ValidateRedirectURI uri = None) (sc_RedirectURIs req).
Proof.
  unfold static_read. destruct (static_check req) as [id'|e] eqn:E; [|done]. intros _. unfold static_check in E. cbv zeta in E.
  destruct (decide _) in E; [done|]. repeat (destruct (_ : bool) in E; [done|]). destruct (first_refused _) eqn:Ef in E; [done|]. by apply first_refused_none.
Qed.

(** A client that is added to the log and to the tables. *)
Lemma served_client {A} s id c now (m : Tx A) d' a : served s -> Forall (fun uri => ValidateRedirectURI uri = None) (cl_redirect_uris c) ->
  stays (log_rows ((id, cl_redirect_uris c) :: s.2)) m -> m now (sy_db s.1) = Ok (d', a) -> served (ran s.1 d', (id, cl_redirect_uris c) :: s.2).
Proof.
  intros (Hl & Hh & Hp) Hv Hm Htx. split; [by constructor|]. split.
  - eapply Hm; [|exact Htx]. by apply rows_more.
  - eapply Forall_impl; [exact Hp|]. intros p. apply pending_weaken. intros v. apply home_more.
Qed.

Section Steps.
Context `{SHA256}.

Lemma served_step s y' : served s -> Step redirect_registered s.1 y' -> registers_nobody s.1 y' -> served (y', s.2).
Proof.
  destruct s as [y log]. intros [Hl Hok] Hst Hno. cbn [fst snd] in *. split; [exact Hl|].
  eapply rows_step; [apply log_laws|exact Hst|exact Hok| |].
  - intros id c Hc. left. by eapply Hno.
  - intros ctx source sr Hin. destruct Hok as [Hh Hp]. rewrite Forall_forall in Hp.
    assert (PSubmit ctx source sr ∈ sy_pool y -> pending_rows (log_rows log) (PSubmit ctx source sr)) as Hold by apply Hp.
    destruct Hst; cbn [sy_pool ran chose drew] in Hin; try (by apply Hold); apply elem_of_cons in Hin as [E|Hin]; try (by apply Hold); try done.
    injection E as -> -> ->. by apply submit_read_home.
Qed.

Lemma served_serve s s' : served s -> Serve s s' -> served s'.
Proof.
  intros Hs [y' Hst Hno|req source r0 d0 id metadata r d' response Hr E|req d0 metadata source r d' id row Hr E].
  - by apply served_step.
  - unfold register_finish in E. destruct (register_read req source r0 d0) as [req'|e] eqn:Er; [|done]. cbv zeta in E.
    destruct (register_read_valid _ _ _ _ _ Er) as [Eu Hv]. destruct (AuthzTx _ _ _) as [d1 res] eqn:Htx.
    apply AuthzTx_inv in Htx as [(e & -> & _)|(a & -> & Htx)]; [done|]. injection E as -> <-. cbn [rs_ClientID rs_RedirectURIs].
    eapply (served_client s (PrefixClient +:+ id) (registered_row req' metadata source r)); [done|by simpl; rewrite Eu| |exact Htx].
    apply stays_CreateClient. left.
  - unfold static_finish in E. destruct (static_read req d0) as [id'|e] eqn:Er; [|done]. cbv zeta in E.
    destruct (AuthzTx _ _ _) as [d1 res] eqn:Htx. apply AuthzTx_inv in Htx as [(e & -> & _)|(a & -> & Htx)]; [done|]. injection E as -> -> <-.
    eapply (served_client s id (static_row req metadata source r)); [done|by eapply static_read_valid| |exact Htx].
    apply stays_bind; [|intros ?; apply stays_AppendAudit]. apply stays_CreateClient. left.
Qed.

Lemma served_initial : served (initial, []).
Proof. split; [constructor|]. split; [apply rows_empty|constructor]. Qed.

Lemma served_reachable s : rtc Serve (initial, []) s -> served s.
Proof.
  assert (forall s0, served s0 -> rtc Serve s0 s -> served s) as Hind; [|apply Hind, served_initial].
  intros s0 Hs Hr. induction Hr as [s|s s1 s2 Hst _ IH]; [done|]. by eapply IH, served_serve.
Qed.
End Steps.
End Clients.

(** ** No open redirect *)

Section Property.
Context `{SHA256} {GF : GoFmt} {LO : Lower} {FO : Folding} {LL : LowerLaws} {FL : FoldingLaws}.

(** Where a client may be sent: to a URI that it registered, which reads as [accepted_text]
    says, or to another port of a loopback URI that it registered. *)
Definition registered_for (log : Log) (clientID uri : string) : Prop :=
  exists uris r, (clientID, uris) ∈ log /\ r ∈ uris /\ accepted_text r /\ (uri = r \/ another_port r uri).

Lemma home_registered s clientID uri : served s -> home s.2 clientID uri -> registered_for s.2 clientID uri.
Proof.
  intros (Hl & _) (uris & Hin & Hm). unfold redirect_registered in Hm. apply bool_decide_eq_true in Hm as [u Hm].
  apply match_some in Hm as (-> & r & Hr & Hm). rewrite Forall_forall in Hl. specialize (Hl _ Hin). cbn [snd] in Hl. rewrite Forall_forall in Hl.
  exists uris, r. split; [done|]. split; [done|]. split; [by apply validated_text, Hl|]. apply matched_text; [by apply Hl|done].
Qed.

Lemma matched_parses registered uri : ValidateRedirectURI registered = None -> RedirectMatches registered uri = true -> url_Parse uri <> None.
Proof.
  intros Hv Hm. destruct (matched_text _ _ Hv Hm) as [->|Hp].
  - unfold ValidateRedirectURI in Hv. destruct (_ =? 0)%nat; [done|]. destruct (_ <? _)%nat; [done|]. by destruct (url_Parse registered).
  - destruct Hp as (? & ? & ? & ? & ? & ? & ? & ? & _ & _ & _ & _ & _ & _ & reg & pres & _ & E & _). by rewrite E.
Qed.

(** The scopes of an approval page. *)
Definition grantable (scopes : list string) : Prop :=
  exists set, scopes = List set /\ set <> ∅ /\ set ⊆ list_to_set canonicalOrder /\ ScopeAdmin ∉ set.

Lemma validate_exact resource client p p' : validateAuthorize resource client p = Ok p' ->
  ap_ResponseType p = "code"%string /\ TrimSpace (ap_State p) <> ""%string /\ ap_CodeChallengeMethod p = "S256"%string /\
  validChallenge (ap_CodeChallenge p) = true /\ (ap_Resource p = resource \/ (ap_Resource p = ""%string /\ cl_default_resource client = true)) /\
  grantable (ap_Scopes p') /\ ap_ClientID p' = ap_ClientID p /\ ap_RedirectURI p' = ap_RedirectURI p /\ ap_State p' = ap_State p /\
  ap_CodeChallenge p' = ap_CodeChallenge p /\ ap_CodeChallengeMethod p' = ap_CodeChallengeMethod p /\ ap_Resource p' = resource.
Proof.
  unfold validateAuthorize. destruct (bool_decide (_ = "code"%string)) eqn:E1; [|done]. cbn [negb]. destruct (decide (TrimSpace _ = _)) as [|E2]; [done|].
  destruct (decide (ap_CodeChallengeMethod p = _)); [done|]. destruct (bool_decide (_ = "S256"%string)) eqn:E3; [|done]. cbn [negb].
  destruct (validChallenge _) eqn:E4; [|done]. cbn [negb]. cbv zeta.
  set (asked := if bool_decide _ && _ then resource else _). destruct (bool_decide (asked = resource)) eqn:E5; [|done]. cbn [negb].
  destruct (ParseScopes _) as [set|] eqn:E6; [|done]. destruct (Empty set) eqn:E7; [done|]. destruct (Has set ScopeAdmin) eqn:E8; [done|].
  intros [= <-]. apply bool_decide_eq_true in E1, E3, E5. cbn. split_and!; try done.
  - unfold asked in E5. destruct (bool_decide _ && _) eqn:E; [right|by left]. by apply andb_true_iff in E as [E%bool_decide_eq_true ?].
  - exists set. split; [done|]. split; [intros E; by apply Empty_spec in E; congruence|]. split; [by eapply parse_known|]. by apply Has_false.
Qed.

(** C13: no open redirect.  In every reachable state of the service, whatever the
    registrations, owners, browsers and clients did and however their steps interleaved:
    GET /oauth/authorize refuses in place when the client is unknown or expired or the URI
    is not registered for it, and otherwise never does: it sends the browser, with an error
    and the state, to the URI as it was presented, or shows the approval page whose signed
    context carries that URI, an S256 challenge of 43 base64url characters, this server's
    resource and known scopes without admin.  The URI, and the one a denial or a code is
    sent to when a request of a client is completed, and the one a code is bound to, is one that the
    client registered at some time, byte for byte, or another port of its loopback URI. *)
Theorem no_open_redirect s : rtc Serve (initial, []) s ->
  (forall issuer p handle ttl r,
     let answer := authorizeGet issuer p handle ttl r (sy_db s.1) in
     ((exists e, answer = AuthorizeRefused e) <->
        ~ exists client, tb_clients (sy_db s.1) !! ap_ClientID p = Some client /\ registrationExpired (rd_now r) client = false /\
            redirect_registered (cl_redirect_uris client) (ap_RedirectURI p) = true) /\
     match answer with
     | AuthorizeRefused _ => True
     | AuthorizeRedirect uri params => uri = ap_RedirectURI p /\ registered_for s.2 (ap_ClientID p) uri /\
         exists code description, params = error_params issuer (ap_State p) code description
     | AuthorizePage ctx _ _ =>
         cx_ClientID ctx = ap_ClientID p /\ cx_RedirectURI ctx = ap_RedirectURI p /\ registered_for s.2 (ap_ClientID p) (ap_RedirectURI p) /\
         cx_State ctx = ap_State p /\ cx_Method ctx = "S256"%string /\ cx_Challenge ctx = ap_CodeChallenge p /\ validChallenge (ap_CodeChallenge p) = true /\
         cx_Resource ctx = Resource issuer /\ grantable (cx_Scopes ctx)
     end) /\
  (forall cr hash ttl r, PComplete cr ∈ sy_pool s.1 ->
     match (complete_finish hash ttl r cr (sy_db s.1)).2 with
     | RedirectDenied uri _ | RedirectCode uri _ _ => exists req, (cr = CompleteDenied req \/ exists scopes, cr = CompleteMint req scopes) /\
         uri = re_RedirectURI req /\ registered_for s.2 (re_ClientID req) uri
     | _ => True
     end) /\
  (forall h c, tb_codes (sy_db s.1) !! h = Some c -> registered_for s.2 (cd_client_id c) (cd_redirect_uri c)).
Proof.
  intros Hr. pose proof (served_reachable s Hr) as Hs. pose proof Hs as (Hl & [Hc _ Hk] & Hp). split; [|split].
  - intros issuer p handle ttl r. cbv zeta. unfold authorizeGet. destruct (tb_clients _ !! ap_ClientID p) as [client|] eqn:Ec.
    2: { split; [|done]. split; [by intros _ (? & ? & _)|by eauto]. }
    destruct (registrationExpired _ client) eqn:Ee.
    { split; [|done]. split; [intros _ (? & [= <-] & ? & _); congruence|by eauto]. }
    destruct (MatchRegisteredRedirect _ _) as [verified|] eqn:Em.
    2: { split; [|done]. split; [|by eauto]. intros _ (c' & [= <-] & _ & Hm). unfold redirect_registered in Hm. rewrite Em in Hm. by apply bool_decide_eq_true in Hm as [? ?]. }
    assert (redirect_registered (cl_redirect_uris client) (ap_RedirectURI p) = true) as Hreg by (by apply bool_decide_eq_true; rewrite Em).
    assert (registered_for s.2 (ap_ClientID p) (ap_RedirectURI p)) as Hfor.
    { apply home_registered; [done|]. exists (cl_redirect_uris client). split; [by apply (Hc _ _ Ec)|done]. }
    apply match_some in Em as (-> & r0 & Hr0 & Hm). rewrite Forall_forall in Hl. specialize (Hl _ (Hc _ _ Ec)). cbn [snd] in Hl. rewrite Forall_forall in Hl.
    pose proof (matched_parses r0 _ (Hl r0 Hr0) Hm) as Hparse.
    assert (forall A : AuthorizeAnswer, (forall e, A <> AuthorizeRefused e) -> (exists e, A = AuthorizeRefused e) <->
      ~ exists client', Some client = Some client' /\ registrationExpired (rd_now r) client' = false /\ redirect_registered (cl_redirect_uris client') (ap_RedirectURI p) = true) as Hnot.
    { intros A HA. split; [intros [e E]; by destruct (HA e)|]. intros Hn. exfalso. apply Hn. by exists client. }
    cbv zeta. destruct (validateAuthorize _ _ _) as [p'|[code description]] eqn:Ev.
    2: { unfold redirectError. cbn [ap_RedirectURI ap_State]. destruct (url_Parse (ap_RedirectURI p)); [|done]. split; [by apply Hnot|by eauto]. }
    apply validate_exact in Ev as (_ & _ & Emeth & Ech & _ & Hsc & E1 & E2 & E3 & E4 & E5 & E6). cbn in E1, E2, E3, E4, E5, Emeth, Ech. destruct handle as [hash|].
    + split; [by apply Hnot|]. cbn. rewrite E1, E2, E3, E4, E5, E6. by split_and!.
    + unfold redirectError. rewrite E2. destruct (url_Parse (ap_RedirectURI p)); [|done]. split; [by apply Hnot|]. rewrite E3. by eauto.
  - intros cr hash ttl r Hin. rewrite Forall_forall in Hp. specialize (Hp _ Hin). unfold complete_finish. destruct cr as [|req|e|req scopes]; simpl in Hp; try done.
    + cbn [snd]. exists req. split; [by left|]. split; [done|]. by apply home_registered.
    + cbv zeta. destruct (AuthzTx _ _ _) as [d' [[]|e]]; cbn [snd]; [|done..]. exists req. split; [right; by exists scopes|]. split; [done|]. by apply home_registered.
  - intros h c Hcode. apply home_registered; [done|]. by apply (Hk h).
Qed.
End Property.

(** ** The budget of registrations

    With nothing between its count and its row, a registration leaves at most twenty of its
    source in the last hour; two that count before either writes leave twenty-one. *)

Section Budget.
Context {GF : GoFmt} {LO : Lower}.

Lemma count_insert source since id c d : tb_clients d !! id = None ->
  CountRegistrationsSince source since (set_clients (<[id := c]> (tb_clients d)) d) <= CountRegistrationsSince source since d + 1.
Proof.
  intros Hn. unfold CountRegistrationsSince. simpl. rewrite (map_to_list_insert _ _ _ Hn), filter_cons. case_decide; cbn [length]; lia.
Qed.

Lemma registrations_bounded req source r id metadata d d' response :
  register_finish id metadata source r (register_read req source r d) d = (d', Ok response) ->
  CountRegistrationsSince source (UnixMilli (rd_now r - Hour)) d' <= RegistrationsPerSourcePerHour.
Proof.
  unfold register_finish, register_read. destruct (register_check req) as [req'|e]; [|done]. destruct (_ <=? _) eqn:E; [done|]. cbv zeta.
  apply Z.leb_gt in E. unfold AuthzTx, CreateOAuthClient. destruct (tb_clients d !! (PrefixClient +:+ id)) eqn:Hn; [done|]. intros [= <- _].
  eapply Z.le_trans; [by apply count_insert|]. unfold RegistrationsPerSourcePerHour in *. lia.
Qed.
End Budget.

(** ** A concrete run: a registration, a page, a grant *)

Module Served.
Import Demo.
#[local] Existing Instance quote_demo.

Definition cb : string := "http://127.0.0.1/cb".
Definition cb2 : string := "http://127.0.0.1:53211/cb".
Definition request : registrationRequest := mkRegistration "" "app" [cb] [] [] "".
Definition checked := register_read request "local" (at_ms 1000) empty_db.
Definition registering := register_finish "1" "{}" "local" (at_ms 1000) checked empty_db.
Definition response : registrationResponse := match registering.2 with Ok a => a | Err _ => mkResponse "" 0 "" [] [] [] "" end.
Definition registered : Sys * Log := (ran initial registering.1, [(rs_ClientID response, rs_RedirectURIs response)]).
Definition issued : Sys :=
  ran registered.1 (IssueEnrollmentCode "laptop" [] [] (Ok Hour) "e1" "code digest" "local" (at_ms 1000) (sy_db registered.1)).1.

Definition params : authorizeParams :=
  mkAuthorizeParams "code" "client_1" cb2 "st" "abcdefghijklmnopqrstuvwxyzABCDEFGHIJKLMNOPQ" "S256" "https://gm.example/mcp" [].
Definition context : contextPayload :=
  match authorizeGet "https://gm.example" params (Some "handle"%string) (Ok Hour) (at_ms 1500) (sy_db issued) with
  | AuthorizePage ctx _ _ => ctx
  | _ => mkContextPayload "" "" "" "" "" "" "" []
  end.
Definition submitting_read : SubmitRead :=
  submit_read redirect_registered None context [ScopeMessagesRead] "code digest" "local" (at_ms 2000) (sy_db issued).
Definition submitting : Sys := chose issued (PSubmit context "local" submitting_read).
Definition submitted : Sys :=
  drew (ran submitting (submit_finish context "q1" "form" "local" (Ok Hour) (at_ms 3000) submitting_read (sy_db submitting)).1) "q1".
Definition approving_read := approve_read "q1" None (at_ms 4000) (sy_db submitted).
Definition approving : Sys := chose submitted (PApprove "q1" "local" approving_read).
Definition approved : Sys := ran approving (approve_finish "q1" "local" (at_ms 5000) approving_read (sy_db approving)).1.
Definition completing_read : CompleteRead := complete_read "q1" (at_ms 6000) (sy_db approved).
Definition completing : Sys := chose approved (PComplete completing_read).

Lemma pending_completing : PComplete completing_read ∈ sy_pool completing.
Proof. by left. Qed.

Lemma nobody y y' : dom (tb_clients (sy_db y')) = dom (tb_clients (sy_db y)) -> registers_nobody y y'.
Proof. intros E id c Hc. apply elem_of_dom. rewrite <- E. apply elem_of_dom. eauto. Qed.

Ltac serve from mid := apply (rtc_l _ (from, registered.2) (mid, registered.2)); [apply (sv_step (from, registered.2)); [|apply nobody; by vm_compute]|].

Lemma steps_registered : rtc Serve (initial, []) registered.
Proof. apply rtc_once. apply (sv_register (initial, []) request "local" (at_ms 1000) empty_db "1" "{}" (at_ms 1000)); [by apply ticks|by vm_compute]. Qed.

Lemma steps_completing : rtc Serve registered (completing, registered.2).
Proof.
  change registered with (registered.1, registered.2).
  serve registered.1 issued; [by apply (st_issue redirect_registered registered.1); [apply ticks|]|].
  serve issued submitting; [by apply (st_submit_read redirect_registered issued)|].
  serve submitting submitted; [by apply (st_submit_finish redirect_registered submitting); [left|apply ticks|set_solver]|].
  serve submitted approving; [by apply (st_approve_read redirect_registered submitted)|].
  serve approving approved; [by apply (st_approve_finish redirect_registered approving); [left|apply ticks]|].
  serve approved completing; [by apply (st_complete_read redirect_registered approved)|].
  apply rtc_refl.
Qed.

Lemma steps : rtc Serve (initial, []) (completing, registered.2).
Proof. etransitivity; [apply steps_registered|apply steps_completing]. Qed.
End Served.

(** Nineteen registrations of one source, then two that both counted nineteen. *)
Definition registers (n : nat) (d0 d : AuthDB) : AuthDB :=
  (register_finish (Encoding.FormatInt (Z.of_nat n)) "{}" "local" (Demo.at_ms 1000) (register_read (LO := ascii_lower) (GF := quote_demo) Served.request "local" (Demo.at_ms 1000) d0) d).1.
Definition nineteen : AuthDB := fold_left (fun d n => registers n d d) (seq 0 19) empty_db.

Lemma registrations_race :
  CountRegistrationsSince "local" 0 (registers 21 (registers 20 nineteen nineteen) (registers 20 nineteen nineteen)) = 20 /\
  CountRegistrationsSince "local" 0 (registers 21 nineteen (registers 20 nineteen nineteen)) = 21.
Proof. by vm_compute. Qed.

(** The code goes to the port that the page was asked for. *)
Lemma no_open_redirect_witness :
  (complete_finish "h1" (Ok Hour) (Demo.at_ms 7000) Served.completing_read (sy_db Served.completing)).2 =
    RedirectCode Served.cb2 "st" {[ScopeMessagesRead]} /\
  (exists req, Served.cb2 = re_RedirectURI req /\ registered_for Served.registered.2 (re_ClientID req) Served.cb2) /\
  registered_for Served.registered.2 "client_1" Served.cb2 /\ cx_RedirectURI Served.context = Served.cb2.
Proof.
  destruct (no_open_redirect (Served.completing, Served.registered.2) Served.steps) as (Hget & Hdone & _).
  assert ((complete_finish "h1" (Ok Hour) (Demo.at_ms 7000) Served.completing_read (sy_db Served.completing)).2 =
    RedirectCode Served.cb2 "st" {[ScopeMessagesRead]}) as E by by vm_compute.
  split; [exact E|]. split; [|split].
  - specialize (Hdone Served.completing_read "h1"%string (Ok Hour) (Demo.at_ms 7000) Served.pending_completing). cbn [fst] in Hdone. rewrite E in Hdone.
    destruct Hdone as (req & _ & Eu & Hfor). exists req. split; [exact Eu|]. exact Hfor.
  - destruct (Hget "https://gm.example"%string Served.params (Some "handle"%string) (Ok Hour) (Demo.at_ms 1500)) as [_ Hans]. cbn [fst snd] in Hans.
    assert (exists ctx e n, authorizeGet "https://gm.example" Served.params (Some "handle"%string) (Ok Hour) (Demo.at_ms 1500) (sy_db Served.completing) =
      AuthorizePage ctx e n) as (ctx & e & n & Ea) by (eexists _, _, _; vm_compute; reflexivity).
    rewrite Ea in Hans. destruct Hans as (_ & _ & Hfor & _). exact Hfor.
  - by vm_compute.
Defined.
