(* ===== verification/Browser.v ===== *)
(** * The browser that was shown the page (internal/oauth/compare.go, authorize_post.go,
      requests.go)

    The approval page comes with two signed values: the cookie, a random handle, and the
    hidden context, which carries the handle's digest and the parameters.  The checks of a
    submission and of a completion, over the MAC, the digest and the JSON of the standard
    library.  Nobody forges a MAC: a value that verifies was signed.  The theorem: what is
    submitted and what is completed comes from the browser that was shown the page, with
    the parameters of that page and no others. *)

From S2P Require Import Prelude Ids GoStrings Encoding Capability Supervisor Cursor Tickets MediaCache Redirects Scopes Limits AuthzStore Sessions Grants Credentials Authority Provenance Rows Clients.

Local Open Scope Z_scope.

(** ** Digests and MACs (compare.go) *)

Definition domainAuthorizationCode : string := "agent-gm/oauth/authorization-code/v1".
Definition domainCookieHandle : string := "agent-gm/oauth/context-handle/v1".
Definition domainFormToken : string := "agent-gm/oauth/form-token/v1".
Definition domainContext : string := "agent-gm/oauth/context/v1".

(** [hex.EncodeToString] gives digits and small letters. *)
Definition hex_digit (b : Z) : bool := in_range b 48 57 || in_range b 97 102.
Class HexDigest `{SHA256} := hex_text s : Forall (fun b => hex_digit b = true) (bytes (sha256_hex s)).

Section Compare.
Context `{SHA256} `{Crypto}.

Definition authorizationCodeHash (value : string) : string := digest domainAuthorizationCode [value].
Definition handleHash (handle : string) : string := digest domainCookieHandle [handle].
Definition formTokenHash (token : string) : string := digest domainFormToken [token].

(** The stored text is decoded, in either case, and compared with the digest. *)
Definition equalHashHex (computed storedHex : string) : bool := bool_decide (lower_ascii storedHex = computed).

Definition keyed (key domain text : string) : string := EncodeToString (hmac_sha256 key (domain +:+ String NULc text)).

Definition formTokenFor (key handle : string) : string := keyed key domainFormToken handle.

Definition signPayload (key payload : string) : string :=
  let encoded := EncodeToString payload in encoded +:+ String DOT (keyed key domainContext encoded).

Definition verifyPayload (key signed : string) : option string :=
  '(encoded, presentedMAC) ← Cut DOT signed;
  if decide (presentedMAC = keyed key domainContext encoded) then DecodeString encoded else None.

(** [newSecretValue], of 32 random bytes. *)
Definition newSecretValue (buf : string) : string := EncodeToString buf.

Definition verifyPKCE (presentedVerifier storedChallenge : string) : bool :=
  bool_decide (EncodeToString (sha256_sum presentedVerifier) = storedChallenge).
End Compare.

(** *** Enrollment codes *)

Class Upper := { ToUpper : string -> string }.

Definition enrollmentAlphabet : string := "0123456789ABCDEFGHJKMNPQRSTVWXYZ".

(** The letter of a random byte. *)
Definition code_letter (v : Z) : Ascii.ascii := default Ascii.zero (String.get (Z.to_nat (v mod 32)) enrollmentAlphabet).

Fixpoint code_letters (i : nat) (buf : string) : string :=
  match buf with
  | EmptyString => EmptyString
  | String c buf' =>
      let rest := String (code_letter (byte_of c)) (code_letters (S i) buf') in
      if (0 <? i)%nat && (i mod 4 =? 0)%nat then String (char_of 45) rest else rest
  end.

(** Of 16 random bytes. *)
Definition NewEnrollmentCode (buf : string) : string := code_letters 0 buf.

Definition in_alphabet (r : Z) : bool := existsb (Z.eqb r) (bytes enrollmentAlphabet).

Definition CanonicalEnrollmentCode `{Upper} (raw : string) : string :=
  String.concat "" (filter (fun p => in_alphabet p.1 = true) (pieces (ToUpper (TrimSpace raw)))).*2.

Definition EnrollmentCodeHash `{SHA256} `{Upper} (raw : string) : string := sha256_hex (CanonicalEnrollmentCode raw).

(** ** The signed context *)

(** encoding/json on the context and its expiry: what is not valid UTF-8 comes back
    repaired. *)
Class ContextJSON := {
  context_marshal : contextPayload -> Z -> string;
  context_unmarshal : string -> option (contextPayload * Z);
  valid_text : string -> string;
}.

Definition repaired `{ContextJSON} (c : contextPayload) : contextPayload :=
  mkContextPayload (valid_text (cx_HandleHash c)) (valid_text (cx_ClientID c)) (valid_text (cx_RedirectURI c)) (valid_text (cx_State c))
    (valid_text (cx_Challenge c)) (valid_text (cx_Method c)) (valid_text (cx_Resource c)) (valid_text <$> cx_Scopes c).

(** A handle is no JSON of an object. *)
Class ContextJSONLaws `{ContextJSON} := {
  unmarshal_marshal c e : context_unmarshal (context_marshal c e) = Some (repaired c, e);
  valid_text_valid s : ValidString s = true -> valid_text s = s;
  handle_not_json s : validChallenge s = true -> context_unmarshal s = None;
}.

(** ** The checks of the browser (authorize_post.go) *)

Definition clip (v : string) : string := if (String.length v <=? 200)%nat then v else String.substring 0 200 v +:+ "...".

Record Form := mkForm {
  fm_context : string;
  fm_form_token : string;
  fm_client_id : string;
  fm_redirect_uri : string;
  fm_state : string;
  fm_code_challenge : string;
  fm_code_challenge_method : string;
  fm_resource : string;
  fm_scope : string;
  fm_scope_selected : list string;
  fm_enrollment_code : string;
}.

Definition echoes (f : Form) (c : contextPayload) : list (string * string) :=
  [(fm_client_id f, cx_ClientID c); (fm_redirect_uri f, cx_RedirectURI c); (fm_state f, cx_State c); (fm_code_challenge f, cx_Challenge c);
   (fm_code_challenge_method f, cx_Method c); (fm_resource f, cx_Resource c); (fm_scope f, String.concat " " (cx_Scopes c))].

Definition equalConstantTime (presented expected : string) : bool := bool_decide (presented = expected).

Definition invalid_page (text : string) : oauthError := badRequest "invalid_request" text.
Definition expired_page : oauthError := invalid_page "this page has expired; start the authorization again".

Section Browser.
Context `{SHA256} `{Crypto} `{ContextJSON} {GF : GoFmt} {LO : Lower} {FO : Folding} {UP : Upper} (issuer key : string).

(** The empty origin is an absent one. *)
Definition checkOrigin (origin : string) : option oauthError :=
  if decide (origin = ""%string) then None
  else if decide (origin = issuer) then None
  else Some (statusError 403 "invalid_request" ("this form may only be submitted from " +:+ issuer +:+ "; received Origin " +:+ strconv_Quote (clip origin))).

Definition requireSameOrigin (origin : string) : option oauthError :=
  if decide (origin = ""%string)
  then Some (statusError 403 "invalid_request" ("this form may only be submitted from " +:+ issuer +:+ ", and carries no Origin"))
  else checkOrigin origin.

(** [contextHandle]: the handle in the cookie. *)
Definition contextHandle (cookie : option string) : option string := cookie ≫= verifyPayload key.

(** Up to the echoes; a form that cannot be read is [None]. *)
Definition browser_check (origin : string) (cookie : option string) (form : option Form) (now : Z) : Result oauthError (string * contextPayload) :=
  match checkOrigin origin with
  | Some e => Err e
  | None =>
  match form with
  | None => Err (invalid_page "the form could not be read")
  | Some f =>
  match contextHandle cookie with
  | None => Err expired_page
  | Some handle =>
  match verifyPayload key (fm_context f) with
  | None => Err expired_page
  | Some raw =>
  match context_unmarshal raw with
  | None => Err (invalid_page "the form context is not readable")
  | Some (ctx, expires) =>
      if negb (equalHashHex (handleHash handle) (cx_HandleHash ctx)) then Err (invalid_page "this page does not belong to this browser session")
      else if expires <=? UnixMilli now then Err expired_page
      else if negb (equalConstantTime (fm_form_token f) (formTokenFor key handle)) then Err (invalid_page "the form token is not valid")
      else if negb (forallb (fun e => equalConstantTime e.1 e.2) (echoes f ctx))
      then Err (invalid_page "the form does not match the authorization it belongs to")
      else Ok (handle, ctx)
  end end end end end.

Definition no_context : contextPayload := mkContextPayload "" "" "" "" "" "" "" [].

(** POST /oauth/authorize up to its writes: the context and what the reads decide. *)
Definition authorizePost_read (origin : string) (cookie : option string) (form : option Form) (source : string) (r : Readings) (d : AuthDB)
    : contextPayload * SubmitRead :=
  match browser_check origin cookie form (rd_now r), form with
  | Ok (_, ctx), Some f =>
      (ctx, submit_read redirect_registered None ctx (fm_scope_selected f) (EnrollmentCodeHash (fm_enrollment_code f)) source r d)
  | Ok _, None => (no_context, SubmitRefused expired_page)
  | Err e, _ => (no_context, submit_read redirect_registered (Some e) no_context [] "" source r d)
  end.

(** ** The waiting page (requests.go) *)

Definition resolveRequest (cookie : option string) (id : string) (d : AuthDB) : option AuthorizationRequest :=
  handle ← contextHandle cookie;
  if decide (id = ""%string) then None
  else
    req ← AuthorizationRequestByID id d;
    if equalHashHex (handleHash handle) (re_HandleHash req) then Some req else None.

(** Whether the page is done, whether it is final, and what it says. *)
Definition page_message (status : string) : bool * bool * string :=
  if decide (status = AuthRequestPending) then (false, false, "The owner has to approve this before it can continue."%string)
  else if decide (status = AuthRequestApproved) then (true, false, "The owner approved your request. Click Continue to client to finish connecting."%string)
  else if decide (status = AuthRequestDenied) then (true, true, "The owner denied this request."%string)
  else if decide (status = AuthRequestCompleted) then (false, true, "This request has already been completed."%string)
  else (false, true, "This request expired before it was approved."%string).

Definition defaultPollInterval : Z := 2.

Record statusDTO := mkStatusDTO { st_RequestID : string; st_Status : string; st_ExpiresInSeconds : Z; st_PollIntervalSeconds : Z }.

Definition requestStatus (cookie : option string) (id : string) (now : Z) (d : AuthDB) : option statusDTO :=
  req ← resolveRequest cookie id d;
  let remaining := Z.quot (re_ExpiresAtMS req - UnixMilli now) 1000 in
  Some (mkStatusDTO (re_ID req) (effectiveStatus now req) (if remaining <? 0 then 0 else remaining) defaultPollInterval).

Inductive Gate : Type := GateNotFound | GateRefused (e : oauthError) | GateOpen (req : AuthorizationRequest).

(** What comes before the status in POST /oauth/requests/{id}/complete; [form_token] absent is a
    form that cannot be read. *)
Definition complete_gate (cookie : option string) (origin : string) (form_token : option string) (id : string) (d : AuthDB) : Gate :=
  match resolveRequest cookie id d with
  | None => GateNotFound
  | Some req =>
      match requireSameOrigin origin with
      | Some e => GateRefused e
      | None =>
          match form_token with
          | None => GateRefused (invalid_page "the form could not be read")
          | Some token =>
              if negb (equalConstantTime token (formTokenFor key (default ""%string (contextHandle cookie))))
              then GateRefused (invalid_page "the form token is not valid")
              else GateOpen req
          end
      end
  end.

Definition requestComplete_read (cookie : option string) (origin : string) (form_token : option string) (id : string) (r : Readings) (d : AuthDB)
    : Gate * CompleteRead :=
  match complete_gate cookie origin form_token id d with
  | GateOpen req => (GateOpen req, complete_read id r d)
  | GateNotFound => (GateNotFound, CompleteNotFound)
  | GateRefused e => (GateRefused e, CompleteError e)
  end.
End Browser.
