(* ===== verification/BrowserRuns.v ===== *)
(** * The browser that was shown the page: the theorems

    The pages that were shown, the rows that stand on them, and the system that shows,
    submits and completes them under every interleaving with the rest of the grant
    pipeline. *)

From S2P Require Import Prelude Ids GoStrings Encoding Capability Supervisor Cursor Tickets MediaCache Redirects Scopes Limits AuthzStore Sessions Grants Credentials Authority Provenance Rows Clients Browser Settings.

Local Open Scope Z_scope.

(** ** Secrets and signatures *)

Lemma encoded_bytes (P : Z -> Prop) s : (forall v, 0 <= v < 64 -> P (byte_of (digit64 v))) -> Forall P (bytes (EncodeToString s)).
Proof.
  intros HP. induction s as [|c0|c0 c1|c0 c1 c2 s IH] using string3_ind; cbn [EncodeToString bytes]; [constructor| | |].
  - destruct (group_one (byte_of c0) (byte_of_range c0)) as (_ & ? & ?). repeat constructor; by apply HP.
  - destruct (group_two (byte_of c0) (byte_of c1) (byte_of_range c0) (byte_of_range c1)) as (_ & _ & ? & ? & ?). repeat constructor; by apply HP.
  - destruct (group_three (byte_of c0) (byte_of c1) (byte_of c2) (byte_of_range c0) (byte_of_range c1) (byte_of_range c2)) as (_ & _ & _ & _ & ? & ? & ? & ?).
    repeat (constructor; [by apply HP|]). exact IH.
Qed.

Definition url_letter (b : Z) : bool := alnum b || one_of [45; 95] b.

Lemma digit_url v : 0 <= v < 64 -> byte_of (digit64 v) < 128 /\ url_letter (byte_of (digit64 v)) = true.
Proof.
  intros Hv. assert (v ∈ seqZ 0 64) as Hin by (apply elem_of_seqZ; lia).
  assert (forallb (fun v => bool_decide (byte_of (digit64 v) < 128 /\ url_letter (byte_of (digit64 v)) = true)) (seqZ 0 64) = true) as Hall by by vm_compute.
  rewrite forallb_forall in Hall. by apply list_elem_of_In, Hall, bool_decide_eq_true in Hin.
Qed.

Lemma encoded_length s : String.length (EncodeToString s) = ((4 * String.length s + 2) / 3)%nat.
Proof.
  induction s as [|c0|c0 c1|c0 c1 c2 s IH] using string3_ind; [done..|]. cbn [EncodeToString String.length]. rewrite IH.
  replace (4 * S (S (S (String.length s))) + 2)%nat with (4 * String.length s + 2 + 4 * 3)%nat by lia. rewrite Nat.div_add by lia. lia.
Qed.

(** A secret value has the shape of a challenge: 43 letters of the URL alphabet. *)
Lemma secret_value_shape buf : String.length buf = 32%nat -> validChallenge (newSecretValue buf) = true.
Proof.
  intros E. unfold validChallenge, newSecretValue. rewrite encoded_length, E. change ((4 * 32 + 2) / 3 =? 43)%nat with true. cbn [andb].
  rewrite runes_ascii by (apply (encoded_bytes (fun b => b < 128)); intros v Hv; by apply digit_url).
  apply forallb_forall. intros b Hb%list_elem_of_In. pose proof (encoded_bytes (fun b => url_letter b = true) buf) as Hl. rewrite Forall_forall in Hl.
  apply Hl; [|done]. intros v Hv. by apply digit_url.
Qed.

Section Signed.
Context `{Crypto} (key : string).

Lemma verify_sign p : verifyPayload key (signPayload key p) = Some p.
Proof.
  unfold verifyPayload, signPayload. cbv zeta. rewrite Cut_app by apply encoded_no_dot. cbn [mbind option_bind]. by rewrite decide_True, decode_encode by done.
Qed.
End Signed.

(** What of a value is left of the digest. *)
Section Digests.
Context `{HD : HexDigest} {CF : CollisionFree}.

Lemma digest_ascii d l : ascii_only (digest d l).
Proof.
  unfold ascii_only, digest. eapply Forall_impl; [apply hex_text|]. intros b. unfold hex_digit, in_range. intros E. bool_to_prop. lia.
Qed.

Lemma digest_lower d l : lower_ascii (digest d l) = digest d l.
Proof.
  apply bytes_inj. rewrite bytes_lower. pose proof (hex_text (String.concat NUL (d :: l))) as Hh. unfold digest. revert Hh. generalize (bytes (sha256_hex (String.concat NUL (d :: l)))).
  intros bs Hh. induction Hh as [|b bs Hb _ IH]; [done|]. rewrite fmap_cons, IH. f_equal. revert Hb. unfold low, hex_digit, in_range. repeat case_match; intros; bool_to_prop; lia.
Qed.

Lemma equal_digest d l stored : stored = digest d l -> forall v, equalHashHex v stored = true <-> v = stored.
Proof. intros -> v. unfold equalHashHex. rewrite digest_lower, bool_decide_eq_true. naive_solver. Qed.

Lemma handle_inj h h' : handleHash h = handleHash h' -> h = h'.
Proof. unfold handleHash, digest. intros E%sha256_inj. simpl in E. by repeat (apply (inj (String _)) in E || injection E as E). Qed.
End Digests.

Lemma ascii_valid s : ascii_only s -> ValidString s = true.
Proof. intros Hs. unfold ValidString. rewrite decode_ascii by done. induction (bytes s) as [|b l IH]; [done|]. simpl. apply IH. Qed.

(** *** Enrollment codes as they are typed *)

Fixpoint upper_ascii (s : string) : string :=
  match s with EmptyString => EmptyString | String c s' => String (if in_range (byte_of c) 97 122 then char_of (byte_of c - 32) else c) (upper_ascii s') end.

(** [strings.ToUpper] on ASCII. *)
Class UpperLaws `{Upper} : Prop := upper_known s : ascii_only s -> ToUpper s = upper_ascii s.

Notation chars := String.list_ascii_of_string.
Notation text_of := String.string_of_list_ascii.

Definition piece (c : Ascii.ascii) : Z * string := (byte_of c, String c "").

Lemma chars_bytes s : bytes s = byte_of <$> chars s.
Proof. induction s as [|c s IH]; [done|]. simpl. by rewrite IH. Qed.

Lemma join_piece l : String.concat "" (piece <$> l).*2 = text_of l.
Proof. induction l as [|c l IH]; [done|]. change (text_of (c :: l)) with (String c (text_of l)). rewrite <- IH. by destruct l. Qed.

Fixpoint drop_blank (l : list Ascii.ascii) : list Ascii.ascii :=
  match l with [] => [] | c :: l' => if IsSpace (byte_of c) then drop_blank l' else l end.

Lemma drop_piece l : drop_space (piece <$> l) = piece <$> drop_blank l.
Proof. induction l as [|c l IH]; [done|]. simpl. by destruct (IsSpace _). Qed.

(** The letters of the alphabet, in upper case. *)
Definition coded (l : list Ascii.ascii) : list Ascii.ascii := filter (fun c => in_alphabet (byte_of c) = true) (chars (upper_ascii (text_of l))).

Lemma coded_cons c l : coded (c :: l) = coded [c] ++ coded l.
Proof. unfold coded. simpl. rewrite !filter_cons. by case_decide. Qed.

Lemma coded_app l1 l2 : coded (l1 ++ l2) = coded l1 ++ coded l2.
Proof. induction l1 as [|c l1 IH]; [done|]. by rewrite <- app_comm_cons, coded_cons, IH, app_assoc, <- coded_cons. Qed.

Lemma blank_coded c : byte_of c < 128 -> IsSpace (byte_of c) = true -> coded [c] = [].
Proof. destruct c as [[] [] [] [] [] [] [] []]; vm_compute; done. Qed.

Lemma drop_coded l : Forall (fun c => byte_of c < 128) l -> coded (drop_blank l) = coded l /\ Forall (fun c => byte_of c < 128) (drop_blank l).
Proof.
  induction 1 as [|c l Hc Hl [IH1 IH2]]; [done|]. cbn [drop_blank]. destruct (IsSpace _) eqn:E; [|by split; [|constructor]].
  split; [|done]. by rewrite IH1, (coded_cons c), blank_coded.
Qed.

Lemma reverse_coded l : coded (reverse l) = reverse (coded l).
Proof.
  induction l as [|c l IH]; [done|]. rewrite reverse_cons, coded_app, IH, (coded_cons c l), reverse_app. f_equal.
  unfold coded. simpl. rewrite filter_cons. by case_decide.
Qed.

Section Enrollment.
Context `{UL : UpperLaws}.

Lemma upper_byte c : byte_of c < 128 -> byte_of (if in_range (byte_of c) 97 122 then char_of (byte_of c - 32) else c) < 128.
Proof. destruct c as [[] [] [] [] [] [] [] []]; vm_compute; done. Qed.

Lemma upper_ascii_only l : Forall (fun c => byte_of c < 128) l -> ascii_only (upper_ascii (text_of l)).
Proof. unfold ascii_only. induction 1 as [|c l Hc _ IH]; simpl; constructor; [by apply upper_byte|done]. Qed.

Lemma canonical_ascii raw : ascii_only raw -> CanonicalEnrollmentCode raw = text_of (coded (chars raw)).
Proof.
  intros Hr. assert (Forall (fun c => byte_of c < 128) (chars raw)) as Hl by (unfold ascii_only in Hr; by rewrite chars_bytes, Forall_fmap in Hr).
  unfold CanonicalEnrollmentCode, TrimSpace, GoStrings.join. rewrite (pieces_ascii raw) by exact Hr. change (fun c => (byte_of c, String c "")) with piece.
  rewrite drop_piece, <- fmap_reverse, drop_piece, <- fmap_reverse, join_piece.
  destruct (drop_coded _ Hl) as [E1 Hl1]. destruct (drop_coded (reverse (drop_blank (chars raw)))) as [E2 Hl2]; [by apply Forall_reverse|].
  set (l := reverse (drop_blank (reverse (drop_blank (chars raw))))) in *.
  assert (coded l = coded (chars raw)) as <- by (unfold l; by rewrite reverse_coded, E2, reverse_coded, reverse_involutive).
  assert (Forall (fun c => byte_of c < 128) l) as Hll by (by apply Forall_reverse). pose proof (upper_ascii_only _ Hll) as Hu.
  assert (ascii_only (text_of l)) as Ht.
  { unfold ascii_only. rewrite chars_bytes, Forall_fmap, String.list_ascii_of_string_of_list_ascii. exact Hll. }
  rewrite upper_known, pieces_ascii by done. change (fun c => (byte_of c, String c "")) with piece. unfold coded. rewrite <- (join_piece (filter _ _)).
  generalize (chars (upper_ascii (text_of l))). intros cs. f_equal. f_equal. induction cs as [|c cs IH]; [done|].
  rewrite fmap_cons, !filter_cons. cbn [piece fst]. case_decide; by rewrite IH.
Qed.

(** A new code, typed in either case with any blanks and hyphens, hashes as it was minted. *)
Lemma code_chars i buf : coded (chars (code_letters i buf)) = (fun c => code_letter (byte_of c)) <$> chars buf.
Proof.
  assert (forall v, 0 <= v < 256 -> coded [code_letter v] = [code_letter v]) as Hletter.
  { intros v Hv. assert (v ∈ seqZ 0 256) as Hin by (apply elem_of_seqZ; lia).
    assert (forallb (fun v => bool_decide (coded [code_letter v] = [code_letter v])) (seqZ 0 256) = true) as Hall by by vm_compute.
    rewrite forallb_forall in Hall. by apply list_elem_of_In, Hall, bool_decide_eq_true in Hin. }
  revert i. induction buf as [|c buf IH]; [done|]. intros i. cbn [code_letters chars fmap list_fmap].
  assert (coded (chars (String (code_letter (byte_of c)) (code_letters (S i) buf))) = code_letter (byte_of c) :: ((fun c => code_letter (byte_of c)) <$> chars buf)) as E.
  { cbn [chars]. rewrite coded_cons, IH, Hletter by apply byte_of_range. done. }
  destruct (_ && _); [|exact E]. cbn [chars] in *. rewrite coded_cons. exact E.
Qed.

Lemma enrollment_as_typed `{SHA256} buf raw : ascii_only raw -> coded (chars raw) = coded (chars (NewEnrollmentCode buf)) ->
  ascii_only (NewEnrollmentCode buf) -> EnrollmentCodeHash raw = EnrollmentCodeHash (NewEnrollmentCode buf) /\
    CanonicalEnrollmentCode raw = text_of ((fun c => code_letter (byte_of c)) <$> chars buf).
Proof. intros Hr E Hn. unfold EnrollmentCodeHash. rewrite !canonical_ascii, E by done. split; [done|]. unfold NewEnrollmentCode. by rewrite code_chars. Qed.
End Enrollment.

(** ** The pages

    A page that was shown: the handle of its cookie, its context and when it expires. *)
Record Page := mkPage { pg_handle : string; pg_context : contextPayload; pg_expires : Z }.

Record Web := mkWeb { wb_core : Sys * Log; wb_pages : list Page }.

Definition wb_sys (w : Web) : Sys := (wb_core w).1.
Definition wb_db (w : Web) : AuthDB := sy_db (wb_sys w).

Section Pages.
Context `{SHA256} `{Crypto} `{ContextJSON} {GF : GoFmt} {LO : Lower} {FO : Folding} {UP : Upper} (issuer key : string).

(** What the server signed: handles and contexts. *)
Definition signed (pages : list Page) (p : string) : Prop :=
  exists pg, pg ∈ pages /\ (p = pg_handle pg \/ p = context_marshal (pg_context pg) (pg_expires pg)).

(** Nobody has the key: what verifies was signed. *)
Definition unforged (pages : list Page) (v : string) : Prop := forall p, verifyPayload key v = Some p -> signed pages p.

Definition unforged_cookie (pages : list Page) (cookie : option string) : Prop := forall v, cookie = Some v -> unforged pages v.

(** A page is shown, with a handle that was never drawn before; its form is submitted; or
    another step of the service that reads no submission. *)
Inductive Browse (w : Web) : Web -> Prop :=
| br_page buf p ttl r ctx expires name :
    String.length buf = 32%nat -> newSecretValue buf ∉ pg_handle <$> wb_pages w ->
    authorizeGet issuer p (Some (handleHash (newSecretValue buf))) ttl r (wb_db w) = AuthorizePage ctx expires name ->
    Browse w (mkWeb (wb_core w) (mkPage (newSecretValue buf) ctx expires :: wb_pages w))
| br_submit origin cookie form source r ctx sr :
    unforged_cookie (wb_pages w) cookie -> (forall f, form = Some f -> unforged (wb_pages w) (fm_context f)) ->
    authorizePost_read issuer key origin cookie form source r (wb_db w) = (ctx, sr) ->
    Browse w (mkWeb (chose (wb_sys w) (PSubmit ctx source sr), (wb_core w).2) (wb_pages w))
| br_serve core' :
    Serve (wb_core w) core' -> (forall ctx source sr, PSubmit ctx source sr ∈ sy_pool core'.1 -> PSubmit ctx source sr ∈ sy_pool (wb_sys w)) ->
    Browse w (mkWeb core' (wb_pages w)).

Definition nothing_shown : Web := mkWeb (initial, []) [].

(** ** What stands on a page *)

(** A page as it was shown. *)
Record page_ok (log : Log) (pg : Page) : Prop := {
  po_handle : validChallenge (pg_handle pg) = true;
  po_digest : cx_HandleHash (pg_context pg) = handleHash (pg_handle pg);
  po_home : home log (cx_ClientID (pg_context pg)) (cx_RedirectURI (pg_context pg));
  po_method : cx_Method (pg_context pg) = "S256"%string;
  po_challenge : validChallenge (cx_Challenge (pg_context pg)) = true;
  po_resource : cx_Resource (pg_context pg) = Resource issuer;
  po_scopes : grantable (cx_Scopes (pg_context pg));
}.

(** The columns of a request are those of the context as JSON gives it back. *)
Definition from_page (pages : list Page) (v : View) : Prop := exists pg, pg ∈ pages /\ v = view_context (repaired (pg_context pg)).

Definition page_rows (pages : list Page) : Rows :=
  mkRows (fun _ _ => True) (from_page pages) (fun c => exists v, from_page pages v /\ c = code_of v).

#[local] Instance page_laws pages : RowLaws (page_rows pages).
Proof. intros v Hv. exists v. done. Qed.

Record web_ok (w : Web) : Prop := {
  wo_served : served (wb_core w);
  wo_pages : Forall (page_ok (wb_core w).2) (wb_pages w);
  wo_handles : NoDup (pg_handle <$> wb_pages w);
  wo_rows : all_rows_ok (page_rows (wb_pages w)) (wb_sys w);
}.

Lemma page_more log e pg : page_ok log pg -> page_ok (e :: log) pg.
Proof. intros []. split; try done. by apply home_more. Qed.

Lemma rows_shown pages pg y : all_rows_ok (page_rows pages) y -> all_rows_ok (page_rows (pg :: pages)) y.
Proof.
  assert (forall v, from_page pages v -> from_page (pg :: pages) v) as Hv by (intros v (p & ? & ?); exists p; split; [by right|done]).
  intros [Hh Hp]. split.
  - eapply rows_weaken; [..|exact Hh]; simpl; [done|exact Hv|]. intros c (v & ? & ?). eauto.
  - eapply Forall_impl; [exact Hp|]. intros p. by apply pending_weaken.
Qed.

(** ** Every step *)

Section Steps.
Context {HX : HexDigest} {CF : CollisionFree} {JL : ContextJSONLaws}.

Lemma unique_page w pg pg' : web_ok w -> pg ∈ wb_pages w -> pg' ∈ wb_pages w -> pg_handle pg = pg_handle pg' -> pg = pg'.
Proof.
  intros [_ _ Hd _] [i Hi]%list_elem_of_lookup [j Hj]%list_elem_of_lookup E.
  assert (i = j) as ->; [|congruence]. eapply NoDup_lookup; [exact Hd|..]; rewrite list_lookup_fmap; [by rewrite Hi|by rewrite Hj, E].
Qed.

(** JSON gives back the columns that are not free text. *)
Lemma repaired_hash log pg : page_ok log pg -> cx_HandleHash (repaired (pg_context pg)) = handleHash (pg_handle pg).
Proof. intros [_ Hd _ _ _ _ _]. cbn. rewrite Hd. apply valid_text_valid, ascii_valid, digest_ascii. Qed.

Lemma challenge_ascii s : validChallenge s = true -> ascii_only s.
Proof.
  unfold validChallenge. intros [_ Hs]%andb_true_iff. apply ascii_runes, Forall_forall. intros r Hr%list_elem_of_In.
  rewrite forallb_forall in Hs. specialize (Hs r Hr). revert Hs. unfold alnum, one_of, in_range. cbn [existsb]. rewrite orb_false_r, !orb_true_iff, !andb_true_iff, !Z.eqb_eq, !Z.leb_le. lia.
Qed.

(** What has the digest of a page's handle is the handle. *)
Lemma page_handle log pg handle : page_ok log pg ->
  equalHashHex (handleHash handle) (cx_HandleHash (repaired (pg_context pg))) = true <-> handle = pg_handle pg.
Proof.
  intros Hp. pose proof (repaired_hash _ _ Hp) as E. rewrite (equal_digest _ _ _ E), E. split; [apply handle_inj|by intros ->].
Qed.

Lemma signed_context w v raw ctx expires : web_ok w -> unforged (wb_pages w) v -> verifyPayload key v = Some raw ->
  context_unmarshal raw = Some (ctx, expires) -> exists pg, pg ∈ wb_pages w /\ ctx = repaired (pg_context pg) /\ expires = pg_expires pg.
Proof.
  intros Hw Hu Hv Hj. destruct (Hu _ Hv) as (pg & Hin & [-> | ->]).
  - pose proof (wo_pages _ Hw) as Hp. rewrite Forall_forall in Hp. rewrite handle_not_json in Hj; [done|]. by apply (Hp pg Hin).
  - rewrite unmarshal_marshal in Hj. injection Hj as <- <-. eauto.
Qed.

(** What the checks let through. *)
Definition submitted_from (pages : list Page) (origin : string) (f : Form) (now : Z) (handle : string) (ctx : contextPayload) : Prop :=
  exists pg, pg ∈ pages /\ handle = pg_handle pg /\ ctx = repaired (pg_context pg) /\ UnixMilli now < pg_expires pg /\
    (origin = ""%string \/ origin = issuer) /\ fm_form_token f = formTokenFor key handle /\ Forall (fun e => e.1 = e.2) (echoes f ctx).

Lemma check_page w origin cookie form now handle ctx : web_ok w -> unforged_cookie (wb_pages w) cookie ->
  (forall f, form = Some f -> unforged (wb_pages w) (fm_context f)) -> browser_check issuer key origin cookie form now = Ok (handle, ctx) ->
  exists f, form = Some f /\ submitted_from (wb_pages w) origin f now handle ctx.
Proof.
  intros Hw Hc Hf. unfold browser_check. destruct (checkOrigin issuer origin) eqn:Eo; [done|]. destruct form as [f|]; [|done].
  destruct (contextHandle key cookie) as [h|] eqn:Eh; [|done]. destruct (verifyPayload key (fm_context f)) as [raw|] eqn:Ev; [|done].
  destruct (context_unmarshal raw) as [[c e]|] eqn:Ej; [|done]. destruct (equalHashHex _ _) eqn:Eq; [|done]. cbn [negb].
  destruct (e <=? _) eqn:Ee; [done|]. unfold equalConstantTime at 1. destruct (bool_decide _) eqn:Et; [|done]. cbn [negb].
  destruct (forallb _ _) eqn:Eb; [|done]. cbn [negb]. intros [= -> ->]. exists f. split; [done|].
  destruct (signed_context w _ _ _ _ Hw (Hf f eq_refl) Ev Ej) as (pg & Hin & -> & ->). exists pg. split; [done|].
  pose proof (wo_pages _ Hw) as Hp. rewrite Forall_forall in Hp. specialize (Hp pg Hin).
  apply (page_handle _ _ _ Hp) in Eq as ->.
  apply bool_decide_eq_true in Et. split_and!; try done; [lia| |].
  - unfold checkOrigin in Eo. repeat case_decide; [by left|by right|done].
  - rewrite forallb_forall in Eb. apply Forall_forall. intros x Hx%list_elem_of_In. by apply Eb, bool_decide_eq_true in Hx.
Qed.

(** The page's own form passes. *)
Lemma page_check w pg origin f now : web_ok w -> pg ∈ wb_pages w -> UnixMilli now < pg_expires pg -> (origin = ""%string \/ origin = issuer) ->
  fm_context f = signPayload key (context_marshal (pg_context pg) (pg_expires pg)) -> fm_form_token f = formTokenFor key (pg_handle pg) ->
  Forall (fun e => e.1 = e.2) (echoes f (repaired (pg_context pg))) ->
  browser_check issuer key origin (Some (signPayload key (pg_handle pg))) (Some f) now = Ok (pg_handle pg, repaired (pg_context pg)).
Proof.
  intros Hw Hin He Ho Ec Et Hall. unfold browser_check. assert (checkOrigin issuer origin = None) as ->.
  { unfold checkOrigin. destruct Ho as [-> | ->]; repeat case_decide; done. }
  unfold contextHandle. cbn [mbind option_bind]. rewrite verify_sign, Ec, verify_sign, unmarshal_marshal.
  pose proof (wo_pages _ Hw) as Hp. rewrite Forall_forall in Hp. specialize (Hp pg Hin).
  rewrite (proj2 (page_handle _ _ _ Hp)) by done. cbn [negb].
  rewrite (proj2 (Z.leb_gt _ _) He). unfold equalConstantTime. rewrite Et, bool_decide_eq_true_2 by done. cbn [negb].
  rewrite (proj2 (forallb_forall _ _)); [done|]. intros x Hx. rewrite Forall_forall in Hall. by apply bool_decide_eq_true, Hall, list_elem_of_In.
Qed.

Lemma page_of w pg : web_ok w -> pg ∈ wb_pages w -> page_ok (wb_core w).2 pg.
Proof. intros Hw. pose proof (wo_pages _ Hw) as Hp. rewrite Forall_forall in Hp. apply Hp. Qed.

(** *** Showing a page *)

Lemma shown_page s buf p ttl r ctx expires name : served s -> String.length buf = 32%nat ->
  authorizeGet issuer p (Some (handleHash (newSecretValue buf))) ttl r (sy_db s.1) = AuthorizePage ctx expires name ->
  page_ok s.2 (mkPage (newSecretValue buf) ctx expires).
Proof.
  intros (_ & [Hc _ _] & _) Hbuf. unfold authorizeGet. destruct (tb_clients _ !! ap_ClientID p) as [client|] eqn:Ec; [|done].
  destruct (registrationExpired _ client); [done|]. destruct (MatchRegisteredRedirect _ _) as [verified|] eqn:Em; [|done].
  cbv zeta. destruct (validateAuthorize _ _ _) as [p'|[code description]] eqn:Ev; [|unfold redirectError; by destruct (url_Parse _)].
  apply validate_exact in Ev as (_ & _ & Emeth & Ech & _ & Hsc & E1 & E2 & E3 & E4 & E5 & E6). cbn in E1, E2, E3, E4, E5, Emeth, Ech.
  intros [= <- _ _]. split; cbn; try done.
  - by apply secret_value_shape.
  - rewrite E1, E2. exists (cl_redirect_uris client). split; [by apply (Hc _ _ Ec)|]. apply bool_decide_eq_true.
    pose proof Em as (-> & _)%match_some. by rewrite Em.
  - by rewrite E5.
  - by rewrite E4.
Qed.

(** *** Submitting it *)

Lemma post_read_shape origin cookie form source r d ctx sr : authorizePost_read issuer key origin cookie form source r d = (ctx, sr) ->
  exists browser selected hash, sr = submit_read redirect_registered browser ctx selected hash source r d /\
    (browser = None -> exists handle, browser_check issuer key origin cookie form (rd_now r) = Ok (handle, ctx)).
Proof.
  unfold authorizePost_read. destruct (browser_check _ _ _ _ _ _) as [[handle c]|e] eqn:E; [|intros [= <- <-]; by eexists (Some e), _, _].
  destruct form as [f|]; [intros [= <- <-]; eexists None, _, _; eauto|].
  exfalso. revert E. unfold browser_check. by destruct (checkOrigin _ _).
Qed.

Lemma submitted_rows w origin cookie form source r ctx sr : web_ok w -> unforged_cookie (wb_pages w) cookie ->
  (forall f, form = Some f -> unforged (wb_pages w) (fm_context f)) ->
  authorizePost_read issuer key origin cookie form source r (wb_db w) = (ctx, sr) -> pending_rows (page_rows (wb_pages w)) (PSubmit ctx source sr).
Proof.
  intros Hw Hc Hf (browser & selected & hash & -> & Hb)%post_read_shape. unfold submit_read. destruct (Check _ _ _ _); [done|].
  destruct browser as [e|]; [done|]. destruct (Hb eq_refl) as [handle Hk]. destruct (check_page _ _ _ _ _ _ _ Hw Hc Hf Hk) as (f & _ & pg & Hin & _ & -> & _).
  repeat case_match; try done. by exists pg.
Qed.

(** *** Everything else *)

Lemma rows_serve pages core core' : Serve core core' -> all_rows_ok (page_rows pages) core.1 ->
  (forall ctx source sr, PSubmit ctx source sr ∈ sy_pool core'.1 -> PSubmit ctx source sr ∈ sy_pool core.1) -> all_rows_ok (page_rows pages) core'.1.
Proof.
  intros Hst Hok Hsub. destruct Hst as [y' Hst _|req source r0 d0 id metadata r d' response _ E|req d0 metadata source r d' id row _ E].
  - eapply rows_step; [apply page_laws|exact Hst|exact Hok|by right|]. intros ctx source sr Hin%Hsub. destruct Hok as [_ Hp]. rewrite Forall_forall in Hp. by apply Hp.
  - unfold register_finish in E. destruct (register_read _ _ _ _); [|done]. cbv zeta in E. destruct (AuthzTx _ _ _) as [d1 res] eqn:Htx.
    apply AuthzTx_inv in Htx as [(e & -> & _)|(u & -> & Htx)]; [done|]. injection E as -> _. destruct Hok as [Hh Hp]. split; [|done].
    eapply stays_CreateClient; [|exact Hh|exact Htx]. done.
  - unfold static_finish in E. destruct (static_read _ _); [|done]. cbv zeta in E. destruct (AuthzTx _ _ _) as [d1 res] eqn:Htx.
    apply AuthzTx_inv in Htx as [(e & -> & _)|(u & -> & Htx)]; [done|]. injection E as -> _ _. destruct Hok as [Hh Hp]. split; [|done].
    eapply (stays_bind (page_rows pages)); [by apply stays_CreateClient|intros ?; apply stays_AppendAudit|exact Hh|exact Htx].
Qed.

Lemma log_grows core core' : Serve core core' -> exists l, core'.2 = l ++ core.2.
Proof. intros []; [by exists []|by eexists [_]..]. Qed.

Lemma page_grows log l pg : page_ok log pg -> page_ok (l ++ log) pg.
Proof. intros Hp. induction l as [|e l IH]; [done|]. by apply page_more. Qed.

Lemma web_step w w' : web_ok w -> Browse w w' -> web_ok w'.
Proof.
  intros Hw [buf p ttl r ctx expires name Hbuf Hnew Hget|origin cookie form source r ctx sr Hc Hf E|core' Hst Hsub].
  - destruct Hw as [Hs Hp Hd Hr]. split; cbn; [done| | |by apply rows_shown]; constructor; try done. by eapply shown_page.
  - pose proof (submitted_rows _ _ _ _ _ _ _ _ Hw Hc Hf E) as Hsub. apply post_read_shape in E as (browser & selected & hash & -> & _).
    destruct Hw as [Hs Hp Hd [Hh Hpool]]. split; cbn; [|done..|].
    + apply served_step; [done|by apply (st_submit_read redirect_registered (wb_sys w))|]. intros id c Hid. by exists c.
    + split; [done|]. by constructor.
  - destruct Hw as [Hs Hp Hd Hr]. split; cbn; [by eapply served_serve| |done|by eapply rows_serve].
    destruct (log_grows _ _ Hst) as [l ->]. eapply Forall_impl; [exact Hp|]. intros pg. apply page_grows.
Qed.

Lemma web_reachable w : rtc Browse nothing_shown w -> web_ok w.
Proof.
  assert (web_ok nothing_shown) as Hnone.
  { split; [apply served_initial|constructor..|]. split; [apply rows_empty|constructor]. }
  intros Hr. revert Hnone. generalize nothing_shown as w0, Hr. clear Hr. intros w0 Hr. induction Hr as [|w1 w2 w3 Hst _ IH]; [done|]. intros Hw. by eapply IH, web_step.
Qed.

(** *** Completing it *)

Lemma same_origin origin : requireSameOrigin issuer origin = None <-> origin <> ""%string /\ origin = issuer.
Proof. unfold requireSameOrigin, checkOrigin. repeat case_decide; naive_solver. Qed.

Lemma request_page w id req : web_ok w -> AuthorizationRequestByID id (wb_db w) = Some req ->
  exists pg, pg ∈ wb_pages w /\ view_request req = view_context (repaired (pg_context pg)).
Proof.
  intros Hw. unfold AuthorizationRequestByID. destruct (tb_requests _ !! id) as [q|] eqn:E; [|done]. intros [= <-].
  destruct (wo_rows _ Hw) as [[_ Hq _] _]. exact (Hq id q E).
Qed.

Lemma gate_exact w cookie origin token id req : web_ok w ->
  complete_gate issuer key cookie origin token id (wb_db w) = GateOpen req <->
  id <> ""%string /\ AuthorizationRequestByID id (wb_db w) = Some req /\ origin <> ""%string /\ origin = issuer /\
    exists pg, pg ∈ wb_pages w /\ contextHandle key cookie = Some (pg_handle pg) /\ token = Some (formTokenFor key (pg_handle pg)) /\
      view_request req = view_context (repaired (pg_context pg)).
Proof.
  intros Hw. unfold complete_gate, resolveRequest. destruct (contextHandle key cookie) as [handle|]; cbn [mbind option_bind].
  2: { split; [done|]. by intros (_ & _ & _ & _ & pg & _ & ? & _). }
  destruct (decide (id = ""%string)) as [|Hid]; [split; [done|by intros (? & _)]|].
  destruct (AuthorizationRequestByID id (wb_db w)) as [req'|] eqn:Er; cbn [mbind option_bind]; [|split; [done|by intros (_ & ? & _)]].
  destruct (request_page _ _ _ Hw Er) as (pg & Hin & Ev). pose proof (page_of _ _ Hw Hin) as Hp.
  assert (re_HandleHash req' = cx_HandleHash (repaired (pg_context pg))) as Eh by (exact (f_equal vw_handle Ev)). rewrite Eh.
  destruct (equalHashHex _ _) eqn:Eq.
  2: { split; [done|]. intros (_ & [= ->] & _ & _ & pg' & Hin' & [= ->] & _ & Ev'). exfalso. apply not_true_iff_false in Eq. apply Eq.
    assert (cx_HandleHash (repaired (pg_context pg)) = cx_HandleHash (repaired (pg_context pg'))) as -> by (rewrite <- Eh; exact (f_equal vw_handle Ev')).
    by apply (page_handle _ _ _ (page_of _ _ Hw Hin')). }
  apply (page_handle _ _ _ Hp) in Eq as ->. pose proof (same_origin origin) as Ho. destruct (requireSameOrigin issuer origin).
  { split; [done|]. intros (_ & _ & H3 & H4 & _). by specialize (proj2 Ho (conj H3 H4)). }
  destruct (proj1 Ho eq_refl) as [Ho1 Ho2]. destruct token as [token|]; [|split; [done|by intros (_ & _ & _ & _ & ? & _ & _ & ? & _)]]. unfold equalConstantTime. cbn [default].
  destruct (bool_decide _) eqn:Et; cbn [negb].
  - apply bool_decide_eq_true in Et as ->. split; [intros [= <-]|by intros (_ & [= ->] & _)]. split_and!; try done. by exists pg.
  - apply bool_decide_eq_false in Et. split; [done|]. intros (_ & _ & _ & _ & pg' & _ & [= E] & [= ->] & _). by rewrite E in Et.
Qed.
End Steps.
End Pages.

(** ** The browser that was shown the page *)

Section Property.
Context `{HX : HexDigest} {CF : CollisionFree} `{Crypto} `{JL : ContextJSONLaws} {GF : GoFmt} {LO : Lower} {FO : Folding} {UP : Upper} {LL : LowerLaws} {FL : FoldingLaws}
  (issuer key : string).

(** What a page that was shown says. *)
Record shown_for (log : Log) (pg : Page) : Prop := {
  sf_home : registered_for log (cx_ClientID (pg_context pg)) (cx_RedirectURI (pg_context pg));
  sf_S256 : cx_Method (repaired (pg_context pg)) = "S256"%string /\ cx_Challenge (repaired (pg_context pg)) = cx_Challenge (pg_context pg);
  sf_challenge : validChallenge (cx_Challenge (pg_context pg)) = true;
  sf_resource : cx_Resource (pg_context pg) = Resource issuer;
  sf_scopes : grantable (cx_Scopes (pg_context pg));
}.

Lemma page_shown w pg : web_ok issuer w -> pg ∈ wb_pages w -> shown_for (wb_core w).2 pg.
Proof.
  intros Hw Hin. destruct (page_of _ _ _ Hw Hin) as [Hh _ Hhome Hm Hc Hr Hs]. split; try done; [by apply home_registered; [apply Hw|]|].
  split; cbn; [rewrite Hm; by apply valid_text_valid|by apply valid_text_valid, ascii_valid, challenge_ascii].
Qed.

(** C14: what is submitted and completed comes from the browser that was shown the page.
    In every reachable state of the service, with any pages shown, submitted and completed
    in any order, and nobody forging a MAC: a submission that passes the checks carries the
    cookie, the form token, the parameters and a form context of one page, which has not
    expired, and no foreign origin; and the page's own form passes until it expires.  The completion of a
    request opens exactly for the cookie and the form token of the page that the request
    came from, sent from this server's origin.  Every request, and every code, has the parameters of a
    page that was shown: an S256 challenge, this server's resource, known scopes without
    admin and a redirect URI of the client. *)
Theorem browser_bound w : rtc (Browse issuer key) nothing_shown w ->
  (forall pg pg', pg ∈ wb_pages w -> pg' ∈ wb_pages w -> pg_handle pg = pg_handle pg' -> pg = pg') /\
  (forall origin cookie f now handle ctx, unforged_cookie key (wb_pages w) cookie -> unforged key (wb_pages w) (fm_context f) ->
     browser_check issuer key origin cookie (Some f) now = Ok (handle, ctx) -> submitted_from issuer key (wb_pages w) origin f now handle ctx) /\
  (forall pg f origin now, pg ∈ wb_pages w -> UnixMilli now < pg_expires pg -> (origin = ""%string \/ origin = issuer) ->
     fm_context f = signPayload key (context_marshal (pg_context pg) (pg_expires pg)) -> fm_form_token f = formTokenFor key (pg_handle pg) ->
     Forall (fun e => e.1 = e.2) (echoes f (repaired (pg_context pg))) ->
     browser_check issuer key origin (Some (signPayload key (pg_handle pg))) (Some f) now = Ok (pg_handle pg, repaired (pg_context pg))) /\
  (forall cookie origin token id req, complete_gate issuer key cookie origin token id (wb_db w) = GateOpen req <->
     id <> ""%string /\ AuthorizationRequestByID id (wb_db w) = Some req /\ origin <> ""%string /\ origin = issuer /\
     exists pg, pg ∈ wb_pages w /\ contextHandle key cookie = Some (pg_handle pg) /\ token = Some (formTokenFor key (pg_handle pg)) /\
       view_request req = view_context (repaired (pg_context pg))) /\
  (forall id q, tb_requests (wb_db w) !! id = Some q -> exists pg, pg ∈ wb_pages w /\ shown_for (wb_core w).2 pg /\ view_row q = view_context (repaired (pg_context pg))) /\
  (forall h c, tb_codes (wb_db w) !! h = Some c -> exists pg, pg ∈ wb_pages w /\ shown_for (wb_core w).2 pg /\
     code_row c = code_of (view_context (repaired (pg_context pg)))).
Proof.
  intros Hr. pose proof (web_reachable _ _ w Hr) as Hw. split_and!.
  - intros pg pg'. by eapply unique_page.
  - intros origin cookie f now handle ctx Hc Hf Hk.
    assert (forall f', Some f = Some f' -> unforged key (wb_pages w) (fm_context f')) as Hf' by (by intros f' [= <-]).
    by destruct (check_page _ _ _ _ _ _ _ _ _ Hw Hc Hf' Hk) as (f0 & [= <-] & Hs).
  - intros pg f origin now. by apply page_check.
  - intros cookie origin token id req. by apply gate_exact.
  - intros id q Hq. destruct (wo_rows _ _ Hw) as [[_ Hreq _] _]. destruct (Hreq id q Hq) as (pg & Hin & E). exists pg. split_and!; [done|by apply page_shown|done].
  - intros h c Hc. destruct (wo_rows _ _ Hw) as [[_ _ Hcode] _]. destruct (Hcode h c Hc) as (v & (pg & Hin & ->) & E). exists pg. split_and!; [done|by apply page_shown|done].
Qed.
End Property.
(** ** A concrete run *)

(** Two hexadecimal digits of a byte. *)
Definition hex_char (v : Z) : Ascii.ascii := char_of (if v <? 10 then v + 48 else v + 87).
Fixpoint to_hex (s : string) : string :=
  match s with
  | EmptyString => EmptyString
  | String c s' => String (hex_char (byte_of c / 16)) (String (hex_char (byte_of c mod 16)) (to_hex s'))
  end.

Definition hex_value (c : Ascii.ascii) : Z := let b := byte_of c in if b <? 58 then b - 48 else b - 87.

Lemma hex_char_ok v : 0 <= v < 16 -> hex_value (hex_char v) = v /\ hex_digit (byte_of (hex_char v)) = true.
Proof.
  intros Hv. assert (v ∈ seqZ 0 16) as Hin by (apply elem_of_seqZ; lia).
  assert (forallb (fun v => bool_decide (hex_value (hex_char v) = v /\ hex_digit (byte_of (hex_char v)) = true)) (seqZ 0 16) = true) as Hall by by vm_compute.
  rewrite forallb_forall in Hall. by apply list_elem_of_In, Hall, bool_decide_eq_true in Hin.
Qed.

Lemma hex_byte c : 0 <= byte_of c / 16 < 16 /\ 0 <= byte_of c mod 16 < 16.
Proof. pose proof (byte_of_range c). split; [|apply Z.mod_pos_bound; lia]. Z.to_euclidean_division_equations; lia. Qed.

#[local] Instance hex_sha256 : SHA256 := {| sha256_hex := to_hex |}.

#[local] Instance hex_is_hex : HexDigest.
Proof.
  intros s. unfold sha256_hex. simpl. induction s as [|c s IH]; cbn [to_hex bytes]; [constructor|].
  destruct (hex_byte c) as [H1 H2]. repeat (constructor; [by apply hex_char_ok|]). exact IH.
Qed.

#[local] Instance hex_collision_free : CollisionFree.
Proof.
  intros s. unfold sha256_hex. simpl. induction s as [|c s IH]; intros [|d t]; try done. cbn [to_hex]. intros E.
  assert (forall v w, 0 <= v < 16 -> 0 <= w < 16 -> hex_char v = hex_char w -> v = w) as Hinj.
  { intros v w Hv Hw Ec. by rewrite <- (proj1 (hex_char_ok v Hv)), <- (proj1 (hex_char_ok w Hw)), Ec. }
  injection E as E1 E2 E3. destruct (hex_byte c), (hex_byte d). apply Hinj in E1, E2; [|done..]. f_equal; [|by apply IH].
  rewrite <- (char_of_byte c), <- (char_of_byte d). f_equal.
  rewrite (Z.div_mod (byte_of c) 16), (Z.div_mod (byte_of d) 16), E1, E2 by lia. done.
Qed.

(** A context as a number in binary, after a brace. *)
Fixpoint bits (p : positive) : string :=
  match p with xH => EmptyString | xO p => String (char_of 48) (bits p) | xI p => String (char_of 49) (bits p) end.
Fixpoint of_bits (s : string) : positive :=
  match s with EmptyString => xH | String c s' => (if Ascii.eqb c (char_of 48) then xO else xI) (of_bits s') end.

Lemma of_bits_bits p : of_bits (bits p) = p.
Proof. induction p as [p IH|p IH|]; simpl; by rewrite ?IH. Qed.

Definition context_tuple (c : contextPayload) (e : Z) : list string * Z :=
  (cx_HandleHash c :: cx_ClientID c :: cx_RedirectURI c :: cx_State c :: cx_Challenge c :: cx_Method c :: cx_Resource c :: cx_Scopes c, e).

Definition tuple_context (t : list string * Z) : option (contextPayload * Z) :=
  match t with (h :: i :: u :: s :: c :: m :: r :: scopes, e) => Some (mkContextPayload h i u s c m r scopes, e) | _ => None end.

#[local] Instance binary_json : ContextJSON := {|
  context_marshal c e := String (char_of 123) (bits (countable.encode (context_tuple c e)));
  context_unmarshal s :=
    match s with String c s' => if bool_decide (c = char_of 123) then countable.decode (of_bits s') ≫= tuple_context else None | EmptyString => None end;
  valid_text s := s;
|}.

#[local] Instance binary_laws : ContextJSONLaws.
Proof.
  split.
  - intros c e. cbn -[countable.encode countable.decode]. rewrite bool_decide_eq_true_2, of_bits_bits, countable.decode_encode by done. cbn. unfold repaired. cbn. replace ((fun s : string => s) <$> cx_Scopes c) with (cx_Scopes c) by (symmetry; apply list_fmap_id). by destruct c.
  - done.
  - intros [|c s] Hs; [done|]. cbn -[countable.encode countable.decode]. case_bool_decide as E; [|done]. subst c. apply challenge_ascii in Hs as Ha.
    unfold validChallenge in Hs. rewrite (runes_ascii _ Ha) in Hs. by apply andb_true_iff in Hs as [_ Hs].
Qed.

#[local] Instance ascii_upper : Upper := {| ToUpper := upper_ascii |}.

#[local] Instance ascii_upper_laws : UpperLaws.
Proof. by intros s. Qed.

Module Shown.
Import Demo.
#[local] Existing Instance quote_demo.

Definition issuer : string := "https://gm.example".
Definition key : string := "k".
Definition random (n : nat) : string := String.concat "" (repeat "*"%string n).
Definition code : string := NewEnrollmentCode (random 16).

Definition issued : Sys :=
  ran Served.registered.1 (IssueEnrollmentCode "laptop" [] [] (Ok Hour) "e1" (EnrollmentCodeHash code) "local" (at_ms 1000) (sy_db Served.registered.1)).1.

Definition handle : string := newSecretValue (random 32).
Definition answer : AuthorizeAnswer := Eval vm_compute in authorizeGet issuer Served.params (Some (handleHash handle)) (Ok Hour) (at_ms 1500) (sy_db issued).
Definition context : contextPayload := match answer with AuthorizePage ctx _ _ => ctx | _ => no_context end.
Definition expires : Z := match answer with AuthorizePage _ e _ => e | _ => 0 end.
Definition page : Page := mkPage handle context expires.
Definition cookie : option string := Some (signPayload key handle).

(** The code as a person types it. *)
Definition form : Form :=
  mkForm (signPayload key (context_marshal context expires)) (formTokenFor key handle) (cx_ClientID context) (cx_RedirectURI context) (cx_State context)
    (cx_Challenge context) (cx_Method context) (cx_Resource context) (String.concat " " (cx_Scopes context)) [ScopeMessagesRead] " aaaaaaaaaaaaaaaa ".

Definition posted : contextPayload * SubmitRead := Eval vm_compute in authorizePost_read issuer key issuer cookie (Some form) "local" (at_ms 2000) (sy_db issued).
Definition submitting : Sys := chose issued (PSubmit posted.1 "local" posted.2).
Definition submitted : Sys :=
  drew (ran submitting (submit_finish posted.1 "q1" "form" "local" (Ok Hour) (at_ms 3000) posted.2 (sy_db submitting)).1) "q1".
Definition approving_read := approve_read "q1" None (at_ms 4000) (sy_db submitted).
Definition approving : Sys := chose submitted (PApprove "q1" "local" approving_read).
Definition approved : Sys := ran approving (approve_finish "q1" "local" (at_ms 5000) approving_read (sy_db approving)).1.
Definition completing_read : CompleteRead := complete_read "q1" (at_ms 6000) (sy_db approved).
Definition completing : Sys := chose approved (PComplete completing_read).
Definition completed : Sys :=
  drew (ran completing (complete_finish "h1" (Ok Hour) (at_ms 7000) completing_read (sy_db completing)).1) "h1".

Definition web (pages : list Page) (y : Sys) : Web := mkWeb (y, Served.registered.2) pages.

(** A step of the pipeline that registers nobody and reads no submission. *)
Lemma serve_step pages y y' : Step redirect_registered y y' -> dom (tb_clients (sy_db y')) = dom (tb_clients (sy_db y)) ->
  (forall ctx source sr, PSubmit ctx source sr ∈ sy_pool y' -> PSubmit ctx source sr ∈ sy_pool y) -> Browse issuer key (web pages y) (web pages y').
Proof.
  intros Hst Hdom Hsub. apply (br_serve issuer key (web pages y) (y', Served.registered.2)); [|exact Hsub].
  apply (sv_step (y, Served.registered.2)); [exact Hst|]. by apply Served.nobody.
Qed.

Lemma chose_other y p : (forall ctx source sr, PSubmit ctx source sr <> p) -> forall ctx source sr, PSubmit ctx source sr ∈ sy_pool (chose y p) -> PSubmit ctx source sr ∈ sy_pool y.
Proof. intros Hp ctx source sr [E|Hin]%elem_of_cons; [by destruct (Hp _ _ _ E)|done]. Qed.

Lemma signed_unforged pages p : signed pages p -> unforged key pages (signPayload key p).
Proof. intros Hs q E. rewrite verify_sign in E. by injection E as <-. Qed.

Lemma cookie_unforged : unforged_cookie key [page] cookie.
Proof. intros v [= <-]. apply signed_unforged. exists page. split; [by left|by left]. Qed.

Lemma form_unforged : unforged key [page] (fm_context form).
Proof. apply signed_unforged. exists page. split; [by left|by right]. Qed.

Lemma steps_issued : rtc (Browse issuer key) nothing_shown (web [] issued).
Proof.
  apply (rtc_l _ _ (web [] Served.registered.1)).
  - apply (br_serve issuer key nothing_shown (Served.registered.1, Served.registered.2)); [|by intros ? ? ? ?%elem_of_nil].
    apply (sv_register (initial, []) Served.request "local" (at_ms 1000) empty_db "1" "{}" (at_ms 1000)); [by apply ticks|by vm_compute].
  - apply rtc_once, serve_step; [by apply (st_issue redirect_registered Served.registered.1); [apply ticks|]|vm_compute; reflexivity|done].
Qed.

Lemma steps_submitting : rtc (Browse issuer key) (web [] issued) (web [page] submitting).
Proof.
  apply (rtc_l _ _ (web [page] issued)).
  - apply (br_page issuer key (web [] issued) (random 32) Served.params (Ok Hour) (at_ms 1500) context expires "app"); [done|by apply not_elem_of_nil|by vm_compute].
  - apply rtc_once. apply (br_submit issuer key (web [page] issued) issuer cookie (Some form) "local" (at_ms 2000) posted.1 posted.2);
      [apply cookie_unforged|intros f [= <-]; apply form_unforged|by vm_compute].
Qed.

Lemma steps_completed : rtc (Browse issuer key) (web [page] submitting) (web [page] completed).
Proof.
  apply (rtc_l _ _ (web [page] submitted)).
  { apply serve_step; [by apply (st_submit_finish redirect_registered submitting); [left|apply ticks|set_solver]|vm_compute; reflexivity|done]. }
  apply (rtc_l _ _ (web [page] approving)).
  { apply serve_step; [by apply (st_approve_read redirect_registered submitted)|done|by apply chose_other]. }
  apply (rtc_l _ _ (web [page] approved)).
  { apply serve_step; [by apply (st_approve_finish redirect_registered approving); [left|apply ticks]|vm_compute; reflexivity|done]. }
  apply (rtc_l _ _ (web [page] completing)).
  { apply serve_step; [by apply (st_complete_read redirect_registered approved)|done|by apply chose_other]. }
  apply rtc_once, serve_step; [by apply (st_complete_finish redirect_registered completing); [left|apply ticks|set_solver]|vm_compute; reflexivity|done].
Qed.

Lemma shown_steps : rtc (Browse issuer key) nothing_shown (web [page] completed).
Proof. etransitivity; [apply steps_issued|]. etransitivity; [apply steps_submitting|apply steps_completed]. Qed.

(** The code that the run ends with. *)
Lemma completed_code : exists c, tb_codes (sy_db completed) !! "h1"%string = Some c /\ cd_redirect_uri c = Served.cb2.
Proof. eexists. split; vm_compute; reflexivity. Qed.

(** Without an Origin, or without the cookie, nothing is completed. *)
Lemma gates : (exists req, complete_gate issuer key cookie issuer (Some (formTokenFor key handle)) "q1" (sy_db completed) = GateOpen req) /\
  (exists e, complete_gate issuer key cookie "" (Some (formTokenFor key handle)) "q1" (sy_db completed) = GateRefused e) /\
  complete_gate issuer key None issuer (Some (formTokenFor key handle)) "q1" (sy_db completed) = GateNotFound.
Proof. split_and!; [eexists|eexists|]; vm_compute; reflexivity. Qed.
End Shown.

#[local] Existing Instance quote_demo.

Lemma browser_bound_witness :
  browser_check Shown.issuer Shown.key "" Shown.cookie (Some Shown.form) (Demo.at_ms 2000).(rd_now) = Ok (Shown.handle, Shown.context) /\
  (exists req, complete_gate Shown.issuer Shown.key Shown.cookie Shown.issuer (Some (formTokenFor Shown.key Shown.handle)) "q1" (sy_db Shown.completed) = GateOpen req /\
     view_request req = view_context Shown.context) /\
  exists c, tb_codes (sy_db Shown.completed) !! "h1"%string = Some c /\ code_row c = code_of (view_context Shown.context).
Proof.
  destruct (browser_bound (GF := quote_demo) (LO := ascii_lower) Shown.issuer Shown.key (Shown.web [Shown.page] Shown.completed) Shown.shown_steps) as (_ & _ & Hown & Hgate & _ & Hcode).
  split; [|split].
  - apply (Hown Shown.page Shown.form ""%string); [by left|by vm_compute|by left|reflexivity|reflexivity|by repeat constructor].
  - destruct Shown.gates as [[req Hreq] _]. exists req. split; [exact Hreq|].
    destruct (proj1 (Hgate _ _ _ _ _) Hreq) as (_ & _ & _ & _ & pg & Hin & _ & _ & E). apply list_elem_of_singleton in Hin as ->. exact E.
  - destruct Shown.completed_code as (c & Hc & _). exists c. split; [exact Hc|].
    destruct (Hcode _ _ Hc) as (pg & Hin & _ & E). apply list_elem_of_singleton in Hin as ->. exact E.
Defined.
